(* ===== verification/_CoqProject ===== *)
-Q . S2P
Prelude.v
Encoding.v
Types.v
EnergyFormula.v
EnergyStorage.v
Energy.v
PassStorage.v
PassLedger.v
PassCommit.v
Pass.v
Tx.v
Transfer.v
Content.v
BlockEvents.v
BalanceLoader.v
BalanceMonitor.v
InscriptionSource.v
BlockFrame.v
BlockSync.v
BlockAtomicity.v
StoreAgreement.v
SyncInvariant.v
Reorg.v
ReorgRecovery.v
BalanceCodec.v
BalanceDb.v
BalanceDbFacts.v
BalanceBlock.v
BalanceChain.v
BalanceDemo.v
BalanceUndo.v
BalanceBatch.v
BalanceProcess.v
BalanceFlush.v
BalanceRollback.v
BalanceIndexer.v
BalanceSync.v
BlockFiles.v
LocalLoader.v
BlockRecords.v
LoaderIndex.v
LoaderServes.v
LoaderChain.v
LoaderDemo.v
LoaderFollow.v
LoaderFaults.v
StateIds.v
BalanceService.v
BalanceServer.v
ServedRows.v
BalanceQueries.v
BalanceAggregates.v
BalanceReadiness.v
SnapshotDb.v
SnapshotPages.v
SnapshotExport.v
SnapshotInstall.v
SnapshotDemo.v
SnapshotSafety.v
SnapshotShards.v
SnapshotTables.v
SnapshotEntries.v
SnapshotFile.v
SnapshotCopy.v
SnapshotRestore.v
SnapshotFollow.v
RecordBalances.v
ServiceClient.v
ServiceContract.v
EndToEnd.v
PassService.v
PassServer.v
PassAsOf.v
PassAnswers.v
PassDemo.v
PassReplies.v
PassLeaderboard.v
PassPins.v
PassReadiness.v
LiveReplies.v
