(* ===== verification/Prelude.v ===== *)
(** * USDB: balance-history and the miner-pass indexer

    A verification library for the two Rust services under [src/src/btc]: [balance-history], which
    indexes the balances of all scripts of the bitcoin chain, and [usdb-indexer], which follows the
    miner passes (inscriptions) and computes their energy from those balances.  File names below are
    relative to [balance-history/src] (BH), [usdb-indexer/src] (UI) and [usdb-util/src] (UU).

    ** The program and its parts

    The node feeds both services.  [balance-history] applies blocks in batches to a RocksDB database
    (unspent outputs, balance rows per script and height, a chain of block commits, scripts, an undo
    journal), rolls back when the node's chain changes, serves the rows over JSON-RPC while it
    indexes, and exports and installs snapshots of a height.  [usdb-indexer] takes the blocks that [balance-history] has indexed, finds the mints and
    the moves of the tracked satoshis in them, changes the passes in SQLite, settles the balances of
    the owners of active passes, writes their energy to RocksDB, and commits the three stores together;
    when [balance-history] has replaced blocks it goes back to the common ancestor.  Beside the sync
    loop it answers queries on passes and energy from the same stores.

    ** Files, and the code they model

    Shared: [Prelude] (outcomes, integers at their width, the state-and-error monad, frames and
    preservation, list and map lemmas), [Encoding] (text and numbers as bytes), [Types] (records of
    UI [storage/*.rs], [index/content.rs]).

    The pass indexer:
    - [EnergyFormula] (UI [index/energy_formula.rs]), [EnergyStorage] (UI [storage/energy.rs]),
      [Energy] (UI [index/energy.rs]): growth and penalty, the energy store, its manager.
    - [PassStorage], [PassLedger] (UI [storage/pass.rs]): the tables as finite maps and an event log,
      every statement, the rollback; the invariant of the tables and the queries over the log.
    - [PassCommit] (UI [index/pass_commit.rs]), [Pass] (UI [index/pass.rs]): the commit of a block,
      the handlers of mints, transfers and burns.
    - [Tx] (UI [btc/tx.rs], [btc/utxo.rs]), [Transfer] (UI [index/transfer.rs]), [Content]
      (UI [index/content.rs]), [InscriptionSource] (UI [inscription/*.rs]), [BlockEvents]
      (UI [index/indexer/block_events.rs]): satpoints, tracked outputs, contents, the sources of
      inscriptions and their comparison, the ordered events of a block.
    - [BalanceLoader] (UI [balance/rpc.rs]), [BalanceMonitor] (UI [balance/monitor.rs]): batched and
      concurrent loads, the settlement.
    - [BlockSync] (UI [index/indexer.rs]): one block and a range of blocks over the three stores, with
      the recovery after a failure at any point; [BlockFrame], [BlockAtomicity], [StoreAgreement],
      [SyncInvariant], [RecordBalances] hold its invariants.
    - [Reorg], [ReorgRecovery] (UI [index/indexer.rs]): detection, common ancestor, resumable recovery.
    - [PassService] (UI [service/rpc.rs], [status.rs]), [PassServer] (UI [service/server.rs]): the query
      service, each access of a request at a moment of its own, and its leaderboard cache; [PassAsOf]
      (queries at a height while later blocks are written), [PassAnswers] (what a request answers),
      [PassDemo] (concrete stores), [PassReplies], [PassLeaderboard], [PassPins], [PassReadiness] hold
      its theorems.

    balance-history:
    - [BalanceCodec], [BalanceDb], [BalanceDbFacts] (BH [db/db.rs], UU [types.rs]): keys, values,
      column families as finite maps with ordered iterators, atomic batches, undo, rollback, resumption.
    - [BalanceBlock] (BH [index/block.rs], [cache/utxo.rs], [cache/balance.rs]), [BalanceChain] (what
      a chain determines), [BalanceDemo] (concrete chains), [BalanceUndo], [BalanceBatch],
      [BalanceProcess], [BalanceFlush], [BalanceRollback]: processing a batch, what it writes, undoing.
    - [BalanceIndexer], [BalanceSync] (BH [index/indexer.rs]): one iteration of the indexer.
    - [BlockFiles] (BH [btc/file_indexer.rs]), [LocalLoader] (BH [btc/local_loader.rs],
      [cache/block_file.rs], the index tables of [db/db.rs]): the client of an indexer far behind the
      tip, which reads blocks from the files of the node; [BlockRecords] (what a file holds),
      [LoaderIndex] (the merge and the sort), [LoaderServes] (the cache of files and the answers),
      [LoaderChain], [LoaderFollow] (from the files to the chain), [LoaderDemo] (concrete files),
      [LoaderFaults] (where it fails the indexer).
    - [StateIds] (UU [types.rs]): snapshot ids, local state commits, system state ids.
    - [BalanceService], [BalanceServer] (BH [service/rpc.rs], [service/server.rs],
      [service/state_ref.rs], [status.rs], [snapshot_provenance.rs]): the query service, each access
      of a request at a moment of its own; [ServedRows], [BalanceQueries], [BalanceAggregates],
      [BalanceReadiness] hold its theorems.
    - [SnapshotDb] (BH [db/snapshot.rs]), [SnapshotExport] (BH [index/snapshot.rs], the generators of
      [db/db.rs]), [SnapshotPages], [SnapshotInstall] (BH [index/snapshot.rs]): the file of a snapshot,
      its export with manifest and signature, and its installation by way of a staging database;
      [SnapshotDemo] (a concrete artifact), [SnapshotSafety] (what an installation can do to a node),
      [SnapshotShards], [SnapshotTables], [SnapshotEntries], [SnapshotFile] (what an export contains),
      [SnapshotCopy], [SnapshotRestore], [SnapshotFollow] (what an installation restores, and the node
      that starts from it).

    Together: [ServiceClient] (BH [service/client.rs]), [ServiceContract] (the interfaces of the pass
    indexer implemented by the client), [EndToEnd]; [LiveReplies] (the query service of the passes
    beside the loop that synchronises blocks).

    State is explicit: a routine is a function [S → result A * S] (monad [M]), [?] is [bind], a call on
    a component is [zoom].  A failed or panicking routine keeps the writes it made before.  Interfaces
    are type classes with their laws ([BalanceProvider], [BalanceProviderLaws], [BalanceRows],
    [BalanceTruth], [BalanceRpcBackend], [BalanceRpcLoader], [InscriptionSource], [SyncEnv],
    [HistoryEnv], [BTCClient]); [ServiceContract] discharges those that balance-history implements.

    ** What the theorems show

    - End to end: over the client of the query service, the energy record of each active pass holds
      the balance that the unspent outputs of the chain give to its owner ([EndToEnd]).
    - A block is synchronised entirely or leaves no trace in the pass store and, once reconciled, in the
      energy store, which stay at one height over any range of blocks.  The tracker then has no staged
      map, and its published map is the one of that height, but for a block that had completed when
      SQLite refused a closing statement: the tracker stays with the map of the undone block
      ([BlockAtomicity], [SyncInvariant]).
    - A batch of blocks writes what the chain determines, whatever the batching and the caches; an
      iteration follows the node's chain; a rollback restores the earlier database or changes nothing;
      where it may be interrupted ([BalanceFlush], [BalanceSync], [BalanceRollback]).
    - The queries answer as an abstract service that knows only the chain and the stable height, while
      the indexer writes; aggregates, readiness and pinned references ([BalanceQueries],
      [BalanceAggregates], [BalanceReadiness]).
    - An installation loses no database, whatever fails, and makes live only what its manifest and, if
      asked for, a trusted key vouch for; an export restores the state of its height, and a node that
      starts from it follows the chain like one that indexed every block.  One theorem states a defect:
      an iterator error of the export is not noticed on either side ([SnapshotSafety],
      [SnapshotFollow]).
    - The local loader, over files with forks, answers as the node from its first start and after a
      restart, whatever its thread reads ahead.  Two theorems state defects: a replaced block at the end
      of the complete files is served, and giving up a saved index erases the block commits of the
      balance history ([LoaderFollow], [LoaderFaults]).
    - A reorganisation is found, the stores of the common ancestor are restored, and the recovery
      survives its failures ([ReorgRecovery]).
    - The pass service: a request about a height that the indexer has passed (one of the eleven of
      [HeightRequest]) has one answer, before, between and inside later blocks, between any two
      statements of a block; pinned queries are answered only from the pinned state, which
      two nodes then share; the leaderboard is the ranking of the passes of its scope; when the
      service is ready.  Two theorems state defects: a snapshot that is adopted while it is read, and
      the leaderboard cache after a reorganisation ([PassReplies], [LiveReplies], [PassPins],
      [PassLeaderboard], [PassReadiness]).
    - Passes move along their state machine, one active pass per owner, the event log is the history
      of the tables, and a rollback undoes the later blocks ([Pass], [PassLedger]).
    - Energy: the settlement agrees with the update, growth does not depend on the path, queries and
      reconciliation ([Energy], [EnergyFormula], [EnergyStorage]).
    - Satoshis are followed first-in first-out, those that go to a fee are dropped, events have one canonical order, contents are
      classified, commits and state ids bind what they hash ([Tx], [Transfer], [BlockEvents],
      [Content], [PassCommit], [StateIds]).

    ** Fuel and bounds

    Recursion over data is structural.  The loops with fuel get as much as their input allows rounds:
    [chunks] the length of the list, [load_active_fuel] one more than the event log, [load_fuel] the
    pages of the pass table and one more, [bucket_fuel] the blocks of the range, [sync_batches] the
    blocks that are missing, [table_fuel] the rows of a snapshot table and one more, [sort_fuel] the
    indexed blocks and one more, [read_records] the bytes of a file and one more.  The theorems on these
    loops show that the fuel does not run out.  Integers are [Z] with the width in the operation ([u32_add], [i64_sub], ...): release builds
    wrap.  Hypotheses bound heights below [U32_MAX] and the event log below [I64_MAX] rows.

    ** Assumptions

    The crates outside the repository are parameters: hashes ([BitcoinCrate], [CommitHash]; where a theorem
    needs that there is no collision, it assumes so of the texts that the code hashes in it and of no
    others, [tells_apart]), the eviction of the caches ([LruCrate]), address and script
    predicates ([ScriptCrate]), the node ([BTCClient], [BitcoinNode]), the text of identifiers
    ([IdText]), JSON contents ([ContentEnv]), the inscription source, the outcome of SQLite's closing
    statements, the transport of calls ([Upstream]), and around snapshots SQLite's bytes, JSON, base64
    and Ed25519 ([SnapshotCrates]); around block files the decoder of a block ([BlockCrate]) and the
    eviction of the cache of files ([FileLruCrate]).  [files_hold] and [part_of_chain]: the complete files
    can be read, hold each block once, and lack a block of the chain only where they have no other child
    of its predecessor.  RocksDB batches and SQLite savepoints are
    atomic.  Loops that rayon runs in parallel are modelled in block order, the shards of an export
    in any order ([ExportRun], which also says where its iterators fail), and so the block files that
    are merged into an index ([IndexRun]); a fetch of the local loader has a script that says how many
    actions of the reading thread fall before each look at its queue.  [valid_chain] is the
    consensus of bitcoin as far as it is used: outputs are spent once, after they were created, amounts
    are in range, scripts do not collide, and no outpoint is created twice.  The last excludes the two
    duplicate coinbases of BIP30, so that on mainnet the theorems over [valid_chain] reach up to height
    91841; no other chain has such a pair.  [hash_linked]: a block hash determines its ancestors.
    [serving]: no rollback happens inside a request; likewise [settled] for the pass service, where
    [anchored] adds that the adopted snapshot is not being cleared.  The theorems over a range of blocks
    ([SyncInvariant], [LiveReplies], [EndToEnd]) assume of each block what [range_env] says: the event
    log fits the paged queries, and no zero-delta row is skipped ([no_skipped_row]): a block that touches
    the script of an active pass's owner and leaves its balance as it was also writes a record of the
    pass.  The settlement skips such a row otherwise, and a later update writes it below its own block
    (a finding).  Tracked passes are moved by blocks of coinbases and of transactions whose inputs the
    node knows ([block_tx]).
    The texts of ids, satpoints and addresses and their parsers are [IdText] and [RpcTexts].

    ** Not modelled

    Process start-up, configuration files, logging, progress output, threads and channels; the HTTP
    listeners and the transport; the RPC access to the node (BH [btc/rpc.rs], [btc/batch.rs]), which the
    indexer sees as [BTCClient]; errors of the file system under the block files, and the readers of a
    single block by its offset; of snapshots, the
    errors, pragmas and schema migrations of SQLite, the interleaving of batches of different shards
    and a rollback of a node below the height of its snapshot; the address tools, the key generator and
    the offline verifier; the ord client (UI [btc/ord.rs]); the control plane, the command lines, the
    web and docker files. *)

From Stdlib Require Export ZArith Lia Ascii String.
From stdpp Require Export base option list gmap strings sorting.

Open Scope Z_scope.

Declare Scope usdb_scope.
Delimit Scope usdb_scope with usdb.
Open Scope usdb_scope.

(** ** Outcomes

    A Rust function of the repository returns [Result<T, String>], or stops the thread with
    [panic!]/[assert!]/[unwrap].  The text of an error is kept up to its formatted arguments. *)

Inductive result (A : Type) : Type :=
  | Ok (a : A)
  | Err (msg : string)
  | Panic (msg : string).
Arguments Ok {A} a.
Arguments Err {A} msg.
Arguments Panic {A} msg.

Definition is_ok {A} (r : result A) : bool :=
  match r with Ok _ => true | _ => false end.

Definition result_map {A B} (f : A → B) (r : result A) : result B :=
  match r with Ok a => Ok (f a) | Err e => Err e | Panic e => Panic e end.

Definition result_bind {A B} (r : result A) (f : A → result B) : result B :=
  match r with Ok a => f a | Err e => Err e | Panic e => Panic e end.

(** [.err()] of the Rust [Result]. *)
Definition result_err {A} (r : result A) : option string :=
  match r with Ok _ => None | Err e | Panic e => Some e end.

(** [Option::ok_or_else]. *)
Definition ok_or {A} (msg : string) (o : option A) : result A :=
  match o with Some a => Ok a | None => Err msg end.

Notation "'let?' x := r 'in' k" := (result_bind r (λ x, k))
  (at level 10, x pattern, r at level 100, k at level 200) : usdb_scope.

(** [collect] of results: the first error, or all values. *)
Fixpoint collect {A B} (f : A → result B) (l : list A) : result (list B) :=
  match l with
  | [] => Ok []
  | x :: l => let? y := f x in let? ys := collect f l in Ok (y :: ys)
  end.

Lemma result_bind_Ok {A B} (r : result A) (f : A → result B) b :
  result_bind r f = Ok b → ∃ a, r = Ok a ∧ f a = Ok b.
Proof. destruct r; [eauto|done..]. Qed.
(** A successful lookup found something. *)
Lemma ok_or_Ok {A} msg (o : option A) a : ok_or msg o = Ok a → o = Some a.
Proof. destruct o; [by intros [= ->]|done]. Qed.
Ltac found_some := repeat match goal with H : ok_or _ _ = Ok _ |- _ => apply ok_or_Ok in H end; simplify_eq.

Lemma collect_Ok {A B} (f : A → result B) l ys :
  collect f l = Ok ys ↔ Forall2 (λ x y, f x = Ok y) l ys.
Proof.
  revert ys. induction l as [|x l IH]; intros ys; simpl.
  - split; [intros [= <-]; constructor|by inversion 1].
  - split.
    + unfold result_bind. destruct (f x) eqn:E; [|done..].
      destruct (collect f l); [|done..]. intros [= <-]. constructor; [done|by apply IH].
    + inversion 1 as [|? y ? ys' E Hys]; subst. rewrite E. cbn.
      by rewrite (proj2 (IH ys') Hys).
Qed.

(** Collecting in another order gives the same values in that order. *)
Lemma collect_Permutation {A B} (f : A → result B) l l' ys :
  collect f l = Ok ys → l ≡ₚ l' → ∃ ys', collect f l' = Ok ys' ∧ ys ≡ₚ ys'.
Proof.
  intros E P. apply collect_Ok in E. revert ys E. induction P as [|x l l' P IH|x y l|l l1 l' P1 IH1 P2 IH2];
    intros ys E.
  - exists ys. inversion E. by split.
  - inversion E as [|? z ? zs Ez Ezs]; subst. destruct (IH _ Ezs) as (ys' & E' & P').
    exists (z :: ys'). split; [|by constructor]. apply collect_Ok in E'. apply collect_Ok. by constructor.
  - inversion E as [|? z ? zs Ez E1]; subst. inversion E1 as [|? u ? us Eu Eus]; subst.
    exists (u :: z :: us). split; [|apply Permutation_swap]. apply collect_Ok. by repeat constructor.
  - destruct (IH1 _ E) as (y1 & E1 & ?). apply collect_Ok in E1. destruct (IH2 _ E1) as (y2 & ? & ?).
    exists y2. split; [done|]. by etransitivity.
Qed.

Lemma collect_total {A B} (f : A → result B) l :
  (∀ x, x ∈ l → ∃ y, f x = Ok y) → ∃ ys, collect f l = Ok ys.
Proof.
  induction l as [|x l IH]; intros Hf; [by exists []|].
  destruct (Hf x ltac:(by left)) as [y E]. destruct IH as [ys E']; [intros; apply Hf; by right|].
  exists (y :: ys). simpl. rewrite E. cbn. by rewrite E'.
Qed.

(** ** Stateful computations

    [M S A] is a routine that mutates a store [S].  An error keeps the writes made before it:
    what is undone is undone by the code itself (savepoints, abort and rollback routines). *)

Definition M (S A : Type) : Type := S → result A * S.

Section Monad.
Context {S : Type}.

Definition ret {A} (a : A) : M S A := λ s, (Ok a, s).
Definition fail {A} (msg : string) : M S A := λ s, (Err msg, s).
Definition panic {A} (msg : string) : M S A := λ s, (Panic msg, s).
Definition bind {A B} (m : M S A) (f : A → M S B) : M S B :=
  λ s, match m s with
       | (Ok a, s') => f a s'
       | (Err e, s') => (Err e, s')
       | (Panic e, s') => (Panic e, s')
       end.
Definition gets {A} (f : S → A) : M S A := λ s, (Ok (f s), s).
Definition modify (f : S → S) : M S unit := λ s, (Ok tt, f s).
Definition lift {A} (r : result A) : M S A := λ s, (r, s).

(** [Rust]'s [assert!(b, msg)]. *)
Definition assert (b : bool) (msg : string) : M S unit :=
  if b then ret tt else panic msg.

(** [match m { Ok(a) => Ok(Ok(a)), Err(e) => Ok(Err(e)) }]: the caller handles the error. *)
Definition try {A} (m : M S A) : M S (A + string) :=
  λ s, match m s with
       | (Ok a, s') => (Ok (inl a), s')
       | (Err e, s') => (Ok (inr e), s')
       | (Panic e, s') => (Panic e, s')
       end.
End Monad.

Notation "'let!' x := m 'in' k" := (bind m (λ x, k))
  (at level 10, x pattern, m at level 100, k at level 200) : usdb_scope.

(** [.map_err(..)?] of the source: the error text is replaced. *)
Definition map_err {S A} (msg : string) (m : M S A) : M S A :=
  λ s, match m s with
       | (Err _, s') => (Err msg, s')
       | out => out
       end.

(** Run a routine of a component on the component's part of a larger store. *)
Definition zoom {S T A} (get : S → T) (put : T → S → S) (m : M T A) : M S A :=
  λ s, ((m (get s)).1, put (m (get s)).2 s).

(** [for x in l { body(x)?; }] *)
Fixpoint for_each {S A} (l : list A) (body : A → M S unit) : M S unit :=
  match l with
  | [] => ret tt
  | x :: l => let! _ := body x in for_each l body
  end.

(** A loop that collects one value per element. *)
Fixpoint map_m {S A B} (l : list A) (body : A → M S B) : M S (list B) :=
  match l with
  | [] => ret []
  | x :: l => let! y := body x in let! ys := map_m l body in ret (y :: ys)
  end.

(** A loop that threads a local accumulator. *)
Fixpoint fold_m {S A B} (l : list A) (acc : B) (body : B → A → M S B) : M S B :=
  match l with
  | [] => ret acc
  | x :: l => let! acc := body acc x in fold_m l acc body
  end.

(** ** Machine integers

    An integer of width [w] is a [Z] in its range; the operations write out what the Rust
    operation does at the ends of the range. *)

Definition U8_MAX : Z := 255.
Definition U32_MAX : Z := 4294967295.
Definition U64_MAX : Z := 18446744073709551615.
Definition U128_MAX : Z := 340282366920938463463374607431768211455.
Definition I64_MIN : Z := -9223372036854775808.
Definition I64_MAX : Z := 9223372036854775807.

Definition is_u32 (z : Z) : bool := (0 <=? z) && (z <=? U32_MAX).
Definition is_u64 (z : Z) : bool := (0 <=? z) && (z <=? U64_MAX).
Definition is_i64 (z : Z) : bool := (I64_MIN <=? z) && (z <=? I64_MAX).

(** [a + b] on [u32] in a release build wraps. *)
Definition u32_add (a b : Z) : Z := (a + b) mod (U32_MAX + 1).
Definition u32_sub (a b : Z) : Z := (a - b) mod (U32_MAX + 1).
Definition u64_add (a b : Z) : Z := (a + b) mod (U64_MAX + 1).
(** [usize] is 64 bits wide on the supported targets. *)
Definition usize_mul (a b : Z) : Z := (a * b) mod (U64_MAX + 1).
Definition usize_checked_mul (a b : Z) : option Z :=
  if a * b <=? U64_MAX then Some (a * b) else None.

(** [value as i64] of a [u64]: two's complement reinterpretation. *)
Definition u64_as_i64 (v : Z) : Z := if v <=? I64_MAX then v else v - (U64_MAX + 1).
(** [value as u64] of an [i64]. *)
Definition i64_as_u64 (v : Z) : Z := v mod (U64_MAX + 1).
(** [i64] arithmetic of a release build wraps. *)
Definition i64_wrap (v : Z) : Z := u64_as_i64 (i64_as_u64 v).
Definition i64_add (a b : Z) : Z := i64_wrap (a + b).
Definition i64_sub (a b : Z) : Z := i64_wrap (a - b).
Definition i64_neg (a : Z) : Z := i64_wrap (- a).
(** [value as u32] of an [i64] keeps the low 32 bits. *)
Definition i64_as_u32 (v : Z) : Z := v mod (U32_MAX + 1).

(** [value as u32] of a [usize]. *)
Definition usize_as_u32 (v : Z) : Z := v mod (U32_MAX + 1).

Definition u32_saturating_sub (a b : Z) : Z := Z.max 0 (a - b).
Definition u32_saturating_add (a b : Z) : Z := Z.min U32_MAX (a + b).
Definition u64_saturating_add (a b : Z) : Z := Z.min U64_MAX (a + b).
Definition u64_saturating_sub (a b : Z) : Z := Z.max 0 (a - b).
Definition u128_saturating_mul (a b : Z) : Z := Z.min U128_MAX (a * b).

Ltac ints :=
  unfold u32_add, u32_sub, u64_add, u32_saturating_sub, u32_saturating_add,
    u64_saturating_add, u64_saturating_sub, u128_saturating_mul, is_u32, is_u64, is_i64,
    i64_as_u32, i64_as_u64, u64_as_i64,
    U8_MAX, U32_MAX, U64_MAX, U128_MAX, I64_MIN, I64_MAX in *.

(** Boolean tests of the code as propositions. *)
Ltac b2p :=
  repeat match goal with
  | H : (_ && _) = true |- _ => apply andb_prop in H as [? ?]
  | H : (_ && _) = false |- _ => apply andb_false_iff in H
  | H : (_ || _) = true |- _ => apply orb_prop in H
  | H : (_ || _) = false |- _ => apply orb_false_elim in H as [? ?]
  | H : negb _ = true |- _ => apply negb_true_iff in H
  | H : negb _ = false |- _ => apply negb_false_iff in H
  | H : (_ <=? _) = true |- _ => apply Z.leb_le in H
  | H : (_ <=? _) = false |- _ => apply Z.leb_gt in H
  | H : (_ <? _) = true |- _ => apply Z.ltb_lt in H
  | H : (_ <? _) = false |- _ => apply Z.ltb_ge in H
  | H : (_ =? _) = true |- _ => apply Z.eqb_eq in H
  | H : (_ =? _) = false |- _ => apply Z.eqb_neq in H
  | H : bool_decide _ = true |- _ => apply bool_decide_eq_true in H
  | H : bool_decide _ = false |- _ => apply bool_decide_eq_false in H
  end.

Lemma is_u32_spec z : is_u32 z = true ↔ 0 <= z <= U32_MAX.
Proof. unfold is_u32. rewrite andb_true_iff, !Z.leb_le. lia. Qed.

Lemma u32_add_small a b : 0 <= a + b <= U32_MAX → u32_add a b = a + b.
Proof. intros. unfold u32_add. apply Z.mod_small. lia. Qed.

Lemma u64_add_small a b : 0 <= a + b <= U64_MAX → u64_add a b = a + b.
Proof. intros. unfold u64_add. apply Z.mod_small. lia. Qed.

Lemma usize_as_u32_id z : 0 <= z <= U32_MAX → usize_as_u32 z = z.
Proof. intros. unfold usize_as_u32. apply Z.mod_small. lia. Qed.

Lemma i64_as_u32_id z : 0 <= z <= U32_MAX → i64_as_u32 z = z.
Proof. intros. unfold i64_as_u32. apply Z.mod_small. lia. Qed.

Lemma u64_as_i64_id v : 0 <= v <= I64_MAX → u64_as_i64 v = v.
Proof. intros. unfold u64_as_i64. by rewrite (proj2 (Z.leb_le _ _)) by lia. Qed.
Lemma i64_as_u64_id v : 0 <= v <= U64_MAX → i64_as_u64 v = v.
Proof. intros. apply Z.mod_small. lia. Qed.
Lemma i64_wrap_id v : I64_MIN <= v <= I64_MAX → i64_wrap v = v.
Proof.
  intros. unfold i64_wrap. ints. destruct (Z.leb_spec 0 v).
  - rewrite Z.mod_small by lia. by rewrite (proj2 (Z.leb_le _ _)) by lia.
  - replace (v mod _) with (v + 18446744073709551616); [destruct (_ <=? _) eqn:E; b2p; lia|].
    apply (Z.mod_unique _ _ (-1)); lia.
Qed.
Lemma i64_wrap_add a b : i64_wrap (i64_wrap a + b) = i64_wrap (a + b).
Proof.
  unfold i64_wrap at 1 3. f_equal. unfold i64_wrap, i64_as_u64, u64_as_i64.
  assert (0 < U64_MAX + 1) by done. set (w := U64_MAX + 1) in *.
  rewrite <-(Z.add_mod_idemp_l a b) by lia. destruct (a mod w <=? I64_MAX); [done|].
  replace (a mod w - w + b) with (a mod w + b + (-1) * w) by lia. by apply Z.mod_add; lia.
Qed.

(** The casts of a [u64] column through SQLite's signed integers are inverse to each other. *)
Lemma i64_as_u64_as_i64 v : 0 <= v <= U64_MAX → i64_as_u64 (u64_as_i64 v) = v.
Proof.
  intros. unfold i64_as_u64, u64_as_i64. destruct (v <=? I64_MAX) eqn:E.
  - apply Z.mod_small. lia.
  - replace (v - (U64_MAX + 1)) with (v + (-1) * (U64_MAX + 1)) by lia.
    rewrite Z.mod_add by (unfold U64_MAX; lia). apply Z.mod_small. lia.
Qed.

(** ** Bytes

    [to_be_bytes] of a [w]-byte unsigned integer, most significant byte first. *)

Fixpoint be_bytes (w : nat) (z : Z) : list Z :=
  match w with
  | O => []
  | S w => be_bytes w (z / 256) ++ [z mod 256]
  end.

Lemma be_bytes_0 z : be_bytes 0 z = [].
Proof. done. Qed.
Lemma be_bytes_S w z : be_bytes (S w) z = be_bytes w (z / 256) ++ [z mod 256].
Proof. done. Qed.

Definition of_be_bytes (l : list Z) : Z := foldl (λ acc b, acc * 256 + b) 0 l.

Lemma length_be_bytes w z : length (be_bytes w z) = w.
Proof. revert z. induction w; intros; simpl; [done|]. rewrite length_app, IHw. simpl. lia. Qed.

Lemma of_be_bytes_be_bytes w z : 0 <= z < 256 ^ Z.of_nat w → of_be_bytes (be_bytes w z) = z.
Proof.
  unfold of_be_bytes. revert z. induction w as [|w IH]; intros z Hz; simpl.
  - change (256 ^ Z.of_nat 0) with 1 in Hz. lia.
  - rewrite foldl_app. simpl. rewrite IH.
    + pose proof (Z.div_mod z 256). lia.
    + rewrite Nat2Z.inj_succ, Z.pow_succ_r in Hz by lia. split.
      * apply Z.div_pos; lia.
      * apply Z.div_lt_upper_bound; lia.
Qed.

Lemma be_bytes_inj w a b :
  0 <= a < 256 ^ Z.of_nat w → 0 <= b < 256 ^ Z.of_nat w → be_bytes w a = be_bytes w b → a = b.
Proof.
  intros Ha Hb E. rewrite <-(of_be_bytes_be_bytes w a), <-(of_be_bytes_be_bytes w b) by done.
  by rewrite E.
Qed.

Lemma be_bytes_range w z : Forall (λ b, 0 <= b <= 255) (be_bytes w z).
Proof.
  revert z. induction w; intros; simpl; [constructor|].
  apply Forall_app. split; [apply IHw|]. constructor; [|constructor].
  pose proof (Z.mod_pos_bound z 256). lia.
Qed.

(** Byte strings are compared lexicographically, as RocksDB's default comparator does. *)
Fixpoint bytes_le (a b : list Z) : bool :=
  match a, b with
  | [], _ => true
  | _ :: _, [] => false
  | x :: a, y :: b => if x <? y then true else if y <? x then false else bytes_le a b
  end.

Lemma bytes_le_refl a : bytes_le a a = true.
Proof. induction a; simpl; [done|]. by rewrite Z.ltb_irrefl. Qed.

Lemma bytes_le_app p a b : bytes_le (p ++ a) (p ++ b) = bytes_le a b.
Proof. induction p; simpl; [done|]. by rewrite Z.ltb_irrefl. Qed.

(** Different prefixes of one length decide the order. *)
Lemma bytes_le_app_ne p q a b :
  length p = length q → p ≠ q → bytes_le (p ++ a) (q ++ b) = bytes_le p q.
Proof.
  revert q. induction p as [|x p IH]; intros [|y q] L Hne; try done; simpl in *.
  destruct (x <? y) eqn:E1; [done|]. destruct (y <? x) eqn:E2; [done|].
  apply Z.ltb_ge in E1, E2. assert (x = y) as -> by lia. apply IH; [lia|congruence].
Qed.

Lemma bytes_le_trans a b c : bytes_le a b = true → bytes_le b c = true → bytes_le a c = true.
Proof.
  revert b c. induction a as [|x a IH]; intros [|y b] [|z c]; simpl; try done.
  destruct (x <? y) eqn:E1, (y <? x) eqn:E2, (y <? z) eqn:E3, (z <? y) eqn:E4,
    (x <? z) eqn:E5, (z <? x) eqn:E6; b2p; try lia; try done. apply IH.
Qed.

Lemma bytes_le_total a b : bytes_le a b = true ∨ bytes_le b a = true.
Proof.
  revert b. induction a as [|x a IH]; intros [|y b]; simpl; auto.
  destruct (x <? y) eqn:E1, (y <? x) eqn:E2; b2p; try lia; auto.
Qed.

Lemma bytes_le_antisym a b : bytes_le a b = true → bytes_le b a = true → a = b.
Proof.
  revert b. induction a as [|x a IH]; intros [|y b]; simpl; try done.
  destruct (x <? y) eqn:E1, (y <? x) eqn:E2; b2p; try lia; try done.
  intros. assert (x = y) by lia. subst. f_equal. auto.
Qed.

Lemma bytes_le_snoc a b x y :
  length a = length b →
  bytes_le (a ++ [x]) (b ++ [y]) = if bool_decide (a = b) then x <=? y else bytes_le a b.
Proof.
  revert b. induction a as [|u a IH]; intros [|v b] L; try done; simpl in *.
  - destruct (x <? y) eqn:E1, (y <? x) eqn:E2, (x <=? y) eqn:E3;
      b2p; try lia; done.
  - destruct (u <? v) eqn:E1; [rewrite bool_decide_false; [done|intros [=]; b2p; lia]|].
    destruct (v <? u) eqn:E2; [rewrite bool_decide_false; [done|intros [=]; b2p; lia]|].
    assert (u = v) as -> by (b2p; lia). rewrite IH by lia.
    repeat case_bool_decide; by simplify_eq.
Qed.

(** Big-endian encodings of one width compare as the numbers do. *)
Lemma bytes_le_be_bytes w a b :
  0 <= a < 256 ^ Z.of_nat w → 0 <= b < 256 ^ Z.of_nat w →
  bytes_le (be_bytes w a) (be_bytes w b) = (a <=? b).
Proof.
  revert a b. induction w as [|w IH]; intros a b Ha Hb; simpl.
  - change (256 ^ Z.of_nat 0) with 1 in *. assert (a = b) as -> by lia. symmetry. by apply Z.leb_le.
  - rewrite Nat2Z.inj_succ, Z.pow_succ_r in Ha, Hb by lia.
    assert (0 <= a / 256 < 256 ^ Z.of_nat w)
      by (split; [apply Z.div_pos|apply Z.div_lt_upper_bound]; lia).
    assert (0 <= b / 256 < 256 ^ Z.of_nat w)
      by (split; [apply Z.div_pos|apply Z.div_lt_upper_bound]; lia).
    rewrite bytes_le_snoc by by rewrite !length_be_bytes.
    pose proof (Z.div_mod a 256) as Da. pose proof (Z.div_mod b 256) as Db.
    pose proof (Z.mod_pos_bound a 256) as Ma. pose proof (Z.mod_pos_bound b 256) as Mb.
    rewrite IH by done. case_bool_decide as E.
    + apply be_bytes_inj in E; [|done|done].
      destruct (a mod 256 <=? b mod 256) eqn:E1, (a <=? b) eqn:E2; b2p; try done; lia.
    + assert (a / 256 ≠ b / 256) by congruence.
      destruct (a / 256 <=? b / 256) eqn:E1, (a <=? b) eqn:E2; b2p; try done; lia.
Qed.

#[global] Arguments be_bytes : simpl never.

(** ** Reasoning about stateful computations *)

Section MonadLemmas.
Context {S : Type}.

Lemma bind_Ok {A B} (m : M S A) (f : A → M S B) s b s' :
  bind m f s = (Ok b, s') ↔ ∃ a s1, m s = (Ok a, s1) ∧ f a s1 = (Ok b, s').
Proof.
  unfold bind. destruct (m s) as [[a|e|e] s1]; split; [eauto|by intros (?&?&[= <- <-]&?)|..];
    by (intros (?&?&?&?) || idtac).
Qed.

Lemma bind_run {A B} (m : M S A) (f : A → M S B) s a s1 :
  m s = (Ok a, s1) → bind m f s = f a s1.
Proof. unfold bind. by intros ->. Qed.

Lemma assert_Ok (b : bool) e (s s' : S) u : assert b e s = (Ok u, s') ↔ b = true ∧ s' = s.
Proof. destruct u. unfold assert. destruct b; split; [by intros [= <-]|by intros [_ ->]|done|by intros []]. Qed.

(** A loop over two lists is one loop after the other. *)
Lemma fold_m_app {A B} (l k : list A) (body : B → A → M S B) : ∀ acc s,
  fold_m (l ++ k) acc body s = bind (fold_m l acc body) (λ acc, fold_m k acc body) s.
Proof.
  induction l as [|x l IH]; intros acc s; [done|]. cbn. unfold bind.
  destruct (body acc x s) as [[a|?|?] s']; [apply IH|done..].
Qed.

Lemma bind_run_Err {A B} (m : M S A) (f : A → M S B) s e s1 :
  m s = (Err e, s1) → bind m f s = (Err e, s1).
Proof. unfold bind. by intros ->. Qed.

Lemma bind_run_Panic {A B} (m : M S A) (f : A → M S B) s e s1 :
  m s = (Panic e, s1) → bind m f s = (Panic e, s1).
Proof. unfold bind. by intros ->. Qed.

(** Loops whose body cannot fail. *)
Lemma for_each_run {A} (l : list A) (body : A → M S unit) (F : A → S → S) s :
  (∀ x s, x ∈ l → body x s = (Ok tt, F x s)) → for_each l body s = (Ok tt, foldl (λ s x, F x s) s l).
Proof.
  revert s. induction l as [|x l IH]; intros s Hb; [done|]. cbn. unfold bind.
  rewrite Hb by (by left). apply IH. intros. apply Hb. by right.
Qed.
Lemma map_m_run {A B} (l : list A) (body : A → M S B) (g : A → B) (F : A → S → S) s :
  (∀ x s, x ∈ l → body x s = (Ok (g x), F x s)) → map_m l body s = (Ok (g <$> l), foldl (λ s x, F x s) s l).
Proof.
  revert s. induction l as [|x l IH]; intros s Hb; [done|]. cbn. unfold bind.
  rewrite Hb by (by left). rewrite IH by (intros; apply Hb; by right). done.
Qed.

(** What a loop keeps true of its accumulator. *)
Lemma fold_m_Ok_inv {A B} (P : B → Prop) (l : list A) (body : B → A → M S B) :
  (∀ acc x s acc' s', x ∈ l → P acc → body acc x s = (Ok acc', s') → P acc') →
  ∀ acc s acc' s', P acc → fold_m l acc body s = (Ok acc', s') → P acc'.
Proof.
  induction l as [|x l IH]; intros Hb acc s acc' s' Ha E; simpl in E.
  - by injection E as <- _.
  - apply bind_Ok in E as (acc1 & s1 & E1 & E).
    eapply (IH ltac:(intros; eapply Hb; [by right|done..]) acc1); [|exact E].
    eapply Hb; [by left|exact Ha|exact E1].
Qed.

Lemma bind_assoc {A B C} (m : M S A) (f : A → M S B) (g : B → M S C) s :
  bind (bind m f) g s = bind m (λ a, bind (f a) g) s.
Proof. unfold bind. by destruct (m s) as [[?|?|?] ?]. Qed.

Lemma zoom_Ok {T A} (get : S → T) put (m : M T A) s a s' :
  zoom get put m s = (Ok a, s') ↔ ∃ t, m (get s) = (Ok a, t) ∧ s' = put t s.
Proof.
  unfold zoom. destruct (m (get s)) as [r t]; simpl. split.
  - intros [= -> <-]. eauto.
  - by intros (? & [= -> ->] & ->).
Qed.

Lemma zoom_run {T A} (get : S → T) put (m : M T A) s r t :
  m (get s) = (r, t) → zoom get put m s = (r, put t s).
Proof. unfold zoom. by intros ->. Qed.

(** What a routine establishes when it succeeds and when it returns an error. *)
Definition triple {A} (P : S → Prop) (m : M S A) (Q : A → S → Prop) (E : S → Prop) : Prop :=
  ∀ s, P s → match m s with (Ok a, s') => Q a s' | (Err _, s') => E s' | (Panic _, _) => True end.

Lemma triple_bind {A B} (P : S → Prop) (m : M S A) (Q : A → S → Prop) E (f : A → M S B) R :
  triple P m Q E → (∀ a, triple (Q a) (f a) R E) → triple P (bind m f) R E.
Proof.
  intros Hm Hf s Hs. specialize (Hm s Hs). unfold bind.
  destruct (m s) as [[a|e|e] s']; [|done..]. by apply (Hf a).
Qed.
Lemma triple_weaken {A} (P P' : S → Prop) (m : M S A) (Q Q' : A → S → Prop) (E E' : S → Prop) :
  (∀ s, P s → P' s) → (∀ a s, Q' a s → Q a s) → (∀ s, E' s → E s) → triple P' m Q' E' → triple P m Q E.
Proof.
  intros HP HQ HE Hm s Hs. specialize (Hm s (HP s Hs)).
  destruct (m s) as [[a|e|e] s']; [by apply HQ|by apply HE|done].
Qed.
Lemma triple_for_each {A} (I : S → Prop) E (l : list A) body :
  (∀ x, x ∈ l → triple I (body x) (λ _, I) E) → triple I (for_each l body) (λ _, I) E.
Proof.
  induction l as [|x l IH]; intros Hb; simpl; [intros s0 Hs0; exact Hs0|].
  eapply triple_bind; [apply Hb; by left|intros a]. apply IH. intros; apply Hb. by right.
Qed.

(** [I] survives the routine however it ends. *)
Definition preserves {A} (I : S → Prop) (m : M S A) : Prop := ∀ s, I s → I (m s).2.

Lemma preserves_run {A} I (m : M S A) s r s' : preserves I m → I s → m s = (r, s') → I s'.
Proof. intros Hm Hs E. specialize (Hm s Hs). by rewrite E in Hm. Qed.
Lemma preserves_ret {A} I (a : A) : preserves I (ret a).
Proof. by intros s. Qed.
Lemma preserves_fail {A} I e : preserves I (fail (A := A) e).
Proof. by intros s. Qed.
Lemma preserves_panic {A} I e : preserves I (panic (A := A) e).
Proof. by intros s. Qed.
Lemma preserves_gets {A} I (f : S → A) : preserves I (gets f).
Proof. by intros s. Qed.
Lemma preserves_lift {A} I (r : result A) : preserves I (lift r).
Proof. by intros s. Qed.
Lemma preserves_assert I b e : preserves I (assert b e).
Proof. unfold assert. by destruct b; intros s. Qed.
Lemma preserves_bind {A B} I (m : M S A) (f : A → M S B) :
  preserves I m → (∀ a, preserves I (f a)) → preserves I (bind m f).
Proof.
  intros Hm Hf s Hs. specialize (Hm s Hs). unfold bind.
  destruct (m s) as [[a|e|e] s']; simpl in *; auto. by apply Hf.
Qed.
(** The continuation may use what the first routine returned. *)
Lemma preserves_bind_val {A B} I (m : M S A) (f : A → M S B) :
  preserves I m → (∀ s a s1, I s → m s = (Ok a, s1) → preserves I (f a)) → preserves I (bind m f).
Proof.
  intros Hm Hf s Hs. pose proof (Hm s Hs) as H1. unfold bind.
  destruct (m s) as [[a|e|e] s1] eqn:E; [|done..]. by apply (Hf s a s1 Hs E).
Qed.
Lemma preserves_map_err {A} I e (m : M S A) : preserves I m → preserves I (map_err e m).
Proof.
  intros Hm s Hs. specialize (Hm s Hs). unfold map_err. by destruct (m s) as [[a|?|?] s'].
Qed.
Lemma preserves_try {A} I (m : M S A) : preserves I m → preserves I (try m).
Proof.
  intros Hm s Hs. specialize (Hm s Hs). unfold try. by destruct (m s) as [[a|?|?] s'].
Qed.
Lemma preserves_if {A} I (b : bool) (m1 m2 : M S A) :
  preserves I m1 → preserves I m2 → preserves I (if b then m1 else m2).
Proof. by destruct b. Qed.
Lemma preserves_option {A B} I (o : option B) (f : B → M S A) m :
  (∀ b, preserves I (f b)) → preserves I m →
  preserves I (match o with Some b => f b | None => m end).
Proof. destruct o; auto. Qed.
Lemma preserves_for_each {A} I (l : list A) body :
  (∀ x, preserves I (body x)) → preserves I (for_each l body).
Proof.
  intros Hb. induction l; simpl; [apply preserves_ret|]. by apply preserves_bind.
Qed.
Lemma preserves_fold_m {A B} I (l : list A) (body : B → A → M S B) acc :
  (∀ acc x, preserves I (body acc x)) → preserves I (fold_m l acc body).
Proof.
  intros Hb. revert acc. induction l; intros; simpl; [apply preserves_ret|].
  by apply preserves_bind.
Qed.
Lemma preserves_zoom {T A} (I : S → Prop) (get : S → T) put (m : M T A) :
  (∀ s, I s → I (put (m (get s)).2 s)) → preserves I (zoom get put m).
Proof. intros H s Hs. by apply H. Qed.

Lemma preserves_conj {A} I J (m : M S A) :
  preserves I m → preserves J m → preserves (λ s, I s ∧ J s) m.
Proof. intros HI HJ s [Hi Hj]. split; auto. Qed.
End MonadLemmas.

Create HintDb preserves.
#[export] Hint Resolve preserves_ret preserves_fail preserves_panic preserves_gets preserves_lift
  preserves_assert preserves_bind preserves_map_err preserves_try preserves_if preserves_option
  preserves_for_each preserves_fold_m : preserves.

(** Split a successful run of a sequence of routines into the runs of its parts. *)
Ltac minv H :=
  lazymatch type of H with
  | bind _ _ _ = (Ok _, _) =>
      let H1 := fresh "H" in let H2 := fresh "H" in
      apply bind_Ok in H as (? & ? & H1 & H2); minv H1; minv H2
  | ret _ _ = (Ok _, _) => unfold ret in H; simplify_eq
  | gets _ _ = (Ok _, _) => unfold gets in H; simplify_eq
  | modify _ _ = (Ok _, _) => unfold modify in H; simplify_eq
  | fail _ _ = (Ok _, _) => discriminate H
  | panic _ _ = (Ok _, _) => discriminate H
  | lift _ _ = (Ok _, _) => unfold lift in H; simplify_eq
  | _ => idtac
  end.

(** ** Lists and maps the components share *)

(** The SQL clause [ORDER BY key LIMIT limit OFFSET offset] over rows already sorted. *)
Definition sql_limit {A} (limit offset : Z) (l : list A) : list A :=
  take (Z.to_nat limit) (drop (Z.to_nat offset) l).

(** [SELECT MAX(key)] over the rows, [None] for no row. *)
Definition list_max {A} (key : A → Z) (l : list A) : option Z :=
  foldr (λ x acc, Some (match acc with Some m => Z.max (key x) m | None => key x end)) None l.

Lemma list_max_spec {A} (key : A → Z) l m :
  list_max key l = Some m → (∃ x, x ∈ l ∧ key x = m) ∧ ∀ x, x ∈ l → key x <= m.
Proof.
  revert m. induction l as [|y l IH]; intros m H; [done|]. simpl in H. simplify_eq.
  destruct (list_max key l) as [m'|] eqn:E.
  - destruct (IH m' eq_refl) as [(x & Hx & <-) Hle]. split.
    + destruct (Z.max_spec (key y) (key x)) as [[? ->]|[? ->]]; eexists; split; try done; by constructor.
    + intros z [->|Hz]%elem_of_cons; [lia|]. apply Hle in Hz. lia.
  - assert (l = []) as -> by (destruct l; [done|simpl in E; discriminate]).
    split; [exists y; split; [by constructor|done]|].
    intros z [->|Hz]%elem_of_cons; [lia|]. by apply elem_of_nil in Hz.
Qed.

Lemma list_max_None {A} (key : A → Z) l : list_max key l = None ↔ l = [].
Proof. split; [by destruct l|by intros ->]. Qed.

(** Deleting from a filtered view nothing that the filter keeps leaves the view unchanged. *)
Lemma filter_app_none {A} (P : A → Prop) `{∀ x, Decision (P x)} (l k : list A) :
  Forall (λ x, ¬ P x) k → filter P (l ++ k) = filter P l.
Proof.
  intros Hk. rewrite filter_app. replace (filter P k) with (@nil A); [by rewrite app_nil_r|].
  induction Hk; [done|]. by rewrite filter_cons_False.
Qed.

Lemma filter_all {A} (P : A → Prop) `{∀ x, Decision (P x)} (l : list A) :
  Forall P l → filter P l = l.
Proof.
  induction 1 as [|x l Hx Hl IH]; [done|]. rewrite filter_cons_True by done. by f_equal.
Qed.

(** The longest prefix of rows that pass a test: what a scan that [break]s at the first failing
    row reads. *)
Fixpoint take_while {A} (p : A → bool) (l : list A) : list A :=
  match l with
  | [] => []
  | x :: l => if p x then x :: take_while p l else []
  end.

(** On a sorted scan, stopping at the first row outside a range loses nothing. *)
Lemma take_while_filter {A} (R : A → A → Prop) (p : A → bool) l :
  StronglySorted R l →
  (∀ x y, x ∈ l → y ∈ l → R x y → p y = true → p x = true) →
  take_while p l = filter (λ x, p x = true) l.
Proof.
  induction 1 as [|x l Hl IH Hx]; intros Hp; [done|]. simpl.
  destruct (p x) eqn:E.
  - rewrite filter_cons_True by done. f_equal. apply IH.
    intros ???? . apply Hp; by apply elem_of_cons; right.
  - rewrite filter_cons_False by congruence. symmetry.
    assert (Forall (λ y, p y = false) l) as Hf.
    { rewrite Forall_forall in Hx. apply Forall_forall. intros y Hy.
      apply not_true_is_false. intros Ey. specialize (Hp x y). rewrite E in Hp.
      discriminate Hp; [by constructor|by constructor|by apply Hx|done]. }
    clear -Hf. induction Hf; [done|]. by rewrite filter_cons_False by congruence.
Qed.

Lemma StronglySorted_filter {A} (R : A → A → Prop) (P : A → Prop) `{∀ x, Decision (P x)} l :
  StronglySorted R l → StronglySorted R (filter P l).
Proof.
  induction 1 as [|x l Hl IH Hx]; [constructor|].
  destruct (decide (P x)).
  - rewrite filter_cons_True by done. constructor; [done|].
    rewrite Forall_forall in *. intros y [_ Hy]%list_elem_of_filter. by apply Hx.
  - by rewrite filter_cons_False.
Qed.

Lemma StronglySorted_last {A} (R : A → A → Prop) l x y :
  StronglySorted R l → last l = Some x → y ∈ l → y = x ∨ R y x.
Proof.
  intros Hs (l' & ->)%last_Some [Hy|Hy]%elem_of_app.
  - right. eapply StronglySorted_app_1_elem_of; [done|done|by apply list_elem_of_singleton].
  - left. by apply list_elem_of_singleton in Hy.
Qed.

(** Filters that agree on the elements of a list give the same sublist. *)
Lemma filter_ext_in {A} (P Q : A → Prop) `{∀ x, Decision (P x), ∀ x, Decision (Q x)} (l : list A) :
  (∀ x, x ∈ l → P x ↔ Q x) → filter P l = filter Q l.
Proof.
  induction l as [|x l IH]; intros E; [done|].
  assert (filter P l = filter Q l) as E' by (apply IH; intros; apply E; by apply elem_of_cons; right).
  destruct (decide (P x)) as [HP|HP].
  - rewrite !filter_cons_True, E'; [done|apply E; [by constructor|done]|done].
  - rewrite !filter_cons_False, E'; [done| |done]. by rewrite <-(E x) by by constructor.
Qed.

Lemma StronglySorted_reverse {A} (R : A → A → Prop) l :
  StronglySorted R l → StronglySorted (flip R) (reverse l).
Proof.
  induction 1 as [|x l Hl IH Hx]; [constructor|]. rewrite reverse_cons.
  apply StronglySorted_app. split_and!; [|done|by repeat constructor].
  rewrite Forall_forall in Hx. intros y z Hy ->%list_elem_of_singleton.
  apply Hx. by rewrite elem_of_reverse in Hy.
Qed.

(** [ORDER BY key ASC] and [ORDER BY key DESC] of a composite integer key. *)
Definition key_le {A} (key : A → list Z) (a b : A) : Prop := bytes_le (key a) (key b) = true.
Definition key_le_dec {A} (key : A → list Z) a b : Decision (key_le key a b) :=
  bool_eq_dec (bytes_le (key a) (key b)) true.
Definition order_by {A} (key : A → list Z) (desc : bool) (l : list A) : list A :=
  if desc then @merge_sort _ (flip (key_le key)) (λ a b, key_le_dec key b a) l
  else @merge_sort _ (key_le key) (key_le_dec key) l.

Lemma order_by_Permutation {A} (key : A → list Z) desc l : order_by key desc l ≡ₚ l.
Proof. unfold order_by. destruct desc; apply merge_sort_Permutation. Qed.

Lemma elem_of_order_by {A} (key : A → list Z) desc l x : x ∈ order_by key desc l ↔ x ∈ l.
Proof. by rewrite order_by_Permutation. Qed.

Lemma order_by_sorted {A} (key : A → list Z) l : StronglySorted (key_le key) (order_by key false l).
Proof.
  apply StronglySorted_merge_sort.
  - intros a b c. apply bytes_le_trans.
  - intros a b. apply bytes_le_total.
Qed.

(** Keys that tell the elements apart leave one order. *)
Lemma order_by_unique {A} (key : A → list Z) l k :
  l ≡ₚ k → (∀ x y, x ∈ l → y ∈ l → key x = key y → x = y) → order_by key false l = order_by key false k.
Proof.
  intros P Hinj. apply (StronglySorted_unique_strong (key_le key)); [|apply order_by_sorted..|].
  - intros x y Hx Hy L1 L2. rewrite elem_of_order_by in Hx. rewrite elem_of_order_by, <-P in Hy.
    apply Hinj; [done..|]. by apply bytes_le_antisym.
  - by rewrite !order_by_Permutation.
Qed.

Lemma order_by_desc_sorted {A} (key : A → list Z) l :
  StronglySorted (flip (key_le key)) (order_by key true l).
Proof.
  apply StronglySorted_merge_sort.
  - intros a b c H1 H2. eapply bytes_le_trans; [exact H2|exact H1].
  - intros a b. apply (bytes_le_total (key b) (key a)).
Qed.

(** [LIMIT limit OFFSET offset] with SQLite's signed arguments: a negative limit is no limit, a
    negative offset is zero. *)
Definition sql_limit_offset {A} (limit offset : Z) (l : list A) : list A :=
  let l := drop (Z.to_nat offset) l in
  if limit <? 0 then l else take (Z.to_nat limit) l.

(** A page of [page_size] rows: [page * page_size] in [usize], both casts [as i64]. *)
Definition sql_page {A} (page page_size : Z) (l : list A) : list A :=
  sql_limit_offset (u64_as_i64 page_size) (u64_as_i64 (usize_mul page page_size)) l.

Definition count {A} (l : list A) : Z := Z.of_nat (length l).

Lemma StronglySorted_impl {A} (R S : A → A → Prop) l :
  (∀ x y, R x y → S x y) → StronglySorted R l → StronglySorted S l.
Proof.
  intros H. induction 1 as [|x l Hl IH Hx]; constructor; [done|].
  eapply Forall_impl; [exact Hx|]. auto.
Qed.

(** ** Routines that move a store along a relation

    [moves R m]: however [m] ends, the store it leaves is related to the one it started from. *)

Definition moves {S A} (R : S → S → Prop) (m : M S A) : Prop := ∀ s, R s (m s).2.

Section Moves.
Context {S : Type} (R : S → S → Prop) `{!Reflexive R, !Transitive R}.

Lemma moves_pure {A} (m : M S A) : (∀ s, (m s).2 = s) → moves R m.
Proof. intros E s. by rewrite E. Qed.
Lemma moves_bind {A B} (m : M S A) (f : A → M S B) :
  moves R m → (∀ a, moves R (f a)) → moves R (bind m f).
Proof.
  intros Hm Hf s. specialize (Hm s). unfold bind.
  destruct (m s) as [[a|e|e] s']; simpl in *; [|done..]. etransitivity; [done|apply Hf].
Qed.
Lemma moves_if {A} (b : bool) (m1 m2 : M S A) :
  moves R m1 → moves R m2 → moves R (if b then m1 else m2).
Proof. by destruct b. Qed.
Lemma moves_option {A B} (o : option B) (f : B → M S A) m :
  (∀ b, moves R (f b)) → moves R m → moves R (match o with Some b => f b | None => m end).
Proof. destruct o; auto. Qed.
Lemma moves_for_each {A} (l : list A) body : (∀ x, moves R (body x)) → moves R (for_each l body).
Proof. intros Hb. induction l; simpl; [by apply moves_pure|]. by apply moves_bind. Qed.
Lemma moves_fold_m {A B} (l : list A) (body : B → A → M S B) acc :
  (∀ acc x, moves R (body acc x)) → moves R (fold_m l acc body).
Proof.
  intros Hb. revert acc. induction l; intros; simpl; [by apply moves_pure|]. by apply moves_bind.
Qed.
Lemma moves_map_err {A} e (m : M S A) : moves R m → moves R (map_err e m).
Proof. intros Hm s. specialize (Hm s). unfold map_err. by destruct (m s) as [[?|?|?] ?]. Qed.
Lemma moves_try {A} (m : M S A) : moves R m → moves R (try m).
Proof. intros Hm s. specialize (Hm s). unfold try. by destruct (m s) as [[?|?|?] ?]. Qed.
Lemma moves_ret {A} (a : A) : moves R (ret a).
Proof. by apply moves_pure. Qed.
Lemma moves_fail {A} e : moves R (fail (A := A) e).
Proof. by apply moves_pure. Qed.
Lemma moves_gets {A} (f : S → A) : moves R (gets f).
Proof. by apply moves_pure. Qed.
Lemma moves_lift {A} (r : result A) : moves R (lift r).
Proof. by apply moves_pure. Qed.
Lemma moves_assert b e : moves R (assert b e).
Proof. apply moves_pure. intros. unfold assert. by destruct b. Qed.
End Moves.

Create HintDb moves.
#[export] Hint Resolve moves_ret moves_fail moves_gets moves_lift moves_assert : moves.

(** A component's routine moves the larger store when each of its moves does. *)
Lemma moves_zoom {S T A} (R : S → S → Prop) (get : S → T) put (m : M T A) :
  (∀ s, R s (put (m (get s)).2 s)) → moves R (zoom get put m).
Proof. done. Qed.

(** Decompose a routine built from the combinators and solve the leaves from the hints. *)
Ltac move_steps :=
  repeat first
    [ solve [eauto with moves typeclass_instances]
    | apply moves_bind; [typeclasses eauto| |intros ?]
    | apply moves_if
    | case_match ].

Lemma moves_assert_bind {S A} (R : S → S → Prop) `{!Reflexive R} (b : bool) e (m : M S A) :
  (b = true → moves R m) → moves R (let! _ := assert b e in m).
Proof. intros Hm s. unfold bind, assert. destruct b; [by apply Hm|simpl; reflexivity]. Qed.

Lemma moves_found_bind {S A B} (R : S → S → Prop) `{!Reflexive R} (f : S → option A) e
    (k : A → M S B) :
  (∀ s a, f s = Some a → R s (k a s).2) →
  moves R (let! found := gets f in let! x := lift (ok_or e found) in k x).
Proof.
  intros Hk s. erewrite bind_run by reflexivity. specialize (Hk s).
  unfold bind, lift. destruct (f s) as [a|]; simpl; [by apply Hk|reflexivity].
Qed.

(** ** The heights of a range

    [first..=last] in increasing order. *)
Definition heights (first last : Z) : list Z :=
  (λ k, first + Z.of_nat k) <$> seq 0 (Z.to_nat (last - first + 1)).

Lemma elem_of_heights a b k : k ∈ heights a b ↔ a <= k <= b.
Proof.
  unfold heights. rewrite list_elem_of_fmap. split.
  - intros (n & -> & Hn%elem_of_seq). lia.
  - intros Hk. exists (Z.to_nat (k - a)). split; [lia|]. apply elem_of_seq. lia.
Qed.
Lemma heights_NoDup a b : NoDup (heights a b).
Proof. apply NoDup_fmap_2; [intros i j; lia|apply NoDup_seq]. Qed.
Lemma heights_nil a b : b < a → heights a b = [].
Proof. intros Hb. unfold heights. by replace (Z.to_nat (b - a + 1)) with 0%nat by lia. Qed.
Lemma heights_snoc a b : a <= b → heights a b = heights a (b - 1) ++ [b].
Proof.
  intros Hb. unfold heights. replace (Z.to_nat (b - a + 1)) with (Z.to_nat (b - 1 - a + 1) + 1)%nat by lia.
  rewrite seq_app, fmap_app. cbn. do 2 f_equal. lia.
Qed.
Lemma heights_cons a b : a <= b → heights a b = a :: heights (a + 1) b.
Proof.
  intros Hb. unfold heights. replace (Z.to_nat (b - a + 1)) with (S (Z.to_nat (b - (a + 1) + 1))) by lia.
  cbn. rewrite Z.add_0_r. f_equal. rewrite <-seq_shift, <-list_fmap_compose.
  apply list_fmap_ext. intros i x _. cbn. lia.
Qed.
Lemma heights_app a m b : a <= m + 1 → m <= b → heights a b = heights a m ++ heights (m + 1) b.
Proof.
  intros Ha Hb. unfold heights.
  replace (Z.to_nat (b - a + 1)) with (Z.to_nat (m - a + 1) + Z.to_nat (b - (m + 1) + 1))%nat by lia.
  rewrite seq_app, fmap_app. f_equal. rewrite Nat.add_0_l.
  rewrite <-(Nat.add_0_r (Z.to_nat (m - a + 1))) at 1. rewrite <-fmap_add_seq, <-list_fmap_compose.
  apply list_fmap_ext. intros i x _. cbn. lia.
Qed.
