(* ===== verification/Encoding.v ===== *)
(** * Text as bytes

    The encodings that several components feed to SHA-256 or to a database key: the bytes of a text,
    lower-case hexadecimal (the [encode_hex] of [usdb-indexer/src/index/pass_commit.rs] and of
    [usdb-util/src/types.rs]), and their injectivity. *)

From S2P Require Import Prelude.

(** [str::as_bytes] of an ASCII text. *)
Definition as_bytes (s : string) : list Z :=
  (λ c, Z.of_nat (nat_of_ascii c)) <$> list_ascii_of_string s.

Definition hex_digit (n : Z) : ascii :=
  ascii_of_nat (Z.to_nat (if n <? 10 then 48 + n else 87 + n)).
(** [{:02x}] of each byte. *)
Fixpoint encode_hex (bytes : list Z) : string :=
  match bytes with
  | [] => EmptyString
  | b :: bytes => String (hex_digit (b / 16)) (String (hex_digit (b mod 16)) (encode_hex bytes))
  end.

(** ** Injectivity *)

#[export] Instance char_code_inj : Inj (=) (=) (λ c, Z.of_nat (nat_of_ascii c)).
Proof.
  intros a b E%Nat2Z.inj. rewrite <-(ascii_nat_embedding a), <-(ascii_nat_embedding b). by rewrite E.
Qed.

Lemma as_bytes_inj s1 s2 : as_bytes s1 = as_bytes s2 → s1 = s2.
Proof.
  unfold as_bytes. intros E%(inj _).
  rewrite <-(string_of_list_ascii_of_string s1), <-(string_of_list_ascii_of_string s2). by rewrite E.
Qed.

(** The code of a hexadecimal digit. *)
Lemma hex_digit_code n :
  0 <= n < 16 → Z.of_nat (nat_of_ascii (hex_digit n)) = if n <? 10 then 48 + n else 87 + n.
Proof.
  intros Hn. unfold hex_digit. rewrite nat_ascii_embedding by (destruct (n <? 10); lia).
  destruct (n <? 10); lia.
Qed.

Lemma hex_digit_inj a b : 0 <= a < 16 → 0 <= b < 16 → hex_digit a = hex_digit b → a = b.
Proof.
  intros Ha Hb E. pose proof (hex_digit_code a Ha) as Ea. pose proof (hex_digit_code b Hb) as Eb.
  rewrite E, Eb in Ea. destruct (a <? 10) eqn:E1, (b <? 10) eqn:E2; b2p; lia.
Qed.

Definition byte (b : Z) : Prop := 0 <= b <= 255.

Lemma byte_digits b : byte b → 0 <= b / 16 < 16 ∧ 0 <= b mod 16 < 16.
Proof.
  intros Hb. split; [|by apply Z.mod_pos_bound].
  split; [apply Z.div_pos|apply Z.div_lt_upper_bound]; unfold byte in Hb; lia.
Qed.

Lemma encode_hex_inj l1 l2 :
  Forall byte l1 → Forall byte l2 → encode_hex l1 = encode_hex l2 → l1 = l2.
Proof.
  intros H1. revert l2. induction H1 as [|a l1 Ha H1 IH]; intros l2 H2; destruct H2 as [|b l2 Hb H2];
    simpl; try done.
  intros [= E1 E2 E3]. destruct (byte_digits a Ha), (byte_digits b Hb).
  apply hex_digit_inj in E1; [|done..]. apply hex_digit_inj in E2; [|done..]. f_equal; [|by apply IH].
  rewrite (Z.div_mod a 16), (Z.div_mod b 16) by done. congruence.
Qed.

Lemma be4_inj a b x y :
  0 <= a <= U32_MAX → 0 <= b <= U32_MAX → be_bytes 4 a ++ x = be_bytes 4 b ++ y → a = b ∧ x = y.
Proof.
  intros Ha Hb E. apply app_inj_1 in E as [E ->]; [|by rewrite !length_be_bytes].
  split; [|done]. apply (be_bytes_inj 4); [..|done]; unfold U32_MAX in *;
    change (256 ^ Z.of_nat 4) with 4294967296; lia.
Qed.
