(* ===== verification/Types.v ===== *)
(** * Data model

    Identifiers, the pass state, and the rows the stores exchange.  Code modelled:
    [usdb-indexer/src/index/content.rs] (pass state), [usdb-indexer/src/storage/pass.rs] and
    [storage/energy.rs] (row types).

    A 32-byte hash ([Txid], [USDBScriptHash]) is the unsigned number whose big-endian digits are
    its bytes; block heights and output indices are [u32], amounts and energies [u64], balance
    deltas [i64], each a [Z] in range. *)

From S2P Require Import Prelude.

Abbreviation Txid := Z (only parsing).
Abbreviation USDBScriptHash := Z (only parsing).
Abbreviation u32 := Z (only parsing).
Abbreviation u64 := Z (only parsing).
Abbreviation i64 := Z (only parsing).

(** ** Identifiers of the bitcoin and ord crates *)

Record InscriptionId := { txid : Txid; index : u32 }.
Record OutPoint := { op_txid : Txid; vout : u32 }.
Record SatPoint := { outpoint : OutPoint; offset : u64 }.

#[export] Instance InscriptionId_eq_dec : EqDecision InscriptionId.
Proof. solve_decision. Defined.
#[export] Instance InscriptionId_countable : Countable InscriptionId.
Proof.
  refine (inj_countable' (λ i, (txid i, index i)) (λ p, {| txid := p.1; index := p.2 |}) _).
  by intros [].
Defined.
#[export] Instance OutPoint_eq_dec : EqDecision OutPoint.
Proof. solve_decision. Defined.
#[export] Instance OutPoint_countable : Countable OutPoint.
Proof.
  refine (inj_countable' (λ o, (op_txid o, vout o)) (λ p, {| op_txid := p.1; vout := p.2 |}) _).
  by intros [].
Defined.
#[export] Instance SatPoint_eq_dec : EqDecision SatPoint.
Proof. solve_decision. Defined.

(** ** The pass state machine's states *)

Inductive MinerPassState := Active | Dormant | Consumed | Burned | Invalid.

#[export] Instance MinerPassState_eq_dec : EqDecision MinerPassState.
Proof. solve_decision. Defined.

Definition as_str (s : MinerPassState) : string :=
  match s with
  | Active => "active" | Dormant => "dormant" | Consumed => "consumed"
  | Burned => "burned" | Invalid => "invalid"
  end.

Definition as_int (s : MinerPassState) : u32 :=
  match s with Active => 0 | Dormant => 1 | Consumed => 2 | Burned => 3 | Invalid => 4 end.

(** [str::to_lowercase] on ASCII letters.  No non-ASCII character lowercases to a letter of the
    five state names, so the restriction does not change [from_str]. *)
Definition ascii_to_lower (c : ascii) : ascii :=
  let n := nat_of_ascii c in
  if (65 <=? n)%nat && (n <=? 90)%nat then ascii_of_nat (n + 32) else c.
Fixpoint to_lowercase (s : string) : string :=
  match s with
  | EmptyString => EmptyString
  | String c s => String (ascii_to_lower c) (to_lowercase s)
  end.

Definition MinerPassState_from_str (s : string) : result MinerPassState :=
  let s := to_lowercase s in
  if String.eqb s "active" then Ok Active
  else if String.eqb s "dormant" then Ok Dormant
  else if String.eqb s "consumed" then Ok Consumed
  else if String.eqb s "burned" then Ok Burned
  else if String.eqb s "invalid" then Ok Invalid
  else Err "Invalid MinerPassState string".

Definition MinerPassState_try_from (v : u32) : result MinerPassState :=
  match v with
  | 0 => Ok Active | 1 => Ok Dormant | 2 => Ok Consumed | 3 => Ok Burned | 4 => Ok Invalid
  | _ => Err "Invalid MinerPassState integer"
  end.

Lemma as_str_from_str s : MinerPassState_from_str (as_str s) = Ok s.
Proof. by destruct s. Qed.
Lemma as_int_try_from s : MinerPassState_try_from (as_int s) = Ok s.
Proof. by destruct s. Qed.
Lemma as_str_inj s1 s2 : as_str s1 = as_str s2 → s1 = s2.
Proof. by destruct s1, s2. Qed.

(** ** Rows of the pass store *)

Record MinerPassInfo := {
  inscription_id : InscriptionId;
  inscription_number : Z;
  mint_txid : Txid;
  mint_block_height : u32;
  mint_owner : USDBScriptHash;
  satpoint : SatPoint;
  eth_main : string;
  eth_collab : option string;
  prev : list InscriptionId;
  invalid_code : option string;
  invalid_reason : option string;
  owner : USDBScriptHash;
  state : MinerPassState
}.

Record ValidMinerPassInfo := {
  vp_inscription_id : InscriptionId;
  vp_owner : USDBScriptHash;
  vp_satpoint : SatPoint
}.

Record ActiveMinerPassInfo := {
  ap_inscription_id : InscriptionId;
  ap_owner : USDBScriptHash
}.

Record ActiveBalanceSnapshot := {
  abs_block_height : u32;
  total_balance : u64;
  active_address_count : u32
}.

(** The columns the three [UPDATE miner_passes] statements write. *)
Definition set_owner_satpoint (o : USDBScriptHash) (sp : SatPoint) (p : MinerPassInfo) :=
  {| inscription_id := inscription_id p; inscription_number := inscription_number p;
     mint_txid := mint_txid p; mint_block_height := mint_block_height p;
     mint_owner := mint_owner p; satpoint := sp; eth_main := eth_main p;
     eth_collab := eth_collab p; prev := prev p; invalid_code := invalid_code p;
     invalid_reason := invalid_reason p; owner := o; state := state p |}.
Definition set_state (st : MinerPassState) (p : MinerPassInfo) :=
  {| inscription_id := inscription_id p; inscription_number := inscription_number p;
     mint_txid := mint_txid p; mint_block_height := mint_block_height p;
     mint_owner := mint_owner p; satpoint := satpoint p; eth_main := eth_main p;
     eth_collab := eth_collab p; prev := prev p; invalid_code := invalid_code p;
     invalid_reason := invalid_reason p; owner := owner p; state := st |}.
Definition set_satpoint (sp : SatPoint) (p : MinerPassInfo) := set_owner_satpoint (owner p) sp p.

(** ** Rows of the energy store *)

Record PassEnergyValue := {
  ev_state : MinerPassState;
  ev_active_block_height : u32;
  ev_owner_address : USDBScriptHash;
  ev_owner_balance : u64;
  ev_owner_delta : i64;
  ev_energy : u64
}.

Record PassEnergyRecord := {
  er_inscription_id : InscriptionId;
  er_block_height : u32;
  er_state : MinerPassState;
  er_active_block_height : u32;
  er_owner_address : USDBScriptHash;
  er_owner_balance : u64;
  er_owner_delta : i64;
  er_energy : u64
}.

Definition record_value (r : PassEnergyRecord) : PassEnergyValue :=
  {| ev_state := er_state r; ev_active_block_height := er_active_block_height r;
     ev_owner_address := er_owner_address r; ev_owner_balance := er_owner_balance r;
     ev_owner_delta := er_owner_delta r; ev_energy := er_energy r |}.

Definition value_record (i : InscriptionId) (h : u32) (v : PassEnergyValue) : PassEnergyRecord :=
  {| er_inscription_id := i; er_block_height := h; er_state := ev_state v;
     er_active_block_height := ev_active_block_height v;
     er_owner_address := ev_owner_address v; er_owner_balance := ev_owner_balance v;
     er_owner_delta := ev_owner_delta v; er_energy := ev_energy v |}.

Lemma record_value_record i h v : record_value (value_record i h v) = v.
Proof. by destruct v. Qed.
Lemma value_record_value r :
  value_record (er_inscription_id r) (er_block_height r) (record_value r) = r.
Proof. by destruct r. Qed.

(** ** Rows of the balance-history service

    [AddressBalance] is the reply type of the balance-history RPC client. *)

Record AddressBalance := { ab_block_height : u32; ab_balance : u64; ab_delta : i64 }.

#[export] Instance PassEnergyValue_eq_dec : EqDecision PassEnergyValue.
Proof. solve_decision. Defined.
#[export] Instance PassEnergyRecord_eq_dec : EqDecision PassEnergyRecord.
Proof. solve_decision. Defined.
#[export] Instance MinerPassInfo_eq_dec : EqDecision MinerPassInfo.
Proof. solve_decision. Defined.
#[export] Instance AddressBalance_eq_dec : EqDecision AddressBalance.
Proof. solve_decision. Defined.
