(* ===== verification/EnergyFormula.v ===== *)
(** * Energy formula

    [usdb-indexer/src/index/energy_formula.rs] and [calc_incremental_growth] of
    [index/energy.rs]: growth of a pass's energy between two heights and the penalty of a
    withdrawal, in saturating [u64]/[u128] arithmetic, with the algebra the rest of the
    development uses. *)

From S2P Require Import Prelude Types.

Definition ENERGY_BALANCE_THRESHOLD : u64 := 100000.
Definition ENERGY_GROWTH_MULTIPLIER : u64 := 10000.
Definition ENERGY_PENALTY_MULTIPLIER : u64 := 43200000.

Definition saturating_u128_to_u64 (value : Z) : u64 :=
  if value >? U64_MAX then U64_MAX else value.

Definition calc_growth_delta (owner_balance : u64) (r : u32) : u64 :=
  if owner_balance <? ENERGY_BALANCE_THRESHOLD then 0
  else
    let raw :=
      u128_saturating_mul (u128_saturating_mul owner_balance ENERGY_GROWTH_MULTIPLIER) r in
    saturating_u128_to_u64 raw.

Definition calc_penalty_from_delta (delta : i64) : u64 :=
  if delta >=? 0 then 0
  else
    let loss_sats := Z.abs delta in
    let raw := u128_saturating_mul loss_sats ENERGY_PENALTY_MULTIPLIER in
    saturating_u128_to_u64 raw.

Definition calc_incremental_growth
    (owner_balance : u64) (active_block_height from_block_height to_block_height : u32) : u64 :=
  if to_block_height <=? from_block_height then 0
  else
    let growth_at_to :=
      calc_growth_delta owner_balance (u32_saturating_sub to_block_height active_block_height) in
    let growth_at_from :=
      calc_growth_delta owner_balance (u32_saturating_sub from_block_height active_block_height) in
    u64_saturating_sub growth_at_to growth_at_from.

(** ** Closed forms *)

(** The exact growth, before saturation, is linear in the age. *)
Definition growth_rate (owner_balance : u64) : Z :=
  if owner_balance <? ENERGY_BALANCE_THRESHOLD then 0
  else owner_balance * ENERGY_GROWTH_MULTIPLIER.

Lemma growth_rate_nonneg b : 0 <= b → 0 <= growth_rate b.
Proof. unfold growth_rate, ENERGY_GROWTH_MULTIPLIER. case_match; lia. Qed.

(** The two roundings to [u128] and the final cap to [u64] amount to one cap: in [u64] inputs the
    intermediate product of two factors never exceeds [u128]. *)
Lemma calc_growth_delta_closed b r :
  0 <= b <= U64_MAX → 0 <= r → calc_growth_delta b r = Z.min U64_MAX (growth_rate b * r).
Proof.
  intros Hb Hr. unfold calc_growth_delta, growth_rate.
  destruct (b <? ENERGY_BALANCE_THRESHOLD) eqn:E; [unfold U64_MAX; lia|].
  unfold saturating_u128_to_u64, u128_saturating_mul.
  assert (b * ENERGY_GROWTH_MULTIPLIER <= U128_MAX) as ?
    by (unfold ENERGY_GROWTH_MULTIPLIER, U64_MAX, U128_MAX in *; lia).
  rewrite (Z.min_r U128_MAX (b * _)) by done.
  assert (U64_MAX < U128_MAX) by done.
  destruct (_ >? _) eqn:E2; [apply Z.gtb_lt in E2|rewrite Z.gtb_ltb in E2; b2p]; lia.
Qed.

Lemma calc_penalty_closed d :
  I64_MIN <= d <= I64_MAX →
  calc_penalty_from_delta d = Z.min U64_MAX (Z.max 0 (- d) * ENERGY_PENALTY_MULTIPLIER).
Proof.
  intros Hd. unfold calc_penalty_from_delta, ENERGY_PENALTY_MULTIPLIER.
  destruct (d >=? 0) eqn:E; rewrite Z.geb_leb in E; b2p; [unfold U64_MAX; lia|].
  unfold saturating_u128_to_u64, u128_saturating_mul.
  assert (Z.abs d * 43200000 <= U128_MAX) as ? by (unfold I64_MIN, U128_MAX in *; lia).
  rewrite Z.min_r by done.
  destruct (_ >? _) eqn:E2; [apply Z.gtb_lt in E2|rewrite Z.gtb_ltb in E2; b2p]; lia.
Qed.

Lemma calc_growth_delta_range b r :
  0 <= b <= U64_MAX → 0 <= r → 0 <= calc_growth_delta b r <= U64_MAX.
Proof.
  intros. rewrite calc_growth_delta_closed by done.
  pose proof (growth_rate_nonneg b). unfold U64_MAX in *. nia.
Qed.

Lemma calc_growth_delta_mono b r1 r2 :
  0 <= b <= U64_MAX → 0 <= r1 <= r2 → calc_growth_delta b r1 <= calc_growth_delta b r2.
Proof.
  intros. rewrite !calc_growth_delta_closed by lia.
  pose proof (growth_rate_nonneg b). nia.
Qed.

(** ** Growth between two heights *)

(** Total growth since the activation height [a]. *)
Definition growth_since (b a h : Z) : Z := calc_growth_delta b (u32_saturating_sub h a).

Lemma growth_since_mono b a h1 h2 :
  0 <= b <= U64_MAX → h1 <= h2 → growth_since b a h1 <= growth_since b a h2.
Proof. intros. apply calc_growth_delta_mono; unfold u32_saturating_sub; lia. Qed.

Lemma growth_since_range b a h : 0 <= b <= U64_MAX → 0 <= growth_since b a h <= U64_MAX.
Proof. intros. apply calc_growth_delta_range; unfold u32_saturating_sub; lia. Qed.

Lemma calc_incremental_growth_diff b a h1 h2 :
  0 <= b <= U64_MAX → h1 <= h2 →
  calc_incremental_growth b a h1 h2 = growth_since b a h2 - growth_since b a h1.
Proof.
  intros Hb Hle. pose proof (growth_since_mono b a h1 h2 Hb Hle).
  unfold calc_incremental_growth. destruct (h2 <=? h1) eqn:E; b2p.
  - assert (h1 = h2) as -> by lia. lia.
  - unfold growth_since, u64_saturating_sub in *. lia.
Qed.

Lemma calc_incremental_growth_range b a h1 h2 :
  0 <= b <= U64_MAX → 0 <= calc_incremental_growth b a h1 h2 <= U64_MAX.
Proof.
  intros Hb. destruct (Z_le_gt_dec h1 h2).
  - rewrite calc_incremental_growth_diff by done.
    pose proof (growth_since_mono b a h1 h2 Hb). pose proof (growth_since_range b a h1 Hb).
    pose proof (growth_since_range b a h2 Hb). lia.
  - unfold calc_incremental_growth. rewrite (proj2 (Z.leb_le _ _)) by lia. unfold U64_MAX. lia.
Qed.

(** ** Properties *)

(** Settling a pass at an intermediate height and again at a later one, with no balance change in
    between, gives the energy of settling once at the later height, saturation included: growth
    does not depend on the heights at which the indexer happens to touch the pass. *)
Theorem growth_path_independent e b a h1 h2 h3 :
  0 <= e → 0 <= b <= U64_MAX → h1 <= h2 <= h3 →
  u64_saturating_add (u64_saturating_add e (calc_incremental_growth b a h1 h2))
                     (calc_incremental_growth b a h2 h3)
  = u64_saturating_add e (calc_incremental_growth b a h1 h3).
Proof.
  intros He Hb Hh. rewrite !calc_incremental_growth_diff by lia.
  pose proof (growth_since_mono b a h1 h2). pose proof (growth_since_mono b a h2 h3).
  unfold u64_saturating_add. lia.
Qed.

Lemma growth_path_independent_witness :
  u64_saturating_add (u64_saturating_add 7 (calc_incremental_growth 250000 100 110 120))
                     (calc_incremental_growth 250000 100 120 400)
  = u64_saturating_add 7 (calc_incremental_growth 250000 100 110 400).
Proof. apply growth_path_independent; unfold U64_MAX; lia. Defined.
