(* ===== verification/EnergyStorage.v ===== *)
(** * Energy store

    [usdb-indexer/src/storage/energy.rs]: the RocksDB column family of energy records, keyed by
    [txid || index || height] in big-endian bytes, and the three height markers of the meta
    column family.  A column family is a finite map from the decoded key; an iterator enumerates
    it in the byte order of the encoded keys.  RocksDB I/O failures and corrupt rows (which the
    code turns into errors) are outside the model. *)

From S2P Require Import Prelude Types.

Record PassEnergyKey := { ek_inscription_id : InscriptionId; ek_block_height : u32 }.

Record EnergyDb := {
  pass_energy_cf : gmap (InscriptionId * u32) PassEnergyValue;
  meta_synced_block_height : option u32;
  meta_pending_block_height : option u32;
  meta_max_record_block_height : option u32
}.

Definition empty_energy_db : EnergyDb :=
  {| pass_energy_cf := ∅; meta_synced_block_height := None;
     meta_pending_block_height := None; meta_max_record_block_height := None |}.

(** ** Key codec *)

Definition make_energy_key (inscription_id : InscriptionId) (block_height : u32) : list Z :=
  be_bytes 32 (txid inscription_id) ++ be_bytes 4 (index inscription_id)
    ++ be_bytes 4 block_height.

Definition parse_energy_key (key_bytes : list Z) : result PassEnergyKey :=
  if negb (Nat.eqb (length key_bytes) 40) then Err "Invalid PassEnergyKey length"
  else
    Ok {| ek_inscription_id :=
            {| txid := of_be_bytes (take 32 key_bytes);
               index := of_be_bytes (take 4 (drop 32 key_bytes)) |};
          ek_block_height := of_be_bytes (take 4 (drop 36 key_bytes)) |}.

(** ** Iterators *)

Abbreviation row := ((InscriptionId * Z) * PassEnergyValue)%type.

Definition row_key (kv : row) : list Z := make_energy_key kv.1.1 kv.1.2.
Definition row_le (a b : row) : Prop := bytes_le (row_key a) (row_key b) = true.
Definition row_le_dec a b : Decision (row_le a b) :=
  bool_eq_dec (bytes_le (row_key a) (row_key b)) true.
Definition row_record (kv : row) : PassEnergyRecord := value_record kv.1.1 kv.1.2 kv.2.

(** [IteratorMode::Start] *)
Definition iter_start (db : EnergyDb) : list row :=
  @merge_sort _ row_le row_le_dec (map_to_list (pass_energy_cf db)).
(** [IteratorMode::From(key, Forward)] *)
Definition iter_forward (db : EnergyDb) (key : list Z) : list row :=
  filter (λ kv, bytes_le key (row_key kv) = true) (iter_start db).
(** [IteratorMode::From(key, Reverse)] *)
Definition iter_reverse (db : EnergyDb) (key : list Z) : list row :=
  reverse (filter (λ kv, bytes_le (row_key kv) key = true) (iter_start db)).

(** ** Operations *)

Definition set_synced_block_height (block_height : u32) : M EnergyDb unit :=
  modify (λ db,
    {| pass_energy_cf := pass_energy_cf db; meta_synced_block_height := Some block_height;
       meta_pending_block_height := meta_pending_block_height db;
       meta_max_record_block_height := meta_max_record_block_height db |}).
Definition get_synced_block_height : M EnergyDb (option u32) := gets meta_synced_block_height.
Definition put_pending_block_height (v : option u32) : M EnergyDb unit :=
  modify (λ db,
    {| pass_energy_cf := pass_energy_cf db;
       meta_synced_block_height := meta_synced_block_height db;
       meta_pending_block_height := v;
       meta_max_record_block_height := meta_max_record_block_height db |}).
Definition set_pending_block_height (block_height : u32) : M EnergyDb unit :=
  put_pending_block_height (Some block_height).
Definition clear_pending_block_height : M EnergyDb unit := put_pending_block_height None.
Definition get_pending_block_height : M EnergyDb (option u32) := gets meta_pending_block_height.
Definition put_max_record_block_height (v : option u32) : M EnergyDb unit :=
  modify (λ db,
    {| pass_energy_cf := pass_energy_cf db;
       meta_synced_block_height := meta_synced_block_height db;
       meta_pending_block_height := meta_pending_block_height db;
       meta_max_record_block_height := v |}).

(** One write batch: synced advances and the pending marker goes. *)
Definition storage_finalize_block_sync (block_height : u32) : M EnergyDb unit :=
  modify (λ db,
    {| pass_energy_cf := pass_energy_cf db; meta_synced_block_height := Some block_height;
       meta_pending_block_height := None;
       meta_max_record_block_height := meta_max_record_block_height db |}).

Definition insert_record (record : PassEnergyRecord) (db : EnergyDb) : EnergyDb :=
  {| pass_energy_cf :=
       <[(er_inscription_id record, er_block_height record) := record_value record]>
         (pass_energy_cf db);
     meta_synced_block_height := meta_synced_block_height db;
     meta_pending_block_height := meta_pending_block_height db;
     meta_max_record_block_height :=
       if (match meta_max_record_block_height db with
           | Some h => er_block_height record >? h
           | None => true
           end)
       then Some (er_block_height record)
       else meta_max_record_block_height db |}.
Definition insert_pass_energy_record (record : PassEnergyRecord) : M EnergyDb unit :=
  modify (insert_record record).

Definition get_pass_energy_record (inscription_id : InscriptionId) (block_height : u32) :
    M EnergyDb (option PassEnergyValue) :=
  gets (λ db, pass_energy_cf db !! (inscription_id, block_height)).

(** The backward scan of [find_last_pass_energy_record]: it skips other rows and stops at the
    first row of the inscription at or below the height. *)
Fixpoint scan_last (inscription_id : InscriptionId) (from_block_height : u32)
    (iter : list row) : option PassEnergyRecord :=
  match iter with
  | [] => None
  | kv :: iter =>
      if bool_decide (kv.1.1 = inscription_id) && (kv.1.2 <=? from_block_height)
      then Some (row_record kv)
      else scan_last inscription_id from_block_height iter
  end.
Definition find_last (inscription_id : InscriptionId) (from_block_height : u32) (db : EnergyDb) :
    option PassEnergyRecord :=
  scan_last inscription_id from_block_height
    (iter_reverse db (make_energy_key inscription_id from_block_height)).
Definition find_last_pass_energy_record (inscription_id : InscriptionId)
    (from_block_height : u32) : M EnergyDb (option PassEnergyRecord) :=
  gets (find_last inscription_id from_block_height).

(** The paging loop the two range queries share; [out_of_range] is the test that ends the scan. *)
Fixpoint page_scan (inscription_id : InscriptionId) (out_of_range : u32 → bool)
    (offset page_size : Z) (iter : list row) (skipped : Z) (records : list PassEnergyRecord) :
    list PassEnergyRecord :=
  match iter with
  | [] => records
  | kv :: iter =>
      if negb (bool_decide (kv.1.1 = inscription_id)) then records
      else if out_of_range kv.1.2 then records
      else if skipped <? offset then
        page_scan inscription_id out_of_range offset page_size iter (skipped + 1) records
      else
        let records := records ++ [row_record kv] in
        if page_size <=? Z.of_nat (length records) then records
        else page_scan inscription_id out_of_range offset page_size iter skipped records
  end.

Definition get_pass_energy_records_by_page_in_height_range
    (inscription_id : InscriptionId) (from_block_height to_block_height : u32)
    (page page_size : Z) (db : EnergyDb) : result (list PassEnergyRecord) :=
  if from_block_height >? to_block_height then Err "Invalid energy height range"
  else
    let? offset :=
      ok_or "Pagination overflow when querying pass energy range"
        (usize_checked_mul page page_size) in
    Ok (page_scan inscription_id (λ h, h >? to_block_height) offset page_size
          (iter_forward db (make_energy_key inscription_id from_block_height)) 0 []).

Definition get_pass_energy_records_by_page_in_height_range_desc
    (inscription_id : InscriptionId) (from_block_height to_block_height : u32)
    (page page_size : Z) (db : EnergyDb) : result (list PassEnergyRecord) :=
  if from_block_height >? to_block_height then Err "Invalid energy height range"
  else
    let? offset :=
      ok_or "Pagination overflow when querying pass energy range desc"
        (usize_checked_mul page page_size) in
    Ok (page_scan inscription_id (λ h, h <? from_block_height) offset page_size
          (iter_reverse db (make_energy_key inscription_id to_block_height)) 0 []).

(** The counting loop: it ends at another inscription or past the range, and counts in [u64]. *)
Fixpoint count_scan (inscription_id : InscriptionId) (to_block_height : u32)
    (iter : list row) (count : u64) : result u64 :=
  match iter with
  | [] => Ok count
  | kv :: iter =>
      if negb (bool_decide (kv.1.1 = inscription_id)) then Ok count
      else if kv.1.2 >? to_block_height then Ok count
      else if count + 1 <=? U64_MAX
           then count_scan inscription_id to_block_height iter (count + 1)
           else Err "Pass energy record count overflow"
  end.
Definition count_pass_energy_records_in_height_range
    (inscription_id : InscriptionId) (from_block_height to_block_height : u32)
    (db : EnergyDb) : result u64 :=
  if from_block_height >? to_block_height then Err "Invalid energy height range"
  else count_scan inscription_id to_block_height
         (iter_forward db (make_energy_key inscription_id from_block_height)) 0.

(** Delete every record at or above a height; the scan that collects the keys also yields the
    highest kept height, which becomes the cached maximum. *)
Definition clear_from (from_block_height : u32) (db : EnergyDb) : EnergyDb :=
  {| pass_energy_cf := filter (λ kv : row, kv.1.2 < from_block_height) (pass_energy_cf db);
     meta_synced_block_height := meta_synced_block_height db;
     meta_pending_block_height := meta_pending_block_height db;
     meta_max_record_block_height :=
       list_max (λ kv : row, kv.1.2)
         (filter (λ kv : row, kv.1.2 < from_block_height) (iter_start db)) |}.
Definition clear_records_from_height (from_block_height : u32) : M EnergyDb unit :=
  modify (clear_from from_block_height).

Definition scan_max_record_block_height (db : EnergyDb) : option u32 :=
  list_max (λ kv : row, kv.1.2) (iter_start db).
(** The cached maximum, or a full scan whose result is cached. *)
Definition get_max_record_block_height : M EnergyDb (option u32) :=
  let! cached := gets meta_max_record_block_height in
  match cached with
  | Some height => ret (Some height)
  | None =>
      let! scanned := gets scan_max_record_block_height in
      let! _ := match scanned with
                | Some height => put_max_record_block_height (Some height)
                | None => ret tt
                end in
      ret scanned
  end.

(** ** Well-formed keys *)

Definition TXID_BOUND : Z := Eval cbv in 256 ^ 32.
Definition wf_id (i : InscriptionId) : Prop := 0 <= txid i < TXID_BOUND ∧ 0 <= index i <= U32_MAX.
Definition wf_key (k : InscriptionId * u32) : Prop := wf_id k.1 ∧ 0 <= k.2 <= U32_MAX.

Lemma wf_key_height k : wf_key k → 0 <= k.2 <= U32_MAX.
Proof. by intros [_ ?]. Qed.

(** The 40 key bytes read as one number. *)
Definition key_num (k : InscriptionId * u32) : Z :=
  (txid k.1 * 2 ^ 32 + index k.1) * 2 ^ 32 + k.2.

Lemma be_bytes_app w1 w2 x y :
  0 <= y < 256 ^ Z.of_nat w2 →
  be_bytes (w1 + w2) (x * 256 ^ Z.of_nat w2 + y) = be_bytes w1 x ++ be_bytes w2 y.
Proof.
  revert y. induction w2 as [|w2 IH]; intros y Hy.
  - change (256 ^ Z.of_nat 0) with 1 in *. rewrite Nat.add_0_r. rewrite be_bytes_0, app_nil_r. f_equal. lia.
  - rewrite Nat.add_succ_r. rewrite Nat2Z.inj_succ, Z.pow_succ_r in * by lia.
    rewrite !be_bytes_S.
    replace (x * (256 * 256 ^ Z.of_nat w2) + y)
      with (y + (x * 256 ^ Z.of_nat w2) * 256) by lia.
    rewrite Z.div_add, Z.mod_add by lia.
    rewrite app_assoc. f_equal. rewrite <-IH; [f_equal; lia|].
    split; [apply Z.div_pos|apply Z.div_lt_upper_bound]; lia.
Qed.

Lemma make_energy_key_num i h :
  wf_key (i, h) → make_energy_key i h = be_bytes 40 (key_num (i, h)).
Proof.
  intros [[Ht Hi] Hh]. simpl in *. unfold make_energy_key, key_num; simpl.
  change (2 ^ 32) with (256 ^ Z.of_nat 4).
  assert (256 ^ Z.of_nat 4 = U32_MAX + 1) as E by done.
  pose proof (be_bytes_app 36 4 (txid i * 256 ^ Z.of_nat 4 + index i) h) as E2.
  pose proof (be_bytes_app 32 4 (txid i) (index i)) as E3. simpl Nat.add in *.
  rewrite E2, E3 by lia. by rewrite <-app_assoc.
Qed.

Lemma key_num_range k : wf_key k → 0 <= key_num k < 256 ^ Z.of_nat 40.
Proof.
  destruct k as [[t i] h]. intros [[Ht Hi] Hh]; simpl in *. unfold key_num; simpl.
  unfold U32_MAX in *. change (2 ^ 32) with 4294967296.
  change (256 ^ Z.of_nat 40) with (TXID_BOUND * 4294967296 * 4294967296). nia.
Qed.

Lemma key_num_le k1 k2 :
  wf_key k1 → wf_key k2 →
  bytes_le (make_energy_key k1.1 k1.2) (make_energy_key k2.1 k2.2) = (key_num k1 <=? key_num k2).
Proof.
  intros W1 W2. destruct k1, k2. rewrite !make_energy_key_num by done.
  apply bytes_le_be_bytes; by apply key_num_range.
Qed.

Lemma key_num_same_id i h1 h2 : key_num (i, h1) <= key_num (i, h2) ↔ h1 <= h2.
Proof. unfold key_num; simpl. lia. Qed.

Lemma key_num_between i h1 h2 k :
  wf_key (i, h1) → wf_key (i, h2) → wf_key k →
  key_num (i, h1) <= key_num k <= key_num (i, h2) → k.1 = i.
Proof.
  destruct i as [t x], k as [[t' x'] h]. unfold wf_key, wf_id, key_num; simpl.
  unfold U32_MAX. change (2 ^ 32) with 4294967296.
  generalize TXID_BOUND. intros B [[? ?] ?] [_ ?] [[? ?] ?] [? ?].
  assert (t * 4294967296 + x = t' * 4294967296 + x') as E by lia.
  assert (t = t') by lia. subst. f_equal. lia.
Qed.

(** Encoding then decoding a key gives the key back, and the key bytes order first by
    inscription and then by height, which is what makes the range scans of the store correct. *)
Theorem energy_key_roundtrip_and_order i h :
  wf_key (i, h) →
  parse_energy_key (make_energy_key i h)
    = Ok {| ek_inscription_id := i; ek_block_height := h |}
  ∧ ∀ i' h', wf_key (i', h') →
      bytes_le (make_energy_key i h) (make_energy_key i' h')
      = (key_num (i, h) <=? key_num (i', h')).
Proof.
  intros W. split; [|intros; by apply (key_num_le (i, h) (i', h'))].
  destruct W as [[Ht Hi] Hh]. simpl in *. unfold parse_energy_key, make_energy_key.
  rewrite !length_app, !length_be_bytes. simpl negb. cbv iota.
  rewrite take_app_length' by by rewrite length_be_bytes.
  rewrite drop_app_length' by by rewrite length_be_bytes.
  rewrite take_app_length' by by rewrite length_be_bytes.
  rewrite app_assoc, drop_app_length' by by rewrite length_app, !length_be_bytes.
  rewrite take_ge by by rewrite length_be_bytes.
  unfold U32_MAX in *. rewrite !of_be_bytes_be_bytes.
  - by destruct i.
  - change (256 ^ Z.of_nat 4) with 4294967296. lia.
  - change (256 ^ Z.of_nat 4) with 4294967296. lia.
  - by change (256 ^ Z.of_nat 32) with TXID_BOUND.
Qed.


#[global] Arguments wf_id : simpl never.
#[global] Arguments wf_key : simpl never.
#[global] Arguments key_num : simpl never.
#[global] Arguments make_energy_key : simpl never.

(** ** The iterators enumerate the map in key order *)

Definition wf_db (db : EnergyDb) : Prop :=
  ∀ k v, pass_energy_cf db !! k = Some v → wf_key k.

Lemma elem_of_iter_start db kv : kv ∈ iter_start db ↔ pass_energy_cf db !! kv.1 = Some kv.2.
Proof.
  unfold iter_start. rewrite merge_sort_Permutation. destruct kv. apply elem_of_map_to_list.
Qed.

Lemma iter_start_sorted db : StronglySorted row_le (iter_start db).
Proof.
  apply StronglySorted_merge_sort.
  - intros a b c. apply bytes_le_trans.
  - intros a b. apply bytes_le_total.
Qed.

(** The records of one inscription in a height range, in height order. *)
Definition in_range (i : InscriptionId) (lo hi : Z) (kv : row) : bool :=
  bool_decide (kv.1.1 = i) && (lo <=? kv.1.2) && (kv.1.2 <=? hi).
Definition rows_in_range (i : InscriptionId) (lo hi : Z) (db : EnergyDb) : list row :=
  filter (λ kv, in_range i lo hi kv = true) (iter_start db).
Definition records_in_range (i : InscriptionId) (lo hi : Z) (db : EnergyDb) :
    list PassEnergyRecord := row_record <$> rows_in_range i lo hi db.

Lemma in_range_spec i lo hi kv : in_range i lo hi kv = true ↔ kv.1.1 = i ∧ lo <= kv.1.2 <= hi.
Proof. unfold in_range. rewrite !andb_true_iff, bool_decide_eq_true, !Z.leb_le. tauto. Qed.

Lemma elem_of_rows_in_range i lo hi db kv :
  kv ∈ rows_in_range i lo hi db
  ↔ kv.1.1 = i ∧ lo <= kv.1.2 <= hi ∧ pass_energy_cf db !! kv.1 = Some kv.2.
Proof.
  unfold rows_in_range. rewrite list_elem_of_filter, in_range_spec, elem_of_iter_start. tauto.
Qed.

Lemma elem_of_records_in_range i lo hi db r :
  r ∈ records_in_range i lo hi db ↔
  er_inscription_id r = i ∧ lo <= er_block_height r <= hi
  ∧ pass_energy_cf db !! (i, er_block_height r) = Some (record_value r).
Proof.
  unfold records_in_range. rewrite list_elem_of_fmap. split.
  - intros ([[i' h] v] & -> & (Hi & Hh & Hl)%elem_of_rows_in_range). simpl in *. subst.
    repeat split; try lia. by destruct v.
  - intros (<- & Hh & Hl). exists ((er_inscription_id r, er_block_height r), record_value r).
    split; [symmetry; apply value_record_value|]. by apply elem_of_rows_in_range.
Qed.

Lemma row_le_height (a b : row) :
  wf_key a.1 → wf_key b.1 → a.1.1 = b.1.1 → row_le a b → a.1.2 <= b.1.2.
Proof.
  intros Wa Wb E. unfold row_le, row_key.
  rewrite key_num_le by assumption. intros ?%Z.leb_le.
  destruct a as [[? ?] ?], b as [[? ?] ?]; cbn [fst snd] in *; subst. by eapply key_num_same_id.
Qed.

Lemma row_key_le_forward i lo kv :
  wf_key (i, lo) → wf_key kv.1 → kv.1.1 = i →
  bytes_le (make_energy_key i lo) (row_key kv) = (lo <=? kv.1.2).
Proof.
  destruct kv as [[i' h] v]. intros W1 W2 E. simpl in E. subst i'. unfold row_key.
  pose proof (key_num_le _ _ W1 W2) as K. cbn [fst snd] in *. rewrite K.
  apply eq_true_iff_eq. rewrite !Z.leb_le. apply key_num_same_id.
Qed.

Lemma row_key_le_backward i hi kv :
  wf_key (i, hi) → wf_key kv.1 → kv.1.1 = i →
  bytes_le (row_key kv) (make_energy_key i hi) = (kv.1.2 <=? hi).
Proof.
  destruct kv as [[i' h] v]. intros W1 W2 E. simpl in E. subst i'. unfold row_key.
  pose proof (key_num_le _ _ W2 W1) as K. cbn [fst snd] in *. rewrite K.
  apply eq_true_iff_eq. rewrite !Z.leb_le. apply key_num_same_id.
Qed.

(** ** The latest record at or below a height *)

Lemma scan_last_spec i h l :
  scan_last i h l
  = row_record <$> head (filter (λ kv : row, kv.1.1 = i ∧ kv.1.2 <= h) l).
Proof.
  induction l as [|kv l IH]; [done|]. simpl. case_match eqn:E; b2p.
  - rewrite filter_cons_True by done. done.
  - rewrite filter_cons_False; [done|]. intros [? ?]. destruct E; b2p; [done|lia].
Qed.

(** [find_last_pass_energy_record] is the last element of the records up to the height. *)
Lemma find_last_spec i h db :
  wf_db db → wf_key (i, h) → find_last i h db = last (records_in_range i 0 h db).
Proof.
  intros W Wk. unfold find_last, iter_reverse, records_in_range.
  rewrite scan_last_spec, filter_reverse, head_reverse, fmap_last. f_equal. f_equal.
  rewrite list_filter_filter. unfold rows_in_range.
  apply filter_ext_in. intros kv Hkv%elem_of_iter_start. rewrite in_range_spec.
  pose proof (W _ _ Hkv) as Wkv. pose proof (wf_key_height _ Wkv). split; [tauto|].
  intros (Ei & _ & Eh). rewrite row_key_le_backward by assumption. rewrite Z.leb_le. tauto.
Qed.

(** ** Paging and counting *)

(** The rows a range scan passes over before it stops. *)
Definition scan_ok (i : InscriptionId) (out_of_range : u32 → bool) (kv : row) : bool :=
  bool_decide (kv.1.1 = i) && negb (out_of_range kv.1.2).

Lemma page_scan_spec i out offset page_size l skipped recs :
  skipped <= offset → Z.of_nat (length recs) < page_size →
  page_scan i out offset page_size l skipped recs
  = recs ++ take (Z.to_nat page_size - length recs)
              (drop (Z.to_nat (offset - skipped)) (row_record <$> take_while (scan_ok i out) l)).
Proof.
  revert skipped recs. induction l as [|kv l IH]; intros skipped recs Hs Hr; simpl.
  - by rewrite ?fmap_nil, drop_nil, take_nil, app_nil_r.
  - unfold scan_ok at 1. destruct (bool_decide _); simpl;
      [|by rewrite ?fmap_nil, drop_nil, take_nil, app_nil_r].
    destruct (out _); simpl; [by rewrite ?fmap_nil, drop_nil, take_nil, app_nil_r|].
    destruct (skipped <? offset) eqn:E; b2p.
    + rewrite IH by lia. replace (Z.to_nat (offset - skipped))
        with (S (Z.to_nat (offset - (skipped + 1)))) by lia. done.
    + replace (Z.to_nat (offset - skipped)) with O by lia. rewrite drop_0.
      replace (Z.to_nat page_size - length recs)%nat
        with (S (Z.to_nat page_size - length (recs ++ [row_record kv])))
        by (rewrite length_app; simpl; lia).
      simpl. destruct (page_size <=? _) eqn:E2; b2p.
      * rewrite length_app in *. simpl in *.
        replace (Z.to_nat page_size - (length recs + 1))%nat with O by lia. done.
      * rewrite IH by lia. replace (Z.to_nat (offset - skipped)) with O by lia.
        by rewrite drop_0, <-app_assoc.
Qed.

Lemma count_scan_spec i hi l c :
  0 <= c <= U64_MAX →
  count_scan i hi l c
  = let n := c + Z.of_nat (length (take_while (scan_ok i (λ h, h >? hi)) l)) in
    if n <=? U64_MAX then Ok n else Err "Pass energy record count overflow".
Proof.
  revert c. induction l as [|kv l IH]; intros c Hc; simpl.
  - rewrite Z.add_0_r. by rewrite (proj2 (Z.leb_le _ _)) by lia.
  - assert (∀ k : result u64, (if negb (bool_decide (kv.1.1 = i)) then Ok c
               else if kv.1.2 >? hi then Ok c else k)
            = if scan_ok i (λ h, h >? hi) kv then k else Ok c) as ->
      by (unfold scan_ok; by destruct (bool_decide _), (kv.1.2 >? hi)).
    destruct (scan_ok _ _ kv); simpl;
      [|rewrite Z.add_0_r; by rewrite (proj2 (Z.leb_le c _)) by lia].
    destruct (c + 1 <=? U64_MAX) eqn:E; b2p.
    + rewrite IH by lia. cbv zeta. replace (c + 1 + _) with
        (c + Z.of_nat (S (length (take_while (scan_ok i (λ h, h >? hi)) l)))) by lia. done.
    + rewrite (proj2 (Z.leb_gt _ _)) by lia. done.
Qed.

Lemma scan_forward db i lo hi :
  wf_db db → wf_key (i, lo) →
  take_while (scan_ok i (λ h, h >? hi)) (iter_forward db (make_energy_key i lo))
  = rows_in_range i lo hi db.
Proof.
  intros W Wk. unfold iter_forward. rewrite (take_while_filter row_le).
  - unfold rows_in_range. rewrite list_filter_filter. apply filter_ext_in.
    intros kv Hkv%elem_of_iter_start%W. unfold scan_ok.
    rewrite in_range_spec, andb_true_iff, bool_decide_eq_true, negb_true_iff, Z.gtb_ltb, Z.ltb_ge.
    split.
    + intros ((Ei & ?) & Hle). rewrite row_key_le_forward, Z.leb_le in Hle by assumption. tauto.
    + intros (Ei & ?). rewrite row_key_le_forward, Z.leb_le by assumption. tauto.
  - apply StronglySorted_filter, iter_start_sorted.
  - intros x y [Hx Hx']%list_elem_of_filter [Hy Hy']%list_elem_of_filter Hxy Hok.
    unfold scan_ok in *. b2p. rewrite Z.gtb_ltb in *. b2p.
    apply elem_of_iter_start, W in Hx' as Wx. apply elem_of_iter_start, W in Hy' as Wy.
    assert (x.1.1 = i) as Exi.
    { unfold row_key in Hx, Hxy. unfold row_le, row_key in Hxy.
      change (bytes_le (make_energy_key (i, lo).1 (i, lo).2) (make_energy_key x.1.1 x.1.2) = true) in Hx.
      rewrite key_num_le, Z.leb_le in Hx, Hxy by assumption.
      destruct y as [[yi yh] yv]; cbn [fst snd] in *; subst yi.
      by apply (key_num_between i lo yh). }
    pose proof (row_le_height x y Wx Wy ltac:(congruence) Hxy).
    rewrite andb_true_iff, bool_decide_eq_true, negb_true_iff, Z.ltb_ge. split; [done|lia].
Qed.

Lemma scan_backward db i lo hi :
  wf_db db → wf_key (i, hi) →
  take_while (scan_ok i (λ h, h <? lo)) (iter_reverse db (make_energy_key i hi))
  = reverse (rows_in_range i lo hi db).
Proof.
  intros W Wk. unfold iter_reverse. rewrite (take_while_filter (flip row_le)).
  - unfold rows_in_range. rewrite filter_reverse, list_filter_filter. f_equal. apply filter_ext_in.
    intros kv Hkv%elem_of_iter_start%W. unfold scan_ok.
    rewrite in_range_spec, andb_true_iff, bool_decide_eq_true, negb_true_iff, Z.ltb_ge.
    split.
    + intros ((Ei & ?) & Hle). rewrite row_key_le_backward, Z.leb_le in Hle by assumption. tauto.
    + intros (Ei & ?). rewrite row_key_le_backward, Z.leb_le by assumption. tauto.
  - apply StronglySorted_reverse, StronglySorted_filter, iter_start_sorted.
  - intros x y Hx Hy Hxy Hok. rewrite elem_of_reverse in Hx, Hy.
    apply list_elem_of_filter in Hx as [Hx Hx']. apply list_elem_of_filter in Hy as [Hy Hy'].
    unfold scan_ok in *. b2p. unfold flip in Hxy.
    apply elem_of_iter_start, W in Hx' as Wx. apply elem_of_iter_start, W in Hy' as Wy.
    assert (x.1.1 = i) as Exi.
    { unfold row_key in Hx. unfold row_le, row_key in Hxy.
      change (bytes_le (make_energy_key x.1.1 x.1.2) (make_energy_key (i, hi).1 (i, hi).2) = true) in Hx.
      rewrite key_num_le, Z.leb_le in Hx, Hxy by assumption.
      destruct y as [[yi yh] yv]; cbn [fst snd] in *; subst yi.
      by apply (key_num_between i yh hi). }
    pose proof (row_le_height y x Wy Wx ltac:(congruence) Hxy).
    rewrite andb_true_iff, bool_decide_eq_true, negb_true_iff, Z.ltb_ge. split; [done|lia].
Qed.

(** The records of a range are in strictly increasing height order. *)
Lemma records_in_range_sorted i lo hi db :
  wf_db db →
  StronglySorted (λ a b, er_block_height a < er_block_height b) (records_in_range i lo hi db).
Proof.
  intros W. unfold records_in_range.
  assert (Forall (λ kv : row, kv.1.1 = i ∧ pass_energy_cf db !! kv.1 = Some kv.2)
            (rows_in_range i lo hi db)) as Hall.
  { apply Forall_forall. intros kv (? & _ & ?)%elem_of_rows_in_range. done. }
  assert (NoDup (rows_in_range i lo hi db)) as Hnd.
  { apply NoDup_filter. unfold iter_start. rewrite merge_sort_Permutation. apply NoDup_map_to_list. }
  pose proof (StronglySorted_filter _ (λ kv, in_range i lo hi kv = true) _ (iter_start_sorted db)) as Hs.
  fold (rows_in_range i lo hi db) in Hs.
  induction Hs as [|x l Hs IH Hx]; [constructor|].
  apply Forall_cons in Hall as [[Ex Lx] Hall]. apply NoDup_cons in Hnd as [Hnx Hnd].
  rewrite fmap_cons. constructor; [by apply IH|].
  rewrite Forall_forall in Hx, Hall. apply Forall_forall.
  intros r (y & -> & Hy)%list_elem_of_fmap. destruct (Hall _ Hy) as [Ey Ly].
  pose proof (row_le_height x y (W _ _ Lx) (W _ _ Ly) ltac:(congruence) (Hx _ Hy)).
  destruct x as [[xi xh] xv], y as [[yi yh] yv]; cbn in *; subst.
  destruct (decide (xh = yh)) as [->|]; [|lia].
  rewrite Lx in Ly. by simplify_eq.
Qed.

(** ** Properties of the queries *)

Lemma find_last_cases i h db :
  wf_db db → wf_key (i, h) →
  match find_last i h db with
  | Some r =>
      er_inscription_id r = i ∧ er_block_height r <= h
      ∧ pass_energy_cf db !! (i, er_block_height r) = Some (record_value r)
      ∧ ∀ h' v, pass_energy_cf db !! (i, h') = Some v → h' <= h → h' <= er_block_height r
  | None => ∀ h' v, pass_energy_cf db !! (i, h') = Some v → h < h'
  end.
Proof.
  intros W Wk. rewrite find_last_spec by assumption.
  assert (∀ h' v, pass_energy_cf db !! (i, h') = Some v → h' <= h →
            value_record i h' v ∈ records_in_range i 0 h db) as Hin.
  { intros h' v Hl ?. apply elem_of_records_in_range. simpl.
    rewrite record_value_record. pose proof (wf_key_height _ (W _ _ Hl)). simpl in *. split_and!; try done; lia. }
  destruct (last _) as [r|] eqn:E.
  - assert (r ∈ records_in_range i 0 h db) as Hr.
    { apply last_Some in E as [l' ->]. apply elem_of_app. right. by apply list_elem_of_singleton. }
    apply elem_of_records_in_range in Hr as (? & [? ?] & ?). repeat split; try done.
    intros h' v Hl Hle. pose proof (StronglySorted_last _ _ _ _
      (records_in_range_sorted i 0 h db W) E (Hin _ _ Hl Hle)) as [<-|Hlt]; simpl in *; lia.
  - intros h' v Hl. destruct (Z_le_gt_dec h' h) as [Hle|]; [|lia].
    apply last_None in E. specialize (Hin _ _ Hl Hle). rewrite E in Hin.
    by apply elem_of_nil in Hin.
Qed.

(** The backward scan finds the record of the inscription with the greatest height at or below
    the requested one, and fails exactly when there is none. *)
Theorem find_last_is_latest i h db :
  wf_db db → wf_key (i, h) →
  match find_last i h db with
  | Some r =>
      er_inscription_id r = i ∧ er_block_height r <= h
      ∧ pass_energy_cf db !! (i, er_block_height r) = Some (record_value r)
      ∧ ∀ h' v, pass_energy_cf db !! (i, h') = Some v → h' <= h → h' <= er_block_height r
  | None => ∀ h' v, pass_energy_cf db !! (i, h') = Some v → h < h'
  end.
Proof. apply find_last_cases. Qed.

(** The two paged range queries return the slices of the sorted records of the range, in
    increasing and in decreasing height order, and the count query returns their number; so the
    pages are disjoint and together list every record of the range once. *)
Theorem energy_range_queries i lo hi page page_size db :
  wf_db db → wf_id i → 0 <= lo <= hi → hi <= U32_MAX →
  0 <= page → 1 <= page_size → page * page_size <= U64_MAX →
  get_pass_energy_records_by_page_in_height_range i lo hi page page_size db
    = Ok (sql_limit page_size (page * page_size) (records_in_range i lo hi db))
  ∧ get_pass_energy_records_by_page_in_height_range_desc i lo hi page page_size db
    = Ok (sql_limit page_size (page * page_size) (reverse (records_in_range i lo hi db)))
  ∧ (Z.of_nat (length (records_in_range i lo hi db)) <= U64_MAX →
     count_pass_energy_records_in_height_range i lo hi db
     = Ok (Z.of_nat (length (records_in_range i lo hi db)))).
Proof.
  intros W Wi Hlo Hhi Hp Hs Hov.
  assert (wf_key (i, lo)) by (split; [done|simpl; lia]).
  assert (wf_key (i, hi)) by (split; [done|simpl; lia]).
  unfold get_pass_energy_records_by_page_in_height_range,
    get_pass_energy_records_by_page_in_height_range_desc,
    count_pass_energy_records_in_height_range.
  rewrite Z.gtb_ltb, (proj2 (Z.ltb_ge _ _)) by lia. unfold usize_checked_mul.
  rewrite (proj2 (Z.leb_le _ _)) by lia. simpl. split_and!.
  - rewrite page_scan_spec by (simpl; lia). rewrite scan_forward by assumption. simpl.
    by rewrite Nat.sub_0_r, Z.sub_0_r.
  - rewrite page_scan_spec by (simpl; lia). rewrite scan_backward by assumption. simpl.
    by rewrite Nat.sub_0_r, Z.sub_0_r, fmap_reverse.
  - unfold records_in_range. rewrite length_fmap. intros ?. rewrite count_scan_spec by (unfold U64_MAX; lia).
    rewrite scan_forward by assumption. cbv zeta. by rewrite (proj2 (Z.leb_le _ _)) by lia.
Qed.

(** ** The cached maximum height *)

(** [o] is the greatest height of the rows of a column family. *)
Definition is_max_height (cf : gmap (InscriptionId * u32) PassEnergyValue) (o : option u32) : Prop :=
  (∀ k v, cf !! k = Some v → ∃ m, o = Some m ∧ k.2 <= m)
  ∧ (∀ m, o = Some m → ∃ i v, cf !! (i, m) = Some v).

Definition max_marker_ok (db : EnergyDb) : Prop :=
  is_max_height (pass_energy_cf db) (meta_max_record_block_height db).

Lemma is_max_height_unique cf o1 o2 : is_max_height cf o1 → is_max_height cf o2 → o1 = o2.
Proof.
  intros [A1 B1] [A2 B2]. destruct o1 as [m1|], o2 as [m2|]; try done.
  - destruct (B1 _ eq_refl) as (?&?&L1), (B2 _ eq_refl) as (?&?&L2).
    apply A2 in L1 as (?&?&?). apply A1 in L2 as (?&?&?). simpl in *. simplify_eq. f_equal. lia.
  - destruct (B1 _ eq_refl) as (?&?&L1). by apply A2 in L1 as (?&?&?).
  - destruct (B2 _ eq_refl) as (?&?&L1). by apply A1 in L1 as (?&?&?).
Qed.

Lemma list_max_is_max cf (l : list row) :
  (∀ kv, kv ∈ l ↔ cf !! kv.1 = Some kv.2) → is_max_height cf (list_max (λ kv : row, kv.1.2) l).
Proof.
  intros Hl. destruct (list_max _ l) as [m|] eqn:E.
  - apply list_max_spec in E as [([[i h] v] & Hin & <-) Hle]. split.
    + intros k v' Hk. exists h. split; [done|]. apply (Hle (k, v')). by apply Hl.
    + intros ? [= <-]. exists i, v. by apply (Hl ((i, h), v)).
  - apply list_max_None in E as ->. split; [|done].
    intros k v Hk. by apply (Hl (k, v)), elem_of_nil in Hk.
Qed.

Lemma scan_max_is_max db : is_max_height (pass_energy_cf db) (scan_max_record_block_height db).
Proof. apply list_max_is_max. intros kv. apply elem_of_iter_start. Qed.

Lemma insert_record_max_marker r db : max_marker_ok db → max_marker_ok (insert_record r db).
Proof.
  intros [A B]. unfold max_marker_ok, is_max_height; simpl. split.
  - intros k v [[<- <-]|[Hne Hk]]%lookup_insert_Some; simpl.
    + destruct (meta_max_record_block_height db) as [h|]; [|eexists; split; [done|lia]].
      rewrite Z.gtb_ltb. destruct (h <? _) eqn:E; b2p; eexists; (split; [done|lia]).
    + apply A in Hk as (m & -> & ?). rewrite Z.gtb_ltb.
      destruct (m <? _) eqn:E; b2p; eexists; (split; [done|lia]).
  - intros m Hm.
    assert (m = er_block_height r ∨ meta_max_record_block_height db = Some m) as [->|Hm2]
      by (repeat case_match; simplify_eq; auto).
    + eexists _, _. apply lookup_insert_eq.
    + destruct (B _ Hm2) as (i & v & Hl).
      destruct (decide ((er_inscription_id r, er_block_height r) = (i, m))) as [Ek|];
        [exists i, (record_value r); rewrite Ek; apply lookup_insert_eq|].
      exists i, v. by rewrite lookup_insert_ne.
Qed.

Lemma clear_from_max_marker h db : max_marker_ok (clear_from h db).
Proof.
  apply list_max_is_max. intros kv. simpl.
  rewrite list_elem_of_filter, elem_of_iter_start, map_lookup_filter_Some. simpl. tauto.
Qed.

Lemma wf_insert_record r db :
  wf_db db → wf_key (er_inscription_id r, er_block_height r) → wf_db (insert_record r db).
Proof.
  intros W Wr k v. simpl. rewrite lookup_insert_Some. intros [[<- _]|[_ Hk]]; [done|eauto].
Qed.

Lemma wf_clear_from h db : wf_db db → wf_db (clear_from h db).
Proof. intros W k v. simpl. rewrite map_lookup_filter_Some. intros [Hk _]. eauto. Qed.

Lemma clear_from_lookup h db k v :
  pass_energy_cf (clear_from h db) !! k = Some v ↔ pass_energy_cf db !! k = Some v ∧ k.2 < h.
Proof. apply map_lookup_filter_Some. Qed.

(** A history of record insertions and of clears from a height. *)
Definition replay (ops : list (PassEnergyRecord + u32)) (db : EnergyDb) : EnergyDb :=
  foldl (λ db op, match op with inl r => insert_record r db | inr h => clear_from h db end) db ops.

Lemma replay_max_marker ops db : max_marker_ok db → max_marker_ok (replay ops db).
Proof.
  revert db. induction ops as [|[r|h] ops IH]; intros db Hok; simpl; [done|..]; apply IH.
  - by apply insert_record_max_marker.
  - apply clear_from_max_marker.
Qed.

(** Whatever inserts and clears came before, the maximum-height query answers with the greatest
    height of the stored records, from the cached marker or by the full scan. *)
Theorem max_record_height_query ops db :
  max_marker_ok db →
  ∃ o db', get_max_record_block_height (replay ops db) = (Ok o, db')
    ∧ is_max_height (pass_energy_cf (replay ops db)) o
    ∧ pass_energy_cf db' = pass_energy_cf (replay ops db).
Proof.
  intros Hok%(replay_max_marker ops). revert Hok. generalize (replay ops db). intros d H.
  pose proof (is_max_height_unique _ _ _ H (scan_max_is_max d)) as E.
  exists (scan_max_record_block_height d).
  unfold get_max_record_block_height, bind, gets, ret, put_max_record_block_height, modify.
  rewrite E. destruct (scan_max_record_block_height d) eqn:E2; rewrite ?E2;
    (eexists; split; [reflexivity|]; split; [|done]; rewrite <-E2; apply scan_max_is_max).
Qed.

(** ** Witnesses *)

Definition demo_id : InscriptionId := {| txid := 7; index := 1 |}.
Definition demo_row (h : u32) (e : u64) : PassEnergyRecord :=
  {| er_inscription_id := demo_id; er_block_height := h; er_state := Active;
     er_active_block_height := 10; er_owner_address := 1; er_owner_balance := 200000;
     er_owner_delta := 0; er_energy := e |}.
Definition demo_store : EnergyDb :=
  insert_record (demo_row 20 6) (insert_record (demo_row 10 5) empty_energy_db).

Lemma wf_demo_id : wf_id demo_id.
Proof. unfold wf_id, TXID_BOUND, U32_MAX. simpl. lia. Qed.
Lemma wf_demo_key h : 0 <= h <= U32_MAX → wf_key (demo_id, h).
Proof. intros. split; [apply wf_demo_id|done]. Qed.

Lemma wf_empty : wf_db empty_energy_db.
Proof. intros k v Hv. cbn in Hv. by rewrite lookup_empty in Hv. Qed.
Lemma wf_demo_store : wf_db demo_store.
Proof.
  repeat apply wf_insert_record; [apply wf_empty|..]; apply wf_demo_key; unfold U32_MAX; simpl; lia.
Qed.

Lemma energy_key_roundtrip_and_order_witness :
  parse_energy_key (make_energy_key demo_id 10)
    = Ok {| ek_inscription_id := demo_id; ek_block_height := 10 |}
  ∧ ∀ i' h', wf_key (i', h') →
      bytes_le (make_energy_key demo_id 10) (make_energy_key i' h')
      = (key_num (demo_id, 10) <=? key_num (i', h')).
Proof. apply energy_key_roundtrip_and_order, wf_demo_key. unfold U32_MAX. lia. Defined.

Lemma find_last_is_latest_witness :
  match find_last demo_id 15 demo_store with
  | Some r =>
      er_inscription_id r = demo_id ∧ er_block_height r <= 15
      ∧ pass_energy_cf demo_store !! (demo_id, er_block_height r) = Some (record_value r)
      ∧ ∀ h' v, pass_energy_cf demo_store !! (demo_id, h') = Some v → h' <= 15 →
          h' <= er_block_height r
  | None => ∀ h' v, pass_energy_cf demo_store !! (demo_id, h') = Some v → 15 < h'
  end.
Proof. apply find_last_is_latest; [apply wf_demo_store|apply wf_demo_key; unfold U32_MAX; lia]. Defined.

Lemma energy_range_queries_witness :
  get_pass_energy_records_by_page_in_height_range demo_id 5 25 1 1 demo_store
    = Ok (sql_limit 1 (1 * 1) (records_in_range demo_id 5 25 demo_store))
  ∧ get_pass_energy_records_by_page_in_height_range_desc demo_id 5 25 1 1 demo_store
    = Ok (sql_limit 1 (1 * 1) (reverse (records_in_range demo_id 5 25 demo_store)))
  ∧ (Z.of_nat (length (records_in_range demo_id 5 25 demo_store)) <= U64_MAX →
     count_pass_energy_records_in_height_range demo_id 5 25 demo_store
     = Ok (Z.of_nat (length (records_in_range demo_id 5 25 demo_store)))).
Proof.
  apply energy_range_queries; [apply wf_demo_store|apply wf_demo_id|..];
    unfold U32_MAX, U64_MAX; lia.
Defined.

Lemma max_record_height_query_witness :
  ∃ o db', get_max_record_block_height
             (replay [inl (demo_row 10 5); inl (demo_row 20 6); inr 15] empty_energy_db) = (Ok o, db')
    ∧ is_max_height (pass_energy_cf
        (replay [inl (demo_row 10 5); inl (demo_row 20 6); inr 15] empty_energy_db)) o
    ∧ pass_energy_cf db'
      = pass_energy_cf (replay [inl (demo_row 10 5); inl (demo_row 20 6); inr 15] empty_energy_db).
Proof.
  apply max_record_height_query. split; [|done].
  intros k v Hv. cbn in Hv. by rewrite lookup_empty in Hv.
Defined.
