(* ===== verification/Energy.v ===== *)
(** * Energy manager

    [usdb-indexer/src/index/energy.rs], [PassEnergyManager]: the block-sync protocol over the
    energy store, settlement of balance changes, queries that project an active pass's growth, and
    the transitions of a pass.  The balance-history client is the class [BalanceProvider]; the
    manager's state is the energy store.  [strict_settle_consistency] is the production value
    unless a definition takes it as an argument. *)

From S2P Require Import Prelude Types EnergyFormula EnergyStorage.

Record PassEnergyResult := { energy : u64; res_state : MinerPassState }.

(** ** The balance-history interface *)

(** [get_balance_at_range address lo hi] answers for the half-open range [lo..hi]. *)
Class BalanceProvider := {
  provider_balance_at_height : USDBScriptHash → u32 → result (list AddressBalance);
  provider_balance_at_range : USDBScriptHash → u32 → u32 → result (list AddressBalance)
}.

(** A balance-history row: heights and amounts in the range of their types. *)
Definition wf_balance (ab : AddressBalance) : Prop :=
  0 <= ab_block_height ab <= U32_MAX ∧ 0 <= ab_balance ab <= U64_MAX
  ∧ I64_MIN <= ab_delta ab <= I64_MAX.

(** What the service promises: at most one row for a point query, and the rows of a range query
    are in the range, one per height, in height order. *)
Class BalanceProviderLaws `{BalanceProvider} := {
  at_height_rows address h l :
    provider_balance_at_height address h = Ok l →
    (length l <= 1)%nat ∧ Forall (λ ab, wf_balance ab ∧ ab_block_height ab <= h) l;
  at_range_rows address lo hi l :
    provider_balance_at_range address lo hi = Ok l →
    Forall (λ ab, wf_balance ab ∧ lo <= ab_block_height ab < hi) l
    ∧ StronglySorted (λ a b, ab_block_height a < ab_block_height b) l
}.

Section Manager.
Context {BP : BalanceProvider}.

(** ** The block-sync protocol *)

Definition begin_block_sync (block_height : u32) : M EnergyDb unit :=
  let! pending := get_pending_block_height in
  match pending with
  | Some _ => fail "Previous pending energy block sync found before starting new block"
  | None => set_pending_block_height block_height
  end.

Definition finalize_block_sync (block_height : u32) : M EnergyDb unit :=
  let! pending_height := get_pending_block_height in
  if negb (bool_decide (pending_height = Some block_height))
  then fail "Energy pending block mismatch when finalizing block sync"
  else storage_finalize_block_sync block_height.

Definition abort_pending_block_sync (block_height : u32) : M EnergyDb unit :=
  let! pending_height := get_pending_block_height in
  if negb (bool_decide (pending_height = Some block_height))
  then fail "Energy pending block mismatch when aborting block sync"
  else
    let! _ := clear_records_from_height block_height in
    clear_pending_block_height.

(** Step 1: recover an incomplete block from the pending marker. *)
Definition reconcile_pending : M EnergyDb unit :=
  let! pending := get_pending_block_height in
  match pending with
  | Some pending_height =>
      let! _ := clear_records_from_height pending_height in
      clear_pending_block_height
  | None => ret tt
  end.

(** Step 2: truncate the records beyond the pass synced height. *)
Definition reconcile_records (pass_synced_height : u32) : M EnergyDb unit :=
  let! max := get_max_record_block_height in
  match max with
  | Some max_height =>
      if max_height >? pass_synced_height
      then clear_records_from_height (u32_saturating_add pass_synced_height 1)
      else ret tt
  | None => ret tt
  end.

(** Step 3: reconcile the synced height marker. *)
Definition reconcile_synced (pass_synced_height : u32) : M EnergyDb unit :=
  let! synced := get_synced_block_height in
  match synced with
  | Some energy_synced_height =>
      if energy_synced_height >? pass_synced_height then set_synced_block_height pass_synced_height
      else if energy_synced_height <? pass_synced_height then
        fail "Energy synced height is behind pass synced height"
      else ret tt
  | None => set_synced_block_height pass_synced_height
  end.

Definition reconcile_with_pass_synced_height (pass_synced_height : u32) : M EnergyDb unit :=
  let! _ := reconcile_pending in
  let! _ := reconcile_records pass_synced_height in
  reconcile_synced pass_synced_height.

Definition rollback_to_pass_synced_height (pass_synced_height : u32) : M EnergyDb unit :=
  reconcile_with_pass_synced_height pass_synced_height.

(** ** Balances *)

Definition get_balance_at_height (address : USDBScriptHash) (block_height : u32) :
    M EnergyDb AddressBalance :=
  let! balances := lift (provider_balance_at_height address block_height) in
  let! _ := assert (Nat.leb (length balances) 1)
              "Expected at most one balance entry for address at specific block height" in
  match last balances with
  | Some balance => ret balance
  | None => ret {| ab_block_height := block_height; ab_balance := 0; ab_delta := 0 |}
  end.

Definition get_balance_at_range (address : USDBScriptHash) (lo hi : u32) :
    M EnergyDb (list AddressBalance) :=
  lift (provider_balance_at_range address lo hi).

(** ** Operations on a pass *)

Definition on_new_pass (inscription_id : InscriptionId) (owner_address : USDBScriptHash)
    (block_height : u32) (inherited_energy : u64) : M EnergyDb unit :=
  let! balance := get_balance_at_height owner_address block_height in
  insert_pass_energy_record
    {| er_inscription_id := inscription_id; er_block_height := block_height;
       er_state := Active; er_active_block_height := block_height;
       er_owner_address := owner_address; er_owner_balance := ab_balance balance;
       er_owner_delta := ab_delta balance; er_energy := inherited_energy |}.

Definition get_pass_energy_record_exact (inscription_id : InscriptionId) (block_height : u32) :
    M EnergyDb (option PassEnergyRecord) :=
  let! value := get_pass_energy_record inscription_id block_height in
  ret (value_record inscription_id block_height <$> value).

Definition get_pass_energy_record_at_or_before (inscription_id : InscriptionId)
    (block_height : u32) : M EnergyDb (option PassEnergyRecord) :=
  find_last_pass_energy_record inscription_id block_height.

Definition project_energy_record_no_balance_change (record : PassEnergyRecord)
    (query_block_height : u32) : PassEnergyResult :=
  if (query_block_height <=? er_block_height record) || negb (bool_decide (er_state record = Active))
  then {| energy := er_energy record; res_state := er_state record |}
  else
    let growth_at_query :=
      calc_growth_delta (er_owner_balance record)
        (u32_saturating_sub query_block_height (er_active_block_height record)) in
    let growth_at_record :=
      calc_growth_delta (er_owner_balance record)
        (u32_saturating_sub (er_block_height record) (er_active_block_height record)) in
    let incremental_growth := u64_saturating_sub growth_at_query growth_at_record in
    {| energy := u64_saturating_add (er_energy record) incremental_growth;
       res_state := er_state record |}.

Definition get_pass_energy (inscription_id : InscriptionId) (block_height : u32) :
    M EnergyDb (option PassEnergyResult) :=
  let! record := get_pass_energy_record_at_or_before inscription_id block_height in
  ret ((λ r, project_energy_record_no_balance_change r block_height) <$> record).

Definition get_pass_energy_records_with_order (inscription_id : InscriptionId)
    (from_block_height to_block_height : u32) (page page_size : Z) (desc : bool) (db : EnergyDb) :
    result (list PassEnergyRecord) :=
  if desc
  then get_pass_energy_records_by_page_in_height_range_desc
         inscription_id from_block_height to_block_height page page_size db
  else get_pass_energy_records_by_page_in_height_range
         inscription_id from_block_height to_block_height page page_size db.

(** One round of the loop of [update_pass_energy]: the new record is stored and becomes the last
    record. *)
Definition update_round (inscription_id : InscriptionId) (last_record : PassEnergyRecord)
    (balance_record : AddressBalance) : M EnergyDb PassEnergyRecord :=
  let energy_delta :=
    calc_incremental_growth (er_owner_balance last_record) (er_active_block_height last_record)
      (er_block_height last_record) (ab_block_height balance_record) in
  let new_energy := u64_saturating_add (er_energy last_record) energy_delta in
  let active_block_height :=
    if ab_delta balance_record <? 0 then ab_block_height balance_record
    else er_active_block_height last_record in
  let new_energy :=
    if ab_delta balance_record <? 0
    then u64_saturating_sub new_energy (calc_penalty_from_delta (ab_delta balance_record))
    else new_energy in
  let new_record :=
    {| er_inscription_id := inscription_id; er_block_height := ab_block_height balance_record;
       er_state := Active; er_active_block_height := active_block_height;
       er_owner_address := er_owner_address last_record;
       er_owner_balance := ab_balance balance_record; er_owner_delta := ab_delta balance_record;
       er_energy := new_energy |} in
  let! _ := insert_pass_energy_record new_record in
  ret new_record.

Definition update_pass_energy (inscription_id : InscriptionId) (block_height : u32) :
    M EnergyDb PassEnergyResult :=
  let! found := find_last_pass_energy_record inscription_id block_height in
  let! last_record :=
    lift (ok_or "No previous energy record found for inscription before block height" found) in
  let! _ := assert (er_block_height last_record <=? block_height)
              "Last record block height should be less than or equal to current block height" in
  if negb (bool_decide (er_state last_record = Active))
  then ret {| energy := er_energy last_record; res_state := er_state last_record |}
  else
    let! balances :=
      get_balance_at_range (er_owner_address last_record)
        (u32_add (er_block_height last_record) 1) (u32_add block_height 1) in
    let! last_record := fold_m balances last_record (update_round inscription_id) in
    if er_block_height last_record <? block_height then
      let energy_delta :=
        calc_incremental_growth (er_owner_balance last_record) (er_active_block_height last_record)
          (er_block_height last_record) block_height in
      ret {| energy := u64_saturating_add (er_energy last_record) energy_delta;
             res_state := er_state last_record |}
    else ret {| energy := er_energy last_record; res_state := er_state last_record |}.

Definition apply_active_balance_change_internal (inscription_id : InscriptionId)
    (owner_address : USDBScriptHash) (block_height : u32) (owner_balance : u64)
    (owner_delta : i64) (strict_settle_consistency : bool) : M EnergyDb bool :=
  if owner_delta =? 0 then ret false
  else
    let! found := find_last_pass_energy_record inscription_id block_height in
    let! last_record :=
      lift (ok_or "No previous energy record found when applying active balance change" found) in
    if negb (bool_decide (er_state last_record = Active)) then
      fail "Energy state mismatch when applying active balance change"
    else if negb (er_owner_address last_record =? owner_address) then
      fail "Energy owner mismatch when applying active balance change"
    else if er_block_height last_record >? block_height then
      fail "Energy record height is ahead of active balance update height"
    else if er_block_height last_record =? block_height then
      if negb (er_owner_balance last_record =? owner_balance)
         || negb (er_owner_delta last_record =? owner_delta)
      then if strict_settle_consistency
           then fail "Active balance change conflicts with existing record at same block"
           else ret false
      else ret false
    else if ((owner_delta >? 0) && (owner_balance <? er_owner_balance last_record))
            || ((owner_delta <? 0) && (owner_balance >? er_owner_balance last_record))
    then if strict_settle_consistency
         then fail "Active balance change has inconsistent settle direction"
         else ret false
    else
      let growth_delta :=
        calc_incremental_growth (er_owner_balance last_record) (er_active_block_height last_record)
          (er_block_height last_record) block_height in
      let next_energy := u64_saturating_add (er_energy last_record) growth_delta in
      let next_active_height :=
        if owner_delta <? 0 then block_height else er_active_block_height last_record in
      let next_energy :=
        if owner_delta <? 0
        then u64_saturating_sub next_energy (calc_penalty_from_delta owner_delta)
        else next_energy in
      let! _ := insert_pass_energy_record
        {| er_inscription_id := inscription_id; er_block_height := block_height;
           er_state := Active; er_active_block_height := next_active_height;
           er_owner_address := owner_address; er_owner_balance := owner_balance;
           er_owner_delta := owner_delta; er_energy := next_energy |} in
      ret true.

Definition apply_active_balance_change (inscription_id : InscriptionId)
    (owner_address : USDBScriptHash) (block_height : u32) (owner_balance : u64)
    (owner_delta : i64) : M EnergyDb bool :=
  apply_active_balance_change_internal inscription_id owner_address block_height owner_balance
    owner_delta true.

Definition on_pass_dormant (inscription_id : InscriptionId) (block_height : u32) :
    M EnergyDb unit :=
  let! finalized := update_pass_energy inscription_id block_height in
  let! found := find_last_pass_energy_record inscription_id block_height in
  let! last_record := lift (ok_or "No energy record found for dormant transition" found) in
  let! _ := insert_pass_energy_record
    {| er_inscription_id := inscription_id; er_block_height := block_height;
       er_state := Dormant; er_active_block_height := er_active_block_height last_record;
       er_owner_address := er_owner_address last_record;
       er_owner_balance := er_owner_balance last_record;
       er_owner_delta :=
         if er_block_height last_record =? block_height then er_owner_delta last_record else 0;
       er_energy := energy finalized |} in
  let! stored := get_pass_energy_record_exact inscription_id block_height in
  if negb (bool_decide ((λ v, (er_state v, er_energy v)) <$> stored = Some (Dormant, energy finalized)))
  then fail "Dormant energy snapshot mismatch"
  else ret tt.

Definition on_pass_consumed (inscription_id : InscriptionId) (owner_address : USDBScriptHash)
    (block_height : u32) : M EnergyDb unit :=
  insert_pass_energy_record
    {| er_inscription_id := inscription_id; er_block_height := block_height;
       er_state := Consumed; er_active_block_height := block_height;
       er_owner_address := owner_address; er_owner_balance := 0; er_owner_delta := 0;
       er_energy := 0 |}.
End Manager.

(** ** The latest record *)

(** [r] is the record of [i] with the greatest height at or below [h]. *)
Definition is_latest (i : InscriptionId) (h : u32) (db : EnergyDb) (r : PassEnergyRecord) : Prop :=
  er_inscription_id r = i ∧ er_block_height r <= h
  ∧ pass_energy_cf db !! (i, er_block_height r) = Some (record_value r)
  ∧ ∀ h' v, pass_energy_cf db !! (i, h') = Some v → h' <= h → h' <= er_block_height r.

Lemma record_eq (a b : PassEnergyRecord) :
  er_inscription_id a = er_inscription_id b → er_block_height a = er_block_height b →
  record_value a = record_value b → a = b.
Proof. destruct a, b. unfold record_value. cbn. intros; by simplify_eq. Qed.

Lemma find_last_is_Some i h db r :
  wf_db db → wf_key (i, h) → find_last i h db = Some r ↔ is_latest i h db r.
Proof.
  intros W Wk. pose proof (find_last_cases i h db W Wk) as F. split.
  - intros E. by rewrite E in F.
  - intros (Ei & Hle & Hl & Hmax). destruct (find_last i h db) as [r'|] eqn:E.
    + destruct F as (Ei' & Hle' & Hl' & Hmax'). f_equal.
      pose proof (Hmax _ _ Hl' Hle'). pose proof (Hmax' _ _ Hl Hle).
      assert (er_block_height r = er_block_height r') as Eh by lia.
      apply record_eq; [congruence|done|]. rewrite Eh in Hl. congruence.
    + apply F in Hl. lia.
Qed.

Lemma is_latest_insert i h db r :
  er_inscription_id r = i → er_block_height r <= h →
  (∀ h' v, pass_energy_cf db !! (i, h') = Some v → h' <= h → h' <= er_block_height r) →
  is_latest i h (insert_record r db) r.
Proof.
  intros <- Hle Hmax. split_and!; [done|done|apply lookup_insert_eq|].
  intros h' v. simpl. rewrite lookup_insert_Some. intros [[[= <-] _]|[_ Hl]] ?; [lia|eauto].
Qed.

(** Between a latest record and the queried height there is no other record. *)
Lemma is_latest_lower i h h' db r :
  is_latest i h db r → er_block_height r <= h' <= h → is_latest i h' db r.
Proof. intros (?&?&?&Hm) ?. split_and!; try done; [lia|]. intros. eapply Hm; [done|lia]. Qed.

(** ** The step of a balance change *)

(** The record a balance change turns the last record into. *)
Definition energy_step (i : InscriptionId) (last : PassEnergyRecord) (ab : AddressBalance) :
    PassEnergyRecord :=
  let grown := u64_saturating_add (er_energy last)
    (calc_incremental_growth (er_owner_balance last) (er_active_block_height last)
       (er_block_height last) (ab_block_height ab)) in
  {| er_inscription_id := i; er_block_height := ab_block_height ab; er_state := Active;
     er_active_block_height :=
       if ab_delta ab <? 0 then ab_block_height ab else er_active_block_height last;
     er_owner_address := er_owner_address last; er_owner_balance := ab_balance ab;
     er_owner_delta := ab_delta ab;
     er_energy := if ab_delta ab <? 0
                  then u64_saturating_sub grown (calc_penalty_from_delta (ab_delta ab))
                  else grown |}.

Lemma update_round_run i last ab db :
  update_round i last ab db = (Ok (energy_step i last ab), insert_record (energy_step i last ab) db).
Proof. done. Qed.

(** A balance change that is a change, and whose sign agrees with the balances around it. *)
Definition consistent_change (balance : u64) (ab : AddressBalance) : bool :=
  negb (ab_delta ab =? 0)
  && negb (((ab_delta ab >? 0) && (ab_balance ab <? balance))
           || ((ab_delta ab <? 0) && (ab_balance ab >? balance))).
Fixpoint consistent_history (balance : u64) (l : list AddressBalance) : bool :=
  match l with
  | [] => true
  | ab :: l => consistent_change balance ab && consistent_history (ab_balance ab) l
  end.

Lemma apply_change_run i owner ab db r :
  wf_db db → wf_key (i, ab_block_height ab) →
  is_latest i (ab_block_height ab) db r → er_state r = Active → er_owner_address r = owner →
  er_block_height r < ab_block_height ab →
  consistent_change (er_owner_balance r) ab = true →
  apply_active_balance_change i owner (ab_block_height ab) (ab_balance ab) (ab_delta ab) db
  = (Ok true, insert_record (energy_step i r ab) db).
Proof.
  intros W Wk Hr Ha Ho Hlt Hc. unfold consistent_change in Hc.
  apply andb_prop in Hc as [Hd%negb_true_iff%Z.eqb_neq Hc%negb_true_iff].
  unfold apply_active_balance_change, apply_active_balance_change_internal.
  rewrite (proj2 (Z.eqb_neq _ _)) by done.
  erewrite bind_run by reflexivity. apply find_last_is_Some in Hr; [|done|done]. rewrite Hr.
  erewrite bind_run by reflexivity.
  rewrite bool_decide_true, Ho, Z.eqb_refl by done. simpl.
  rewrite Z.gtb_ltb, (proj2 (Z.ltb_ge _ _)) by lia. rewrite (proj2 (Z.eqb_neq _ _)) by lia.
  rewrite Hc. unfold energy_step. by rewrite Ho.
Qed.

(** The settlement path: one [apply_active_balance_change] per changed block. *)
Definition settle (i : InscriptionId) (owner : USDBScriptHash) (l : list AddressBalance) :
    M EnergyDb unit :=
  for_each l (λ ab,
    let! _ := apply_active_balance_change i owner (ab_block_height ab) (ab_balance ab) (ab_delta ab) in
    ret tt).

(** Both paths store the same records, and leave the same latest record. *)
Lemma settle_update_fold i H l : ∀ db r,
  wf_db db → wf_id i → 0 <= er_block_height r → H <= U32_MAX →
  is_latest i H db r → er_state r = Active →
  Forall (λ ab, er_block_height r < ab_block_height ab <= H) l →
  StronglySorted (λ a b, ab_block_height a < ab_block_height b) l →
  consistent_history (er_owner_balance r) l = true →
  ∃ r' db', fold_m l r (update_round i) db = (Ok r', db')
    ∧ settle i (er_owner_address r) l db = (Ok tt, db')
    ∧ wf_db db' ∧ is_latest i H db' r' ∧ er_state r' = Active.
Proof.
  induction l as [|ab l IH]; intros db r W Wi Hr0 HH Hl Ha Hrange Hs Hc.
  { exists r, db. by split_and!. }
  apply Forall_cons in Hrange as [Hab Hrange]. apply StronglySorted_inv in Hs as [Hs Hlt].
  simpl in Hc. apply andb_prop in Hc as [Hc Hc'].
  assert (wf_key (i, ab_block_height ab)) as Wk by (split; [done|simpl; lia]).
  set (r1 := energy_step i r ab). set (db1 := insert_record r1 db).
  destruct (IH db1 r1) as (r' & db' & Hf & Hst & W' & Hl' & Ha').
  - by apply wf_insert_record.
  - done.
  - simpl. lia.
  - done.
  - apply is_latest_insert; [done|simpl; lia|]. intros h' v Hv Hle.
    destruct Hl as (_ & _ & _ & Hmax). specialize (Hmax _ _ Hv Hle). simpl. lia.
  - done.
  - rewrite Forall_forall in Hlt, Hrange. apply Forall_forall. intros x Hx. simpl.
    specialize (Hlt _ Hx). specialize (Hrange _ Hx). lia.
  - done.
  - done.
  - exists r', db'. split_and!; try done.
    unfold settle. simpl. rewrite bind_assoc. erewrite bind_run; [|apply (apply_change_run i _ ab db r)]; try done.
    + by apply (is_latest_lower _ H); [|lia].
    + lia.
Qed.

Lemma update_tail_project r H db :
  er_state r = Active → er_block_height r <= H →
  (if er_block_height r <? H
   then @ret EnergyDb _ {| energy := u64_saturating_add (er_energy r)
                 (calc_incremental_growth (er_owner_balance r) (er_active_block_height r)
                    (er_block_height r) H);
               res_state := er_state r |}
   else @ret EnergyDb _ {| energy := er_energy r; res_state := er_state r |}) db
  = (Ok (project_energy_record_no_balance_change r H), db).
Proof.
  intros Ha Hle. unfold project_energy_record_no_balance_change, calc_incremental_growth.
  rewrite bool_decide_true, orb_false_r by done.
  destruct (_ <? H) eqn:E1, (H <=? _) eqn:E2; b2p; try lia; done.
Qed.

Lemma get_pass_energy_run i H db r :
  wf_db db → wf_key (i, H) → is_latest i H db r →
  get_pass_energy i H db = (Ok (Some (project_energy_record_no_balance_change r H)), db).
Proof.
  intros W Wk Hl. apply find_last_is_Some in Hl; [|done|done].
  unfold get_pass_energy, get_pass_energy_record_at_or_before, find_last_pass_energy_record,
    bind, gets, ret. by rewrite Hl.
Qed.

Section Laws.
Context {BP : BalanceProvider} {Laws : BalanceProviderLaws}.

Lemma range_reply_bounds address r H l :
  0 <= er_block_height r <= H → H < U32_MAX →
  provider_balance_at_range address (u32_add (er_block_height r) 1) (u32_add H 1) = Ok l →
  Forall (λ ab, wf_balance ab ∧ er_block_height r < ab_block_height ab <= H) l
  ∧ StronglySorted (λ a b, ab_block_height a < ab_block_height b) l.
Proof.
  intros Hr HH E. rewrite !u32_add_small in E by lia.
  apply at_range_rows in E as [Hf Hs]. split; [|done].
  eapply Forall_impl; [exact Hf|]. simpl. intros ab [? ?]. split; [done|lia].
Qed.

End Laws.

(** ** The block-sync protocol: undo of an unfinished block *)

(** A routine of block [h]: it leaves the records below [h] and the markers of the protocol. *)
Definition only_from (h : u32) (db db' : EnergyDb) : Prop :=
  (∀ k, k.2 < h → pass_energy_cf db' !! k = pass_energy_cf db !! k)
  ∧ meta_pending_block_height db' = meta_pending_block_height db
  ∧ meta_synced_block_height db' = meta_synced_block_height db.

Lemma only_from_refl h db : only_from h db db.
Proof. done. Qed.
Lemma only_from_trans h a b c : only_from h a b → only_from h b c → only_from h a c.
Proof.
  intros (A1 & A2 & A3) (B1 & B2 & B3). split_and!; [|congruence..].
  intros k Hk. by rewrite B1, A1.
Qed.
Lemma only_from_insert h r db : h <= er_block_height r → only_from h db (insert_record r db).
Proof.
  intros Hle. split_and!; [|done..]. intros k Hk. simpl. apply lookup_insert_ne.
  intros <-. simpl in *. lia.
Qed.

(** Every operation a block runs on the energy store writes at its own height or above. *)
Definition at_height {A} (h : u32) (m : M EnergyDb A) : Prop := ∀ db, only_from h db (m db).2.

Lemma at_height_bind {A B} h (m : M EnergyDb A) (f : A → M EnergyDb B) :
  at_height h m → (∀ a, at_height h (f a)) → at_height h (bind m f).
Proof.
  intros Hm Hf db. specialize (Hm db). unfold bind.
  destruct (m db) as [[a|?|?] db']; simpl in *; [|done..].
  eapply only_from_trans; [done|apply Hf].
Qed.
Lemma at_height_pure {A} h (m : M EnergyDb A) : (∀ db, (m db).2 = db) → at_height h m.
Proof. intros E db. rewrite E. apply only_from_refl. Qed.
Lemma at_height_insert h r : h <= er_block_height r → at_height h (insert_pass_energy_record r).
Proof. intros ? db. by apply only_from_insert. Qed.

Section AtHeight.
Context {BP : BalanceProvider}.

Lemma at_height_on_new_pass i o h e : at_height h (on_new_pass i o h e).
Proof.
  apply at_height_bind; [|intros; apply at_height_insert; simpl; lia].
  apply at_height_pure. intros db. unfold get_balance_at_height, bind, lift, assert.
  destruct (provider_balance_at_height o h); simpl; [|done..].
  destruct (length _ <=? 1)%nat; [|done]. simpl. by destruct (last _).
Qed.

Lemma at_height_apply i o h b d strict :
  at_height h (apply_active_balance_change_internal i o h b d strict).
Proof.
  unfold apply_active_balance_change_internal. destruct (d =? 0); [by apply at_height_pure|].
  apply at_height_bind; [by apply at_height_pure|intros found].
  apply at_height_bind; [by apply at_height_pure|intros r].
  repeat (case_match; [by apply at_height_pure|]).
  repeat match goal with |- at_height _ (if ?b then _ else _) => destruct b end;
    try (by apply at_height_pure);
    (apply at_height_bind; [apply at_height_insert; simpl; lia|intros; by apply at_height_pure]).
Qed.

Lemma at_height_on_pass_consumed i o h : at_height h (on_pass_consumed i o h).
Proof. apply at_height_insert. simpl. lia. Qed.
End AtHeight.

(** Starting a block at a height above every stored record, running anything that writes at that
    height or above (whether it succeeds or fails), and aborting, restores the records and the
    markers the block started from. *)
Theorem begin_abort_restores {A} h (body : M EnergyDb A) db db1 r db2 :
  meta_pending_block_height db = None →
  (∀ k v, pass_energy_cf db !! k = Some v → k.2 < h) →
  at_height h body →
  begin_block_sync h db = (Ok tt, db1) →
  body db1 = (r, db2) →
  ∃ db3, abort_pending_block_sync h db2 = (Ok tt, db3)
    ∧ pass_energy_cf db3 = pass_energy_cf db
    ∧ meta_pending_block_height db3 = None
    ∧ meta_synced_block_height db3 = meta_synced_block_height db
    ∧ max_marker_ok db3.
Proof.
  intros Hp Hlow Hbody Hb Hr. unfold begin_block_sync in Hb.
  erewrite bind_run in Hb by reflexivity. rewrite Hp in Hb. cbn in Hb.
  injection Hb as <-. 
  match type of Hr with body ?d = _ => specialize (Hbody d) end. rewrite Hr in Hbody.
  destruct Hbody as (Hk & Hpe & Hsy). cbn in Hk, Hpe, Hsy.
  unfold abort_pending_block_sync. erewrite bind_run by reflexivity.
  rewrite Hpe, bool_decide_true by done. simpl.
  eexists. split; [reflexivity|]. cbn. split_and!; [|done|done|].
  - apply map_eq. intros k. apply option_eq. intros v.
    rewrite map_lookup_filter_Some. simpl. split.
    + intros [Hv Hlt]. by rewrite <-Hk.
    + intros Hv. pose proof (Hlow _ _ Hv). split; [by rewrite Hk|done].
  - pose proof (clear_from_max_marker h db2) as Hm. exact Hm.
Qed.

Lemma reconcile_pending_spec db :
  max_marker_ok db →
  ∃ db', reconcile_pending db = (Ok tt, db') ∧ max_marker_ok db'
    ∧ meta_pending_block_height db' = None
    ∧ meta_synced_block_height db' = meta_synced_block_height db
    ∧ ∀ k v, pass_energy_cf db' !! k = Some v ↔ pass_energy_cf db !! k = Some v
        ∧ ∀ q, meta_pending_block_height db = Some q → k.2 < q.
Proof.
  intros Hm. unfold reconcile_pending. erewrite bind_run by reflexivity.
  destruct (meta_pending_block_height db) as [q|] eqn:E.
  - eexists. split; [reflexivity|]. split_and!; [apply (clear_from_max_marker q db)|done|done|].
    intros k v. cbn. rewrite map_lookup_filter_Some. simpl. naive_solver.
  - exists db. split_and!; [done..|]. naive_solver.
Qed.

Lemma get_max_record_block_height_run db :
  max_marker_ok db → get_max_record_block_height db = (Ok (meta_max_record_block_height db), db).
Proof.
  intros Hm. pose proof (is_max_height_unique _ _ _ Hm (scan_max_is_max db)) as E.
  unfold get_max_record_block_height, bind, gets, ret.
  destruct (meta_max_record_block_height db); [done|]. by rewrite <-!E.
Qed.

Lemma reconcile_records_spec p db :
  max_marker_ok db → 0 <= p <= U32_MAX →
  (∀ k v, pass_energy_cf db !! k = Some v → k.2 <= U32_MAX) →
  ∃ db', reconcile_records p db = (Ok tt, db') ∧ max_marker_ok db'
    ∧ meta_pending_block_height db' = meta_pending_block_height db
    ∧ meta_synced_block_height db' = meta_synced_block_height db
    ∧ ∀ k v, pass_energy_cf db' !! k = Some v ↔ pass_energy_cf db !! k = Some v ∧ k.2 <= p.
Proof.
  intros Hm Hp Hu. unfold reconcile_records.
  erewrite bind_run by by apply get_max_record_block_height_run. pose proof Hm as Hmax. destruct Hm as [Hm Hm'].
  destruct (meta_max_record_block_height db) as [m|] eqn:Em.
  - rewrite Z.gtb_ltb. destruct (p <? m) eqn:E; b2p.
    + eexists. split; [reflexivity|]. split_and!; [apply (clear_from_max_marker _ db)|done|done|].
      intros k v. cbn. rewrite map_lookup_filter_Some. simpl. unfold u32_saturating_add.
      destruct (Hm' m eq_refl) as (im & vm & Hvm%Hu). simpl in Hvm.
      split; intros [? ?]; (split; [done|lia]).
    + exists db. split_and!; [done..|]. intros k v. split; [|by intros [? _]].
      intros Hv. split; [done|]. apply Hm in Hv as (? & [= <-] & ?). lia.
  - exists db. split_and!; [done..|]. intros k v. split; [|by intros [? _]].
    intros Hv. by apply Hm in Hv as (? & ? & ?).
Qed.

Lemma reconcile_synced_spec p db :
  pass_energy_cf (reconcile_synced p db).2 = pass_energy_cf db
  ∧ meta_pending_block_height (reconcile_synced p db).2 = meta_pending_block_height db
  ∧ (is_ok (reconcile_synced p db).1 = true ↔ ∀ s, meta_synced_block_height db = Some s → p <= s)
  ∧ (is_ok (reconcile_synced p db).1 = true →
     meta_synced_block_height (reconcile_synced p db).2 = Some p).
Proof.
  unfold reconcile_synced. erewrite bind_run by reflexivity.
  destruct (meta_synced_block_height db) as [s|] eqn:Es; [|cbn; split_and!; naive_solver].
  rewrite Z.gtb_ltb. destruct (p <? s) eqn:E3; b2p; [|destruct (s <? p) eqn:E4; b2p]; cbn.
  - split_and!; try done. split; [|done]. intros _ ? [= <-]. lia.
  - split_and!; try done. split; [done|]. intros Hs. specialize (Hs _ eq_refl). lia.
  - split_and!; try done; [|intros _; rewrite Es; f_equal; lia].
    split; [|done]. intros _ ? [= <-]. lia.
Qed.

Lemma reconcile_run p db :
  max_marker_ok db → 0 <= p <= U32_MAX →
  (∀ k v, pass_energy_cf db !! k = Some v → k.2 <= U32_MAX) →
  let out := reconcile_with_pass_synced_height p db in
  (∀ k v, pass_energy_cf out.2 !! k = Some v ↔
     pass_energy_cf db !! k = Some v ∧ k.2 <= p
     ∧ ∀ q, meta_pending_block_height db = Some q → k.2 < q)
  ∧ meta_pending_block_height out.2 = None
  ∧ (is_ok out.1 = true ↔ ∀ s, meta_synced_block_height db = Some s → p <= s)
  ∧ (is_ok out.1 = true → meta_synced_block_height out.2 = Some p).
Proof.
  intros Hm Hp Hu. unfold reconcile_with_pass_synced_height.
  destruct (reconcile_pending_spec db Hm) as (db1 & E1 & Hm1 & Hp1 & Hs1 & Hl1).
  destruct (reconcile_records_spec p db1) as (db2 & E2 & _ & Hp2 & Hs2 & Hl2); [done|done| |].
  { intros k v [? _]%Hl1. eauto. }
  erewrite bind_run by exact E1. erewrite bind_run by exact E2. cbv zeta.
  destruct (reconcile_synced_spec p db2) as (-> & -> & Hok & Hpost).
  rewrite Hs2, Hs1 in Hok. split_and!; [|congruence|done|done].
  intros k v. rewrite Hl2, Hl1. tauto.
Qed.

(** The cached maximum stays exact. *)
Lemma reconcile_keeps_max p db :
  max_marker_ok db → 0 <= p <= U32_MAX →
  (∀ k v, pass_energy_cf db !! k = Some v → k.2 <= U32_MAX) →
  max_marker_ok (reconcile_with_pass_synced_height p db).2.
Proof.
  intros Hm Hp Hu. unfold reconcile_with_pass_synced_height.
  destruct (reconcile_pending_spec db Hm) as (db1 & E1 & Hm1 & _ & _ & Hl1).
  destruct (reconcile_records_spec p db1) as (db2 & E2 & Hm2 & _); [done|done| |].
  { intros k v [? _]%Hl1. eauto. }
  erewrite bind_run by exact E1. erewrite bind_run by exact E2.
  unfold reconcile_synced. erewrite bind_run by reflexivity. repeat (done || case_match).
Qed.

(** Reconciling with the pass store's synced height always drops an unfinished block and every
    record above that height; it succeeds exactly when the energy store is not behind, and then
    no pending marker is left and both synced heights agree. *)
Theorem reconcile_postcondition p db :
  max_marker_ok db → 0 <= p <= U32_MAX →
  (∀ k v, pass_energy_cf db !! k = Some v → k.2 <= U32_MAX) →
  let out := reconcile_with_pass_synced_height p db in
  (∀ k v, pass_energy_cf out.2 !! k = Some v ↔
     pass_energy_cf db !! k = Some v ∧ k.2 <= p
     ∧ ∀ q, meta_pending_block_height db = Some q → k.2 < q)
  ∧ meta_pending_block_height out.2 = None
  ∧ (is_ok out.1 = true ↔ ∀ s, meta_synced_block_height db = Some s → p <= s)
  ∧ (is_ok out.1 = true → meta_synced_block_height out.2 = Some p).
Proof. apply reconcile_run. Qed.

(** ** The invariant of the store *)

Definition record_ok (r : PassEnergyRecord) : Prop :=
  wf_key (er_inscription_id r, er_block_height r)
  ∧ 0 <= er_active_block_height r <= er_block_height r
  ∧ 0 <= er_owner_balance r <= U64_MAX ∧ I64_MIN <= er_owner_delta r <= I64_MAX
  ∧ 0 <= er_energy r <= U64_MAX ∧ (er_state r = Consumed → er_energy r = 0).

Definition energy_inv (db : EnergyDb) : Prop :=
  max_marker_ok db
  ∧ ∀ k v, pass_energy_cf db !! k = Some v → record_ok (value_record k.1 k.2 v).

Lemma energy_inv_empty : energy_inv empty_energy_db.
Proof. split; [split; [|done]|]; intros k v Hv; cbn in Hv; by rewrite lookup_empty in Hv. Qed.

Lemma energy_inv_wf db : energy_inv db → wf_db db.
Proof. intros [_ H] [i h] v Hv. apply (H _ _ Hv). Qed.

Lemma energy_inv_latest i h db r : energy_inv db → is_latest i h db r → record_ok r.
Proof.
  intros [_ H] (<- & _ & Hl & _). specialize (H _ _ Hl). simpl in H.
  by rewrite value_record_value in H.
Qed.

Lemma energy_inv_insert r db : energy_inv db → record_ok r → energy_inv (insert_record r db).
Proof.
  intros [Hm H] Hr. split; [by apply insert_record_max_marker|].
  intros k v. simpl. rewrite lookup_insert_Some. intros [[<- <-]|[_ Hv]]; [|by apply H].
  simpl. by rewrite value_record_value.
Qed.

Lemma energy_inv_clear h db : energy_inv db → energy_inv (clear_from h db).
Proof.
  intros [_ H]. split; [apply clear_from_max_marker|].
  intros k v [Hv _]%clear_from_lookup. by apply H.
Qed.

(** The markers of the protocol are no part of the invariant. *)
Lemma energy_inv_markers db db' :
  pass_energy_cf db' = pass_energy_cf db →
  meta_max_record_block_height db' = meta_max_record_block_height db →
  energy_inv db → energy_inv db'.
Proof. unfold energy_inv, max_marker_ok. by intros -> ->. Qed.

Lemma energy_step_ok i last ab :
  record_ok last → wf_key (i, ab_block_height ab) → wf_balance ab →
  er_block_height last <= ab_block_height ab → record_ok (energy_step i last ab).
Proof.
  intros (Wl & Ha & Hb & Hd & He & _) Wk (Hh & Hb' & Hd') Hle.
  pose proof (calc_incremental_growth_range (er_owner_balance last) (er_active_block_height last)
                (er_block_height last) (ab_block_height ab) Hb) as Hg.
  pose proof (calc_penalty_closed _ Hd') as Hpen.
  unfold record_ok, energy_step. cbn. split_and!; try done; try lia.
  - destruct (_ <? 0); lia.
  - destruct (_ <? 0); lia.
  - destruct (_ <? 0); [|unfold u64_saturating_add; lia].
    unfold u64_saturating_sub, u64_saturating_add. lia.
  - destruct (_ <? 0); [|unfold u64_saturating_add; lia].
    rewrite Hpen. unfold u64_saturating_sub, u64_saturating_add. unfold ENERGY_PENALTY_MULTIPLIER.
    unfold U64_MAX in *. lia.
Qed.

Lemma project_ok r h :
  record_ok r → 0 <= energy (project_energy_record_no_balance_change r h) <= U64_MAX.
Proof.
  intros (_ & Ha & Hb & _ & He & _). unfold project_energy_record_no_balance_change.
  destruct (_ || _); [done|]. cbn.
  pose proof (growth_since_range (er_owner_balance r) (er_active_block_height r) h Hb).
  unfold growth_since in *. unfold u64_saturating_add, u64_saturating_sub.
  pose proof (growth_since_range (er_owner_balance r) (er_active_block_height r) (er_block_height r) Hb).
  unfold growth_since in *. lia.
Qed.

(** [db'] has, besides rows of [db], rows of pass [i] up to height [h] only. *)
Definition adds_only (i : InscriptionId) (h : u32) (db db' : EnergyDb) : Prop :=
  ∀ k v, pass_energy_cf db' !! k = Some v → pass_energy_cf db !! k = Some v ∨ (k.1 = i ∧ k.2 <= h).

Lemma adds_only_insert i h r db db0 :
  er_inscription_id r = i → er_block_height r <= h → adds_only i h db0 db →
  adds_only i h db0 (insert_record r db).
Proof.
  intros <- Hle H k v. simpl. rewrite lookup_insert_Some. intros [[<- _]|[_ Hv]]; [by right|auto].
Qed.

Section Invariant.
Context {BP : BalanceProvider} {Laws : BalanceProviderLaws}.

Lemma update_fold_inv i H l : ∀ db0 db r,
  energy_inv db → adds_only i H db0 db → wf_id i → H <= U32_MAX → record_ok r →
  is_latest i H db r → er_state r = Active →
  Forall (λ ab, wf_balance ab ∧ er_block_height r < ab_block_height ab <= H) l →
  StronglySorted (λ a b, ab_block_height a < ab_block_height b) l →
  ∃ r' db', fold_m l r (update_round i) db = (Ok r', db')
    ∧ energy_inv db' ∧ adds_only i H db0 db' ∧ is_latest i H db' r' ∧ er_state r' = Active.
Proof.
  induction l as [|ab l IH]; intros db0 db r I A Wi HH Hr Hl Ha Hrange Hs; [by exists r, db|].
  apply Forall_cons in Hrange as [[Wab Hab] Hrange]. apply StronglySorted_inv in Hs as [Hs Hlt].
  assert (record_ok (energy_step i r ab)) as Hok.
  { apply energy_step_ok; [done| |done|lia]. split; [done|]. apply Wab. }
  apply (IH db0 (insert_record (energy_step i r ab) db) (energy_step i r ab)); try done.
  - by apply energy_inv_insert.
  - apply adds_only_insert; [done|simpl; lia|done].
  - apply is_latest_insert; [done|simpl; lia|]. intros h' v Hv Hle.
    destruct Hl as (_ & _ & _ & Hmax). specialize (Hmax _ _ Hv Hle). simpl. lia.
  - rewrite Forall_forall in Hlt, Hrange. apply Forall_forall. intros x Hx. simpl.
    specialize (Hlt _ Hx). specialize (Hrange _ Hx). split; [by apply Hrange|lia].
Qed.

(** What [update_pass_energy] does, however it ends. *)
Lemma update_pass_energy_spec i H db :
  energy_inv db → wf_key (i, H) → H < U32_MAX →
  energy_inv (update_pass_energy i H db).2
  ∧ adds_only i H db (update_pass_energy i H db).2
  ∧ ∀ res, (update_pass_energy i H db).1 = Ok res →
      ∃ r, is_latest i H (update_pass_energy i H db).2 r
           ∧ res = project_energy_record_no_balance_change r H.
Proof.
  intros I Wk HH. pose proof (energy_inv_wf _ I) as W. pose proof Wk as [Wi ?].
  assert (adds_only i H db db) as A by (intros ???; by left).
  unfold update_pass_energy. erewrite bind_run by reflexivity.
  destruct (find_last i H db) as [r|] eqn:E; [|by cbn].
  apply find_last_is_Some in E; [|done..]. pose proof (energy_inv_latest _ _ _ _ I E) as Hr.
  erewrite bind_run by reflexivity. rewrite (proj2 (Z.leb_le _ _)) by apply E.
  erewrite bind_run by reflexivity.
  case_bool_decide as Ha; simpl.
  - unfold get_balance_at_range.
    destruct (provider_balance_at_range _ _ _) as [l|e|e] eqn:Ep; [|by cbn..].
    erewrite bind_run by reflexivity.
    pose proof (wf_key_height _ (proj1 Hr)) as Hr0. simpl in Hr0.
    assert (er_block_height r <= H) by apply E.
    destruct (range_reply_bounds _ r H l ltac:(lia) HH Ep) as [Hb Hs].
    destruct (update_fold_inv i H l db db r) as (r' & db' & Hf & I' & A' & Hl' & Ha');
      try done; [lia|].
    erewrite bind_run by exact Hf. rewrite update_tail_project by first [done|apply Hl'].
    simpl. split_and!; [done..|]. intros res [= <-]. by exists r'.
  - split_and!; [done..|]. intros res [= <-]. exists r. split; [done|].
    unfold project_energy_record_no_balance_change.
    rewrite bool_decide_false by done. by rewrite orb_true_r.
Qed.
End Invariant.

(** ** Reachable stores *)

(** The calls the indexer makes on the manager. *)
Inductive energy_op :=
  | OpBegin (h : u32)
  | OpFinalize (h : u32)
  | OpAbort (h : u32)
  | OpReconcile (p : u32)
  | OpNewPass (i : InscriptionId) (o : USDBScriptHash) (h : u32) (e : u64)
  | OpApply (i : InscriptionId) (o : USDBScriptHash) (h : u32) (b : u64) (d : i64)
  | OpUpdate (i : InscriptionId) (h : u32)
  | OpDormant (i : InscriptionId) (h : u32)
  | OpConsumed (i : InscriptionId) (o : USDBScriptHash) (h : u32).

(** The arguments are in the range of their types, and a block height is not the last [u32]. *)
Definition op_valid (op : energy_op) : Prop :=
  match op with
  | OpBegin h | OpFinalize h | OpAbort h | OpReconcile h => 0 <= h <= U32_MAX
  | OpNewPass i _ h e => wf_key (i, h) ∧ 0 <= e <= U64_MAX
  | OpApply i _ h b d => wf_key (i, h) ∧ 0 <= b <= U64_MAX ∧ I64_MIN <= d <= I64_MAX
  | OpUpdate i h | OpDormant i h => wf_key (i, h) ∧ h < U32_MAX
  | OpConsumed i _ h => wf_key (i, h)
  end.

Section Reachable.
Context {BP : BalanceProvider} {Laws : BalanceProviderLaws}.

Definition run_op (op : energy_op) : M EnergyDb unit :=
  match op with
  | OpBegin h => begin_block_sync h
  | OpFinalize h => finalize_block_sync h
  | OpAbort h => abort_pending_block_sync h
  | OpReconcile p => reconcile_with_pass_synced_height p
  | OpNewPass i o h e => on_new_pass i o h e
  | OpApply i o h b d => let! _ := apply_active_balance_change i o h b d in ret tt
  | OpUpdate i h => let! _ := update_pass_energy i h in ret tt
  | OpDormant i h => on_pass_dormant i h
  | OpConsumed i o h => on_pass_consumed i o h
  end.

(** One call, whether it succeeds, fails or panics. *)
Inductive op_step : EnergyDb → EnergyDb → Prop :=
  | op_step_intro op db : op_valid op → op_step db (run_op op db).2.

Lemma inv_insert r : record_ok r → preserves energy_inv (insert_pass_energy_record r).
Proof. intros Hr db I. by apply energy_inv_insert. Qed.

Lemma inv_clear h : preserves energy_inv (clear_records_from_height h).
Proof. intros db I. by apply energy_inv_clear. Qed.

Lemma inv_marker (m : M EnergyDb unit) :
  (∀ db, pass_energy_cf (m db).2 = pass_energy_cf db
         ∧ meta_max_record_block_height (m db).2 = meta_max_record_block_height db) →
  preserves energy_inv m.
Proof. intros E db I. destruct (E db). by eapply energy_inv_markers. Qed.

#[local] Hint Resolve inv_insert inv_clear : preserves.

Lemma inv_pending v : preserves energy_inv (put_pending_block_height v).
Proof. by apply inv_marker. Qed.
Lemma inv_synced h : preserves energy_inv (set_synced_block_height h).
Proof. by apply inv_marker. Qed.
Lemma inv_finalize h : preserves energy_inv (storage_finalize_block_sync h).
Proof. by apply inv_marker. Qed.
Lemma inv_get_max : preserves energy_inv get_max_record_block_height.
Proof. intros db I. rewrite get_max_record_block_height_run by apply I. done. Qed.

#[local] Hint Resolve inv_pending inv_synced inv_finalize inv_get_max : preserves.
#[local] Hint Unfold get_pending_block_height get_synced_block_height set_pending_block_height
  clear_pending_block_height reconcile_pending reconcile_records reconcile_synced : preserves.

Ltac inv_auto :=
  repeat first
    [ solve [eauto with preserves]
    | progress autounfold with preserves
    | apply preserves_bind; [|intros ?]
    | case_match ].

Lemma inv_on_new_pass i o h e :
  wf_key (i, h) → 0 <= e <= U64_MAX → preserves energy_inv (on_new_pass i o h e).
Proof.
  intros Wk He db I. unfold on_new_pass, get_balance_at_height, bind, lift, assert.
  destruct (provider_balance_at_height o h) as [l|?|?] eqn:E; [|done..].
  apply at_height_rows in E as [Hlen Hl]. pose proof (wf_key_height _ Wk). simpl in *.
  rewrite (proj2 (Nat.leb_le _ _)) by done. cbn.
  assert (∀ ab, wf_balance ab → record_ok
    {| er_inscription_id := i; er_block_height := h; er_state := Active;
       er_active_block_height := h; er_owner_address := o; er_owner_balance := ab_balance ab;
       er_owner_delta := ab_delta ab; er_energy := e |}) as Hok.
  { intros ab (? & ? & ?). unfold record_ok. cbn. split_and!; try done; lia. }
  destruct (last l) as [ab|] eqn:El; cbn; apply energy_inv_insert; try done.
  - apply Hok. apply last_Some in El as [l' ->]. apply Forall_app in Hl as [_ Hl].
    apply Forall_cons in Hl as [[? _] _]. done.
  - apply (Hok {| ab_block_height := h; ab_balance := 0; ab_delta := 0 |}).
    unfold wf_balance, U64_MAX, I64_MIN, I64_MAX. cbn. lia.
Qed.

Lemma apply_change_energy_step i o h b d strict db :
  wf_db db → wf_key (i, h) →
  (apply_active_balance_change_internal i o h b d strict db).2 = db
  ∨ ∃ r, is_latest i h db r
      ∧ (apply_active_balance_change_internal i o h b d strict db).2
        = insert_record (energy_step i r {| ab_block_height := h; ab_balance := b; ab_delta := d |}) db.
Proof.
  intros W Wk. unfold apply_active_balance_change_internal. destruct (d =? 0); [by left|].
  erewrite bind_run by reflexivity. destruct (find_last i h db) as [r|] eqn:E; [|by left].
  erewrite bind_run by reflexivity. apply find_last_is_Some in E; [|done..].
  case_bool_decide; simpl; [|by left]. destruct (_ =? o) eqn:Eo; simpl; [b2p; subst o|by left].
  repeat match goal with |- ((if ?b then _ else _) _).2 = _ ∨ _ =>
           destruct b; [by left|] end.
  repeat (case_match; try by left). all: right; exists r; split; [done|]; unfold energy_step; cbn.
  all: repeat case_match; try done; b2p; lia.
Qed.

Lemma inv_apply i o h b d :
  wf_key (i, h) → 0 <= b <= U64_MAX → I64_MIN <= d <= I64_MAX →
  preserves energy_inv (apply_active_balance_change i o h b d).
Proof.
  intros Wk Hb Hd db I. pose proof (wf_key_height _ Wk). simpl in *.
  destruct (apply_change_energy_step i o h b d true db) as [E|(r & Hl & E)]; try done;
    [by apply energy_inv_wf|unfold apply_active_balance_change; by rewrite E|].
  unfold apply_active_balance_change. rewrite E. apply energy_inv_insert; [done|].
  apply energy_step_ok; [by eapply energy_inv_latest|done|done|apply Hl].
Qed.

Lemma inv_dormant i h :
  wf_key (i, h) → h < U32_MAX → preserves energy_inv (on_pass_dormant i h).
Proof.
  intros Wk Hh db I. destruct (update_pass_energy_spec i h db I Wk Hh) as (I1 & _ & Hres).
  unfold on_pass_dormant, bind at 1. destruct (update_pass_energy i h db) as [[res|?|?] db1]; [|done..].
  cbn in I1, Hres. destruct (Hres _ eq_refl) as (r & Hl & ->).
  pose proof (energy_inv_latest _ _ _ _ I1 Hl) as Hr. pose proof (project_ok r h Hr) as He.
  apply find_last_is_Some in Hl as Hf; [|by apply energy_inv_wf|done].
  erewrite bind_run by reflexivity. rewrite Hf. erewrite bind_run by reflexivity.
  refine (preserves_bind _ _ _ (inv_insert _ _) _ _ I1); [|intros _; inv_auto].
  pose proof (wf_key_height _ Wk). simpl in *. destruct Hr as (? & ? & ? & ? & ? & ?), Hl as (_ & ? & _).
  unfold record_ok. cbn. split_and!; try done; try lia; case_match; unfold I64_MIN, I64_MAX in *; lia.
Qed.

(** C31. From the empty store, whatever calls the indexer makes and however each of them ends, every
    stored record is well formed: amounts and energies stay in [u64], the growth window starts at
    or before the record, a consumed pass has no energy; and the cached maximum is the maximum. *)
Theorem energy_store_invariant db :
  rtc op_step empty_energy_db db → energy_inv db.
Proof.
  intros Hr. pose proof energy_inv_empty as I0.
  revert Hr I0. generalize empty_energy_db.
  induction 1 as [|a b c St _ IH]; [done|]. intros I. apply IH. clear IH.
  destruct St as [op s V]. revert s I.
  change (preserves energy_inv (run_op op)).
  destruct op; simpl in V |- *.
  - unfold begin_block_sync. inv_auto.
  - unfold finalize_block_sync. inv_auto.
  - unfold abort_pending_block_sync. inv_auto.
  - unfold reconcile_with_pass_synced_height. inv_auto.
  - destruct V. by apply inv_on_new_pass.
  - destruct V as (? & ? & ?). apply preserves_bind; [by apply inv_apply|intros; inv_auto].
  - destruct V. apply preserves_bind; [|intros; inv_auto].
    intros db I. by apply update_pass_energy_spec.
  - destruct V. by apply inv_dormant.
  - apply inv_insert. pose proof (wf_key_height _ V). simpl in *.
    unfold record_ok, U64_MAX, I64_MIN, I64_MAX. cbn. split_and!; try done; lia.
Qed.
End Reachable.

(** ** Functional properties of the transitions *)

Section Transitions.
Context {BP : BalanceProvider} {Laws : BalanceProviderLaws}.

Lemma on_pass_dormant_run i h db res db1 :
  update_pass_energy i h db = (Ok res, db1) →
  ∀ r, find_last i h db1 = Some r →
  on_pass_dormant i h db = (Ok tt, insert_record
    {| er_inscription_id := i; er_block_height := h; er_state := Dormant;
       er_active_block_height := er_active_block_height r;
       er_owner_address := er_owner_address r; er_owner_balance := er_owner_balance r;
       er_owner_delta := if er_block_height r =? h then er_owner_delta r else 0;
       er_energy := energy res |} db1).
Proof.
  intros Hu r Hf. unfold on_pass_dormant. erewrite bind_run by exact Hu.
  erewrite bind_run by reflexivity. rewrite Hf. erewrite bind_run by reflexivity.
  erewrite bind_run by reflexivity.
  unfold get_pass_energy_record_exact, get_pass_energy_record. rewrite bind_assoc.
  erewrite bind_run by reflexivity. cbn. rewrite lookup_insert_eq. cbn.
  by rewrite bool_decide_true.
Qed.

Lemma dormant_freezes i h db :
  energy_inv db → wf_key (i, h) → h < U32_MAX →
  (∀ h' v, pass_energy_cf db !! (i, h') = Some v → h' <= h) →
  match update_pass_energy i h db with
  | (Ok e, _) =>
      ∃ db', on_pass_dormant i h db = (Ok tt, db')
        ∧ ∀ h', h <= h' <= U32_MAX →
            get_pass_energy i h' db'
            = (Ok (Some {| energy := energy e; res_state := Dormant |}), db')
  | (Err e, db') => on_pass_dormant i h db = (Err e, db')
  | (Panic e, db') => on_pass_dormant i h db = (Panic e, db')
  end.
Proof.
  intros I Wk Hh Htip. destruct (update_pass_energy_spec i h db I Wk Hh) as (I1 & A1 & Hres).
  destruct (update_pass_energy i h db) as [[res|e|e] db1] eqn:E;
    [|unfold on_pass_dormant, bind at 1; by rewrite E..].
  cbn in I1, A1, Hres. destruct (Hres _ eq_refl) as (r & Hl & ->).
  pose proof (energy_inv_wf _ I1) as W1.
  apply find_last_is_Some in Hl as Hf; [|done..].
  eexists. split; [by eapply on_pass_dormant_run|]. intros h' Hh'.
  match goal with |- get_pass_energy _ _ (insert_record ?x _) = _ =>
    rewrite (get_pass_energy_run i h' _ x) end.
  - unfold project_energy_record_no_balance_change. cbn. by destruct (h' <=? h).
  - by apply wf_insert_record.
  - split; [apply Wk|]. pose proof (wf_key_height _ Wk). simpl in *. lia.
  - apply is_latest_insert; [done|simpl; lia|]. intros k v Hv _. simpl.
    destruct (A1 _ _ Hv) as [Hv'|[_ ?]]; [by apply Htip in Hv'|done].
Qed.

(** The same, for a transition that succeeded. *)
Lemma dormant_frozen i h db db' :
  energy_inv db → wf_key (i, h) → h < U32_MAX →
  (∀ h' v, pass_energy_cf db !! (i, h') = Some v → h' <= h) →
  on_pass_dormant i h db = (Ok tt, db') →
  ∃ e, ∀ h', h <= h' <= U32_MAX →
    get_pass_energy i h' db' = (Ok (Some {| energy := e; res_state := Dormant |}), db').
Proof.
  intros I Wk Hh Htip E. pose proof (dormant_freezes i h db I Wk Hh Htip) as Hf.
  destruct (update_pass_energy i h db) as [[e|e|e] db1]; [|rewrite E in Hf; discriminate..].
  destruct Hf as (db2 & E2 & Hq). rewrite E in E2. injection E2 as <-. by exists (energy e).
Qed.

(** Marking an active pass dormant at the tip always writes its snapshot (the mismatch check after
    the write cannot fire), and freezes its energy: at every later height the query returns the
    energy that settling at the transition gives, whatever the owner's balance does. *)
Theorem dormant_freezes_energy i h db :
  energy_inv db → wf_key (i, h) → h < U32_MAX →
  (∀ h' v, pass_energy_cf db !! (i, h') = Some v → h' <= h) →
  match update_pass_energy i h db with
  | (Ok e, _) =>
      ∃ db', on_pass_dormant i h db = (Ok tt, db')
        ∧ ∀ h', h <= h' <= U32_MAX →
            get_pass_energy i h' db'
            = (Ok (Some {| energy := energy e; res_state := Dormant |}), db')
  | (Err e, db') => on_pass_dormant i h db = (Err e, db')
  | (Panic e, db') => on_pass_dormant i h db = (Panic e, db')
  end.
Proof. apply dormant_freezes. Qed.

(** When balance-history reports no change since the last record, settling writes nothing and
    returns what the query API projects, for an active pass and for a settled one. *)
Theorem update_without_changes_is_query i h db r :
  wf_db db → wf_key (i, h) → is_latest i h db r →
  provider_balance_at_range (er_owner_address r)
    (u32_add (er_block_height r) 1) (u32_add h 1) = Ok [] →
  update_pass_energy i h db = (Ok (project_energy_record_no_balance_change r h), db)
  ∧ get_pass_energy i h db = (Ok (Some (project_energy_record_no_balance_change r h)), db).
Proof.
  intros W Wk Hl Hp. split; [|by apply get_pass_energy_run].
  apply find_last_is_Some in Hl as Hf; [|done..].
  unfold update_pass_energy. erewrite bind_run by reflexivity. rewrite Hf.
  erewrite bind_run by reflexivity. rewrite (proj2 (Z.leb_le _ _)) by apply Hl.
  erewrite bind_run by reflexivity. case_bool_decide as Ha; simpl.
  - unfold get_balance_at_range. rewrite Hp. erewrite bind_run by reflexivity.
    erewrite bind_run by reflexivity. apply update_tail_project; [done|apply Hl].
  - unfold project_energy_record_no_balance_change.
    rewrite bool_decide_false by done. by rewrite orb_true_r.
Qed.

(** Settling the same balance change of a block twice is settling it once: the second call
    recognises the record of the block and reports that nothing was applied. *)
Theorem apply_change_idempotent i o h b d db db' :
  wf_db db → wf_key (i, h) →
  apply_active_balance_change i o h b d db = (Ok true, db') →
  apply_active_balance_change i o h b d db' = (Ok false, db')
  ∧ ∀ k, k ≠ (i, h) → pass_energy_cf db' !! k = pass_energy_cf db !! k.
Proof.
  intros W Wk E.
  unfold apply_active_balance_change, apply_active_balance_change_internal in E.
  destruct (d =? 0) eqn:Ed; [by minv E|]. erewrite bind_run in E by reflexivity.
  destruct (find_last i h db) as [r|] eqn:Hf; [|discriminate].
  erewrite bind_run in E by reflexivity. apply find_last_is_Some in Hf; [|done..].
  repeat match type of E with (if ?c then _ else _) _ = _ =>
    destruct c eqn:?; try discriminate end.
  minv E. injection H as _ <-. split.
  - unfold apply_active_balance_change, apply_active_balance_change_internal. rewrite Ed.
    erewrite bind_run by reflexivity.
    erewrite (proj2 (find_last_is_Some i h _ _ _ _)).
    2: apply is_latest_insert; [done|simpl; lia|by intros].
    erewrite bind_run by reflexivity. cbn. by rewrite !Z.eqb_refl, Z.gtb_ltb, Z.ltb_irrefl.
  - intros k Hk. cbn. by apply lookup_insert_ne.
    Unshelve. all: [> by apply wf_insert_record|done].
Qed.
End Transitions.

(** ** A concrete balance-history

    Rows of one address in height order, answered as the interface says. *)

Definition table_provider (rows : list AddressBalance) : BalanceProvider := {|
  provider_balance_at_height _ h :=
    Ok (match last (filter (λ ab, ab_block_height ab <= h) rows) with
        | Some ab => [ab] | None => [] end);
  provider_balance_at_range _ lo hi :=
    Ok (filter (λ ab, lo <= ab_block_height ab < hi) rows)
|}.

Lemma table_provider_laws rows :
  Forall wf_balance rows →
  StronglySorted (λ a b, ab_block_height a < ab_block_height b) rows →
  @BalanceProviderLaws (table_provider rows).
Proof.
  intros Hw Hs. rewrite Forall_forall in Hw. split; cbn.
  - intros _ h l [= <-]. destruct (last _) as [ab|] eqn:E; [|by split; [simpl; lia|constructor]].
    split; [simpl; lia|]. constructor; [|constructor].
    apply last_Some in E as [l' E].
    assert (ab ∈ filter (λ ab, ab_block_height ab <= h) rows) as Hin
      by (rewrite E; apply elem_of_app; right; by apply list_elem_of_singleton).
    apply list_elem_of_filter in Hin as [? ?]. split; [by apply Hw|done].
  - intros _ lo hi l [= <-]. split; [|by apply StronglySorted_filter].
    apply Forall_forall. intros ab [? ?]%list_elem_of_filter. split; [by apply Hw|done].
Qed.

(** ** Witnesses *)

Definition pass_a : InscriptionId := {| txid := 7; index := 0 |}.
Definition demo_rows : list AddressBalance :=
  [ {| ab_block_height := 10; ab_balance := 200000; ab_delta := 200000 |};
    {| ab_block_height := 13; ab_balance := 300000; ab_delta := 100000 |};
    {| ab_block_height := 15; ab_balance := 250000; ab_delta := -50000 |} ].
Definition demo_record : PassEnergyRecord :=
  {| er_inscription_id := pass_a; er_block_height := 10; er_state := Active;
     er_active_block_height := 10; er_owner_address := 1; er_owner_balance := 200000;
     er_owner_delta := 200000; er_energy := 5 |}.
Definition demo_db : EnergyDb := insert_record demo_record empty_energy_db.

Lemma demo_laws : @BalanceProviderLaws (table_provider demo_rows).
Proof.
  apply table_provider_laws.
  - repeat constructor; unfold U32_MAX, U64_MAX, I64_MIN, I64_MAX; simpl; lia.
  - repeat constructor; simpl; lia.
Qed.

Lemma wf_pass_a h : 0 <= h <= U32_MAX → wf_key (pass_a, h).
Proof. intros. split; [|done]. unfold wf_id, TXID_BOUND, U32_MAX. simpl. lia. Qed.

Lemma demo_inv : energy_inv demo_db.
Proof.
  apply energy_inv_insert; [apply energy_inv_empty|].
  unfold record_ok, demo_record; cbn. unfold U64_MAX, I64_MIN, I64_MAX.
  split_and!; try lia; [|done]. apply wf_pass_a. unfold U32_MAX. lia.
Qed.

Lemma demo_latest h : 10 <= h → is_latest pass_a h demo_db demo_record.
Proof.
  intros. split_and!; [done|done|done|]. intros h' v. unfold demo_db. cbn.
  rewrite lookup_insert_Some, lookup_empty. intros [[[= <-] _]|[_ ?]] ?; [lia|done].
Qed.


Lemma begin_abort_restores_witness :
  ∃ db3, abort_pending_block_sync 11
           (on_pass_consumed pass_a 1 11 (begin_block_sync 11 demo_db).2).2 = (Ok tt, db3)
    ∧ pass_energy_cf db3 = pass_energy_cf demo_db
    ∧ meta_pending_block_height db3 = None
    ∧ meta_synced_block_height db3 = meta_synced_block_height demo_db
    ∧ max_marker_ok db3.
Proof.
  apply (begin_abort_restores 11 (on_pass_consumed pass_a 1 11) demo_db
           (begin_block_sync 11 demo_db).2 (Ok tt)); try reflexivity.
  - intros k v. unfold demo_db. cbn.
    rewrite lookup_insert_Some, lookup_empty. intros [[<- _]|[_ ?]]; [simpl; lia|done].
  - apply at_height_on_pass_consumed.
Defined.

Lemma reconcile_postcondition_witness :
  let out := reconcile_with_pass_synced_height 9 demo_db in
  (∀ k v, pass_energy_cf out.2 !! k = Some v ↔
     pass_energy_cf demo_db !! k = Some v ∧ k.2 <= 9
     ∧ ∀ q, meta_pending_block_height demo_db = Some q → k.2 < q)
  ∧ meta_pending_block_height out.2 = None
  ∧ (is_ok out.1 = true ↔ ∀ s, meta_synced_block_height demo_db = Some s → 9 <= s)
  ∧ (is_ok out.1 = true → meta_synced_block_height out.2 = Some 9).
Proof.
  apply (reconcile_postcondition 9 demo_db); [apply demo_inv|unfold U32_MAX; lia|].
  intros k v. unfold demo_db. cbn.
  rewrite lookup_insert_Some, lookup_empty.
  intros [[<- _]|[_ ?]]; [simpl; unfold U32_MAX; lia|done].
Defined.

Lemma energy_store_invariant_witness :
  let BP := table_provider demo_rows in
  energy_inv (run_op (OpDormant pass_a 20) (run_op (OpNewPass pass_a 1 10 5) empty_energy_db).2).2.
Proof.
  intros BP. apply (energy_store_invariant (Laws := demo_laws)).
  eapply rtc_l; [|eapply rtc_l; [|apply rtc_refl]]; constructor.
  - split; [apply wf_pass_a; unfold U32_MAX; lia|unfold U64_MAX; lia].
  - split; [apply wf_pass_a; unfold U32_MAX; lia|done].
Defined.

Lemma dormant_freezes_energy_witness :
  let BP := table_provider demo_rows in
  match update_pass_energy pass_a 20 demo_db with
  | (Ok e, _) =>
      ∃ db', on_pass_dormant pass_a 20 demo_db = (Ok tt, db')
        ∧ ∀ h', 20 <= h' <= U32_MAX →
            get_pass_energy pass_a h' db'
            = (Ok (Some {| energy := energy e; res_state := Dormant |}), db')
  | (Err e, db') => on_pass_dormant pass_a 20 demo_db = (Err e, db')
  | (Panic e, db') => on_pass_dormant pass_a 20 demo_db = (Panic e, db')
  end.
Proof.
  intros BP. apply (dormant_freezes_energy (Laws := demo_laws));
    [apply demo_inv|apply wf_pass_a; unfold U32_MAX; lia|done|].
  intros h' v. unfold demo_db. cbn. rewrite lookup_insert_Some, lookup_empty.
  intros [[[= <-] _]|[_ ?]]; [lia|done].
Defined.

Lemma update_without_changes_is_query_witness :
  let BP := table_provider demo_rows in
  update_pass_energy pass_a 12 demo_db
    = (Ok (project_energy_record_no_balance_change demo_record 12), demo_db)
  ∧ get_pass_energy pass_a 12 demo_db
    = (Ok (Some (project_energy_record_no_balance_change demo_record 12)), demo_db).
Proof.
  intros BP. apply update_without_changes_is_query;
    [apply energy_inv_wf, demo_inv|apply wf_pass_a; unfold U32_MAX; lia|apply demo_latest; lia
    |reflexivity].
Defined.

Lemma apply_change_idempotent_witness :
  let db' := (apply_active_balance_change pass_a 1 13 300000 100000 demo_db).2 in
  apply_active_balance_change pass_a 1 13 300000 100000 db' = (Ok false, db')
  ∧ ∀ k, k ≠ (pass_a, 13) → pass_energy_cf db' !! k = pass_energy_cf demo_db !! k.
Proof.
  apply apply_change_idempotent;
    [apply energy_inv_wf, demo_inv|apply wf_pass_a; unfold U32_MAX; lia|vm_compute; reflexivity].
Defined.
