(* ===== verification/PassStorage.v ===== *)
(** * Pass store

    [usdb-indexer/src/storage/pass.rs], [MinerPassStorage]: the SQLite tables of the indexer, the
    constraints its schema enforces, every statement the indexer runs on them, and the savepoints
    that make one block atomic.

    A table keyed by a primary key is a finite map; the event log is a list of rows in insertion
    order with the [AUTOINCREMENT] counter.  Columns hold the decoded values: the text encodings of
    identifiers are parsed back by the crates that print them.  A statement that violates a
    constraint is an [Err] and changes nothing; other SQLite failures are outside the model.
    Where the code leaves the order of ties open ([ORDER BY mint_block_height] alone) the rows tie
    in the order of an arbitrary enumeration, on which no theorem depends. *)

From S2P Require Import Prelude Types.

(** ** Rows *)

(** Reply type of the balance-history service, [SnapshotInfo]. *)
Record BalanceHistorySnapshotInfo := {
  bs_stable_height : u32;
  bs_stable_block_hash : option string;
  bs_latest_block_commit : option string;
  bs_stable_lag : u32;
  bs_commit_protocol_version : string;
  bs_commit_hash_algo : string
}.

Record BalanceHistorySnapshotAnchor := {
  stable_height : u32;
  stable_block_hash : string;
  latest_block_commit : string;
  stable_lag : u32;
  commit_protocol_version : string;
  commit_hash_algo : string
}.

(** [StoredPassBlockCommitEntry], which has the fields of [PassBlockCommitEntry]. *)
Record StoredPassBlockCommitEntry := {
  pc_block_height : u32;
  pc_balance_history_block_height : u32;
  pc_balance_history_block_commit : string;
  pc_mutation_root : string;
  pc_block_commit : string;
  pc_commit_protocol_version : string;
  pc_commit_hash_algo : string
}.

Definition PASS_HISTORY_EVENT_MINT : string := "mint".
Definition PASS_HISTORY_EVENT_INVALID_MINT : string := "invalid_mint".
Definition PASS_HISTORY_EVENT_STATE_UPDATE : string := "state_update".
Definition PASS_HISTORY_EVENT_OWNER_TRANSFER : string := "owner_transfer".
Definition PASS_HISTORY_EVENT_SATPOINT_UPDATE : string := "satpoint_update".

(** A row of [miner_pass_state_history]. *)
Record PassHistoryRow := {
  h_id : Z;
  h_inscription_id : InscriptionId;
  h_block_height : u32;
  h_event_type : string;
  h_prev_state : option MinerPassState;
  h_new_state : MinerPassState;
  h_prev_owner : option USDBScriptHash;
  h_new_owner : USDBScriptHash;
  h_prev_satpoint : option SatPoint;
  h_new_satpoint : SatPoint
}.

(** What the history queries return of a row. *)
Record MinerPassHistoryInfo := {
  mh_event_id : Z;
  mh_inscription_id : InscriptionId;
  mh_block_height : u32;
  mh_event_type : string;
  mh_state : MinerPassState;
  mh_owner : USDBScriptHash;
  mh_satpoint : SatPoint
}.

Record MinerPassSnapshotInfo := { sn_pass : MinerPassInfo; sn_latest_event_height : u32 }.

Record MinerPassStateStats := {
  total_count : u64;
  active_count : u64;
  dormant_count : u64;
  consumed_count : u64;
  burned_count : u64;
  invalid_count : u64
}.

(** ** The database *)

Record Tables := {
  t_state : gmap string i64;
  t_state_text : gmap string string;
  t_passes : gmap InscriptionId MinerPassInfo;
  (* total_balance and active_address_count, as signed columns *)
  t_balances : gmap u32 (i64 * i64);
  t_history : list PassHistoryRow;
  t_history_seq : Z;
  t_commits : gmap u32 StoredPassBlockCommitEntry;
  t_anchors : gmap u32 BalanceHistorySnapshotAnchor
}.

Definition empty_tables : Tables :=
  {| t_state := ∅; t_state_text := ∅; t_passes := ∅; t_balances := ∅; t_history := [];
     t_history_seq := 0; t_commits := ∅; t_anchors := ∅ |}.

Definition with_state (f : gmap string i64 → gmap string i64) (t : Tables) : Tables :=
  {| t_state := f (t_state t); t_state_text := t_state_text t; t_passes := t_passes t;
     t_balances := t_balances t; t_history := t_history t; t_history_seq := t_history_seq t;
     t_commits := t_commits t; t_anchors := t_anchors t |}.
Definition with_state_text (f : gmap string string → gmap string string) (t : Tables) : Tables :=
  {| t_state := t_state t; t_state_text := f (t_state_text t); t_passes := t_passes t;
     t_balances := t_balances t; t_history := t_history t; t_history_seq := t_history_seq t;
     t_commits := t_commits t; t_anchors := t_anchors t |}.
Definition with_passes (f : gmap InscriptionId MinerPassInfo → gmap InscriptionId MinerPassInfo)
    (t : Tables) : Tables :=
  {| t_state := t_state t; t_state_text := t_state_text t; t_passes := f (t_passes t);
     t_balances := t_balances t; t_history := t_history t; t_history_seq := t_history_seq t;
     t_commits := t_commits t; t_anchors := t_anchors t |}.
Definition with_balances (f : gmap u32 (i64 * i64) → gmap u32 (i64 * i64)) (t : Tables) : Tables :=
  {| t_state := t_state t; t_state_text := t_state_text t; t_passes := t_passes t;
     t_balances := f (t_balances t); t_history := t_history t; t_history_seq := t_history_seq t;
     t_commits := t_commits t; t_anchors := t_anchors t |}.
Definition with_history (f : list PassHistoryRow → list PassHistoryRow) (seq : Z) (t : Tables) :
    Tables :=
  {| t_state := t_state t; t_state_text := t_state_text t; t_passes := t_passes t;
     t_balances := t_balances t; t_history := f (t_history t); t_history_seq := seq;
     t_commits := t_commits t; t_anchors := t_anchors t |}.
Definition with_commits
    (f : gmap u32 StoredPassBlockCommitEntry → gmap u32 StoredPassBlockCommitEntry) (t : Tables) :
    Tables :=
  {| t_state := t_state t; t_state_text := t_state_text t; t_passes := t_passes t;
     t_balances := t_balances t; t_history := t_history t; t_history_seq := t_history_seq t;
     t_commits := f (t_commits t); t_anchors := t_anchors t |}.
Definition with_anchors
    (f : gmap u32 BalanceHistorySnapshotAnchor → gmap u32 BalanceHistorySnapshotAnchor)
    (t : Tables) : Tables :=
  {| t_state := t_state t; t_state_text := t_state_text t; t_passes := t_passes t;
     t_balances := t_balances t; t_history := t_history t; t_history_seq := t_history_seq t;
     t_commits := t_commits t; t_anchors := f (t_anchors t) |}.

(** A connection: the tables and the stack of open savepoints, innermost first. *)
Record PassDb := { tables : Tables; savepoints : list Tables }.

Definition empty_pass_db : PassDb := {| tables := empty_tables; savepoints := [] |}.
Definition set_tables (t : Tables) (db : PassDb) : PassDb :=
  {| tables := t; savepoints := savepoints db |}.

(** A statement runs on the tables of the connection. *)
Definition on_tables {A} (m : M Tables A) : M PassDb A := zoom tables set_tables m.

(** [conn.transaction()]: [BEGIN] is refused inside a savepoint, and dropping the transaction
    without [commit] rolls it back. *)
Definition transaction {A} (m : M Tables A) : M PassDb A :=
  λ db, match savepoints db with
        | _ :: _ => (Err "cannot start a transaction within a transaction", db)
        | [] => match m (tables db) with
                | (Ok a, t) => (Ok a, set_tables t db)
                | (Err e, _) => (Err e, db)
                | (Panic e, _) => (Panic e, db)
                end
        end.

(** ** Savepoints *)

Definition savepoint_begin : M PassDb unit :=
  modify (λ db, {| tables := tables db; savepoints := tables db :: savepoints db |}).
Definition savepoint_commit : M PassDb unit := λ db,
  match savepoints db with
  | [] => (Err "no such savepoint: miner_pass_ops", db)
  | _ :: sps => (Ok tt, {| tables := tables db; savepoints := sps |})
  end.
(** [ROLLBACK TO SAVEPOINT] restores the tables and keeps the savepoint open. *)
Definition savepoint_rollback : M PassDb unit := λ db,
  match savepoints db with
  | [] => (Err "no such savepoint: miner_pass_ops", db)
  | t :: sps => (Ok tt, {| tables := t; savepoints := t :: sps |})
  end.

(** [Drop] of an uncommitted guard; its errors are logged and swallowed. *)
Definition savepoint_guard_drop : M PassDb unit :=
  let! rolled := try savepoint_rollback in
  match rolled with
  | inl _ => let! _ := try savepoint_commit in ret tt
  | inr _ => ret tt
  end.

(** ** Key-value state *)

Definition BTC_SYNCED_BLOCK_HEIGHT_KEY : string := "btc_synced_block_height".
Definition BALANCE_HISTORY_SNAPSHOT_HEIGHT_KEY : string := "balance_history_snapshot_height".
Definition BALANCE_HISTORY_SNAPSHOT_BLOCK_HASH_KEY : string :=
  "balance_history_snapshot_block_hash".
Definition BALANCE_HISTORY_SNAPSHOT_BLOCK_COMMIT_KEY : string :=
  "balance_history_snapshot_block_commit".
Definition BALANCE_HISTORY_SNAPSHOT_STABLE_LAG_KEY : string :=
  "balance_history_snapshot_stable_lag".
Definition BALANCE_HISTORY_SNAPSHOT_COMMIT_PROTOCOL_VERSION_KEY : string :=
  "balance_history_snapshot_commit_protocol_version".
Definition BALANCE_HISTORY_SNAPSHOT_COMMIT_HASH_ALGO_KEY : string :=
  "balance_history_snapshot_commit_hash_algo".
Definition UPSTREAM_REORG_RECOVERY_PENDING_HEIGHT_KEY : string :=
  "upstream_reorg_recovery_pending_height".

Definition upsert_numeric_state_with_conn (name : string) (value : i64) : M Tables unit :=
  modify (with_state (λ m, <[name := value]> m)).
Definition delete_numeric_state_with_conn (name : string) : M Tables unit :=
  modify (with_state (λ m, delete name m)).
Definition upsert_text_state_with_conn (name value : string) : M Tables unit :=
  modify (with_state_text (λ m, <[name := value]> m)).
Definition delete_text_state_with_conn (name : string) : M Tables unit :=
  modify (with_state_text (λ m, delete name m)).
Definition get_numeric_state (name : string) : M Tables (option i64) :=
  gets (λ t, t_state t !! name).
Definition get_text_state (name : string) : M Tables (option string) :=
  gets (λ t, t_state_text t !! name).

Definition update_synced_btc_block_height (height : u32) : M Tables unit :=
  upsert_numeric_state_with_conn BTC_SYNCED_BLOCK_HEIGHT_KEY height.
Definition get_synced_btc_block_height : M Tables (option u32) :=
  let! height := get_numeric_state BTC_SYNCED_BLOCK_HEIGHT_KEY in
  ret (i64_as_u32 <$> height).

(** ** The upstream snapshot anchor *)

Definition upsert_balance_history_snapshot_history_with_conn (block_height : u32)
    (block_hash block_commit : string) (lag : u32) (version algo : string) : M Tables unit :=
  modify (with_anchors (λ m, <[block_height :=
    {| stable_height := block_height; stable_block_hash := block_hash;
       latest_block_commit := block_commit; stable_lag := lag;
       commit_protocol_version := version; commit_hash_algo := algo |}]> m)).

Definition upsert_balance_history_snapshot_history_entry (snapshot : BalanceHistorySnapshotInfo) :
    M Tables unit :=
  let! block_hash := lift (ok_or "Balance-history snapshot missing stable block hash"
                             (bs_stable_block_hash snapshot)) in
  let! block_commit := lift (ok_or "Balance-history snapshot missing latest block commit"
                               (bs_latest_block_commit snapshot)) in
  upsert_balance_history_snapshot_history_with_conn (bs_stable_height snapshot) block_hash
    block_commit (bs_stable_lag snapshot) (bs_commit_protocol_version snapshot)
    (bs_commit_hash_algo snapshot).

Definition upsert_balance_history_snapshot_anchor_with_conn
    (snapshot : BalanceHistorySnapshotInfo) : M Tables unit :=
  let! block_hash := lift (ok_or "Balance-history snapshot missing stable block hash"
                             (bs_stable_block_hash snapshot)) in
  let! block_commit := lift (ok_or "Balance-history snapshot missing latest block commit"
                               (bs_latest_block_commit snapshot)) in
  let! _ := upsert_numeric_state_with_conn BTC_SYNCED_BLOCK_HEIGHT_KEY
              (bs_stable_height snapshot) in
  let! _ := upsert_text_state_with_conn BALANCE_HISTORY_SNAPSHOT_BLOCK_HASH_KEY block_hash in
  let! _ := upsert_text_state_with_conn BALANCE_HISTORY_SNAPSHOT_BLOCK_COMMIT_KEY block_commit in
  let! _ := upsert_numeric_state_with_conn BALANCE_HISTORY_SNAPSHOT_STABLE_LAG_KEY
              (bs_stable_lag snapshot) in
  let! _ := upsert_text_state_with_conn BALANCE_HISTORY_SNAPSHOT_COMMIT_PROTOCOL_VERSION_KEY
              (bs_commit_protocol_version snapshot) in
  let! _ := upsert_text_state_with_conn BALANCE_HISTORY_SNAPSHOT_COMMIT_HASH_ALGO_KEY
              (bs_commit_hash_algo snapshot) in
  let! _ := upsert_numeric_state_with_conn BALANCE_HISTORY_SNAPSHOT_HEIGHT_KEY
              (bs_stable_height snapshot) in
  upsert_balance_history_snapshot_history_with_conn (bs_stable_height snapshot) block_hash
    block_commit (bs_stable_lag snapshot) (bs_commit_protocol_version snapshot)
    (bs_commit_hash_algo snapshot).

Definition upsert_balance_history_snapshot_anchor (snapshot : BalanceHistorySnapshotInfo) :
    M PassDb unit :=
  transaction (upsert_balance_history_snapshot_anchor_with_conn snapshot).

Definition clear_balance_history_snapshot_anchor_with_conn : M Tables unit :=
  let! _ := delete_numeric_state_with_conn BALANCE_HISTORY_SNAPSHOT_HEIGHT_KEY in
  let! _ := delete_text_state_with_conn BALANCE_HISTORY_SNAPSHOT_BLOCK_HASH_KEY in
  let! _ := delete_text_state_with_conn BALANCE_HISTORY_SNAPSHOT_BLOCK_COMMIT_KEY in
  let! _ := delete_numeric_state_with_conn BALANCE_HISTORY_SNAPSHOT_STABLE_LAG_KEY in
  let! _ := delete_text_state_with_conn BALANCE_HISTORY_SNAPSHOT_COMMIT_PROTOCOL_VERSION_KEY in
  delete_text_state_with_conn BALANCE_HISTORY_SNAPSHOT_COMMIT_HASH_ALGO_KEY.

Definition clear_balance_history_snapshot_anchor : M PassDb unit :=
  transaction clear_balance_history_snapshot_anchor_with_conn.

Definition get_balance_history_snapshot_anchor : M Tables (option BalanceHistorySnapshotAnchor) :=
  let! height := get_numeric_state BALANCE_HISTORY_SNAPSHOT_HEIGHT_KEY in
  match height with
  | None => ret None
  | Some height =>
      if height <? 0 then fail "Invalid negative balance-history snapshot height"
      else
        let! o := get_text_state BALANCE_HISTORY_SNAPSHOT_BLOCK_HASH_KEY in
        let! block_hash := lift (ok_or "Missing balance-history snapshot block hash" o) in
        let! o := get_text_state BALANCE_HISTORY_SNAPSHOT_BLOCK_COMMIT_KEY in
        let! block_commit := lift (ok_or "Missing balance-history snapshot block commit" o) in
        let! o := get_numeric_state BALANCE_HISTORY_SNAPSHOT_STABLE_LAG_KEY in
        let! lag := lift (ok_or "Missing balance-history snapshot stable lag" o) in
        if lag <? 0 then fail "Invalid negative balance-history snapshot stable lag"
        else
          let! o := get_text_state BALANCE_HISTORY_SNAPSHOT_COMMIT_PROTOCOL_VERSION_KEY in
          let! version :=
            lift (ok_or "Missing balance-history snapshot commit protocol version" o) in
          let! o := get_text_state BALANCE_HISTORY_SNAPSHOT_COMMIT_HASH_ALGO_KEY in
          let! algo := lift (ok_or "Missing balance-history snapshot commit hash algorithm" o) in
          ret (Some {| stable_height := i64_as_u32 height; stable_block_hash := block_hash;
                       latest_block_commit := block_commit; stable_lag := i64_as_u32 lag;
                       commit_protocol_version := version; commit_hash_algo := algo |})
  end.

Definition get_balance_history_snapshot_anchor_at_height (block_height : u32) :
    M Tables (option BalanceHistorySnapshotAnchor) :=
  gets (λ t, t_anchors t !! block_height).

(** ** The reorg-recovery marker *)

Definition get_upstream_reorg_recovery_pending_height : M Tables (option u32) :=
  let! value := get_numeric_state UPSTREAM_REORG_RECOVERY_PENDING_HEIGHT_KEY in
  match value with
  | None => ret None
  | Some value =>
      if value <? 0 then fail "Invalid negative upstream reorg recovery pending height"
      else ret (Some (i64_as_u32 value))
  end.
Definition clear_upstream_reorg_recovery_pending_height : M Tables unit :=
  delete_numeric_state_with_conn UPSTREAM_REORG_RECOVERY_PENDING_HEIGHT_KEY.
Definition mark_upstream_reorg_recovery_pending_with_conn (target_height : u32) : M Tables unit :=
  upsert_numeric_state_with_conn UPSTREAM_REORG_RECOVERY_PENDING_HEIGHT_KEY target_height.

(** ** The event log as of a height *)

(** [SELECT MAX(id) .. WHERE block_height <= h GROUP BY inscription_id] *)
Definition max_id (t : Tables) (h : u32) (i : InscriptionId) : option Z :=
  list_max h_id (filter (λ r, h_inscription_id r = i ∧ h_block_height r <= h) (t_history t)).
(** [.. history h INNER JOIN latest l ON h.id = l.max_id] *)
Definition latest_rows (t : Tables) (h : u32) : list PassHistoryRow :=
  filter (λ r, h_block_height r <= h ∧ max_id t h (h_inscription_id r) = Some (h_id r))
    (t_history t).
Definition latest_row (t : Tables) (h : u32) (i : InscriptionId) : option PassHistoryRow :=
  head (filter (λ r, h_inscription_id r = i) (latest_rows t h)).

(** The columns of a pass as of a row of the log. *)
Definition pass_at_row (p : MinerPassInfo) (r : PassHistoryRow) : MinerPassInfo :=
  set_state (h_new_state r) (set_owner_satpoint (h_new_owner r) (h_new_satpoint r) p).

(** ** Constraints of [miner_passes] *)

(** The partial unique index on [(owner) WHERE state = 'active']. *)
Definition active_conflict (m : gmap InscriptionId MinerPassInfo) (i : InscriptionId)
    (p : MinerPassInfo) : bool :=
  bool_decide (state p = Active)
  && existsb (λ kv : InscriptionId * MinerPassInfo,
       negb (bool_decide (kv.1 = i)) && bool_decide (state kv.2 = Active)
       && (owner kv.2 =? owner p)) (map_to_list m).

Definition write_pass_row (i : InscriptionId) (p : MinerPassInfo) : M Tables unit :=
  λ t, if active_conflict (t_passes t) i p
       then (Err "UNIQUE constraint failed: miner_passes.owner", t)
       else (Ok tt, with_passes (λ m, <[i := p]> m) t).

(** [INSERT .. SELECT] into the emptied table, in one statement. *)
Definition no_active_conflict (m : gmap InscriptionId MinerPassInfo) : bool :=
  forallb (λ kv : InscriptionId * MinerPassInfo, negb (active_conflict m kv.1 kv.2)) (map_to_list m).

(** ** Rollback *)

Definition surviving_pass_count (t : Tables) (target_height : u32) : Z :=
  Z.of_nat (size (filter (λ kv : InscriptionId * MinerPassInfo, mint_block_height kv.2 <= target_height)
                    (t_passes t))).
(** The temporary table [rollback_surviving_passes]. *)
Definition rollback_surviving_passes (t : Tables) (target_height : u32) :
    gmap InscriptionId MinerPassInfo :=
  map_imap (λ i p, if mint_block_height p <=? target_height
                   then pass_at_row p <$> latest_row t target_height i else None) (t_passes t).

Definition restore_passes (target_height : u32) : M Tables unit := λ t,
  let surviving := surviving_pass_count t target_height in
  let rebuilt := rollback_surviving_passes t target_height in
  if (surviving >? 0) && negb (Z.of_nat (size rebuilt) =? surviving)
  then (Err "Rollback pass rebuild mismatch at target height", t)
  else
    let t1 :=
      with_passes (λ _, if surviving >? 0 then rebuilt else ∅)
        (with_anchors (filter (λ kv, kv.1 <= target_height))
           (with_balances (filter (λ kv, kv.1 <= target_height))
              (with_commits (filter (λ kv, kv.1 <= target_height))
                 (with_history (filter (λ r, h_block_height r <= target_height))
                    (t_history_seq t) t)))) in
    if negb (no_active_conflict (t_passes t1))
    then (Err "Failed to restore miner pass current state during rollback", t)
    else (Ok tt, t1).

Definition rollback_with_conn (target_height : u32)
    (target_anchor : option BalanceHistorySnapshotInfo)
    (mark_upstream_reorg_recovery_pending : bool) : M Tables unit :=
  let! _ := restore_passes target_height in
  let! _ := clear_balance_history_snapshot_anchor_with_conn in
  let! _ := match target_anchor with
            | Some anchor => upsert_balance_history_snapshot_anchor_with_conn anchor
            | None => upsert_numeric_state_with_conn BTC_SYNCED_BLOCK_HEIGHT_KEY target_height
            end in
  if mark_upstream_reorg_recovery_pending
  then mark_upstream_reorg_recovery_pending_with_conn target_height
  else delete_numeric_state_with_conn UPSTREAM_REORG_RECOVERY_PENDING_HEIGHT_KEY.

Definition rollback_to_block_height_internal (target_height : u32)
    (target_anchor : option BalanceHistorySnapshotInfo)
    (mark_upstream_reorg_recovery_pending : bool) : M PassDb unit :=
  if (match target_anchor with
      | Some anchor => negb (bs_stable_height anchor =? target_height)
      | None => false
      end)
  then fail "Rollback target anchor height mismatch"
  else transaction
         (rollback_with_conn target_height target_anchor mark_upstream_reorg_recovery_pending).

Definition rollback_to_block_height (target_height : u32)
    (target_anchor : option BalanceHistorySnapshotInfo) : M PassDb unit :=
  rollback_to_block_height_internal target_height target_anchor false.
Definition rollback_to_block_height_with_upstream_reorg_recovery_pending (target_height : u32)
    (target_anchor : option BalanceHistorySnapshotInfo) : M PassDb unit :=
  rollback_to_block_height_internal target_height target_anchor true.

(** ** Snapshot-history coverage *)

(** The loop over the stored heights of the range, in increasing order. *)
Fixpoint first_missing_scan (end_height : u32) (rows : list u32) (expected_height : u32) :
    option u32 :=
  match rows with
  | [] => if expected_height <=? end_height then Some expected_height else None
  | stored_height :: rows =>
      if stored_height >? expected_height then Some expected_height
      else if stored_height =? expected_height then
        let expected_height := u32_saturating_add expected_height 1 in
        if expected_height >? end_height then None
        else first_missing_scan end_height rows expected_height
      else first_missing_scan end_height rows expected_height
  end.

Definition get_first_missing_balance_history_snapshot_history_height
    (start_height end_height : u32) : M Tables (option u32) :=
  if start_height >? end_height then ret None
  else gets (λ t,
    first_missing_scan end_height
      (order_by (λ h, [h]) false
         (filter (λ h, start_height <= h <= end_height) (map_to_list (t_anchors t)).*1))
      start_height).

(** ** Pass block commits *)

Definition upsert_pass_block_commit (entry : StoredPassBlockCommitEntry) : M Tables unit :=
  modify (with_commits (λ m, <[pc_block_height entry := entry]> m)).
Definition get_pass_block_commit (block_height : u32) :
    M Tables (option StoredPassBlockCommitEntry) :=
  gets (λ t, t_commits t !! block_height).
Definition get_latest_pass_block_commit_at_or_before (block_height : u32) :
    M Tables (option StoredPassBlockCommitEntry) :=
  gets (λ t, snd <$> head (order_by (λ kv, [kv.1]) true
    (filter (λ kv : u32 * StoredPassBlockCommitEntry, kv.1 <= block_height)
       (map_to_list (t_commits t))))).

(** ** Consistency checks *)

(** [SELECT .. WHERE height > h LIMIT 1] finds a row. *)
Definition any_after {A} (height : A → u32) (block_height : u32) (rows : list A) : bool :=
  existsb (λ r, height r >? block_height) rows.

Definition assert_no_data_after_block_height (block_height : u32) : M Tables unit :=
  let! synced_height := get_numeric_state BTC_SYNCED_BLOCK_HEIGHT_KEY in
  let! _ := match synced_height with
            | Some synced_height =>
                if synced_height <? 0 then fail "Invalid negative synced block height"
                else if i64_as_u32 synced_height >? block_height
                     then fail "Future synced height detected" else ret tt
            | None => ret tt
            end in
  let! t := gets id in
  if any_after (λ kv, mint_block_height kv.2) block_height (map_to_list (t_passes t)) then
    fail "Future miner pass data exists"
  else if any_after fst block_height (map_to_list (t_balances t)) then
    fail "Future active balance snapshot exists"
  else if any_after h_block_height block_height (t_history t) then
    fail "Future miner pass history exists"
  else if any_after fst block_height (map_to_list (t_commits t)) then
    fail "Future pass block commit exists"
  else
    let! anchor_height := get_numeric_state BALANCE_HISTORY_SNAPSHOT_HEIGHT_KEY in
    let! _ := match anchor_height with
              | Some anchor_height =>
                  if anchor_height <? 0 then
                    fail "Invalid negative balance-history snapshot anchor height"
                  else if i64_as_u32 anchor_height >? block_height
                       then fail "Future balance-history snapshot anchor exists" else ret tt
              | None => ret tt
              end in
    if any_after fst block_height (map_to_list (t_anchors t)) then
      fail "Future balance-history snapshot history exists"
    else ret tt.

(** ** Active balance snapshots *)

Definition row_to_active_balance_snapshot (kv : u32 * (i64 * i64)) : result ActiveBalanceSnapshot :=
  if (kv.1 <? 0) || (kv.2.1 <? 0) || (kv.2.2 <? 0) then
    Err "Invalid negative field in active balance snapshot row"
  else Ok {| abs_block_height := i64_as_u32 kv.1; total_balance := i64_as_u64 kv.2.1;
             active_address_count := i64_as_u32 kv.2.2 |}.

Definition upsert_active_balance_snapshot (block_height : u32) (balance : u64) (address_count : u32) :
    M Tables unit :=
  modify (with_balances (λ m, <[block_height := (u64_as_i64 balance, address_count)]> m)).

Definition get_active_balance_snapshot (block_height : u32) :
    M Tables (option ActiveBalanceSnapshot) :=
  let! row := gets (λ t, t_balances t !! block_height) in
  match row with
  | Some row => let! item := lift (row_to_active_balance_snapshot (block_height, row)) in
                ret (Some item)
  | None => ret None
  end.

Definition get_latest_active_balance_snapshot : M Tables (option ActiveBalanceSnapshot) :=
  let! row := gets (λ t, head (order_by (λ kv, [kv.1]) true (map_to_list (t_balances t)))) in
  match row with
  | Some row => let! item := lift (row_to_active_balance_snapshot row) in ret (Some item)
  | None => ret None
  end.

Definition clear_active_balance_snapshots_from_height (from_block_height : u32) : M Tables Z :=
  let! affected := gets (λ t, Z.of_nat (size (filter
    (λ kv : u32 * (i64 * i64), from_block_height <= kv.1) (t_balances t)))) in
  let! _ := modify (with_balances (filter (λ kv, kv.1 < from_block_height))) in
  ret affected.

Definition assert_balance_snapshot_consistency (synced_height genesis_block_height : u32) :
    M Tables unit :=
  let! latest_snapshot := get_latest_active_balance_snapshot in
  if synced_height <? genesis_block_height then
    match latest_snapshot with
    | Some _ => fail "Unexpected balance snapshot before genesis"
    | None => ret tt
    end
  else
    let! snapshot := lift (ok_or "Missing balance snapshot at synced height" latest_snapshot) in
    if negb (abs_block_height snapshot =? synced_height)
    then fail "Balance snapshot height mismatch"
    else ret tt.

(** ** Pass rows and their events *)

Definition insert_pass_record (pass_info : MinerPassInfo) : M Tables unit := λ t,
  match t_passes t !! inscription_id pass_info with
  | Some _ => (Err "UNIQUE constraint failed: miner_passes.inscription_id", t)
  | None => write_pass_row (inscription_id pass_info) pass_info t
  end.

Definition append_pass_history_event (i : InscriptionId) (block_height : u32) (event_type : string)
    (prev_state : option MinerPassState) (new_state : MinerPassState)
    (prev_owner : option USDBScriptHash) (new_owner : USDBScriptHash)
    (prev_satpoint : option SatPoint) (new_satpoint : SatPoint) : M Tables unit := λ t,
  let row_id := t_history_seq t + 1 in
  (Ok tt, with_history (λ rows, rows ++
     [{| h_id := row_id; h_inscription_id := i; h_block_height := block_height;
         h_event_type := event_type; h_prev_state := prev_state; h_new_state := new_state;
         h_prev_owner := prev_owner; h_new_owner := new_owner;
         h_prev_satpoint := prev_satpoint; h_new_satpoint := new_satpoint |}]) row_id t).

Definition add_new_mint_pass (pass_info : MinerPassInfo) : M Tables unit :=
  let! _ := assert (bool_decide (state pass_info = Active))
              "Newly minted pass must be in Active state" in
  let! _ := assert (owner pass_info =? mint_owner pass_info)
              "Newly minted pass owner must be the mint owner" in
  let! _ := assert (bool_decide (invalid_code pass_info = None)
                    && bool_decide (invalid_reason pass_info = None))
              "Active mint pass should not carry invalid reason metadata" in
  insert_pass_record pass_info.

Definition add_new_mint_pass_at_height (pass_info : MinerPassInfo) (block_height : u32) :
    M Tables unit :=
  let! _ := add_new_mint_pass pass_info in
  append_pass_history_event (inscription_id pass_info) block_height PASS_HISTORY_EVENT_MINT
    None (state pass_info) None (owner pass_info) None (satpoint pass_info).

Definition add_invalid_mint_pass (pass_info : MinerPassInfo) : M Tables unit :=
  let! _ := assert (bool_decide (state pass_info = Invalid))
              "Invalid mint pass must be in Invalid state" in
  let! _ := assert (owner pass_info =? mint_owner pass_info)
              "Invalid mint pass owner must be the mint owner" in
  let! _ := assert (bool_decide (is_Some (invalid_code pass_info))
                    && bool_decide (is_Some (invalid_reason pass_info)))
              "Invalid mint pass must include invalid code and reason" in
  insert_pass_record pass_info.

Definition add_invalid_mint_pass_at_height (pass_info : MinerPassInfo) (block_height : u32) :
    M Tables unit :=
  let! _ := add_invalid_mint_pass pass_info in
  append_pass_history_event (inscription_id pass_info) block_height
    PASS_HISTORY_EVENT_INVALID_MINT
    None (state pass_info) None (owner pass_info) None (satpoint pass_info).

Definition get_pass_by_inscription_id (i : InscriptionId) : M Tables (option MinerPassInfo) :=
  gets (λ t, t_passes t !! i).

(** [UPDATE miner_passes SET .. WHERE inscription_id = i AND cond]; no matching row is an error. *)
Definition update_pass_row (i : InscriptionId) (cond : MinerPassInfo → bool)
    (f : MinerPassInfo → MinerPassInfo) (not_found : string) : M Tables unit := λ t,
  match t_passes t !! i with
  | Some p => if cond p then write_pass_row i (f p) t else (Err not_found, t)
  | None => (Err not_found, t)
  end.

Definition transfer_owner (i : InscriptionId) (new_owner : USDBScriptHash)
    (new_satpoint : SatPoint) : M Tables unit :=
  update_pass_row i (λ _, true) (set_owner_satpoint new_owner new_satpoint)
    "No miner pass found to transfer ownership".

Definition transfer_owner_at_height (i : InscriptionId) (new_owner : USDBScriptHash)
    (new_satpoint : SatPoint) (block_height : u32) : M Tables unit :=
  let! found := get_pass_by_inscription_id i in
  let! current := lift (ok_or "Miner pass not found before transfer history append" found) in
  let! _ := transfer_owner i new_owner new_satpoint in
  append_pass_history_event i block_height PASS_HISTORY_EVENT_OWNER_TRANSFER
    (Some (state current)) (state current) (Some (owner current)) new_owner
    (Some (satpoint current)) new_satpoint.

Definition update_satpoint (i : InscriptionId) (prev_satpoint new_satpoint : SatPoint) :
    M Tables unit :=
  update_pass_row i (λ p, bool_decide (satpoint p = prev_satpoint)) (set_satpoint new_satpoint)
    "No miner pass found to update to new satpoint".

Definition update_satpoint_at_height (i : InscriptionId) (prev_satpoint new_satpoint : SatPoint)
    (block_height : u32) : M Tables unit :=
  let! found := get_pass_by_inscription_id i in
  let! current := lift (ok_or "Miner pass not found before satpoint history append" found) in
  let! _ := update_satpoint i prev_satpoint new_satpoint in
  append_pass_history_event i block_height PASS_HISTORY_EVENT_SATPOINT_UPDATE
    (Some (state current)) (state current) (Some (owner current)) (owner current)
    (Some (satpoint current)) new_satpoint.

Definition update_state (i : InscriptionId) (new_state prev_state : MinerPassState) :
    M Tables unit :=
  update_pass_row i (λ p, bool_decide (state p = prev_state)) (set_state new_state)
    "No miner pass found to update to new state".

Definition update_state_at_height (i : InscriptionId) (new_state prev_state : MinerPassState)
    (block_height : u32) : M Tables unit :=
  let! found := get_pass_by_inscription_id i in
  let! current := lift (ok_or "Miner pass not found before state history append" found) in
  let! _ := update_state i new_state prev_state in
  append_pass_history_event i block_height PASS_HISTORY_EVENT_STATE_UPDATE
    (Some (state current)) new_state (Some (owner current)) (owner current)
    (Some (satpoint current)) (satpoint current).

(** ** Queries on the current table *)

Definition pass_rows (t : Tables) : list MinerPassInfo := (map_to_list (t_passes t)).*2.

Definition get_last_active_mint_pass_by_owner (o : USDBScriptHash) :
    M Tables (option MinerPassInfo) :=
  gets (λ t, head (order_by (λ p, [mint_block_height p]) true
    (filter (λ p, owner p = o ∧ state p = Active) (pass_rows t)))).

Definition get_all_valid_pass_by_page (page page_size : Z) : M Tables (list ValidMinerPassInfo) :=
  gets (λ t, (λ p, {| vp_inscription_id := inscription_id p; vp_owner := owner p;
                      vp_satpoint := satpoint p |})
    <$> sql_page page page_size (order_by (λ p, [mint_block_height p]) true
          (filter (λ p, state p ≠ Consumed ∧ state p ≠ Invalid) (pass_rows t)))).

Definition active_info (i : InscriptionId) (o : USDBScriptHash) : ActiveMinerPassInfo :=
  {| ap_inscription_id := i; ap_owner := o |}.

Definition get_all_active_pass_by_page_at_height (page page_size : Z) (block_height : u32) :
    M Tables (list ActiveMinerPassInfo) :=
  gets (λ t, (λ p, active_info (inscription_id p) (owner p))
    <$> sql_page page page_size (order_by (λ p, [mint_block_height p]) true
          (filter (λ p, state p = Active ∧ mint_block_height p <= block_height) (pass_rows t)))).
Definition get_all_active_pass_by_page (page page_size : Z) :
    M Tables (list ActiveMinerPassInfo) :=
  get_all_active_pass_by_page_at_height page page_size U32_MAX.

Definition invalid_in_range (from_height to_height : u32) (error_code : option string)
    (p : MinerPassInfo) : bool :=
  bool_decide (state p = Invalid) && (from_height <=? mint_block_height p)
  && (mint_block_height p <=? to_height)
  && match error_code with
     | Some code => bool_decide (invalid_code p = Some code)
     | None => true
     end.
Definition get_invalid_pass_count_in_height_range (from_height to_height : u32)
    (error_code : option string) : M Tables u64 :=
  if from_height >? to_height then fail "Invalid invalid-pass height range"
  else gets (λ t, count (filter (λ p, invalid_in_range from_height to_height error_code p = true)
                           (pass_rows t))).
Definition get_invalid_passes_by_page_in_height_range (from_height to_height : u32)
    (error_code : option string) (page page_size : Z) : M Tables (list MinerPassInfo) :=
  if from_height >? to_height then fail "Invalid invalid-pass height range"
  else gets (λ t, sql_page page page_size
    (order_by (λ p, [mint_block_height p; inscription_number p]) true
       (filter (λ p, invalid_in_range from_height to_height error_code p = true) (pass_rows t)))).

(** ** Queries on the event log *)

Definition row_to_pass_history_item (r : PassHistoryRow) : MinerPassHistoryInfo :=
  {| mh_event_id := h_id r; mh_inscription_id := h_inscription_id r;
     mh_block_height := h_block_height r; mh_event_type := h_event_type r;
     mh_state := h_new_state r; mh_owner := h_new_owner r; mh_satpoint := h_new_satpoint r |}.

Definition row_order (r : PassHistoryRow) : list Z := [h_block_height r; h_id r].

Definition get_last_pass_history_at_or_before_height (i : InscriptionId) (block_height : u32) :
    M Tables (option MinerPassHistoryInfo) :=
  gets (λ t, row_to_pass_history_item <$> head (order_by row_order true
    (filter (λ r, h_inscription_id r = i ∧ h_block_height r <= block_height) (t_history t)))).

Definition history_in_range (i : InscriptionId) (from_height to_height : u32) (t : Tables) :
    list PassHistoryRow :=
  filter (λ r, h_inscription_id r = i ∧ from_height <= h_block_height r <= to_height) (t_history t).
Definition get_pass_history_by_page_in_height_range (i : InscriptionId)
    (from_height to_height : u32) (page page_size : Z) (desc : bool) :
    M Tables (list MinerPassHistoryInfo) :=
  if from_height >? to_height then fail "Invalid history height range"
  else gets (λ t, row_to_pass_history_item <$> sql_page page page_size
         (order_by row_order desc (history_in_range i from_height to_height t))).
Definition get_pass_history_count_in_height_range (i : InscriptionId)
    (from_height to_height : u32) : M Tables u64 :=
  if from_height >? to_height then fail "Invalid history height range"
  else gets (λ t, count (history_in_range i from_height to_height t)).

(** One group of [GROUP BY h.new_state]; an empty group yields no row. *)
Definition add_state_group (block_height : u32) (t : Tables) (stats : MinerPassStateStats)
    (st : MinerPassState) : result MinerPassStateStats :=
  let n := count (filter (λ r, h_new_state r = st) (latest_rows t block_height)) in
  if n =? 0 then Ok stats
  else if total_count stats + n >? U64_MAX then Err "Pass state stats total count overflow"
  else Ok
    {| total_count := total_count stats + n;
       active_count := if decide (st = Active) then n else active_count stats;
       dormant_count := if decide (st = Dormant) then n else dormant_count stats;
       consumed_count := if decide (st = Consumed) then n else consumed_count stats;
       burned_count := if decide (st = Burned) then n else burned_count stats;
       invalid_count := if decide (st = Invalid) then n else invalid_count stats |}.
Definition default_stats : MinerPassStateStats :=
  {| total_count := 0; active_count := 0; dormant_count := 0; consumed_count := 0;
     burned_count := 0; invalid_count := 0 |}.
Definition get_pass_state_stats_from_history_at_height (block_height : u32) :
    M Tables MinerPassStateStats := λ t,
  (foldl (λ acc st, let? stats := acc in add_state_group block_height t stats st)
     (Ok default_stats) [Active; Burned; Consumed; Dormant; Invalid], t).

Definition rows_with_states (states : list MinerPassState) (rows : list PassHistoryRow) :
    list PassHistoryRow := filter (λ r, h_new_state r ∈ states) rows.

Definition get_pass_count_from_history_at_height_by_states (block_height : u32)
    (states : list MinerPassState) : M Tables u64 :=
  if bool_decide (states = []) then ret 0
  else gets (λ t, count (rows_with_states states (latest_rows t block_height))).
Definition get_active_pass_count_from_history_at_height (block_height : u32) : M Tables u64 :=
  get_pass_count_from_history_at_height_by_states block_height [Active].

Definition row_active_info (r : PassHistoryRow) : ActiveMinerPassInfo :=
  active_info (h_inscription_id r) (h_new_owner r).

Definition get_passes_by_page_from_history_at_height_by_states (page page_size : Z)
    (block_height : u32) (states : list MinerPassState) : M Tables (list ActiveMinerPassInfo) :=
  if bool_decide (states = []) then ret []
  else gets (λ t, row_active_info <$> sql_page page page_size
         (order_by row_order true (rows_with_states states (latest_rows t block_height)))).
Definition get_all_active_pass_by_page_from_history_at_height (page page_size : Z)
    (block_height : u32) : M Tables (list ActiveMinerPassInfo) :=
  get_passes_by_page_from_history_at_height_by_states page page_size block_height [Active].

(** An empty list of states is no filter here. *)
Definition opt_states (states : list MinerPassState) (rows : list PassHistoryRow) :
    list PassHistoryRow :=
  if bool_decide (states = []) then rows else rows_with_states states rows.

Definition get_owner_pass_count_from_history_at_height_by_states (o : USDBScriptHash)
    (block_height : u32) (states : list MinerPassState) : M Tables u64 :=
  gets (λ t, count (opt_states states
    (filter (λ r, h_new_owner r = o) (latest_rows t block_height)))).

(** [.. INNER JOIN miner_passes m ON m.inscription_id = h.inscription_id] *)
Definition join_passes (t : Tables) (rows : list PassHistoryRow) :
    list (PassHistoryRow * MinerPassInfo) :=
  omap (λ r, (r,.) <$> t_passes t !! h_inscription_id r) rows.
Definition snapshot_info (rp : PassHistoryRow * MinerPassInfo) : MinerPassSnapshotInfo :=
  {| sn_pass := pass_at_row rp.2 rp.1; sn_latest_event_height := h_block_height rp.1 |}.

Definition get_owner_passes_by_page_from_history_at_height_by_states (o : USDBScriptHash)
    (block_height : u32) (states : list MinerPassState) (page page_size : Z) (desc : bool) :
    M Tables (list MinerPassSnapshotInfo) :=
  gets (λ t, snapshot_info <$> sql_page page page_size
    (order_by (λ rp, row_order rp.1) desc
       (join_passes t (opt_states states
          (filter (λ r, h_new_owner r = o) (latest_rows t block_height)))))).

Definition get_recent_pass_count_from_history_at_height_by_states (block_height : u32)
    (states : list MinerPassState) : M Tables u64 :=
  gets (λ t, count (join_passes t (opt_states states (latest_rows t block_height)))).
Definition get_recent_passes_by_page_from_history_at_height_by_states (block_height : u32)
    (states : list MinerPassState) (page page_size : Z) (desc : bool) :
    M Tables (list MinerPassSnapshotInfo) :=
  gets (λ t, snapshot_info <$> sql_page page page_size
    (order_by (λ rp, [mint_block_height rp.2; inscription_number rp.2; h_id rp.1]) desc
       (join_passes t (opt_states states (latest_rows t block_height))))).

Definition get_owner_active_pass_from_history_at_height (o : USDBScriptHash)
    (block_height : u32) : M Tables (option ActiveMinerPassInfo) :=
  let! results := gets (λ t, row_active_info <$> take 2 (order_by row_order true
    (filter (λ r, h_new_state r = Active ∧ h_new_owner r = o) (latest_rows t block_height)))) in
  if (1 <? length results)%nat then fail "Duplicate active owner detected in history snapshot"
  else ret (head results).

(** ** Opening the store *)

(** [init_db]: the tables are created if missing; a file with two active passes of one owner is
    refused before the unique index is made. *)
Definition init_db : M Tables unit := λ t,
  if no_active_conflict (t_passes t) then (Ok tt, t)
  else (Err "Duplicate active miner pass owners detected before enforcing unique constraint", t).

(** ** Properties of the checks and of the savepoints *)

Lemma any_after_false {A} (height : A → u32) h rows :
  any_after height h rows = false ↔ Forall (λ r, height r <= h) rows.
Proof.
  unfold any_after. induction rows as [|x l IH]; simpl; [by split|].
  rewrite orb_false_iff, Forall_cons, IH, Z.gtb_ltb, Z.ltb_ge. done.
Qed.

Lemma Forall_map_to_list {K A} `{Countable K} (P : K * A → Prop) (m : gmap K A) :
  Forall P (map_to_list m) ↔ ∀ k v, m !! k = Some v → P (k, v).
Proof.
  rewrite Forall_forall. split.
  - intros HP k v Hk. apply HP. by apply elem_of_map_to_list.
  - intros HP [k v] Hk%elem_of_map_to_list. by apply HP.
Qed.

(** A stored height column that passes its check: absent, or a number at or below [h]. *)
Definition marker_within (h : u32) (o : option i64) : Prop :=
  match o with Some v => 0 <= v ∧ i64_as_u32 v <= h | None => True end.

(** A routine that only checks: it passes exactly when [Q], and changes nothing. *)
Definition checks (m : M Tables unit) (t : Tables) (Q : Prop) : Prop :=
  (m t).2 = t ∧ ((m t).1 = Ok tt ↔ Q).

Lemma checks_bind m k t P Q :
  checks m t P → checks k t Q → checks (let! _ := m in k) t (P ∧ Q).
Proof.
  intros [H1 H2] [H3 H4]. unfold checks, bind. destruct (m t) as [[[]|e|e] t']; simpl in *; subst t';
    (split; [done|]); [tauto|split; [done|intros [HP _]; apply H2 in HP; done]..].
Qed.
Lemma checks_gets {A} (f : Tables → A) k t Q :
  checks (k (f t)) t Q → checks (let! x := gets f in k x) t Q.
Proof. done. Qed.
Lemma checks_none_after {A} (height : A → u32) h rows e m t Q :
  checks m t Q →
  checks (if any_after height h rows then fail e else m) t (Forall (λ r, height r <= h) rows ∧ Q).
Proof.
  intros [H1 H2]. unfold checks. rewrite <-any_after_false.
  destruct (any_after height h rows); cbn; [|tauto]. split; [done|]. split; [done|]. by intros [? _].
Qed.
Lemma checks_marker h (o : option i64) e1 e2 t :
  checks (match o with
          | Some v => if v <? 0 then fail e1
                      else if i64_as_u32 v >? h then fail e2 else ret tt
          | None => ret tt
          end) t (marker_within h o).
Proof.
  unfold checks. destruct o as [v|]; simpl; [|done].
  rewrite Z.gtb_ltb. destruct (v <? 0) eqn:E1; [|destruct (h <? _) eqn:E2];
    b2p; cbn; (split; [done|]); (split; [done|]); try done; lia.
Qed.
Lemma checks_ret t : checks (ret tt) t True.
Proof. done. Qed.

Lemma assert_no_data_spec h t :
  (assert_no_data_after_block_height h t).2 = t
  ∧ ((assert_no_data_after_block_height h t).1 = Ok tt ↔
     marker_within h (t_state t !! BTC_SYNCED_BLOCK_HEIGHT_KEY)
     ∧ (∀ i p, t_passes t !! i = Some p → mint_block_height p <= h)
     ∧ (∀ k v, t_balances t !! k = Some v → k <= h)
     ∧ Forall (λ r, h_block_height r <= h) (t_history t)
     ∧ (∀ k v, t_commits t !! k = Some v → k <= h)
     ∧ marker_within h (t_state t !! BALANCE_HISTORY_SNAPSHOT_HEIGHT_KEY)
     ∧ (∀ k v, t_anchors t !! k = Some v → k <= h)).
Proof.
  eassert (checks (assert_no_data_after_block_height h) t _) as [H1 H2].
  { unfold assert_no_data_after_block_height.
    eapply (checks_gets (λ t, t_state t !! _)), checks_bind; [apply checks_marker|].
    eapply (checks_gets id). cbv beta delta [id]. do 4 eapply checks_none_after.
    eapply (checks_gets (λ t, t_state t !! _)), checks_bind; [apply checks_marker|].
    eapply checks_none_after, checks_ret. }
  split; [exact H1|]. etransitivity; [exact H2|].
  rewrite !Forall_map_to_list. cbn. tauto.
Qed.

Lemma assert_no_data_reads h t : (assert_no_data_after_block_height h t).2 = t.
Proof. apply assert_no_data_spec. Qed.

(** The defensive check before reading or syncing at a height passes exactly when no synced
    marker, pass, balance snapshot, event, commit, adopted anchor or anchor row lies above the
    height; and it never changes the store. *)
Theorem assert_no_data_after_correct h t :
  (assert_no_data_after_block_height h t).2 = t
  ∧ ((assert_no_data_after_block_height h t).1 = Ok tt ↔
     marker_within h (t_state t !! BTC_SYNCED_BLOCK_HEIGHT_KEY)
     ∧ (∀ i p, t_passes t !! i = Some p → mint_block_height p <= h)
     ∧ (∀ k v, t_balances t !! k = Some v → k <= h)
     ∧ Forall (λ r, h_block_height r <= h) (t_history t)
     ∧ (∀ k v, t_commits t !! k = Some v → k <= h)
     ∧ marker_within h (t_state t !! BALANCE_HISTORY_SNAPSHOT_HEIGHT_KEY)
     ∧ (∀ k v, t_anchors t !! k = Some v → k <= h)).
Proof. apply assert_no_data_spec. Qed.

(** A block that is abandoned leaves no trace: dropping the savepoint guard without committing
    restores the tables from before the block and closes the savepoint, whatever was written. *)
Theorem savepoint_guard_drop_restores db body r db' :
  preserves (λ d, savepoints d = tables db :: savepoints db) body →
  body (savepoint_begin db).2 = ((r : result unit), db') →
  savepoint_guard_drop db' = (Ok tt, db).
Proof.
  intros Hp Hb. specialize (Hp (savepoint_begin db).2 eq_refl). rewrite Hb in Hp. simpl in Hp.
  unfold savepoint_guard_drop, bind, try, savepoint_rollback, savepoint_commit. rewrite Hp. simpl.
  by destruct db.
Qed.

(** Statements on the tables keep the savepoint stack. *)
Lemma on_tables_savepoints {A} (m : M Tables A) sps :
  preserves (λ d, savepoints d = sps) (on_tables m).
Proof. apply preserves_zoom. intros s Hs. done. Qed.

(** The scan reports the first height of the range that is not among the sorted rows. *)
Lemma first_missing_scan_spec e rows x :
  StronglySorted Z.le rows → 0 <= x <= e → e < U32_MAX →
  match first_missing_scan e rows x with
  | Some m => x <= m <= e ∧ m ∉ rows ∧ ∀ k, x <= k < m → k ∈ rows
  | None => ∀ k, x <= k <= e → k ∈ rows
  end.
Proof.
  intros Hs. revert x. induction Hs as [|y rows Hs IH Hy]; intros x Hx He; simpl.
  - rewrite (proj2 (Z.leb_le _ _)) by lia. split; [lia|]. split; [by apply not_elem_of_nil|lia].
  - rewrite Forall_forall in Hy. rewrite Z.gtb_ltb. destruct (x <? y) eqn:E1; b2p.
    { split; [lia|]. split; [|lia]. rewrite not_elem_of_cons. split; [lia|].
      intros Hin. specialize (Hy _ Hin). lia. }
    destruct (y =? x) eqn:E2; b2p.
    + subst y. unfold u32_saturating_add. rewrite Z.min_r, Z.gtb_ltb by lia.
      destruct (e <? x + 1) eqn:E3; b2p.
      { intros k Hk. apply elem_of_cons. left. lia. }
      specialize (IH (x + 1)). destruct (first_missing_scan _ _ _) as [m|].
      * destruct IH as (? & Hm & Hk); [lia|lia|]. split; [lia|].
        rewrite not_elem_of_cons. split; [split; [lia|done]|].
        intros k Hk'. apply elem_of_cons. destruct (decide (k = x)); [by left|right; apply Hk; lia].
      * intros k Hk. apply elem_of_cons. destruct (decide (k = x)); [by left|right; apply IH; lia].
    + specialize (IH x Hx He). destruct (first_missing_scan _ _ _) as [m|].
      * destruct IH as (? & Hm & Hk). split; [lia|]. rewrite not_elem_of_cons.
        split; [split; [lia|done]|]. intros k Hk'. apply elem_of_cons. right. auto.
      * intros k Hk. apply elem_of_cons. right. auto.
Qed.

(** The coverage query answers with the first height of the range that has no anchor row, and with
    nothing exactly when the range is covered (below the last [u32] height, where the increment of
    the expected height saturates). *)
Theorem first_missing_anchor_correct s e t :
  0 <= s → e < U32_MAX →
  ∃ o, get_first_missing_balance_history_snapshot_history_height s e t = (Ok o, t)
    ∧ match o with
      | Some m => s <= m <= e ∧ t_anchors t !! m = None
                  ∧ ∀ k, s <= k < m → is_Some (t_anchors t !! k)
      | None => ∀ k, s <= k <= e → is_Some (t_anchors t !! k)
      end.
Proof.
  intros Hs He. unfold get_first_missing_balance_history_snapshot_history_height.
  rewrite Z.gtb_ltb. destruct (e <? s) eqn:E; b2p; [exists None; split; [done|lia]|].
  eexists. split; [reflexivity|].
  match goal with |- context [first_missing_scan e ?r s] => set (rows := r) end.
  assert (∀ k, s <= k <= e → k ∈ rows ↔ is_Some (t_anchors t !! k)) as Hin.
  { intros k Hk. unfold rows. rewrite elem_of_order_by, list_elem_of_filter, list_elem_of_fmap. split.
    - intros (_ & [k' v] & -> & Hv%elem_of_map_to_list). by eexists.
    - intros [v Hv]. split; [done|]. exists (k, v). split; [done|]. by apply elem_of_map_to_list. }
  assert (StronglySorted Z.le rows) as Hsort.
  { eapply StronglySorted_impl; [|apply order_by_sorted]. unfold key_le. simpl.
    intros a b. destruct (a <? b) eqn:E1, (b <? a) eqn:E2; b2p; try done; intros; lia. }
  pose proof (first_missing_scan_spec e rows s Hsort ltac:(lia) He) as H.
  destruct (first_missing_scan e rows s) as [m|].
  - destruct H as (Hm & Hn & Hk). split; [done|]. split.
    + apply eq_None_not_Some. intros Hv. by apply Hn, Hin.
    + intros k Hk'. apply Hin; [lia|auto].
  - intros k Hk. apply Hin; auto.
Qed.

(** ** Witnesses *)

Lemma savepoint_guard_drop_restores_witness :
  savepoint_guard_drop
    (on_tables (update_synced_btc_block_height 7) (savepoint_begin empty_pass_db).2).2
  = (Ok tt, empty_pass_db).
Proof.
  apply (savepoint_guard_drop_restores empty_pass_db (on_tables (update_synced_btc_block_height 7))
           (Ok tt)); [apply on_tables_savepoints|reflexivity].
Defined.

Definition demo_anchor (h : u32) : BalanceHistorySnapshotInfo :=
  {| bs_stable_height := h; bs_stable_block_hash := Some "hash"; bs_latest_block_commit := Some "commit";
     bs_stable_lag := 6; bs_commit_protocol_version := "1.0.0"; bs_commit_hash_algo := "sha256" |}.
Definition demo_anchors : Tables :=
  (for_each [demo_anchor 10; demo_anchor 12] upsert_balance_history_snapshot_history_entry
     empty_tables).2.

Example demo_first_missing :
  get_first_missing_balance_history_snapshot_history_height 10 12 demo_anchors
  = (Ok (Some 11), demo_anchors).
Proof. vm_compute. reflexivity. Qed.

Lemma first_missing_anchor_correct_witness :
  ∃ o, get_first_missing_balance_history_snapshot_history_height 10 12 demo_anchors
       = (Ok o, demo_anchors)
    ∧ match o with
      | Some m => 10 <= m <= 12 ∧ t_anchors demo_anchors !! m = None
                  ∧ ∀ k, 10 <= k < m → is_Some (t_anchors demo_anchors !! k)
      | None => ∀ k, 10 <= k <= 12 → is_Some (t_anchors demo_anchors !! k)
      end.
Proof. apply first_missing_anchor_correct; unfold U32_MAX; lia. Defined.
