(* ===== verification/PassLedger.v ===== *)
(** * The pass ledger

    What the pass store promises to the indexer: the event log is an append-only ledger of which
    [miner_passes] is the current view, an owner has at most one active pass at every height, and a
    rollback restores the store of the target height.  The abstract view of the log is [row_at],
    the last event of a pass at or below a height; the queries of [PassStorage] refine it. *)

From S2P Require Import Prelude Types PassStorage.

(** ** The log as of a height *)

Definition rows_of (t : Tables) (h : u32) (i : InscriptionId) : list PassHistoryRow :=
  filter (λ r, h_inscription_id r = i ∧ h_block_height r <= h) (t_history t).
(** The last event of a pass at or below a height. *)
Definition row_at (t : Tables) (h : u32) (i : InscriptionId) : option PassHistoryRow :=
  last (rows_of t h i).

(** Rows are appended with increasing identifiers, at heights that do not decrease. *)
Definition log_order (a b : PassHistoryRow) : Prop :=
  h_id a < h_id b ∧ h_block_height a <= h_block_height b.

(** The columns of a pass that no event changes. *)
Definition static (p : MinerPassInfo) : MinerPassInfo :=
  set_state Invalid (set_owner_satpoint 0
    {| outpoint := {| op_txid := 0; vout := 0 |}; offset := 0 |} p).

(** The store at height [h]: everything recorded so far is at or below [h]. *)
Record ledger_ok (h : u32) (t : Tables) : Prop := {
  lk_key : ∀ i p, t_passes t !! i = Some p → inscription_id p = i;
  lk_sorted : StronglySorted log_order (t_history t);
  lk_bound : Forall (λ r, h_id r <= t_history_seq t ∧ h_block_height r <= h) (t_history t);
  (* the current row of a pass is what its last event left *)
  lk_current : ∀ i p, t_passes t !! i = Some p → ∃ r, row_at t h i = Some r ∧ pass_at_row p r = p;
  (* an event belongs to a pass minted at or below it, and the mint is an event *)
  lk_event : ∀ r, r ∈ t_history t →
    ∃ p, t_passes t !! h_inscription_id r = Some p ∧ mint_block_height p <= h_block_height r;
  lk_mint : ∀ i p, t_passes t !! i = Some p →
    ∃ r, r ∈ t_history t ∧ h_inscription_id r = i ∧ h_block_height r = mint_block_height p;
  (* at every height an owner has at most one active pass *)
  lk_unique : ∀ h' i j ri rj, row_at t h' i = Some ri → row_at t h' j = Some rj →
    h_new_state ri = Active → h_new_state rj = Active → h_new_owner ri = h_new_owner rj → i = j
}.

Lemma row_at_elem t h i r :
  row_at t h i = Some r → r ∈ t_history t ∧ h_inscription_id r = i ∧ h_block_height r <= h.
Proof.
  unfold row_at, rows_of. intros [l E]%last_Some.
  assert (r ∈ l ++ [r]) as Hr by (apply elem_of_app; right; by apply list_elem_of_singleton).
  rewrite <-E in Hr. apply list_elem_of_filter in Hr. tauto.
Qed.

Lemma row_at_None t h i :
  row_at t h i = None → ∀ r, r ∈ t_history t → h_inscription_id r = i → h < h_block_height r.
Proof.
  unfold row_at, rows_of. rewrite last_None. intros E r Hr Hi.
  destruct (Z_le_gt_dec (h_block_height r) h) as [Hle|]; [|lia].
  assert (r ∈ @nil PassHistoryRow) as Hn by (rewrite <-E; by apply list_elem_of_filter).
  by apply elem_of_nil in Hn.
Qed.

Lemma row_at_bound h t h' i :
  Forall (λ r, h_id r <= t_history_seq t ∧ h_block_height r <= h) (t_history t) → h <= h' →
  row_at t h' i = row_at t h i.
Proof.
  intros Hb Hle. unfold row_at, rows_of. f_equal. apply filter_ext_in.
  rewrite Forall_forall in Hb. intros r Hr. specialize (Hb _ Hr). simpl in Hb. split; intros []; split; (done || lia).
Qed.

(** ** The joins of the queries compute [row_at] *)

Lemma list_max_sorted l :
  StronglySorted log_order l → list_max h_id l = h_id <$> last l.
Proof.
  intros Hs. destruct (last l) as [x|] eqn:E; simpl.
  - destruct (list_max h_id l) as [m|] eqn:Em.
    + apply list_max_spec in Em as [(y & Hy & <-) Hmax]. f_equal.
      assert (x ∈ l) as Hx
        by (apply last_Some in E as [l' ->]; apply elem_of_app; right; by apply list_elem_of_singleton).
      destruct (StronglySorted_last _ _ _ _ Hs E Hy) as [->|[? _]]; [done|].
      specialize (Hmax _ Hx). lia.
    + apply list_max_None in Em as ->. done.
  - apply last_None in E as ->. done.
Qed.

Lemma log_id_inj l a b :
  StronglySorted log_order l → a ∈ l → b ∈ l → h_id a = h_id b → a = b.
Proof.
  induction 1 as [|x l Hs IH Hx]; intros Ha Hb E; [by apply elem_of_nil in Ha|].
  rewrite Forall_forall in Hx. apply elem_of_cons in Ha as [->|Ha], Hb as [->|Hb]; [done| | |auto].
  - destruct (Hx _ Hb). lia.
  - destruct (Hx _ Ha). lia.
Qed.

Lemma elem_of_latest_rows t h r :
  StronglySorted log_order (t_history t) →
  r ∈ latest_rows t h ↔ row_at t h (h_inscription_id r) = Some r.
Proof.
  intros Hs. unfold latest_rows, max_id. rewrite list_elem_of_filter.
  rewrite list_max_sorted by by apply StronglySorted_filter.
  fold (rows_of t h (h_inscription_id r)). fold (row_at t h (h_inscription_id r)). split.
  - intros [[Hle E] Hr]. destruct (row_at t h _) as [x|] eqn:Ex; simpl in E; [|done].
    injection E as E. apply row_at_elem in Ex as (Hx & _ & _). f_equal.
    by eapply log_id_inj.
  - intros E. rewrite E. apply row_at_elem in E as (? & _ & ?). done.
Qed.

Lemma latest_row_row_at t h i :
  StronglySorted log_order (t_history t) → latest_row t h i = row_at t h i.
Proof.
  intros Hs. unfold latest_row. destruct (head _) as [r|] eqn:E.
  - apply head_Some_elem_of, list_elem_of_filter in E as [<- E].
    symmetry. by apply elem_of_latest_rows.
  - destruct (row_at t h i) as [r|] eqn:E2; [|done]. exfalso.
    pose proof (row_at_elem _ _ _ _ E2) as (_ & <- & _). apply elem_of_latest_rows in E2; [|done].
    apply head_None in E.
    assert (r ∈ @nil PassHistoryRow) as Hn by (rewrite <-E; by apply list_elem_of_filter).
    by apply elem_of_nil in Hn.
Qed.

(** ** The unique index *)

Lemma active_conflict_false m i p :
  active_conflict m i p = false ↔
  (state p = Active → ∀ j q, m !! j = Some q → state q = Active → owner q = owner p → j = i).
Proof.
  unfold active_conflict. split.
  - intros E Ha j q Hj Hq Ho. destruct (decide (j = i)) as [->|Hne]; [done|].
    rewrite bool_decide_true in E by done. simpl in E.
    apply not_true_iff_false in E. exfalso. apply E. apply existsb_exists.
    exists (j, q). split; [by apply list_elem_of_In, elem_of_map_to_list|]. simpl.
    rewrite bool_decide_false, bool_decide_true by done. simpl. by apply Z.eqb_eq.
  - intros H. case_bool_decide as Ha; [|done]. simpl. apply not_true_iff_false.
    rewrite existsb_exists. intros ([j q] & Hin%list_elem_of_In%elem_of_map_to_list & Hb).
    simpl in Hb. b2p. apply H in Hin; auto.
Qed.

Lemma no_active_conflict_spec m :
  no_active_conflict m = true ↔
  ∀ i j p q, m !! i = Some p → m !! j = Some q → state p = Active → state q = Active →
    owner p = owner q → i = j.
Proof.
  unfold no_active_conflict. rewrite forallb_forall. split.
  - intros H i j p q Hi Hj Hp Hq Ho. specialize (H (j, q)). simpl in H.
    rewrite negb_true_iff, active_conflict_false in H. eapply H; eauto.
    by apply list_elem_of_In, elem_of_map_to_list.
  - intros H [i p] Hin%list_elem_of_In%elem_of_map_to_list. simpl.
    rewrite negb_true_iff, active_conflict_false. intros ? j q ???. by eapply H.
Qed.

(** ** Operations of a block *)

Inductive pass_op :=
  | OpMint (p : MinerPassInfo)
  | OpInvalidMint (p : MinerPassInfo)
  | OpTransfer (i : InscriptionId) (o : USDBScriptHash) (sp : SatPoint)
  | OpSatpoint (i : InscriptionId) (prev_sp new_sp : SatPoint)
  | OpState (i : InscriptionId) (new_state prev_state : MinerPassState)
  | OpCommit (e : StoredPassBlockCommitEntry)
  | OpBalance (b : u64) (n : u32)
  | OpAnchorHistory (s : BalanceHistorySnapshotInfo)
  | OpSynced (h : u32).

(** The call the indexer makes for the operation while it processes block [h]. *)
Definition run_pass_op (h : u32) (op : pass_op) : M Tables unit :=
  match op with
  | OpMint p => add_new_mint_pass_at_height p h
  | OpInvalidMint p => add_invalid_mint_pass_at_height p h
  | OpTransfer i o sp => transfer_owner_at_height i o sp h
  | OpSatpoint i prev_sp new_sp => update_satpoint_at_height i prev_sp new_sp h
  | OpState i new_state prev_state => update_state_at_height i new_state prev_state h
  | OpCommit e => upsert_pass_block_commit e
  | OpBalance b n => upsert_active_balance_snapshot h b n
  | OpAnchorHistory s => upsert_balance_history_snapshot_history_entry s
  | OpSynced h => update_synced_btc_block_height h
  end.

(** The argument carries the height of the block where it carries one. *)
Definition pass_op_at (h : u32) (op : pass_op) : Prop :=
  match op with
  | OpMint p | OpInvalidMint p => mint_block_height p = h
  | OpCommit e => pc_block_height e = h
  | OpAnchorHistory s => bs_stable_height s = h
  | _ => True
  end.

(** What an operation of block [h] can do: nothing, a write of the key [h] in the tables keyed by
    height, or one row of a pass together with its event. *)
Inductive effect (h : u32) (t : Tables) : Tables → Prop :=
  | effect_side t' :
      t_passes t' = t_passes t → t_history t' = t_history t → t_history_seq t' = t_history_seq t →
      (∀ k, k ≠ h → t_commits t' !! k = t_commits t !! k) →
      (∀ k, k ≠ h → t_balances t' !! k = t_balances t !! k) →
      (∀ k, k ≠ h → t_anchors t' !! k = t_anchors t !! k) →
      effect h t t'
  | effect_pass i p r :
      inscription_id p = i → h_inscription_id r = i → h_block_height r = h →
      h_id r = t_history_seq t + 1 → pass_at_row p r = p →
      active_conflict (t_passes t) i p = false →
      (match t_passes t !! i with
       | Some q => static p = static q
       | None => mint_block_height p = h
       end) →
      effect h t (with_history (λ rows, rows ++ [r]) (t_history_seq t + 1)
                    (with_passes (λ m, <[i := p]> m) t)).

Lemma effect_refl h t : effect h t t.
Proof. by apply effect_side. Qed.

(** A write of a pass row followed by the event that records it. *)
Lemma write_append_effect h t i p ev st sp pst po psp :
  (∀ j q, t_passes t !! j = Some q → inscription_id q = j) →
  inscription_id p = i → st = state p → sp = satpoint p →
  (match t_passes t !! i with
   | Some q => static p = static q
   | None => mint_block_height p = h
   end) →
  effect h t ((let! _ := write_pass_row i p in
               append_pass_history_event i h ev pst st po (owner p) psp sp) t).2.
Proof.
  intros Hk Hi -> -> Hq. unfold bind, write_pass_row.
  destruct (active_conflict (t_passes t) i p) eqn:Hc; [apply effect_refl|].
  by apply (effect_pass h t i p
    {| h_id := t_history_seq t + 1; h_inscription_id := i; h_block_height := h;
       h_event_type := ev; h_prev_state := pst; h_new_state := state p; h_prev_owner := po;
       h_new_owner := owner p; h_prev_satpoint := psp; h_new_satpoint := satpoint p |});
    try done; destruct p.
Qed.

Lemma bind_insert_effect h t p ev :
  (∀ j q, t_passes t !! j = Some q → inscription_id q = j) → mint_block_height p = h →
  effect h t ((let! _ := insert_pass_record p in
     append_pass_history_event (inscription_id p) h ev None (state p) None (owner p) None
       (satpoint p)) t).2.
Proof.
  intros Hk Hm. pose proof (write_append_effect h t (inscription_id p) p ev (state p) (satpoint p)
    None None None Hk eq_refl eq_refl eq_refl) as H.
  unfold insert_pass_record, bind in *. destruct (t_passes t !! inscription_id p) as [q|];
    [apply effect_refl|by apply H].
Qed.

Lemma update_effect h t i cond f nf ev pst st po o psp sp :
  (∀ j q, t_passes t !! j = Some q → inscription_id q = j) →
  (∀ q, t_passes t !! i = Some q →
     inscription_id (f q) = inscription_id q ∧ static (f q) = static q
     ∧ st = state (f q) ∧ o = owner (f q) ∧ sp = satpoint (f q)) →
  effect h t ((let! _ := update_pass_row i cond f nf in
     append_pass_history_event i h ev pst st po o psp sp) t).2.
Proof.
  intros Hk Hf. unfold update_pass_row. unfold bind at 1.
  destruct (t_passes t !! i) as [q|] eqn:E; [|apply effect_refl].
  destruct (cond q); [|apply effect_refl].
  destruct (Hf q eq_refl) as (Hid & Hs & -> & -> & ->).
  apply (write_append_effect h t i (f q) ev _ _ pst po psp); try done; [|by rewrite E].
  by rewrite Hid, (Hk _ _ E).
Qed.

Lemma at_assert_effect {A} h t (b : bool) e (m : M Tables A) :
  effect h t (m t).2 → effect h t ((let! _ := assert b e in m) t).2.
Proof. intros H. unfold bind, assert. destruct b; [done|apply effect_refl]. Qed.

Lemma at_found_effect {A} h t i e (m : MinerPassInfo → M Tables A) :
  (∀ q, t_passes t !! i = Some q → effect h t (m q t).2) →
  effect h t ((let! found := get_pass_by_inscription_id i in
               let! current := lift (ok_or e found) in m current) t).2.
Proof.
  intros H. erewrite bind_run by reflexivity.
  destruct (t_passes t !! i) as [q|]; [by apply H|apply effect_refl].
Qed.

Lemma run_pass_op_effect h op t :
  (∀ j q, t_passes t !! j = Some q → inscription_id q = j) → pass_op_at h op →
  effect h t (run_pass_op h op t).2.
Proof.
  intros Hk Hop. destruct op; simpl in *.
  - unfold add_new_mint_pass_at_height, add_new_mint_pass. rewrite !bind_assoc.
    apply at_assert_effect. rewrite !bind_assoc. apply at_assert_effect. rewrite !bind_assoc.
    by apply at_assert_effect, bind_insert_effect.
  - unfold add_invalid_mint_pass_at_height, add_invalid_mint_pass. rewrite !bind_assoc.
    apply at_assert_effect. rewrite !bind_assoc. apply at_assert_effect. rewrite !bind_assoc.
    by apply at_assert_effect, bind_insert_effect.
  - apply at_found_effect. intros q Hq. apply update_effect; [done|].
    intros q' Hq'. assert (q' = q) as -> by congruence. by destruct q.
  - apply at_found_effect. intros q Hq. apply update_effect; [done|].
    intros q' Hq'. assert (q' = q) as -> by congruence. by destruct q.
  - apply at_found_effect. intros q Hq. apply update_effect; [done|].
    intros q' Hq'. assert (q' = q) as -> by congruence. by destruct q.
  - apply effect_side; try done. intros k Hne. cbn. rewrite Hop. by apply lookup_insert_ne.
  - apply effect_side; try done. intros k Hne. cbn. by apply lookup_insert_ne.
  - unfold upsert_balance_history_snapshot_history_entry, bind, lift.
    destruct (bs_stable_block_hash s), (bs_latest_block_commit s); simpl; try apply effect_refl.
    apply effect_side; try done. intros k Hne. cbn. rewrite Hop. by apply lookup_insert_ne.
  - by apply effect_side.
Qed.

(** ** The ledger invariant is preserved *)

Lemma ledger_ok_weaken h h' t : ledger_ok h t → h <= h' → ledger_ok h' t.
Proof.
  intros [Hk Hs Hb Hc He Hm Hu] Hle. split; try done.
  - eapply Forall_impl; [exact Hb|]. simpl. intros r []. split; [done|lia].
  - intros i p Hp. rewrite (row_at_bound h) by done. by apply Hc.
Qed.

Lemma ledger_ok_same h t t' :
  t_passes t' = t_passes t → t_history t' = t_history t → t_history_seq t' = t_history_seq t →
  ledger_ok h t → ledger_ok h t'.
Proof.
  intros E1 E2 E3 [Hk Hs Hb Hc He Hm Hu].
  assert (∀ h' i, row_at t' h' i = row_at t h' i) as Er by (intros; unfold row_at, rows_of; by rewrite E2).
  split; rewrite ?E1, ?E2, ?E3; try done.
  - intros i p Hp. rewrite Er. by apply Hc.
  - intros h' i j ri rj. rewrite !Er. apply Hu.
Qed.

(** The log with one more row. *)
Lemma row_at_append t t' r h i :
  t_history t' = t_history t ++ [r] →
  row_at t' h i = if decide (h_inscription_id r = i ∧ h_block_height r <= h)
                  then Some r else row_at t h i.
Proof.
  intros E. unfold row_at, rows_of. rewrite E, filter_app. case_decide as Hd.
  - rewrite filter_cons_True, filter_nil by done. by rewrite last_snoc.
  - rewrite filter_cons_False, filter_nil by done. by rewrite app_nil_r.
Qed.

Lemma row_at_after t h h' i :
  Forall (λ r, h_id r <= t_history_seq t ∧ h_block_height r <= h) (t_history t) → h <= h' →
  ∀ r, row_at t h' i = Some r → row_at t h i = Some r.
Proof. intros Hb Hle r. by rewrite (row_at_bound h). Qed.

(** The current rows are the state of the log at the current height. *)
Lemma ledger_row_current h t h' i r :
  ledger_ok h t → h <= h' → row_at t h' i = Some r →
  ∃ p, t_passes t !! i = Some p ∧ h_new_state r = state p ∧ h_new_owner r = owner p
       ∧ h_new_satpoint r = satpoint p.
Proof.
  intros L Hle Hr. rewrite (row_at_bound h) in Hr by (done || apply L).
  pose proof (row_at_elem _ _ _ _ Hr) as (Hin & Hi & _).
  destruct (lk_event _ _ L _ Hin) as (p & Hp & _). rewrite Hi in Hp.
  destruct (lk_current _ _ L _ _ Hp) as (r' & Hr' & Ep).
  assert (r' = r) as -> by congruence.
  exists p. split; [done|]. rewrite <-Ep. by destruct p.
Qed.

Lemma ledger_current_row h t i p :
  ledger_ok h t → t_passes t !! i = Some p →
  ∃ r, row_at t h i = Some r ∧ h_new_state r = state p ∧ h_new_owner r = owner p
       ∧ h_new_satpoint r = satpoint p.
Proof.
  intros L Hp. destruct (lk_current _ _ L _ _ Hp) as (r & Hr & E).
  exists r. split; [done|]. rewrite <-E. by destruct p.
Qed.

(** At most one active pass per owner in the current table. *)
Lemma ledger_unique_current h t i j p q :
  ledger_ok h t → t_passes t !! i = Some p → t_passes t !! j = Some q →
  state p = Active → state q = Active → owner p = owner q → i = j.
Proof.
  intros L Hi Hj Hp Hq Ho.
  destruct (ledger_current_row _ _ _ _ L Hi) as (ri & Ri & Si & Oi & _).
  destruct (ledger_current_row _ _ _ _ L Hj) as (rj & Rj & Sj & Oj & _).
  eapply (lk_unique _ _ L h); [exact Ri|exact Rj|congruence..].
Qed.

Lemma effect_pass_unique h t p r t' :
  ledger_ok h t → t_history t' = t_history t ++ [r] →
  h_block_height r = h → pass_at_row p r = p →
  active_conflict (t_passes t) (h_inscription_id r) p = false →
  ∀ h' i j ri rj, row_at t' h' i = Some ri → row_at t' h' j = Some rj →
    h_new_state ri = Active → h_new_state rj = Active → h_new_owner ri = h_new_owner rj → i = j.
Proof.
  intros L Et Hh Hp Hc h' i j ri rj. rewrite !(row_at_append t t' r) by done.
  rewrite active_conflict_false in Hc.
  assert (h_new_state r = state p ∧ h_new_owner r = owner p) as [Es Eo]
    by (rewrite <-Hp; by destruct p).
  assert (∀ k rk, h <= h' → row_at t h' k = Some rk → h_new_state rk = Active →
            h_new_state r = Active → h_new_owner rk = h_new_owner r → k = h_inscription_id r) as Hone.
  { intros k rk Hle Hrk Hs Hs' Ho. destruct (ledger_row_current _ _ _ _ _ L Hle Hrk) as (q & Hq & ? & ? & _).
    eapply Hc; [congruence|exact Hq|congruence|congruence]. }
  case_decide as Hi; case_decide as Hj; intros Ri Rj Si Sj Ho; simplify_eq.
  - destruct Hi, Hj. congruence.
  - destruct Hi as [<- ?]. symmetry. by apply (Hone j rj).
  - destruct Hj as [<- ?]. by apply (Hone i ri).
  - by eapply (lk_unique _ _ L).
Qed.

Lemma ledger_ok_effect h t t' : ledger_ok h t → effect h t t' → ledger_ok h t'.
Proof.
  intros L [t1 E1 E2 E3 _ _ _|i p r Hip Hir Hh Hid Hp Hc Hq]; [by apply (ledger_ok_same h t)|].
  set (t1 := with_history _ _ _).
  assert (t_history t1 = t_history t ++ [r]) as Et by done.
  assert (t_passes t1 = <[i := p]> (t_passes t)) as Ep by done.
  pose proof (row_at_append t t1 r) as Hrow.
  split.
  - intros j q. rewrite Ep, lookup_insert_Some. intros [[<- <-]|[_ Hj]]; [done|]. by apply (lk_key _ _ L).
  - rewrite Et. apply StronglySorted_app. split_and!; [|apply (lk_sorted _ _ L)|by repeat constructor].
    intros a b Ha ->%list_elem_of_singleton.
    pose proof (lk_bound _ _ L) as Hb. rewrite Forall_forall in Hb. destruct (Hb _ Ha).
    split; lia.
  - rewrite Et. apply Forall_app. split; [|repeat constructor; cbn; lia].
    eapply Forall_impl; [apply (lk_bound _ _ L)|]. cbn. intros x []. split; [lia|done].
  - intros j q. rewrite Ep, lookup_insert_Some. intros [[<- <-]|[Hne Hj]].
    + exists r. rewrite Hrow by done. by rewrite decide_True by (split; [done|lia]).
    + rewrite Hrow by done. rewrite decide_False by naive_solver. by apply (lk_current _ _ L).
  - intros x. rewrite Et, elem_of_app, list_elem_of_singleton, Ep. intros [Hx| ->].
    + destruct (lk_event _ _ L _ Hx) as (q & Hq' & Hle).
      destruct (decide (h_inscription_id x = i)) as [Ei|Hne].
      * exists p. rewrite Ei, lookup_insert_eq. split; [done|].
        rewrite Ei in Hq'. rewrite Hq' in Hq.
        assert (mint_block_height p = mint_block_height q) as -> by (by apply (f_equal mint_block_height) in Hq). done.
      * exists q. by rewrite lookup_insert_ne.
    + exists p. rewrite Hir, lookup_insert_eq. split; [done|]. destruct (t_passes t !! i) as [q|] eqn:Eq.
      * assert (mint_block_height p = mint_block_height q) as -> by (by apply (f_equal mint_block_height) in Hq).
        destruct (lk_mint _ _ L _ _ Eq) as (x & Hx & _ & <-). rewrite Hh.
        pose proof (lk_bound _ _ L) as Hb. rewrite Forall_forall in Hb. by destruct (Hb _ Hx).
      * lia.
  - intros j q. rewrite Ep, lookup_insert_Some, Et. intros [[<- <-]|[Hne Hj]].
    + destruct (t_passes t !! i) as [q|] eqn:Eq.
      * assert (mint_block_height p = mint_block_height q) as -> by (by apply (f_equal mint_block_height) in Hq).
        destruct (lk_mint _ _ L _ _ Eq) as (x & Hx & ? & ?). exists x.
        split; [apply elem_of_app; by left|done].
      * exists r. split; [apply elem_of_app; right; by apply list_elem_of_singleton|]. split; [done|lia].
    + destruct (lk_mint _ _ L _ _ Hj) as (x & Hx & ? & ?). exists x.
      split; [apply elem_of_app; by left|done].
  - eapply effect_pass_unique; try done. by rewrite Hir.
Qed.

(** ** Rollback *)

(** The rows of the store of height [T] inside a later store. *)
Definition truncated (T : u32) (t : Tables) : Tables :=
  with_passes (λ _, rollback_surviving_passes t T)
    (with_anchors (filter (λ kv, kv.1 <= T))
       (with_balances (filter (λ kv, kv.1 <= T))
          (with_commits (filter (λ kv, kv.1 <= T))
             (with_history (filter (λ r, h_block_height r <= T)) (t_history_seq t) t)))).

Lemma rollback_surviving_lookup h t T i :
  ledger_ok h t →
  rollback_surviving_passes t T !! i =
    p ← t_passes t !! i; if mint_block_height p <=? T then pass_at_row p <$> row_at t T i else None.
Proof.
  intros L. unfold rollback_surviving_passes. rewrite map_lookup_imap.
  destruct (t_passes t !! i) as [p|]; simpl; [|done].
  by rewrite latest_row_row_at by apply (lk_sorted _ _ L).
Qed.

(** A pass minted at or below the target has an event at or below it. *)
Lemma survivor_row h t T i p :
  ledger_ok h t → t_passes t !! i = Some p → mint_block_height p <= T → is_Some (row_at t T i).
Proof.
  intros L Hp Hm. destruct (row_at t T i) as [r|] eqn:E; [eauto|].
  destruct (lk_mint _ _ L _ _ Hp) as (r & Hr & Hi & Hh).
  pose proof (row_at_None _ _ _ E _ Hr Hi). lia.
Qed.

Lemma survivor_lookup h t T i p' :
  ledger_ok h t → rollback_surviving_passes t T !! i = Some p' →
  ∃ p r, t_passes t !! i = Some p ∧ mint_block_height p <= T ∧ row_at t T i = Some r
         ∧ p' = pass_at_row p r.
Proof.
  intros L. rewrite (rollback_surviving_lookup h) by done.
  destruct (t_passes t !! i) as [p|] eqn:Ep; simpl; [|done].
  destruct (_ <=? T) eqn:E; [b2p|done]. destruct (row_at t T i) as [r|] eqn:Er; simpl; [|done].
  intros [= <-]. exists p, r. done.
Qed.

Lemma surviving_counts h t T :
  ledger_ok h t → Z.of_nat (size (rollback_surviving_passes t T)) = surviving_pass_count t T.
Proof.
  intros L. unfold surviving_pass_count. f_equal.
  rewrite <-!size_dom. f_equal. apply set_eq. intros i. rewrite !elem_of_dom.
  rewrite (rollback_surviving_lookup h) by done. split.
  - intros [p' E]. destruct (t_passes t !! i) as [p|] eqn:Ep; simpl in E; [|done].
    destruct (_ <=? T) eqn:Em; [b2p|done]. exists p. by apply map_lookup_filter_Some.
  - intros [p [Ep Hm]%map_lookup_filter_Some]. rewrite Ep. simpl in *.
    rewrite (proj2 (Z.leb_le _ _)) by done.
    destruct (survivor_row _ _ _ _ _ L Ep Hm) as [r ->]. by eexists.
Qed.

Lemma survivors_no_conflict h t T :
  ledger_ok h t → no_active_conflict (rollback_surviving_passes t T) = true.
Proof.
  intros L. apply no_active_conflict_spec. intros i j p q Hi Hj Hp Hq Ho.
  destruct (survivor_lookup _ _ _ _ _ L Hi) as (p0 & ri & _ & _ & Ri & ->).
  destruct (survivor_lookup _ _ _ _ _ L Hj) as (q0 & rj & _ & _ & Rj & ->).
  by eapply (lk_unique _ _ L).
Qed.

(** On a ledger the rebuild never mismatches and the restored rows never conflict. *)
Lemma restore_passes_run h t T : ledger_ok h t → restore_passes T t = (Ok tt, truncated T t).
Proof.
  intros L. unfold restore_passes. pose proof (surviving_counts h t T L) as Hc.
  rewrite Hc, Z.eqb_refl, andb_false_r.
  assert ((if surviving_pass_count t T >? 0 then rollback_surviving_passes t T else ∅)
          = rollback_surviving_passes t T) as ->.
  { rewrite Z.gtb_ltb. destruct (0 <? _) eqn:E; [done|b2p].
    symmetry. apply map_size_empty_inv. lia. }
  fold (truncated T t).
  change (t_passes (truncated T t)) with (rollback_surviving_passes t T).
  by rewrite (survivors_no_conflict h) by done.
Qed.

Lemma truncated_row_at T t h i :
  row_at (truncated T t) h i = row_at t (Z.min h T) i.
Proof.
  unfold row_at, rows_of. f_equal. cbn. rewrite list_filter_filter. apply filter_ext_in.
  intros r _. split; [intros [[? ?] ?]|intros [? ?]]; repeat split; try done; lia.
Qed.

Lemma static_pass_at_row p r : static (pass_at_row p r) = static p.
Proof. by destruct p. Qed.
Lemma pass_at_row_static p q r : static p = static q → pass_at_row p r = pass_at_row q r.
Proof. destruct p, q. unfold static, pass_at_row, set_state, set_owner_satpoint. cbn. intros E. injection E. intros. by subst. Qed.
Lemma pass_at_row_idemp p r : pass_at_row (pass_at_row p r) r = pass_at_row p r.
Proof. by destruct p. Qed.

Lemma ledger_ok_truncated h T t : ledger_ok h t → T <= h → ledger_ok T (truncated T t).
Proof.
  intros L HT. assert (∀ i, row_at (truncated T t) T i = row_at t T i) as HrT
    by (intros; rewrite truncated_row_at; f_equal; lia).
  split.
  - intros i p' Hp'. destruct (survivor_lookup _ _ _ _ _ L Hp') as (p & r & Hp & _ & _ & ->).
    apply (lk_key _ _ L _ _ Hp).
  - apply StronglySorted_filter, (lk_sorted _ _ L).
  - apply Forall_forall. intros r [Hh Hr]%list_elem_of_filter.
    pose proof (lk_bound _ _ L) as Hb. rewrite Forall_forall in Hb. destruct (Hb _ Hr). done.
  - intros i p' Hp'. destruct (survivor_lookup _ _ _ _ _ L Hp') as (p & r & _ & _ & Hr & ->).
    exists r. rewrite HrT. split; [done|]. apply pass_at_row_idemp.
  - intros r [Hh Hr]%list_elem_of_filter. destruct (lk_event _ _ L _ Hr) as (p & Hp & Hm).
    assert (mint_block_height p <= T) as HmT by lia.
    destruct (survivor_row _ _ _ _ _ L Hp HmT) as [r' Hr'].
    exists (pass_at_row p r'). split; [|done]. cbn.
    rewrite (rollback_surviving_lookup h) by done. rewrite Hp. simpl.
    by rewrite (proj2 (Z.leb_le _ _)), Hr' by done.
  - intros i p' Hp'. destruct (survivor_lookup _ _ _ _ _ L Hp') as (p & r & Hp & HmT & _ & ->).
    destruct (lk_mint _ _ L _ _ Hp) as (x & Hx & Hi & Hh). exists x.
    split; [|done]. apply list_elem_of_filter. split; [|done].
    change (h_block_height x <= T). rewrite Hh. exact HmT.
  - intros h' i j ri rj. rewrite !truncated_row_at. apply (lk_unique _ _ L).
Qed.

(** The tables a rollback has to restore; the log's counter and the key-value state are not among
    them. *)
Definition same_ledger (t t' : Tables) : Prop :=
  t_passes t' = t_passes t ∧ t_history t' = t_history t ∧ t_commits t' = t_commits t
  ∧ t_balances t' = t_balances t ∧ t_anchors t' = t_anchors t.

(** The rows keyed by height are at or below [T]. *)
Definition side_bound (T : u32) (t : Tables) : Prop :=
  (∀ k v, t_commits t !! k = Some v → k <= T) ∧ (∀ k v, t_balances t !! k = Some v → k <= T)
  ∧ (∀ k v, t_anchors t !! k = Some v → k <= T).

Lemma rollback_with_conn_run h t T mark :
  ledger_ok h t →
  ∃ t', rollback_with_conn T None mark t = (Ok tt, t')
    ∧ same_ledger (truncated T t) t' ∧ t_history_seq t' = t_history_seq t
    ∧ t_state t' !! BTC_SYNCED_BLOCK_HEIGHT_KEY = Some T
    ∧ t_state t' !! BALANCE_HISTORY_SNAPSHOT_HEIGHT_KEY = None
    ∧ t_state t' !! UPSTREAM_REORG_RECOVERY_PENDING_HEIGHT_KEY = (if mark then Some T else None).
Proof.
  intros L. unfold rollback_with_conn. erewrite bind_run by by eapply restore_passes_run.
  destruct mark; (eexists; split; [reflexivity|]; split; [done|]; split; [done|]; cbn;
    rewrite ?lookup_insert_eq, ?lookup_delete_eq; by simplify_map_eq).
Qed.

Lemma ledger_ok_rollback h t T mark :
  ledger_ok h t → T <= h → ledger_ok T (rollback_with_conn T None mark t).2.
Proof.
  intros L HT. destruct (rollback_with_conn_run h t T mark L) as (t' & -> & (E1 & E2 & _) & E3 & _).
  apply (ledger_ok_same _ (truncated T t)); [done..|]. by apply (ledger_ok_truncated h).
Qed.

(** *** Later blocks leave the store of an earlier height readable *)

Record undoable (T : u32) (t0 t : Tables) : Prop := {
  ud_history : filter (λ r, h_block_height r <= T) (t_history t) = t_history t0;
  ud_old : ∀ i p, t_passes t !! i = Some p → mint_block_height p <= T →
    ∃ p0, t_passes t0 !! i = Some p0 ∧ static p = static p0;
  ud_kept : ∀ i p0, t_passes t0 !! i = Some p0 → ∃ p, t_passes t !! i = Some p ∧ static p = static p0;
  ud_commits : ∀ k, k <= T → t_commits t !! k = t_commits t0 !! k;
  ud_balances : ∀ k, k <= T → t_balances t !! k = t_balances t0 !! k;
  ud_anchors : ∀ k, k <= T → t_anchors t !! k = t_anchors t0 !! k
}.

Lemma undoable_refl T t : ledger_ok T t → undoable T t t.
Proof.
  intros L. split; try done; [|by intros; eauto..].
  apply filter_all. eapply Forall_impl; [apply (lk_bound _ _ L)|]. by intros r [].
Qed.

Lemma static_mint p q : static p = static q → mint_block_height p = mint_block_height q.
Proof. intros E. by apply (f_equal mint_block_height) in E. Qed.

Lemma undoable_effect T h t0 t t' : undoable T t0 t → T < h → effect h t t' → undoable T t0 t'.
Proof.
  intros [Uh Uo Uk Uc Ub Ua] HT [t1 E1 E2 _ Ec Eb Ea|i p r Hip Hir Hh Hid Hp Hc Hq].
  - split; rewrite ?E1, ?E2; try done; intros k Hk.
    + rewrite Ec by lia. by apply Uc.
    + rewrite Eb by lia. by apply Ub.
    + rewrite Ea by lia. by apply Ua.
  - split; cbn; try done.
    + rewrite filter_app, filter_cons_False, filter_nil, app_nil_r by lia. done.
    + intros j q. rewrite lookup_insert_Some. intros [[<- <-]|[_ Hj]] Hm; [|by eauto].
      destruct (t_passes t !! i) as [q|] eqn:Eq; [|lia].
      destruct (Uo _ _ Eq) as (p0 & ? & ?); [by rewrite <-(static_mint _ _ Hq)|].
      exists p0. split; [done|congruence].
    + intros j p0 Hj. destruct (Uk _ _ Hj) as (q & Hq' & Es). destruct (decide (i = j)) as [<-|Hne].
      * exists p. rewrite lookup_insert_eq. split; [done|]. rewrite Hq' in Hq. congruence.
      * exists q. by rewrite lookup_insert_ne.
Qed.

Lemma undoable_same T t0 t t' : same_ledger t t' → undoable T t0 t → undoable T t0 t'.
Proof. intros (E1 & E2 & E3 & E4 & E5) [? ? ? ? ? ?]. split; rewrite ?E1, ?E2, ?E3, ?E4, ?E5; done. Qed.

Lemma filter_le_lookup {A} T T' (m : gmap u32 A) k :
  k <= T → T <= T' → filter (λ kv : u32 * A, kv.1 <= T') m !! k = m !! k.
Proof.
  intros Hk HT. apply option_eq. intros v. rewrite map_lookup_filter_Some. simpl.
  split; [by intros []|]. intros. split; [done|lia].
Qed.

Lemma undoable_truncated T T' h t0 t :
  ledger_ok h t → ledger_ok T t0 → undoable T t0 t → T <= T' → undoable T t0 (truncated T' t).
Proof.
  intros L L0 U HT. split.
  - cbn. rewrite list_filter_filter, <-(ud_history _ _ _ U). apply filter_ext_in. intros r _. simpl. lia.
  - intros i p Hp Hm. destruct (survivor_lookup _ _ _ _ _ L Hp) as (q & r & Hq & _ & _ & ->).
    rewrite static_pass_at_row. by apply (ud_old _ _ _ U).
  - intros i p0 Hp0. destruct (ud_kept _ _ _ U _ _ Hp0) as (q & Hq & Es).
    assert (mint_block_height q <= T') as Hm.
    { rewrite (static_mint _ _ Es). destruct (lk_mint _ _ L0 _ _ Hp0) as (x & Hx & _ & <-).
      pose proof (lk_bound _ _ L0) as Hb. rewrite Forall_forall in Hb. destruct (Hb _ Hx). lia. }
    destruct (survivor_row _ _ _ _ _ L Hq Hm) as [r Hr]. exists (pass_at_row q r).
    rewrite static_pass_at_row. split; [|done]. cbn. rewrite (rollback_surviving_lookup h) by done.
    rewrite Hq. simpl. by rewrite (proj2 (Z.leb_le _ _)), Hr by done.
  - intros k Hk. cbn. rewrite (filter_le_lookup T) by done. by apply (ud_commits _ _ _ U).
  - intros k Hk. cbn. rewrite (filter_le_lookup T) by done. by apply (ud_balances _ _ _ U).
  - intros k Hk. cbn. rewrite (filter_le_lookup T) by done. by apply (ud_anchors _ _ _ U).
Qed.

Lemma filter_le_restore {A} T (m m0 : gmap u32 A) :
  (∀ k, k <= T → m !! k = m0 !! k) → (∀ k v, m0 !! k = Some v → k <= T) →
  filter (λ kv : u32 * A, kv.1 <= T) m = m0.
Proof.
  intros H1 H2. apply map_eq. intros k. apply option_eq. intros v.
  rewrite map_lookup_filter_Some. simpl. split.
  - intros [Hv Hk]. by rewrite <-H1.
  - intros Hv. pose proof (H2 _ _ Hv). by rewrite H1.
Qed.

Lemma undoable_restores T h t0 t :
  ledger_ok h t → ledger_ok T t0 → side_bound T t0 → undoable T t0 t →
  same_ledger t0 (truncated T t).
Proof.
  intros L L0 (Hc & Hb & Ha) U. split_and!.
  - apply map_eq. intros i. apply option_eq. intros p'. split.
    + intros Hp'. destruct (survivor_lookup _ _ _ _ _ L Hp') as (p & r & Hp & Hm & Hr & ->).
      destruct (ud_old _ _ _ U _ _ Hp Hm) as (p0 & Hp0 & Es). rewrite Hp0. f_equal.
      destruct (lk_current _ _ L0 _ _ Hp0) as (r0 & Hr0 & <-).
      assert (r0 = r) as ->; [|by rewrite (pass_at_row_static p p0 r Es)].
      apply (inj Some). rewrite <-Hr0, <-Hr. unfold row_at, rows_of. f_equal.
      rewrite <-(ud_history _ _ _ U), list_filter_filter. apply filter_ext_in. intros x _. tauto.
    + intros Hp0. destruct (ud_kept _ _ _ U _ _ Hp0) as (p & Hp & Es).
      destruct (lk_current _ _ L0 _ _ Hp0) as (r0 & Hr0 & E0).
      assert (row_at t T i = Some r0) as Hr.
      { rewrite <-Hr0. unfold row_at, rows_of. f_equal.
        rewrite <-(ud_history _ _ _ U), list_filter_filter. apply filter_ext_in. intros x _. tauto. }
      cbn. rewrite (rollback_surviving_lookup h) by done. rewrite Hp. simpl.
      assert (mint_block_height p <= T) as Hm.
      { rewrite (static_mint _ _ Es). destruct (lk_mint _ _ L0 _ _ Hp0) as (x & Hx & _ & <-).
        pose proof (lk_bound _ _ L0) as Hbd. rewrite Forall_forall in Hbd. by destruct (Hbd _ Hx). }
      rewrite (proj2 (Z.leb_le _ _)), Hr by done. simpl. f_equal. by rewrite (pass_at_row_static p p' r0 Es).
  - apply (ud_history _ _ _ U).
  - by apply filter_le_restore; [apply (ud_commits _ _ _ U)|].
  - by apply filter_le_restore; [apply (ud_balances _ _ _ U)|].
  - by apply filter_le_restore; [apply (ud_anchors _ _ _ U)|].
Qed.

(** Rolling back to the height of [t0] restores it. *)
Lemma rollback_restores T t0 h t mark :
  ledger_ok h t → ledger_ok T t0 → side_bound T t0 → undoable T t0 t →
  ∃ t', rollback_with_conn T None mark t = (Ok tt, t')
    ∧ same_ledger t0 t'
    ∧ t_state t' !! BTC_SYNCED_BLOCK_HEIGHT_KEY = Some T
    ∧ t_state t' !! BALANCE_HISTORY_SNAPSHOT_HEIGHT_KEY = None
    ∧ t_state t' !! UPSTREAM_REORG_RECOVERY_PENDING_HEIGHT_KEY = (if mark then Some T else None).
Proof.
  intros L L0 Hside U. destruct (rollback_with_conn_run h t T mark L) as (t' & E & Hs & _ & K1 & K2 & K3).
  exists t'. split_and!; try done. pose proof (undoable_restores _ _ _ _ L L0 Hside U) as Hr.
  destruct Hs as (A1 & A2 & A3 & A4 & A5), Hr as (B1 & B2 & B3 & B4 & B5).
  split_and!; congruence.
Qed.

(** Blocks on blocks. *)
Lemma undoable_trans T T' t0 t1 t2 :
  T <= T' → undoable T t0 t1 → undoable T' t1 t2 → undoable T t0 t2.
Proof.
  intros HT U1 U2. split.
  - rewrite <-(ud_history _ _ _ U1), <-(ud_history _ _ _ U2), list_filter_filter.
    apply filter_ext_in. intros r _. lia.
  - intros i p Hp Hm. destruct (ud_old _ _ _ U2 i p Hp) as (p1 & Hp1 & E1); [lia|].
    destruct (ud_old _ _ _ U1 i p1 Hp1) as (p0 & ? & ?); [by rewrite <-(static_mint _ _ E1)|].
    exists p0. split; [done|congruence].
  - intros i p0 Hp0. destruct (ud_kept _ _ _ U1 i p0 Hp0) as (p1 & Hp1 & E1).
    destruct (ud_kept _ _ _ U2 i p1 Hp1) as (p & ? & ?). exists p. split; [done|congruence].
  - intros k Hk. rewrite (ud_commits _ _ _ U2) by lia. by apply (ud_commits _ _ _ U1).
  - intros k Hk. rewrite (ud_balances _ _ _ U2) by lia. by apply (ud_balances _ _ _ U1).
  - intros k Hk. rewrite (ud_anchors _ _ _ U2) by lia. by apply (ud_anchors _ _ _ U1).
Qed.

(** ** Reachable stores *)

(** [pass_run h0 t0 h t]: from the store [t0] of height [h0], operations of blocks at heights that
    do not decrease (failing ones included) and rollbacks not below [h0] lead to [t] at [h]. *)
Inductive pass_run (h0 : u32) (t0 : Tables) : u32 → Tables → Prop :=
  | pr_refl : pass_run h0 t0 h0 t0
  | pr_op h1 t1 h2 op :
      pass_run h0 t0 h1 t1 → h1 <= h2 → pass_op_at h2 op →
      pass_run h0 t0 h2 (run_pass_op h2 op t1).2
  | pr_rollback h1 t1 T mark :
      pass_run h0 t0 h1 t1 → h0 <= T <= h1 →
      pass_run h0 t0 T (rollback_with_conn T None mark t1).2.

Lemma run_ledger_ok h0 t0 h t :
  ledger_ok h0 t0 → pass_run h0 t0 h t → h0 <= h ∧ ledger_ok h t.
Proof.
  intros L0. induction 1 as [|h1 t1 h2 op _ [IH L] Hle Hop|h1 t1 T mark _ [IH L] HT].
  - split; [lia|done].
  - split; [lia|]. apply (ledger_ok_weaken h1 h2) in L; [|done].
    eapply ledger_ok_effect; [exact L|]. apply run_pass_op_effect; [apply (lk_key _ _ L)|done].
  - split; [lia|]. apply (ledger_ok_rollback h1); [done|lia].
Qed.

Lemma ledger_ok_empty h : ledger_ok h empty_tables.
Proof.
  split; cbn; try (by intros * E; rewrite lookup_empty in E); try constructor.
  - by intros r ?%elem_of_nil.
  - done.
Qed.

(** *** Properties *)

(** C29. Every store the indexer can build, through any operations of successive blocks and any
    rollbacks, is a ledger: the current row of each pass is exactly what its last event recorded,
    each event belongs to a pass minted at or before it, event identifiers and heights are
    ordered, and at every height an owner has at most one active pass. *)
Theorem pass_ledger_invariant h t : pass_run 0 empty_tables h t → ledger_ok h t.
Proof. intros Hr. by eapply run_ledger_ok; [apply ledger_ok_empty|]. Qed.

Lemma run_undoable T t0 h t :
  ledger_ok T t0 → pass_run (T + 1) t0 h t → undoable T t0 t ∧ T + 1 <= h ∧ ledger_ok h t.
Proof.
  intros L0 Hrun. induction Hrun as [|h1 t1 h2 op _ (U & Hh & L) Hle Hop|h1 t1 T' mark' _ (U & Hh & L) HT].
  - split; [by apply undoable_refl|]. split; [lia|]. apply (ledger_ok_weaken T); [done|lia].
  - apply (ledger_ok_weaken h1 h2) in L; [|done].
    pose proof (run_pass_op_effect h2 op t1 (lk_key _ _ L) Hop) as He.
    split; [by apply (undoable_effect T h2 t0 t1); [|lia|]|]. split; [lia|].
    by eapply ledger_ok_effect.
  - split; [|split; [lia|apply (ledger_ok_rollback h1); [done|lia]]].
    destruct (rollback_with_conn_run h1 t1 T' mark' L) as (t2 & -> & Hs & _).
    apply (undoable_same _ _ _ _ Hs). by eapply undoable_truncated; [exact L|done|done|lia].
Qed.
Lemma rollback_undoes T t0 h t mark :
  ledger_ok T t0 → side_bound T t0 → pass_run (T + 1) t0 h t →
  ∃ t', rollback_with_conn T None mark t = (Ok tt, t')
    ∧ same_ledger t0 t'
    ∧ t_state t' !! BTC_SYNCED_BLOCK_HEIGHT_KEY = Some T
    ∧ t_state t' !! BALANCE_HISTORY_SNAPSHOT_HEIGHT_KEY = None
    ∧ t_state t' !! UPSTREAM_REORG_RECOVERY_PENDING_HEIGHT_KEY = (if mark then Some T else None).
Proof.
  intros L0 Hside Hrun. destruct (run_undoable T t0 h t L0 Hrun) as (U & _ & L).
  by apply (rollback_restores T t0 h).
Qed.

(** Rolling back to height [T] undoes every later block: from a store [t0] whose data is at or
    below [T], whatever blocks above [T] (and rollbacks above [T]) did, the rollback succeeds and
    the passes, the event log, the commits, the balance snapshots and the upstream anchors are
    again those of [t0]; the synced height is [T] and the recovery marker is as requested. *)
Theorem rollback_undoes_later_blocks T t0 h t mark :
  ledger_ok T t0 → side_bound T t0 → pass_run (T + 1) t0 h t →
  ∃ t', rollback_with_conn T None mark t = (Ok tt, t')
    ∧ same_ledger t0 t'
    ∧ t_state t' !! BTC_SYNCED_BLOCK_HEIGHT_KEY = Some T
    ∧ t_state t' !! BALANCE_HISTORY_SNAPSHOT_HEIGHT_KEY = None
    ∧ t_state t' !! UPSTREAM_REORG_RECOVERY_PENDING_HEIGHT_KEY = (if mark then Some T else None).
Proof. apply rollback_undoes. Qed.

(** *** The queries at a height *)

Lemma log_NoDup l : StronglySorted log_order l → NoDup l.
Proof.
  induction 1 as [|x l Hs IH Hx]; constructor; [|done].
  intros Hin. rewrite Forall_forall in Hx. destruct (Hx _ Hin). lia.
Qed.

Lemma latest_rows_NoDup t T :
  StronglySorted log_order (t_history t) → NoDup (h_inscription_id <$> latest_rows t T).
Proof.
  intros Hs. apply NoDup_fmap_2_strong; [|by apply NoDup_filter, log_NoDup].
  intros a b Ha Hb E. apply elem_of_latest_rows in Ha; [|done]. apply elem_of_latest_rows in Hb; [|done].
  rewrite E in Ha. congruence.
Qed.

Lemma at_most_one {A} (l : list A) :
  NoDup l → (∀ x y, x ∈ l → y ∈ l → x = y) → l = [] ∨ ∃ x, l = [x].
Proof.
  intros Hnd H. destruct l as [|x [|y l]]; [by left|right; by exists x|].
  exfalso. apply NoDup_cons in Hnd as [Hx _]. apply Hx.
  rewrite (H x y); [by constructor|by constructor|]. apply elem_of_cons. right. by constructor.
Qed.

Lemma owner_active_rows h t T o :
  ledger_ok h t →
  let l := order_by row_order true
             (filter (λ r, h_new_state r = Active ∧ h_new_owner r = o) (latest_rows t T)) in
  (l = [] ∨ ∃ r, l = [r])
  ∧ ∀ r, r ∈ l ↔ row_at t T (h_inscription_id r) = Some r ∧ h_new_state r = Active ∧ h_new_owner r = o.
Proof.
  intros L. cbv zeta. pose proof (lk_sorted _ _ L) as Hs.
  assert (∀ r, r ∈ order_by row_order true
             (filter (λ r, h_new_state r = Active ∧ h_new_owner r = o) (latest_rows t T)) ↔
     row_at t T (h_inscription_id r) = Some r ∧ h_new_state r = Active ∧ h_new_owner r = o) as Hin.
  { intros r. rewrite elem_of_order_by, list_elem_of_filter, elem_of_latest_rows by done. tauto. }
  split; [|done]. apply at_most_one.
  - rewrite order_by_Permutation. apply NoDup_filter. eapply NoDup_fmap_1, latest_rows_NoDup; done.
  - intros x y (Hx & Sx & Ox)%Hin (Hy & Sy & Oy)%Hin.
    assert (h_inscription_id x = h_inscription_id y) as E
      by (eapply (lk_unique _ _ L); [exact Hx|exact Hy|congruence..]).
    rewrite E in Hx. congruence.
Qed.

(** The active pass of an owner at a past height is well defined: the duplicate check of the query
    never fires, and it returns exactly the pass whose last event at or below the height made it
    active under that owner. *)
Theorem owner_active_at_height o T h t :
  pass_run 0 empty_tables h t →
  ∃ res, get_owner_active_pass_from_history_at_height o T t = (Ok res, t)
    ∧ ∀ i, res = Some (active_info i o) ↔
        ∃ r, row_at t T i = Some r ∧ h_new_state r = Active ∧ h_new_owner r = o.
Proof.
  intros [_ L]%(run_ledger_ok 0); [|apply ledger_ok_empty].
  destruct (owner_active_rows h t T o L) as [Hone Hin].
  unfold get_owner_active_pass_from_history_at_height. erewrite bind_run by reflexivity.
  destruct (order_by _ _ _) as [|r [|? ?]] eqn:E.
  - exists None. split; [done|]. intros i. split; [done|]. intros (r & Hr & Hs & Ho).
    pose proof (row_at_elem _ _ _ _ Hr) as (_ & <- & _).
    assert (r ∈ @nil PassHistoryRow) as Hn by (apply Hin; done). by apply elem_of_nil in Hn.
  - destruct (proj1 (Hin r) ltac:(by constructor)) as (Hr & Hs & Ho).
    exists (Some (row_active_info r)). split; [done|]. intros i. unfold row_active_info. rewrite Ho. split.
    + intros [= <-]. by exists r.
    + intros (r' & Hr' & Hs' & Ho'). pose proof (row_at_elem _ _ _ _ Hr') as (_ & <- & _).
      assert (r' ∈ [r]) as ->%list_elem_of_singleton by by apply Hin. done.
  - destruct Hone as [?|[? ?]]; discriminate.
Qed.

(** At the current height and above, the historical view is the current table: the count of passes
    in a state that the log gives is the number of rows in that state. *)
Theorem history_counts_current_table st T h t :
  pass_run 0 empty_tables h t → h <= T →
  get_pass_count_from_history_at_height_by_states T [st] t
  = (Ok (Z.of_nat (size (filter (λ kv : InscriptionId * MinerPassInfo, state kv.2 = st)
                           (t_passes t)))), t).
Proof.
  intros [_ L]%(run_ledger_ok 0) HT; [|apply ledger_ok_empty].
  unfold get_pass_count_from_history_at_height_by_states.
  rewrite bool_decide_false by done. unfold gets, count. do 3 f_equal.
  pose proof (lk_sorted _ _ L) as Hs.
  rewrite <-(length_fmap h_inscription_id), <-size_dom.
  rewrite <-(size_list_to_set (C := gset InscriptionId)).
  - f_equal. apply set_eq. intros i. rewrite elem_of_list_to_set, elem_of_dom, list_elem_of_fmap.
    unfold rows_with_states. split.
    + intros (r & -> & [Hst%list_elem_of_singleton Hr]%list_elem_of_filter).
      apply elem_of_latest_rows in Hr; [|done].
      destruct (ledger_row_current _ _ _ _ _ L HT Hr) as (p & Hp & E & _).
      exists p. apply map_lookup_filter_Some. simpl. split; [done|congruence].
    + intros [p [Hp E]%map_lookup_filter_Some]. simpl in E.
      destruct (ledger_current_row _ _ _ _ L Hp) as (r & Hr & Es & _).
      pose proof (row_at_elem _ _ _ _ Hr) as (_ & Hi & _).
      exists r. split; [done|]. apply list_elem_of_filter.
      split; [apply list_elem_of_singleton; congruence|].
      apply elem_of_latest_rows; [done|]. rewrite Hi, (row_at_bound h); [done|apply L|done].
  - eapply sublist_NoDup; [apply latest_rows_NoDup; done|].
    apply fmap_sublist, sublist_filter.
Qed.

(** ** Witnesses *)

Definition demo_pass (n : Z) (h : u32) : MinerPassInfo :=
  {| inscription_id := {| txid := n; index := 0 |}; inscription_number := n; mint_txid := n;
     mint_block_height := h; mint_owner := 1;
     satpoint := {| outpoint := {| op_txid := n; vout := 0 |}; offset := 0 |};
     eth_main := "0x"; eth_collab := None; prev := []; invalid_code := None;
     invalid_reason := None; owner := 1; state := Active |}.
(** Owner 1 mints a pass at 100, and at 101 replaces it by a second one. *)
Definition demo_t100 : Tables := (run_pass_op 100 (OpMint (demo_pass 5 100)) empty_tables).2.
Definition demo_t101 : Tables :=
  (run_pass_op 101 (OpMint (demo_pass 6 101))
     (run_pass_op 101 (OpState {| txid := 5; index := 0 |} Dormant Active) demo_t100).2).2.

Lemma demo_run100 : pass_run 0 empty_tables 100 demo_t100.
Proof. apply (pr_op 0 empty_tables 0); [constructor|lia|done]. Qed.
Lemma demo_run101 : pass_run 0 empty_tables 101 demo_t101.
Proof.
  apply (pr_op 0 empty_tables 101); [|lia|done].
  apply (pr_op 0 empty_tables 100); [apply demo_run100|lia|done].
Qed.
Lemma demo_later : pass_run 101 demo_t100 101 demo_t101.
Proof.
  apply (pr_op 101 demo_t100 101); [|lia|done].
  apply (pr_op 101 demo_t100 101); [constructor|lia|done].
Qed.

Lemma pass_ledger_invariant_witness : ledger_ok 101 demo_t101.
Proof. apply pass_ledger_invariant, demo_run101. Defined.

Lemma rollback_undoes_later_blocks_witness :
  ∃ t', rollback_with_conn 100 None true demo_t101 = (Ok tt, t')
    ∧ same_ledger demo_t100 t'
    ∧ t_state t' !! BTC_SYNCED_BLOCK_HEIGHT_KEY = Some 100
    ∧ t_state t' !! BALANCE_HISTORY_SNAPSHOT_HEIGHT_KEY = None
    ∧ t_state t' !! UPSTREAM_REORG_RECOVERY_PENDING_HEIGHT_KEY = Some 100.
Proof.
  apply (rollback_undoes_later_blocks 100 demo_t100 101 demo_t101 true).
  - apply (run_ledger_ok 0 empty_tables 100 demo_t100 (ledger_ok_empty 0) demo_run100).
  - split_and!; intros k v E; vm_compute in E; discriminate.
  - apply demo_later.
Defined.

Lemma owner_active_at_height_witness :
  ∃ res, get_owner_active_pass_from_history_at_height 1 100 demo_t101 = (Ok res, demo_t101)
    ∧ ∀ i, res = Some (active_info i 1) ↔
        ∃ r, row_at demo_t101 100 i = Some r ∧ h_new_state r = Active ∧ h_new_owner r = 1.
Proof. apply (owner_active_at_height 1 100 101), demo_run101. Defined.

Lemma history_counts_current_table_witness :
  get_pass_count_from_history_at_height_by_states 101 [Active] demo_t101
  = (Ok (Z.of_nat (size (filter (λ kv : InscriptionId * MinerPassInfo, state kv.2 = Active)
                           (t_passes demo_t101)))), demo_t101).
Proof. apply (history_counts_current_table Active 101 101); [apply demo_run101|lia]. Defined.
