(* ===== verification/PassCommit.v ===== *)
(** * Pass block commits

    [usdb-indexer/src/index/pass_commit.rs]: the ordered mutation stream of a block, its root, and
    the rolling block commit that chains the blocks.  The JSON text of a mutation ([serde_json])
    and SHA-256 are the class [CommitHash]; nothing is assumed of them but what a theorem names. *)

From S2P Require Import Prelude Encoding Types PassStorage.

Definition PASS_COMMIT_PROTOCOL_VERSION : string := "1.0.0".
Definition PASS_COMMIT_HASH_ALGO : string := "sha256".

Inductive PassBlockMutation :=
  | Mint (inscription_id : string) (inscription_number : Z) (mint_owner satpoint eth_main : string)
      (eth_collab : option string) (prev : list string)
  | InvalidMint (inscription_id : string) (inscription_number : Z) (mint_owner satpoint : string)
      (error_code error_reason : string)
  | StateTransition (inscription_id from_state to_state owner satpoint : string)
  | OwnerTransfer (inscription_id state from_owner to_owner from_satpoint to_satpoint : string)
  | SatpointUpdate (inscription_id state owner from_satpoint to_satpoint : string).

(** The entry has the fields of the stored row. *)
Abbreviation PassBlockCommitEntry := StoredPassBlockCommitEntry (only parsing).

(** What the balance-history client returns for a block commit, [BlockCommitInfo]. *)
Record BalanceHistoryBlockCommitInfo := {
  bc_block_height : u32;
  bc_block_commit : string;
  bc_commit_protocol_version : string;
  bc_commit_hash_algo : string
}.

Record PassBlockMutationCollector := {
  block_height : u32;
  mutations : list PassBlockMutation
}.

Definition new_collector (h : u32) : PassBlockMutationCollector :=
  {| block_height := h; mutations := [] |}.
Definition push (m : PassBlockMutation) (c : PassBlockMutationCollector) :
    PassBlockMutationCollector :=
  {| block_height := block_height c; mutations := mutations c ++ [m] |}.

(** [serde_json::to_vec] and SHA-256. *)
Class CommitHash := {
  to_json : PassBlockMutation → list Z;
  sha256 : list Z → list Z
}.

Section Commit.
Context `{CommitHash}.

Definition bar : list Z := [124].

(** What one mutation feeds to the hasher. *)
Definition mutation_bytes (m : PassBlockMutation) : list Z :=
  bar ++ be_bytes 4 (i64_as_u32 (count (to_json m))) ++ to_json m.
Definition mutation_root_input (c : PassBlockMutationCollector) : list Z :=
  as_bytes PASS_COMMIT_PROTOCOL_VERSION ++ bar ++ be_bytes 4 (block_height c) ++ bar
  ++ be_bytes 4 (i64_as_u32 (count (mutations c))) ++ mjoin (mutation_bytes <$> mutations c).
Definition mutation_root (c : PassBlockMutationCollector) : string :=
  encode_hex (sha256 (mutation_root_input c)).

Definition previous_commit (prev_local_commit : option PassBlockCommitEntry) : string :=
  match prev_local_commit with Some entry => pc_block_commit entry | None => "genesis" end.

Definition block_commit_input (c : PassBlockMutationCollector)
    (upstream_commit : BalanceHistoryBlockCommitInfo)
    (prev_local_commit : option PassBlockCommitEntry) : list Z :=
  as_bytes PASS_COMMIT_PROTOCOL_VERSION ++ bar ++ be_bytes 4 (block_height c) ++ bar
  ++ as_bytes (previous_commit prev_local_commit) ++ bar
  ++ be_bytes 4 (bc_block_height upstream_commit) ++ bar
  ++ as_bytes (bc_block_commit upstream_commit) ++ bar ++ as_bytes (mutation_root c).

Definition build_commit_entry (c : PassBlockMutationCollector)
    (upstream_commit : BalanceHistoryBlockCommitInfo)
    (prev_local_commit : option PassBlockCommitEntry) : result PassBlockCommitEntry :=
  if negb (bc_block_height upstream_commit =? block_height c)
  then Err "Balance-history block commit height mismatch"
  else Ok
    {| pc_block_height := block_height c;
       pc_balance_history_block_height := bc_block_height upstream_commit;
       pc_balance_history_block_commit := bc_block_commit upstream_commit;
       pc_mutation_root := mutation_root c;
       pc_block_commit := encode_hex (sha256 (block_commit_input c upstream_commit prev_local_commit));
       pc_commit_protocol_version := PASS_COMMIT_PROTOCOL_VERSION;
       pc_commit_hash_algo := PASS_COMMIT_HASH_ALGO |}.
End Commit.

(** ** Injectivity of the encodings *)

Lemma hex_no_bar l : Forall byte l → 124 ∉ as_bytes (encode_hex l).
Proof.
  unfold as_bytes. induction 1 as [|b l Hb Hl IH]; simpl; [by apply not_elem_of_nil|].
  destruct (byte_digits b Hb) as [H1 H2]. rewrite !not_elem_of_cons, !hex_digit_code by done.
  split_and!; [destruct (_ <? 10) eqn:E; b2p; lia..|done].
Qed.

Lemma genesis_not_hex l : Forall byte l → encode_hex l ≠ "genesis"%string.
Proof.
  intros [|b l' Hb Hl]; [done|]. simpl. intros [= E _]. destruct (byte_digits b Hb) as [H1 _].
  apply (f_equal (λ c, Z.of_nat (nat_of_ascii c))) in E. rewrite hex_digit_code in E by done.
  change (Z.of_nat (nat_of_ascii "g")) with 103 in E. destruct (_ <? 10) eqn:E'; b2p; lia.
Qed.

Lemma split_at_bar (a b x y : list Z) :
  124 ∉ a → 124 ∉ b → a ++ 124 :: x = b ++ 124 :: y → a = b ∧ x = y.
Proof.
  revert b. induction a as [|u a IH]; intros [|v b] Ha Hb E; simpl in E.
  - by injection E.
  - injection E as <- E. exfalso. apply Hb. by constructor.
  - injection E as -> E. exfalso. apply Ha. by constructor.
  - injection E as <- E. rewrite not_elem_of_cons in Ha, Hb. destruct Ha, Hb.
    destruct (IH b) as [-> ->]; done.
Qed.

(** ** The commit chain *)

(** What is documented of the two libraries: [serde_json] tells mutations apart, and a SHA-256
    digest is a sequence of bytes. *)
Class CommitHashLaws `{CommitHash} := {
  to_json_inj m1 m2 : to_json m1 = to_json m2 → m1 = m2;
  sha256_bytes l : Forall byte (sha256 l)
}.

(** Lengths that the code casts to [u32] fit. *)
Definition wf_collector `{CommitHash} (c : PassBlockMutationCollector) : Prop :=
  0 <= block_height c <= U32_MAX ∧ count (mutations c) <= U32_MAX
  ∧ Forall (λ m, count (to_json m) <= U32_MAX) (mutations c).

Section Chain.
Context {CH : CommitHash} {Laws : CommitHashLaws}.

Lemma mutation_bytes_cons m ms :
  mjoin (mutation_bytes <$> m :: ms)
  = bar ++ be_bytes 4 (i64_as_u32 (count (to_json m))) ++ to_json m ++ mjoin (mutation_bytes <$> ms).
Proof.
  change (mjoin (mutation_bytes <$> m :: ms))
    with (mutation_bytes m ++ mjoin (mutation_bytes <$> ms)).
  unfold mutation_bytes at 1. by rewrite <-!app_assoc.
Qed.

Lemma mutation_bytes_inj ms1 ms2 :
  Forall (λ m, count (to_json m) <= U32_MAX) ms1 → Forall (λ m, count (to_json m) <= U32_MAX) ms2 →
  length ms1 = length ms2 →
  mjoin (mutation_bytes <$> ms1) = mjoin (mutation_bytes <$> ms2) → ms1 = ms2.
Proof.
  intros H1. revert ms2. induction H1 as [|m1 ms1 Hm1 H1 IH]; intros [|m2 ms2] H2 Hl; try done.
  apply Forall_cons in H2 as [Hm2 H2]. rewrite !mutation_bytes_cons. intros E. apply app_inv_head in E. unfold count in *.
  rewrite !i64_as_u32_id in E by lia.
  apply be4_inj in E as [El E]; [|lia..]. apply app_inj_1 in E as [E E']; [|lia].
  apply to_json_inj in E as ->. f_equal. apply IH; [done|simpl in Hl; lia|done].
Qed.

Lemma mutation_root_input_inj c1 c2 :
  wf_collector c1 → wf_collector c2 → mutation_root_input c1 = mutation_root_input c2 → c1 = c2.
Proof.
  intros (Hh1 & Hn1 & Hm1) (Hh2 & Hn2 & Hm2) E. unfold mutation_root_input, bar in E.
  apply app_inv_head, app_inv_head in E. apply be4_inj in E as [Eh E]; [|done..].
  apply app_inv_head in E. unfold count in *. rewrite !i64_as_u32_id in E by lia.
  apply be4_inj in E as [En E]; [|lia..]. apply mutation_bytes_inj in E; [|done..|lia].
  destruct c1, c2; simpl in *; congruence.
Qed.

(** A chain of blocks: each entry is built on the previous one, from no entry on.  The last
    argument lists what was fed to the hash. *)
Inductive chain : list (PassBlockMutationCollector * BalanceHistoryBlockCommitInfo) →
    option PassBlockCommitEntry → list (list Z) → Prop :=
  | chain_nil : chain [] None []
  | chain_snoc bs prev ins c u e :
      chain bs prev ins → wf_collector c → 124 ∉ as_bytes (bc_block_commit u) →
      build_commit_entry c u prev = Ok e →
      chain (bs ++ [(c, u)]) (Some e) (ins ++ [mutation_root_input c; block_commit_input c u prev]).

(** What a block commit binds of a block. *)
Definition bound_view (b : PassBlockMutationCollector * BalanceHistoryBlockCommitInfo) :
    PassBlockMutationCollector * u32 * string :=
  (b.1, bc_block_height b.2, bc_block_commit b.2).

Lemma build_commit_entry_Ok c u prev e :
  build_commit_entry c u prev = Ok e →
  bc_block_height u = block_height c
  ∧ pc_block_commit e = encode_hex (sha256 (block_commit_input c u prev))
  ∧ pc_mutation_root e = mutation_root c.
Proof. unfold build_commit_entry. destruct (_ =? _) eqn:E; intros; simplify_eq/=; by b2p. Qed.

Lemma chain_commit_hex bs e ins :
  chain bs (Some e) ins → ∃ l, Forall byte l ∧ pc_block_commit e = encode_hex l.
Proof.
  inversion 1 as [|? prev ? c u ? _ _ _ Hb]; subst. apply build_commit_entry_Ok in Hb as (_ & -> & _).
  eexists. split; [apply sha256_bytes|done].
Qed.

Lemma previous_commit_no_bar bs prev ins : chain bs prev ins → 124 ∉ as_bytes (previous_commit prev).
Proof.
  intros Hc. destruct prev as [e|].
  - destruct (chain_commit_hex _ _ _ Hc) as (l & Hl & E). simpl. rewrite E. by apply hex_no_bar.
  - apply (bool_decide_unpack _). by vm_compute.
Qed.

Lemma block_commit_input_inj bs1 bs2 ins1 ins2 p1 p2 c1 c2 u1 u2 :
  chain bs1 p1 ins1 → chain bs2 p2 ins2 → wf_collector c1 → wf_collector c2 →
  bc_block_height u1 = block_height c1 → bc_block_height u2 = block_height c2 →
  124 ∉ as_bytes (bc_block_commit u1) → 124 ∉ as_bytes (bc_block_commit u2) →
  block_commit_input c1 u1 p1 = block_commit_input c2 u2 p2 →
  previous_commit p1 = previous_commit p2 ∧ bc_block_height u1 = bc_block_height u2
  ∧ bc_block_commit u1 = bc_block_commit u2 ∧ mutation_root c1 = mutation_root c2.
Proof.
  intros Hc1 Hc2 W1 W2 E1 E2 Hu1 Hu2 E. unfold block_commit_input, bar in E.
  apply app_inv_head, app_inv_head in E. apply be4_inj in E as [_ E]; [|apply W1|apply W2].
  apply app_inv_head in E.
  apply split_at_bar in E as [Ep E]; [|by eapply previous_commit_no_bar..].
  apply be4_inj in E as [Eh E]; [|rewrite E1; apply W1|rewrite E2; apply W2].
  apply app_inv_head in E. apply split_at_bar in E as [Eu E]; [|done..].
  apply as_bytes_inj in Ep, Eu, E. done.
Qed.

(** C28. The rolling commit binds the whole history: if two chains of pass blocks end in the same block
    commit, and SHA-256 does not collide on what the two indexers hashed, then both processed the
    same number of blocks with the same heights, the same ordered mutations and the same upstream
    commits. *)
Theorem commit_chain_binding bs1 bs2 e1 e2 ins1 ins2 :
  chain bs1 (Some e1) ins1 → chain bs2 (Some e2) ins2 →
  (∀ a b, a ∈ ins1 ++ ins2 → b ∈ ins1 ++ ins2 → sha256 a = sha256 b → a = b) →
  pc_block_commit e1 = pc_block_commit e2 →
  bound_view <$> bs1 = bound_view <$> bs2.
Proof.
  remember (Some e1) as o1 eqn:E1. intros H1. revert e1 E1 bs2 e2 ins2.
  induction H1 as [|bs1 p1 ins1 c1 u1 e1' Hc1 IH W1 Hu1 Hb1]; intros e1 E1 bs2 e2 ins2; [done|].
  injection E1 as ->. inversion 1 as [|bs2' p2 ins2' c2 u2 ? Hc2 W2 Hu2 Hb2]; subst.
  intros Hnc E. destruct (build_commit_entry_Ok _ _ _ _ Hb1) as (Eh1 & Ec1 & _).
  destruct (build_commit_entry_Ok _ _ _ _ Hb2) as (Eh2 & Ec2 & _).
  rewrite Ec1, Ec2 in E. apply encode_hex_inj in E; [|apply sha256_bytes..].
  apply Hnc in E; [|set_solver..].
  destruct (block_commit_input_inj _ _ _ _ _ _ _ _ _ _ Hc1 Hc2 W1 W2 Eh1 Eh2 Hu1 Hu2 E)
    as (Ep & Eh & Eu & Er).
  apply encode_hex_inj in Er; [|apply sha256_bytes..]. apply Hnc in Er; [|set_solver..].
  apply mutation_root_input_inj in Er as <-; [|done..].
  rewrite !fmap_app. f_equal; [|unfold bound_view; simpl; congruence].
  destruct p1 as [e1'|], p2 as [e2'|]; simpl in Ep.
  - eapply IH; [done|exact Hc2| |done]. intros a b Ha Hb. apply Hnc; set_solver.
  - destruct (chain_commit_hex _ _ _ Hc1) as (l & Hl & E'). rewrite E' in Ep.
    by destruct (genesis_not_hex l Hl).
  - destruct (chain_commit_hex _ _ _ Hc2) as (l & Hl & E'). rewrite E' in Ep.
    by destruct (genesis_not_hex l Hl).
  - inversion Hc1; inversion Hc2; by subst.
Qed.
End Chain.

(** ** Witness

    A concrete text and digest that satisfy the laws. *)

Definition mutation_fields (m : PassBlockMutation) :
    Z * Z * list string * option string * list string :=
  match m with
  | Mint i n o sp e c p => (0, n, [i; o; sp; e], c, p)
  | InvalidMint i n o sp c r => (1, n, [i; o; sp; c; r], None, [])
  | StateTransition i f t o sp => (2, 0, [i; f; t; o; sp], None, [])
  | OwnerTransfer i s f t fs ts => (3, 0, [i; s; f; t; fs; ts], None, [])
  | SatpointUpdate i s o fs ts => (4, 0, [i; s; o; fs; ts], None, [])
  end.

#[export] Instance mutation_fields_inj : Inj (=) (=) mutation_fields.
Proof. intros [] []; simpl; intros; by simplify_eq. Qed.

Definition plain_hash : CommitHash :=
  {| to_json m := [Z.pos (encode (mutation_fields m))]; sha256 l := (λ b, b mod 256) <$> l |}.

Lemma plain_hash_laws : @CommitHashLaws plain_hash.
Proof.
  split; simpl.
  - intros m1 m2 [= E]. by apply (inj mutation_fields), (inj encode).
  - intros l. apply Forall_forall. intros x (y & -> & _)%list_elem_of_fmap.
    unfold byte. pose proof (Z.mod_pos_bound y 256). lia.
Qed.

Definition demo_upstream (h : u32) : BalanceHistoryBlockCommitInfo :=
  {| bc_block_height := h; bc_block_commit := "ab01"; bc_commit_protocol_version := "1.0.0";
     bc_commit_hash_algo := "sha256" |}.
Definition demo_entry : PassBlockCommitEntry :=
  let CH := plain_hash in
  {| pc_block_height := 7; pc_balance_history_block_height := 7;
     pc_balance_history_block_commit := "ab01"; pc_mutation_root := mutation_root (new_collector 7);
     pc_block_commit := encode_hex (sha256 (block_commit_input (new_collector 7) (demo_upstream 7) None));
     pc_commit_protocol_version := PASS_COMMIT_PROTOCOL_VERSION;
     pc_commit_hash_algo := PASS_COMMIT_HASH_ALGO |}.
Definition demo_inputs : list (list Z) :=
  let CH := plain_hash in
  [mutation_root_input (new_collector 7); block_commit_input (new_collector 7) (demo_upstream 7) None].

Lemma demo_chain : @chain plain_hash [(new_collector 7, demo_upstream 7)] (Some demo_entry) demo_inputs.
Proof.
  apply (@chain_snoc plain_hash [] None []); [constructor| | |reflexivity].
  - split_and!; [unfold count, U32_MAX; simpl; lia..|constructor].
  - apply (bool_decide_unpack _). by vm_compute.
Qed.

Lemma demo_no_collision a b :
  a ∈ demo_inputs ++ demo_inputs → b ∈ demo_inputs ++ demo_inputs →
  @sha256 plain_hash a = @sha256 plain_hash b → a = b.
Proof.
  assert (∀ x, x ∈ demo_inputs ++ demo_inputs → @sha256 plain_hash x = x) as H.
  { apply Forall_forall. apply (bool_decide_unpack _). by vm_compute. }
  intros Ha Hb E. by rewrite <-(H a Ha), <-(H b Hb).
Qed.

Lemma commit_chain_binding_witness :
  bound_view <$> [(new_collector 7, demo_upstream 7)]
  = bound_view <$> [(new_collector 7, demo_upstream 7)].
Proof.
  apply (commit_chain_binding (Laws := plain_hash_laws) _ _ _ _ _ _ demo_chain demo_chain);
    [apply demo_no_collision|reflexivity].
Defined.
