(* ===== verification/Pass.v ===== *)
(** * Pass manager

    [usdb-indexer/src/index/pass.rs], [MinerPassManager]: mint, invalid mint, transfer and burn of
    a pass over the pass store, the energy manager and the mutation collector of the block. *)

From S2P Require Import Prelude Types EnergyFormula EnergyStorage Energy.
From S2P Require Import PassStorage PassLedger PassCommit.

(** The text forms ([Display]) of the identifiers of the ord and bitcoin crates and of a script
    hash, as they enter the mutation stream. *)
Class IdText := {
  inscription_id_to_string : InscriptionId → string;
  satpoint_to_string : SatPoint → string;
  script_hash_to_string : USDBScriptHash → string
}.

Record PassMintInscriptionInfo := {
  mi_inscription_id : InscriptionId;
  mi_inscription_number : Z;
  mi_mint_txid : Txid;
  mi_mint_block_height : u32;
  mi_mint_owner : USDBScriptHash;
  mi_satpoint : SatPoint;
  mi_eth_main : string;
  mi_eth_collab : option string;
  mi_prev : list InscriptionId
}.

Record InvalidPassMintInscriptionInfo := {
  ii_inscription_id : InscriptionId;
  ii_inscription_number : Z;
  ii_mint_txid : Txid;
  ii_mint_block_height : u32;
  ii_mint_owner : USDBScriptHash;
  ii_satpoint : SatPoint;
  ii_error_code : string;
  ii_error_reason : string
}.

(** The manager with the stores it shares with the indexer. *)
Record MinerPassManager := {
  pm_storage : PassDb;
  pm_energy : EnergyDb;
  pm_collector : option PassBlockMutationCollector
}.

Definition set_pm_storage (d : PassDb) (s : MinerPassManager) : MinerPassManager :=
  {| pm_storage := d; pm_energy := pm_energy s; pm_collector := pm_collector s |}.
Definition set_pm_energy (e : EnergyDb) (s : MinerPassManager) : MinerPassManager :=
  {| pm_storage := pm_storage s; pm_energy := e; pm_collector := pm_collector s |}.
Definition set_pm_collector (c : option PassBlockMutationCollector) (s : MinerPassManager) :
    MinerPassManager :=
  {| pm_storage := pm_storage s; pm_energy := pm_energy s; pm_collector := c |}.

Definition pm_tables (s : MinerPassManager) : Tables := tables (pm_storage s).
Definition set_pm_tables (t : Tables) (s : MinerPassManager) : MinerPassManager :=
  set_pm_storage (set_tables t (pm_storage s)) s.

(** Calls on the pass store and on the energy manager. *)
Definition store {A} (m : M Tables A) : M MinerPassManager A := zoom pm_tables set_pm_tables m.
Definition on_energy {A} (m : M EnergyDb A) : M MinerPassManager A := zoom pm_energy set_pm_energy m.

(** ** The mutation collector of the block *)

Definition begin_block_mutation_collection (h : u32) : M MinerPassManager unit :=
  let! current := gets pm_collector in
  match current with
  | Some _ => fail "Pass block mutation collector is already active when starting block"
  | None => modify (set_pm_collector (Some (new_collector h)))
  end.

(** [take()] empties the slot even when the height does not match. *)
Definition take_block_mutation_collector (h : u32) :
    M MinerPassManager PassBlockMutationCollector :=
  let! current := gets pm_collector in
  let! _ := modify (set_pm_collector None) in
  let! collector :=
    lift (ok_or "Pass block mutation collector is not active when finalizing block" current) in
  if negb (block_height collector =? h)
  then fail "Pass block mutation collector height mismatch"
  else ret collector.

Definition clear_block_mutation_collection : M MinerPassManager unit :=
  modify (set_pm_collector None).
Definition has_active_block_mutation_collection (s : MinerPassManager) : bool :=
  match pm_collector s with Some _ => true | None => false end.

Definition push_block_mutation (mutation : PassBlockMutation) : M MinerPassManager unit :=
  modify (λ s, set_pm_collector (push mutation <$> pm_collector s) s).

Section Handlers.
Context `{BalanceProvider} `{IdText}.

(** ** Mint *)

Definition dormant_last_pass (mint_info : PassMintInscriptionInfo) : M MinerPassManager unit :=
  let! existing_pass := store (get_last_active_mint_pass_by_owner (mi_mint_owner mint_info)) in
  match existing_pass with
  | None => ret tt
  | Some last_pass =>
      let! _ := assert (bool_decide (state last_pass = Active)) "Existing pass should be active" in
      let! _ := assert (mint_block_height last_pass <=? mi_mint_block_height mint_info)
                  "Existing pass mint block height should be less than or equal to new mint" in
      let! _ := store (update_state_at_height (inscription_id last_pass) Dormant Active
                         (mi_mint_block_height mint_info)) in
      let! _ := push_block_mutation (StateTransition
                  (inscription_id_to_string (inscription_id last_pass))
                  (as_str Active) (as_str Dormant)
                  (script_hash_to_string (owner last_pass))
                  (satpoint_to_string (satpoint last_pass))) in
      on_energy (on_pass_dormant (inscription_id last_pass) (mi_mint_block_height mint_info))
  end.

Definition consume_pass (i : InscriptionId) (h : u32) : M MinerPassManager u64 :=
  let! found := store (get_pass_by_inscription_id i) in
  let! pass := lift (ok_or "Miner Pass not found for consuming" found) in
  let! _ := assert (bool_decide (state pass = Dormant))
              "Miner Pass must be dormant before consuming" in
  let! _ := store (update_state_at_height i Consumed (state pass) h) in
  let! _ := push_block_mutation (StateTransition (inscription_id_to_string i)
              (as_str (state pass)) (as_str Consumed)
              (script_hash_to_string (owner pass)) (satpoint_to_string (satpoint pass))) in
  let! got := on_energy (get_pass_energy i h) in
  let! e := lift (ok_or "Miner Pass energy not found for consuming" got) in
  let! _ := assert (bool_decide (res_state e = Dormant))
              "Miner Pass energy state must be Dormant before consuming" in
  let! _ := on_energy (on_pass_consumed i (owner pass) h) in
  ret (energy e).

(** One round of the loop over the previous passes named by a mint. *)
Definition inherit_round (mint_info : PassMintInscriptionInfo) (inherited_energy : u64)
    (prev_inscription_id : InscriptionId) : M MinerPassManager u64 :=
  let! found := store (get_pass_by_inscription_id prev_inscription_id) in
  match found with
  | Some prev_pass =>
      if negb (owner prev_pass =? mi_mint_owner mint_info) then ret inherited_energy
      else
        let! _ := assert (negb (bool_decide (state prev_pass = Active)))
                    "Previous Miner Pass should not be active when minting new pass" in
        if negb (bool_decide (state prev_pass = Dormant)) then ret inherited_energy
        else
          let! e := consume_pass prev_inscription_id (mi_mint_block_height mint_info) in
          ret (u64_saturating_add inherited_energy e)
  | None => ret inherited_energy
  end.

Definition minted_pass (mint_info : PassMintInscriptionInfo) : MinerPassInfo :=
  {| inscription_id := mi_inscription_id mint_info;
     inscription_number := mi_inscription_number mint_info;
     mint_txid := mi_mint_txid mint_info; mint_block_height := mi_mint_block_height mint_info;
     mint_owner := mi_mint_owner mint_info; satpoint := mi_satpoint mint_info;
     eth_main := mi_eth_main mint_info; eth_collab := mi_eth_collab mint_info;
     prev := mi_prev mint_info; invalid_code := None; invalid_reason := None;
     owner := mi_mint_owner mint_info; state := Active |}.

Definition on_mint_pass (mint_info : PassMintInscriptionInfo) : M MinerPassManager unit :=
  let! _ := dormant_last_pass mint_info in
  let info := minted_pass mint_info in
  let! _ := store (add_new_mint_pass_at_height info (mi_mint_block_height mint_info)) in
  let! _ := push_block_mutation (Mint (inscription_id_to_string (inscription_id info))
              (inscription_number info) (script_hash_to_string (mint_owner info))
              (satpoint_to_string (satpoint info)) (eth_main info) (eth_collab info)
              (inscription_id_to_string <$> prev info)) in
  let! inherited_energy := fold_m (mi_prev mint_info) 0 (inherit_round mint_info) in
  on_energy (on_new_pass (mi_inscription_id mint_info) (mi_mint_owner mint_info)
               (mi_mint_block_height mint_info) inherited_energy).

Definition on_invalid_mint_pass (invalid_info : InvalidPassMintInscriptionInfo) :
    M MinerPassManager unit :=
  let info :=
    {| inscription_id := ii_inscription_id invalid_info;
       inscription_number := ii_inscription_number invalid_info;
       mint_txid := ii_mint_txid invalid_info;
       mint_block_height := ii_mint_block_height invalid_info;
       mint_owner := ii_mint_owner invalid_info; satpoint := ii_satpoint invalid_info;
       eth_main := ""; eth_collab := None; prev := [];
       invalid_code := Some (ii_error_code invalid_info);
       invalid_reason := Some (ii_error_reason invalid_info);
       owner := ii_mint_owner invalid_info; state := Invalid |} in
  let! _ := store (add_invalid_mint_pass_at_height info (ii_mint_block_height invalid_info)) in
  push_block_mutation (InvalidMint (inscription_id_to_string (inscription_id info))
    (inscription_number info) (script_hash_to_string (mint_owner info))
    (satpoint_to_string (satpoint info)) (ii_error_code invalid_info)
    (ii_error_reason invalid_info)).

(** ** Transfer and burn *)

Definition on_pass_transfer (i : InscriptionId) (new_owner : USDBScriptHash) (sp : SatPoint)
    (h : u32) : M MinerPassManager unit :=
  let! found := store (get_pass_by_inscription_id i) in
  let! pass := lift (ok_or "Miner Pass not found for transfer" found) in
  let! _ := (if bool_decide (state pass = Active)
             then let! _ := on_energy (update_pass_energy i h) in ret tt
             else ret tt) in
  if owner pass =? new_owner then
    let! _ := store (update_satpoint_at_height i (satpoint pass) sp h) in
    push_block_mutation (SatpointUpdate (inscription_id_to_string i) (as_str (state pass))
      (script_hash_to_string (owner pass)) (satpoint_to_string (satpoint pass))
      (satpoint_to_string sp))
  else
    let! _ := (if bool_decide (state pass = Active)
               then
                 let! _ := on_energy (on_pass_dormant i h) in
                 let! _ := store (update_state_at_height i Dormant Active h) in
                 push_block_mutation (StateTransition (inscription_id_to_string i)
                   (as_str Active) (as_str Dormant)
                   (script_hash_to_string (owner pass)) (satpoint_to_string (satpoint pass)))
               else ret tt) in
    let! _ := store (transfer_owner_at_height i new_owner sp h) in
    push_block_mutation (OwnerTransfer (inscription_id_to_string i)
      (if bool_decide (state pass = Active) then as_str Dormant else as_str (state pass))
      (script_hash_to_string (owner pass)) (script_hash_to_string new_owner)
      (satpoint_to_string (satpoint pass)) (satpoint_to_string sp)).

Definition on_pass_burned (i : InscriptionId) (h : u32) : M MinerPassManager unit :=
  let! found := store (get_pass_by_inscription_id i) in
  let! pass := lift (ok_or "Miner Pass not found for burning" found) in
  let! _ := (if bool_decide (state pass = Active)
             then let! _ := on_energy (update_pass_energy i h) in ret tt
             else ret tt) in
  let! _ := store (update_state_at_height i Burned (state pass) h) in
  push_block_mutation (StateTransition (inscription_id_to_string i) (as_str (state pass))
    (as_str Burned) (script_hash_to_string (owner pass)) (satpoint_to_string (satpoint pass))).
End Handlers.

(** ** Events of a block *)

Inductive pass_event :=
  | EvMint (info : PassMintInscriptionInfo)
  | EvInvalidMint (info : InvalidPassMintInscriptionInfo)
  | EvTransfer (i : InscriptionId) (new_owner : USDBScriptHash) (sp : SatPoint)
  | EvBurn (i : InscriptionId).

(** The minting block is the block being processed. *)
Definition event_at (h : u32) (ev : pass_event) : Prop :=
  match ev with
  | EvMint info => mi_mint_block_height info = h
  | EvInvalidMint info => ii_mint_block_height info = h
  | _ => True
  end.

(** The state changes the handlers request of the store. *)
Definition allowed_change (from to : MinerPassState) : Prop :=
  (from = Active ∧ to = Dormant) ∨ (from = Dormant ∧ to = Consumed) ∨ to = Burned.

Section Events.
Context {BP : BalanceProvider} {IT : IdText}.

Definition run_event (h : u32) (ev : pass_event) : M MinerPassManager unit :=
  match ev with
  | EvMint info => on_mint_pass info
  | EvInvalidMint info => on_invalid_mint_pass info
  | EvTransfer i o sp => on_pass_transfer i o sp h
  | EvBurn i => on_pass_burned i h
  end.

End Events.

(** *** Every handler is a sequence of store operations

    A relation on the tables that the store operations of block [h] respect is respected by the
    handlers. *)
Record store_respects (h : u32) (Rt : Tables → Tables → Prop) : Prop := {
  sr_mint p : mint_block_height p = h → state p = Active → moves Rt (add_new_mint_pass_at_height p h);
  sr_invalid p : mint_block_height p = h → state p = Invalid →
    moves Rt (add_invalid_mint_pass_at_height p h);
  sr_state i from to : allowed_change from to → moves Rt (update_state_at_height i to from h);
  sr_transfer i o sp : moves Rt (transfer_owner_at_height i o sp h);
  sr_satpoint i sp sp' : moves Rt (update_satpoint_at_height i sp sp' h)
}.

Definition via_tables (Rt : Tables → Tables → Prop) (s s' : MinerPassManager) : Prop :=
  Rt (pm_tables s) (pm_tables s').

#[export] Instance via_tables_refl Rt `{!Reflexive Rt} : Reflexive (via_tables Rt).
Proof. intros s. unfold via_tables. reflexivity. Qed.
#[export] Instance via_tables_trans Rt `{!Transitive Rt} : Transitive (via_tables Rt).
Proof. intros a b c. unfold via_tables. apply transitivity. Qed.

Section Moves.
Context {BP : BalanceProvider} {IT : IdText} (Rt : Tables → Tables → Prop) `{!Reflexive Rt, !Transitive Rt}.

Lemma moves_store {A} (m : M Tables A) : moves Rt m → moves (via_tables Rt) (store m).
Proof. intros Hm s. apply Hm. Qed.
Lemma moves_on_energy {A} (m : M EnergyDb A) : moves (via_tables Rt) (on_energy m).
Proof. intros s. unfold via_tables. reflexivity. Qed.
Lemma moves_push m : moves (via_tables Rt) (push_block_mutation m).
Proof. intros s. unfold via_tables. reflexivity. Qed.
Lemma moves_read {A} (f : Tables → A) : moves (via_tables Rt) (store (gets f)).
Proof. apply moves_store, moves_gets; apply _. Qed.
#[local] Hint Resolve moves_store moves_on_energy moves_push moves_read sr_mint sr_invalid sr_state
  sr_transfer sr_satpoint : moves.

Lemma change_dormant : allowed_change Active Dormant.
Proof. by left. Qed.
Lemma change_consumed : allowed_change Dormant Consumed.
Proof. by right; left. Qed.
Lemma change_burned s : allowed_change s Burned.
Proof. by right; right. Qed.
#[local] Hint Resolve change_dormant change_consumed change_burned : moves.

Ltac handler :=
  repeat first
    [ solve [eauto with moves typeclass_instances]
    | apply moves_assert_bind; [apply _|intros ?]
    | apply moves_bind; [apply _| |intros ?]
    | apply moves_if | case_match ].

Lemma consume_pass_moves h i : store_respects h Rt → moves (via_tables Rt) (consume_pass i h).
Proof.
  intros HR. unfold consume_pass. handler. b2p. apply moves_store, (sr_state _ _ HR).
  rewrite H. apply change_consumed.
Qed.
#[local] Hint Resolve consume_pass_moves : moves.

Lemma inherit_round_moves h info acc i :
  store_respects h Rt → mi_mint_block_height info = h →
  moves (via_tables Rt) (inherit_round info acc i).
Proof. intros HR <-. unfold inherit_round. handler. Qed.

Lemma dormant_last_pass_moves h info :
  store_respects h Rt → mi_mint_block_height info = h →
  moves (via_tables Rt) (dormant_last_pass info).
Proof. intros HR <-. unfold dormant_last_pass. handler. Qed.

Lemma run_event_moves h ev :
  store_respects h Rt → event_at h ev → moves (via_tables Rt) (run_event h ev).
Proof.
  intros HR. destruct ev as [info|info|i o sp|i]; simpl; intros Hev.
  - unfold on_mint_pass. apply moves_bind; [apply _|by eapply dormant_last_pass_moves|intros _].
    rewrite Hev. handler. apply moves_fold_m; [apply _..|]. intros. by apply (inherit_round_moves h).
  - unfold on_invalid_mint_pass. rewrite Hev. handler.
  - unfold on_pass_transfer. handler.
  - unfold on_pass_burned. handler.
Qed.
End Moves.

(** ** The ledger through the handlers *)

(** [Rt] for the ledger: whatever reached the tables before reaches them after. *)
Definition run_extends (h h0 : u32) (t0 t t' : Tables) : Prop :=
  ∀ h1, pass_run h0 t0 h1 t → h1 <= h → ∃ h2, pass_run h0 t0 h2 t' ∧ h2 <= h.

#[export] Instance run_extends_refl h h0 t0 : Reflexive (run_extends h h0 t0).
Proof. intros t h1. eauto. Qed.
#[export] Instance run_extends_trans h h0 t0 : Transitive (run_extends h h0 t0).
Proof. intros a b c Hab Hbc h1 Hr Hle. destruct (Hab _ Hr Hle) as (h2 & ? & ?). eauto. Qed.

Lemma op_extends h h0 t0 op : pass_op_at h op → moves (run_extends h h0 t0) (run_pass_op h op).
Proof. intros Hop t h1 Hr Hle. exists h. split; [by eapply pr_op|lia]. Qed.

Lemma run_extends_respects h h0 t0 : store_respects h (run_extends h h0 t0).
Proof.
  split.
  - intros p Hp _. by apply (op_extends h h0 t0 (OpMint p)).
  - intros p Hp _. by apply (op_extends h h0 t0 (OpInvalidMint p)).
  - intros i from to _. by apply (op_extends h h0 t0 (OpState i to from)).
  - intros i o sp. by apply (op_extends h h0 t0 (OpTransfer i o sp)).
  - intros i sp sp'. by apply (op_extends h h0 t0 (OpSatpoint i sp sp')).
Qed.

Section Ledger.
Context {BP : BalanceProvider} {IT : IdText}.

(** The events of one block, up to the first that fails. *)
Definition run_events (h : u32) (evs : list pass_event) : M MinerPassManager unit :=
  for_each evs (run_event h).

Lemma run_events_extends h h0 t0 evs :
  Forall (event_at h) evs → moves (via_tables (run_extends h h0 t0)) (run_events h evs).
Proof.
  unfold run_events. induction 1 as [|ev evs Hev Hevs IH]; simpl.
  - apply moves_ret. apply _.
  - apply moves_bind; [apply _| |intros _; exact IH].
    apply run_event_moves; [apply _..| |done]. apply run_extends_respects.
Qed.

(** Blocks of events at heights above [T], in order. *)
Fixpoint run_blocks (blocks : list (u32 * list pass_event)) (s : MinerPassManager) :
    MinerPassManager :=
  match blocks with
  | [] => s
  | (h, evs) :: blocks => run_blocks blocks (run_events h evs s).2
  end.
Fixpoint blocks_above (T : u32) (blocks : list (u32 * list pass_event)) : Prop :=
  match blocks with
  | [] => True
  | (h, evs) :: blocks => T < h ∧ Forall (event_at h) evs ∧ blocks_above h blocks
  end.

Lemma run_blocks_reach T h0 t0 h1 blocks s :
  pass_run h0 t0 h1 (pm_tables s) → h1 <= T + 1 → blocks_above T blocks →
  ∃ h2, pass_run h0 t0 h2 (pm_tables (run_blocks blocks s)).
Proof.
  revert T h1 s. induction blocks as [|[h evs] blocks IH]; intros T h1 s Hr Hle Hb; [by exists h1|].
  destruct Hb as (HT & Hev & Hb). simpl.
  destruct (run_events_extends h h0 t0 evs Hev s h1 Hr ltac:(lia)) as (h2 & Hr2 & Hle2).
  apply (IH h h2); [exact Hr2|lia|done].
Qed.

(** C23. Processing any blocks of mints, transfers and burns above [T] on top of a ledger of height [T],
    and then rolling back to [T], gives the ledger back, whatever the handlers did in between. *)
Theorem blocks_rollback T t0 blocks s mark :
  ledger_ok T t0 → side_bound T t0 → pm_tables s = t0 → blocks_above T blocks →
  ∃ t', rollback_with_conn T None mark (pm_tables (run_blocks blocks s)) = (Ok tt, t')
        ∧ same_ledger t0 t'.
Proof.
  intros L Hs E Hb. subst t0.
  destruct (run_blocks_reach T (T + 1) (pm_tables s) (T + 1) blocks s) as [h Hr];
    [constructor|lia|done|].
  destruct (rollback_undoes T (pm_tables s) h (pm_tables (run_blocks blocks s)) mark L Hs Hr)
    as (t' & ? & ? & _). eauto.
Qed.
End Ledger.

(** ** The pass state machine *)

(** The transitions of a pass, from not minted to burned. *)
Inductive state_step : option MinerPassState → option MinerPassState → Prop :=
  | step_mint : state_step None (Some Active)
  | step_invalid_mint : state_step None (Some Invalid)
  | step_dormant : state_step (Some Active) (Some Dormant)
  | step_consume : state_step (Some Dormant) (Some Consumed)
  | step_burn st : state_step (Some st) (Some Burned).

Definition pass_state (t : Tables) (i : InscriptionId) : option MinerPassState :=
  state <$> t_passes t !! i.

(** Every pass moves along the machine. *)
Definition state_moves (t t' : Tables) : Prop :=
  ∀ i, rtc state_step (pass_state t i) (pass_state t' i).

#[export] Instance state_moves_refl : Reflexive state_moves.
Proof. intros t i. reflexivity. Qed.
#[export] Instance state_moves_trans : Transitive state_moves.
Proof. intros a b c Hab Hbc i. etransitivity; [apply Hab|apply Hbc]. Qed.

Lemma write_pass_row_moves i p t :
  rtc state_step (pass_state t i) (Some (state p)) → state_moves t (write_pass_row i p t).2.
Proof.
  intros Hs. unfold write_pass_row. destruct (active_conflict _ _ _); [reflexivity|].
  intros j. unfold pass_state in *. cbn. destruct (decide (i = j)) as [<-|Hne].
  - by rewrite lookup_insert_eq.
  - by rewrite lookup_insert_ne.
Qed.

Lemma append_moves i h ev ps ns po no psp nsp :
  moves state_moves (append_pass_history_event i h ev ps ns po no psp nsp).
Proof. intros t j. reflexivity. Qed.

Lemma insert_moves p :
  state_step None (Some (state p)) → moves state_moves (insert_pass_record p).
Proof.
  intros Hs t. unfold insert_pass_record.
  destruct (t_passes t !! inscription_id p) eqn:E; [reflexivity|].
  apply write_pass_row_moves. unfold pass_state. rewrite E. by apply rtc_once.
Qed.

Lemma update_moves i cond f nf :
  (∀ q, cond q = true → rtc state_step (Some (state q)) (Some (state (f q)))) →
  moves state_moves (update_pass_row i cond f nf).
Proof.
  intros Hc t. unfold update_pass_row. destruct (t_passes t !! i) as [q|] eqn:E; [|reflexivity].
  destruct (cond q) eqn:Ec; [|reflexivity].
  apply write_pass_row_moves. unfold pass_state. rewrite E. by apply Hc.
Qed.

Lemma state_moves_respects h : store_respects h state_moves.
Proof.
  split.
  - intros p _ Hp. unfold add_new_mint_pass_at_height, add_new_mint_pass.
    apply moves_bind; [apply _| |intros; apply append_moves].
    repeat (apply moves_assert_bind; [apply _|intros _]). apply insert_moves. rewrite Hp. constructor.
  - intros p _ Hp. unfold add_invalid_mint_pass_at_height, add_invalid_mint_pass.
    apply moves_bind; [apply _| |intros; apply append_moves].
    repeat (apply moves_assert_bind; [apply _|intros _]). apply insert_moves. rewrite Hp. constructor.
  - intros i from to Hc. apply moves_found_bind; [apply _|]. intros t p _.
    revert t. change (moves state_moves (let! _ := update_state i to from in
      append_pass_history_event i h PASS_HISTORY_EVENT_STATE_UPDATE (Some (state p)) to
        (Some (owner p)) (owner p) (Some (satpoint p)) (satpoint p))).
    apply moves_bind; [apply _| |intros; apply append_moves]. apply update_moves.
    intros q Hq. b2p. simpl. subst from. apply rtc_once.
    destruct Hc as [[-> ->]|[[-> ->]| ->]]; constructor.
  - intros i o sp. apply moves_found_bind; [apply _|]. intros t p _. revert t.
    match goal with |- ∀ t, state_moves t (?m t).2 => change (moves state_moves m) end.
    apply moves_bind; [apply _| |intros; apply append_moves]. by apply update_moves.
  - intros i sp sp'. apply moves_found_bind; [apply _|]. intros t p _. revert t.
    match goal with |- ∀ t, state_moves t (?m t).2 => change (moves state_moves m) end.
    apply moves_bind; [apply _| |intros; apply append_moves]. by apply update_moves.
Qed.

Section StateMachine.
Context {BP : BalanceProvider} {IT : IdText}.

Lemma run_events_state_moves h evs :
  Forall (event_at h) evs → moves (via_tables state_moves) (run_events h evs).
Proof.
  unfold run_events. induction 1 as [|ev evs Hev Hevs IH]; simpl.
  - apply moves_ret. apply _.
  - apply moves_bind; [apply _| |intros _; exact IH].
    apply run_event_moves; [apply _..|apply state_moves_respects|done].
Qed.

Lemma not_reactivated o o' :
  rtc state_step o o' → ∀ st, o = Some st → st ≠ Active → ∃ st', o' = Some st' ∧ st' ≠ Active.
Proof.
  induction 1 as [|a b c Hab _ IH]; intros st -> Hne; [eauto|].
  inversion Hab; subst; try done; by eapply IH.
Qed.

(** C25. Across any events of a block, and whether each of them succeeds or fails, a pass only moves
    along the state machine: minted active or invalid, active to dormant, dormant to consumed, and
    anything to burned; in particular no pass that has stopped being active becomes active again. *)
Theorem pass_state_machine h evs s :
  Forall (event_at h) evs →
  let s' := (run_events h evs s).2 in
  (∀ i, rtc state_step (pass_state (pm_tables s) i) (pass_state (pm_tables s') i))
  ∧ ∀ i st, pass_state (pm_tables s) i = Some st → st ≠ Active →
      ∃ st', pass_state (pm_tables s') i = Some st' ∧ st' ≠ Active.
Proof.
  intros Hev. pose proof (run_events_state_moves h evs Hev s) as Hm. split; [exact Hm|].
  intros i st Hst Hne. by eapply not_reactivated; [apply Hm|..].
Qed.
End StateMachine.

(** ** Inheritance of energy *)

(** The answer of the energy query at a height. *)
Definition energy_at (i : InscriptionId) (h : u32) (db : EnergyDb) : option PassEnergyResult :=
  (λ r, project_energy_record_no_balance_change r h) <$> find_last i h db.

Lemma get_pass_energy_at i h db : get_pass_energy i h db = (Ok (energy_at i h db), db).
Proof. done. Qed.

Lemma energy_at_ext i h db db' :
  wf_db db → wf_db db' → wf_key (i, h) →
  (∀ k, pass_energy_cf db' !! (i, k) = pass_energy_cf db !! (i, k)) →
  energy_at i h db' = energy_at i h db.
Proof.
  intros W W' Wk E. unfold energy_at. f_equal. apply option_eq. intros r.
  rewrite !find_last_is_Some by done. unfold is_latest.
  split; intros (H1 & H2 & H3 & H4); split_and!; try done; [rewrite <-E; done| |rewrite E; done|];
    intros h' v Hv; [rewrite <-E in Hv|rewrite E in Hv]; by eapply H4.
Qed.

Section Inherit.
Context {BP : BalanceProvider} {IT : IdText}.

(** The record that clears the energy of a consumed pass. *)
Definition consumed_record (i : InscriptionId) (o : USDBScriptHash) (h : u32) : PassEnergyRecord :=
  {| er_inscription_id := i; er_block_height := h; er_state := Consumed;
     er_active_block_height := h; er_owner_address := o; er_owner_balance := 0;
     er_owner_delta := 0; er_energy := 0 |}.

Lemma energy_at_consumed i o h db :
  wf_db db → wf_key (i, h) →
  energy_at i h (insert_record (consumed_record i o h) db)
  = Some {| energy := 0; res_state := Consumed |}.
Proof.
  intros W Wk. unfold energy_at. erewrite (proj2 (find_last_is_Some _ _ _ _ _ _)).
  2: apply is_latest_insert; [done|simpl; lia|by intros].
  unfold project_energy_record_no_balance_change. simpl. by destruct (h <=? h).
  Unshelve. all: [> by apply wf_insert_record|done].
Qed.

(** A state update that succeeds, on the tables. *)
Lemma update_state_at_height_Ok i to from h t t' :
  update_state_at_height i to from h t = (Ok tt, t') →
  ∃ p, t_passes t !! i = Some p ∧ state p = from
       ∧ t_passes t' = <[i := set_state to p]> (t_passes t).
Proof.
  unfold update_state_at_height, update_state, update_pass_row, write_pass_row. intros E.
  erewrite bind_run in E by reflexivity. destruct (t_passes t !! i) as [p|] eqn:Ep; [|discriminate].
  erewrite bind_run in E by reflexivity. unfold bind in E. rewrite Ep in E.
  case_bool_decide; [|discriminate]. destruct (active_conflict _ _ _); [discriminate|].
  injection E as <-. exists p. done.
Qed.

Lemma store_read {A} (f : Tables → A) s : store (gets f) s = (Ok (f (pm_tables s)), s).
Proof. by destruct s as [[] ? ?]. Qed.
Lemma store_get_pass i s :
  store (get_pass_by_inscription_id i) s = (Ok (t_passes (pm_tables s) !! i), s).
Proof. apply store_read. Qed.
Lemma on_energy_read i h s : on_energy (get_pass_energy i h) s = (Ok (energy_at i h (pm_energy s)), s).
Proof. by destruct s. Qed.

(** Consuming a pass takes a dormant pass, returns the energy frozen in it, and leaves it consumed
    with a record of zero energy; nothing else changes in the two stores. *)
Lemma consume_pass_Ok i h s e s' :
  consume_pass i h s = (Ok e, s') →
  ∃ p, t_passes (pm_tables s) !! i = Some p ∧ state p = Dormant
    ∧ t_passes (pm_tables s') = <[i := set_state Consumed p]> (t_passes (pm_tables s))
    ∧ energy_at i h (pm_energy s) = Some {| energy := e; res_state := Dormant |}
    ∧ pm_energy s' = insert_record (consumed_record i (owner p) h) (pm_energy s).
Proof.
  unfold consume_pass. intros E. erewrite bind_run in E by apply store_get_pass.
  destruct (t_passes (pm_tables s) !! i) as [p|] eqn:Ep; [|discriminate].
  erewrite bind_run in E by reflexivity.
  case_bool_decide as Hd; [|discriminate]. erewrite bind_run in E by reflexivity.
  apply bind_Ok in E as ([] & s1 & E1 & E). apply zoom_Ok in E1 as (t1 & E1 & ->).
  apply update_state_at_height_Ok in E1 as (p' & Ep' & Hs & Et). assert (p' = p) as -> by congruence.
  erewrite bind_run in E by reflexivity. erewrite bind_run in E by apply on_energy_read.
  match type of E with context [energy_at i h ?d] => change d with (pm_energy s) in E end.
  destruct (energy_at i h (pm_energy s)) as [[x st]|] eqn:Ee; [|discriminate].
  erewrite bind_run in E by reflexivity.
  case_bool_decide as Hst; [|discriminate]. simpl in Hst. subst st. injection E as <- <-.
  exists p. split_and!; try done.
Qed.
(** The passes a mint may inherit from: dormant passes of its owner. *)
Definition inheritable (o : USDBScriptHash) (t : Tables) (i : InscriptionId) : Prop :=
  ∃ p, t_passes t !! i = Some p ∧ owner p = o ∧ state p = Dormant.

(** [l] lists the passes a run consumed, with the energy each of them gave. *)
Record consumed_list (o : USDBScriptHash) (h : u32) (prevs : list InscriptionId)
    (s s' : MinerPassManager) (l : list (InscriptionId * u64)) : Prop := {
  cl_nodup : NoDup l.*1;
  cl_which i : i ∈ l.*1 ↔ i ∈ prevs ∧ inheritable o (pm_tables s) i;
  cl_energy i x : (i, x) ∈ l →
    energy_at i h (pm_energy s) = Some {| energy := x; res_state := Dormant |};
  cl_after i : i ∈ l.*1 →
    pass_state (pm_tables s') i = Some Consumed
    ∧ energy_at i h (pm_energy s') = Some {| energy := 0; res_state := Consumed |};
  cl_others i : i ∉ l.*1 →
    t_passes (pm_tables s') !! i = t_passes (pm_tables s) !! i
    ∧ ∀ k, pass_energy_cf (pm_energy s') !! (i, k) = pass_energy_cf (pm_energy s) !! (i, k);
  cl_wf : wf_db (pm_energy s')
}.

Lemma inherit_round_Ok info acc i s x s' :
  inherit_round info acc i s = (Ok x, s') →
  (s' = s ∧ x = acc ∧ ¬ inheritable (mi_mint_owner info) (pm_tables s) i)
  ∨ (inheritable (mi_mint_owner info) (pm_tables s) i
     ∧ ∃ e, consume_pass i (mi_mint_block_height info) s = (Ok e, s')
            ∧ x = u64_saturating_add acc e).
Proof.
  unfold inherit_round. intros E. erewrite bind_run in E by apply store_get_pass.
  destruct (t_passes (pm_tables s) !! i) as [p|] eqn:Ep.
  2: { left. injection E as <- <-. split_and!; [done..|]. intros (p & Hp & _). congruence. }
  destruct (owner p =? _) eqn:Eo; simpl in E; b2p.
  2: { left. injection E as <- <-. split_and!; [done..|]. intros (q & Hq & Ho & _). congruence. }
  destruct (bool_decide (state p = Active)) eqn:Ea; simpl in E; [discriminate|].
  erewrite bind_run in E by reflexivity. case_bool_decide as Hd; simpl in E.
  - right. apply bind_Ok in E as (e & s1 & E1 & E). injection E as <- <-.
    split; [by exists p|]. by exists e.
  - left. injection E as <- <-. split_and!; [done..|]. intros (q & Hq & _ & Hs). congruence.
Qed.

(** One more pass consumed in front of a run. *)
Lemma consumed_cons o h i prevs s s1 s' e l :
  wf_db (pm_energy s) → wf_key (i, h) → (∀ j, j ∈ prevs → wf_key (j, h)) →
  inheritable o (pm_tables s) i → consume_pass i h s = (Ok e, s1) →
  consumed_list o h prevs s1 s' l → consumed_list o h (i :: prevs) s s' ((i, e) :: l).
Proof.
  intros W Wk Wks Hi Hc [Hnd Hw He Ha Ho Hwf].
  destruct (consume_pass_Ok _ _ _ _ _ Hc) as (p & Hp & Hs & Et & Ee & Een).
  assert (wf_db (pm_energy s1)) as W1 by (rewrite Een; by apply wf_insert_record).
  assert (¬ inheritable o (pm_tables s1) i) as Hni.
  { intros (q & Hq & _ & Hd). rewrite Et, lookup_insert_eq in Hq. by simplify_eq. }
  assert (i ∉ l.*1) as Hil by (rewrite Hw; tauto).
  assert (∀ j, j ≠ i → inheritable o (pm_tables s1) j ↔ inheritable o (pm_tables s) j) as Hsame
    by (intros j Hne; unfold inheritable; rewrite Et; by rewrite lookup_insert_ne).
  assert (∀ j k, j ≠ i → pass_energy_cf (pm_energy s1) !! (j, k) = pass_energy_cf (pm_energy s) !! (j, k))
    as Hcf by (intros j k Hne; rewrite Een; cbn; apply lookup_insert_ne; congruence).
  destruct (Ho i Hil) as [Hpi Hei].
  split; rewrite ?fmap_cons; cbn [fst].
  - by constructor.
  - intros j. rewrite !elem_of_cons, Hw. destruct (decide (j = i)) as [->|Hne]; [tauto|].
    rewrite Hsame by done. tauto.
  - intros j x [[= -> ->]|Hjx]%elem_of_cons; [done|].
    assert (j ∈ l.*1) as Hj by (apply list_elem_of_fmap; by exists (j, x)).
    apply He in Hjx. rewrite <-Hjx. symmetry.
    assert (j ≠ i) by (by intros ->). apply energy_at_ext; [done..| |by intros; apply Hcf].
    apply Wks. by apply Hw in Hj as [? _].
  - intros j [->|Hj]%elem_of_cons; [|by apply Ha]. split.
    + unfold pass_state. rewrite Hpi, Et, lookup_insert_eq. done.
    + rewrite (energy_at_ext i h (pm_energy s1) (pm_energy s')) by done.
      rewrite Een. by apply energy_at_consumed.
  - intros j [Hne Hj]%not_elem_of_cons. destruct (Ho j Hj) as [E1 E2]. split.
    + rewrite E1, Et. by apply lookup_insert_ne.
    + intros k. rewrite E2. by apply Hcf.
  - done.
Qed.

Lemma inherit_loop info prevs : ∀ acc s e s',
  wf_db (pm_energy s) → (∀ i, i ∈ prevs → wf_key (i, mi_mint_block_height info)) →
  fold_m prevs acc (inherit_round info) s = (Ok e, s') →
  ∃ l, consumed_list (mi_mint_owner info) (mi_mint_block_height info) prevs s s' l
       ∧ e = foldl u64_saturating_add acc l.*2.
Proof.
  induction prevs as [|i prevs IH]; intros acc s e s' W Wks E.
  { injection E as <- <-. exists []. split; [|done]. split; try done.
    - constructor.
    - intros j. split; [by intros ?%elem_of_nil|by intros [?%elem_of_nil _]].
    - by intros j x ?%elem_of_nil.
    - by intros j ?%elem_of_nil. }
  simpl in E. apply bind_Ok in E as (x & s1 & E1 & E).
  assert (∀ j, j ∈ prevs → wf_key (j, mi_mint_block_height info)) as Wks'
    by (intros j Hj; apply Wks; apply elem_of_cons; by right).
  apply inherit_round_Ok in E1 as [(-> & -> & Hn)|(Hi & y & Hc & ->)].
  - destruct (IH acc s e s' W Wks' E) as (l & [Hnd Hw He Ha Ho Hwf] & ->). exists l. split; [|done].
    split; try done. intros j. rewrite Hw, elem_of_cons.
    destruct (decide (j = i)) as [->|]; tauto.
  - assert (wf_key (i, mi_mint_block_height info)) as Wk by (apply Wks; by constructor).
    assert (wf_db (pm_energy s1)) as W1.
    { destruct (consume_pass_Ok _ _ _ _ _ Hc) as (p & _ & _ & _ & _ & ->). by apply wf_insert_record. }
    destruct (IH _ s1 e s' W1 Wks' E) as (l & Hl & ->). exists ((i, y) :: l).
    split; [by eapply consumed_cons|done].
Qed.
Lemma last_active_elem o t p :
  head (order_by (λ p, [mint_block_height p]) true
    (filter (λ p, owner p = o ∧ state p = Active) (pass_rows t))) = Some p →
  owner p = o ∧ state p = Active ∧ ∃ i, t_passes t !! i = Some p.
Proof.
  intros E%head_Some_elem_of. rewrite elem_of_order_by, list_elem_of_filter in E.
  destruct E as [[Ho Ha] Hin]. split_and!; [done..|].
  apply list_elem_of_fmap in Hin as ([i q] & -> & Hq%elem_of_map_to_list). by exists i.
Qed.

Lemma on_new_pass_Ok i o h e db db' :
  on_new_pass i o h e db = (Ok tt, db') →
  ∃ b d, db' = insert_record
    {| er_inscription_id := i; er_block_height := h; er_state := Active;
       er_active_block_height := h; er_owner_address := o; er_owner_balance := b;
       er_owner_delta := d; er_energy := e |} db.
Proof.
  unfold on_new_pass, get_balance_at_height. intros E. rewrite bind_assoc in E.
  apply bind_Ok in E as (l & db1 & E1 & E). unfold lift in E1. injection E1 as _ <-.
  rewrite bind_assoc in E. apply bind_Ok in E as (? & db1 & E1 & E).
  unfold assert in E1. destruct (_ <=? 1)%nat; [|discriminate]. injection E1 as _ <-.
  destruct (last l) as [ab|]; cbn in E; injection E as <-; eauto.
Qed.

(** The first part of [on_mint_pass]: the owner's active pass goes dormant and the new one is
    recorded. *)
Definition mint_insert (info : PassMintInscriptionInfo) : M MinerPassManager unit :=
  let! _ := dormant_last_pass info in
  let! _ := store (add_new_mint_pass_at_height (minted_pass info) (mi_mint_block_height info)) in
  push_block_mutation (Mint (inscription_id_to_string (mi_inscription_id info))
    (mi_inscription_number info) (script_hash_to_string (mi_mint_owner info))
    (satpoint_to_string (mi_satpoint info)) (mi_eth_main info) (mi_eth_collab info)
    (inscription_id_to_string <$> mi_prev info)).

Lemma on_mint_pass_split info s :
  on_mint_pass info s
  = (let! _ := mint_insert info in
     let! inherited := fold_m (mi_prev info) 0 (inherit_round info) in
     on_energy (on_new_pass (mi_inscription_id info) (mi_mint_owner info)
                  (mi_mint_block_height info) inherited)) s.
Proof.
  unfold on_mint_pass, mint_insert. rewrite !bind_assoc. unfold bind.
  destruct (dormant_last_pass info s) as [[?|?|?] s1]; try done.
  by destruct (store _ s1) as [[?|?|?] s2].
Qed.

Definition wf_pass_ids (t : Tables) : Prop :=
  ∀ i p, t_passes t !! i = Some p → inscription_id p = i ∧ wf_id i.

Lemma dormant_last_pass_inv `{!BalanceProviderLaws} info s s1 :
  energy_inv (pm_energy s) → wf_pass_ids (pm_tables s) →
  0 <= mi_mint_block_height info < U32_MAX →
  dormant_last_pass info s = (Ok tt, s1) → energy_inv (pm_energy s1).
Proof.
  intros I Wp Hh E. unfold dormant_last_pass in E. erewrite bind_run in E by apply store_read.
  destruct (head _) as [p|] eqn:Ep; [|by injection E as <-].
  apply last_active_elem in Ep as (_ & _ & i & Hi). apply Wp in Hi as [<- Wi].
  apply bind_Ok in E as (? & s2 & E2 & E). unfold assert in E2.
  destruct (bool_decide _); [injection E2 as _ <-|discriminate].
  apply bind_Ok in E as (? & s2 & E2 & E). unfold assert in E2.
  destruct (_ <=? _); [injection E2 as _ <-|discriminate].
  apply bind_Ok in E as (? & s2 & E2 & E). apply zoom_Ok in E2 as (t & _ & ->).
  erewrite bind_run in E by reflexivity. apply zoom_Ok in E as (db & E & ->). cbn in E |- *.
  pose proof (inv_dormant (inscription_id p) (mi_mint_block_height info)
    ltac:(split; [done|simpl; lia]) ltac:(lia) (pm_energy s) I) as Hi.
  by rewrite E in Hi.
Qed.

(** The rows that the two mints insert. *)
Lemma insert_row_Ok p t t' :
  insert_pass_record p t = (Ok tt, t') → t_passes t' = <[inscription_id p := p]> (t_passes t).
Proof.
  unfold insert_pass_record, write_pass_row. destruct (_ !! _); [done|].
  destruct (active_conflict _ _ _); [done|]. by intros [= <-].
Qed.
Lemma mint_row_Ok p h t t' :
  add_new_mint_pass_at_height p h t = (Ok tt, t') →
  t_passes t' = <[inscription_id p := p]> (t_passes t).
Proof.
  intros ([] & t1 & E & E1)%bind_Ok. injection E1 as <-. unfold add_new_mint_pass in E.
  repeat (apply bind_Ok in E as (? & ? & [_ ->]%assert_Ok & E)). by apply insert_row_Ok in E.
Qed.
Lemma invalid_row_Ok p h t t' :
  add_invalid_mint_pass_at_height p h t = (Ok tt, t') →
  t_passes t' = <[inscription_id p := p]> (t_passes t).
Proof.
  intros ([] & t1 & E & E1)%bind_Ok. injection E1 as <-. unfold add_invalid_mint_pass in E.
  repeat (apply bind_Ok in E as (? & ? & [_ ->]%assert_Ok & E)). by apply insert_row_Ok in E.
Qed.

Lemma mint_insert_Ok `{!BalanceProviderLaws} info s s1 :
  energy_inv (pm_energy s) → wf_pass_ids (pm_tables s) →
  0 <= mi_mint_block_height info < U32_MAX →
  mint_insert info s = (Ok tt, s1) →
  energy_inv (pm_energy s1)
  ∧ t_passes (pm_tables s1) !! mi_inscription_id info = Some (minted_pass info).
Proof.
  intros I Wp Hh E. unfold mint_insert in E. apply bind_Ok in E as ([] & s2 & E2 & E).
  apply dormant_last_pass_inv in E2; [|done..]. apply bind_Ok in E as ([] & s3 & E3 & E).
  apply zoom_Ok in E3 as (t & E3 & ->). injection E as <-. split; [done|]. cbn.
  by rewrite (mint_row_Ok _ _ _ _ E3), lookup_insert_eq.
Qed.

(** C24. Minting with previous passes moves energy, it does not copy it: the new pass starts, at its
    mint height, with the (saturating) sum of the energies frozen in exactly the dormant passes of
    the same owner that the mint names, each counted once, and each of them is left consumed with
    no energy. *)
Theorem mint_inherits_energy `{!BalanceProviderLaws} info s s' :
  energy_inv (pm_energy s) → wf_pass_ids (pm_tables s) →
  0 <= mi_mint_block_height info < U32_MAX →
  wf_id (mi_inscription_id info) → (∀ i, i ∈ mi_prev info → wf_id i) →
  on_mint_pass info s = (Ok tt, s') →
  ∃ s1 s2 l v,
    mint_insert info s = (Ok tt, s1)
    ∧ consumed_list (mi_mint_owner info) (mi_mint_block_height info) (mi_prev info) s1 s2 l
    ∧ pass_energy_cf (pm_energy s') !! (mi_inscription_id info, mi_mint_block_height info) = Some v
    ∧ ev_state v = Active ∧ ev_energy v = foldl u64_saturating_add 0 l.*2
    ∧ pass_state (pm_tables s') (mi_inscription_id info) = Some Active
    ∧ ∀ i, i ∈ l.*1 → pass_state (pm_tables s') i = Some Consumed
        ∧ energy_at i (mi_mint_block_height info) (pm_energy s')
          = Some {| energy := 0; res_state := Consumed |}.
Proof.
  intros I Wp Hh Wid Wprev E. rewrite on_mint_pass_split in E.
  apply bind_Ok in E as ([] & s1 & E1 & E). apply bind_Ok in E as (e & s2 & E2 & E).
  destruct (mint_insert_Ok _ _ _ I Wp Hh E1) as [I1 Hnew].
  set (h := mi_mint_block_height info) in *.
  assert (∀ i, wf_id i → wf_key (i, h)) as Wk by (intros; split; [done|simpl; lia]).
  destruct (inherit_loop info (mi_prev info) 0 s1 e s2) as (l & Hl & ->);
    [by apply energy_inv_wf|by intros; apply Wk, Wprev|done|].
  apply zoom_Ok in E as (db & E & ->). apply on_new_pass_Ok in E as (b & d & ->).
  assert (mi_inscription_id info ∉ l.*1) as Hnl.
  { rewrite (cl_which _ _ _ _ _ _ Hl). intros [_ (p & Hp & _ & Hs)]. rewrite Hnew in Hp. by simplify_eq. }
  destruct (cl_others _ _ _ _ _ _ Hl _ Hnl) as [Hst _].
  eexists s1, s2, l, _. split_and!; [done|done|apply lookup_insert_eq|done|done| |].
  - change (pass_state (pm_tables s2) (mi_inscription_id info) = Some Active).
    unfold pass_state. by rewrite Hst, Hnew.
  - intros i Hi. destruct (cl_after _ _ _ _ _ _ Hl i Hi) as [A1 A2]. split; [exact A1|].
    rewrite <-A2. apply energy_at_ext.
    + apply (cl_wf _ _ _ _ _ _ Hl).
    + apply wf_insert_record; [apply (cl_wf _ _ _ _ _ _ Hl)|by apply Wk].
    + apply (cl_which _ _ _ _ _ _ Hl) in Hi as [Hi _]. by apply Wk, Wprev.
    + intros k. cbn. apply lookup_insert_ne. intros [= Ei _]. by rewrite Ei in Hnl.
Qed.
End Inherit.

(** ** Transfer and burn, branch by branch *)

Section TransferBurn.
Context {BP : BalanceProvider} {IT : IdText}.

(** A statement that is not a mint cannot hit the index on active owners. *)
Lemma update_pass_row_run i cond f msg t p :
  t_passes t !! i = Some p → cond p = true → state (f p) ≠ Active →
  update_pass_row i cond f msg t = (Ok tt, with_passes (λ m, <[i := f p]> m) t).
Proof.
  intros Hp Hc Hs. unfold update_pass_row, write_pass_row, active_conflict. rewrite Hp, Hc.
  by rewrite bool_decide_false.
Qed.

Lemma update_state_run i from to h t p :
  t_passes t !! i = Some p → state p = from → to ≠ Active →
  ∃ t', update_state_at_height i to from h t = (Ok tt, t')
        ∧ t_passes t' = <[i := set_state to p]> (t_passes t).
Proof.
  intros Hp Hs Hto. unfold update_state_at_height, update_state.
  erewrite bind_run by reflexivity. rewrite Hp. erewrite bind_run by reflexivity.
  erewrite bind_run by (apply update_pass_row_run; [exact Hp|by apply bool_decide_eq_true|done]).
  eexists. split; reflexivity.
Qed.

Lemma transfer_owner_run i o sp h t p :
  t_passes t !! i = Some p → state p ≠ Active →
  ∃ t', transfer_owner_at_height i o sp h t = (Ok tt, t')
        ∧ t_passes t' = <[i := set_owner_satpoint o sp p]> (t_passes t).
Proof.
  intros Hp Hs. unfold transfer_owner_at_height, transfer_owner.
  erewrite bind_run by reflexivity. rewrite Hp. erewrite bind_run by reflexivity.
  erewrite bind_run by (apply update_pass_row_run; [exact Hp|done|done]).
  eexists. split; reflexivity.
Qed.

(** Moving within one owner keeps the index on active owners satisfied. *)
Lemma update_satpoint_run i sp h t p :
  no_active_conflict (t_passes t) = true → t_passes t !! i = Some p →
  ∃ t', update_satpoint_at_height i (satpoint p) sp h t = (Ok tt, t')
        ∧ t_passes t' = <[i := set_satpoint sp p]> (t_passes t).
Proof.
  intros Hc Hp. unfold update_satpoint_at_height, update_satpoint.
  erewrite bind_run by reflexivity. rewrite Hp. erewrite bind_run by reflexivity.
  assert (active_conflict (t_passes t) i (set_satpoint sp p) = false) as Hac.
  { change (active_conflict (t_passes t) i p = false).
    unfold no_active_conflict in Hc. rewrite forallb_forall in Hc.
    specialize (Hc (i, p)). apply negb_true_iff, Hc, list_elem_of_In. by apply elem_of_map_to_list. }
  erewrite bind_run.
  2: { unfold update_pass_row. rewrite Hp, bool_decide_true by done.
       unfold write_pass_row. rewrite Hac. reflexivity. }
  eexists. split; reflexivity.
Qed.

(** What a transfer asks of the energy manager. *)
Definition transfer_energy (p : MinerPassInfo) (i : InscriptionId) (o : USDBScriptHash) (h : u32) :
    M EnergyDb unit :=
  if bool_decide (state p = Active)
  then let! _ := update_pass_energy i h in
       if owner p =? o then ret tt else on_pass_dormant i h
  else ret tt.
(** The row of the pass after a transfer. *)
Definition transferred (o : USDBScriptHash) (sp : SatPoint) (p : MinerPassInfo) : MinerPassInfo :=
  if owner p =? o then set_satpoint sp p
  else set_owner_satpoint o sp (if bool_decide (state p = Active) then set_state Dormant p else p).

Definition transfer_mutations (i : InscriptionId) (o : USDBScriptHash) (sp : SatPoint)
    (p : MinerPassInfo) : list PassBlockMutation :=
  if owner p =? o then
    [SatpointUpdate (inscription_id_to_string i) (as_str (state p))
       (script_hash_to_string (owner p)) (satpoint_to_string (satpoint p)) (satpoint_to_string sp)]
  else
    (if bool_decide (state p = Active)
     then [StateTransition (inscription_id_to_string i) (as_str Active) (as_str Dormant)
             (script_hash_to_string (owner p)) (satpoint_to_string (satpoint p))]
     else [])
    ++ [OwnerTransfer (inscription_id_to_string i)
          (if bool_decide (state p = Active) then as_str Dormant else as_str (state p))
          (script_hash_to_string (owner p)) (script_hash_to_string o)
          (satpoint_to_string (satpoint p)) (satpoint_to_string sp)].

Definition push_all (ms : list PassBlockMutation) (c : option PassBlockMutationCollector) :
    option PassBlockMutationCollector := foldl (λ c m, push m <$> c) c ms.

Lemma on_energy_run {A} (m : M EnergyDb A) s r db :
  m (pm_energy s) = (r, db) → on_energy m s = (r, set_pm_energy db s).
Proof. apply zoom_run. Qed.

Lemma store_Ok {A} (m : M Tables A) s a t :
  m (pm_tables s) = (Ok a, t) → store m s = (Ok a, set_pm_tables t s).
Proof. apply zoom_run. Qed.

(** A transfer is its energy part, followed by store writes that cannot fail: if the energy part
    fails, neither the tables nor the mutation stream have changed. *)
Lemma transfer_run i o sp h s p :
  no_active_conflict (t_passes (pm_tables s)) = true → t_passes (pm_tables s) !! i = Some p →
  match transfer_energy p i o h (pm_energy s) with
  | (Ok _, db) =>
      ∃ t', on_pass_transfer i o sp h s
            = (Ok tt, set_pm_collector (push_all (transfer_mutations i o sp p) (pm_collector s))
                        (set_pm_tables t' (set_pm_energy db s)))
        ∧ t_passes t' = <[i := transferred o sp p]> (t_passes (pm_tables s))
  | (Err e, db) => on_pass_transfer i o sp h s = (Err e, set_pm_energy db s)
  | (Panic e, db) => on_pass_transfer i o sp h s = (Panic e, set_pm_energy db s)
  end.
Proof.
  intros Hc Hp. unfold on_pass_transfer. rewrite (bind_run _ _ _ _ _ (store_get_pass i s)), Hp.
  erewrite bind_run by reflexivity. unfold transfer_energy, transferred, transfer_mutations.
  case_bool_decide as Ha.
  2: { destruct (owner p =? o).
       - destruct (update_satpoint_run i sp h (pm_tables s) p Hc Hp) as (t' & E' & Et).
         exists t'. split; [|exact Et]. erewrite bind_run by reflexivity.
         erewrite bind_run by (apply store_Ok; exact E'). by destruct s.
       - destruct (transfer_owner_run i o sp h (pm_tables s) p Hp Ha) as (t' & E' & Et).
         exists t'. split; [|exact Et]. erewrite bind_run by reflexivity.
         erewrite bind_run by reflexivity.
         erewrite bind_run by (apply store_Ok; exact E'). by destruct s. }
  rewrite bind_assoc.
  destruct (update_pass_energy i h (pm_energy s)) as [[e|e|e] db1] eqn:E;
    [|by rewrite (bind_run_Err _ _ _ _ _ E), (bind_run_Err _ _ _ _ _ (on_energy_run _ _ _ _ E))
     |by rewrite (bind_run_Panic _ _ _ _ _ E), (bind_run_Panic _ _ _ _ _ (on_energy_run _ _ _ _ E))].
  rewrite (bind_run _ _ _ _ _ E), (bind_run _ _ _ _ _ (on_energy_run _ _ _ _ E)).
  erewrite (bind_run (ret tt)) by reflexivity. destruct (owner p =? o).
  { destruct (update_satpoint_run i sp h (pm_tables s) p Hc Hp) as (t' & E' & Et).
    exists t'. split; [|exact Et]. erewrite bind_run by (apply store_Ok; exact E'). reflexivity. }
  rewrite bind_assoc.
  destruct (on_pass_dormant i h db1) as [[[]|m|m] db2] eqn:E2;
    [|by rewrite (bind_run_Err _ _ _ _ _ (on_energy_run _ (set_pm_energy db1 s) _ _ E2))
     |by rewrite (bind_run_Panic _ _ _ _ _ (on_energy_run _ (set_pm_energy db1 s) _ _ E2))].
  rewrite (bind_run _ _ _ _ _ (on_energy_run _ (set_pm_energy db1 s) _ _ E2)).
  rewrite bind_assoc.
  destruct (update_state_run i Active Dormant h (pm_tables s) p Hp Ha ltac:(done)) as (t1 & E3 & Et1).
  assert (t_passes t1 !! i = Some (set_state Dormant p)) as Hp1 by (rewrite Et1; apply lookup_insert_eq).
  destruct (transfer_owner_run i o sp h t1 _ Hp1 ltac:(done)) as (t' & E4 & Et').
  exists t'. split.
  - erewrite bind_run by (apply store_Ok; exact E3). erewrite bind_run by reflexivity.
    erewrite bind_run by (apply store_Ok; exact E4). unfold push_block_mutation, modify.
    destruct s as [? ? [c|]]; reflexivity.
  - rewrite Et', Et1. apply insert_insert_eq.
Qed.

(** The burn of a pass: its energy part is settled first, and only for an active pass. *)
Lemma burn_run i h s p e db :
  t_passes (pm_tables s) !! i = Some p → state p = Active →
  update_pass_energy i h (pm_energy s) = (Ok e, db) →
  ∃ s', on_pass_burned i h s = (Ok tt, s') ∧ pm_energy s' = db
        ∧ pass_state (pm_tables s') i = Some Burned.
Proof.
  intros Hp Ha E. unfold on_pass_burned.
  rewrite (bind_run _ _ _ _ _ (store_get_pass i s)), Hp. erewrite bind_run by reflexivity.
  rewrite bool_decide_true, bind_assoc by done.
  rewrite (bind_run _ _ _ _ _ (on_energy_run _ _ _ _ E)). erewrite (bind_run (ret tt)) by reflexivity.
  destruct (update_state_run i (state p) Burned h (pm_tables s) p Hp eq_refl ltac:(done))
    as (t' & E' & Et).
  eexists. split; [by erewrite bind_run by (apply store_Ok; exact E')|]. split; [done|].
  change (state <$> t_passes t' !! i = Some Burned). by rewrite Et, lookup_insert_eq.
Qed.

Context `{!BalanceProviderLaws}.

(** The transfer of a pass does all of its work or, when the energy side fails, none of it on the
    tables and on the mutation stream.  Within one owner only the location changes.  To another
    owner an active pass goes dormant: its row, its two mutations in order, and an energy frozen
    from the block on; a pass that is not active keeps its state and its energy records. *)
Theorem transfer_effect i o sp h s p :
  energy_inv (pm_energy s) → wf_key (i, h) → h < U32_MAX →
  (∀ h' v, pass_energy_cf (pm_energy s) !! (i, h') = Some v → h' <= h) →
  ledger_ok h (pm_tables s) → t_passes (pm_tables s) !! i = Some p →
  let '(r, s') := on_pass_transfer i o sp h s in
  match r with
  | Ok _ =>
      t_passes (pm_tables s') = <[i := transferred o sp p]> (t_passes (pm_tables s))
      ∧ pm_collector s' = push_all (transfer_mutations i o sp p) (pm_collector s)
      ∧ (state p ≠ Active → pm_energy s' = pm_energy s)
      ∧ (state p = Active → owner p ≠ o → ∃ e, ∀ h', h <= h' <= U32_MAX →
           energy_at i h' (pm_energy s') = Some {| energy := e; res_state := Dormant |})
  | _ => state p = Active ∧ pm_tables s' = pm_tables s ∧ pm_collector s' = pm_collector s
  end.
Proof.
  intros I Wk Hh Htip L Hp.
  assert (no_active_conflict (t_passes (pm_tables s)) = true) as Hc.
  { apply no_active_conflict_spec. intros. by eapply ledger_unique_current. }
  pose proof (transfer_run i o sp h s p Hc Hp) as Hr. unfold transfer_energy in Hr.
  case_bool_decide as Ha.
  2: { destruct Hr as (t' & -> & Et). by split_and!. }
  pose proof (update_pass_energy_spec i h _ I Wk Hh) as (I1 & A1 & _). unfold bind in Hr.
  destruct (update_pass_energy i h (pm_energy s)) as [[e|e|e] db1]; [|by rewrite Hr..].
  destruct (owner p =? o) eqn:Eo; [|destruct (on_pass_dormant i h db1) as [[[]|e'|e'] db2] eqn:Ed];
    b2p; try (by rewrite Hr).
  - destruct Hr as (t' & -> & Et). by split_and!.
  - destruct Hr as (t' & -> & Et). split_and!; [done..|]. intros _ _.
    apply dormant_frozen in Ed as [e' He]; [|done..|].
    + exists e'. intros h' Hh'. specialize (He h' Hh'). by injection He.
    + intros h' v Hv. destruct (A1 _ _ Hv) as [Hv'|[_ ?]]; [by eapply Htip|done].
Qed.

(** A burn does not end the energy of an active pass: the burn settles it and marks the pass
    burned in the tables, but the latest energy record stays active, so that the energy query
    answers, from the burn on, with an active pass whose energy goes on growing with the owner's
    last known balance. *)
Theorem burned_pass_energy_grows i h s p e db :
  energy_inv (pm_energy s) → wf_key (i, h) → h < U32_MAX →
  (∀ h' v, pass_energy_cf (pm_energy s) !! (i, h') = Some v → h' <= h) →
  t_passes (pm_tables s) !! i = Some p → state p = Active →
  update_pass_energy i h (pm_energy s) = (Ok e, db) → res_state e = Active →
  ∃ s' r, on_pass_burned i h s = (Ok tt, s')
    ∧ pass_state (pm_tables s') i = Some Burned
    ∧ e = project_energy_record_no_balance_change r h
    ∧ er_state r = Active
    ∧ ∀ h', h <= h' <= U32_MAX →
        energy_at i h' (pm_energy s') = Some (project_energy_record_no_balance_change r h').
Proof.
  intros I Wk Hh Htip Hp Ha E Hs. destruct (burn_run i h s p e db Hp Ha E) as (s' & Eb & Een & Est).
  pose proof (update_pass_energy_spec i h _ I Wk Hh) as (I1 & A1 & Hr). rewrite E in I1, A1, Hr.
  cbn [fst snd] in *.
  destruct (Hr e eq_refl) as (r & Hl & Ee). exists s', r. split_and!; try done.
  - revert Hs. rewrite Ee. unfold project_energy_record_no_balance_change. by destruct (_ || _).
  - intros h' Hh'. unfold energy_at. rewrite Een.
    assert (wf_key (i, h')) as Wk'
      by (split; [apply Wk|pose proof (wf_key_height _ Wk); simpl in *; lia]).
    assert (find_last i h' db = Some r) as ->; [|done].
    apply (find_last_is_Some i h' db r (energy_inv_wf _ I1) Wk'). destruct Hl as (H1 & H2 & H3 & H4). split_and!; [done|lia|done|].
    intros k v Hv _. eapply H4; [exact Hv|]. destruct (A1 _ _ Hv) as [Hv'|[_ ?]]; [by eapply Htip|done].
Qed.
End TransferBurn.

(** ** Witnesses

    Owner 1 mints pass [a] at 10 and replaces it at 15 by pass [b], which inherits from it. *)

#[local] Instance demo_text : IdText := {|
  inscription_id_to_string _ := "id"; satpoint_to_string _ := "sat";
  script_hash_to_string _ := "script" |}.
#[local] Instance demo_provider : BalanceProvider := table_provider demo_rows.
#[local] Instance demo_provider_laws : BalanceProviderLaws := demo_laws.

Definition demo_mint (n : Z) (h : u32) (prevs : list InscriptionId) : PassMintInscriptionInfo :=
  {| mi_inscription_id := {| txid := n; index := 0 |}; mi_inscription_number := n; mi_mint_txid := n;
     mi_mint_block_height := h; mi_mint_owner := 1;
     mi_satpoint := {| outpoint := {| op_txid := n; vout := 0 |}; offset := 0 |};
     mi_eth_main := "0x"; mi_eth_collab := None; mi_prev := prevs |}.
Definition demo_manager : MinerPassManager :=
  {| pm_storage := empty_pass_db; pm_energy := empty_energy_db;
     pm_collector := None |}.
Definition demo_minted : MinerPassManager := (on_mint_pass (demo_mint 7 10 []) demo_manager).2.
Definition demo_replace : PassMintInscriptionInfo := demo_mint 8 15 [pass_a].
Definition demo_replaced : MinerPassManager := (on_mint_pass demo_replace demo_minted).2.

Lemma demo_minted_inv : energy_inv (pm_energy demo_minted).
Proof.
  apply energy_inv_insert; [apply energy_inv_empty|]. unfold record_ok; cbn.
  unfold U64_MAX, I64_MIN, I64_MAX.
  split_and!; try done; try lia.
Qed.
Lemma demo_minted_ledger : ledger_ok 10 (pm_tables demo_minted).
Proof.
  destruct (run_events_extends 10 0 empty_tables [EvMint (demo_mint 7 10 [])]
    ltac:(by repeat constructor) demo_manager 0 ltac:(constructor) ltac:(lia)) as (h2 & Hr & Hle).
  apply (run_ledger_ok 0) in Hr as [_ L]; [|apply ledger_ok_empty].
  by apply (ledger_ok_weaken h2 10).
Qed.
Lemma demo_minted_tip h h' v : 10 <= h → pass_energy_cf (pm_energy demo_minted) !! (pass_a, h') = Some v → h' <= h.
Proof.
  intros Hh. change (pass_energy_cf (pm_energy demo_minted)) with
    (<[(pass_a, 10) := {| ev_state := Active; ev_active_block_height := 10; ev_owner_address := 1;
        ev_owner_balance := 200000; ev_owner_delta := 200000; ev_energy := 0 |}]>
       (∅ : gmap (InscriptionId * u32) PassEnergyValue)).
  rewrite lookup_insert_Some, lookup_empty. intros [[[= <-] _]|[_ ?]]; [lia|done].
Qed.

Lemma blocks_rollback_witness :
  ∃ t', rollback_with_conn 10 None false
          (pm_tables (run_blocks [(15, [EvMint demo_replace; EvBurn pass_a])] demo_minted)) = (Ok tt, t')
        ∧ same_ledger (pm_tables demo_minted) t'.
Proof.
  apply (blocks_rollback 10 (pm_tables demo_minted)); [apply demo_minted_ledger| |done|].
  - split_and!; intros k v E; vm_compute in E; discriminate.
  - split_and!; [lia|by repeat constructor|done].
Defined.

Lemma pass_state_machine_witness :
  let s' := (run_events 15 [EvMint demo_replace; EvBurn pass_a] demo_minted).2 in
  (∀ i, rtc state_step (pass_state (pm_tables demo_minted) i) (pass_state (pm_tables s') i))
  ∧ ∀ i st, pass_state (pm_tables demo_minted) i = Some st → st ≠ Active →
      ∃ st', pass_state (pm_tables s') i = Some st' ∧ st' ≠ Active.
Proof. apply pass_state_machine. by repeat constructor. Defined.

Lemma mint_inherits_energy_witness :
  ∃ s1 s2 l v,
    mint_insert demo_replace demo_minted = (Ok tt, s1)
    ∧ consumed_list 1 15 [pass_a] s1 s2 l
    ∧ pass_energy_cf (pm_energy demo_replaced) !! (mi_inscription_id demo_replace, 15) = Some v
    ∧ ev_state v = Active ∧ ev_energy v = foldl u64_saturating_add 0 l.*2
    ∧ pass_state (pm_tables demo_replaced) (mi_inscription_id demo_replace) = Some Active
    ∧ ∀ i, i ∈ l.*1 → pass_state (pm_tables demo_replaced) i = Some Consumed
        ∧ energy_at i 15 (pm_energy demo_replaced) = Some {| energy := 0; res_state := Consumed |}.
Proof.
  apply (mint_inherits_energy demo_replace demo_minted demo_replaced).
  - apply demo_minted_inv.
  - intros i p Hp. split; [by eapply (lk_key _ _ demo_minted_ledger)|].
    assert (i = pass_a) as ->; [|apply (wf_pass_a 10); unfold U32_MAX; lia].
    change (t_passes (pm_tables demo_minted)) with
      (<[pass_a := minted_pass (demo_mint 7 10 [])]> (∅ : gmap InscriptionId MinerPassInfo)) in Hp.
    rewrite lookup_insert_Some, lookup_empty in Hp. by destruct Hp as [[<- _]|[_ ?]].
  - unfold U32_MAX. simpl. lia.
  - unfold wf_id, TXID_BOUND, U32_MAX. simpl. lia.
  - intros i ->%list_elem_of_singleton. apply (wf_pass_a 10). unfold U32_MAX. lia.
  - vm_compute. reflexivity.
Defined.

Lemma transfer_effect_witness :
  let sp := satpoint (minted_pass (demo_mint 9 9 [])) in
  let p := minted_pass (demo_mint 7 10 []) in
  let s' := (on_pass_transfer pass_a 2 sp 20 demo_minted).2 in
  t_passes (pm_tables s') = <[pass_a := transferred 2 sp p]> (t_passes (pm_tables demo_minted))
  ∧ pm_collector s' = push_all (transfer_mutations pass_a 2 sp p) (pm_collector demo_minted)
  ∧ (state p ≠ Active → pm_energy s' = pm_energy demo_minted)
  ∧ (state p = Active → owner p ≠ 2 → ∃ e, ∀ h', 20 <= h' <= U32_MAX →
       energy_at pass_a h' (pm_energy s') = Some {| energy := e; res_state := Dormant |}).
Proof.
  intros sp p s'.
  assert ((on_pass_transfer pass_a 2 sp 20 demo_minted).1 = Ok tt) as E by (vm_compute; reflexivity).
  pose proof (transfer_effect pass_a 2 sp 20 demo_minted p demo_minted_inv
    (wf_pass_a 20 ltac:(unfold U32_MAX; lia)) eq_refl
    (λ h' v, demo_minted_tip 20 h' v ltac:(lia))
    (ledger_ok_weaken 10 20 _ demo_minted_ledger ltac:(lia)) ltac:(vm_compute; reflexivity)) as H.
  unfold s'. destruct (on_pass_transfer _ _ _ _ _) as [[[]|?|?] s1]; try discriminate E. exact H.
Defined.

Lemma burned_pass_energy_grows_witness :
  let out := update_pass_energy pass_a 14 (pm_energy demo_minted) in
  ∃ e s' r, out.1 = Ok e ∧ on_pass_burned pass_a 14 demo_minted = (Ok tt, s')
    ∧ pass_state (pm_tables s') pass_a = Some Burned
    ∧ e = project_energy_record_no_balance_change r 14
    ∧ er_state r = Active
    ∧ ∀ h', 14 <= h' <= U32_MAX →
        energy_at pass_a h' (pm_energy s') = Some (project_energy_record_no_balance_change r h').
Proof.
  intros out. destruct out as [[e|e|e] db] eqn:E; [|vm_compute in E; discriminate..].
  destruct (burned_pass_energy_grows pass_a 14 demo_minted (minted_pass (demo_mint 7 10 [])) e db)
    as (s' & r & H); [apply demo_minted_inv|apply wf_pass_a; unfold U32_MAX; lia|done
    |intros h' v; by apply demo_minted_tip|vm_compute; reflexivity|done|exact E
    |vm_compute in E; by injection E as <- _|].
  exists e, s', r. split; [done|exact H].
Defined.
