(* ===== verification/Tx.v ===== *)
(** * Transactions and satpoints

    [usdb-indexer/src/btc/tx.rs] and [btc/utxo.rs]: where a satpoint goes when a transaction spends
    the output it lies in, with the values of the spent outputs read through a cache. *)

From S2P Require Import Prelude Types.

(** ** The parts of the bitcoin crate's types that are read *)

Abbreviation ScriptBuf := (list Z) (only parsing).

Record TxOut := { value : u64; script_pubkey : ScriptBuf }.

(** [compute_txid] is the transaction's hash; [input] lists the [previous_output] of each input;
    [envelopes] lists, for each inscription envelope the ord crate parses from the witnesses, the
    index of its input. *)
Record Transaction := {
  compute_txid : Txid;
  input : list OutPoint;
  output : list TxOut;
  envelopes : list u32
}.

Record SatPointResult := {
  sp_satpoint : SatPoint;
  sp_value : u64;
  (* [None]: the sat is spent as fee *)
  sp_address : option USDBScriptHash
}.

Abbreviation Block := (list Transaction) (only parsing).

(** The bitcoin node ([BTCRpcClient]) and the script hash ([to_usdb_script_hash]). *)
Class BitcoinNode := {
  node_get_utxo : OutPoint → result u64;
  node_get_transaction : Txid → result Transaction;
  node_get_block : u32 → result Block;
  to_usdb_script_hash : ScriptBuf → USDBScriptHash
}.

(** ** Values of outputs, through the cache

    The cache is keyed by [outpoint.to_string()], which tells outpoints apart. *)

Abbreviation UTXOValueCache := (gmap OutPoint u64) (only parsing).

Section Tx.
Context `{BitcoinNode}.

Definition get_utxo (o : OutPoint) : M UTXOValueCache u64 :=
  let! cached := gets (λ cache, cache !! o) in
  match cached with
  | Some amount => ret amount
  | None =>
      let! amount := lift (node_get_utxo o) in
      let! _ := modify (λ cache, <[o := amount]> cache) in
      ret amount
  end.

(** ** Moving a satpoint through a transaction *)

(** The loop over the outputs, from output [i] at position [current]. *)
Fixpoint find_output (id : Txid) (pos : u64) (i : nat) (current : u64) (outs : list TxOut) :
    option SatPointResult :=
  match outs with
  | [] => None
  | vout_item :: outs =>
      if (current <=? pos) && (pos <? u64_add current (value vout_item))
      then Some {| sp_satpoint := {| outpoint := {| op_txid := id; vout := usize_as_u32 (Z.of_nat i) |};
                                     offset := pos - current |};
                   sp_value := value vout_item;
                   sp_address := Some (to_usdb_script_hash (script_pubkey vout_item)) |}
      else find_output id pos (S i) (u64_add current (value vout_item)) outs
  end.

(** The outcome at a position of the inputs: an output, or the fee. *)
Definition output_at (tx : Transaction) (pos : u64) : SatPointResult :=
  match find_output (compute_txid tx) pos 0 0 (output tx) with
  | Some r => r
  | None =>
      {| sp_satpoint := {| outpoint := {| op_txid := compute_txid tx;
                                          vout := usize_as_u32 (count (output tx)) |};
                           offset := 0 |};
         sp_value := 0; sp_address := None |}
  end.

Definition calc_output_satpoint (tx : Transaction) (sp : SatPoint) :
    M UTXOValueCache (option SatPointResult) :=
  match list_find (λ previous_output, previous_output = outpoint sp) (input tx) with
  | None => ret None
  | Some (vin_index, _) =>
      let! pos := fold_m (take vin_index (input tx)) 0 (λ pos vin_outpoint,
        let! amount := get_utxo vin_outpoint in ret (u64_add pos amount)) in
      ret (Some (output_at tx (u64_add pos (offset sp))))
  end.
End Tx.

(** ** Reference: ordinal theory

    The sats of a transaction's inputs, in order, are the sats of its outputs, in order, and what
    the outputs do not hold goes to the fee. *)

Definition total (vs : list Z) : Z := foldr Z.add 0 vs.
#[global] Arguments total : simpl never.

(** The position of a satpoint among the sats of the inputs. *)
Definition input_position (val : OutPoint → u64) (ins : list OutPoint) (sp : SatPoint) : option Z :=
  (λ r : nat * OutPoint, total (val <$> take r.1 ins) + offset sp)
  <$> list_find (λ o, o = outpoint sp) ins.

Definition output_position (tx : Transaction) (i : nat) (off : Z) : Z :=
  total (value <$> take i (output tx)) + off.

(** What the node answers for the outputs a transaction spends, and amounts that [u64] holds. *)
Record tx_ok `{BitcoinNode} (val : OutPoint → u64) (tx : Transaction) : Prop := {
  tx_values o : o ∈ input tx → node_get_utxo o = Ok (val o);
  tx_value_nonneg o : o ∈ input tx → 0 <= val o;
  tx_inputs_sum : total (val <$> input tx) <= U64_MAX;
  tx_inputs_distinct : NoDup (input tx);
  tx_output_nonneg : Forall (λ o, 0 <= value o) (output tx);
  tx_outputs_sum : total (value <$> output tx) <= U64_MAX;
  tx_output_count : count (output tx) <= U32_MAX
}.

(** The cache holds nothing but answers of the node. *)
Definition cache_ok `{BitcoinNode} (cache : UTXOValueCache) : Prop :=
  ∀ o a, cache !! o = Some a → node_get_utxo o = Ok a.

Lemma empty_cache_ok `{BitcoinNode} : cache_ok ∅.
Proof. intros o a E. discriminate E. Qed.

(** ** The code moves satpoints by ordinal theory *)

Lemma total_cons x l : total (x :: l) = x + total l.
Proof. done. Qed.
Lemma total_app l k : total (l ++ k) = total l + total k.
Proof. unfold total. induction l as [|x l IH]; cbn in *; lia. Qed.
Lemma total_nonneg l : Forall (λ x, 0 <= x) l → 0 <= total l.
Proof. unfold total. induction 1; cbn in *; lia. Qed.
(** A prefix sum is at most the sum. *)
Lemma total_take l n : Forall (λ x, 0 <= x) l → 0 <= total (take n l) <= total l.
Proof.
  intros Hl. rewrite <-(take_drop n l) at 3. rewrite total_app.
  pose proof (total_nonneg (take n l) (Forall_take _ n _ Hl)).
  pose proof (total_nonneg (drop n l) (Forall_drop _ n _ Hl)). lia.
Qed.
Lemma total_take_S l n x : l !! n = Some x → total (take (S n) l) = total (take n l) + x.
Proof.
  intros Hx. rewrite (take_S_r _ _ x) by done. rewrite total_app. unfold total. simpl. lia.
Qed.

(** Positions inside different entries of a list of sizes are different. *)
Lemma total_take_lt l i j x a b :
  Forall (λ x, 0 <= x) l → l !! i = Some x → (i < j)%nat → a < x → 0 <= b →
  total (take i l) + a < total (take j l) + b.
Proof.
  intros Hl Hx Hij Ha Hb. pose proof (total_take_S _ _ _ Hx).
  assert (total (take (S i) l) <= total (take j l)); [|lia].
  replace (take (S i) l) with (take (S i) (take j l)) by (rewrite take_take; f_equal; lia).
  by apply total_take, Forall_take.
Qed.

Lemma position_inj l i j x y a b :
  Forall (λ x, 0 <= x) l → l !! i = Some x → l !! j = Some y → 0 <= a < x → 0 <= b < y →
  total (take i l) + a = total (take j l) + b → i = j ∧ a = b.
Proof.
  intros Hl Hx Hy Ha Hb E.
  destruct (Nat.lt_trichotomy i j) as [Hij|[->|Hij]]; [exfalso| |exfalso].
  - pose proof (total_take_lt l i j x a b Hl Hx Hij). lia.
  - split; [done|lia].
  - pose proof (total_take_lt l j i y b a Hl Hy Hij). lia.
Qed.

Section Fifo.
Context {BN : BitcoinNode}.

Lemma get_utxo_run o a cache :
  cache_ok cache → node_get_utxo o = Ok a →
  ∃ cache', get_utxo o cache = (Ok a, cache') ∧ cache_ok cache'.
Proof.
  intros Hc Ho. unfold get_utxo. erewrite bind_run by reflexivity.
  destruct (cache !! o) as [b|] eqn:Eb.
  - apply Hc in Eb. exists cache. assert (b = a) as -> by congruence. done.
  - erewrite bind_run by (unfold lift; by rewrite Ho). eexists. split; [reflexivity|].
    intros o' b Hb. cbn in Hb. apply lookup_insert_Some in Hb as [[<- <-]|[_ Hb]]; [done|by apply Hc].
Qed.

Lemma input_sum_run val l : ∀ acc cache,
  cache_ok cache → (∀ o, o ∈ l → node_get_utxo o = Ok (val o) ∧ 0 <= val o) →
  0 <= acc → acc + total (val <$> l) <= U64_MAX →
  ∃ cache', fold_m l acc (λ pos o, let! amount := get_utxo o in ret (u64_add pos amount)) cache
            = (Ok (acc + total (val <$> l)), cache') ∧ cache_ok cache'.
Proof.
  induction l as [|o l IH]; intros acc cache Hc Hv Ha Hs; cbn in Hs |- *.
  { unfold total. exists cache. split; [by rewrite Z.add_0_r|done]. }
  destruct (Hv o ltac:(by constructor)) as [Ho Hn].
  destruct (get_utxo_run o _ cache Hc Ho) as (c1 & E1 & Hc1).
  assert (∀ o, o ∈ l → node_get_utxo o = Ok (val o) ∧ 0 <= val o) as Hv'
    by (intros; apply Hv; by constructor).
  assert (0 <= total (val <$> l)).
  { apply total_nonneg, Forall_fmap, Forall_forall. intros x Hx. by apply Hv'. }
  rewrite total_cons in *.
  destruct (IH (acc + val o) c1) as (c2 & E2 & Hc2); [done|done|lia|lia|].
  exists c2. split; [|done]. rewrite (bind_run _ _ _ (acc + val o) c1).
  - rewrite E2. do 2 f_equal. lia.
  - rewrite (bind_run (get_utxo o) _ cache _ _ E1), u64_add_small by lia. done.
Qed.

(** What the scan of the outputs finds at a position not before its start. *)
Lemma find_output_spec id pos outs : ∀ i current,
  Forall (λ o, 0 <= value o) outs → 0 <= current <= pos →
  current + total (value <$> outs) <= U64_MAX →
  match find_output id pos i current outs with
  | Some r => ∃ k o, outs !! k = Some o
      ∧ r = {| sp_satpoint :=
                 {| outpoint := {| op_txid := id; vout := usize_as_u32 (Z.of_nat (i + k)) |};
                    offset := pos - (current + total (value <$> take k outs)) |};
               sp_value := value o; sp_address := Some (to_usdb_script_hash (script_pubkey o)) |}
      ∧ 0 <= pos - (current + total (value <$> take k outs)) < value o
  | None => current + total (value <$> outs) <= pos
  end.
Proof.
  induction outs as [|o outs IH]; intros i current Hv Hp Hs.
  { simpl. unfold total. simpl. lia. }
  apply Forall_cons in Hv as [Ho Hv].
  pose proof (total_nonneg (value <$> outs) ltac:(by apply Forall_fmap)) as Hn.
  assert (total (value <$> o :: outs) = value o + total (value <$> outs)) as Et by done.
  rewrite Et in Hs |- *. simpl. rewrite u64_add_small by lia.
  rewrite (proj2 (Z.leb_le current pos)) by lia. simpl.
  destruct (pos <? current + value o) eqn:E; b2p.
  - exists 0%nat, o. rewrite Nat.add_0_r. unfold total. simpl. rewrite Z.add_0_r.
    split_and!; [done|done|lia|lia].
  - specialize (IH (S i) (current + value o) Hv ltac:(lia) ltac:(lia)).
    destruct (find_output _ _ _ _ _) as [r|]; [|lia].
    destruct IH as (k & o' & Hk & -> & Hr). exists (S k), o'.
    assert (current + total (value <$> take (S k) (o :: outs))
            = current + value o + total (value <$> take k outs)) as Ek
      by (rewrite firstn_cons, fmap_cons, total_cons; lia).
    rewrite Ek, <-Nat.add_succ_comm. done.
Qed.

(** Where the sat at position [p] of the inputs goes. *)
Definition fifo_result (tx : Transaction) (p : Z) (r : SatPointResult) : Prop :=
  match sp_address r with
  | Some a => ∃ i o, output tx !! i = Some o
      ∧ outpoint (sp_satpoint r) = {| op_txid := compute_txid tx; vout := Z.of_nat i |}
      ∧ 0 <= offset (sp_satpoint r) < value o
      ∧ output_position tx i (offset (sp_satpoint r)) = p
      ∧ sp_value r = value o ∧ a = to_usdb_script_hash (script_pubkey o)
  | None => total (value <$> output tx) <= p
      ∧ outpoint (sp_satpoint r) = {| op_txid := compute_txid tx; vout := count (output tx) |}
      ∧ offset (sp_satpoint r) = 0 ∧ sp_value r = 0
  end.

Lemma output_at_fifo val tx p : tx_ok val tx → 0 <= p → fifo_result tx p (output_at tx p).
Proof.
  intros T Hp. destruct T as [_ _ _ _ Hn Hs Hc]. unfold output_at.
  pose proof (find_output_spec (compute_txid tx) p (output tx) 0 0 Hn ltac:(lia) ltac:(lia)) as Hf.
  destruct (find_output _ _ _ _ _) as [r|].
  - destruct Hf as (k & o & Hk & -> & Hr). unfold fifo_result. cbn [sp_address].
    exists k, o. cbn. apply lookup_lt_Some in Hk as Hlt. unfold count in Hc.
    rewrite usize_as_u32_id by lia. rewrite Z.add_0_l in Hr |- *. unfold output_position.
    split_and!; [done|done|lia|lia|lia|done|done].
  - unfold fifo_result. cbn. rewrite usize_as_u32_id; [|unfold count in *; lia]. by split_and!.
Qed.

(** The code computes the output at the position of the satpoint among the inputs. *)
Lemma calc_output_satpoint_run val tx sp p cache :
  tx_ok val tx → cache_ok cache → input_position val (input tx) sp = Some p →
  0 <= offset sp < val (outpoint sp) →
  0 <= p ∧ ∃ cache', calc_output_satpoint tx sp cache = (Ok (Some (output_at tx p)), cache')
                     ∧ cache_ok cache'.
Proof.
  intros T Hc Hp Ho. unfold input_position in Hp. unfold calc_output_satpoint.
  destruct (list_find _ _) as [[n o]|] eqn:El; [|done]. cbn in Hp. injection Hp as <-.
  apply list_find_Some in El as (Hn & -> & _).
  assert (Forall (λ x, 0 <= x) (val <$> input tx)) as Hnn.
  { apply Forall_fmap, Forall_forall. intros x Hx. by apply (tx_value_nonneg _ _ T). }
  assert (total (take (S n) (val <$> input tx)) = total (val <$> take n (input tx)) + val (outpoint sp)) as ES.
  { rewrite (total_take_S _ _ (val (outpoint sp))) by (by rewrite list_lookup_fmap, Hn).
    by rewrite fmap_take. }
  pose proof (total_take _ (S n) Hnn) as Hle. pose proof (tx_inputs_sum _ _ T) as Hs.
  pose proof (total_take _ n Hnn) as Hle0. rewrite <-fmap_take in Hle0.
  split; [lia|].
  destruct (input_sum_run val (take n (input tx)) 0 cache) as (c' & E & Hc'); [done| |lia|lia|].
  - intros x Hx%elem_of_take. destruct Hx as (k & Hx & _). apply list_elem_of_lookup_2 in Hx.
    split; [by apply (tx_values _ _ T)|by apply (tx_value_nonneg _ _ T)].
  - exists c'. rewrite (bind_run _ _ _ _ _ E). rewrite u64_add_small by lia.
    rewrite Z.add_0_l. done.
Qed.

(** C38. A satpoint is moved through a transaction exactly as ordinal theory says, whatever the value
    cache holds of the node's answers: a sat of a spent output goes to the output that covers its
    position among the inputs, at the matching offset; it goes to the fee only when its position
    lies past all outputs; and a satpoint whose output is not spent is reported as not moved. *)
Theorem calc_output_satpoint_fifo val tx sp cache :
  tx_ok val tx → cache_ok cache → 0 <= offset sp < val (outpoint sp) →
  match input_position val (input tx) sp with
  | Some p => ∃ r cache', calc_output_satpoint tx sp cache = (Ok (Some r), cache')
                ∧ fifo_result tx p r ∧ cache_ok cache'
  | None => (outpoint sp ∉ input tx) ∧ calc_output_satpoint tx sp cache = (Ok None, cache)
  end.
Proof.
  intros T Hc Ho. destruct (input_position val (input tx) sp) as [p|] eqn:Ep.
  - destruct (calc_output_satpoint_run val tx sp p cache T Hc Ep Ho) as (Hp & c' & E & Hc').
    exists (output_at tx p), c'. split_and!; [done|by eapply output_at_fifo|done].
  - unfold input_position in Ep. apply fmap_None in Ep. split.
    + apply list_find_None in Ep. rewrite Forall_forall in Ep. intros Hin. by apply (Ep _ Hin).
    + unfold calc_output_satpoint. by rewrite Ep.
Qed.

Lemma input_position_inj val tx sp1 sp2 p :
  tx_ok val tx → 0 <= offset sp1 < val (outpoint sp1) → 0 <= offset sp2 < val (outpoint sp2) →
  input_position val (input tx) sp1 = Some p → input_position val (input tx) sp2 = Some p → sp1 = sp2.
Proof.
  intros T H1 H2 E1 E2. unfold input_position in *.
  destruct (list_find (λ o, o = outpoint sp1) _) as [[i o1]|] eqn:F1; [|done].
  destruct (list_find (λ o, o = outpoint sp2) _) as [[j o2]|] eqn:F2; [|done].
  cbn in E1, E2. apply list_find_Some in F1 as (F1 & -> & _), F2 as (F2 & -> & _).
  injection E1 as E1. injection E2 as E2. rewrite !fmap_take in *.
  destruct (position_inj (val <$> input tx) i j (val (outpoint sp1)) (val (outpoint sp2))
    (offset sp1) (offset sp2)) as [-> Eo]; [| | |done|done|lia|].
  - apply Forall_fmap, Forall_forall. intros x Hx. by apply (tx_value_nonneg _ _ T).
  - by rewrite list_lookup_fmap, F1.
  - by rewrite list_lookup_fmap, F2.
  - rewrite F1 in F2. destruct sp1, sp2; simpl in *; congruence.
Qed.

Lemma fifo_result_inj tx p1 p2 r1 r2 :
  fifo_result tx p1 r1 → fifo_result tx p2 r2 → sp_satpoint r1 = sp_satpoint r2 →
  p1 = p2 ∨ (sp_address r1 = None ∧ sp_address r2 = None).
Proof.
  unfold fifo_result. destruct (sp_address r1), (sp_address r2); intros F1 F2 E; [left| | |by right].
  - destruct F1 as (i & o & Hi & Ei & _ & <- & _), F2 as (j & o' & Hj & Ej & _ & <- & _).
    rewrite E in *. rewrite Ei in Ej. injection Ej as Ej. by replace j with i by lia.
  - destruct F1 as (i & o & Hi & Ei & _), F2 as (_ & Ej & _). rewrite E, Ej in Ei.
    injection Ei as Ei. apply lookup_lt_Some in Hi. unfold count in Ei. lia.
  - destruct F2 as (i & o & Hi & Ei & _), F1 as (_ & Ej & _). rewrite <-E, Ej in Ei.
    injection Ei as Ei. apply lookup_lt_Some in Hi. unfold count in Ei. lia.
Qed.

(** The result of a move that happened. *)
Lemma calc_output_satpoint_Some val tx sp r cache cache' :
  tx_ok val tx → cache_ok cache → 0 <= offset sp < val (outpoint sp) →
  calc_output_satpoint tx sp cache = (Ok (Some r), cache') →
  ∃ p, input_position val (input tx) sp = Some p ∧ fifo_result tx p r.
Proof.
  intros T Hc Ho E. destruct (input_position val (input tx) sp) as [p|] eqn:Ep.
  - destruct (calc_output_satpoint_run val tx sp p cache T Hc Ep Ho) as (Hp & c' & E' & _).
    rewrite E in E'. injection E' as -> _. exists p. split; [done|by eapply output_at_fifo].
  - apply fmap_None in Ep. unfold calc_output_satpoint in E. by rewrite Ep in E.
Qed.

(** Different sats never end in the same place: when a transaction moves two different satpoints
    to the same one, both were spent as fee. *)
Theorem moved_sats_stay_distinct val tx sp1 sp2 r1 r2 cache1 cache2 cache1' cache2' :
  tx_ok val tx → cache_ok cache1 → cache_ok cache2 →
  0 <= offset sp1 < val (outpoint sp1) → 0 <= offset sp2 < val (outpoint sp2) →
  calc_output_satpoint tx sp1 cache1 = (Ok (Some r1), cache1') →
  calc_output_satpoint tx sp2 cache2 = (Ok (Some r2), cache2') →
  sp_satpoint r1 = sp_satpoint r2 →
  sp1 = sp2 ∨ (sp_address r1 = None ∧ sp_address r2 = None).
Proof.
  intros T Hc1 Hc2 Ho1 Ho2 E1 E2 E.
  apply (calc_output_satpoint_Some val) in E1 as (p1 & P1 & F1); [|done..].
  apply (calc_output_satpoint_Some val) in E2 as (p2 & P2 & F2); [|done..].
  destruct (fifo_result_inj _ _ _ _ _ F1 F2 E) as [->|?]; [left|by right].
  by eapply input_position_inj.
Qed.
End Fifo.

(** ** Witnesses

    Two inputs of 50 and 70 sats, outputs of 0, 60 and 40 sats, and a fee of 20. *)

#[local] Instance demo_node : BitcoinNode :=
  {| node_get_utxo o := if vout o =? U32_MAX then Err "not found" else Ok (if vout o =? 0 then 50 else 70);
     node_get_transaction _ := Err "not found"; node_get_block _ := Err "not found"; to_usdb_script_hash s := total s |}.
Definition demo_val (o : OutPoint) : u64 := if vout o =? 0 then 50 else 70.
Definition demo_outpoint (n : Z) : OutPoint := {| op_txid := 3; vout := n |}.
Definition demo_tx : Transaction :=
  {| compute_txid := 9; input := [demo_outpoint 0; demo_outpoint 1];
     output := [ {| value := 0; script_pubkey := [1] |}; {| value := 60; script_pubkey := [2] |};
                 {| value := 40; script_pubkey := [3] |} ];
     envelopes := [] |}.

Lemma demo_tx_ok : tx_ok demo_val demo_tx.
Proof.
  split; unfold demo_tx; cbn.
  - intros o Ho. rewrite !elem_of_cons, elem_of_nil in Ho. by destruct Ho as [-> |[-> |?]].
  - intros o _. unfold demo_val. destruct (_ =? _); lia.
  - unfold U64_MAX, total. vm_compute. congruence.
  - apply (bool_decide_unpack _). vm_compute. exact I.
  - repeat constructor; simpl; lia.
  - vm_compute. congruence.
  - vm_compute. congruence.
Qed.

Lemma calc_output_satpoint_fifo_witness :
  ∃ r cache', calc_output_satpoint demo_tx {| outpoint := demo_outpoint 1; offset := 12 |} ∅
              = (Ok (Some r), cache')
    ∧ fifo_result demo_tx 62 r ∧ cache_ok cache'.
Proof.
  apply (calc_output_satpoint_fifo demo_val demo_tx {| outpoint := demo_outpoint 1; offset := 12 |} ∅);
    [apply demo_tx_ok|apply empty_cache_ok|cbn; unfold demo_val; simpl; lia].
Defined.

Lemma moved_sats_stay_distinct_witness :
  let sp1 := {| outpoint := demo_outpoint 1; offset := 60 |} in
  let sp2 := {| outpoint := demo_outpoint 1; offset := 61 |} in
  ∃ r1 r2, (calc_output_satpoint demo_tx sp1 ∅).1 = Ok (Some r1)
    ∧ (calc_output_satpoint demo_tx sp2 ∅).1 = Ok (Some r2)
    ∧ (sp1 = sp2 ∨ (sp_address r1 = None ∧ sp_address r2 = None)).
Proof.
  intros sp1 sp2. eexists _, _. split_and!; [vm_compute; reflexivity..|].
  eapply (moved_sats_stay_distinct demo_val demo_tx sp1 sp2 _ _ ∅ ∅);
    [apply demo_tx_ok|apply empty_cache_ok|apply empty_cache_ok|cbn; unfold demo_val; simpl; lia..
    |vm_compute; reflexivity|vm_compute; reflexivity|reflexivity].
Defined.
