(* ===== verification/Transfer.v ===== *)
(** * Transfer tracker

    [usdb-indexer/src/index/transfer.rs], [InscriptionTransferTracker]: where each pass's satpoint
    lies, block by block, with the result of a block staged until the block is complete. *)

From S2P Require Import Prelude Types PassStorage Tx.

(** [inscription/types.rs]. *)
Record InscriptionTransferItem := {
  it_inscription_id : InscriptionId;
  it_block_height : u32;
  it_prev_satpoint : SatPoint;
  it_satpoint : SatPoint;
  it_from_address : USDBScriptHash;
  it_to_address : option USDBScriptHash
}.

Record InscriptionCreateInfo := {
  ci_satpoint : SatPoint;
  ci_value : u64;
  ci_address : option USDBScriptHash;
  ci_commit_txid : Txid;
  ci_commit_outpoint : OutPoint
}.

Record TransferTrackSeed := {
  ts_inscription_id : InscriptionId;
  ts_owner : USDBScriptHash;
  ts_satpoint : SatPoint
}.

(** ** The multimap from outpoints to passes *)

Abbreviation MultiMap := (gmap OutPoint (list ValidMinerPassInfo)) (only parsing).

(** The first entry of the same inscription is replaced, else the entry is added at the end. *)
Fixpoint replace_or_push (value : ValidMinerPassInfo) (vec : list ValidMinerPassInfo) :
    list ValidMinerPassInfo :=
  match vec with
  | [] => [value]
  | item :: vec =>
      if bool_decide (vp_inscription_id item = vp_inscription_id value) then value :: vec
      else item :: replace_or_push value vec
  end.

Definition multimap_insert (key : OutPoint) (value : ValidMinerPassInfo) (m : MultiMap) : MultiMap :=
  match m !! key with
  | Some vec => <[key := replace_or_push value vec]> m
  | None => <[key := [value]]> m
  end.

Definition delete_value (key : OutPoint) (i : InscriptionId) (m : MultiMap) : MultiMap :=
  match m !! key with
  | Some vec =>
      let vec := filter (λ item, vp_inscription_id item ≠ i) vec in
      if bool_decide (vec = []) then delete key m else <[key := vec]> m
  | None => m
  end.

(** ** The tracker *)

Record InscriptionTransferTracker := {
  inscriptions : MultiMap;
  staged_blocks : gmap u32 MultiMap;
  utxo_manager : UTXOValueCache
}.

Definition set_inscriptions (m : MultiMap) (s : InscriptionTransferTracker) :=
  {| inscriptions := m; staged_blocks := staged_blocks s; utxo_manager := utxo_manager s |}.
Definition set_staged (m : gmap u32 MultiMap) (s : InscriptionTransferTracker) :=
  {| inscriptions := inscriptions s; staged_blocks := m; utxo_manager := utxo_manager s |}.
Definition set_utxo (c : UTXOValueCache) (s : InscriptionTransferTracker) :=
  {| inscriptions := inscriptions s; staged_blocks := staged_blocks s; utxo_manager := c |}.

Definition tracked_pass (i : InscriptionId) (o : USDBScriptHash) (sp : SatPoint) : ValidMinerPassInfo :=
  {| vp_inscription_id := i; vp_owner := o; vp_satpoint := sp |}.
Definition insert_entry (p : ValidMinerPassInfo) (m : MultiMap) : MultiMap :=
  multimap_insert (outpoint (vp_satpoint p)) p m.

(** The loop over the pages of the pass table; [None] when the fuel runs out. *)
Definition PAGE_SIZE : Z := 1024.
Fixpoint load_pages (fuel : nat) (page_index : Z) (t : Tables) (m : MultiMap) : option MultiMap :=
  match fuel with
  | O => None
  | S fuel =>
      match (get_all_valid_pass_by_page page_index PAGE_SIZE t).1 with
      | Ok passes =>
          if bool_decide (passes = []) then Some m
          else
            let m := foldl (λ m p, insert_entry p m) m passes in
            if count passes <? PAGE_SIZE then Some m
            else load_pages fuel (page_index + 1) t m
      | _ => None
      end
  end.

(** One round per full page, one for the last page, and one spare. *)
Definition load_fuel (t : Tables) : nat := size (t_passes t) / Z.to_nat PAGE_SIZE + 2.

Definition load_all_passes (t : Tables) : M InscriptionTransferTracker unit :=
  λ s, match load_pages (load_fuel t) 0 t (inscriptions s) with
       | Some m => (Ok tt, set_inscriptions m s)
       | None => (Err "Failed to load miner passes", s)
       end.

Definition reload_from_storage (t : Tables) : M InscriptionTransferTracker unit :=
  let! _ := modify (set_inscriptions ∅) in
  let! _ := modify (set_staged ∅) in
  map_err "Failed to reload transfer records from storage" (load_all_passes t).

Definition remove_inscriptions_on_block_complete (items : list InscriptionTransferItem) :
    M InscriptionTransferTracker unit :=
  for_each items (λ item, modify (λ s,
    set_inscriptions (delete_value (outpoint (it_satpoint item)) (it_inscription_id item)
                        (inscriptions s)) s)).

Definition add_new_inscription (i : InscriptionId) (o : USDBScriptHash) (sp : SatPoint) :
    M InscriptionTransferTracker unit :=
  modify (λ s, set_inscriptions (insert_entry (tracked_pass i o sp) (inscriptions s)) s).

Section Tracker.
Context `{BitcoinNode}.

Definition with_utxo {A} (m : M UTXOValueCache A) : M InscriptionTransferTracker A :=
  zoom utxo_manager set_utxo m.

Definition calc_create_satpoint (i : InscriptionId) :
    M InscriptionTransferTracker InscriptionCreateInfo :=
  let! tx := lift (node_get_transaction (txid i)) in
  let! input_index := lift (ok_or "Invalid inscription index for transaction"
                              (envelopes tx !! Z.to_nat (index i))) in
  let! commit_outpoint := lift (ok_or "Invalid envelope input index for inscription"
                                  (input tx !! Z.to_nat input_index)) in
  let! found := with_utxo (calc_output_satpoint tx {| outpoint := commit_outpoint; offset := 0 |}) in
  let! r := lift (ok_or "No satpoint found for inscription" found) in
  ret {| ci_satpoint := sp_satpoint r; ci_value := sp_value r; ci_address := sp_address r;
         ci_commit_txid := op_txid commit_outpoint; ci_commit_outpoint := commit_outpoint |}.

(** One tracked pass whose output a transaction spends: the working map and the items so far. *)
Definition move_item (block_height : u32) (tx : Transaction)
    (acc : MultiMap * list InscriptionTransferItem) (existing_item : ValidMinerPassInfo) :
    M InscriptionTransferTracker (MultiMap * list InscriptionTransferItem) :=
  let '(working, items) := acc in
  let! found := with_utxo (calc_output_satpoint tx (vp_satpoint existing_item)) in
  let! r := lift (ok_or "Failed to calculate output satpoint for inscription" found) in
  let working :=
    delete_value (outpoint (vp_satpoint existing_item)) (vp_inscription_id existing_item) working in
  let working :=
    match sp_address r with
    | Some new_owner =>
        insert_entry (tracked_pass (vp_inscription_id existing_item) new_owner (sp_satpoint r)) working
    | None => working
    end in
  ret (working, items ++
    [{| it_inscription_id := vp_inscription_id existing_item; it_block_height := block_height;
        it_prev_satpoint := vp_satpoint existing_item; it_satpoint := sp_satpoint r;
        it_from_address := vp_owner existing_item; it_to_address := sp_address r |}]).

Definition process_input (block_height : u32) (tx : Transaction)
    (acc : MultiMap * list InscriptionTransferItem) (previous_output : OutPoint) :
    M InscriptionTransferTracker (MultiMap * list InscriptionTransferItem) :=
  match acc.1 !! previous_output with
  | Some existing_items => fold_m existing_items acc (move_item block_height tx)
  | None => ret acc
  end.

Definition process_tx (block_height : u32) (acc : MultiMap * list InscriptionTransferItem)
    (tx : Transaction) :
    M InscriptionTransferTracker (MultiMap * list InscriptionTransferItem) :=
  fold_m (input tx) acc (process_input block_height tx).

Definition insert_seed (m : MultiMap) (seed : TransferTrackSeed) : MultiMap :=
  insert_entry (tracked_pass (ts_inscription_id seed) (ts_owner seed) (ts_satpoint seed)) m.

Definition process_block_with_hint (block_height : u32) (block_hint : option Block)
    (extra_tracked_inscriptions : list TransferTrackSeed) :
    M InscriptionTransferTracker (list InscriptionTransferItem) :=
  let! staged := gets staged_blocks in
  if negb (bool_decide (staged = ∅))
  then fail "Uncommitted staged transfer state exists before processing block"
  else
    let! block := (match block_hint with
                   | Some block => ret block
                   | None => lift (node_get_block block_height)
                   end) in
    let! working := gets inscriptions in
    let working := foldl insert_seed working extra_tracked_inscriptions in
    let! out := fold_m block (working, []) (process_tx block_height) in
    let '(working, transfer_items) := out in
    let! staged := gets staged_blocks in
    let! _ := modify (set_staged (<[block_height := working]> staged)) in
    match staged !! block_height with
    | Some _ => fail "Staged transfer state already exists when processing the block"
    | None => ret transfer_items
    end.

Definition process_block (block_height : u32) :
    M InscriptionTransferTracker (list InscriptionTransferItem) :=
  process_block_with_hint block_height None [].
End Tracker.

Definition commit_staged_block (block_height : u32) : M InscriptionTransferTracker unit :=
  let! staged := gets staged_blocks in
  let! staged_map :=
    lift (ok_or "No staged transfer state found for commit" (staged !! block_height)) in
  let! _ := modify (set_staged (delete block_height staged)) in
  modify (set_inscriptions staged_map).

Definition rollback_staged_block (block_height : u32) : M InscriptionTransferTracker unit :=
  let! staged := gets staged_blocks in
  let! _ := modify (set_staged (delete block_height staged)) in
  match staged !! block_height with
  | Some _ => ret tt
  | None => fail "No staged transfer state found for rollback"
  end.

(** ** What a multimap represents

    The abstract state: for each tracked inscription its owner and its satpoint. *)

Abbreviation View := (gmap InscriptionId (USDBScriptHash * SatPoint)) (only parsing).

Record represents (m : MultiMap) (view : View) : Prop := {
  rp_vec key vec : m !! key = Some vec →
    vec ≠ [] ∧ NoDup (vp_inscription_id <$> vec)
    ∧ ∀ p, p ∈ vec → outpoint (vp_satpoint p) = key
                     ∧ view !! vp_inscription_id p = Some (vp_owner p, vp_satpoint p);
  rp_view i o sp : view !! i = Some (o, sp) →
    ∃ vec, m !! outpoint sp = Some vec ∧ tracked_pass i o sp ∈ vec
}.

Lemma elem_of_replace_or_push v vec p :
  NoDup (vp_inscription_id <$> vec) →
  p ∈ replace_or_push v vec ↔ p = v ∨ (p ∈ vec ∧ vp_inscription_id p ≠ vp_inscription_id v).
Proof.
  induction vec as [|q vec IH]; simpl; intros Hnd.
  { rewrite list_elem_of_singleton. set_solver. }
  apply NoDup_cons in Hnd as [Hq Hnd]. case_bool_decide as E.
  - rewrite !elem_of_cons. split; [|intros [->|[[->|Hp] Hne]]; [by left|done|by right]].
    intros [->|Hp]; [by left|]. right. split; [by right|]. rewrite <-E. intros E'. apply Hq.
    rewrite <-E'. by apply list_elem_of_fmap_2.
  - rewrite !elem_of_cons, IH by done. split; [|naive_solver].
    intros [->|[->|[Hp Hne]]]; [right; split; [by left|done]|by left|right; split; [by right|done]].
Qed.

Lemma replace_or_push_ids v vec :
  vp_inscription_id <$> replace_or_push v vec
  = if bool_decide (vp_inscription_id v ∈ vp_inscription_id <$> vec)
    then vp_inscription_id <$> vec
    else (vp_inscription_id <$> vec) ++ [vp_inscription_id v].
Proof.
  induction vec as [|q vec IH]; [done|]. rewrite fmap_cons. cbn [replace_or_push].
  destruct (decide (vp_inscription_id q = vp_inscription_id v)) as [E|E].
  - rewrite !bool_decide_true by (done || (rewrite E; by left)). by rewrite fmap_cons, E.
  - rewrite (bool_decide_false (_ = _)) by done. rewrite fmap_cons, IH. case_bool_decide as E'.
    + by rewrite bool_decide_true by by right.
    + rewrite bool_decide_false; [done|]. by intros [?|?]%elem_of_cons.
Qed.

Lemma replace_or_push_NoDup v vec :
  NoDup (vp_inscription_id <$> vec) → NoDup (vp_inscription_id <$> replace_or_push v vec).
Proof.
  intros Hnd. rewrite replace_or_push_ids. case_bool_decide as E; [done|].
  apply NoDup_app. split_and!; [done| |apply NoDup_singleton].
  by intros x Hx ->%list_elem_of_singleton.
Qed.

Lemma represents_empty : represents ∅ ∅.
Proof.
  split; [intros key vec E|intros i o sp E]; discriminate E.
Qed.

(** Tracking an inscription that is new, or at the outpoint where it is tracked already. *)
Lemma represents_insert m view p :
  represents m view →
  (∀ v, view !! vp_inscription_id p = Some v → outpoint v.2 = outpoint (vp_satpoint p)) →
  represents (insert_entry p m) (<[vp_inscription_id p := (vp_owner p, vp_satpoint p)]> view).
Proof.
  intros R Hnew. destruct p as [i o sp]; cbn in *. unfold insert_entry, multimap_insert; cbn.
  fold (tracked_pass i o sp).
  set (vec' := match m !! outpoint sp with
               | Some vec => replace_or_push (tracked_pass i o sp) vec
               | None => [tracked_pass i o sp] end).
  assert (match m !! outpoint sp with
          | Some vec => <[outpoint sp := replace_or_push (tracked_pass i o sp) vec]> m
          | None => <[outpoint sp := [tracked_pass i o sp]]> m end = <[outpoint sp := vec']> m) as ->
    by (unfold vec'; by destruct (m !! outpoint sp)).
  assert (NoDup (vp_inscription_id <$> vec') ∧ ∀ p, p ∈ vec' ↔
    p = tracked_pass i o sp ∨ vp_inscription_id p ≠ i ∧ ∃ vec, m !! outpoint sp = Some vec ∧ p ∈ vec)
    as [Hnd Hin].
  { unfold vec'. destruct (m !! outpoint sp) as [vec|] eqn:E.
    - destruct (rp_vec _ _ R _ _ E) as (_ & Hnd & _). split; [by apply replace_or_push_NoDup|].
      intros p. rewrite elem_of_replace_or_push by done. cbn. naive_solver.
    - split; [apply NoDup_singleton|]. intros p. rewrite list_elem_of_singleton. naive_solver. }
  split.
  - intros key vec. rewrite lookup_insert_Some. intros [[<- <-]|[Hne Hk]].
    + split_and!; [|done|].
      * intros E. assert (tracked_pass i o sp ∈ vec') as Hx by (apply Hin; by left).
        rewrite E in Hx. by apply elem_of_nil in Hx.
      * intros p [->|[Hne (vec & Hv & Hp)]]%Hin; cbn; [by rewrite lookup_insert_eq|].
        rewrite lookup_insert_ne by done. by apply (rp_vec _ _ R _ _ Hv).
    + destruct (rp_vec _ _ R _ _ Hk) as (Hne' & Hnd' & Hp). split_and!; [done..|].
      intros p Hp'. destruct (Hp p Hp') as [Ho Hv]. split; [done|].
      rewrite lookup_insert_ne; [done|]. intros E. rewrite <-E in Hv. apply Hnew in Hv. cbn in Hv.
      congruence.
  - intros j o' sp'. rewrite lookup_insert_Some. intros [[<- [= <- <-]]|[Hne Hj]].
    + exists vec'. rewrite lookup_insert_eq. split; [done|]. apply Hin. by left.
    + destruct (rp_view _ _ R _ _ _ Hj) as (vec & Hv & Hp).
      destruct (decide (outpoint sp = outpoint sp')) as [E|E].
      * exists vec'. rewrite E, lookup_insert_eq. split; [done|]. apply Hin. right. cbn.
        split; [done|]. rewrite E. by exists vec.
      * exists vec. by rewrite lookup_insert_ne.
Qed.

Lemma represents_delete m view i o sp :
  represents m view → view !! i = Some (o, sp) →
  represents (delete_value (outpoint sp) i m) (delete i view).
Proof.
  intros R Hi. destruct (rp_view _ _ R _ _ _ Hi) as (vec & Hv & Hp).
  destruct (rp_vec _ _ R _ _ Hv) as (_ & Hnd & Hvec).
  unfold delete_value. rewrite Hv. set (vec' := filter _ vec).
  assert (∀ p, p ∈ vec' ↔ vp_inscription_id p ≠ i ∧ p ∈ vec) as Hin
    by (intros; unfold vec'; by rewrite list_elem_of_filter).
  assert (∀ key vec0, (if bool_decide (vec' = []) then delete (outpoint sp) m
                       else <[outpoint sp := vec']> m) !! key = Some vec0 ↔
    (key = outpoint sp ∧ vec0 = vec' ∧ vec' ≠ []) ∨ (key ≠ outpoint sp ∧ m !! key = Some vec0)) as Hl.
  { intros key vec0. case_bool_decide as E.
    - rewrite lookup_delete_Some. naive_solver.
    - rewrite lookup_insert_Some. naive_solver. }
  assert (∀ key vec0 p, m !! key = Some vec0 → p ∈ vec0 → vp_inscription_id p = i → key = outpoint sp)
    as Hkey.
  { intros key vec0 p Hk Hp' <-. destruct (rp_vec _ _ R _ _ Hk) as (_ & _ & Hq).
    destruct (Hq _ Hp') as [<- Hq']. rewrite Hi in Hq'. by injection Hq' as _ ->. }
  split.
  - intros key vec0 [(-> & -> & Hne)|[Hne Hk]]%Hl.
    + split_and!; [done| |].
      * eapply sublist_NoDup; [exact Hnd|]. apply fmap_sublist, sublist_filter.
      * intros p [Hne' Hp']%Hin. rewrite lookup_delete_ne by done. by apply Hvec.
    + destruct (rp_vec _ _ R _ _ Hk) as (Hne' & Hnd' & Hq). split_and!; [done..|].
      intros p Hp'. destruct (Hq _ Hp') as [Ho Hv']. split; [done|].
      rewrite lookup_delete_ne; [done|]. intros E. apply Hne. by eapply Hkey.
  - intros j o' sp' [Hne Hj]%lookup_delete_Some.
    destruct (rp_view _ _ R _ _ _ Hj) as (vec0 & Hv0 & Hp0).
    destruct (decide (outpoint sp' = outpoint sp)) as [E|E].
    + exists vec'. rewrite E in Hv0. assert (vec0 = vec) as -> by congruence.
      assert (tracked_pass j o' sp' ∈ vec') as Hx by (by apply Hin).
      split; [|done]. apply Hl. left. split_and!; [done..|]. intros E'. rewrite E' in Hx.
      by apply elem_of_nil in Hx.
    + exists vec0. split; [|done]. apply Hl. by right.
Qed.

(** ** Reference: satpoints move by ordinal theory *)

Section Reference.
Context {BN : BitcoinNode} (val : OutPoint → u64).

Definition move_sat (tx : Transaction) (sp : SatPoint) : SatPointResult :=
  output_at tx (default 0 (input_position val (input tx) sp)).
Definition moved (tx : Transaction) (e : USDBScriptHash * SatPoint) :
    option (USDBScriptHash * SatPoint) :=
  (λ a, (a, sp_satpoint (move_sat tx e.2))) <$> sp_address (move_sat tx e.2).
(** The new place of an inscription when the inputs [ins] of [tx] are spent; [None] when it goes to the
    fee, with which the code drops it. *)
Definition after_ins (tx : Transaction) (ins : list OutPoint) (e : USDBScriptHash * SatPoint) :
    option (USDBScriptHash * SatPoint) :=
  if bool_decide (outpoint e.2 ∈ ins) then moved tx e else Some e.
Definition view_after_tx (view : View) (tx : Transaction) : View :=
  omap (after_ins tx (input tx)) view.

Definition transfer_item (h : u32) (tx : Transaction) (i : InscriptionId)
    (e : USDBScriptHash * SatPoint) : InscriptionTransferItem :=
  {| it_inscription_id := i; it_block_height := h; it_prev_satpoint := e.2;
     it_satpoint := sp_satpoint (move_sat tx e.2); it_from_address := e.1;
     it_to_address := sp_address (move_sat tx e.2) |}.

(** The transfers that spending [ins] makes. *)
Definition transfers_of (h : u32) (tx : Transaction) (ins : list OutPoint) (view : View)
    (it : InscriptionTransferItem) : Prop :=
  ∃ i e, view !! i = Some e ∧ outpoint e.2 ∈ ins ∧ it = transfer_item h tx i e.
Fixpoint block_transfers (h : u32) (view : View) (block : Block) (it : InscriptionTransferItem) : Prop :=
  match block with
  | [] => False
  | tx :: block => transfers_of h tx (input tx) view it
                   ∨ block_transfers h (view_after_tx view tx) block it
  end.

Definition valid_satpoint (sp : SatPoint) : Prop := 0 <= offset sp < val (outpoint sp).
Definition view_valid (view : View) : Prop := ∀ i e, view !! i = Some e → valid_satpoint e.2.

(** A spending transaction of the chain: the node knows the outputs it spends, amounts are in range,
    it does not spend itself, and [val] is the value of its outputs. *)
Record chain_tx (tx : Transaction) : Prop := {
  ct_ok : tx_ok val tx;
  ct_not_self o : o ∈ input tx → op_txid o ≠ compute_txid tx;
  ct_values i o : output tx !! i = Some o →
    val {| op_txid := compute_txid tx; vout := Z.of_nat i |} = value o
}.

(** The null outpoint, the only input of a coinbase: no output of the chain, so the node has no value
    for it and it holds no sat. *)
Definition null_outpoint : OutPoint := {| op_txid := 0; vout := U32_MAX |}.
Definition coinbase (tx : Transaction) : Prop := input tx = [null_outpoint].
Definition block_tx (tx : Transaction) : Prop := coinbase tx ∨ chain_tx tx.

(** No pass lies at the null outpoint, so a coinbase moves none. *)
Lemma coinbase_moves_none (view : View) i e :
  val null_outpoint = 0 → view_valid view → view !! i = Some e → outpoint e.2 ∉ [null_outpoint].
Proof.
  intros Hn Hv E Ho%list_elem_of_singleton. pose proof (Hv _ _ E) as H. unfold valid_satpoint in H.
  rewrite Ho in H. lia.
Qed.

Lemma after_idle tx ins (view : View) :
  (∀ i e, view !! i = Some e → outpoint e.2 ∉ ins) → omap (after_ins tx ins) view = view.
Proof.
  intros Hno. apply map_eq. intros i. rewrite lookup_omap. destruct (view !! i) as [e|] eqn:Ei; [|done].
  cbn. unfold after_ins. by rewrite bool_decide_false by by eapply Hno.
Qed.

Lemma move_sat_run tx sp cache :
  chain_tx tx → cache_ok cache → outpoint sp ∈ input tx → valid_satpoint sp →
  ∃ cache', calc_output_satpoint tx sp cache = (Ok (Some (move_sat tx sp)), cache')
            ∧ cache_ok cache' ∧ ∃ p, fifo_result tx p (move_sat tx sp).
Proof.
  intros C Hc Hin Hv. unfold move_sat.
  destruct (input_position val (input tx) sp) as [p|] eqn:Ep.
  - destruct (calc_output_satpoint_run val tx sp p cache (ct_ok _ C) Hc Ep Hv) as (Hp & c' & E & Hc').
    exists c'. split_and!; [done|done|]. exists p. by eapply output_at_fifo; [apply C|].
  - exfalso. apply fmap_None, list_find_None in Ep. rewrite Forall_forall in Ep. by apply (Ep _ Hin).
Qed.

(** A moved satpoint lies in an output of the transaction, inside its value. *)
Lemma moved_place tx e e' :
  chain_tx tx → outpoint e.2 ∈ input tx → valid_satpoint e.2 → moved tx e = Some e' →
  op_txid (outpoint e'.2) = compute_txid tx ∧ valid_satpoint e'.2.
Proof.
  intros C Hin Hv E. destruct (move_sat_run tx e.2 ∅ C empty_cache_ok Hin Hv)
    as (_ & _ & _ & p & F).
  unfold moved in E. unfold fifo_result in F. destruct (sp_address _) as [a|]; [|done].
  injection E as <-. destruct F as (i & o & Ho & Eo & Hoff & _). cbn.
  unfold valid_satpoint. rewrite Eo, (ct_values _ C _ _ Ho). done.
Qed.

Lemma after_ins_valid tx ins view :
  chain_tx tx → ins ⊆ input tx → view_valid view → view_valid (omap (after_ins tx ins) view).
Proof.
  intros C Hins Hv i e' E. rewrite lookup_omap in E. destruct (view !! i) as [e|] eqn:Ei; [|done].
  cbn in E. unfold after_ins in E. case_bool_decide as Hin; [|simplify_eq; by eapply Hv].
  eapply moved_place; [exact C|by apply Hins|by eapply Hv|done].
Qed.

(** Spending inputs one after the other is spending them together: what has moved is in the new
    transaction, whose outputs it does not spend. *)
Lemma after_ins_cons tx o ins view :
  chain_tx tx → o :: ins ⊆ input tx → view_valid view →
  omap (after_ins tx ins) (omap (after_ins tx [o]) view) = omap (after_ins tx (o :: ins)) view.
Proof.
  intros C Hins Hv. apply map_eq. intros i. rewrite !lookup_omap.
  destruct (view !! i) as [e|] eqn:E; [|done]. cbn. unfold after_ins at 2 3.
  destruct (decide (outpoint e.2 = o)) as [Eo|Eo].
  - rewrite !bool_decide_true by (rewrite Eo; by left).
    destruct (moved tx e) as [e'|] eqn:Em; [|done]. cbn. unfold after_ins.
    rewrite bool_decide_false; [done|]. intros Hin.
    assert (outpoint e.2 ∈ input tx) as He by (apply Hins; rewrite Eo; by left).
    destruct (moved_place tx e e' C He (Hv _ _ E) Em) as [Ht _].
    apply (ct_not_self _ C (outpoint e'.2)); [apply Hins; by right|done].
  - rewrite (bool_decide_false (_ ∈ [o])) by (by intros ?%list_elem_of_singleton).
    cbn. unfold after_ins.
    rewrite (bool_decide_ext (outpoint e.2 ∈ o :: ins) (outpoint e.2 ∈ ins)); [done|].
    rewrite elem_of_cons. naive_solver.
Qed.

Lemma transfers_of_cons h tx o ins view it :
  chain_tx tx → o :: ins ⊆ input tx → o ∉ ins → view_valid view →
  transfers_of h tx (o :: ins) view it
  ↔ transfers_of h tx [o] view it ∨ transfers_of h tx ins (omap (after_ins tx [o]) view) it.
Proof.
  intros C Hins Hni Hv. unfold transfers_of. split.
  - intros (i & e & E & Hin & ->). apply elem_of_cons in Hin as [Eo|Hin].
    + left. exists i, e. split_and!; [done|by rewrite Eo; left|done].
    + right. exists i, e. split_and!; [|done|done]. rewrite lookup_omap, E. cbn. unfold after_ins.
      rewrite bool_decide_false; [done|]. intros Eo%list_elem_of_singleton. by rewrite Eo in Hin.
  - intros [(i & e & E & Hin%list_elem_of_singleton & ->)|(i & e' & E & Hin & ->)].
    + exists i, e. split_and!; [done|rewrite Hin; by left|done].
    + rewrite lookup_omap in E. destruct (view !! i) as [e|] eqn:Ei; [|done]. cbn in E.
      unfold after_ins in E. case_bool_decide as Ho.
      * exfalso. apply list_elem_of_singleton in Ho.
        destruct (moved_place tx e e' C ltac:(apply Hins; rewrite Ho; by left) (Hv _ _ Ei) E) as [Ht _].
        apply (ct_not_self _ C (outpoint e'.2)); [apply Hins; by right|done].
      * simplify_eq. exists i, e'. split_and!; [done|by right|done].
Qed.
End Reference.

(** ** The tracker follows the sats *)

Section Refinement.
Context {BN : BitcoinNode} (val : OutPoint → u64).

Definition entry_of (p : ValidMinerPassInfo) : USDBScriptHash * SatPoint := (vp_owner p, vp_satpoint p).

(** The view after one tracked pass has moved. *)
Definition move_view (tx : Transaction) (view : View) (p : ValidMinerPassInfo) : View :=
  partial_alter (λ _, moved val tx (entry_of p)) (vp_inscription_id p) view.

Lemma represents_move tx m view p :
  represents m view → view !! vp_inscription_id p = Some (entry_of p) →
  represents
    (let m' := delete_value (outpoint (vp_satpoint p)) (vp_inscription_id p) m in
     match sp_address (move_sat val tx (vp_satpoint p)) with
     | Some o => insert_entry (tracked_pass (vp_inscription_id p) o
                                 (sp_satpoint (move_sat val tx (vp_satpoint p)))) m'
     | None => m'
     end) (move_view tx view p).
Proof.
  intros R E. pose proof (represents_delete _ _ _ _ _ R E) as Rd.
  unfold move_view, moved, entry_of. cbn. destruct (sp_address _) as [o|]; cbn; [|exact Rd].
  apply (represents_insert _ _ (tracked_pass (vp_inscription_id p) o
          (sp_satpoint (move_sat val tx (vp_satpoint p))))) in Rd.
  - cbn in Rd. by rewrite insert_delete_eq in Rd.
  - cbn. intros v Hv. by rewrite lookup_delete_eq in Hv.
Qed.

Lemma set_utxo_twice c c' s : set_utxo c' (set_utxo c s) = set_utxo c' s.
Proof. done. Qed.

Lemma move_item_run h tx p w view items s :
  chain_tx val tx → cache_ok (utxo_manager s) → represents w view →
  view !! vp_inscription_id p = Some (entry_of p) → outpoint (vp_satpoint p) ∈ input tx →
  valid_satpoint val (vp_satpoint p) →
  ∃ w' c, move_item h tx (w, items) p s
          = (Ok (w', items ++ [transfer_item val h tx (vp_inscription_id p) (entry_of p)]), set_utxo c s)
    ∧ cache_ok c ∧ represents w' (move_view tx view p).
Proof.
  intros C Hc R E Hin Hv.
  destruct (move_sat_run val tx (vp_satpoint p) (utxo_manager s) C Hc Hin Hv) as (c & Ec & Hc' & _).
  eexists _, c. unfold move_item. rewrite (bind_run _ _ _ _ _ (zoom_run _ set_utxo _ s _ _ Ec)).
  erewrite bind_run by reflexivity. split; [reflexivity|]. split; [done|].
  by apply represents_move.
Qed.

(** The passes of one spent outpoint. *)
Lemma move_items_run h tx rest : ∀ w view items s,
  chain_tx val tx → cache_ok (utxo_manager s) → represents w view →
  NoDup (vp_inscription_id <$> rest) →
  (∀ p, p ∈ rest → view !! vp_inscription_id p = Some (entry_of p)
                   ∧ outpoint (vp_satpoint p) ∈ input tx ∧ valid_satpoint val (vp_satpoint p)) →
  ∃ w' c, fold_m rest (w, items) (move_item h tx) s
    = (Ok (w', items ++ ((λ p, transfer_item val h tx (vp_inscription_id p) (entry_of p)) <$> rest)),
       set_utxo c s)
    ∧ cache_ok c ∧ represents w' (foldl (move_view tx) view rest).
Proof.
  induction rest as [|p rest IH]; intros w view items s C Hc R Hnd Hrest; cbn [fold_m].
  { exists w, (utxo_manager s). cbn. rewrite app_nil_r. by destruct s. }
  apply NoDup_cons in Hnd as [Hp Hnd]. destruct (Hrest p ltac:(by left)) as (E & Hin & Hv).
  destruct (move_item_run h tx p w view items s) as (w1 & c1 & E1 & Hc1 & R1); [done..|].
  rewrite (bind_run _ _ _ _ _ E1).
  destruct (IH w1 (move_view tx view p) (items ++ [transfer_item val h tx (vp_inscription_id p) (entry_of p)])
              (set_utxo c1 s)) as (w2 & c2 & E2 & Hc2 & R2); [done..| |].
  - intros q Hq. destruct (Hrest q ltac:(by right)) as (Eq & ?). split; [|done].
    unfold move_view. rewrite lookup_partial_alter_ne; [done|]. intros E'. apply Hp. rewrite E'.
    by apply list_elem_of_fmap_2.
  - exists w2, c2. rewrite E2. rewrite <-app_assoc. done.
Qed.

Lemma foldl_move_view tx rest : ∀ view i,
  NoDup (vp_inscription_id <$> rest) →
  (∀ p, p ∈ rest → view !! vp_inscription_id p = Some (entry_of p)) →
  foldl (move_view tx) view rest !! i
  = if bool_decide (i ∈ vp_inscription_id <$> rest) then view !! i ≫= moved val tx else view !! i.
Proof.
  induction rest as [|p rest IH]; intros view i Hnd Hrest; [done|]. cbn [foldl].
  rewrite fmap_cons in Hnd |- *. apply NoDup_cons in Hnd as [Hp Hnd]. rewrite IH; [|done|].
  - unfold move_view. destruct (decide (i = vp_inscription_id p)) as [->|Hne].
    + rewrite bool_decide_false by done. rewrite bool_decide_true by by left.
      rewrite lookup_partial_alter_eq, (Hrest p) by by left. done.
    + rewrite lookup_partial_alter_ne by done.
      rewrite (bool_decide_ext (i ∈ vp_inscription_id p :: _) (i ∈ vp_inscription_id <$> rest)); [done|].
      rewrite elem_of_cons. naive_solver.
  - intros q Hq. unfold move_view. rewrite lookup_partial_alter_ne; [apply Hrest; by right|].
    intros E. apply Hp. rewrite E. by apply list_elem_of_fmap_2.
Qed.

Lemma process_input_run h tx o w view items s :
  chain_tx val tx → cache_ok (utxo_manager s) → represents w view → view_valid val view →
  o ∈ input tx →
  ∃ w' new c, process_input h tx (w, items) o s = (Ok (w', items ++ new), set_utxo c s)
    ∧ cache_ok c ∧ represents w' (omap (after_ins val tx [o]) view)
    ∧ ∀ it, it ∈ new ↔ transfers_of val h tx [o] view it.
Proof.
  intros C Hc R Hv Hin. unfold process_input. cbn [fst].
  destruct (w !! o) as [vec|] eqn:Ew.
  - destruct (rp_vec _ _ R _ _ Ew) as (_ & Hnd & Hvec).
    assert (∀ i e, view !! i = Some e → outpoint e.2 = o →
      ∃ p, p ∈ vec ∧ i = vp_inscription_id p ∧ e = entry_of p) as Hcov.
    { intros i [ow sp] E Eo. cbn in Eo. destruct (rp_view _ _ R _ _ _ E) as (vec' & Hv' & Hp).
      rewrite Eo in Hv'. assert (vec' = vec) as -> by congruence.
      exists (tracked_pass i ow sp). done. }
    destruct (move_items_run h tx vec w view items s) as (w' & c & E & Hc' & R'); try done.
    { intros p Hp. destruct (Hvec p Hp) as [Ho E]. rewrite Ho. split_and!; [done|done|].
      apply (Hv _ _ E). }
    eexists w', _, c. split; [exact E|]. split; [done|]. split.
    + replace (omap (after_ins val tx [o]) view) with (foldl (move_view tx) view vec); [done|].
      apply map_eq. intros i. rewrite foldl_move_view; [|done|intros p Hp; by apply Hvec].
      rewrite lookup_omap. destruct (view !! i) as [e|] eqn:Ei; cbn; [|by case_bool_decide].
      unfold after_ins. rewrite (bool_decide_ext (i ∈ vp_inscription_id <$> vec) (outpoint e.2 ∈ [o]));
        [done|]. rewrite list_elem_of_singleton, list_elem_of_fmap. split.
      * intros (p & -> & Hp). destruct (Hvec p Hp) as [<- E']. rewrite Ei in E'. by injection E' as ->.
      * intros Eo. destruct (Hcov _ _ Ei Eo) as (p & Hp & -> & _). by exists p.
    + intros it. rewrite list_elem_of_fmap. unfold transfers_of. split.
      * intros (p & -> & Hp). destruct (Hvec p Hp) as [Ho E']. exists (vp_inscription_id p), (entry_of p).
        split_and!; [done|by apply list_elem_of_singleton|done].
      * intros (i & e & E' & Eo%list_elem_of_singleton & ->).
        destruct (Hcov _ _ E' Eo) as (p & Hp & -> & ->). by exists p.
  - assert (∀ i e, view !! i = Some e → outpoint e.2 ∉ [o]) as Hno.
    { intros i [ow sp] E Eo%list_elem_of_singleton. cbn in Eo.
      destruct (rp_view _ _ R _ _ _ E) as (vec & Hv' & _). congruence. }
    exists w, [], (utxo_manager s). rewrite app_nil_r. split; [by destruct s|]. split; [done|]. split.
    + by rewrite after_idle.
    + intros it. split; [by intros ?%elem_of_nil|]. intros (i & e & E & Hin' & _).
      by destruct (Hno _ _ E).
Qed.

Lemma process_inputs_run h tx ins : ∀ w view items s,
  chain_tx val tx → cache_ok (utxo_manager s) → represents w view → view_valid val view →
  ins ⊆ input tx → NoDup ins →
  ∃ w' new c, fold_m ins (w, items) (process_input h tx) s = (Ok (w', items ++ new), set_utxo c s)
    ∧ cache_ok c ∧ represents w' (omap (after_ins val tx ins) view)
    ∧ ∀ it, it ∈ new ↔ transfers_of val h tx ins view it.
Proof.
  induction ins as [|o ins IH]; intros w view items s C Hc R Hv Hins Hnd; cbn [fold_m].
  { exists w, [], (utxo_manager s). rewrite app_nil_r. split; [by destruct s|]. split; [done|]. split.
    - replace (omap (after_ins val tx []) view) with view; [done|]. apply map_eq. intros i.
      rewrite lookup_omap. by destruct (view !! i).
    - intros it. split; [by intros ?%elem_of_nil|]. by intros (i & e & _ & ?%elem_of_nil & _). }
  apply NoDup_cons in Hnd as [Ho Hnd]. assert (o ∈ input tx) as Hin by (apply Hins; by left).
  destruct (process_input_run h tx o w view items s) as (w1 & n1 & c1 & E1 & Hc1 & R1 & I1); [done..|].
  rewrite (bind_run _ _ _ _ _ E1).
  destruct (IH w1 (omap (after_ins val tx [o]) view) (items ++ n1) (set_utxo c1 s))
    as (w2 & n2 & c2 & E2 & Hc2 & R2 & I2); [done|done|done| |by intros x Hx; apply Hins; right|done|].
  { apply after_ins_valid; [done| |done]. intros x ->%list_elem_of_singleton. done. }
  rewrite (after_ins_cons val) in R2 by done.
  exists w2, (n1 ++ n2), c2. rewrite E2, app_assoc. split_and!; [done..|].
  intros it. rewrite elem_of_app, I1, I2. symmetry. by apply transfers_of_cons.
Qed.

(** A coinbase spends no tracked outpoint. *)
Lemma process_coinbase_run h tx w view items s :
  val null_outpoint = 0 → coinbase tx → represents w view → view_valid val view →
  process_tx h (w, items) tx s = (Ok (w, items), s) ∧ view_after_tx val view tx = view
  ∧ ∀ it, ¬ transfers_of val h tx (input tx) view it.
Proof.
  intros Hn Hc R Hv. unfold process_tx, view_after_tx. rewrite Hc. cbn [fold_m].
  pose proof (λ i e, coinbase_moves_none val view i e Hn Hv) as Hno. split_and!.
  - unfold process_input. cbn [fst]. destruct (w !! null_outpoint) as [vec|] eqn:Ew; [exfalso|done].
    destruct (rp_vec _ _ R _ _ Ew) as (Hne & _ & Hvec). destruct vec as [|p vec]; [done|].
    destruct (Hvec p ltac:(by left)) as [Ho E]. apply (Hno _ _ E). cbn. rewrite Ho. by left.
  - by apply after_idle.
  - intros it (i & e & E & Hin & _). by apply (Hno _ _ E).
Qed.

Lemma process_tx_run h tx w view items s :
  val null_outpoint = 0 → block_tx val tx → cache_ok (utxo_manager s) → represents w view →
  view_valid val view →
  ∃ w' new c, process_tx h (w, items) tx s = (Ok (w', items ++ new), set_utxo c s)
    ∧ cache_ok c ∧ represents w' (view_after_tx val view tx) ∧ view_valid val (view_after_tx val view tx)
    ∧ ∀ it, it ∈ new ↔ transfers_of val h tx (input tx) view it.
Proof.
  intros Hn [Hcb|C] Hc R Hv.
  - destruct (process_coinbase_run h tx w view items s) as (E & Ev & Hno); [done..|].
    rewrite Ev. exists w, [], (utxo_manager s). rewrite app_nil_r, E. split; [by destruct s|].
    split_and!; [done..|]. intros it. rewrite elem_of_nil. split; [done|apply Hno].
  - destruct (process_inputs_run h tx (input tx) w view items s) as (w1 & n1 & c1 & E1 & Hc1 & R1 & I1);
      [done..|apply (ct_ok _ _ C)|].
    exists w1, n1, c1. split_and!; [done..|by apply after_ins_valid|done].
Qed.

Lemma process_txs_run h block : val null_outpoint = 0 → ∀ w view items s,
  Forall (block_tx val) block → cache_ok (utxo_manager s) → represents w view → view_valid val view →
  ∃ w' new c, fold_m block (w, items) (process_tx h) s = (Ok (w', items ++ new), set_utxo c s)
    ∧ cache_ok c ∧ represents w' (foldl (view_after_tx val) view block)
    ∧ ∀ it, it ∈ new ↔ block_transfers val h view block it.
Proof.
  intros Hn. induction block as [|tx block IH]; intros w view items s C Hc R Hv; cbn [fold_m].
  { exists w, [], (utxo_manager s). rewrite app_nil_r. split; [by destruct s|]. split_and!; [done..|].
    intros it. by rewrite elem_of_nil. }
  apply Forall_cons in C as [C Cs].
  destruct (process_tx_run h tx w view items s) as (w1 & n1 & c1 & E1 & Hc1 & R1 & Hv1 & I1); [done..|].
  rewrite (bind_run _ _ _ _ _ E1).
  destruct (IH w1 (view_after_tx val view tx) (items ++ n1) (set_utxo c1 s))
    as (w2 & n2 & c2 & E2 & Hc2 & R2 & I2); [done..|].
  exists w2, (n1 ++ n2), c2. rewrite E2, app_assoc. split_and!; [done..|].
  intros it. rewrite elem_of_app, I1, I2. done.
Qed.
End Refinement.

(** ** Blocks *)

Definition add_seeds (seeds : list TransferTrackSeed) (view : View) : View :=
  foldl (λ view s, <[ts_inscription_id s := (ts_owner s, ts_satpoint s)]> view) view seeds.

Lemma represents_seeds seeds : ∀ m view,
  represents m view → NoDup (ts_inscription_id <$> seeds) →
  (∀ s, s ∈ seeds → view !! ts_inscription_id s = None) →
  represents (foldl insert_seed m seeds) (add_seeds seeds view).
Proof.
  induction seeds as [|s seeds IH]; intros m view R Hnd Hnew; [done|].
  apply NoDup_cons in Hnd as [Hs Hnd]. cbn. apply IH; [|done|].
  - apply (represents_insert m view (tracked_pass (ts_inscription_id s) (ts_owner s) (ts_satpoint s)));
      [done|]. cbn. intros v Hv. rewrite Hnew in Hv by by left. done.
  - intros s' Hs'. rewrite lookup_insert_ne; [apply Hnew; by right|]. intros E. apply Hs. rewrite E.
    by apply list_elem_of_fmap_2.
Qed.

Section Blocks.
Context {BN : BitcoinNode}.

(** C19. Block processing follows sats as ordinal theory moves them from the inputs to the outputs of a
    transaction: from a tracker that represents the places of a set of passes, and with the passes
    minted in the block as seeds, it never fails on a block of spending transactions and coinbases,
    stages a map that represents each pass at the place to which its sat has moved through the
    block's transactions, reports exactly the moves that were made, and does not touch the published
    map. A pass whose sat goes to the fee is dropped, where ordinal theory gives it to the coinbase:
    the reference says what the code does, and the difference is a finding. *)
Theorem process_block_follows_sats val h block seeds view s :
  represents (inscriptions s) view → staged_blocks s = ∅ → cache_ok (utxo_manager s) →
  NoDup (ts_inscription_id <$> seeds) → (∀ sd, sd ∈ seeds → view !! ts_inscription_id sd = None) →
  val null_outpoint = 0 → Forall (block_tx val) block → view_valid val (add_seeds seeds view) →
  ∃ items working c,
    process_block_with_hint h (Some block) seeds s
    = (Ok items, {| inscriptions := inscriptions s; staged_blocks := {[h := working]}; utxo_manager := c |})
    ∧ represents working (foldl (view_after_tx val) (add_seeds seeds view) block)
    ∧ ∀ it, it ∈ items ↔ block_transfers val h (add_seeds seeds view) block it.
Proof.
  intros R Hst Hc Hnd Hnew Hn C Hv. unfold process_block_with_hint.
  erewrite bind_run by reflexivity. rewrite Hst. rewrite bool_decide_true by done. cbn [negb].
  erewrite bind_run by reflexivity. erewrite bind_run by reflexivity.
  destruct (process_txs_run val h block Hn (foldl insert_seed (inscriptions s) seeds)
    (add_seeds seeds view) [] s) as (w & new & c & E & _ & Rw & Hi); [done|done| |done|].
  { by apply represents_seeds. }
  exists new, w, c. rewrite (bind_run _ _ _ _ _ E). erewrite bind_run by reflexivity.
  cbn [set_utxo staged_blocks]. rewrite Hst. erewrite bind_run by reflexivity.
  rewrite lookup_empty. unfold ret. split_and!; [|done|done]. done.
Qed.

(** A routine that changes only the value cache. *)
Definition only_utxo (s s' : InscriptionTransferTracker) : Prop :=
  inscriptions s' = inscriptions s ∧ staged_blocks s' = staged_blocks s.

#[export] Instance only_utxo_refl : Reflexive only_utxo.
Proof. done. Qed.
#[export] Instance only_utxo_trans : Transitive only_utxo.
Proof. intros a b c [E1 E2] [E3 E4]. split; congruence. Qed.

Lemma with_utxo_moves {A} (m : M UTXOValueCache A) : moves only_utxo (with_utxo m).
Proof. by intros s. Qed.
Lemma process_txs_moves h block acc : moves only_utxo (fold_m block acc (process_tx h)).
Proof.
  apply moves_fold_m; [apply _..|]. intros a tx. apply moves_fold_m; [apply _..|]. intros b o.
  unfold process_input. destruct (b.1 !! o); [|apply moves_ret, _].
  apply moves_fold_m; [apply _..|]. intros [w items] p. unfold move_item.
  apply moves_bind; [apply _|apply with_utxo_moves|intros found].
  apply moves_bind; [apply _|apply moves_lift, _|intros r]. apply moves_ret, _.
Qed.

Lemma staging_run h hint seeds s :
  let '(r, s') := process_block_with_hint h hint seeds s in
  inscriptions s' = inscriptions s ∧
  match r with
  | Ok _ => staged_blocks s = ∅ ∧ ∃ working,
      staged_blocks s' = {[h := working]}
      ∧ commit_staged_block h s'
        = (Ok tt, {| inscriptions := working; staged_blocks := ∅; utxo_manager := utxo_manager s' |})
      ∧ rollback_staged_block h s' = (Ok tt, set_utxo (utxo_manager s') s)
  | _ => staged_blocks s' = staged_blocks s
  end.
Proof.
  unfold process_block_with_hint. erewrite bind_run by reflexivity.
  case_bool_decide as Hst; cbn [negb]; [|done].
  set (blk := match hint with Some _ => _ | None => _ end).
  assert (∃ r, blk s = (r, s)) as [r Hr] by (unfold blk; destruct hint; eexists; reflexivity).
  unfold bind at 1. rewrite Hr. destruct r as [block|e|e]; [|done..].
  erewrite bind_run by reflexivity.
  set (w0 := foldl insert_seed (inscriptions s) seeds).
  pose proof (process_txs_moves h block (w0, []) s) as [E1 E2].
  unfold bind at 1. destruct (fold_m block (w0, []) (process_tx h) s) as [[[w items]|e|e] s1];
    cbn in E1, E2; [|done..].
  erewrite bind_run by reflexivity. erewrite bind_run by reflexivity.
  rewrite E2, Hst, lookup_empty. cbn. split; [done|]. split; [done|]. exists w.
  assert (delete h (<[h := w]> (∅ : gmap u32 MultiMap)) = ∅) as Ed by by apply delete_insert_id.
  split; [done|]. rewrite lookup_insert_eq. cbn. unfold modify, ret, set_inscriptions, set_staged, set_utxo.
  cbn. rewrite Ed, E1, Hst. done.
Qed.

(** A block is staged, then published or dropped: processing leaves the published map as it was,
    however it ends; when it succeeds exactly one block is staged, publishing it puts its map in
    place and rolling it back restores the tracker; when it fails nothing is staged.  The
    overwriting of a staged block, which the code reports as an error after the fact, cannot
    happen. *)
Theorem transfer_staging_atomic h hint seeds s :
  let '(r, s') := process_block_with_hint h hint seeds s in
  inscriptions s' = inscriptions s ∧
  match r with
  | Ok _ => staged_blocks s = ∅ ∧ ∃ working,
      staged_blocks s' = {[h := working]}
      ∧ commit_staged_block h s'
        = (Ok tt, {| inscriptions := working; staged_blocks := ∅; utxo_manager := utxo_manager s' |})
      ∧ rollback_staged_block h s' = (Ok tt, set_utxo (utxo_manager s') s)
  | _ => staged_blocks s' = staged_blocks s
  end.
Proof. apply staging_run. Qed.
End Blocks.

(** ** Reloading *)

(** The passes the tracker follows after a reload: those of the table that are neither consumed
    nor invalid. *)
Definition tracked_entry (p : MinerPassInfo) : option (USDBScriptHash * SatPoint) :=
  if bool_decide (state p ≠ Consumed ∧ state p ≠ Invalid) then Some (owner p, satpoint p) else None.
Definition table_view (t : Tables) : View := omap tracked_entry (t_passes t).

Definition add_entry (view : View) (p : ValidMinerPassInfo) : View :=
  <[vp_inscription_id p := entry_of p]> view.

Lemma represents_add_all l : ∀ m view,
  represents m view → NoDup (vp_inscription_id <$> l) →
  (∀ p, p ∈ l → view !! vp_inscription_id p = None) →
  represents (foldl (λ m p, insert_entry p m) m l) (foldl add_entry view l).
Proof.
  induction l as [|p l IH]; intros m view R Hnd Hnew; [done|].
  apply NoDup_cons in Hnd as [Hp Hnd]. cbn. apply IH; [|done|].
  - apply represents_insert; [done|]. intros v Hv. rewrite Hnew in Hv by by left. done.
  - intros q Hq. unfold add_entry. rewrite lookup_insert_ne; [apply Hnew; by right|].
    intros E. apply Hp. rewrite E. by apply list_elem_of_fmap_2.
Qed.

Lemma foldl_add_entry l : ∀ view i e,
  NoDup (vp_inscription_id <$> l) → (∀ p, p ∈ l → view !! vp_inscription_id p = None) →
  foldl add_entry view l !! i = Some e
  ↔ view !! i = Some e ∨ ∃ p, p ∈ l ∧ vp_inscription_id p = i ∧ entry_of p = e.
Proof.
  induction l as [|p l IH]; intros view i e Hnd Hnew; cbn.
  { split; [by left|]. intros [?|(p & ?%elem_of_nil & _)]; done. }
  apply NoDup_cons in Hnd as [Hp Hnd]. rewrite IH; [|done|].
  - unfold add_entry. rewrite lookup_insert_Some. split.
    + intros [[[<- <-]|[_ Hv]]|(q & Hq & Hi)]; [right; exists p|by left|right; exists q].
      * split_and!; [by left|done..].
      * split; [by right|done].
    + intros [Hv|(q & [->|Hq]%elem_of_cons & Hi & He)].
      * left. right. split; [|done]. intros E. rewrite <-E, Hnew in Hv by by left. done.
      * left. by left.
      * right. by exists q.
  - intros q Hq. unfold add_entry. rewrite lookup_insert_ne; [apply Hnew; by right|].
    intros E. apply Hp. rewrite E. by apply list_elem_of_fmap_2.
Qed.

(** All the rows the paged query goes through. *)
Definition valid_passes (t : Tables) : list ValidMinerPassInfo :=
  (λ p, tracked_pass (inscription_id p) (owner p) (satpoint p))
  <$> order_by (λ p, [mint_block_height p]) true
        (filter (λ p, state p ≠ Consumed ∧ state p ≠ Invalid) (pass_rows t)).

Lemma valid_pass_page t k :
  0 <= k -> k * PAGE_SIZE <= I64_MAX →
  (get_all_valid_pass_by_page k PAGE_SIZE t).1
  = Ok (take (Z.to_nat PAGE_SIZE) (drop (Z.to_nat (k * PAGE_SIZE)) (valid_passes t))).
Proof.
  intros Hk Hb. unfold get_all_valid_pass_by_page, gets, valid_passes, tracked_pass. cbn [fst].
  unfold sql_page, sql_limit_offset, usize_mul. rewrite Z.mod_small.
  2: { unfold PAGE_SIZE, I64_MAX, U64_MAX in *. lia. }
  unfold u64_as_i64. rewrite (proj2 (Z.leb_le (k * PAGE_SIZE) I64_MAX)) by done.
  change (PAGE_SIZE <=? I64_MAX) with true. cbn match. change (PAGE_SIZE <? 0) with false. cbn match.
  by rewrite <-fmap_drop, <-fmap_take.
Qed.

Lemma load_pages_run t fuel : ∀ k m,
  0 <= k → count (valid_passes t) + 2 * PAGE_SIZE <= I64_MAX →
  k * PAGE_SIZE <= count (valid_passes t) →
  (length (valid_passes t) < (fuel + Z.to_nat k) * Z.to_nat PAGE_SIZE)%nat →
  load_pages fuel k t m
  = Some (foldl (λ m p, insert_entry p m) m (drop (Z.to_nat (k * PAGE_SIZE)) (valid_passes t))).
Proof.
  unfold count. assert (Z.of_nat (Z.to_nat PAGE_SIZE) = PAGE_SIZE) as EP by done.
  induction fuel as [|fuel IH]; intros k m Hk Hc Hle Hf.
  { exfalso. unfold PAGE_SIZE in *. lia. }
  cbn [load_pages]. rewrite valid_pass_page by (unfold PAGE_SIZE in *; lia).
  set (rest := drop (Z.to_nat (k * PAGE_SIZE)) (valid_passes t)).
  assert (length rest = (length (valid_passes t) - Z.to_nat (k * PAGE_SIZE))%nat) as Hrest
    by apply length_drop.
  case_bool_decide as E.
  { destruct rest as [|x rest'] eqn:Er; [done|]. by change (Z.to_nat PAGE_SIZE) with 1024%nat in E. }
  unfold count. rewrite length_take.
  destruct (Z.of_nat (Z.to_nat PAGE_SIZE `min` length rest) <? PAGE_SIZE) eqn:El; b2p.
  - f_equal. rewrite take_ge by lia. done.
  - rewrite IH.
    + f_equal. rewrite <-foldl_app. f_equal. rewrite <-(take_drop (Z.to_nat PAGE_SIZE) rest) at 2.
      f_equal. unfold rest. rewrite drop_drop. f_equal. unfold PAGE_SIZE. lia.
    + lia.
    + done.
    + unfold PAGE_SIZE in *. lia.
    + unfold PAGE_SIZE in *. lia.
Qed.

Lemma pass_rows_elem t p : p ∈ pass_rows t ↔ ∃ i, t_passes t !! i = Some p.
Proof.
  unfold pass_rows. rewrite list_elem_of_fmap. split.
  - intros ([i q] & -> & Hq%elem_of_map_to_list). by exists i.
  - intros (i & Hi). exists (i, p). split; [done|]. by apply elem_of_map_to_list.
Qed.

Lemma pass_rows_ids t :
  (∀ i p, t_passes t !! i = Some p → inscription_id p = i) →
  inscription_id <$> pass_rows t = (map_to_list (t_passes t)).*1.
Proof.
  intros Hk. unfold pass_rows. rewrite <-list_fmap_compose. apply list_fmap_ext.
  intros n [i p] E%list_elem_of_lookup_2%elem_of_map_to_list. by apply Hk in E.
Qed.

Lemma valid_passes_NoDup t :
  (∀ i p, t_passes t !! i = Some p → inscription_id p = i) →
  NoDup (vp_inscription_id <$> valid_passes t).
Proof.
  intros Hk. unfold valid_passes. rewrite <-list_fmap_compose.
  change (vp_inscription_id ∘ _) with inscription_id. rewrite order_by_Permutation.
  eapply sublist_NoDup; [|apply fmap_sublist, sublist_filter].
  rewrite pass_rows_ids by done. apply NoDup_fst_map_to_list.
Qed.

Lemma valid_passes_length t : (length (valid_passes t) <= size (t_passes t))%nat.
Proof.
  unfold valid_passes. rewrite length_fmap, order_by_Permutation, <-length_map_to_list.
  etransitivity; [apply length_filter|]. unfold pass_rows. by rewrite length_fmap.
Qed.

Lemma reload_run t s :
  (∀ i p, t_passes t !! i = Some p → inscription_id p = i) →
  Z.of_nat (size (t_passes t)) + 2 * PAGE_SIZE <= I64_MAX →
  ∃ m, reload_from_storage t s
       = (Ok tt, {| inscriptions := m; staged_blocks := ∅; utxo_manager := utxo_manager s |})
    ∧ represents m (table_view t).
Proof.
  intros Hk Hsize. pose proof (valid_passes_length t) as Hlen.
  exists (foldl (λ m p, insert_entry p m) ∅ (valid_passes t)). split.
  - unfold reload_from_storage. erewrite bind_run by reflexivity. erewrite bind_run by reflexivity.
    unfold map_err, load_all_passes. rewrite load_pages_run; [done|done|unfold count; lia|unfold count; lia|].
    unfold load_fuel. change (Z.to_nat 0) with 0%nat. change (Z.to_nat PAGE_SIZE) with 1024%nat.
    rewrite Nat.add_0_r. pose proof (Nat.div_mod_eq (size (t_passes t)) 1024).
    pose proof (Nat.mod_upper_bound (size (t_passes t)) 1024). lia.
  - pose proof (valid_passes_NoDup t Hk) as Hnd.
    assert (table_view t = foldl add_entry ∅ (valid_passes t)) as ->;
      [|by apply represents_add_all; [apply represents_empty|..]].
    apply map_eq. intros i. apply option_eq. intros e.
    rewrite foldl_add_entry by (done || (intros; apply lookup_empty)). rewrite lookup_empty.
    unfold table_view. rewrite lookup_omap, bind_Some. unfold valid_passes, tracked_entry. split.
    + intros (p & Hp & E). case_bool_decide as Hs; [|done]. injection E as <-. right.
      exists (tracked_pass (inscription_id p) (owner p) (satpoint p)). split_and!; [|by apply Hk|done].
      apply list_elem_of_fmap. exists p. split; [done|].
      rewrite elem_of_order_by, list_elem_of_filter. split; [done|]. apply pass_rows_elem. by exists i.
    + intros [?|(q & Hq & <- & <-)]; [done|]. apply list_elem_of_fmap in Hq as (p & -> & Hp).
      rewrite elem_of_order_by, list_elem_of_filter in Hp. destruct Hp as [Hs (j & Hj)%pass_rows_elem].
      exists p. cbn. pose proof (Hk _ _ Hj) as ->. split; [done|]. by rewrite bool_decide_true.
Qed.

(** Reloading reads the whole pass table, page by page, and always succeeds: the published map
    then represents exactly the passes of the table that are neither consumed nor invalid, each at
    its stored satpoint under its stored owner, and nothing is staged.  In particular a consumed
    pass is not tracked after a reload, while processing a block keeps tracking it. *)
Theorem reload_represents_table t s :
  (∀ i p, t_passes t !! i = Some p → inscription_id p = i) →
  Z.of_nat (size (t_passes t)) + 2 * PAGE_SIZE <= I64_MAX →
  ∃ m, reload_from_storage t s
       = (Ok tt, {| inscriptions := m; staged_blocks := ∅; utxo_manager := utxo_manager s |})
    ∧ represents m (table_view t).
Proof. apply reload_run. Qed.

(** ** Witnesses

    A pass at sat 12 of the second input of the block's transaction, tracked from the table. *)

#[local] Existing Instance demo_node.
Definition demo_chain_val (o : OutPoint) : u64 :=
  if vout o =? U32_MAX then 0 else
  if op_txid o =? 9 then default 0 (value <$> output demo_tx !! Z.to_nat (vout o)) else demo_val o.
Definition demo_place : SatPoint := {| outpoint := demo_outpoint 1; offset := 12 |}.
Definition demo_row : MinerPassInfo :=
  {| inscription_id := {| txid := 5; index := 0 |}; inscription_number := 1; mint_txid := 5;
     mint_block_height := 10; mint_owner := 1; satpoint := demo_place; eth_main := "0x";
     eth_collab := None; prev := []; invalid_code := None; invalid_reason := None; owner := 1;
     state := Active |}.
Definition demo_table : Tables := (add_new_mint_pass_at_height demo_row 10 empty_tables).2.
Definition demo_view : View := {[ inscription_id demo_row := (1, demo_place) ]}.
Definition demo_tracker : InscriptionTransferTracker :=
  {| inscriptions := insert_entry (tracked_pass (inscription_id demo_row) 1 demo_place) ∅;
     staged_blocks := ∅; utxo_manager := ∅ |}.

Lemma demo_tracker_represents : represents (inscriptions demo_tracker) demo_view.
Proof.
  apply (represents_insert ∅ ∅ (tracked_pass (inscription_id demo_row) 1 demo_place));
    [apply represents_empty|]. intros v Hv. discriminate Hv.
Qed.
Lemma demo_view_lookup i e : demo_view !! i = Some e → i = inscription_id demo_row ∧ e = (1, demo_place).
Proof. unfold demo_view. by intros [<- <-]%lookup_singleton_Some. Qed.

Lemma demo_chain_tx : chain_tx demo_chain_val demo_tx.
Proof.
  destruct demo_tx_ok. split.
  - split; try done.
    intros o Ho. cbn in Ho. rewrite !elem_of_cons, elem_of_nil in Ho. by destruct Ho as [-> |[-> |?]].
    intros o Ho. cbn in Ho. rewrite !elem_of_cons, elem_of_nil in Ho. by destruct Ho as [-> |[-> |?]].
  - intros o Ho. cbn in Ho. rewrite !elem_of_cons, elem_of_nil in Ho. by destruct Ho as [-> |[-> |?]].
  - intros i o Ho. unfold demo_chain_val. cbn [op_txid vout].
    pose proof (lookup_lt_Some _ _ _ Ho) as Hi. cbn in Hi.
    rewrite (proj2 (Z.eqb_neq (Z.of_nat i) U32_MAX)) by (unfold U32_MAX; lia). change (compute_txid demo_tx =? 9) with true.
    cbn match. by rewrite Nat2Z.id, Ho.
Qed.

(** A coinbase, whose only input the node does not know. *)
Definition demo_coinbase : Transaction :=
  {| compute_txid := 8; input := [null_outpoint];
     output := [{| value := 50; script_pubkey := [1] |}]; envelopes := [] |}.

Lemma process_block_follows_sats_witness :
  ∃ items working c,
    process_block_with_hint 11 (Some [demo_coinbase; demo_tx]) [] demo_tracker
    = (Ok items, {| inscriptions := inscriptions demo_tracker; staged_blocks := {[11 := working]};
                    utxo_manager := c |})
    ∧ represents working (foldl (view_after_tx demo_chain_val) demo_view [demo_coinbase; demo_tx])
    ∧ ∀ it, it ∈ items ↔ block_transfers demo_chain_val 11 demo_view [demo_coinbase; demo_tx] it.
Proof.
  apply (process_block_follows_sats demo_chain_val 11 [demo_coinbase; demo_tx] [] demo_view demo_tracker).
  - apply demo_tracker_represents.
  - done.
  - apply empty_cache_ok.
  - constructor.
  - by intros sd ?%elem_of_nil.
  - done.
  - constructor; [by left|]. constructor; [right; apply demo_chain_tx|constructor].
  - intros i e [-> ->]%demo_view_lookup. unfold valid_satpoint. cbn. unfold demo_chain_val, demo_val.
    simpl. lia.
Defined.

Lemma reload_represents_table_witness :
  ∃ m, reload_from_storage demo_table demo_tracker
       = (Ok tt, {| inscriptions := m; staged_blocks := ∅; utxo_manager := utxo_manager demo_tracker |})
    ∧ represents m (table_view demo_table).
Proof.
  apply reload_represents_table.
  - intros i p. change (t_passes demo_table) with
      (<[inscription_id demo_row := demo_row]> (∅ : gmap InscriptionId MinerPassInfo)).
    rewrite lookup_insert_Some, lookup_empty. by intros [[<- <-]|[_ ?]].
  - vm_compute. congruence.
Defined.
