(* ===== verification/Content.v ===== *)
(** * Inscription content

    [usdb-indexer/src/index/content.rs]: which inscriptions are USDB mints, which of those are
    valid, and the mint they carry. *)

From S2P Require Import Prelude Types.

(** ** Types *)

Inductive InscriptionOperation := Inscribe | Transfer.

Inductive MintValidationErrorCode :=
  | InvalidSchema | InvalidEthMain | InvalidEthCollab | InvalidPrevId | AmbiguousRevealInput.

Definition error_code_as_str (c : MintValidationErrorCode) : string :=
  match c with
  | InvalidSchema => "INVALID_SCHEMA"
  | InvalidEthMain => "INVALID_ETH_MAIN"
  | InvalidEthCollab => "INVALID_ETH_COLLAB"
  | InvalidPrevId => "INVALID_PREV_ID"
  | AmbiguousRevealInput => "AMBIGUOUS_REVEAL_INPUT"
  end.

Record MintValidationError := { mv_code : MintValidationErrorCode; mv_reason : string }.

Record USDBMint := {
  um_eth_main : string;
  um_eth_collab : option string;
  um_prev : list string
}.

Inductive USDBInscription := MintContent (m : USDBMint).

Definition op (c : USDBInscription) : InscriptionOperation :=
  match c with MintContent _ => Inscribe end.
Definition as_mint (c : USDBInscription) : option USDBMint :=
  match c with MintContent m => Some m end.

Inductive ParsedMintContent :=
  | NotUsdbMint
  | Valid (c : USDBInscription)
  | InvalidContent (e : MintValidationError).

(** [serde_json::Value]; the keys of an object are distinct. *)
Inductive Value :=
  | JNull
  | JBool (b : bool)
  | JNumber (text : string)
  | JString (s : string)
  | JArray (l : list Value)
  | JObject (fields : list (string * Value)).

Definition get (fields : list (string * Value)) (key : string) : option Value :=
  snd <$> find (λ kv : string * Value, String.eqb kv.1 key) fields.
Definition value_as_str (v : Value) : option string :=
  match v with JString s => Some s | _ => None end.

(** The body of an inscription as the ord server returns it. *)
Inductive ContentBody := Text (s : string) | Binary (data : list Z).

(** Code of other crates: [InscriptionId::from_str] of ord, [serde_json::from_str], and the ord
    server's [get_content_by_inscription_id]. *)
Class ContentEnv := {
  inscription_id_from_str : string → result InscriptionId;
  json_from_str : string → option Value;
  ord_content : InscriptionId → result (option ContentBody)
}.

(** ** Checks *)

Definition VALID_CONTENT_TYPES : list string :=
  ["text/plain;charset=utf-8"; "text/plain'"; "application/json"].

Definition is_supported_content_type (content_type : option string) : bool :=
  match content_type with
  | Some ct => existsb (String.eqb (to_lowercase ct)) VALID_CONTENT_TYPES
  | None => true
  end.

Definition is_ascii_hexdigit (c : ascii) : bool :=
  let n := nat_of_ascii c in
  ((48 <=? n) && (n <=? 57) || (65 <=? n) && (n <=? 70) || (97 <=? n) && (n <=? 102))%nat.

Definition is_valid_eth_address (value : string) : bool :=
  if negb (String.length value =? 42)%nat then false
  else if negb (String.prefix "0x" value) then false
  else forallb is_ascii_hexdigit (drop 2 (list_ascii_of_string value)).

(** ** The derived [Deserialize] of [USDBMint] on an object

    A [String] field must be a string; a missing or null [Option] field is [None]; other fields
    are ignored. *)

Definition string_from_value (v : Value) : result string := ok_or "expected a string" (value_as_str v).
Definition mint_from_value (fields : list (string * Value)) : result USDBMint :=
  let? eth_main := (match get fields "eth_main" with
                    | Some v => string_from_value v
                    | None => Err "missing field `eth_main`" end) in
  let? eth_collab := (match get fields "eth_collab" with
                      | None | Some JNull => Ok None
                      | Some v => result_map Some (string_from_value v) end) in
  let? prev := (match get fields "prev" with
                | Some (JArray l) => collect string_from_value l
                | Some _ => Err "expected a sequence"
                | None => Err "missing field `prev`" end) in
  Ok {| um_eth_main := eth_main; um_eth_collab := eth_collab; um_prev := prev |}.

Section Loader.
Context `{ContentEnv}.

Definition prev_inscription_ids (m : USDBMint) : result (list InscriptionId) :=
  collect (λ prev, match inscription_id_from_str prev with
                   | Ok i => Ok i
                   | _ => Err "Failed to parse prev inscription id in USDBMint"
                   end) (um_prev m).

Definition invalid (code : MintValidationErrorCode) (reason : string) : ParsedMintContent :=
  InvalidContent {| mv_code := code; mv_reason := reason |}.

Definition field_is (fields : list (string * Value)) (key expected : string) : bool :=
  match get fields key with
  | Some v => String.eqb (default "" (value_as_str v)) expected
  | None => false
  end.

Definition classify_mint_content (content : Value) : ParsedMintContent :=
  match content with
  | JObject fields =>
      if negb (field_is fields "p" "usdb") then NotUsdbMint
      else if negb (field_is fields "op" "mint") then NotUsdbMint
      else
        match mint_from_value fields with
        | Ok mint_inscription =>
            if negb (is_valid_eth_address (um_eth_main mint_inscription))
            then invalid InvalidEthMain "Invalid eth_main format for inscription"
            else
              let collab_ok := match um_eth_collab mint_inscription with
                               | Some collab => is_valid_eth_address collab
                               | None => true
                               end in
              if negb collab_ok
              then invalid InvalidEthCollab "Invalid eth_collab format for inscription"
              else
                match prev_inscription_ids mint_inscription with
                | Ok _ => Valid (MintContent mint_inscription)
                | Err e | Panic e => invalid InvalidPrevId e
                end
        | _ => invalid InvalidSchema "Failed to parse USDB mint payload for inscription"
        end
  | _ => NotUsdbMint
  end.

Definition classify_mint_content_str (content : string) : ParsedMintContent :=
  match json_from_str content with
  | Some value => classify_mint_content value
  | None => NotUsdbMint
  end.

Definition valid_content (p : ParsedMintContent) : option USDBInscription :=
  match p with Valid v => Some v | NotUsdbMint | InvalidContent _ => None end.
Definition parse_content (content : Value) : option USDBInscription :=
  valid_content (classify_mint_content content).
Definition parse_content_str (content : string) : option USDBInscription :=
  valid_content (classify_mint_content_str content).

(** Load the content data which is in text mode. *)
Definition load_content_data (i : InscriptionId) (content_type : option string) :
    result (option string) :=
  if negb (is_supported_content_type content_type) then Ok None
  else
    let? content_opt := ord_content i in
    match content_opt with
    | Some (Text text) => Ok (Some text)
    | Some (Binary _) => Ok None
    | None => Ok None
    end.

Definition load_content (i : InscriptionId) (content_type : option string) :
    result (option (string * USDBInscription)) :=
  let? content := load_content_data i content_type in
  match content with
  | None => Ok None
  | Some content =>
      match json_from_str content with
      | None => Ok None
      | Some value => Ok ((λ c, (content, c)) <$> parse_content value)
      end
  end.

(** ** What is a valid mint *)

(** The mint a payload carries, in the order of the code's checks. *)
Record mint_payload (fields : list (string * Value)) (m : USDBMint) : Prop := {
  mp_protocol : field_is fields "p" "usdb" = true;
  mp_op : field_is fields "op" "mint" = true;
  mp_eth_main : get fields "eth_main" = Some (JString (um_eth_main m));
  mp_eth_collab : match um_eth_collab m with
                  | Some c => get fields "eth_collab" = Some (JString c)
                  | None => get fields "eth_collab" = None ∨ get fields "eth_collab" = Some JNull
                  end;
  mp_prev : get fields "prev" = Some (JArray (JString <$> um_prev m))
}.

Definition address_format (s : string) : Prop :=
  String.length s = 42%nat ∧ ∃ digits, s = ("0x" ++ digits)%string
  ∧ Forall (λ c, is_ascii_hexdigit c = true) (list_ascii_of_string digits).

Lemma is_valid_eth_address_spec s : is_valid_eth_address s = true ↔ address_format s.
Proof.
  unfold is_valid_eth_address, address_format.
  destruct (String.length s =? 42)%nat eqn:El; cbn [negb].
  2: { apply Nat.eqb_neq in El. split; [done|]. intros [E _]. by destruct (El E). }
  apply Nat.eqb_eq in El. destruct s as [|a [|b s]]; [done..|].
  destruct (String.prefix "0x" (String a (String b s))) eqn:Ep; cbn [negb].
  - apply String.prefix_correct in Ep. injection Ep as -> ->.
    change (drop 2 _) with (list_ascii_of_string s).
    rewrite forallb_forall. split.
    + intros Hd. split; [done|]. exists s. split; [done|]. apply Forall_forall.
      intros c Hc. by apply Hd, list_elem_of_In.
    + intros (_ & d & [= ->] & Hd) c Hc. rewrite Forall_forall in Hd. by apply Hd, list_elem_of_In.
  - split; [done|]. intros (_ & d & [= -> -> ->] & _). exfalso.
    apply not_true_iff_false in Ep. apply Ep, String.prefix_correct. simpl. by destruct d.
Qed.

Lemma collect_strings l ss : collect string_from_value l = Ok ss ↔ l = JString <$> ss.
Proof.
  revert ss. induction l as [|v l IH]; intros ss; simpl.
  - split; [by intros [= <-]|by destruct ss].
  - destruct v; simpl; try (split; [done|by destruct ss]).
    destruct (collect string_from_value l) as [ys|e|e]; simpl.
    + split.
      * intros [= <-]. cbn. f_equal. by apply IH.
      * destruct ss as [|x ss]; [done|]. intros [= -> E]. apply IH in E. by injection E as ->.
    + split; [done|]. destruct ss as [|x ss]; [done|]. intros [= -> E]. by apply IH in E.
    + split; [done|]. destruct ss as [|x ss]; [done|]. intros [= -> E]. by apply IH in E.
Qed.

Lemma mint_from_value_spec fields m :
  mint_from_value fields = Ok m ↔
  get fields "eth_main" = Some (JString (um_eth_main m))
  ∧ match um_eth_collab m with
    | Some c => get fields "eth_collab" = Some (JString c)
    | None => get fields "eth_collab" = None ∨ get fields "eth_collab" = Some JNull
    end
  ∧ get fields "prev" = Some (JArray (JString <$> um_prev m)).
Proof.
  destruct m as [em ec pv]. cbn. unfold mint_from_value, result_bind. split.
  - destruct (get fields "eth_main") as [[]|]; try done. cbn.
    destruct (get fields "eth_collab") as [[]|]; try done; cbn;
      (destruct (get fields "prev") as [[]|]; try done; cbn);
      (destruct (collect _ _) as [ps|?|?] eqn:Ec; try done);
      intros [= <- <- <-]; apply collect_strings in Ec; subst; auto.
  - intros (-> & Hc & ->). cbn. rewrite (proj2 (collect_strings _ pv)) by done.
    destruct ec as [c|]; [by rewrite Hc|]. by destruct Hc as [-> | ->].
Qed.

(** C39. The classifier accepts exactly the well-formed mints and returns the mint they carry: protocol
    and operation as given, both addresses in the [0x]-and-40-hex-digits form, the [prev] list
    present, and each of its entries an inscription id; and the content it accepts always has
    parseable [prev] ids later on.  A mint without [prev], or with an empty [eth_collab], is refused,
    where the protocol document allows both: a finding. *)
Theorem classify_valid_iff content m :
  classify_mint_content content = Valid (MintContent m) ↔
  ∃ fields, content = JObject fields ∧ mint_payload fields m
    ∧ address_format (um_eth_main m)
    ∧ (∀ c, um_eth_collab m = Some c → address_format c)
    ∧ ∃ ids, prev_inscription_ids m = Ok ids.
Proof.
  split.
  - destruct content as [| | | | |fields]; try done. unfold classify_mint_content.
    destruct (field_is fields "p" "usdb") eqn:Ep; [|done].
    destruct (field_is fields "op" "mint") eqn:Eo; [|done]. cbn [negb].
    destruct (mint_from_value fields) as [m'|?|?] eqn:Em; [|done..].
    destruct (is_valid_eth_address (um_eth_main m')) eqn:Ea; [|done]. cbn [negb].
    destruct (negb _) eqn:Ec; [done|].
    destruct (prev_inscription_ids m') as [ids|?|?] eqn:Ei; [|done..]. intros [= ->].
    apply mint_from_value_spec in Em as (? & ? & ?). exists fields. split; [done|]. split; [done|].
    split_and!; [by apply is_valid_eth_address_spec| |by exists ids].
    intros c E. rewrite E in Ec. apply negb_false_iff in Ec. by apply is_valid_eth_address_spec.
  - intros (fields & -> & [Hp Ho Hm Hc Hv] & Ha & Hcol & ids & Hi). unfold classify_mint_content.
    rewrite Hp, Ho. cbn [negb]. rewrite (proj2 (mint_from_value_spec fields m)) by done.
    rewrite (proj2 (is_valid_eth_address_spec _)) by done. cbn [negb].
    destruct (um_eth_collab m) as [c|] eqn:Ec; cbn [negb].
    + rewrite (proj2 (is_valid_eth_address_spec _)) by by apply Hcol. cbn. by rewrite Hi.
    + by rewrite Hi.
Qed.

(** A content type written plainly as [text/plain] is not supported: the list has a stray quote. *)
Lemma plain_text_unsupported : is_supported_content_type (Some "text/plain"%string) = false.
Proof. reflexivity. Qed.
End Loader.
