(* ===== verification/BlockEvents.v ===== *)
(** * Ordering and execution of the events of a block

    [usdb-indexer/src/index/indexer/block_events.rs] and [on_new_inscription] of
    [index/indexer.rs]: mints and transfers of a block are put in one canonical order and applied
    to the pass manager. *)

From stdpp Require Import pretty.
From S2P Require Import Prelude Encoding Types EnergyStorage Energy PassStorage PassLedger PassCommit.
From S2P Require Import Pass Tx Transfer Content.

(** [inscription/types.rs]. *)
Record InscriptionNewItem := {
  ni_inscription_id : InscriptionId;
  ni_inscription_number : Z;
  ni_block_height : u32;
  ni_timestamp : u32;
  ni_address : USDBScriptHash;
  ni_satpoint : SatPoint;
  ni_value : u64;
  ni_content_string : string;
  ni_content : USDBInscription;
  ni_op : InscriptionOperation;
  ni_commit_txid : Txid
}.
Definition ni_txid (item : InscriptionNewItem) : Txid := op_txid (outpoint (ni_satpoint item)).
Definition it_txid (item : InscriptionTransferItem) : Txid := op_txid (outpoint (it_satpoint item)).

Inductive BlockProcessEvent :=
  | EventMint (item : InscriptionNewItem)
  | EventTransfer (item : InscriptionTransferItem).

Record EventSortKey := {
  tx_position : Z;
  priority : Z;
  input_index : Z;
  inscription_index : u32
}.

Record OrderedBlockProcessEvent := {
  sort_key : EventSortKey;
  inscription_key : string;
  event : BlockProcessEvent
}.

Definition USIZE_MAX : Z := U64_MAX.

(** The derived order of [EventSortKey], field by field, and then the text of the inscription id:
    lexicographic comparison of the four fields followed by the bytes of the text. *)
Definition order_key (e : OrderedBlockProcessEvent) : list Z :=
  [tx_position (sort_key e); priority (sort_key e); input_index (sort_key e);
   inscription_index (sort_key e)] ++ as_bytes (inscription_key e).

(** ** Positions in the block *)

(** [HashMap::insert] overwrites: the last transaction of an id counts. *)
Definition build_block_tx_position_map (block : Block) : gmap Txid Z :=
  foldl (λ m (e : nat * Transaction), <[compute_txid e.2 := Z.of_nat e.1]> m) ∅ (imap pair block).

(** [entry().or_insert()]: the first input of an outpoint counts. *)
Definition input_indices (ins : list OutPoint) : gmap OutPoint Z :=
  foldl (λ m (e : nat * OutPoint),
    match m !! e.2 with Some _ => m | None => <[e.2 := Z.of_nat e.1]> m end) ∅ (imap pair ins).
Definition build_transfer_input_index_map (block : Block) : gmap Txid (gmap OutPoint Z) :=
  foldl (λ m tx, <[compute_txid tx := input_indices (input tx)]> m) ∅ block.

(** ** Planner *)

Section Planner.
Context `{IdText}.

Definition plan_mint (tx_positions : gmap Txid Z) (item : InscriptionNewItem) :
    result OrderedBlockProcessEvent :=
  let? pos := ok_or "Mint transaction not found in block when ordering events"
                (tx_positions !! txid (ni_inscription_id item)) in
  Ok {| sort_key := {| tx_position := pos; priority := 1; input_index := USIZE_MAX;
                       inscription_index := index (ni_inscription_id item) |};
        inscription_key := inscription_id_to_string (ni_inscription_id item);
        event := EventMint item |}.

Definition plan_transfer (tx_positions : gmap Txid Z)
    (transfer_input_indices : gmap Txid (gmap OutPoint Z)) (item : InscriptionTransferItem) :
    result OrderedBlockProcessEvent :=
  let? pos := ok_or "Transfer transaction not found in block when ordering events"
                (tx_positions !! it_txid item) in
  let? idx := ok_or "Transfer input not found in transaction"
                (transfer_input_indices !! it_txid item
                   ≫= λ m, m !! outpoint (it_prev_satpoint item)) in
  Ok {| sort_key := {| tx_position := pos; priority := 0; input_index := idx;
                       inscription_index := index (it_inscription_id item) |};
        inscription_key := inscription_id_to_string (it_inscription_id item);
        event := EventTransfer item |}.

Definition plan (block : Block) (mint_items : list InscriptionNewItem)
    (transfer_items : list InscriptionTransferItem) : result (list BlockProcessEvent) :=
  if bool_decide (mint_items = []) && bool_decide (transfer_items = []) then Ok []
  else
    let tx_positions := build_block_tx_position_map block in
    let transfer_input_indices := build_transfer_input_index_map block in
    let? mints := collect (plan_mint tx_positions) mint_items in
    let? transfers := collect (plan_transfer tx_positions transfer_input_indices) transfer_items in
    Ok (event <$> order_by order_key false (mints ++ transfers)).
End Planner.

(** ** Executor *)

Section Executor.
Context `{BalanceProvider} `{IdText} `{ContentEnv}.

Definition on_new_inscription (item : InscriptionNewItem) : M MinerPassManager unit :=
  match as_mint (ni_content item) with
  | None => panic "called `Option::unwrap()` on a `None` value"
  | Some mint_content =>
      let! prevs := map_err "Failed to parse prev inscription ids"
                      (lift (prev_inscription_ids mint_content)) in
      on_mint_pass
        {| mi_inscription_id := ni_inscription_id item;
           mi_inscription_number := ni_inscription_number item;
           mi_mint_txid := ni_txid item; mi_mint_block_height := ni_block_height item;
           mi_mint_owner := ni_address item; mi_satpoint := ni_satpoint item;
           mi_eth_main := um_eth_main mint_content; mi_eth_collab := um_eth_collab mint_content;
           mi_prev := prevs |}
  end.

Definition execute_event (counts : Z * Z) (ev : BlockProcessEvent) : M MinerPassManager (Z * Z) :=
  match ev with
  | EventMint item =>
      let! _ := on_new_inscription item in ret (counts.1 + 1, counts.2)
  | EventTransfer item =>
      let! _ := (match it_to_address item with
                 | Some addr =>
                     on_pass_transfer (it_inscription_id item) addr (it_satpoint item)
                       (it_block_height item)
                 | None => on_pass_burned (it_inscription_id item) (it_block_height item)
                 end) in
      ret (counts.1, counts.2 + 1)
  end.

Definition execute (ordered_events : list BlockProcessEvent) : M MinerPassManager (Z * Z) :=
  fold_m ordered_events (0, 0) execute_event.

Definition process_invalid_mints (invalid_mints : list InvalidPassMintInscriptionInfo) :
    M MinerPassManager Z :=
  fold_m invalid_mints 0 (λ processed item, let! _ := on_invalid_mint_pass item in ret (processed + 1)).
End Executor.

(** ** What the maps hold *)

Lemma tx_positions_snoc block tx :
  build_block_tx_position_map (block ++ [tx])
  = <[compute_txid tx := Z.of_nat (length block)]> (build_block_tx_position_map block).
Proof.
  unfold build_block_tx_position_map. rewrite imap_app, foldl_app. cbn. by rewrite Nat.add_0_r.
Qed.

(** A position is that of a transaction with the id. *)
Lemma tx_position_Some block id p :
  build_block_tx_position_map block !! id = Some p →
  ∃ n tx, p = Z.of_nat n ∧ block !! n = Some tx ∧ compute_txid tx = id.
Proof.
  revert p. induction block as [|tx block IH] using rev_ind; intros p; [done|].
  rewrite tx_positions_snoc, lookup_insert_Some. intros [[<- <-]|[_ E]].
  - exists (length block), tx. split_and!; [done|by rewrite list_lookup_middle|done].
  - destruct (IH _ E) as (n & tx' & -> & Hn & Hid). exists n, tx'. split_and!; [done| |done].
    by apply lookup_app_l_Some.
Qed.
Lemma tx_position_is_Some block tx :
  tx ∈ block → is_Some (build_block_tx_position_map block !! compute_txid tx).
Proof.
  induction block as [|tx' block IH] using rev_ind; [by intros ?%elem_of_nil|].
  rewrite tx_positions_snoc, elem_of_app, list_elem_of_singleton.
  destruct (decide (compute_txid tx' = compute_txid tx)) as [E|E].
  - intros _. rewrite E, lookup_insert_eq. by eexists.
  - rewrite lookup_insert_ne by done. intros [?| ->]; [by apply IH|done].
Qed.

Lemma tx_positions_inj block id1 id2 p :
  build_block_tx_position_map block !! id1 = Some p →
  build_block_tx_position_map block !! id2 = Some p → id1 = id2.
Proof.
  intros (n & tx1 & -> & H1 & <-)%tx_position_Some (m & tx2 & E & H2 & <-)%tx_position_Some.
  apply Nat2Z.inj in E as <-. congruence.
Qed.

Lemma input_indices_is_Some ins o : o ∈ ins → is_Some (input_indices ins !! o).
Proof.
  induction ins as [|x ins IH] using rev_ind; [by intros ?%elem_of_nil|].
  unfold input_indices in *. rewrite imap_app, foldl_app. cbn. rewrite Nat.add_0_r.
  set (m := foldl _ ∅ _) in *. rewrite elem_of_app, list_elem_of_singleton.
  destruct (m !! x) as [v|] eqn:E.
  - intros [?| ->]; [by apply IH|by rewrite E].
  - intros Ho. destruct (decide (x = o)) as [->|Hne]; [rewrite lookup_insert_eq; by eexists|].
    rewrite lookup_insert_ne by done. destruct Ho as [?| ->]; [by apply IH|done].
Qed.

(** Transaction ids are distinct in a block, so that the map of inputs has each transaction's. *)
Lemma transfer_inputs_lookup block tx :
  NoDup (compute_txid <$> block) → tx ∈ block →
  build_transfer_input_index_map block !! compute_txid tx = Some (input_indices (input tx)).
Proof.
  unfold build_transfer_input_index_map.
  induction block as [|tx' block IH] using rev_ind; [by intros _ ?%elem_of_nil|].
  rewrite fmap_app, foldl_app, elem_of_app, list_elem_of_singleton. cbn.
  intros (Hnd & Hni & _)%NoDup_app [Hin| ->]; [|by rewrite lookup_insert_eq].
  rewrite lookup_insert_ne; [by apply IH|]. intros E. apply (Hni (compute_txid tx)).
  - by apply list_elem_of_fmap_2.
  - rewrite <-E. by left.
Qed.

(** ** The plan *)

Section Plan.
Context {IT : IdText}.

(** The planning of one event. *)
Definition plan_event (block : Block) (ev : BlockProcessEvent) : result OrderedBlockProcessEvent :=
  match ev with
  | EventMint item => plan_mint (build_block_tx_position_map block) item
  | EventTransfer item =>
      plan_transfer (build_block_tx_position_map block) (build_transfer_input_index_map block) item
  end.
Definition all_events (mints : list InscriptionNewItem) (transfers : list InscriptionTransferItem) :
    list BlockProcessEvent := (EventMint <$> mints) ++ (EventTransfer <$> transfers).

Lemma collect_fmap {A B C} (f : B → result C) (g : A → B) l :
  collect f (g <$> l) = collect (λ x, f (g x)) l.
Proof. induction l as [|x l IH]; simpl; [done|]. by rewrite <-IH. Qed.

Lemma collect_app {A B} (f : A → result B) l k :
  collect f (l ++ k)
  = result_bind (collect f l) (λ ys, result_bind (collect f k) (λ zs, Ok (ys ++ zs))).
Proof.
  induction l as [|x l IH]; simpl; [by destruct (collect f k)|].
  unfold result_bind in *. destruct (f x); [|done..]. rewrite IH. destruct (collect f l); [|done..].
  by destruct (collect f k).
Qed.

Lemma plan_collect block mints transfers :
  plan block mints transfers
  = result_bind (collect (plan_event block) (all_events mints transfers))
      (λ ordered, Ok (event <$> order_by order_key false ordered)).
Proof.
  unfold plan, all_events. rewrite collect_app, !collect_fmap. cbn [plan_event].
  unfold result_bind. case_bool_decide as Em; [case_bool_decide as Et|]; cbn [andb];
    [by rewrite Em, Et| |];
    (destruct (collect _ mints); [|done..]); by destruct (collect _ transfers).
Qed.

(** The key of a planned event is unchanged by planning: the events of a plan are those given. *)
Lemma plan_event_event block ev o : plan_event block ev = Ok o → event o = ev.
Proof.
  destruct ev as [item|item]; simpl; unfold plan_mint, plan_transfer, result_bind.
  - destruct (_ !! _); simpl; by intros [= <-].
  - destruct (_ !! it_txid item); simpl; [|done]. destruct (_ ≫= _); simpl; by intros [= <-].
Qed.

Lemma planned_events block evs ordered :
  collect (plan_event block) evs = Ok ordered →
  event <$> ordered = evs ∧ Forall (λ o, plan_event block (event o) = Ok o) ordered.
Proof.
  rewrite collect_Ok. induction 1 as [|ev o evs ordered E _ [IH1 IH2]]; [done|].
  pose proof (plan_event_event _ _ _ E) as Eo. rewrite fmap_cons, IH1, Eo. split; [done|].
  constructor; [by rewrite Eo|done].
Qed.

Lemma plan_Permutation block mints transfers evs :
  plan block mints transfers = Ok evs → evs ≡ₚ all_events mints transfers.
Proof.
  rewrite plan_collect. unfold result_bind at 1.
  destruct (collect _ _) as [ordered|?|?] eqn:Ec; [|done..]. intros [= <-].
  destruct (planned_events _ _ _ Ec) as [Eev _]. rewrite <-Eev. exact (fmap_Permutation event _ _ (order_by_Permutation order_key false ordered)).
Qed.

(** What tells two events of a block apart: mints by inscription, transfers by transaction and
    inscription (a pass can be transferred several times in a block). *)
Definition distinct_items (mints : list InscriptionNewItem)
    (transfers : list InscriptionTransferItem) : Prop :=
  NoDup (ni_inscription_id <$> mints)
  ∧ NoDup ((λ it, (it_txid it, it_inscription_id it)) <$> transfers).

Lemma NoDup_fmap_eq {A B} (f : A → B) l x y : NoDup (f <$> l) → x ∈ l → y ∈ l → f x = f y → x = y.
Proof.
  intros Hnd (i & Hi)%list_elem_of_lookup_1 (j & Hj)%list_elem_of_lookup_1 E.
  assert (i = j) as ->; [|congruence].
  eapply (NoDup_lookup (f <$> l)); [done|by rewrite list_lookup_fmap, Hi|].
  by rewrite list_lookup_fmap, Hj, E.
Qed.

(** Events with equal sort keys are the same event. *)
Lemma order_key_inj block mints transfers a b :
  Inj (=) (=) inscription_id_to_string → distinct_items mints transfers →
  event a ∈ all_events mints transfers → event b ∈ all_events mints transfers →
  plan_event block (event a) = Ok a → plan_event block (event b) = Ok b →
  order_key a = order_key b → a = b.
Proof.
  intros Hinj [Hm Ht] Ha Hb Pa Pb E. unfold order_key in E.
  injection E as E1 E2 E3 E4 Et. apply as_bytes_inj in Et.
  assert (event a = event b) as Eev; [|congruence].
  unfold all_events in Ha, Hb. rewrite elem_of_app, !list_elem_of_fmap in Ha, Hb.
  destruct Ha as [(x & Ea & Hx)|(x & Ea & Hx)], Hb as [(y & Eb & Hy)|(y & Eb & Hy)];
    rewrite Ea in Pa |- *; rewrite Eb in Pb |- *; simpl in Pa, Pb; unfold plan_mint, plan_transfer in Pa, Pb.
  - destruct (_ !! txid (ni_inscription_id x)); [|done]. destruct (_ !! txid (ni_inscription_id y)); [|done].
    cbn in Pa, Pb. injection Pa as <-. injection Pb as <-. cbn in *. apply Hinj in Et.
    f_equal. by eapply (NoDup_fmap_eq ni_inscription_id).
  - destruct (_ !! txid (ni_inscription_id x)); [|done]. cbn in Pa. injection Pa as <-.
    destruct (_ !! it_txid y); [|done]. cbn in Pb. destruct (_ ≫= _); [|done]. cbn in Pb.
    injection Pb as <-. done.
  - destruct (_ !! txid (ni_inscription_id y)); [|done]. cbn in Pb. injection Pb as <-.
    destruct (_ !! it_txid x); [|done]. cbn in Pa. destruct (_ ≫= _); [|done]. cbn in Pa.
    injection Pa as <-. done.
  - destruct (_ !! it_txid x) as [px|] eqn:Epx; [|done]. destruct (_ !! it_txid y) as [py|] eqn:Epy; [|done].
    cbn in Pa, Pb. destruct (_ ≫= _); [|done]. cbn in Pa. injection Pa as <-.
    destruct (build_transfer_input_index_map _ !! it_txid y ≫= _); [|done]. cbn in Pb. injection Pb as <-.
    cbn in *. subst py. apply Hinj in Et. f_equal.
    eapply (NoDup_fmap_eq (λ it, (it_txid it, it_inscription_id it))); [done..|].
    cbn. f_equal; [|done]. by eapply tx_positions_inj.
Qed.

(** The plan of a block is canonical: it contains exactly the given events, in the order of their
    sort keys (transaction position, transfers before mints, input, inscription), and it does not
    depend on the order in which the events were collected. *)
Theorem plan_canonical block mints transfers evs :
  plan block mints transfers = Ok evs →
  evs ≡ₚ all_events mints transfers
  ∧ (∃ ordered, evs = event <$> ordered
       ∧ Forall (λ o, plan_event block (event o) = Ok o) ordered
       ∧ StronglySorted (key_le order_key) ordered)
  ∧ (Inj (=) (=) inscription_id_to_string → distinct_items mints transfers →
     ∀ mints' transfers', mints' ≡ₚ mints → transfers' ≡ₚ transfers →
       plan block mints' transfers' = Ok evs).
Proof.
  rewrite plan_collect. unfold result_bind at 1.
  destruct (collect _ _) as [ordered|?|?] eqn:Ec; [|done..]. intros [= <-].
  destruct (planned_events _ _ _ Ec) as [Eev Hev].
  assert (event <$> order_by order_key false ordered ≡ₚ all_events mints transfers) as Hperm
    by by rewrite order_by_Permutation, Eev.
  split_and!; [done| |].
  - exists (order_by order_key false ordered). split; [done|]. split; [|apply order_by_sorted].
    by rewrite order_by_Permutation.
  - intros Hinj Hd mints' transfers' Pm Pt. rewrite plan_collect.
    assert (all_events mints transfers ≡ₚ all_events mints' transfers') as Pe
      by (unfold all_events; by rewrite Pm, Pt).
    destruct (collect_Permutation _ _ _ _ Ec Pe) as (ordered' & Ec' & Po). rewrite Ec'. cbn.
    assert (order_by order_key false ordered' ≡ₚ order_by order_key false ordered) as Ps
      by by rewrite !order_by_Permutation.
    do 2 f_equal. apply (StronglySorted_unique_strong (key_le order_key));
      [|apply order_by_sorted|apply order_by_sorted|exact Ps].
    intros a b Ha Hb Hab Hba.
    apply (elem_of_order_by order_key false ordered' a) in Ha.
    apply (elem_of_order_by order_key false ordered b) in Hb.
    rewrite <-Po in Ha. rewrite Forall_forall in Hev.
    eapply (order_key_inj block mints transfers); [done|done| | |by apply Hev|by apply Hev|].
    + rewrite <-Eev. by apply list_elem_of_fmap_2.
    + rewrite <-Eev. by apply list_elem_of_fmap_2.
    + by apply bytes_le_antisym.
Qed.
End Plan.

(** ** Tracked transfers can always be planned *)

Section Accept.
Context {BN : BitcoinNode} {IT : IdText}.

(** A transfer made by a transaction of the block of height [h]. *)
Definition transfer_in (h : u32) (block : Block) (item : InscriptionTransferItem) : Prop :=
  it_block_height item = h ∧ ∃ tx, tx ∈ block ∧ it_txid item = compute_txid tx ∧ outpoint (it_prev_satpoint item) ∈ input tx.

Lemma find_output_txid id pos outs : ∀ i current r,
  find_output id pos i current outs = Some r → op_txid (outpoint (sp_satpoint r)) = id.
Proof.
  induction outs as [|o outs IH]; intros i current r; simpl; [done|].
  destruct (_ && _); [by intros [= <-]|by apply IH].
Qed.
Lemma output_at_txid tx pos : op_txid (outpoint (sp_satpoint (output_at tx pos))) = compute_txid tx.
Proof. unfold output_at. destruct (find_output _ _ _ _ _) eqn:E; [by eapply find_output_txid|done]. Qed.

Lemma calc_output_satpoint_in tx sp c r c' :
  calc_output_satpoint tx sp c = (Ok (Some r), c') →
  outpoint sp ∈ input tx ∧ op_txid (outpoint (sp_satpoint r)) = compute_txid tx.
Proof.
  unfold calc_output_satpoint. destruct (list_find _ _) as [[n o]|] eqn:El; [|done].
  intros (pos & c1 & _ & E)%bind_Ok. injection E as <- _.
  apply list_find_Some in El as (Hn & -> & _). split; [by eapply list_elem_of_lookup_2|].
  apply output_at_txid.
Qed.

Lemma processed_transfers_in h hint seeds s items s' block :
  process_block_with_hint h hint seeds s = (Ok items, s') →
  hint = Some block → Forall (transfer_in h block) items.
Proof.
  intros E ->. unfold process_block_with_hint in E. apply bind_Ok in E as (st & s1 & _ & E).
  destruct (negb _); [done|]. apply bind_Ok in E as (blk & s2 & E2 & E). injection E2 as <- <-.
  apply bind_Ok in E as (w & s3 & _ & E). apply bind_Ok in E as ([w' new] & s4 & E4 & E).
  apply bind_Ok in E as (st' & s5 & _ & E). apply bind_Ok in E as (? & s6 & _ & E).
  destruct (st' !! h); [done|]. injection E as <- _.
  revert E4. apply (fold_m_Ok_inv (λ acc : MultiMap * _, Forall (transfer_in h block) acc.2)); [|constructor].
  intros acc tx sa acc' sa' Htx Ha. apply (fold_m_Ok_inv (λ acc : MultiMap * _, Forall (transfer_in h block) acc.2));
    [|done].
  intros acc1 o sb acc1' sb' _ Hb Eo. unfold process_input in Eo. destruct (acc1.1 !! o) as [vec|].
  2: { injection Eo as <- _. done. }
  revert Eo. apply (fold_m_Ok_inv (λ acc : MultiMap * _, Forall (transfer_in h block) acc.2)); [|done].
  intros [w1 l1] p sc acc2 sc' _ Hc Em. unfold move_item in Em.
  apply bind_Ok in Em as (found & sd & Ef & Em). apply bind_Ok in Em as (r & se & Er & Em).
  injection Em as <- _. cbn. apply Forall_app. split; [done|]. constructor; [|constructor].
  destruct found as [r'|]; [|done]. injection Er as -> _.
  apply zoom_Ok in Ef as (c & Ec & _). apply calc_output_satpoint_in in Ec as [Hin Hid].
  split; [done|]. by exists tx.
Qed.

(** Whatever transfers the tracker reports for a block, planning them together with mints of the
    block never fails: the errors for a missing transaction or input are for inputs that the
    tracker cannot produce. *)
Theorem plan_accepts_tracked h block seeds s items s' mints :
  process_block_with_hint h (Some block) seeds s = (Ok items, s') →
  NoDup (compute_txid <$> block) →
  (∀ m, m ∈ mints → ∃ tx, tx ∈ block ∧ compute_txid tx = txid (ni_inscription_id m)) →
  ∃ evs, plan block mints items = Ok evs.
Proof.
  intros E Hnd Hm. apply (processed_transfers_in _ _ _ _ _ _ block) in E; [|done].
  rewrite Forall_forall in E. rewrite plan_collect.
  destruct (collect_total (plan_event block) (all_events mints items)) as [ordered ->]; [|by eexists].
  intros ev. unfold all_events. rewrite elem_of_app, !list_elem_of_fmap.
  intros [(m & -> & Hin)|(it & -> & Hin)]; cbn.
  - destruct (Hm m Hin) as (tx & Htx & Eid). unfold plan_mint. rewrite <-Eid.
    destruct (tx_position_is_Some block tx Htx) as [p ->]. cbn. by eexists.
  - destruct (E it Hin) as (_ & tx & Htx & Eid & Hi). unfold plan_transfer. rewrite Eid.
    destruct (tx_position_is_Some block tx Htx) as [p ->]. cbn.
    rewrite transfer_inputs_lookup by done. cbn.
    destruct (input_indices_is_Some _ _ Hi) as [k ->]. cbn. by eexists.
Qed.
End Accept.

(** ** Execution is a run of pass events *)

Section Run.
Context {BP : BalanceProvider} {IT : IdText} {CE : ContentEnv}.

(** The call a block event makes on the pass manager; [None] for a mint whose content names an
    inscription id that does not parse. *)
Definition event_call (ev : BlockProcessEvent) : option pass_event :=
  match ev with
  | EventMint item =>
      match ni_content item with
      | MintContent m =>
          match prev_inscription_ids m with
          | Ok prevs => Some (EvMint
              {| mi_inscription_id := ni_inscription_id item;
                 mi_inscription_number := ni_inscription_number item;
                 mi_mint_txid := ni_txid item; mi_mint_block_height := ni_block_height item;
                 mi_mint_owner := ni_address item; mi_satpoint := ni_satpoint item;
                 mi_eth_main := um_eth_main m; mi_eth_collab := um_eth_collab m; mi_prev := prevs |})
          | _ => None
          end
      end
  | EventTransfer item =>
      Some (match it_to_address item with
            | Some addr => EvTransfer (it_inscription_id item) addr (it_satpoint item)
            | None => EvBurn (it_inscription_id item)
            end)
  end.
Definition event_height (ev : BlockProcessEvent) : u32 :=
  match ev with EventMint item => ni_block_height item | EventTransfer item => it_block_height item end.

Definition is_mint (ev : BlockProcessEvent) : bool :=
  match ev with EventMint _ => true | EventTransfer _ => false end.

Lemma execute_event_run h counts ev e s :
  event_call ev = Some e → event_height ev = h →
  execute_event counts ev s
  = bind (run_event h e)
      (λ _, ret (if is_mint ev then (counts.1 + 1, counts.2) else (counts.1, counts.2 + 1))) s
  ∧ event_at h e.
Proof.
  intros Hc <-. destruct ev as [item|item]; unfold event_call in Hc; unfold execute_event.
  - unfold on_new_inscription, as_mint. destruct (ni_content item) as [m].
    destruct (prev_inscription_ids m) as [prevs|?|?] eqn:Ep; [|done..].
    injection Hc as <-. split; [|done]. unfold bind, map_err, lift. done.
  - injection Hc as <-. destruct (it_to_address item); done.
Qed.

(** The executor of a block is the run of pass events that the theorems on the pass manager are
    about: on a plan whose contents have been classified as valid mints it leaves the same manager,
    fails in the same way, and counts the mints and the transfers. *)
Theorem execute_is_run_events h evs es s :
  Forall2 (λ ev e, event_call ev = Some e ∧ event_height ev = h) evs es →
  Forall (event_at h) es ∧
  execute evs s = bind (run_events h es)
    (λ _, ret (count (filter (λ ev, is_mint ev = true) evs),
               count (filter (λ ev, is_mint ev = false) evs))) s.
Proof.
  assert (∀ n m s, Forall2 (λ ev e, event_call ev = Some e ∧ event_height ev = h) evs es →
    Forall (event_at h) es ∧
    fold_m evs (n, m) execute_event s = bind (run_events h es)
      (λ _, ret (n + count (filter (λ ev, is_mint ev = true) evs),
                 m + count (filter (λ ev, is_mint ev = false) evs))) s) as Hgen; [|by apply (Hgen 0 0)].
  clear s. intros n m s Hf. revert n m s. induction Hf as [|ev e evs es [Hc Hh] Hf IH]; intros n m s.
  { split; [constructor|]. cbn. by rewrite !Z.add_0_r. }
  destruct (execute_event_run h (n, m) ev e s Hc Hh) as [Er He].
  split; [constructor; [done|apply (IH n m s)]|].
  unfold run_events in *. cbn [fold_m for_each]. unfold bind in *. rewrite Er. clear Er.
  destruct (run_event h e s) as [[[]|x|x] s1]; [|done..]. unfold ret in *.
  destruct (is_mint ev) eqn:Ei; cbn [fst snd]; rewrite (proj2 (IH _ _ s1));
    (destruct (for_each es _ s1) as [[[]|?|?] s2]; [|done..]); unfold count.
  - rewrite filter_cons_True, (filter_cons_False _ ev) by congruence. do 3 f_equal; cbn; lia.
  - rewrite (filter_cons_False _ ev), filter_cons_True by congruence. do 3 f_equal; cbn; lia.
Qed.
End Run.

(** ** Witnesses

    A pass is transferred by transaction 9, which also reveals a mint. *)

#[local] Instance demo_ids : IdText := {|
  inscription_id_to_string i := pretty (Npos (encode i));
  satpoint_to_string _ := "sat"; script_hash_to_string _ := "script" |}.
#[local] Existing Instance demo_node.
#[local] Existing Instance demo_provider.
#[local] Instance demo_content : ContentEnv := {|
  inscription_id_from_str _ := Ok {| txid := 5; index := 0 |};
  json_from_str _ := None; ord_content _ := Ok None |}.

Lemma demo_ids_inj : Inj (=) (=) inscription_id_to_string.
Proof. intros i j E%(inj pretty). apply (inj encode). congruence. Qed.

Definition demo_mint_item : InscriptionNewItem :=
  {| ni_inscription_id := {| txid := 9; index := 0 |}; ni_inscription_number := 2;
     ni_block_height := 11; ni_timestamp := 0; ni_address := 4;
     ni_satpoint := {| outpoint := {| op_txid := 9; vout := 1 |}; offset := 0 |}; ni_value := 60;
     ni_content_string := ""; ni_op := Inscribe; ni_commit_txid := 3;
     ni_content := MintContent {| um_eth_main := "0x"; um_eth_collab := None; um_prev := ["5i0"] |} |}.
Definition demo_items : list InscriptionTransferItem :=
  match (process_block_with_hint 11 (Some [demo_tx]) [] demo_tracker).1 with Ok l => l | _ => [] end.
Definition demo_plan : list BlockProcessEvent := (EventTransfer <$> demo_items) ++ [EventMint demo_mint_item].

Lemma plan_canonical_witness :
  demo_plan ≡ₚ all_events [demo_mint_item] demo_items
  ∧ (∃ ordered, demo_plan = event <$> ordered
       ∧ Forall (λ o, plan_event [demo_tx] (event o) = Ok o) ordered
       ∧ StronglySorted (key_le order_key) ordered)
  ∧ (Inj (=) (=) inscription_id_to_string → distinct_items [demo_mint_item] demo_items →
     ∀ mints' transfers', mints' ≡ₚ [demo_mint_item] → transfers' ≡ₚ demo_items →
       plan [demo_tx] mints' transfers' = Ok demo_plan).
Proof. apply plan_canonical. vm_compute. reflexivity. Defined.

Lemma plan_accepts_tracked_witness : ∃ evs, plan [demo_tx] [demo_mint_item] demo_items = Ok evs.
Proof.
  apply (plan_accepts_tracked 11 [demo_tx] [] demo_tracker demo_items
           (process_block_with_hint 11 (Some [demo_tx]) [] demo_tracker).2).
  - vm_compute. reflexivity.
  - apply NoDup_singleton.
  - intros m ->%list_elem_of_singleton. exists demo_tx. split; [by left|reflexivity].
Defined.

Lemma execute_is_run_events_witness :
  let es := [EvTransfer {| txid := 5; index := 0 |} 3
               {| outpoint := {| op_txid := 9; vout := 2 |}; offset := 2 |};
             EvMint {| mi_inscription_id := {| txid := 9; index := 0 |}; mi_inscription_number := 2;
                       mi_mint_txid := 9; mi_mint_block_height := 11; mi_mint_owner := 4;
                       mi_satpoint := {| outpoint := {| op_txid := 9; vout := 1 |}; offset := 0 |};
                       mi_eth_main := "0x"; mi_eth_collab := None;
                       mi_prev := [{| txid := 5; index := 0 |}] |}] in
  Forall (event_at 11) es ∧
  execute demo_plan demo_minted = bind (run_events 11 es)
    (λ _, ret (count (filter (λ ev, is_mint ev = true) demo_plan),
               count (filter (λ ev, is_mint ev = false) demo_plan))) demo_minted.
Proof.
  intros es. apply (execute_is_run_events 11 demo_plan es demo_minted).
  repeat constructor; vm_compute; reflexivity.
Defined.
