(* ===== verification/BalanceLoader.v ===== *)
(** * Balance loaders

    [usdb-indexer/src/balance/rpc.rs]: the balances of many owners at a height, queried from
    balance-history in batches, one after the other or several at a time.  The concurrent loader is
    a step relation over the batches in flight; a batch may finish before one started earlier. *)

From S2P Require Import Prelude Types.

(** The RPC backend: the answer of an attempt for a batch of owners at a height, and whether the
    attempt exceeds the timeout. *)
Class BalanceRpcBackend := {
  get_addresses_balances : list USDBScriptHash → u32 → Z → result (list (list AddressBalance));
  times_out : list USDBScriptHash → u32 → Z → bool
}.

Abbreviation BalanceEntry := (USDBScriptHash * AddressBalance)%type (only parsing).

(** Each owner of the batch gets exactly one item. *)
Definition one_item (p : USDBScriptHash * list AddressBalance) : result BalanceEntry :=
  match p.2 with
  | [item] => Ok (p.1, item)
  | _ => Err "Expected exactly one balance item"
  end.
Definition collect_batch_balances (addresses : list USDBScriptHash)
    (balances : list (list AddressBalance)) : result (list BalanceEntry) :=
  if negb (length balances =? length addresses)%nat
  then Err "Address balance batch size mismatch"
  else collect one_item (zip addresses balances).

(** [slice::chunks]: batches of [n] elements, the last one possibly shorter. *)
Fixpoint chunks_fuel {A} (fuel : nat) (n : nat) (l : list A) : list (list A) :=
  match fuel, l with
  | O, _ | _, [] => []
  | S fuel, _ => take n l :: chunks_fuel fuel n (drop n l)
  end.
Definition chunks {A} (n : nat) (l : list A) : list (list A) := chunks_fuel (length l) n l.

Lemma chunks_fuel_join {A} (n : nat) : n ≠ 0%nat → ∀ fuel (l : list A),
  (length l <= fuel)%nat → mjoin (chunks_fuel fuel n l) = l.
Proof.
  intros Hn. induction fuel as [|fuel IH]; intros l Hl.
  - by destruct l; [|simpl in Hl; lia].
  - destruct l as [|x l]; [done|]. cbn [chunks_fuel mjoin list_join].
    change (take n (x :: l) ++ mjoin (chunks_fuel fuel n (drop n (x :: l))) = x :: l).
    rewrite IH by (rewrite length_drop; simpl in *; lia). apply take_drop.
Qed.
(** Batching loses and duplicates nothing. *)
Lemma chunks_join {A} (n : nat) (l : list A) : n ≠ 0%nat → mjoin (chunks n l) = l.
Proof. intros. by apply chunks_fuel_join. Qed.

Section Loaders.
Context `{BalanceRpcBackend} (batch_size : nat) (block_height : u32).

(** ** Serial loader *)

Definition serial_batch (addresses : list USDBScriptHash) : result (list BalanceEntry) :=
  let? balances := get_addresses_balances addresses block_height 1 in
  collect_batch_balances addresses balances.
Definition serial_load_balances (active_addresses : list USDBScriptHash) :
    result (list BalanceEntry) :=
  result_map mjoin (collect serial_batch (chunks batch_size active_addresses)).

Definition load_total_balance (entries : result (list BalanceEntry)) : result u64 :=
  result_map (foldl (λ acc (e : BalanceEntry), u64_saturating_add acc (ab_balance e.2)) 0) entries.

(** ** Concurrent loader *)

Context (concurrency : nat) (max_retries : u32).

Definition max_attempts : u32 := u32_saturating_add max_retries 1.

(** The attempts from [attempt] on, [n] of them left. *)
Fixpoint retry_loop (n : nat) (attempt : Z) (addresses : list USDBScriptHash) :
    result (list (list AddressBalance)) :=
  match n with
  | O => Panic "retry loop must return on success or final failure"
  | S n =>
      if times_out addresses block_height attempt then
        if attempt >=? max_attempts then Err "Balance RPC timeout after retries"
        else retry_loop n (attempt + 1) addresses
      else
        match get_addresses_balances addresses block_height attempt with
        | Ok balances => Ok balances
        | Err _ => if attempt >=? max_attempts then Err "Balance RPC failed after retries"
                   else retry_loop n (attempt + 1) addresses
        | Panic e => Panic e
        end
  end.
Definition query_batch_with_retry (addresses : list USDBScriptHash) :
    result (list (list AddressBalance)) :=
  retry_loop (Z.to_nat max_attempts) 1 addresses.

(** What a finished task contributes. *)
Definition task_result (addresses : list USDBScriptHash) : result (list BalanceEntry) :=
  let? balances := query_batch_with_retry addresses in
  collect_batch_balances addresses balances.

(** The tasks in flight, the batches not yet started, and the entries so far. *)
Record LoaderState := {
  join_set : list (list USDBScriptHash);
  waiting : list (list USDBScriptHash);
  all_entries : list BalanceEntry
}.

Definition max_concurrency (batches : nat) : nat := Nat.max (Nat.min concurrency batches) 1.
Definition start (active_addresses : list USDBScriptHash) : LoaderState :=
  let batches := chunks batch_size active_addresses in
  {| join_set := take (max_concurrency (length batches)) batches;
     waiting := drop (max_concurrency (length batches)) batches; all_entries := [] |}.

(** A task finished with [entries]: they are added, and the next batch is started. *)
Definition finished (rest : list (list USDBScriptHash)) (entries : list BalanceEntry)
    (st : LoaderState) : LoaderState :=
  {| join_set := match waiting st with b :: _ => rest ++ [b] | [] => rest end;
     waiting := tail (waiting st); all_entries := all_entries st ++ entries |}.

(** [join_next] yields any task in flight: a step of the load when the task has succeeded, the end of
    the load when it has failed, or when no task is left. *)
Inductive join_next : LoaderState → LoaderState → Prop :=
  | joined st task rest entries :
      join_set st ≡ₚ task :: rest → task_result task = Ok entries →
      join_next st (finished rest entries st).
Inductive load_ends : LoaderState → result (list BalanceEntry) → Prop :=
  | run_done st : join_set st = [] → load_ends st (Ok (all_entries st))
  | run_error st task rest e :
      join_set st ≡ₚ task :: rest → task_result task = Err e → load_ends st (Err e)
  | run_panic st task rest e :
      join_set st ≡ₚ task :: rest → task_result task = Panic e → load_ends st (Err e).

Definition loader_run (st : LoaderState) (r : result (list BalanceEntry)) : Prop :=
  ∃ st', rtc join_next st st' ∧ load_ends st' r.

Definition concurrent_load_balances (active_addresses : list USDBScriptHash)
    (r : result (list BalanceEntry)) : Prop :=
  loader_run (start active_addresses) r.

(** ** Every schedule gives the same balances *)

Definition outstanding (st : LoaderState) : list (list USDBScriptHash) := join_set st ++ waiting st.
(** While batches wait, some task is in flight. *)
Definition busy (st : LoaderState) : Prop := join_set st = [] → waiting st = [].

Lemma outstanding_finished st task rest entries :
  join_set st ≡ₚ task :: rest → outstanding st ≡ₚ task :: outstanding (finished rest entries st).
Proof.
  intros P. unfold outstanding, finished. cbn. rewrite P.
  destruct (waiting st) as [|b w]; cbn; [reflexivity|]. by rewrite <-app_assoc.
Qed.
Lemma busy_finished st task rest entries :
  join_set st ≡ₚ task :: rest → busy st → busy (finished rest entries st).
Proof.
  intros P _. unfold busy, finished. cbn. destruct (waiting st) as [|b w]; [done|].
  by intros [_ ?]%app_nil.
Qed.
Lemma busy_start addresses : busy (start addresses).
Proof.
  unfold busy, start. cbn. generalize (chunks batch_size addresses). unfold max_concurrency.
  intros [|x b]; [by rewrite drop_nil|]. intros E.
  destruct (_ `max` 1)%nat eqn:Em; [lia|done].
Qed.

(** The end of a load says of the tasks left what a whole run says of all tasks. *)
Definition outcome (st : LoaderState) (r : result (list BalanceEntry)) : Prop :=
  match r with
  | Ok entries => ∃ parts, collect task_result (outstanding st) = Ok parts
                    ∧ entries ≡ₚ all_entries st ++ mjoin parts
  | Err _ => ∃ task, task ∈ outstanding st ∧ is_ok (task_result task) = false
  | Panic _ => False
  end.

Lemma load_ends_outcome st r : load_ends st r → busy st → outcome st r.
Proof.
  intros [? Hj|? task rest e P E|? task rest e P E] Hb.
  - exists []. unfold outstanding. rewrite Hj, Hb by done. split; [done|].
    change (all_entries st0 ≡ₚ all_entries st0 ++ []). by rewrite app_nil_r.
  - exists task. rewrite E. split; [|done]. unfold outstanding. rewrite P. set_solver.
  - exists task. rewrite E. split; [|done]. unfold outstanding. rewrite P. set_solver.
Qed.

Lemma join_next_outcome st st' r : join_next st st' → outcome st' r → outcome st r.
Proof.
  intros [? task rest entries P E] IH.
  pose proof (outstanding_finished st0 task rest entries P) as Po. destruct r as [es|e|e]; [| |done].
  - destruct IH as (parts & Ec & Pe).
    destruct (collect_Permutation task_result (task :: outstanding (finished rest entries st0))
      (outstanding st0) (entries :: parts)) as (parts' & Ec' & Pp); [|by symmetry|].
    { cbn [collect]. rewrite E, Ec. done. }
    exists parts'. split; [done|]. rewrite Pe, <-Pp. cbn. by rewrite <-app_assoc.
  - destruct IH as (t & Ht & Hf). exists t. split; [|done]. rewrite Po. by right.
Qed.

Lemma loader_run_outcome st r : loader_run st r → busy st → outcome st r.
Proof.
  intros (st' & Hs & He). revert He. induction Hs as [st|st st1 st2 Hj _ IH]; intros He Hb.
  - by apply load_ends_outcome.
  - eapply join_next_outcome; [done|]. apply IH; [done|]. destruct Hj. by eapply busy_finished.
Qed.

(** A join takes one task from those outstanding, and a load that has not ended can go on. *)
Lemma join_next_shrinks st st' : join_next st st' → length (outstanding st) = S (length (outstanding st')).
Proof. intros [? task rest entries P _]. by rewrite (outstanding_finished _ task rest entries P). Qed.

Lemma nsteps_shrink k st st' :
  nsteps join_next k st st' → length (outstanding st) = (k + length (outstanding st'))%nat.
Proof. induction 1 as [|k st st1 st2 Hj _ IH]; [done|]. rewrite (join_next_shrinks _ _ Hj). lia. Qed.

Lemma join_or_end st task rest :
  join_set st ≡ₚ task :: rest →
  (∃ entries, task_result task = Ok entries ∧ join_next st (finished rest entries st))
  ∨ ∃ e, is_ok (task_result task) = false ∧ load_ends st (Err e).
Proof.
  intros P. destruct (task_result task) as [entries|e|e] eqn:Et.
  - left. exists entries. by split; [|econstructor].
  - right. exists e. split; [done|by eapply run_error].
  - right. exists e. split; [done|by eapply run_panic].
Qed.

(** C40. Loading balances concurrently ends under every schedule, and the schedule does not matter.
    Whatever order the batches finish in, no more joins happen than there are batches; at each point
    the load has either ended with its entries, or there is a batch in flight, and whichever of them
    finishes next, the load goes on with its entries or ends with an error. When it ends, it has
    succeeded exactly when every batch does, and returns, up to order, the entries of all batches,
    each once. *)
Theorem concurrent_load_schedule addresses :
  (∀ k st, nsteps join_next k (start addresses) st →
    (k <= length (chunks batch_size addresses))%nat
    ∧ (load_ends st (Ok (all_entries st)) ∨ join_set st ≠ [])
    ∧ ∀ task rest, join_set st ≡ₚ task :: rest →
        (∃ entries, task_result task = Ok entries ∧ join_next st (finished rest entries st))
        ∨ ∃ e, is_ok (task_result task) = false ∧ load_ends st (Err e))
  ∧ ∀ r, concurrent_load_balances addresses r →
    match collect task_result (chunks batch_size addresses), r with
    | Ok parts, Ok entries => entries ≡ₚ mjoin parts
    | Ok _, _ => False
    | _, Ok _ => False
    | _, Err _ => True
    | _, Panic _ => False
    end.
Proof.
  assert (outstanding (start addresses) = chunks batch_size addresses) as Eo by apply take_drop.
  split.
  - intros k st Hs. apply nsteps_shrink in Hs. rewrite Eo in Hs. split_and!; [lia| |apply join_or_end].
    destruct (join_set st) as [|t l] eqn:Ej; [left; by constructor|by right].
  - intros r Hr. apply loader_run_outcome in Hr; [|apply busy_start]. unfold outcome in Hr.
    rewrite Eo in Hr. destruct r as [es|e|e]; [| |done].
    + destruct Hr as (parts & -> & Pe). exact Pe.
    + destruct Hr as (task & Hin & Hf). destruct (collect _ _) as [parts|?|?] eqn:Ec; [|done..].
      apply collect_Ok in Ec. apply list_elem_of_lookup_1 in Hin as [k Hk].
      destruct (Forall2_lookup_l _ _ _ _ _ Ec Hk) as (p & _ & E). by rewrite E in Hf.
Qed.
End Loaders.
