(* ===== verification/BalanceMonitor.v ===== *)
(** * Balance monitor

    [usdb-indexer/src/balance/monitor.rs], [BalanceMonitor]: at each block, the balances of the
    owners of active passes are collected, summed and stored, with the changes made by the block. *)

From S2P Require Import Prelude Encoding Types PassStorage PassLedger PassCommit Pass BalanceLoader.

Record ActivePassBalance := {
  apb_inscription_id : InscriptionId;
  apb_owner : USDBScriptHash;
  apb_block_height : u32;
  apb_balance : u64;
  apb_delta : i64
}.

Record ActiveBalanceSettlement := {
  snapshot : ActiveBalanceSnapshot;
  active_pass_balances : list ActivePassBalance
}.

(** The loader the monitor is built with, and the page size of the configuration (positive: the
    constructor refuses zero). *)
Class BalanceRpcLoader := {
  load_balances : list USDBScriptHash → u32 → result (list BalanceEntry);
  active_address_page_size : Z
}.

(** [HashMap::insert] of a list of entries, refusing a key seen before. *)
Fixpoint insert_unique {A} (msg : string) (l : list (USDBScriptHash * A)) (m : gmap USDBScriptHash A) :
    result (gmap USDBScriptHash A) :=
  match l with
  | [] => Ok m
  | (k, x) :: l =>
      match m !! k with
      | Some _ => Err msg
      | None => insert_unique msg l (<[k := x]> m)
      end
  end.

Section Monitor.
Context `{BalanceRpcLoader} `{IdText}.

(** ** Active passes at a height *)

(** The loop over the pages; an error when the fuel runs out. *)
Fixpoint load_active_pages (fuel : nat) (page : Z) (block_height : u32)
    (owner_to_pass : gmap USDBScriptHash InscriptionId) :
    M Tables (gmap USDBScriptHash InscriptionId) :=
  match fuel with
  | O => panic "out of fuel"
  | S fuel =>
      let! active_passes :=
        get_all_active_pass_by_page_from_history_at_height page active_address_page_size block_height in
      if bool_decide (active_passes = []) then ret owner_to_pass
      else
        let! owner_to_pass :=
          lift (insert_unique "Duplicate active owner detected"
                  ((λ p, (ap_owner p, ap_inscription_id p)) <$> active_passes) owner_to_pass) in
        if count active_passes <? active_address_page_size then ret owner_to_pass
        else load_active_pages fuel (page + 1) block_height owner_to_pass
  end.

(** A page is at least one row: one round per row of the log, and one more. *)
Definition load_active_fuel (t : Tables) : nat := S (length (t_history t)).

(** The map's entries, sorted by the text of the owner. *)
Definition load_active_passes (block_height : u32) : M Tables (list ActiveMinerPassInfo) := λ t,
  (let! owner_to_pass := load_active_pages (load_active_fuel t) 0 block_height ∅ in
   ret (order_by (λ p, as_bytes (script_hash_to_string (ap_owner p))) false
          ((λ kv : USDBScriptHash * InscriptionId, active_info kv.2 kv.1)
             <$> map_to_list owner_to_pass))) t.

(** ** Settlement *)

(** One active pass: its owner's entry is taken out of the map. *)
Definition settle_pass (block_height : u32)
    (acc : gmap USDBScriptHash AddressBalance * u64 * list ActivePassBalance)
    (pass : ActiveMinerPassInfo) :
    result (gmap USDBScriptHash AddressBalance * u64 * list ActivePassBalance) :=
  let '(balance_by_owner, total_balance, rows) := acc in
  let? owner_balance := ok_or "Missing owner balance returned by RPC"
                          (balance_by_owner !! ap_owner pass) in
  if ab_block_height owner_balance >? block_height
  then Err "Unexpected future owner balance height returned by RPC"
  else
    let effective_delta :=
      if ab_block_height owner_balance <? block_height then 0 else ab_delta owner_balance in
    Ok (delete (ap_owner pass) balance_by_owner,
        u64_saturating_add total_balance (ab_balance owner_balance),
        rows ++ [{| apb_inscription_id := ap_inscription_id pass; apb_owner := ap_owner pass;
                    apb_block_height := block_height; apb_balance := ab_balance owner_balance;
                    apb_delta := effective_delta |}]).
Fixpoint settle_passes (block_height : u32) (passes : list ActiveMinerPassInfo)
    (acc : gmap USDBScriptHash AddressBalance * u64 * list ActivePassBalance) :
    result (gmap USDBScriptHash AddressBalance * u64 * list ActivePassBalance) :=
  match passes with
  | [] => Ok acc
  | p :: passes => let? acc := settle_pass block_height acc p in settle_passes block_height passes acc
  end.

Definition settle_active_balance_with_details (block_height : u32) :
    M Tables ActiveBalanceSettlement :=
  let! _ := assert_no_data_after_block_height block_height in
  let! active_passes := load_active_passes block_height in
  let active_addresses := ap_owner <$> active_passes in
  let! active_address_count :=
    (if count active_addresses <=? U32_MAX then ret (count active_addresses)
     else fail "Too many active addresses to fit into u32") in
  let! balances := lift (load_balances active_addresses block_height) in
  let! balance_by_owner :=
    lift (insert_unique "Duplicate owner balance returned by RPC" balances ∅) in
  let! out := lift (settle_passes block_height active_passes (balance_by_owner, 0, [])) in
  let '(balance_by_owner, total_balance, rows) := out in
  if negb (bool_decide (balance_by_owner = ∅))
  then fail "RPC returned extra owner balances not in active pass set"
  else
    let! _ := upsert_active_balance_snapshot block_height total_balance active_address_count in
    ret {| snapshot := {| abs_block_height := block_height; total_balance := total_balance;
                          active_address_count := active_address_count |};
           active_pass_balances := rows |}.

Definition settle_active_balance (block_height : u32) : M Tables ActiveBalanceSnapshot :=
  let! settled := settle_active_balance_with_details block_height in
  ret (snapshot settled).
End Monitor.

(** ** Maps built from lists *)

Definition insert_entries {A} (l : list (USDBScriptHash * A)) (m : gmap USDBScriptHash A) :
    gmap USDBScriptHash A := foldl (λ m e, <[e.1 := e.2]> m) m l.

Lemma insert_entries_lookup {A} (l : list (USDBScriptHash * A)) : ∀ m k x,
  NoDup l.*1 → (∀ k, k ∈ l.*1 → m !! k = None) →
  insert_entries l m !! k = Some x ↔ m !! k = Some x ∨ (k, x) ∈ l.
Proof.
  unfold insert_entries. induction l as [|[k0 x0] l IH]; intros m k x Hnd Hnew; cbn.
  { rewrite elem_of_nil. tauto. }
  rewrite fmap_cons in Hnd, Hnew. apply NoDup_cons in Hnd as [Hk0 Hnd]. rewrite IH; [|done|].
  - rewrite lookup_insert_Some, elem_of_cons. split.
    + intros [[[<- <-]|[_ Hm]]|Hin]; [right; by left|by left|right; by right].
    + intros [Hm|[[= -> ->]|Hin]]; [|by left; left|by right]. left. right. split; [|done].
      intros <-. rewrite Hnew in Hm by by left. done.
  - intros k' Hk'. rewrite lookup_insert_ne; [apply Hnew; by right|]. by intros ->.
Qed.

(** The map is built exactly when no key repeats. *)
Lemma insert_unique_spec {A} msg (l : list (USDBScriptHash * A)) : ∀ m,
  (NoDup l.*1 ∧ (∀ k, k ∈ l.*1 → m !! k = None) ∧ insert_unique msg l m = Ok (insert_entries l m))
  ∨ (¬ (NoDup l.*1 ∧ ∀ k, k ∈ l.*1 → m !! k = None) ∧ insert_unique msg l m = Err msg).
Proof.
  induction l as [|[k0 x0] l IH]; intros m; cbn [insert_unique].
  { left. split_and!; [constructor|by intros k ?%elem_of_nil|done]. }
  rewrite fmap_cons. cbn [fst]. destruct (m !! k0) as [y|] eqn:E.
  { right. split; [|done]. intros [_ H]. rewrite H in E by by left. done. }
  destruct (IH (<[k0 := x0]> m)) as [(Hnd & Hnew & ->)|[Hn ->]].
  - left. split_and!; [|intros k [->|Hk]%elem_of_cons; [done|]|done].
    + constructor; [|done]. intros Hk. apply Hnew in Hk. by rewrite lookup_insert_eq in Hk.
    + apply Hnew in Hk. by apply lookup_insert_None in Hk as [? _].
  - right. split; [|done]. intros [[Hk0 Hnd]%NoDup_cons Hnew]. apply Hn. split; [done|].
    intros k Hk. rewrite lookup_insert_ne by by intros ->. apply Hnew. by right.
Qed.

Lemma insert_unique_Permutation {A} msg (l l' : list (USDBScriptHash * A)) :
  l ≡ₚ l' → insert_unique msg l ∅ = insert_unique msg l' ∅.
Proof.
  intros P. assert (l.*1 ≡ₚ l'.*1) as P1 by by rewrite P.
  destruct (insert_unique_spec msg l ∅) as [(Hnd & Hnew & ->)|[Hn ->]],
    (insert_unique_spec msg l' ∅) as [(Hnd' & Hnew' & ->)|[Hn' ->]]; [| | |done].
  - f_equal. apply map_eq. intros k. apply option_eq. intros x.
    rewrite !insert_entries_lookup by done. by rewrite P.
  - exfalso. apply Hn'. rewrite <-P1. split; [done|]. intros k _. apply lookup_empty.
  - exfalso. apply Hn. rewrite P1. split; [done|]. intros k _. apply lookup_empty.
Qed.

(** ** The active passes of a height *)

Section Active.
Context {LD : BalanceRpcLoader} {IT : IdText}.

(** What the paged query goes through. *)
Definition active_rows (t : Tables) (T : u32) : list (USDBScriptHash * InscriptionId) :=
  (λ r, (h_new_owner r, h_inscription_id r))
  <$> order_by row_order true (rows_with_states [Active] (latest_rows t T)).

Lemma elem_of_active_rows h t T o i :
  ledger_ok h t →
  (o, i) ∈ active_rows t T ↔ ∃ r, row_at t T i = Some r ∧ h_new_state r = Active ∧ h_new_owner r = o.
Proof.
  intros L. pose proof (lk_sorted _ _ L) as Hs. unfold active_rows, rows_with_states.
  rewrite list_elem_of_fmap. split.
  - intros (r & [= -> ->] & Hr). rewrite elem_of_order_by, list_elem_of_filter in Hr.
    destruct Hr as [Ha%list_elem_of_singleton Hr]. apply elem_of_latest_rows in Hr; [|done]. by exists r.
  - intros (r & Hr & Ha & <-). pose proof (row_at_elem _ _ _ _ Hr) as (_ & <- & _). exists r.
    split; [done|]. rewrite elem_of_order_by, list_elem_of_filter. split; [by apply list_elem_of_singleton|].
    by apply elem_of_latest_rows.
Qed.

Lemma active_rows_owners h t T : ledger_ok h t → NoDup (active_rows t T).*1.
Proof.
  intros L. pose proof (lk_sorted _ _ L) as Hs. unfold active_rows.
  rewrite <-list_fmap_compose. apply NoDup_fmap_2_strong.
  - intros x y Hx Hy E. cbn in E. unfold rows_with_states in *.
    rewrite elem_of_order_by, list_elem_of_filter in Hx, Hy.
    destruct Hx as [Sx%list_elem_of_singleton Hx], Hy as [Sy%list_elem_of_singleton Hy].
    apply elem_of_latest_rows in Hx; [|done]. apply elem_of_latest_rows in Hy; [|done].
    assert (h_inscription_id x = h_inscription_id y) as Ei
      by (by eapply (lk_unique _ _ L); [exact Hx|exact Hy|..]).
    rewrite Ei in Hx. congruence.
  - rewrite order_by_Permutation. apply NoDup_filter. eapply NoDup_fmap_1, latest_rows_NoDup; done.
Qed.

Lemma active_rows_length t T : (length (active_rows t T) <= length (t_history t))%nat.
Proof.
  unfold active_rows, rows_with_states, latest_rows. rewrite length_fmap, order_by_Permutation.
  etransitivity; apply length_filter.
Qed.

Definition pages_bounded (t : Tables) : Prop :=
  0 < active_address_page_size
  ∧ count (t_history t) + 2 * active_address_page_size <= I64_MAX.

Lemma active_page t T k :
  0 <= k → 0 < active_address_page_size → k * active_address_page_size <= I64_MAX →
  active_address_page_size <= I64_MAX →
  get_all_active_pass_by_page_from_history_at_height k active_address_page_size T t
  = (Ok ((λ e : USDBScriptHash * InscriptionId, active_info e.2 e.1)
      <$> take (Z.to_nat active_address_page_size)
            (drop (Z.to_nat (k * active_address_page_size)) (active_rows t T))), t).
Proof.
  intros Hk Hp Hb Hpm. unfold get_all_active_pass_by_page_from_history_at_height,
    get_passes_by_page_from_history_at_height_by_states, gets, active_rows.
  rewrite bool_decide_false by done. unfold sql_page, sql_limit_offset, usize_mul.
  rewrite Z.mod_small by (unfold I64_MAX, U64_MAX in *; nia).
  unfold u64_as_i64. rewrite !(proj2 (Z.leb_le _ I64_MAX)) by done.
  rewrite (proj2 (Z.ltb_ge _ 0)) by lia.
  by rewrite <-fmap_drop, <-fmap_take, <-list_fmap_compose.
Qed.

Lemma insert_entries_app {A} (l k : list (USDBScriptHash * A)) m :
  insert_entries (l ++ k) m = insert_entries k (insert_entries l m).
Proof. apply foldl_app. Qed.

Lemma load_active_pages_run t T fuel : ∀ k m,
  pages_bounded t → 0 <= k → k * active_address_page_size <= count (active_rows t T) →
  (length (active_rows t T) < (fuel + Z.to_nat k) * Z.to_nat active_address_page_size)%nat →
  NoDup (active_rows t T).*1 →
  m = insert_entries (take (Z.to_nat (k * active_address_page_size)) (active_rows t T)) ∅ →
  load_active_pages fuel k T m t = (Ok (insert_entries (active_rows t T) ∅), t).
Proof.
  pose proof (active_rows_length t T) as Hlen. set (L := active_rows t T) in *.
  set (p := active_address_page_size). unfold pages_bounded, count.
  induction fuel as [|fuel IH]; intros k m [Hp Hc] Hk Hle Hf Hnd Hm.
  { exfalso. fold p in Hp, Hle. nia. }
  cbn [load_active_pages]. fold p in Hp, Hc, Hle, Hf |- *.
  rewrite (bind_run _ _ _ _ _ (active_page t T k Hk Hp ltac:(fold p; lia) ltac:(fold p; lia))). fold p L.
  set (n := Z.to_nat (k * p)). set (page := take (Z.to_nat p) (drop n L)).
  assert (L = take n L ++ drop n L) as Esplit by by rewrite take_drop.
  assert (length page = Z.to_nat p `min` (length L - n))%nat as Hpage
    by (unfold page; by rewrite length_take, length_drop).
  assert (NoDup (page.*1) ∧ ∀ o, o ∈ page.*1 → m !! o = None) as [Hnp Hnew].
  { rewrite Esplit in Hnd. rewrite fmap_app in Hnd. apply NoDup_app in Hnd as (Hn1 & Hdisj & Hn2).
    split; [eapply sublist_NoDup; [exact Hn2|]; apply fmap_sublist, sublist_take|].
    intros o Ho. rewrite Hm. destruct (insert_entries _ ∅ !! o) as [x|] eqn:E; [|done]. exfalso.
    apply insert_entries_lookup in E as [?|Hin]; [done| |done|intros; apply lookup_empty].
    apply (Hdisj o); [by apply (list_elem_of_fmap_2 fst) in Hin|].
    apply list_elem_of_fmap in Ho as (e & -> & He). apply list_elem_of_fmap_2.
    apply elem_of_take in He as (j & Hj & _). by apply list_elem_of_lookup_2 in Hj. }
  case_bool_decide as E.
  { apply fmap_nil_inv in E. assert (length page = 0)%nat as E0 by by rewrite E.
    unfold ret. rewrite Hm, take_ge by lia. done. }
  rewrite <-list_fmap_compose.
  match goal with |- context [?f <$> page] => assert (f <$> page = page) as -> end.
  { rewrite <-(list_fmap_id page) at 2. by apply list_fmap_ext; intros ? [o i] _. }
  destruct (insert_unique_spec "Duplicate active owner detected" page m) as [(_ & _ & ->)|[Hn _]];
    [|by destruct Hn].
  erewrite bind_run by reflexivity. unfold count. rewrite length_fmap, Hpage.
  destruct (Z.of_nat (Z.to_nat p `min` (length L - n)) <? p) eqn:Elt; b2p.
  - unfold ret. rewrite Hm, <-insert_entries_app. unfold page. fold n. rewrite (take_ge (drop n L)).
    + by rewrite take_drop.
    + rewrite length_drop. lia.
  - apply IH; [done|lia| |nia|done|].
    + unfold count. fold L. nia.
    + rewrite Hm, <-insert_entries_app. f_equal. unfold page.
      rewrite take_take_drop. f_equal. unfold n. lia.
Qed.

(** The pages of the ledger are read to the end, no owner repeats, and the result has exactly the
    passes whose last event at or below the height made them active. *)
Lemma load_active_passes_run h t T :
  ledger_ok h t → pages_bounded t →
  ∃ ps, load_active_passes T t = (Ok ps, t)
    ∧ NoDup (ap_owner <$> ps)
    ∧ ∀ p, p ∈ ps ↔ ∃ r, row_at t T (ap_inscription_id p) = Some r
                         ∧ h_new_state r = Active ∧ h_new_owner r = ap_owner p.
Proof.
  intros L Hb. pose proof (active_rows_owners h t T L) as Hnd.
  pose proof (active_rows_length t T) as Hlen. unfold load_active_passes.
  rewrite (bind_run _ _ _ (insert_entries (active_rows t T) ∅) t).
  2: { destruct Hb as [Hp Hc]. apply load_active_pages_run; [done|done|unfold count; lia| |done|done].
       unfold load_active_fuel. rewrite Nat.add_0_r. nia. }
  eexists. split; [reflexivity|].
  set (l := (λ kv : USDBScriptHash * InscriptionId, active_info kv.2 kv.1) <$> _). split.
  - rewrite order_by_Permutation. unfold l. rewrite <-list_fmap_compose.
    apply (NoDup_fst_map_to_list (insert_entries (active_rows t T) ∅)).
  - intros [i o]. rewrite elem_of_order_by. unfold l. cbn. rewrite <-(elem_of_active_rows h) by done.
    assert ((o, i) ∈ active_rows t T ↔ insert_entries (active_rows t T) ∅ !! o = Some i) as ->.
    { rewrite insert_entries_lookup by (done || (intros; apply lookup_empty)). rewrite lookup_empty.
      naive_solver. }
    rewrite <-elem_of_map_to_list, list_elem_of_fmap. split.
    + intros ([o' i'] & [= -> ->] & Hin). done.
    + intros Hin. by exists (o, i).
Qed.
End Active.

(** ** The settlement *)

Section Settlement.
Context {LD : BalanceRpcLoader} {IT : IdText}.

(** The row a pass contributes, from its owner's entry. *)
Definition settled_row (h : u32) (p : ActiveMinerPassInfo) (ab : AddressBalance) : ActivePassBalance :=
  {| apb_inscription_id := ap_inscription_id p; apb_owner := ap_owner p; apb_block_height := h;
     apb_balance := ab_balance ab;
     apb_delta := if ab_block_height ab <? h then 0 else ab_delta ab |}.

Lemma settle_passes_Ok h ps : ∀ m tot rows m' tot' rows',
  NoDup (ap_owner <$> ps) →
  settle_passes h ps (m, tot, rows) = Ok (m', tot', rows') →
  ∃ abs, Forall2 (λ p ab, m !! ap_owner p = Some ab ∧ ab_block_height ab <= h) ps abs
    ∧ rows' = rows ++ zip_with (settled_row h) ps abs
    ∧ tot' = foldl u64_saturating_add tot (ab_balance <$> abs)
    ∧ ∀ o, m' !! o = if bool_decide (o ∈ ap_owner <$> ps) then None else m !! o.
Proof.
  induction ps as [|p ps IH]; intros m tot rows m' tot' rows' Hnd E; cbn [settle_passes] in E.
  { injection E as <- <- <-. exists []. cbn. rewrite app_nil_r. by split_and!. }
  rewrite fmap_cons in Hnd |- *. apply NoDup_cons in Hnd as [Hp Hnd].
  unfold settle_pass in E. destruct (m !! ap_owner p) as [ab|] eqn:Em; [|done]. cbn in E.
  destruct (ab_block_height ab >? h) eqn:Eh; [done|]. cbn in E.
  apply IH in E as (abs & Hf & -> & -> & Hm'); [|done]. exists (ab :: abs). split_and!.
  - constructor; [split; [done|lia]|]. eapply Forall2_impl; [exact Hf|]. intros q b [Hq ?].
    by apply lookup_delete_Some in Hq as [_ ?].
  - cbn. by rewrite <-app_assoc.
  - done.
  - intros o. rewrite Hm'. destruct (decide (o = ap_owner p)) as [->|Hne].
    + rewrite (bool_decide_true (_ ∈ _ :: _)) by by left. case_bool_decide; [done|apply lookup_delete_eq].
    + rewrite (bool_decide_ext (o ∈ ap_owner p :: _) (o ∈ ap_owner <$> ps)) by
        (rewrite elem_of_cons; naive_solver).
      case_bool_decide; [done|]. by rewrite lookup_delete_ne.
Qed.

Lemma settlement_run h t :
  ledger_ok h t → pages_bounded t →
  let '(r, t') := settle_active_balance_with_details h t in
  match r with
  | Ok st => ∃ reply ps abs,
      NoDup (ap_owner <$> ps)
      ∧ (∀ p, p ∈ ps ↔ ∃ r, row_at t h (ap_inscription_id p) = Some r
                            ∧ h_new_state r = Active ∧ h_new_owner r = ap_owner p)
      ∧ load_balances (ap_owner <$> ps) h = Ok reply
      ∧ NoDup reply.*1 ∧ (∀ o, o ∈ reply.*1 ↔ o ∈ ap_owner <$> ps)
      ∧ Forall2 (λ p ab, (ap_owner p, ab) ∈ reply ∧ ab_block_height ab <= h) ps abs
      ∧ active_pass_balances st = zip_with (settled_row h) ps abs
      ∧ snapshot st = {| abs_block_height := h;
                         total_balance := foldl u64_saturating_add 0 (ab_balance <$> abs);
                         active_address_count := count ps |}
      ∧ t' = with_balances (λ m, <[h := (u64_as_i64 (total_balance (snapshot st)), count ps)]> m) t
  | _ => t' = t
  end.
Proof.
  intros L Hb. unfold settle_active_balance_with_details.
  destruct (assert_no_data_after_block_height h t) as [r0 t0] eqn:E0.
  assert (t0 = t) as -> by (pose proof (assert_no_data_reads h t) as Hr; by rewrite E0 in Hr).
  destruct r0 as [[]|?|?]; [|by rewrite (bind_run_Err _ _ _ _ _ E0)|by rewrite (bind_run_Panic _ _ _ _ _ E0)].
  rewrite (bind_run _ _ _ _ _ E0).
  destruct (load_active_passes_run h t h L Hb) as (ps & E1 & Hnd & Hps).
  rewrite (bind_run _ _ _ _ _ E1). unfold count at 1. rewrite length_fmap. fold (count ps).
  destruct (count ps <=? U32_MAX) eqn:Ec; [|done]. erewrite bind_run by reflexivity.
  destruct (load_balances (ap_owner <$> ps) h) as [reply|?|?] eqn:El; [|done..].
  erewrite bind_run by reflexivity.
  destruct (insert_unique_spec "Duplicate owner balance returned by RPC" reply ∅)
    as [(Hnr & _ & ->)|[_ ->]]; [|done]. erewrite bind_run by reflexivity.
  destruct (settle_passes h ps (insert_entries reply ∅, 0, [])) as [[[m' tot'] rows']|?|?] eqn:Es; [|done..].
  erewrite bind_run by reflexivity. cbn beta iota.
  destruct (decide (m' = ∅)) as [Em|Em]; [rewrite bool_decide_true by done|by rewrite bool_decide_false by done].
  apply settle_passes_Ok in Es as (abs & Hf & -> & -> & Hm'); [|done]. cbn.
  assert (∀ o ab, insert_entries reply ∅ !! o = Some ab ↔ (o, ab) ∈ reply) as Hl.
  { intros o ab. rewrite insert_entries_lookup by (done || (intros; apply lookup_empty)).
    rewrite lookup_empty. naive_solver. }
  exists reply, ps, abs. split_and!; try done.
  - intros o. split.
    + intros ([o' ab] & -> & Hin)%list_elem_of_fmap. cbn. specialize (Hm' o'). apply Hl in Hin.
      rewrite Em, lookup_empty, Hin in Hm'. by case_bool_decide.
    + intros (p & -> & Hp)%list_elem_of_fmap. apply list_elem_of_lookup_1 in Hp as [k Hk].
      destruct (Forall2_lookup_l _ _ _ _ _ Hf Hk) as (ab & _ & Hab & _). apply Hl in Hab.
      by apply (list_elem_of_fmap_2 fst) in Hab.
  - eapply Forall2_impl; [exact Hf|]. intros p ab [Hp Hle]. split; [by apply Hl|done].
  - unfold count. by rewrite length_fmap.
  - unfold count. by rewrite length_fmap.
Qed.

(** Settling a block reads the ledger and writes one row: on success every pass active at the
    height has exactly one row, with the balance its owner has in the reply and the change the block
    made (zero when the owner's last change is older), the stored snapshot is the saturating sum of
    these balances and their number, and nothing else changes; a reply with an owner missing, twice,
    unasked for, or from a later block is an error, which changes nothing. *)
Theorem settlement_correct h t :
  ledger_ok h t → pages_bounded t →
  let '(r, t') := settle_active_balance_with_details h t in
  match r with
  | Ok st => ∃ reply ps abs,
      NoDup (ap_owner <$> ps)
      ∧ (∀ p, p ∈ ps ↔ ∃ r, row_at t h (ap_inscription_id p) = Some r
                            ∧ h_new_state r = Active ∧ h_new_owner r = ap_owner p)
      ∧ load_balances (ap_owner <$> ps) h = Ok reply
      ∧ NoDup reply.*1 ∧ (∀ o, o ∈ reply.*1 ↔ o ∈ ap_owner <$> ps)
      ∧ Forall2 (λ p ab, (ap_owner p, ab) ∈ reply ∧ ab_block_height ab <= h) ps abs
      ∧ active_pass_balances st = zip_with (settled_row h) ps abs
      ∧ snapshot st = {| abs_block_height := h;
                         total_balance := foldl u64_saturating_add 0 (ab_balance <$> abs);
                         active_address_count := count ps |}
      ∧ t' = with_balances (λ m, <[h := (u64_as_i64 (total_balance (snapshot st)), count ps)]> m) t
  | _ => t' = t
  end.
Proof. apply settlement_run. Qed.
End Settlement.

(** The order in which the loader returns the balances does not matter. *)
Definition same_reply (r1 r2 : result (list BalanceEntry)) : Prop :=
  match r1, r2 with
  | Ok l1, Ok l2 => l1 ≡ₚ l2
  | _, _ => r1 = r2
  end.

(** Two loaders that answer with the same balances in different orders settle a block in the same
    way, errors included: the settlement does not depend on the order in which concurrent batches
    finish. *)
Theorem settlement_order_independent `{IdText} (LD1 LD2 : BalanceRpcLoader) h t :
  @active_address_page_size LD1 = @active_address_page_size LD2 →
  (∀ owners, same_reply (@load_balances LD1 owners h) (@load_balances LD2 owners h)) →
  @settle_active_balance_with_details LD1 _ h t = @settle_active_balance_with_details LD2 _ h t.
Proof.
  intros Ep Hl. unfold settle_active_balance_with_details, bind.
  destruct (assert_no_data_after_block_height h t) as [[[]|?|?] t0]; [|done..].
  assert (∀ s, @load_active_passes LD1 _ h s = @load_active_passes LD2 _ h s) as Ea.
  { intros s. unfold load_active_passes, bind. generalize (load_active_fuel s). intros fuel.
    assert (∀ k m s, @load_active_pages LD1 fuel k h m s = @load_active_pages LD2 fuel k h m s) as ->; [|done].
    clear s. induction fuel as [|fuel IH]; intros k m s; [done|]. cbn [load_active_pages]. unfold bind.
    rewrite Ep. destruct (get_all_active_pass_by_page_from_history_at_height _ _ _ s) as [[l|?|?] s1];
      [|done..]. case_bool_decide; [done|]. unfold lift. destruct (insert_unique _ _ _); [|done..].
    destruct (_ <? _); [done|apply IH]. }
  rewrite Ea. destruct (@load_active_passes LD2 _ h t0) as [[ps|?|?] t1]; [|done..].
  destruct (count _ <=? U32_MAX); [|done]. unfold ret, lift. specialize (Hl (ap_owner <$> ps)).
  unfold same_reply in Hl.
  destruct (@load_balances LD1 _ _) as [l1|?|?], (@load_balances LD2 _ _) as [l2|?|?]; simplify_eq; try done.
  by rewrite (insert_unique_Permutation _ l1 l2).
Qed.

(** ** Witnesses

    Two owners mint a pass each at 100; owner 1 has a balance of 50, owner 2 of 70 since height 90. *)

#[local] Instance demo_text : IdText := {|
  inscription_id_to_string _ := "id"; satpoint_to_string _ := "sat";
  script_hash_to_string _ := "script" |}.
Definition demo_reply (owners : list USDBScriptHash) : list BalanceEntry :=
  (λ o, (o, if o =? 1 then {| ab_block_height := 100; ab_balance := 50; ab_delta := 20 |}
            else {| ab_block_height := 90; ab_balance := 70; ab_delta := -5 |})) <$> owners.
Definition demo_loader : BalanceRpcLoader :=
  {| load_balances owners _ := Ok (demo_reply owners); active_address_page_size := 1 |}.
Definition demo_loader_reversed : BalanceRpcLoader :=
  {| load_balances owners _ := Ok (reverse (demo_reply owners)); active_address_page_size := 1 |}.
Definition demo_other_pass : MinerPassInfo :=
  {| inscription_id := {| txid := 7; index := 0 |}; inscription_number := 7; mint_txid := 7;
     mint_block_height := 100; mint_owner := 2;
     satpoint := {| outpoint := {| op_txid := 7; vout := 0 |}; offset := 0 |};
     eth_main := "0x"; eth_collab := None; prev := []; invalid_code := None;
     invalid_reason := None; owner := 2; state := Active |}.
Definition demo_two : Tables := (run_pass_op 100 (OpMint demo_other_pass) demo_t100).2.

Lemma demo_two_ok : ledger_ok 100 demo_two.
Proof.
  apply (run_ledger_ok 0 empty_tables); [apply ledger_ok_empty|].
  apply (pr_op 0 empty_tables 100); [apply demo_run100|lia|done].
Qed.

Lemma settlement_correct_witness :
  ∃ st (reply : list BalanceEntry) ps abs,
    (@settle_active_balance_with_details demo_loader _ 100 demo_two).1 = Ok st
    ∧ (∀ p, p ∈ ps ↔ ∃ r, row_at demo_two 100 (ap_inscription_id p) = Some r
                          ∧ h_new_state r = Active ∧ h_new_owner r = ap_owner p)
    ∧ Forall2 (λ p ab, (ap_owner p, ab) ∈ reply ∧ ab_block_height ab <= 100) ps abs
    ∧ active_pass_balances st = zip_with (settled_row 100) ps abs
    ∧ total_balance (snapshot st) = 120 ∧ active_address_count (snapshot st) = 2
    ∧ (apb_delta <$> active_pass_balances st) ≡ₚ [20; 0].
Proof.
  pose proof (@settlement_correct demo_loader _ 100 demo_two demo_two_ok) as H.
  specialize (H ltac:(split; vm_compute; done)).
  destruct (@settle_active_balance_with_details demo_loader _ 100 demo_two) as [r t'] eqn:E.
  assert (r = (@settle_active_balance_with_details demo_loader _ 100 demo_two).1) as Er by by rewrite E.
  vm_compute in Er. subst r.
  destruct H as (reply & ps & abs & _ & Hps & _ & _ & _ & Hf & Hrows & _).
  eexists _, reply, ps, abs. split_and!; [reflexivity|exact Hps|exact Hf|exact Hrows|done|done|].
  cbn. first [reflexivity|apply Permutation_swap].
Defined.

Lemma settlement_order_independent_witness :
  @settle_active_balance_with_details demo_loader _ 100 demo_two
    = @settle_active_balance_with_details demo_loader_reversed _ 100 demo_two
  ∧ load_balances (BalanceRpcLoader := demo_loader) [1; 2] 100
    ≠ load_balances (BalanceRpcLoader := demo_loader_reversed) [1; 2] 100.
Proof.
  split; [|vm_compute; discriminate].
  apply settlement_order_independent; [done|]. intros owners. cbn. symmetry. apply reverse_Permutation.
Defined.
