(* ===== verification/InscriptionSource.v ===== *)
(** * Inscription sources

    [usdb-indexer/src/inscription/source.rs] and [source_compare.rs]: the inscriptions of a block,
    classified into valid and invalid USDB mints, and the source that checks a primary source
    against a shadow one.  The sources that read the node, ord or a fixture are instances of the
    class. *)

From S2P Require Import Prelude Types Tx Content Pass.

Record DiscoveredInscription := {
  di_inscription_id : InscriptionId;
  di_inscription_number : Z;
  di_block_height : u32;
  di_timestamp : u32;
  di_satpoint : option SatPoint;
  di_content_type : option string;
  di_content_string : option string
}.

Record DiscoveredMint := {
  dm_inscription_id : InscriptionId;
  dm_inscription_number : Z;
  dm_block_height : u32;
  dm_timestamp : u32;
  dm_satpoint : option SatPoint;
  dm_content_string : string;
  dm_content : USDBInscription
}.

Record DiscoveredInvalidMint := {
  dv_inscription_id : InscriptionId;
  dv_inscription_number : Z;
  dv_block_height : u32;
  dv_timestamp : u32;
  dv_satpoint : option SatPoint;
  dv_content_string : string;
  dv_error_code : MintValidationErrorCode;
  dv_error_reason : string
}.

Record DiscoveredMintBatch := {
  valid_mints : list DiscoveredMint;
  invalid_mints : list DiscoveredInvalidMint
}.
Definition empty_batch : DiscoveredMintBatch := {| valid_mints := []; invalid_mints := [] |}.

(** ** Classification of the inscriptions of a block *)

Definition to_invalid_mint (inscription : DiscoveredInscription) (content_string : string)
    (err : MintValidationError) : DiscoveredInvalidMint :=
  {| dv_inscription_id := di_inscription_id inscription;
     dv_inscription_number := di_inscription_number inscription;
     dv_block_height := di_block_height inscription; dv_timestamp := di_timestamp inscription;
     dv_satpoint := di_satpoint inscription; dv_content_string := content_string;
     dv_error_code := mv_code err; dv_error_reason := mv_reason err |}.

Definition to_mint (inscription : DiscoveredInscription) (content_string : string)
    (content : USDBInscription) : DiscoveredMint :=
  {| dm_inscription_id := di_inscription_id inscription;
     dm_inscription_number := di_inscription_number inscription;
     dm_block_height := di_block_height inscription; dm_timestamp := di_timestamp inscription;
     dm_satpoint := di_satpoint inscription; dm_content_string := content_string;
     dm_content := content |}.

Section Classify.
Context `{ContentEnv}.

(** One round of the loop: an inscription without content, or that is no USDB mint, is skipped. *)
Definition classify_inscription (batch : DiscoveredMintBatch) (inscription : DiscoveredInscription) :
    DiscoveredMintBatch :=
  match di_content_string inscription with
  | None => batch
  | Some content_string =>
      match classify_mint_content_str content_string with
      | NotUsdbMint => batch
      | Valid content =>
          {| valid_mints := valid_mints batch ++ [to_mint inscription content_string content];
             invalid_mints := invalid_mints batch |}
      | InvalidContent err =>
          {| valid_mints := valid_mints batch;
             invalid_mints := invalid_mints batch ++ [to_invalid_mint inscription content_string err] |}
      end
  end.
Definition classify_usdb_mints_from_inscriptions (inscriptions : list DiscoveredInscription) :
    DiscoveredMintBatch := foldl classify_inscription empty_batch inscriptions.
Definition map_usdb_mints_from_inscriptions (inscriptions : list DiscoveredInscription) :
    list DiscoveredMint := valid_mints (classify_usdb_mints_from_inscriptions inscriptions).
End Classify.

(** ** Sources *)

Class InscriptionSource := {
  load_block_inscriptions : u32 → option Block → result (list DiscoveredInscription);
  load_block_mint_batch : u32 → option Block → result DiscoveredMintBatch
}.

Definition load_block_mints `{InscriptionSource} (block_height : u32) (block_hint : option Block) :
    result (list DiscoveredMint) :=
  result_map valid_mints (load_block_mint_batch block_height block_hint).

(** The default method of the trait, over what an implementation loads. *)
Definition default_mint_batch `{ContentEnv}
    (load : u32 → option Block → result (list DiscoveredInscription))
    (block_height : u32) (block_hint : option Block) : result DiscoveredMintBatch :=
  result_map classify_usdb_mints_from_inscriptions (load block_height block_hint).
Definition simple_source `{ContentEnv}
    (load : u32 → option Block → result (list DiscoveredInscription)) : InscriptionSource :=
  {| load_block_inscriptions := load; load_block_mint_batch := default_mint_batch load |}.

(** ** Comparing two sources *)

Inductive CompareTarget := UsdbMint | RawInscription.
#[export] Instance CompareTarget_eq_dec : EqDecision CompareTarget.
Proof. solve_decision. Defined.

Definition item_map {T} (key_fn : T → string) (content_fn : T → option string) (items : list T) :
    gmap string (option string) :=
  foldl (λ m item, <[key_fn item := content_fn item]> m) ∅ items.

(** The keys that only one side has, and those with another content. *)
Definition only_in (a b : gmap string (option string)) : list string :=
  filter (λ k, b !! k = None) (map_to_list a).*1.
Definition content_mismatch (primary shadow : gmap string (option string)) : list string :=
  (filter (λ kv : string * option string, shadow !! kv.1 ≠ None ∧ shadow !! kv.1 ≠ Some kv.2)
     (map_to_list primary)).*1.

Definition compare_items {T} (fail_fast : bool) (primary_items shadow_items : list T)
    (key_fn : T → string) (content_fn : T → option string) : result unit :=
  let primary_map := item_map key_fn content_fn primary_items in
  let shadow_map := item_map key_fn content_fn shadow_items in
  let only_primary := only_in primary_map shadow_map in
  let mismatch := content_mismatch primary_map shadow_map in
  let only_shadow := only_in shadow_map primary_map in
  if bool_decide (only_primary = []) && bool_decide (only_shadow = []) && bool_decide (mismatch = [])
  then Ok tt
  else if fail_fast then Err "Inscription source compare failed"
  else Ok tt.

Section Compare.
Context `{ContentEnv} `{IdText} (primary shadow : InscriptionSource)
  (fail_fast : bool) (target : CompareTarget).

Definition compare_block_mints (primary_mints shadow_mints : list DiscoveredMint) : result unit :=
  compare_items fail_fast primary_mints shadow_mints
    (λ mint, inscription_id_to_string (dm_inscription_id mint)) (λ mint, Some (dm_content_string mint)).
Definition compare_block_inscriptions
    (primary_inscriptions shadow_inscriptions : list DiscoveredInscription) : result unit :=
  compare_items fail_fast primary_inscriptions shadow_inscriptions
    (λ item, inscription_id_to_string (di_inscription_id item)) di_content_string.

Definition compare_load (block_height : u32) (block_hint : option Block) :
    result (list DiscoveredInscription) :=
  let? primary_inscriptions := @load_block_inscriptions primary block_height block_hint in
  let? shadow_inscriptions := @load_block_inscriptions shadow block_height block_hint in
  let? _ := (if bool_decide (target = RawInscription)
             then compare_block_inscriptions primary_inscriptions shadow_inscriptions else Ok tt) in
  Ok primary_inscriptions.

Definition compare_mint_batch (block_height : u32) (block_hint : option Block) :
    result DiscoveredMintBatch :=
  let? primary_inscriptions := @load_block_inscriptions primary block_height block_hint in
  let? shadow_inscriptions := @load_block_inscriptions shadow block_height block_hint in
  let? _ := (if bool_decide (target = RawInscription)
             then compare_block_inscriptions primary_inscriptions shadow_inscriptions else Ok tt) in
  let primary_batch := classify_usdb_mints_from_inscriptions primary_inscriptions in
  let? _ := (if bool_decide (target = UsdbMint)
             then
               let shadow_batch := classify_usdb_mints_from_inscriptions shadow_inscriptions in
               compare_block_mints (valid_mints primary_batch) (valid_mints shadow_batch)
             else Ok tt) in
  Ok primary_batch.

Definition CompareInscriptionSource : InscriptionSource :=
  {| load_block_inscriptions := compare_load; load_block_mint_batch := compare_mint_batch |}.
End Compare.

(** ** Classification is a partition *)

Section Partition.
Context {CE : ContentEnv}.

Definition as_valid (i : DiscoveredInscription) : option DiscoveredMint :=
  di_content_string i ≫= λ s,
    match classify_mint_content_str s with Valid c => Some (to_mint i s c) | _ => None end.
Definition as_invalid (i : DiscoveredInscription) : option DiscoveredInvalidMint :=
  di_content_string i ≫= λ s,
    match classify_mint_content_str s with InvalidContent e => Some (to_invalid_mint i s e) | _ => None end.

Lemma classify_partition l :
  classify_usdb_mints_from_inscriptions l
  = {| valid_mints := omap as_valid l; invalid_mints := omap as_invalid l |}.
Proof.
  unfold classify_usdb_mints_from_inscriptions. induction l as [|i l IH] using rev_ind; [done|].
  rewrite foldl_app. cbn [foldl]. rewrite IH, !omap_app. cbn. unfold classify_inscription, as_valid, as_invalid.
  destruct (di_content_string i) as [s|]; cbn; [|by rewrite !app_nil_r].
  destruct (classify_mint_content_str s); cbn; by rewrite ?app_nil_r.
Qed.
End Partition.

(** ** What a comparison that passes shows *)

Lemma filter_nil_Forall {A} (P : A → Prop) `{∀ x, Decision (P x)} (l : list A) :
  filter P l = [] ↔ ∀ x, x ∈ l → ¬ P x.
Proof.
  split.
  - intros E x Hx HP. assert (x ∈ filter P l) as Hin by by apply list_elem_of_filter.
    rewrite E in Hin. by apply elem_of_nil in Hin.
  - intros HP. destruct (filter P l) as [|x k] eqn:E; [done|]. exfalso.
    assert (x ∈ filter P l) as [? ?]%list_elem_of_filter by (rewrite E; by left). by eapply HP.
Qed.

Lemma only_in_nil a b : only_in a b = [] ↔ ∀ k x, a !! k = Some x → b !! k ≠ None.
Proof.
  unfold only_in. rewrite filter_nil_Forall. split.
  - intros Ha k x Hk. apply Ha. apply list_elem_of_fmap. exists (k, x).
    by rewrite elem_of_map_to_list.
  - intros Ha k ([k' x] & -> & Hk%elem_of_map_to_list)%list_elem_of_fmap. by eapply Ha.
Qed.

(** No difference is found exactly when the two maps are equal. *)
Lemma compare_maps_eq a b :
  only_in a b = [] ∧ only_in b a = [] ∧ content_mismatch a b = [] ↔ a = b.
Proof.
  rewrite !only_in_nil. unfold content_mismatch. split.
  - intros (Ha & Hb & Hm%fmap_nil_inv). rewrite filter_nil_Forall in Hm. apply map_eq. intros k.
    destruct (a !! k) as [x|] eqn:Ea, (b !! k) as [y|] eqn:Eb; [| | |done].
    + specialize (Hm (k, x)). rewrite elem_of_map_to_list in Hm. cbn in Hm. rewrite Eb in Hm.
      destruct (decide (x = y)) as [->|Hne]; [done|]. exfalso. apply Hm; [done|]. split; [done|congruence].
    + by destruct (Ha _ _ Ea).
    + by destruct (Hb _ _ Eb).
  - intros <-. split_and!; [by intros k x ->..|].
    match goal with |- ?l.*1 = [] => assert (l = []) as ->; [|done] end.
    apply filter_nil_Forall. intros [k x] Hk%elem_of_map_to_list. cbn. rewrite Hk. naive_solver.
Qed.

Lemma compare_items_fail_fast {T} (l k : list T) key_fn content_fn :
  compare_items true l k key_fn content_fn = Ok tt
  ↔ item_map key_fn content_fn l = item_map key_fn content_fn k.
Proof.
  rewrite <-compare_maps_eq. unfold compare_items. repeat case_bool_decide; cbn; naive_solver.
Qed.

Section Guard.
Context {CE : ContentEnv} {IT : IdText}.

(** The map of the mints found by a source, by the text of their ids. *)
Definition mint_map (l : list DiscoveredInscription) : gmap string (option string) :=
  item_map (λ mint, inscription_id_to_string (dm_inscription_id mint))
    (λ mint, Some (dm_content_string mint)) (map_usdb_mints_from_inscriptions l).

(** A comparing source in fail-fast mode hands out a batch exactly when both sources answer and
    agree on the valid mints of the block and their contents; and the batch is then the
    classification of what the primary source answered. *)
Theorem compare_source_guards primary shadow h hint batch :
  compare_mint_batch primary shadow true UsdbMint h hint = Ok batch ↔
  ∃ lp ls, @load_block_inscriptions primary h hint = Ok lp
    ∧ @load_block_inscriptions shadow h hint = Ok ls
    ∧ mint_map lp = mint_map ls
    ∧ batch = {| valid_mints := omap as_valid lp; invalid_mints := omap as_invalid lp |}.
Proof.
  unfold compare_mint_batch. rewrite bool_decide_false by done.
  destruct (@load_block_inscriptions primary h hint) as [lp|?|?]; cbn [result_bind]; [|naive_solver..].
  destruct (@load_block_inscriptions shadow h hint) as [ls|?|?]; cbn [result_bind]; [|naive_solver..].
  cbn [bool_decide decide_rel]. rewrite bool_decide_true by done.
  pose proof (compare_items_fail_fast (map_usdb_mints_from_inscriptions lp)
    (map_usdb_mints_from_inscriptions ls) (λ mint, inscription_id_to_string (dm_inscription_id mint))
    (λ mint, Some (dm_content_string mint))) as Hc.
  setoid_rewrite <-classify_partition. unfold compare_block_mints, map_usdb_mints_from_inscriptions in *.
  destruct (compare_items true _ _ _ _) as [[]|?|?]; cbn [result_bind].
  - split; [intros [= <-]; exists lp, ls; by rewrite <-Hc|by intros (? & ? & [= <-] & _ & _ & ->)].
  - split; [done|]. intros (? & ? & [= <-] & [= <-] & Em & _). by apply Hc in Em.
  - split; [done|]. intros (? & ? & [= <-] & [= <-] & Em & _). by apply Hc in Em.
Qed.
End Guard.
