(* ===== verification/BlockFrame.v ===== *)
(** * What a block may touch

    The frame of a block at a height: however its routines end, they leave the energy records and
    the ledger below the height as they were.  Used to show that a failed block can be undone. *)

From S2P Require Import Prelude Types EnergyFormula EnergyStorage Energy PassStorage PassLedger.
From S2P Require Import PassCommit Pass Content Transfer BlockEvents BalanceLoader BalanceMonitor.

(** ** The statements of a block

    What the calls of a block at height [h] write, one statement at a time: every call on a store is
    a sequence of these, and a query of the service may fall between any two of them. *)

Inductive pass_statement (h : u32) (t : Tables) : Tables → Prop :=
  | ps_insert p : mint_block_height p = h → pass_statement h t (insert_pass_record p t).2
  | ps_transfer i o sp : pass_statement h t (transfer_owner i o sp t).2
  | ps_satpoint i sp sp' : pass_statement h t (update_satpoint i sp sp' t).2
  | ps_state i st st' : pass_statement h t (update_state i st st' t).2
  | ps_event i ev ps ns po no psp nsp :
      pass_statement h t (append_pass_history_event i h ev ps ns po no psp nsp t).2
  | ps_commit e : pc_block_height e = h → pass_statement h t (upsert_pass_block_commit e t).2
  | ps_balance b n : pass_statement h t (upsert_active_balance_snapshot h b n t).2
  | ps_synced : pass_statement h t (update_synced_btc_block_height h t).2.

Inductive energy_statement (h : u32) (db : EnergyDb) : EnergyDb → Prop :=
  | es_insert r : wf_id (er_inscription_id r) → er_block_height r = h →
      energy_statement h db (insert_pass_energy_record r db).2
  | es_clear : energy_statement h db (clear_records_from_height h db).2
  | es_pending v : energy_statement h db (put_pending_block_height v db).2
  | es_synced k : energy_statement h db (set_synced_block_height k db).2
  | es_finalize : energy_statement h db (storage_finalize_block_sync h db).2.

(** A statement of block [h] on pass rows leaves what a lower height [T] is read from. *)
Lemma write_row_undoable T t0 t i p :
  undoable T t0 t →
  (match t_passes t !! i with Some q => static p = static q | None => T < mint_block_height p end) →
  undoable T t0 (write_pass_row i p t).2.
Proof.
  intros [Uh Uo Uk Uc Ub Ua] Hq. unfold write_pass_row. destruct (active_conflict _ _ _); split; try done; cbn.
  - intros j q. rewrite lookup_insert_Some. intros [[<- <-]|[_ Hj]] Hm; [|by eauto].
    destruct (t_passes t !! i) as [q|] eqn:Eq; [|lia].
    destruct (Uo _ _ Eq) as (p0 & ? & ?); [by rewrite <-(static_mint _ _ Hq)|]. exists p0. split; [done|congruence].
  - intros j p0 Hj. destruct (Uk _ _ Hj) as (q & Hq' & Es). destruct (decide (i = j)) as [<-|Hne].
    + exists p. rewrite lookup_insert_eq. split; [done|]. rewrite Hq' in Hq. congruence.
    + exists q. by rewrite lookup_insert_ne.
Qed.
Lemma update_row_undoable T t0 t i cond f nf :
  undoable T t0 t → (∀ q, static (f q) = static q) → undoable T t0 (update_pass_row i cond f nf t).2.
Proof.
  intros U Hf. unfold update_pass_row. destruct (t_passes t !! i) as [q|] eqn:Eq; [|done].
  destruct (cond q); [|done]. apply write_row_undoable; [done|]. by rewrite Eq.
Qed.

Lemma pass_statement_keeps T h t0 t t' :
  T < h → undoable T t0 t → pass_statement h t t' → undoable T t0 t'.
Proof.
  intros HT U. destruct 1 as [p Hp|i o sp|i sp sp'|i st st'|i ev ps ns po no psp nsp|e He|b n|].
  - unfold insert_pass_record. destruct (t_passes t !! _) eqn:E; [done|].
    apply write_row_undoable; [done|]. rewrite E. lia.
  - by apply update_row_undoable; [|intros []].
  - by apply update_row_undoable; [|intros []].
  - by apply update_row_undoable; [|intros []].
  - destruct U. split; try done. cbn. by rewrite filter_app, filter_cons_False, filter_nil, app_nil_r by (cbn; lia).
  - destruct U. split; try done. intros k Hk. cbn. rewrite lookup_insert_ne by lia. auto.
  - destruct U. split; try done. intros k Hk. cbn. rewrite lookup_insert_ne by lia. auto.
  - by destruct U.
Qed.
Lemma energy_statement_keeps T h db db' :
  T < h <= U32_MAX → 0 < h → wf_db db → energy_statement h db db' →
  wf_db db' ∧ ∀ k, k.2 <= T → pass_energy_cf db' !! k = pass_energy_cf db !! k.
Proof.
  intros HT Hh W. destruct 1 as [r Wi Hr| |v|k|]; [| |by split..].
  - split; [apply wf_insert_record; [done|split; [done|simpl; lia]]|].
    intros k Hk. cbn. rewrite lookup_insert_ne; [done|]. intros <-. simpl in Hk. lia.
  - split; [by apply wf_clear_from|]. intros k Hk. apply option_eq. intros v.
    pose proof (clear_from_lookup h db k v) as ->. split; [by intros []|]. intros. split; [done|lia].
Qed.

(** ** Energy *)

(** The energy store during block [h], which started from [db0]. *)
Record energy_frame (h : u32) (db0 db : EnergyDb) : Prop := {
  ef_written : rtc (energy_statement h) db0 db;
  ef_below : ∀ k, k.2 < h → pass_energy_cf db !! k = pass_energy_cf db0 !! k;
  ef_above : ∀ k v, pass_energy_cf db !! k = Some v → k.2 <= h;
  ef_wf : wf_db db;
  ef_max : max_marker_ok db;
  ef_pending : meta_pending_block_height db = None ∨ meta_pending_block_height db = Some h;
  ef_synced : meta_synced_block_height db = Some (h - 1) ∨ meta_synced_block_height db = Some h
}.

(** The balances of a pass are settled up to the block: since its latest record below [h], if
    active, its owner's balance has changed at [h] at the earliest. *)
Definition settled_pass `{BalanceProvider} (h : u32) (db : EnergyDb) (i : InscriptionId) : Prop :=
  ∀ r l, is_latest i (h - 1) db r → er_state r = Active →
    provider_balance_at_range (er_owner_address r) (u32_add (er_block_height r) 1) (u32_add h 1) = Ok l →
    Forall (λ ab, h <= ab_block_height ab) l.

Section EnergyFrame.
Context {BP : BalanceProvider} {Laws : BalanceProviderLaws}.
Context (h : u32) (db0 : EnergyDb) (Hh : 0 < h < U32_MAX).

Lemma frame_insert r :
  wf_id (er_inscription_id r) → er_block_height r = h →
  preserves (energy_frame h db0) (insert_pass_energy_record r).
Proof.
  intros Wi Hr db [Hx Hb Ha Hw Hm Hp Hs]. split;
    [exact (rtc_r _ _ _ Hx (es_insert _ _ r Wi Hr))| |
     |apply wf_insert_record; [done|split; [done|simpl; lia]]|by apply insert_record_max_marker|done..].
  - intros k Hk. cbn. rewrite lookup_insert_ne; [by apply Hb|]. intros <-. simpl in Hk. lia.
  - intros k v. cbn. rewrite lookup_insert_Some. intros [[<- _]|[_ Hk]]; simpl; [lia|eauto].
Qed.

Lemma frame_at_height i st a o b d e :
  wf_id i → preserves (energy_frame h db0) (insert_pass_energy_record
    {| er_inscription_id := i; er_block_height := h; er_state := st; er_active_block_height := a;
       er_owner_address := o; er_owner_balance := b; er_owner_delta := d; er_energy := e |}).
Proof. intros Wi. by apply frame_insert. Qed.

Lemma frame_clear : preserves (energy_frame h db0) (clear_records_from_height h).
Proof.
  intros db [Hx Hb Ha Hw Hm Hp Hs]. split;
    [exact (rtc_r _ _ _ Hx (es_clear _ _))| | |by apply wf_clear_from|apply clear_from_max_marker|done..].
  - intros k Hk. rewrite <-Hb by done. apply option_eq. intros v.
    pose proof (clear_from_lookup h db k v) as ->. naive_solver.
  - intros k v [Hk _]%clear_from_lookup. eauto.
Qed.

Lemma frame_markers (m : M EnergyDb unit) :
  (∀ db, energy_frame h db0 db →
     rtc (energy_statement h) db (m db).2 ∧ pass_energy_cf (m db).2 = pass_energy_cf db
     ∧ meta_max_record_block_height (m db).2 = meta_max_record_block_height db
     ∧ (meta_pending_block_height (m db).2 = None ∨ meta_pending_block_height (m db).2 = Some h)
     ∧ (meta_synced_block_height (m db).2 = Some (h - 1) ∨ meta_synced_block_height (m db).2 = Some h)) →
  preserves (energy_frame h db0) m.
Proof.
  intros Hm db F. destruct (Hm db F) as (E0 & E1 & E2 & E3 & E4). destruct F as [Hwr Hb Ha Hw Hx _ _].
  split; [by etransitivity|by rewrite E1|intros k v; rewrite E1; apply Ha|intros k v; rewrite E1; apply Hw|unfold max_marker_ok in *; by rewrite E1, E2|done..].
Qed.

(** The first part of [frame_markers]: one marker is written, or none. *)
Ltac marker_written :=
  first [ apply rtc_refl | apply rtc_once, es_pending | apply rtc_once, es_finalize | apply rtc_once, es_synced ].

Lemma frame_begin : preserves (energy_frame h db0) (begin_block_sync h).
Proof.
  apply frame_markers. intros db F. unfold begin_block_sync. erewrite bind_run by reflexivity.
  destruct (meta_pending_block_height db) eqn:E; (split; [marker_written|]); cbn; rewrite ?E;
    split_and!; try done; try apply F.
  - destruct (ef_pending _ _ _ F); rewrite E in *; auto.
  - by right.
Qed.
Lemma frame_finalize : preserves (energy_frame h db0) (finalize_block_sync h).
Proof.
  apply frame_markers. intros db F. unfold finalize_block_sync. erewrite bind_run by reflexivity.
  destruct (negb _); (split; [marker_written|]); cbn; split_and!; try done; try apply F; [by left|by right].
Qed.
Lemma frame_clear_pending : preserves (energy_frame h db0) clear_pending_block_height.
Proof.
  apply frame_markers. intros db F. split; [marker_written|]. cbn. split_and!; try done; [by left|apply F].
Qed.
Lemma frame_abort : preserves (energy_frame h db0) (abort_pending_block_sync h).
Proof.
  unfold abort_pending_block_sync. apply preserves_bind; [by apply preserves_gets|intros o].
  apply preserves_if; [apply preserves_fail|].
  apply preserves_bind; [apply frame_clear|intros _; apply frame_clear_pending].
Qed.

Lemma frame_rollback : preserves (energy_frame h db0) (rollback_to_pass_synced_height (h - 1)).
Proof.
  unfold rollback_to_pass_synced_height, reconcile_with_pass_synced_height. apply preserves_bind; [|intros _].
  { intros db F. unfold reconcile_pending. erewrite bind_run by reflexivity.
    destruct (ef_pending _ _ _ F) as [->| ->]; [done|]. revert db F.
    change (preserves (energy_frame h db0)
      (let! _ := clear_records_from_height h in clear_pending_block_height)).
    apply preserves_bind; [apply frame_clear|intros _; apply frame_clear_pending]. }
  apply preserves_bind; [|intros _].
  { intros db F. unfold reconcile_records.
    erewrite bind_run by (apply get_max_record_block_height_run, F).
    destruct (meta_max_record_block_height db); [|done]. destruct (_ >? _); [|done].
    replace (u32_saturating_add (h - 1) 1) with h by (unfold u32_saturating_add; lia). by apply frame_clear. }
  apply frame_markers. intros db F. destruct (reconcile_synced_spec (h - 1) db) as (-> & -> & _ & _).
  unfold reconcile_synced. erewrite bind_run by reflexivity.
  destruct (ef_synced _ _ _ F) as [->| ->].
  - rewrite Z.gtb_ltb, Z.ltb_irrefl. split; [marker_written|]. cbn. split_and!; try done; apply F.
  - rewrite Z.gtb_ltb, (proj2 (Z.ltb_lt _ _)) by lia. split; [marker_written|]. cbn.
    split_and!; try done; [apply F|by left].
Qed.

Lemma frame_update_fold i l : ∀ r,
  wf_id i → Forall (λ ab, ab_block_height ab = h) l →
  preserves (energy_frame h db0) (fold_m l r (update_round i)).
Proof.
  induction l as [|ab l IH]; intros r Wi Hl; [apply preserves_ret|].
  apply Forall_cons in Hl as [Hab Hl]. cbn [fold_m]. apply preserves_bind; [|intros r'; by apply IH].
  unfold update_round. apply preserves_bind; [|intros _; apply preserves_ret]. by apply frame_insert.
Qed.

(** The latest record during the block is one of the block, or was the latest before it. *)
Lemma frame_latest i db r :
  energy_frame h db0 db → is_latest i h db r → er_block_height r = h ∨ is_latest i (h - 1) db0 r.
Proof.
  intros F (Ei & Hle & Hl & Hmax). destruct (decide (er_block_height r = h)) as [|Hne]; [by left|right].
  split_and!; [done|lia|by rewrite <-(ef_below _ _ _ F) by (simpl; lia)|].
  intros h' v Hv Hle'. rewrite <-(ef_below _ _ _ F) in Hv by (simpl; lia). eapply Hmax; [done|lia].
Qed.

(** What settling an active pass of the block reads: balance rows of the block itself. *)
Lemma settled_rows i db r l :
  energy_frame h db0 db → settled_pass h db0 i → is_latest i h db r → er_state r = Active →
  provider_balance_at_range (er_owner_address r) (u32_add (er_block_height r) 1) (u32_add h 1) = Ok l →
  Forall (λ ab, ab_block_height ab = h) l.
Proof.
  intros F Hset E Ha Ep.
  pose proof (at_range_rows _ _ _ _ Ep) as [Hr _]. pose proof (proj1 (proj2 E)) as Hle.
  destruct (frame_latest i db r F E) as [Eh|Hlow].
  - eapply Forall_impl; [exact Hr|]. intros ab [[? _] ?]. rewrite Eh in *.
    rewrite u32_add_small in * by lia. lia.
  - specialize (Hset r l Hlow Ha Ep). rewrite Forall_forall in *. intros ab Hab.
    destruct (Hr ab Hab) as [_ Hb]. specialize (Hset ab Hab). cbn beta in Hset.
    rewrite (u32_add_small h 1) in Hb by lia. lia.
Qed.

Lemma frame_update i :
  wf_id i → settled_pass h db0 i → preserves (energy_frame h db0) (update_pass_energy i h).
Proof.
  intros Wi Hset db F. unfold update_pass_energy. erewrite bind_run by reflexivity.
  destruct (find_last i h db) as [r|] eqn:E; [|done]. erewrite bind_run by reflexivity.
  apply find_last_is_Some in E; [|apply F|split; [done|simpl; lia]].
  rewrite (proj2 (Z.leb_le _ _)) by apply E. erewrite bind_run by reflexivity.
  case_bool_decide as Ha; cbn [negb]; [|done].
  unfold get_balance_at_range, bind at 1, lift.
  destruct (provider_balance_at_range _ _ _) as [l|?|?] eqn:Ep; [|done..].
  pose proof (settled_rows i db r l F Hset E Ha Ep) as Hl.
  refine (preserves_bind _ _ _ _ _ db F); [by apply frame_update_fold|].
  intros r'. destruct (_ <? _); apply preserves_ret.
Qed.

Lemma frame_dormant i :
  wf_id i → settled_pass h db0 i → preserves (energy_frame h db0) (on_pass_dormant i h).
Proof.
  intros Wi Hset. unfold on_pass_dormant. apply preserves_bind; [by apply frame_update|intros e].
  apply preserves_bind; [by apply preserves_gets|intros o]. apply preserves_bind; [apply preserves_lift|intros r].
  apply preserves_bind; [by apply frame_at_height|intros _].
  apply preserves_bind; [by apply preserves_gets|intros v]. apply preserves_if; [apply preserves_fail|apply preserves_ret].
Qed.
Lemma frame_consumed i o : wf_id i → preserves (energy_frame h db0) (on_pass_consumed i o h).
Proof. apply frame_at_height. Qed.
Lemma frame_new_pass i o e : wf_id i → preserves (energy_frame h db0) (on_new_pass i o h e).
Proof.
  intros Wi. unfold on_new_pass. apply preserves_bind.
  { unfold get_balance_at_height. apply preserves_bind; [apply preserves_lift|intros l].
    apply preserves_bind; [apply preserves_assert|intros _]. case_match; apply preserves_ret. }
  intros ab. by apply frame_at_height.
Qed.
Lemma frame_apply i o b d : wf_id i → preserves (energy_frame h db0) (apply_active_balance_change i o h b d).
Proof.
  intros Wi db F. destruct (apply_change_energy_step i o h b d true db) as [E|(r & _ & E)];
    [apply F|split; [done|simpl; lia]| |]; unfold apply_active_balance_change; rewrite E; [done|].
  apply (frame_insert (energy_step i r {| ab_block_height := h; ab_balance := b; ab_delta := d |}));
    done.
Qed.

(** Reconciling undoes the block. *)
Lemma frame_reconciles db :
  energy_frame h db0 db → (∀ k v, pass_energy_cf db0 !! k = Some v → k.2 < h) →
  ∃ db', reconcile_with_pass_synced_height (h - 1) db = (Ok tt, db')
    ∧ pass_energy_cf db' = pass_energy_cf db0
    ∧ meta_pending_block_height db' = None ∧ meta_synced_block_height db' = Some (h - 1)
    ∧ wf_db db' ∧ max_marker_ok db'.
Proof.
  intros F Hlow. pose proof (frame_rollback db F) as F'. unfold rollback_to_pass_synced_height in F'.
  destruct (reconcile_run (h - 1) db) as (H1 & H2 & H3 & H4); [apply F|lia| |].
  { intros k v Hv. pose proof (wf_key_height _ (ef_wf _ _ _ F _ _ Hv)). lia. }
  destruct (reconcile_with_pass_synced_height (h - 1) db) as [r db'] eqn:E. cbn in *.
  assert (is_ok r = true) as Hok.
  { apply H3. intros s Hs. destruct (ef_synced _ _ _ F) as [E'|E']; rewrite E' in Hs; injection Hs as <-; lia. }
  exists db'. destruct r as [[]|?|?]; [|done..]. split_and!; [done| |done|by apply H4|apply F'..].
  apply map_eq. intros k. apply option_eq. intros v. rewrite H1. split.
  - intros (Hv & Hle & _). by rewrite <-(ef_below _ _ _ F) by lia.
  - intros Hv. pose proof (Hlow _ _ Hv). rewrite (ef_below _ _ _ F) by lia. split_and!; [done|lia|].
    intros q Hq. destruct (ef_pending _ _ _ F) as [E'|E']; rewrite E' in Hq; [done|]. injection Hq as <-. lia.
Qed.
End EnergyFrame.

(** ** Tables *)

(** The tables during block [h], which started from [t0]: a ledger, with the key-value state of the
    start, in which passes have moved along the state machine. *)
Record tables_frame (h : u32) (t0 t : Tables) : Prop := {
  tf_written : rtc (pass_statement h) t0 t;
  tf_state : t_state t = t_state t0;
  tf_moves : state_moves t0 t;
  tf_ids : ∀ i, is_Some (t_passes t !! i) → wf_id i;
  tf_ledger : ledger_ok h t;
  tf_rows : ∀ k, k ≠ h → t_commits t !! k = t_commits t0 !! k ∧ t_balances t !! k = t_balances t0 !! k
                         ∧ t_anchors t !! k = t_anchors t0 !! k;
  (* a rollback to a height below the block restores the start *)
  tf_undoable : undoable (h - 1) t0 t
}.

Section TablesFrame.
Context (h : u32) (t0 : Tables).

(** The parts of the frame other than the ledger, which every statement keeps on its own. *)
Record tables_side (t t' : Tables) : Prop := {
  tsd_state : t_state t' = t_state t;
  tsd_ids : ∀ i, is_Some (t_passes t' !! i) → is_Some (t_passes t !! i) ∨ wf_id i
}.
#[local] Instance tables_side_refl : Reflexive tables_side.
Proof. split; auto. Qed.
#[local] Instance tables_side_trans : Transitive tables_side.
Proof. intros a b c [A1 A2] [B1 B2]. split; [congruence|]. intros i Hi%B2. naive_solver. Qed.

Lemma write_side i p t :
  is_Some (t_passes t !! i) ∨ wf_id i → tables_side t (write_pass_row i p t).2.
Proof.
  intros Hi. unfold write_pass_row. destruct (active_conflict _ _ _); [reflexivity|]. split; [done|].
  intros j. cbn. destruct (decide (i = j)) as [<-|Hne]; [done|]. rewrite lookup_insert_ne by done. auto.
Qed.
Lemma append_side i ev ps ns po no psp nsp :
  moves tables_side (append_pass_history_event i h ev ps ns po no psp nsp).
Proof. intros t. split; [done|auto]. Qed.
Lemma insert_side p : wf_id (inscription_id p) → moves tables_side (insert_pass_record p).
Proof.
  intros Wi t. unfold insert_pass_record. destruct (t_passes t !! _); [reflexivity|].
  apply write_side. by right.
Qed.
Lemma update_side i cond f nf : moves tables_side (update_pass_row i cond f nf).
Proof.
  intros t. unfold update_pass_row. destruct (t_passes t !! i) eqn:E; [|reflexivity].
  destruct (cond _); [|reflexivity]. apply write_side. left. by rewrite E.
Qed.

(** The statements of a block on pass rows. *)
Definition op_wf (op : pass_op) : Prop :=
  match op with
  | OpMint p | OpInvalidMint p => wf_id (inscription_id p)
  | OpTransfer _ _ _ | OpSatpoint _ _ _ | OpState _ _ _ => True
  | OpCommit _ | OpBalance _ _ => True
  | OpAnchorHistory _ | OpSynced _ => False
  end.

Lemma op_side op : op_wf op → moves tables_side (run_pass_op h op).
Proof.
  destruct op; simpl; intros W.
  - unfold add_new_mint_pass_at_height, add_new_mint_pass.
    apply moves_bind; [apply _| |intros; apply append_side].
    repeat (apply moves_assert_bind; [apply _|intros _]). by apply insert_side.
  - unfold add_invalid_mint_pass_at_height, add_invalid_mint_pass.
    apply moves_bind; [apply _| |intros; apply append_side].
    repeat (apply moves_assert_bind; [apply _|intros _]). by apply insert_side.
  - apply moves_found_bind; [apply _|]. intros t p _. revert t.
    match goal with |- ∀ t, tables_side t (?m t).2 => change (moves tables_side m) end.
    apply moves_bind; [apply _|apply update_side|intros; apply append_side].
  - apply moves_found_bind; [apply _|]. intros t p _. revert t.
    match goal with |- ∀ t, tables_side t (?m t).2 => change (moves tables_side m) end.
    apply moves_bind; [apply _|apply update_side|intros; apply append_side].
  - apply moves_found_bind; [apply _|]. intros t p _. revert t.
    match goal with |- ∀ t, tables_side t (?m t).2 => change (moves tables_side m) end.
    apply moves_bind; [apply _|apply update_side|intros; apply append_side].
  - intros t. split; [done|auto].
  - intros t. split; [done|auto].
  - done.
  - done.
Qed.

(** An operation is the statements it is made of. *)
Lemma op_statements op :
  op_wf op → pass_op_at h op → moves (rtc (pass_statement h)) (run_pass_op h op).
Proof.
  assert (∀ (m : M Tables unit), (∀ t, pass_statement h t (m t).2) → moves (rtc (pass_statement h)) m) as One
    by (intros m Hm t; apply rtc_once, Hm).
  assert (∀ i ev ps ns po no psp nsp,
    moves (rtc (pass_statement h)) (append_pass_history_event i h ev ps ns po no psp nsp)) as Ev
    by (intros; apply One; intros t; apply ps_event).
  assert (∀ i (m : MinerPassInfo → M Tables unit) (k : MinerPassInfo → M Tables unit) e,
    (∀ q t, pass_statement h t (m q t).2) → (∀ q, moves (rtc (pass_statement h)) (k q)) →
    moves (rtc (pass_statement h)) (let! found := get_pass_by_inscription_id i in
      let! current := lift (ok_or e found) in let! _ := m current in k current)) as Found.
  { intros i m k e Hm Hk. apply moves_found_bind; [apply _|]. intros t q _. revert t.
    apply moves_bind; [apply _|apply One, Hm|intros _; apply Hk]. }
  destruct op; simpl; intros W Hop; try done.
  - unfold add_new_mint_pass_at_height, add_new_mint_pass. apply moves_bind; [apply _| |done].
    repeat (apply moves_assert_bind; [apply _|intros _]). apply One. intros t. by apply ps_insert.
  - unfold add_invalid_mint_pass_at_height, add_invalid_mint_pass. apply moves_bind; [apply _| |done].
    repeat (apply moves_assert_bind; [apply _|intros _]). apply One. intros t. by apply ps_insert.
  - apply Found; [intros; apply ps_transfer|done].
  - apply Found; [intros; apply ps_satpoint|done].
  - apply Found; [intros; apply ps_state|done].
  - apply One. intros t. by apply ps_commit.
  - apply One. intros t. by apply ps_balance.
Qed.

Lemma tables_frame_op op :
  op_wf op → pass_op_at h op → moves state_moves (run_pass_op h op) →
  preserves (tables_frame h t0) (run_pass_op h op).
Proof.
  intros W Hat Hm t [H0 H1 H2 H3 H4 H5 H6]. pose proof (op_side op W t) as [S1 S2].
  pose proof (run_pass_op_effect h op t (lk_key _ _ H4) Hat) as He. split.
  - etransitivity; [exact H0|by apply op_statements].
  - congruence.
  - etransitivity; [exact H2|apply Hm].
  - intros i [Hi|Hi]%S2; auto.
  - by eapply ledger_ok_effect.
  - intros k Hk. destruct He as [t' _ _ _ E1 E2 E3|i p r ? ? ? ? ? ? ?]; [|by apply H5].
    rewrite E1, E2, E3 by done. by apply H5.
  - apply (undoable_effect _ h _ t); [done|lia|done].
Qed.

Lemma tables_frame_mint p :
  wf_id (inscription_id p) → mint_block_height p = h → state p = Active →
  preserves (tables_frame h t0) (add_new_mint_pass_at_height p h).
Proof.
  intros. apply (tables_frame_op (OpMint p)); [done..|]. by apply (sr_mint _ _ (state_moves_respects h)).
Qed.
Lemma tables_frame_invalid p :
  wf_id (inscription_id p) → mint_block_height p = h → state p = Invalid →
  preserves (tables_frame h t0) (add_invalid_mint_pass_at_height p h).
Proof.
  intros. apply (tables_frame_op (OpInvalidMint p)); [done..|].
  by apply (sr_invalid _ _ (state_moves_respects h)).
Qed.
Lemma tables_frame_state i from to :
  allowed_change from to → preserves (tables_frame h t0) (update_state_at_height i to from h).
Proof.
  intros. apply (tables_frame_op (OpState i to from)); [done..|].
  by apply (sr_state _ _ (state_moves_respects h)).
Qed.
Lemma tables_frame_transfer i o sp : preserves (tables_frame h t0) (transfer_owner_at_height i o sp h).
Proof.
  apply (tables_frame_op (OpTransfer i o sp)); [done..|]. apply (sr_transfer _ _ (state_moves_respects h)).
Qed.
Lemma tables_frame_satpoint i sp sp' :
  preserves (tables_frame h t0) (update_satpoint_at_height i sp sp' h).
Proof.
  apply (tables_frame_op (OpSatpoint i sp sp')); [done..|]. apply (sr_satpoint _ _ (state_moves_respects h)).
Qed.
Lemma tables_frame_commit e :
  pc_block_height e = h → preserves (tables_frame h t0) (upsert_pass_block_commit e).
Proof. intros. apply (tables_frame_op (OpCommit e)); [done..|]. by intros t i. Qed.
Lemma tables_frame_balance b n : preserves (tables_frame h t0) (upsert_active_balance_snapshot h b n).
Proof. apply (tables_frame_op (OpBalance b n)); [done..|]. by intros t i. Qed.

(** A pass found active in the block was active before it, or is minted in it. *)
Definition settles (i : InscriptionId) : Prop :=
  pass_state t0 i = Some Active ∨ pass_state t0 i = None.
Lemma frame_active t i p :
  tables_frame h t0 t → t_passes t !! i = Some p → state p = Active → settles i ∧ wf_id i.
Proof.
  intros F Hp Ha. split; [|apply (tf_ids _ _ _ F); by rewrite Hp].
  unfold settles. destruct (pass_state t0 i) as [st|] eqn:E; [|by right]. left. f_equal.
  destruct (decide (st = Active)) as [|Hne]; [done|]. exfalso.
  destruct (not_reactivated _ _ (tf_moves _ _ _ F i) st E Hne) as (st' & Hst & Hne').
  unfold pass_state in Hst. rewrite Hp in Hst. by simplify_eq/=.
Qed.
End TablesFrame.

(** ** The pass manager *)

Record block_frame (h : u32) (m0 m : MinerPassManager) : Prop := {
  bf_tables : tables_frame h (pm_tables m0) (pm_tables m);
  bf_savepoints : savepoints (pm_storage m) = savepoints (pm_storage m0);
  bf_energy : energy_frame h (pm_energy m0) (pm_energy m)
}.

(** The identifiers an event names are well formed. *)
Definition event_wf (ev : pass_event) : Prop :=
  match ev with
  | EvMint info => wf_id (mi_inscription_id info)
  | EvInvalidMint info => wf_id (ii_inscription_id info)
  | _ => True
  end.

Section ManagerFrame.
Context {BP : BalanceProvider} {Laws : BalanceProviderLaws} {IT : IdText}.
Context (h : u32) (m0 : MinerPassManager) (Hh : 0 < h < U32_MAX).
Hypothesis Hsettled : ∀ i, settles (pm_tables m0) i → settled_pass h (pm_energy m0) i.

Lemma bf_store {A} (m : M Tables A) :
  preserves (tables_frame h (pm_tables m0)) m → preserves (block_frame h m0) (store m).
Proof. intros Hm s [F1 F2 F3]. split; [by apply Hm|done..]. Qed.
Lemma bf_on_energy {A} (m : M EnergyDb A) :
  preserves (energy_frame h (pm_energy m0)) m → preserves (block_frame h m0) (on_energy m).
Proof. intros Hm s [F1 F2 F3]. split; [done..|by apply Hm]. Qed.
Lemma bf_push m : preserves (block_frame h m0) (push_block_mutation m).
Proof. by intros s [F1 F2 F3]. Qed.
Lemma bf_read {A B} (f : Tables → B) (k : B → M MinerPassManager A) :
  (∀ s, block_frame h m0 s → block_frame h m0 (k (f (pm_tables s)) s).2) →
  preserves (block_frame h m0) (bind (store (gets f)) k).
Proof. intros Hk s F. erewrite bind_run by apply store_read. by apply Hk. Qed.

Lemma bf_energy_read {A B} (f : EnergyDb → B) (k : B → M MinerPassManager A) :
  (∀ b, preserves (block_frame h m0) (k b)) →
  preserves (block_frame h m0) (bind (on_energy (gets f)) k).
Proof. intros Hk. apply preserves_bind; [apply bf_on_energy, preserves_gets|done]. Qed.

Lemma bf_settled i s p :
  block_frame h m0 s → t_passes (pm_tables s) !! i = Some p → state p = Active →
  wf_id i ∧ settled_pass h (pm_energy m0) i.
Proof. intros F Hp Ha. destruct (frame_active h _ _ i p (bf_tables _ _ _ F) Hp Ha). auto. Qed.

Lemma bf_update i : wf_id i → settled_pass h (pm_energy m0) i →
  preserves (block_frame h m0) (on_energy (update_pass_energy i h)).
Proof. intros. by apply bf_on_energy, frame_update. Qed.
Lemma bf_dormant i : wf_id i → settled_pass h (pm_energy m0) i →
  preserves (block_frame h m0) (on_energy (on_pass_dormant i h)).
Proof. intros. by apply bf_on_energy, frame_dormant. Qed.

#[local] Hint Resolve bf_store bf_on_energy bf_push bf_update bf_dormant tables_frame_mint
  tables_frame_invalid tables_frame_state tables_frame_transfer tables_frame_satpoint frame_consumed
  frame_new_pass change_dormant change_burned : preserves.

Ltac handler :=
  repeat first
    [ solve [eauto 4 with preserves]
    | apply preserves_bind; [|intros ?]
    | apply preserves_if | case_match ].

Lemma bf_dormant_last_pass info :
  mi_mint_block_height info = h → preserves (block_frame h m0) (dormant_last_pass info).
Proof.
  intros Eh. unfold dormant_last_pass. rewrite Eh. apply bf_read. intros s F.
  destruct (head _) as [p|] eqn:Ep; [|done].
  apply last_active_elem in Ep as (_ & Ha & i & Hi).
  pose proof (lk_key _ _ (tf_ledger _ _ _ (bf_tables _ _ _ F)) _ _ Hi) as Ei. rewrite Ei.
  destruct (bf_settled i s p F Hi Ha). revert s F Hi. intros s F _. revert s F.
  match goal with |- ∀ s, ?I s → ?I (?m s).2 => change (preserves I m) end. handler.
Qed.

Lemma bf_consume_pass i : wf_id i → preserves (block_frame h m0) (consume_pass i h).
Proof.
  intros Wi. unfold consume_pass. apply bf_read. intros s F. destruct (t_passes _ !! i) as [p|]; [|done].
  erewrite bind_run by reflexivity. unfold assert at 1. case_bool_decide as Hd; [|done].
  erewrite bind_run by reflexivity. rewrite Hd. revert s F.
  match goal with |- ∀ s, ?I s → ?I (?m s).2 => change (preserves I m) end.
  apply preserves_bind; [by apply bf_store, tables_frame_state, change_consumed|intros _].
  apply preserves_bind; [apply bf_push|intros _].
  apply preserves_bind; [apply bf_on_energy; by intros db|intros got]. handler.
Qed.

Lemma bf_inherit_round info acc i :
  mi_mint_block_height info = h → preserves (block_frame h m0) (inherit_round info acc i).
Proof.
  intros Eh. unfold inherit_round. rewrite Eh. apply bf_read. intros s F.
  destruct (t_passes (pm_tables s) !! i) as [p|] eqn:Ep; [|done].
  assert (wf_id i) as Wi by (apply (tf_ids _ _ _ (bf_tables _ _ _ F)); by rewrite Ep).
  pose proof (bf_consume_pass i Wi). clear Ep. revert s F.
  match goal with |- ∀ s, ?I s → ?I (?m s).2 => change (preserves I m) end. handler.
Qed.

Lemma bf_mint info :
  event_wf (EvMint info) → mi_mint_block_height info = h → preserves (block_frame h m0) (on_mint_pass info).
Proof.
  intros Wi Eh. unfold on_mint_pass. apply preserves_bind; [by apply bf_dormant_last_pass|intros _].
  rewrite Eh. apply preserves_bind; [by apply bf_store, tables_frame_mint|intros _].
  apply preserves_bind; [apply bf_push|intros _].
  apply preserves_bind; [apply preserves_fold_m; intros; by apply bf_inherit_round|intros e].
  by apply bf_on_energy, frame_new_pass.
Qed.

Lemma bf_invalid_mint info :
  event_wf (EvInvalidMint info) → ii_mint_block_height info = h →
  preserves (block_frame h m0) (on_invalid_mint_pass info).
Proof.
  intros Wi Eh. unfold on_invalid_mint_pass. rewrite Eh.
  apply preserves_bind; [by apply bf_store, tables_frame_invalid|intros _]. apply bf_push.
Qed.

Lemma bf_transfer i o sp : preserves (block_frame h m0) (on_pass_transfer i o sp h).
Proof.
  unfold on_pass_transfer. apply bf_read. intros s F.
  destruct (t_passes (pm_tables s) !! i) as [p|] eqn:Ep; [|done]. erewrite bind_run by reflexivity.
  case_bool_decide as Ha.
  - destruct (bf_settled i s p F Ep Ha). clear Ep. revert s F.
    match goal with |- ∀ s, ?I s → ?I (?m s).2 => change (preserves I m) end. handler.
  - clear Ep. revert s F.
    match goal with |- ∀ s, ?I s → ?I (?m s).2 => change (preserves I m) end. handler.
Qed.

Lemma bf_burned i : preserves (block_frame h m0) (on_pass_burned i h).
Proof.
  unfold on_pass_burned. apply bf_read. intros s F.
  destruct (t_passes (pm_tables s) !! i) as [p|] eqn:Ep; [|done]. erewrite bind_run by reflexivity.
  case_bool_decide as Ha.
  - destruct (bf_settled i s p F Ep Ha). clear Ep. revert s F.
    match goal with |- ∀ s, ?I s → ?I (?m s).2 => change (preserves I m) end. handler.
  - clear Ep. revert s F.
    match goal with |- ∀ s, ?I s → ?I (?m s).2 => change (preserves I m) end. handler.
Qed.

(** Whatever a block does to passes stays in its frame. *)
Lemma bf_run_event ev :
  event_at h ev → event_wf ev → preserves (block_frame h m0) (run_event h ev).
Proof.
  destruct ev; simpl; intros Ha Hw;
    [by apply bf_mint|by apply bf_invalid_mint|apply bf_transfer|apply bf_burned].
Qed.
End ManagerFrame.

(** ** The events of a planned block *)

Section Events.
Context {BP : BalanceProvider} {Laws : BalanceProviderLaws} {IT : IdText} {CE : ContentEnv}.
Context (h : u32) (m0 : MinerPassManager) (Hh : 0 < h < U32_MAX).
Hypothesis Hsettled : ∀ i, settles (pm_tables m0) i → settled_pass h (pm_energy m0) i.

Definition event_ok (ev : BlockProcessEvent) : Prop :=
  event_height ev = h
  ∧ match ev with EventMint item => wf_id (ni_inscription_id item) | EventTransfer _ => True end.
Definition invalid_ok (item : InvalidPassMintInscriptionInfo) : Prop :=
  ii_mint_block_height item = h ∧ wf_id (ii_inscription_id item).

Lemma preserves_fold_m_in {S A B} (I : S → Prop) (l : list A) (body : B → A → M S B) : ∀ acc,
  (∀ acc x, x ∈ l → preserves I (body acc x)) → preserves I (fold_m l acc body).
Proof.
  induction l as [|x l IH]; intros acc Hb; simpl; [apply preserves_ret|].
  apply preserves_bind; [apply Hb; by left|intros a]. apply IH. intros; apply Hb. by right.
Qed.

Lemma bf_execute_event counts ev :
  event_ok ev → preserves (block_frame h m0) (execute_event counts ev).
Proof.
  intros [Eh W]. destruct ev as [item|item]; cbn in Eh; unfold execute_event.
  - apply preserves_bind; [|intros _; apply preserves_ret]. unfold on_new_inscription.
    destruct (as_mint _) as [m|]; [|apply preserves_panic].
    apply preserves_bind; [apply preserves_map_err, preserves_lift|intros prevs].
    by apply bf_mint.
  - rewrite Eh. apply preserves_bind; [|intros _; apply preserves_ret].
    destruct (it_to_address item); [by apply bf_transfer|by apply bf_burned].
Qed.

Lemma bf_execute evs : Forall event_ok evs → preserves (block_frame h m0) (execute evs).
Proof.
  rewrite Forall_forall. intros Hev. apply preserves_fold_m_in. intros. by apply bf_execute_event, Hev.
Qed.

Lemma bf_process_invalid items :
  Forall invalid_ok items → preserves (block_frame h m0) (process_invalid_mints items).
Proof.
  rewrite Forall_forall. intros Hev. apply preserves_fold_m_in. intros acc item Hin.
  destruct (Hev item Hin) as [Eh W]. apply preserves_bind; [by apply bf_invalid_mint|intros _; apply preserves_ret].
Qed.
End Events.

(** ** The settlement *)

Section Settle.
Context {LD : BalanceRpcLoader} {IT : IdText}.

(** Every pass in the map was read from the log. *)
Definition logged (t : Tables) (i : InscriptionId) : Prop :=
  ∃ r, r ∈ t_history t ∧ h_inscription_id r = i.

Lemma page_logged page page_size T t l s' p :
  get_all_active_pass_by_page_from_history_at_height page page_size T t = (Ok l, s') →
  p ∈ l → logged t (ap_inscription_id p).
Proof.
  unfold get_all_active_pass_by_page_from_history_at_height,
    get_passes_by_page_from_history_at_height_by_states, gets.
  rewrite bool_decide_false by done. intros [= <- _] Hp. apply list_elem_of_fmap in Hp as (r & -> & Hr).
  exists r. split; [|done].
  assert (r ∈ order_by row_order true (rows_with_states [Active] (latest_rows t T))) as Hin.
  { unfold sql_page, sql_limit_offset in Hr.
    destruct (_ <? 0); [|apply subseteq_take in Hr]; by apply subseteq_drop in Hr. }
  clear Hr. rename Hin into Hr. rewrite elem_of_order_by in Hr. unfold rows_with_states, latest_rows in Hr.
  by do 2 apply list_elem_of_filter in Hr as [_ Hr].
Qed.

Lemma insert_unique_values {A} msg (P : A → Prop) (l : list (USDBScriptHash * A)) : ∀ m m',
  insert_unique msg l m = Ok m' → (∀ k x, m !! k = Some x → P x) → (∀ e, e ∈ l → P e.2) →
  ∀ k x, m' !! k = Some x → P x.
Proof.
  induction l as [|[k0 x0] l IH]; intros m m' E Hm Hl; cbn in E.
  - by injection E as <-.
  - destruct (m !! k0); [done|]. apply (IH _ _ E).
    + intros k x [[<- <-]|[_ Hx]]%lookup_insert_Some; [|eauto]. apply (Hl (k0, x0)). by left.
    + intros e He. apply Hl. by right.
Qed.

Lemma load_active_pages_logged fuel : ∀ page T m t m' t',
  load_active_pages fuel page T m t = (Ok m', t') → (∀ o i, m !! o = Some i → logged t i) →
  t' = t ∧ ∀ o i, m' !! o = Some i → logged t i.
Proof.
  induction fuel as [|fuel IH]; intros page T m t m' t' E Hm; [done|]. cbn [load_active_pages] in E.
  apply bind_Ok in E as (l & t1 & E1 & E).
  assert (t1 = t) as -> by by injection E1 as _ <-.
  case_bool_decide; [by injection E as <- <-|].
  apply bind_Ok in E as (m1 & t1 & E2 & E). injection E2 as E2 <-.
  assert (∀ o i, m1 !! o = Some i → logged t i) as Hm1.
  { eapply insert_unique_values; [exact E2|exact Hm|].
    intros e (p & -> & Hp)%list_elem_of_fmap. cbn. by eapply page_logged. }
  destruct (_ <? _); [by injection E as <- <-|]. by apply (IH _ _ _ _ _ _ E).
Qed.

Lemma settle_passes_rows h ps : ∀ m tot rows m' tot' rows',
  settle_passes h ps (m, tot, rows) = Ok (m', tot', rows') →
  (∀ row, row ∈ rows' → row ∈ rows ∨ apb_block_height row = h ∧ ∃ p, p ∈ ps ∧ apb_inscription_id row = ap_inscription_id p).
Proof.
  induction ps as [|p ps IH]; intros m tot rows m' tot' rows' E row Hr; cbn [settle_passes] in E.
  { injection E as <- <- <-. by left. }
  unfold settle_pass in E. destruct (m !! ap_owner p); [|done]. cbn in E.
  destruct (_ >? h); [done|]. cbn in E. destruct (IH _ _ _ _ _ _ E row Hr) as [Hin|(? & q & Hq & ?)].
  - apply elem_of_app in Hin as [Hin|Hin]; [by left|]. apply list_elem_of_singleton in Hin as ->.
    right. split; [done|]. exists p. split; [by left|done].
  - right. split; [done|]. exists q. split; [by right|done].
Qed.

Lemma load_active_passes_reads h t : (load_active_passes h t).2 = t.
Proof.
  unfold load_active_passes. generalize (load_active_fuel t). intros fuel.
    match goal with |- ((bind ?m ?k) t).2 = t => assert ((m t).2 = t) as Hm end.
    { generalize 0 at 1. generalize (∅ : gmap USDBScriptHash InscriptionId).
      induction fuel as [|fuel IH]; intros m k; [done|]. cbn [load_active_pages]. unfold bind at 1.
      destruct (get_all_active_pass_by_page_from_history_at_height k active_address_page_size h t) as [r t1] eqn:E1.
      assert (t1 = t) as -> by by injection E1 as _ <-.
      destruct r as [l|?|?]; [|done..]. case_bool_decide; [done|]. unfold bind, lift.
      destruct (insert_unique _ _ _); [|done..]. destruct (_ <? _); [done|apply IH]. }
    unfold bind. match type of Hm with (?m t).2 = t => destruct (m t) as [[?|?|?] ?] end; cbn in *; done.
Qed.

(** The settlement writes its snapshot only. *)
Lemma settle_writes h t st t' :
  settle_active_balance_with_details h t = (Ok st, t') →
  t_passes t' = t_passes t ∧ t_history t' = t_history t.
Proof.
  intros E. unfold settle_active_balance_with_details in E.
  apply bind_Ok in E as (? & t1 & E1 & E). pose proof (assert_no_data_reads h t) as Hr. rewrite E1 in Hr.
  cbn in Hr. subst t1. apply bind_Ok in E as (ps & t1 & E2 & E).
  pose proof (load_active_passes_reads h t) as Hr. rewrite E2 in Hr. cbn in Hr. subst t1.
  apply bind_Ok in E as (n & t1 & E3 & E).
  assert (t1 = t) as -> by (destruct (_ <=? _) in E3; [by injection E3|done]).
  do 2 (apply bind_Ok in E as (? & ? & Ex & E); injection Ex as _ <-).
  apply bind_Ok in E as ([[? ?] ?] & ? & Ex & E). injection Ex as _ <-.
  destruct (negb _); [done|]. apply bind_Ok in E as (? & ? & Ex & E). injection Ex as _ <-.
  by injection E as _ <-.
Qed.

(** The settlement writes one snapshot row, and its rows are about passes of the log. *)
Lemma settlement_rows h t0 :
  preserves (tables_frame h t0) (settle_active_balance_with_details h)
  ∧ ∀ t st t', settle_active_balance_with_details h t = (Ok st, t') →
      Forall (λ row, apb_block_height row = h ∧ logged t (apb_inscription_id row)) (active_pass_balances st).
Proof.
  split.
  - unfold settle_active_balance_with_details.
    apply preserves_bind; [intros t; by rewrite assert_no_data_reads|intros _].
    apply preserves_bind; [intros t; by rewrite load_active_passes_reads|intros ps].
    apply preserves_bind; [destruct (_ <=? _); [apply preserves_ret|apply preserves_fail]|intros n].
    apply preserves_bind; [apply preserves_lift|intros reply].
    apply preserves_bind; [apply preserves_lift|intros m].
    apply preserves_bind; [apply preserves_lift|intros [[m' tot] rows]].
    destruct (negb _); [apply preserves_fail|].
    apply preserves_bind; [apply tables_frame_balance|intros _; apply preserves_ret].
  - intros t st t' E. unfold settle_active_balance_with_details in E.
    apply bind_Ok in E as (? & t1 & E1 & E).
    assert (t1 = t) as -> by (pose proof (assert_no_data_reads h t) as Hr; by rewrite E1 in Hr).
    apply bind_Ok in E as (ps & t1 & E2 & E).
    assert (∀ p, p ∈ ps → logged t (ap_inscription_id p)) as Hps.
    { unfold load_active_passes in E2. apply bind_Ok in E2 as (m & t2 & E2 & E3). injection E3 as <- _.
      apply load_active_pages_logged in E2 as [_ Hm]; [|intros ? ? Hx; by rewrite lookup_empty in Hx].
      intros p Hp. apply (proj1 (elem_of_order_by _ false _ p)) in Hp.
      apply list_elem_of_fmap in Hp as ([o i] & -> & Hin%elem_of_map_to_list). cbn. by eapply Hm. }
    apply bind_Ok in E as (n & t2 & _ & E). apply bind_Ok in E as (reply & t3 & _ & E).
    apply bind_Ok in E as (m & t4 & _ & E). apply bind_Ok in E as ([[m' tot] rows] & t5 & E5 & E).
    injection E5 as E5 _. destruct (negb _); [done|]. apply bind_Ok in E as (? & t6 & _ & E).
    injection E as <- _. cbn. apply Forall_forall. intros row Hrow.
    destruct (settle_passes_rows _ _ _ _ _ _ _ _ E5 row Hrow) as [Hin|(? & p & Hp & ->)];
      [by apply elem_of_nil in Hin|]. split; [done|]. by apply Hps.
Qed.
End Settle.
