(* ===== verification/BlockSync.v ===== *)
(** * Synchronising blocks

    [usdb-indexer/src/index/indexer.rs], [InscriptionIndexer]: one block is collected, planned,
    executed, settled and committed across the three stores (the SQLite pass store, the energy
    store and the transfer tracker); a failure undoes what the block did.  The stores cannot share a
    transaction, so the code orders the commits and repairs each store on its own. *)

From S2P Require Import Prelude Types EnergyStorage Energy PassStorage PassLedger PassCommit Pass.
From S2P Require Import Tx Transfer Content BlockEvents BalanceLoader BalanceMonitor InscriptionSource.

(** What the indexer calls outside this crate: the block from the node, the block commit of
    balance-history, and the outcome of the two SQLite statements that close a block (the error
    SQLite reports, if any). *)
Class SyncEnv := {
  load_block_hint : u32 → result (option Block);
  get_block_commit : u32 → result (option BalanceHistoryBlockCommitInfo);
  synced_height_error : u32 → option string;
  savepoint_commit_error : u32 → option string
}.

(** ** The indexer *)

Record InscriptionIndexer := {
  miner_pass_manager : MinerPassManager;
  transfer_tracker : InscriptionTransferTracker
}.
Definition set_manager (m : MinerPassManager) (s : InscriptionIndexer) : InscriptionIndexer :=
  {| miner_pass_manager := m; transfer_tracker := transfer_tracker s |}.
Definition set_tracker (t : InscriptionTransferTracker) (s : InscriptionIndexer) : InscriptionIndexer :=
  {| miner_pass_manager := miner_pass_manager s; transfer_tracker := t |}.

(** Calls on the components. *)
Definition manager {A} (m : M MinerPassManager A) : M InscriptionIndexer A :=
  zoom miner_pass_manager set_manager m.
Definition tracker {A} (m : M InscriptionTransferTracker A) : M InscriptionIndexer A :=
  zoom transfer_tracker set_tracker m.
Definition storage {A} (m : M PassDb A) : M InscriptionIndexer A :=
  manager (zoom pm_storage set_pm_storage m).
Definition pass_tables {A} (m : M Tables A) : M InscriptionIndexer A := manager (store m).
Definition energy_manager {A} (m : M EnergyDb A) : M InscriptionIndexer A := manager (on_energy m).

Record CollectedMintItems := {
  valid_items : list InscriptionNewItem;
  invalid_items : list InvalidPassMintInscriptionInfo
}.

Section Sync.
Context `{BalanceProvider} `{IdText} `{ContentEnv} `{BitcoinNode} `{CommitHash} `{InscriptionSource}
  `{BalanceRpcLoader} `{SyncEnv}.

(** ** Collecting the mints of a block *)

(** The valid mints with what their reveal transactions create; a mint whose sat goes to no address
    ends the block. *)
Fixpoint valid_candidates (mints : list DiscoveredMint) :
    M InscriptionTransferTracker (list (DiscoveredMint * (InscriptionCreateInfo * USDBScriptHash))) :=
  match mints with
  | [] => ret []
  | mint :: mints =>
      let! create_info := calc_create_satpoint (dm_inscription_id mint) in
      match ci_address create_info with
      | None => fail "Inscription has no creator address"
      | Some address =>
          let! rest := valid_candidates mints in
          ret ((mint, (create_info, address)) :: rest)
      end
  end.

(** [reveal_input_to_inscriptions]: the mints of each reveal input. *)
Definition reveal_input_to_inscriptions
    (candidates : list (DiscoveredMint * (InscriptionCreateInfo * USDBScriptHash))) :
    gmap OutPoint (list InscriptionId) :=
  foldl (λ m c, <[ci_commit_outpoint c.2.1 :=
                    default [] (m !! ci_commit_outpoint c.2.1) ++ [dm_inscription_id c.1]]> m)
    ∅ candidates.

Definition ambiguous_item (mint : DiscoveredMint) (create_info : InscriptionCreateInfo)
    (address : USDBScriptHash) : InvalidPassMintInscriptionInfo :=
  {| ii_inscription_id := dm_inscription_id mint; ii_inscription_number := dm_inscription_number mint;
     ii_mint_txid := op_txid (outpoint (ci_satpoint create_info));
     ii_mint_block_height := dm_block_height mint; ii_mint_owner := address;
     ii_satpoint := ci_satpoint create_info;
     ii_error_code := error_code_as_str AmbiguousRevealInput;
     ii_error_reason := "Multiple usdb mints share the same reveal input outpoint" |}.
Definition new_item (mint : DiscoveredMint) (create_info : InscriptionCreateInfo)
    (address : USDBScriptHash) : InscriptionNewItem :=
  {| ni_inscription_id := dm_inscription_id mint; ni_inscription_number := dm_inscription_number mint;
     ni_block_height := dm_block_height mint; ni_timestamp := dm_timestamp mint;
     ni_address := address; ni_satpoint := ci_satpoint create_info; ni_value := ci_value create_info;
     ni_content_string := dm_content_string mint; ni_content := dm_content mint;
     ni_op := op (dm_content mint); ni_commit_txid := ci_commit_txid create_info |}.

(** The second loop: mints that share a reveal input become invalid ones. *)
Definition place_candidate (groups : gmap OutPoint (list InscriptionId)) (acc : CollectedMintItems)
    (c : DiscoveredMint * (InscriptionCreateInfo * USDBScriptHash)) : CollectedMintItems :=
  let '(mint, (create_info, address)) := c in
  let conflicted_inscriptions := default [] (groups !! ci_commit_outpoint create_info) in
  if (1 <? length conflicted_inscriptions)%nat
  then {| valid_items := valid_items acc;
          invalid_items := invalid_items acc ++ [ambiguous_item mint create_info address] |}
  else {| valid_items := valid_items acc ++ [new_item mint create_info address];
          invalid_items := invalid_items acc |}.

Fixpoint collect_invalid (mints : list DiscoveredInvalidMint) :
    M InscriptionTransferTracker (list InvalidPassMintInscriptionInfo) :=
  match mints with
  | [] => ret []
  | mint :: mints =>
      let! create_info := calc_create_satpoint (dv_inscription_id mint) in
      match ci_address create_info with
      | None => fail "Invalid inscription has no creator address"
      | Some address =>
          let! rest := collect_invalid mints in
          ret ({| ii_inscription_id := dv_inscription_id mint;
                  ii_inscription_number := dv_inscription_number mint;
                  ii_mint_txid := op_txid (outpoint (ci_satpoint create_info));
                  ii_mint_block_height := dv_block_height mint; ii_mint_owner := address;
                  ii_satpoint := ci_satpoint create_info;
                  ii_error_code := error_code_as_str (dv_error_code mint);
                  ii_error_reason := dv_error_reason mint |} :: rest)
      end
  end.

Definition collect_block_inscription_mints (block_height : u32) (block_hint : option Block) :
    M InscriptionTransferTracker CollectedMintItems :=
  let! discovered_batch := lift (load_block_mint_batch block_height block_hint) in
  if bool_decide (valid_mints discovered_batch = []) && bool_decide (invalid_mints discovered_batch = [])
  then ret {| valid_items := []; invalid_items := [] |}
  else
    let! candidates := valid_candidates (valid_mints discovered_batch) in
    let groups := reveal_input_to_inscriptions candidates in
    let placed :=
      foldl (place_candidate groups) {| valid_items := []; invalid_items := [] |} candidates in
    let! invalid := collect_invalid (invalid_mints discovered_batch) in
    ret {| valid_items := valid_items placed; invalid_items := invalid_items placed ++ invalid |}.

Definition build_transfer_track_seeds (mint_items : list InscriptionNewItem) : list TransferTrackSeed :=
  (λ item, {| ts_inscription_id := ni_inscription_id item; ts_owner := ni_address item;
              ts_satpoint := ni_satpoint item |}) <$> mint_items.

(** ** Recovery of a failed block *)

Definition merge_block_failure_with_recovery (original_error : string)
    (recovery_error : option string) (recovery_context : string) : string :=
  match recovery_error with
  | Some e => original_error ++ "; " ++ recovery_context ++ " failed: " ++ e
  | None => original_error
  end.

Definition recover_energy (block_height : u32) (energy_finalized : bool) : M InscriptionIndexer unit :=
  if energy_finalized then
    let! height := pass_tables get_synced_btc_block_height in
    energy_manager (rollback_to_pass_synced_height (default 0 height))
  else energy_manager (abort_pending_block_sync block_height).

Definition recover_failed_block_sync (block_height : u32) (transfer_staged energy_finalized : bool)
    (original_error : string) (s : InscriptionIndexer) : string * InscriptionIndexer :=
  let '(energy_recovery, s) := recover_energy block_height energy_finalized s in
  let msg := merge_block_failure_with_recovery original_error (result_err energy_recovery)
    (if energy_finalized then "energy rollback after finalized block failure"
     else "energy abort after pending block failure") in
  if negb transfer_staged then (msg, s)
  else
    let '(transfer_rollback, s) := tracker (rollback_staged_block block_height) s in
    (merge_block_failure_with_recovery msg (result_err transfer_rollback)
       "transfer rollback after block failure", s).

(** [Err(e) => return Err(self.recover_failed_block_sync(..))]. *)
Definition or_recover {A} (block_height : u32) (energy_finalized : bool) (m : M InscriptionIndexer A) :
    M InscriptionIndexer A := λ s,
  match m s with
  | (Err e, s) => let '(msg, s) := recover_failed_block_sync block_height true energy_finalized e s in
                  (Err msg, s)
  | out => out
  end.

(** The scope of an active [BlockMutationCollectionGuard]: leaving it other than by a successful
    [take] drops the guard, which empties the collector. *)
Definition with_collection_guard {A} (m : M InscriptionIndexer A) : M InscriptionIndexer A := λ s,
  match m s with
  | (Ok a, s) => (Ok a, s)
  | (r, s) => (r, (manager clear_block_mutation_collection s).2)
  end.

(** ** One block *)

Definition persist_pass_block_commit (block_height : u32) (collector : PassBlockMutationCollector) :
    M InscriptionIndexer unit :=
  let! found := lift (get_block_commit block_height) in
  let! upstream_commit :=
    lift (ok_or "Balance-history block commit is missing for synced block height" found) in
  let! prev_local_commit :=
    (if block_height =? 0 then ret None else pass_tables (get_pass_block_commit (block_height - 1))) in
  let! entry := lift (build_commit_entry collector upstream_commit prev_local_commit) in
  pass_tables (upsert_pass_block_commit entry).

(** The rows of the settlement that changed. *)
Definition apply_balance_row (block_height : u32) (row : ActivePassBalance) : M InscriptionIndexer unit :=
  if apb_delta row =? 0 then ret tt
  else
    let! _ := or_recover block_height false (energy_manager
                (apply_active_balance_change (apb_inscription_id row) (apb_owner row)
                   (apb_block_height row) (apb_balance row) (apb_delta row))) in
    ret tt.

(** The block up to the finalized energy and the collector of its mutations. *)
Definition sync_block_body (height : u32) : M InscriptionIndexer PassBlockMutationCollector :=
  let! block_hint := lift (load_block_hint height) in
  let! block := lift (ok_or "Missing required block hint" block_hint) in
  let! collected_mints := tracker (collect_block_inscription_mints height (Some block)) in
  let transfer_track_seeds := build_transfer_track_seeds (valid_items collected_mints) in
  let! transfer_items := tracker (process_block_with_hint height (Some block) transfer_track_seeds) in
  let! ordered_events :=
    or_recover height false (lift (plan block (valid_items collected_mints) transfer_items)) in
  let! _ := or_recover height false (manager (execute ordered_events)) in
  let! _ := or_recover height false (manager (process_invalid_mints (invalid_items collected_mints))) in
  let! balance_settlement :=
    or_recover height false (pass_tables (settle_active_balance_with_details height)) in
  let! _ := for_each (active_pass_balances balance_settlement) (apply_balance_row height) in
  let! _ := or_recover height false (energy_manager (finalize_block_sync height)) in
  or_recover height true (manager (take_block_mutation_collector height)).

Definition sync_block (height : u32) : M InscriptionIndexer unit :=
  let! _ := energy_manager (begin_block_sync height) in
  let! _ := manager (begin_block_mutation_collection height) in
  let! mutation_collector := with_collection_guard (sync_block_body height) in
  let! _ := or_recover height true (persist_pass_block_commit height mutation_collector) in
  or_recover height true (tracker (commit_staged_block height)).

(** ** A range of blocks *)

(** The scope of the savepoint guard of a block: an exit without commit drops it. *)
Definition with_savepoint {A} (m : M InscriptionIndexer A) : M InscriptionIndexer A := λ s,
  match m s with
  | (Ok a, s) => (Ok a, s)
  | (r, s) => (r, (storage savepoint_guard_drop s).2)
  end.

(** A closing statement of the block that SQLite may refuse; the energy store is then rolled back to
    the height it had before the block. *)
Definition closing_statement (durable_pass_synced_height : u32) (context : string)
    (error : option string) (m : M InscriptionIndexer unit) : M InscriptionIndexer unit := λ s,
  match error with
  | None => m s
  | Some e =>
      let '(recovery, s) :=
        energy_manager (rollback_to_pass_synced_height durable_pass_synced_height) s in
      (Err (merge_block_failure_with_recovery e (result_err recovery) context), s)
  end.

(** One round of the loop of [sync_blocks]. *)
Definition sync_height (height : u32) : M InscriptionIndexer unit :=
  let! synced := pass_tables get_synced_btc_block_height in
  let durable_pass_synced_height := default 0 synced in
  let! _ := storage savepoint_begin in
  with_savepoint
    (let! _ := sync_block height in
     let! _ := closing_statement durable_pass_synced_height
                 "energy rollback after synced-height update failure" (synced_height_error height)
                 (pass_tables (update_synced_btc_block_height height)) in
     closing_statement durable_pass_synced_height
       "energy rollback after sqlite savepoint failure" (savepoint_commit_error height)
       (storage savepoint_commit)).

Definition sync_blocks (first last : u32) : M InscriptionIndexer u32 :=
  let! _ := assert (first <=? last) "Block range should not be empty" in
  fold_m (heights first last) first (λ _ height, let! _ := sync_height height in ret height).
End Sync.

