(* ===== verification/BlockAtomicity.v ===== *)
(** * A block is synchronised entirely or not at all

    Theorems on [BlockSync]: what a failed block leaves behind, and what a synchronised one does. *)

From S2P Require Import Prelude Types EnergyFormula EnergyStorage Energy PassStorage PassLedger.
From S2P Require Import PassCommit Pass Tx Transfer Content BlockEvents BalanceLoader BalanceMonitor.
From S2P Require Import InscriptionSource BlockFrame BlockSync.

(** What the source promises: the mints it returns are of the block asked for, with identifiers of
    32-byte transaction ids and [u32] indices. *)
Class InscriptionSourceLaws `{InscriptionSource} := {
  batch_at_height h hint batch :
    load_block_mint_batch h hint = Ok batch →
    Forall (λ m, dm_block_height m = h ∧ wf_id (dm_inscription_id m)) (valid_mints batch)
    ∧ Forall (λ m, dv_block_height m = h ∧ wf_id (dv_inscription_id m)) (invalid_mints batch)
}.

(** ** Calls on the components *)

(** A routine that leaves the tracker alone, one that leaves the manager alone, and one that leaves
    the mutation collector alone. *)
Definition same_tracker (s s' : InscriptionIndexer) : Prop := transfer_tracker s' = transfer_tracker s.
Definition same_manager (s s' : InscriptionIndexer) : Prop := miner_pass_manager s' = miner_pass_manager s.
Definition collector (s : InscriptionIndexer) : option PassBlockMutationCollector :=
  pm_collector (miner_pass_manager s).
Definition same_collector (s s' : InscriptionIndexer) : Prop := collector s' = collector s.

#[export] Instance same_tracker_refl : Reflexive same_tracker.
Proof. done. Qed.
#[export] Instance same_tracker_trans : Transitive same_tracker.
Proof. intros a b c. unfold same_tracker. congruence. Qed.
#[export] Instance same_collector_refl : Reflexive same_collector.
Proof. done. Qed.
#[export] Instance same_collector_trans : Transitive same_collector.
Proof. intros a b c. unfold same_collector. congruence. Qed.

Lemma manager_same_tracker {A} (m : M MinerPassManager A) : moves same_tracker (manager m).
Proof. by intros s. Qed.
Lemma tracker_same_collector {A} (m : M InscriptionTransferTracker A) : moves same_collector (tracker m).
Proof. by intros s. Qed.
Lemma energy_same_collector {A} (m : M EnergyDb A) : moves same_collector (energy_manager m).
Proof. by intros s. Qed.
Lemma tables_same_collector {A} (m : M Tables A) : moves same_collector (pass_tables m).
Proof. by intros s. Qed.

(** A query leaves the indexer as it was. *)
Lemma pass_tables_pure {A} (m : M Tables A) s r :
  m (pm_tables (miner_pass_manager s)) = (r, pm_tables (miner_pass_manager s)) →
  pass_tables m s = (r, s).
Proof. unfold pass_tables, manager, store, zoom. intros E. cbn. rewrite E. by destruct s as [[[] ? ?] ?]. Qed.

Definition staged (s : InscriptionIndexer) : gmap u32 MultiMap := staged_blocks (transfer_tracker s).
Definition published (s : InscriptionIndexer) : MultiMap := inscriptions (transfer_tracker s).

Lemma preserves_for_each_in {S A} (I : S → Prop) (l : list A) body :
  (∀ x, x ∈ l → preserves I (body x)) → preserves I (for_each l body).
Proof.
  induction l as [|x l IH]; intros Hb; simpl; [apply preserves_ret|].
  apply preserves_bind; [apply Hb; by left|intros a]. apply IH. intros; apply Hb. by right.
Qed.

(** ** Collecting the mints changes only the value cache *)

Section Collect.
Context {BN : BitcoinNode} {CE : ContentEnv} {SRC : InscriptionSource}.

Lemma create_satpoint_moves i : moves only_utxo (calc_create_satpoint i).
Proof.
  unfold calc_create_satpoint. do 3 (apply moves_bind; [apply _|apply moves_lift, _|intros ?]).
  apply moves_bind; [apply _|apply with_utxo_moves|intros ?].
  apply moves_bind; [apply _|apply moves_lift, _|intros ?]. apply moves_ret, _.
Qed.

Lemma valid_candidates_moves l : moves only_utxo (valid_candidates l).
Proof.
  induction l as [|m l IH]; cbn [valid_candidates]; [apply moves_ret, _|].
  apply moves_bind; [apply _|apply create_satpoint_moves|intros ci].
  destruct (ci_address ci); [|apply moves_fail, _].
  apply moves_bind; [apply _|apply IH|intros ?]. apply moves_ret, _.
Qed.
Lemma collect_invalid_moves l : moves only_utxo (collect_invalid l).
Proof.
  induction l as [|m l IH]; cbn [collect_invalid]; [apply moves_ret, _|].
  apply moves_bind; [apply _|apply create_satpoint_moves|intros ci].
  destruct (ci_address ci); [|apply moves_fail, _].
  apply moves_bind; [apply _|apply IH|intros ?]. apply moves_ret, _.
Qed.
Lemma collect_mints_moves h hint : moves only_utxo (collect_block_inscription_mints h hint).
Proof.
  unfold collect_block_inscription_mints. apply moves_bind; [apply _|apply moves_lift, _|intros b].
  apply moves_if; [apply moves_ret, _|].
  apply moves_bind; [apply _|apply valid_candidates_moves|intros c].
  apply moves_bind; [apply _|apply collect_invalid_moves|intros i]. apply moves_ret, _.
Qed.

(** *** The collected items are those of the block *)

Context {SL : InscriptionSourceLaws}.

Definition new_item_ok (h : u32) (item : InscriptionNewItem) : Prop :=
  ni_block_height item = h ∧ wf_id (ni_inscription_id item).
Definition collected_ok (h : u32) (c : CollectedMintItems) : Prop :=
  Forall (new_item_ok h) (valid_items c) ∧ Forall (invalid_ok h) (invalid_items c).

Lemma valid_candidates_mints l s cs s' :
  valid_candidates l s = (Ok cs, s') → cs.*1 = l.
Proof.
  revert s cs s'. induction l as [|m l IH]; intros s cs s' E; cbn [valid_candidates] in E.
  - by injection E as <- _.
  - apply bind_Ok in E as (ci & s1 & _ & E). destruct (ci_address ci) as [a|]; [|done].
    apply bind_Ok in E as (rest & s2 & E2 & E). injection E as <- _. cbn. f_equal. by eapply IH.
Qed.

Lemma place_candidates_ok h groups cs acc :
  Forall (λ m, dm_block_height m = h ∧ wf_id (dm_inscription_id m)) cs.*1 → collected_ok h acc →
  collected_ok h (foldl (place_candidate groups) acc cs).
Proof.
  revert acc. induction cs as [|[m [ci a]] cs IH]; intros acc Hm Ha; [done|].
  apply Forall_cons in Hm as [[Eh W] Hm]. destruct Ha as [Hv Hi]. cbn [foldl]. apply IH; [done|].
  unfold place_candidate. destruct (_ <? _)%nat; split; cbn; try done;
    (apply Forall_app; split; [done|]; constructor; [by split|constructor]).
Qed.

Lemma collect_invalid_ok h l s r s' :
  Forall (λ m, dv_block_height m = h ∧ wf_id (dv_inscription_id m)) l →
  collect_invalid l s = (Ok r, s') → Forall (invalid_ok h) r.
Proof.
  revert s r s'. induction l as [|m l IH]; intros s r s' Hl E; cbn [collect_invalid] in E.
  - injection E as <- _. constructor.
  - apply Forall_cons in Hl as [[Eh W] Hl]. apply bind_Ok in E as (ci & s1 & _ & E).
    destruct (ci_address ci) as [a|]; [|done]. apply bind_Ok in E as (rest & s2 & E2 & E).
    injection E as <- _. constructor; [by split|by eapply IH].
Qed.

Lemma collect_mints_ok h hint s c s' :
  collect_block_inscription_mints h hint s = (Ok c, s') → collected_ok h c.
Proof.
  unfold collect_block_inscription_mints. intros (b & s1 & Eb & E)%bind_Ok. injection Eb as Eb <-.
  apply batch_at_height in Eb as [Hv Hi]. destruct (_ && _); [injection E as <- _; by split|].
  apply bind_Ok in E as (cs & s2 & E2 & E). apply bind_Ok in E as (inv & s3 & E3 & E).
  injection E as <- _. apply valid_candidates_mints in E2.
  destruct (place_candidates_ok h (reveal_input_to_inscriptions cs) cs
    {| valid_items := []; invalid_items := [] |}) as [H1 H2]; [by rewrite E2|by split|].
  split; [done|]. apply Forall_app. split; [done|]. by eapply collect_invalid_ok.
Qed.
End Collect.

(** ** The indexer between blocks *)

(** The synced height of the pass store, zero when no block has been synchronised. *)
Definition synced_height (t : Tables) : u32 :=
  match (get_synced_btc_block_height t).1 with Ok o => default 0 o | _ => 0 end.

Section Ready.
Context {BP : BalanceProvider}.

(** Ready for block [h]: the pass store, the energy store and the tracker are at height [h - 1],
    nothing is pending, and the balances of the active passes are settled. *)
Record ready (h : u32) (s : InscriptionIndexer) : Prop := {
  rd_height : 0 < h < U32_MAX;
  rd_synced : synced_height (pm_tables (miner_pass_manager s)) = h - 1;
  rd_ledger : ledger_ok (h - 1) (pm_tables (miner_pass_manager s));
  rd_ids : ∀ i, is_Some (t_passes (pm_tables (miner_pass_manager s)) !! i) → wf_id i;
  rd_records : ∀ k v, pass_energy_cf (pm_energy (miner_pass_manager s)) !! k = Some v → k.2 < h;
  rd_energy : wf_db (pm_energy (miner_pass_manager s)) ∧ max_marker_ok (pm_energy (miner_pass_manager s));
  rd_pending : meta_pending_block_height (pm_energy (miner_pass_manager s)) = None;
  rd_energy_synced : meta_synced_block_height (pm_energy (miner_pass_manager s)) = Some (h - 1);
  rd_settled : ∀ i, settles (pm_tables (miner_pass_manager s)) i →
    settled_pass h (pm_energy (miner_pass_manager s)) i;
  rd_collector : collector s = None;
  rd_staged : staged s = ∅
}.
End Ready.

(** ** The frame of the indexer during a block *)

Record sync_frame (h : u32) (s0 s : InscriptionIndexer) : Prop := {
  sf_manager : block_frame h (miner_pass_manager s0) (miner_pass_manager s);
  sf_published : published s = published s0
}.

Section Frame.
Context {BP : BalanceProvider} {Laws : BalanceProviderLaws} {IT : IdText} {CE : ContentEnv}
  {BN : BitcoinNode} {CH : CommitHash} {SRC : InscriptionSource} {SL : InscriptionSourceLaws}
  {LD : BalanceRpcLoader} {SE : SyncEnv}.
Context (h : u32) (s0 : InscriptionIndexer) (R : ready h s0).

Abbreviation m0 := (miner_pass_manager s0).
Abbreviation I := (sync_frame h s0).

Lemma frame_height : 0 < h < U32_MAX.
Proof. apply R. Qed.
Lemma frame_settled : ∀ i, settles (pm_tables m0) i → settled_pass h (pm_energy m0) i.
Proof. apply R. Qed.

(** The state that opens the savepoint is in the frame. *)
Lemma frame_start :
  let s1 := (storage savepoint_begin s0).2 in
  tables_frame h (pm_tables (miner_pass_manager s1)) (pm_tables (miner_pass_manager s1))
  ∧ energy_frame h (pm_energy m0) (pm_energy (miner_pass_manager s1)).
Proof.
  cbn. split; split; try done.
  - apply R.
  - apply (ledger_ok_weaken (h - 1)); [apply R|lia].
  - apply undoable_refl, R.
  - intros k v Hk. pose proof (rd_records _ _ R _ _ Hk). lia.
  - apply R.
  - apply R.
  - left. apply R.
  - left. apply R.
Qed.

Lemma sf_on_manager {A} (m : M MinerPassManager A) :
  preserves (block_frame h m0) m → preserves I (manager m).
Proof. intros Hm s [F1 F2]. split; [by apply Hm|done]. Qed.
Lemma sf_on_tables {A} (m : M Tables A) :
  preserves (tables_frame h (pm_tables m0)) m → preserves I (pass_tables m).
Proof. intros Hm. by apply sf_on_manager, bf_store. Qed.
Lemma sf_on_energy {A} (m : M EnergyDb A) :
  preserves (energy_frame h (pm_energy m0)) m → preserves I (energy_manager m).
Proof. intros Hm. by apply sf_on_manager, bf_on_energy. Qed.
Lemma sf_on_tracker {A} (m : M InscriptionTransferTracker A) :
  (∀ t, inscriptions (m t).2 = inscriptions t) → preserves I (tracker m).
Proof. intros Hm s [F1 F2]. split; [done|]. unfold published in *. cbn. by rewrite Hm. Qed.

(** *** Recovery *)

Lemma frame_synced t : tables_frame h (pm_tables m0) t →
  ∃ o, get_synced_btc_block_height t = (Ok o, t) ∧ default 0 o = h - 1.
Proof.
  intros F. pose proof (rd_synced _ _ R) as Hs. unfold synced_height in Hs.
  assert (get_synced_btc_block_height t
          = ((get_synced_btc_block_height (pm_tables m0)).1, t)) as E.
  { unfold get_synced_btc_block_height, get_numeric_state, bind, gets. rewrite (tf_state _ _ _ F).
    by repeat case_match. }
  rewrite E. unfold get_synced_btc_block_height, bind, get_numeric_state, gets, ret in *.
  destruct (t_state (pm_tables m0) !! _); cbn in *; eauto.
Qed.

Lemma sf_recover_energy fin : preserves I (recover_energy h fin).
Proof.
  unfold recover_energy. destruct fin.
  - intros s F. destruct (frame_synced _ (bf_tables _ _ _ (sf_manager _ _ _ F))) as (o & E & Ho).
    rewrite (bind_run _ _ _ _ _ (pass_tables_pure _ _ _ E)), Ho.
    revert s F E. intros s F _. revert s F.
    apply (sf_on_energy (rollback_to_pass_synced_height (h - 1))), frame_rollback, frame_height.
  - apply sf_on_energy, frame_abort, frame_height.
Qed.

Lemma sf_recover staged fin e s : I s → I (recover_failed_block_sync h staged fin e s).2.
Proof.
  intros F. unfold recover_failed_block_sync. pose proof (sf_recover_energy fin s F) as F1.
  destruct (recover_energy h fin s) as [r s1]. cbn in F1. destruct staged; cbn [negb]; [|done].
  assert (preserves I (tracker (rollback_staged_block h))) as Hp.
  { apply sf_on_tracker. intros t. unfold rollback_staged_block, bind, gets, modify, set_staged. cbn.
    by destruct (_ !! h). }
  specialize (Hp s1 F1). by destruct (tracker (rollback_staged_block h) s1) as [r2 s2].
Qed.

Lemma sf_or_recover {A} fin (m : M InscriptionIndexer A) :
  preserves I m → preserves I (or_recover h fin m).
Proof.
  intros Hm s F. specialize (Hm s F). unfold or_recover.
  destruct (m s) as [[a|e|e] s1]; cbn in *; [done| |done].
  pose proof (sf_recover true fin e s1 Hm). by destruct (recover_failed_block_sync h true fin e s1).
Qed.

Lemma sf_clear : preserves I (manager clear_block_mutation_collection).
Proof. apply sf_on_manager. by intros s [F1 F2 F3]. Qed.
Lemma sf_guard {A} (m : M InscriptionIndexer A) :
  preserves I m → preserves I (with_collection_guard m).
Proof.
  intros Hm s F. specialize (Hm s F). unfold with_collection_guard.
  destruct (m s) as [[a|e|e] s1]; cbn in *; [done|..]; by apply sf_clear.
Qed.

(** *** The stages of a block *)

Lemma sf_begin : preserves I (energy_manager (begin_block_sync h)).
Proof. apply sf_on_energy, frame_begin. Qed.
Lemma sf_begin_collection : preserves I (manager (begin_block_mutation_collection h)).
Proof.
  apply sf_on_manager. intros s [F1 F2 F3]. unfold begin_block_mutation_collection, bind, gets, modify.
  by destruct (pm_collector s).
Qed.
Lemma sf_take : preserves I (manager (take_block_mutation_collector h)).
Proof.
  apply sf_on_manager. intros s F. unfold take_block_mutation_collector, bind, gets, modify, lift.
  destruct (pm_collector s) as [c|]; cbn; [|by destruct F].
  destruct (negb _); by destruct F.
Qed.

Lemma sf_only_utxo {A} (m : M InscriptionTransferTracker A) : moves only_utxo m → preserves I (tracker m).
Proof. intros Hm. apply sf_on_tracker. intros t. apply Hm. Qed.
Lemma sf_process hint seeds : preserves I (tracker (process_block_with_hint h hint seeds)).
Proof.
  apply sf_on_tracker. intros t. pose proof (staging_run h hint seeds t) as Hs.
  by destruct (process_block_with_hint h hint seeds t) as [r t'] eqn:E; destruct Hs.
Qed.

(** The rows of the settlement are about passes of the table. *)
Lemma logged_wf t i : tables_frame h (pm_tables m0) t → logged t i → wf_id i.
Proof.
  intros F (r & Hr & <-). apply (tf_ids _ _ _ F).
  destruct (lk_event _ _ (tf_ledger _ _ _ F) r Hr) as (p & Hp & _). by rewrite Hp.
Qed.

Lemma sf_settle : preserves I (pass_tables (settle_active_balance_with_details h)).
Proof. apply sf_on_tables, settlement_rows. Qed.

Lemma sf_apply_row row :
  wf_id (apb_inscription_id row) → apb_block_height row = h → preserves I (apply_balance_row h row).
Proof.
  intros W E. unfold apply_balance_row. rewrite E. apply preserves_if; [apply preserves_ret|].
  apply preserves_bind; [|intros _; apply preserves_ret].
  by apply sf_or_recover, sf_on_energy, frame_apply; [apply frame_height|].
Qed.

Lemma sf_persist c : block_height c = h → preserves I (persist_pass_block_commit h c).
Proof.
  intros Ec. unfold persist_pass_block_commit. apply preserves_bind; [apply preserves_lift|intros found].
  apply preserves_bind; [apply preserves_lift|intros upstream].
  apply preserves_bind.
  { apply preserves_if; [apply preserves_ret|]. apply sf_on_tables, preserves_gets. }
  intros prev. intros s F. unfold bind, lift.
  destruct (build_commit_entry c upstream prev) as [e|?|?] eqn:E; [|done..].
  unfold build_commit_entry in E. destruct (negb _); [done|]. injection E as <-. apply (sf_on_tables (upsert_pass_block_commit _)); [|done].
  by apply tables_frame_commit.
Qed.

(** The items found and moved in the block give events of the block. *)
Lemma planned_events_ok block c items evs :
  collected_ok h c → Forall (transfer_in h block) items →
  plan block (valid_items c) items = Ok evs → Forall (event_ok h) evs.
Proof.
  intros [Hv _] Ht E. apply plan_Permutation in E. rewrite E. unfold all_events.
  apply Forall_app. split; apply Forall_fmap; (eapply Forall_impl; [eassumption|]).
  - by intros m [Eh W].
  - by intros it [Eh _].
Qed.

Lemma or_recover_Ok {A} fin (m : M InscriptionIndexer A) s a s' :
  or_recover h fin m s = (Ok a, s') ↔ m s = (Ok a, s').
Proof.
  unfold or_recover. destruct (m s) as [[?|e|?] s1]; [done| |done].
  by destruct (recover_failed_block_sync h true fin e s1).
Qed.

Lemma sf_body : preserves I (sync_block_body h).
Proof.
  unfold sync_block_body. apply preserves_bind; [apply preserves_lift|intros hint].
  apply preserves_bind; [apply preserves_lift|intros block].
  apply preserves_bind_val; [apply sf_only_utxo, collect_mints_moves|intros s1 c s1' _ E1].
  apply zoom_Ok in E1 as (t1 & E1 & _). apply collect_mints_ok in E1.
  apply preserves_bind_val; [apply sf_process|intros s2 items s2' _ E2].
  apply zoom_Ok in E2 as (t2 & E2 & _). apply (processed_transfers_in _ _ _ _ _ _ block) in E2; [|done].
  apply preserves_bind_val; [apply sf_or_recover, preserves_lift|intros s3 evs s3' _ E3].
  apply or_recover_Ok in E3. injection E3 as E3 _. apply (planned_events_ok block c items) in E3; [|done..].
  apply preserves_bind; [|intros _].
  { apply sf_or_recover, sf_on_manager, bf_execute; [apply frame_height|apply frame_settled|done]. }
  apply preserves_bind; [|intros _].
  { apply sf_or_recover, sf_on_manager, bf_process_invalid, E1. }
  apply preserves_bind_val; [apply sf_or_recover, sf_settle|intros s4 st s4' F4 E4].
  apply or_recover_Ok in E4. apply zoom_Ok in E4 as (m4 & E4 & _). apply zoom_Ok in E4 as (t4 & E4 & _).
  apply (proj2 (settlement_rows h (pm_tables m0))) in E4. rewrite Forall_forall in E4.
  apply preserves_bind; [|intros _].
  { apply preserves_for_each_in. intros row Hrow. destruct (E4 row Hrow) as [Eh Hl].
    apply sf_apply_row; [|done]. eapply logged_wf; [|exact Hl]. apply F4. }
  apply preserves_bind; [apply sf_or_recover, sf_on_energy, frame_finalize|intros _].
  apply sf_or_recover, sf_take.
Qed.

Lemma body_collector s c s' : sync_block_body h s = (Ok c, s') → block_height c = h.
Proof.
  unfold sync_block_body. intros E. do 10 (apply bind_Ok in E as (? & ? & _ & E)).
  apply or_recover_Ok, zoom_Ok in E as (m & E & _). unfold take_block_mutation_collector in E.
  do 3 (apply bind_Ok in E as (? & ? & _ & E)). destruct (_ =? h) eqn:Eh; [|done].
  b2p. by injection E as <- _.
Qed.

(** Everything of a block but the publication of the staged map. *)
Definition sync_block_unpublished (height : u32) : M InscriptionIndexer unit :=
  let! _ := energy_manager (begin_block_sync height) in
  let! _ := manager (begin_block_mutation_collection height) in
  let! mutation_collector := with_collection_guard (sync_block_body height) in
  or_recover height true (persist_pass_block_commit height mutation_collector).

Lemma sync_block_split s :
  sync_block h s
  = bind (sync_block_unpublished h) (λ _, or_recover h true (tracker (commit_staged_block h))) s.
Proof.
  unfold sync_block, sync_block_unpublished, bind.
  destruct (energy_manager _ s) as [[?|?|?] s1]; [|done..].
  destruct (manager _ s1) as [[?|?|?] s2]; [|done..].
  by destruct (with_collection_guard _ s2) as [[?|?|?] s3].
Qed.

Lemma sf_unpublished : preserves I (sync_block_unpublished h).
Proof.
  unfold sync_block_unpublished. apply preserves_bind; [apply sf_begin|intros _].
  apply preserves_bind; [apply sf_begin_collection|intros _].
  apply preserves_bind_val; [apply sf_guard, sf_body|intros s c s1 _ E].
  apply sf_or_recover, sf_persist. unfold with_collection_guard in E.
  destruct (sync_block_body h s) as [[?|?|?] s2] eqn:Eb; [|done..]. injection E as -> ->.
  by eapply body_collector.
Qed.
End Frame.

(** ** The collector and the staged map of a block *)

Section Stages.
Context {BP : BalanceProvider} {IT : IdText} {CE : ContentEnv} {BN : BitcoinNode} {CH : CommitHash}
  {SRC : InscriptionSource} {LD : BalanceRpcLoader} {SE : SyncEnv}.
Context (h : u32).

Lemma recover_energy_tracker fin : moves same_tracker (recover_energy h fin).
Proof.
  unfold recover_energy. destruct fin; [|apply manager_same_tracker].
  apply moves_bind; [apply _|apply manager_same_tracker|intros o]. apply manager_same_tracker.
Qed.
Lemma recover_energy_collector fin : moves same_collector (recover_energy h fin).
Proof.
  unfold recover_energy. destruct fin; [|apply energy_same_collector].
  apply moves_bind; [apply _|apply tables_same_collector|intros o]. apply energy_same_collector.
Qed.
Lemma or_recover_collector {A} fin (m : M InscriptionIndexer A) :
  moves same_collector m → moves same_collector (or_recover h fin m).
Proof.
  intros Hm s. specialize (Hm s). unfold or_recover. destruct (m s) as [[a|e|e] s1]; [done| |done].
  unfold recover_failed_block_sync. pose proof (recover_energy_collector fin s1) as H1.
  destruct (recover_energy h fin s1) as [r s2]. cbn [negb].
  pose proof (tracker_same_collector (rollback_staged_block h) s2) as H2.
  destruct (tracker (rollback_staged_block h) s2) as [r2 s3]. cbn in *.
  etransitivity; [exact Hm|]. by etransitivity.
Qed.

(** A block leaves no collector behind, however it ends. *)
Lemma sync_block_collector s : collector s = None → collector (sync_block h s).2 = None.
Proof.
  intros Hc. unfold sync_block, bind. pose proof (energy_same_collector (begin_block_sync h) s) as H1.
  unfold same_collector in H1. rewrite Hc in H1.
  destruct (energy_manager (begin_block_sync h) s) as [[?|?|?] s1]; cbn in H1; [|done..].
  assert (∃ s2, manager (begin_block_mutation_collection h) s1 = (Ok tt, s2)) as [s2 ->].
  { unfold manager, zoom, begin_block_mutation_collection, bind, gets.
    unfold collector in H1. rewrite H1. cbn. eauto. }
  assert (collector (with_collection_guard (sync_block_body h) s2).2 = None) as H3.
  { unfold with_collection_guard. destruct (sync_block_body h s2) as [[c|?|?] s3] eqn:E; [|done..].
    unfold sync_block_body in E. do 10 (apply bind_Ok in E as (? & ? & _ & E)).
    apply or_recover_Ok, zoom_Ok in E as (m & E & ->). unfold take_block_mutation_collector in E.
    do 3 (apply bind_Ok in E as (? & ? & ? & E)). destruct (negb _); [done|]. injection E as _ <-.
    unfold gets, modify, lift in *. by simplify_eq/=. }
  destruct (with_collection_guard _ s2) as [[c|?|?] s3]; cbn in H3; [|done..].
  assert (moves same_collector (or_recover h true (persist_pass_block_commit h c))) as Hp.
  { apply or_recover_collector. unfold persist_pass_block_commit.
    do 2 (apply moves_bind; [apply _|apply moves_lift, _|intros ?]).
    apply moves_bind; [apply _|apply moves_if; [apply moves_ret, _|apply tables_same_collector]|intros prev].
    apply moves_bind; [apply _|apply moves_lift, _|intros e]. apply tables_same_collector. }
  specialize (Hp s3). unfold same_collector in Hp. rewrite H3 in Hp.
  destruct (or_recover h true (persist_pass_block_commit h c) s3) as [[?|?|?] s4]; cbn in Hp; [|done..].
  pose proof (or_recover_collector true (tracker (commit_staged_block h))
    (tracker_same_collector _) s4) as H4. unfold same_collector in H4. congruence.
Qed.

Definition staged_none (s : InscriptionIndexer) : Prop := staged s = ∅.
Definition staged_one (s : InscriptionIndexer) : Prop := ∃ w, staged s = {[h := w]}.

Lemma same_tracker_none {A} (m : M InscriptionIndexer A) :
  moves same_tracker m → triple staged_none m (λ _, staged_none) staged_none.
Proof.
  intros Hm s Hs. specialize (Hm s). unfold staged_none, staged, same_tracker in *.
  destruct (m s) as [[?|?|?] s1]; cbn in Hm; [| |done]; by rewrite Hm.
Qed.

(** Once the block is staged, a failing step drops it. *)
Lemma or_recover_staged {A} fin (m : M InscriptionIndexer A) :
  moves same_tracker m → triple staged_one (or_recover h fin m) (λ _, staged_one) staged_none.
Proof.
  intros Hm s [w Hw]. specialize (Hm s). unfold same_tracker, or_recover in *.
  destruct (m s) as [[a|e|e] s1]; cbn in Hm; [exists w; unfold staged; by rewrite Hm| |done].
  unfold recover_failed_block_sync. pose proof (recover_energy_tracker fin s1) as H1.
  unfold same_tracker in H1. destruct (recover_energy h fin s1) as [r s2]. cbn [negb]. cbn in H1.
  unfold tracker, zoom. rewrite H1, Hm. unfold staged in Hw.
  unfold rollback_staged_block, bind, gets, modify, set_staged. cbn. rewrite Hw, lookup_singleton_eq. cbn.
  unfold staged_none, staged. cbn. by rewrite delete_singleton_eq.
Qed.

Lemma lift_tracker {A} (r : result A) : moves same_tracker (lift r).
Proof. by intros s. Qed.

Lemma body_staged : triple staged_none (sync_block_body h) (λ _, staged_one) staged_none.
Proof.
  unfold sync_block_body.
  eapply triple_bind; [apply same_tracker_none, lift_tracker|intros hint].
  eapply triple_bind; [apply same_tracker_none, lift_tracker|intros block].
  eapply (triple_bind _ _ (λ _, staged_none)); [|intros c].
  { intros s Hs. pose proof (collect_mints_moves h (Some block) (transfer_tracker s)) as [_ Hm].
    unfold tracker, zoom, staged_none, staged in *.
    destruct (collect_block_inscription_mints _ _ _) as [[?|?|?] t]; cbn in *; [| |done]; by rewrite Hm. }
  eapply (triple_bind _ _ (λ _, staged_one)); [|intros items].
  { intros s Hs. set (seeds := build_transfer_track_seeds _).
    pose proof (staging_run h (Some block) seeds (transfer_tracker s)) as Hm.
    unfold tracker, zoom, staged_none, staged_one, staged in *.
    destruct (process_block_with_hint _ _ _ _) as [[?|?|?] t]; cbn in *; [| |done].
    - destruct Hm as (_ & _ & w & Hw & _). by exists w.
    - destruct Hm as [_ ->]. done. }
  do 4 (eapply triple_bind; [apply or_recover_staged; first [apply lift_tracker|apply manager_same_tracker]|
    intros ?]).
  eapply triple_bind.
  { apply triple_for_each. intros row _. unfold apply_balance_row. destruct (_ =? 0); [by intros s|].
    eapply triple_bind; [apply or_recover_staged, manager_same_tracker|intros ?]. by intros s. }
  intros u. eapply triple_bind; [apply or_recover_staged, manager_same_tracker|intros ?].
  apply or_recover_staged, manager_same_tracker.
Qed.

Lemma unpublished_staged : triple staged_none (sync_block_unpublished h) (λ _, staged_one) staged_none.
Proof.
  unfold sync_block_unpublished.
  eapply triple_bind; [apply same_tracker_none, manager_same_tracker|intros ?].
  eapply triple_bind; [apply same_tracker_none, manager_same_tracker|intros ?].
  eapply (triple_bind _ _ (λ _, staged_one)).
  { intros s Hs. pose proof (body_staged s Hs) as Hb. unfold with_collection_guard.
    by destruct (sync_block_body h s) as [[?|?|?] s1]. }
  intros c. apply or_recover_staged. unfold persist_pass_block_commit.
  do 2 (apply moves_bind; [apply _|apply moves_lift, _|intros ?]).
  apply moves_bind; [apply _|apply moves_if; [apply moves_ret, _|apply manager_same_tracker]|intros prev].
  apply moves_bind; [apply _|apply moves_lift, _|intros e]. apply manager_same_tracker.
Qed.

(** Publishing a staged block succeeds. *)
Lemma commit_staged_run s w :
  staged s = {[h := w]} →
  or_recover h true (tracker (commit_staged_block h)) s
  = (Ok tt, set_tracker {| inscriptions := w; staged_blocks := ∅;
                           utxo_manager := utxo_manager (transfer_tracker s) |} s).
Proof.
  intros Hw. unfold or_recover, tracker, zoom, commit_staged_block, bind, gets, lift, modify.
  unfold staged in Hw. rewrite Hw, lookup_singleton_eq. cbn.
  unfold set_staged, set_inscriptions. cbn. by rewrite delete_singleton_eq.
Qed.
End Stages.

(** ** The outcome of a block *)

Section Outcome.
Context {BP : BalanceProvider} {Laws : BalanceProviderLaws} {IT : IdText} {CE : ContentEnv}
  {BN : BitcoinNode} {CH : CommitHash} {SRC : InscriptionSource} {SL : InscriptionSourceLaws}
  {LD : BalanceRpcLoader} {SE : SyncEnv}.

Lemma ready_savepoint h s : ready h s → ready h (storage savepoint_begin s).2.
Proof. by intros []. Qed.

Lemma sync_block_outcome h s :
  ready h s →
  let '(r, s') := sync_block h s in
  match r with
  | Ok _ => ∃ s1 w, sync_block_unpublished h s = (Ok tt, s1) ∧ sync_frame h s s1
      ∧ staged s1 = {[h := w]}
      ∧ s' = set_tracker {| inscriptions := w; staged_blocks := ∅;
                            utxo_manager := utxo_manager (transfer_tracker s1) |} s1
  | Err _ => sync_frame h s s' ∧ staged s' = ∅
  | Panic _ => sync_frame h s s'
  end.
Proof.
  intros R. rewrite sync_block_split. unfold bind.
  assert (sync_frame h s s) as F0.
  { destruct (frame_start h s R) as [Ft Fe]. split; [|done]. split; [|done|done].
    by destruct Ft. }
  pose proof (sf_unpublished h s R s F0) as F.
  pose proof (unpublished_staged h s (rd_staged _ _ R)) as Hst.
  destruct (sync_block_unpublished h s) as [[[]|e|e] s1]; cbn in F; [|done..].
  destruct Hst as [w Hw]. rewrite (commit_staged_run h s1 w Hw). by exists s1, w.
Qed.

(** A block is a sequence of statements, however it ends. *)
Lemma block_statements h s :
  ready h s →
  rtc (pass_statement h) (pm_tables (miner_pass_manager s)) (pm_tables (miner_pass_manager (sync_block h s).2))
  ∧ rtc (energy_statement h) (pm_energy (miner_pass_manager s)) (pm_energy (miner_pass_manager (sync_block h s).2)).
Proof.
  intros R. pose proof (sync_block_outcome h s R) as Ho.
  assert (∀ s', sync_frame h s s' →
    rtc (pass_statement h) (pm_tables (miner_pass_manager s)) (pm_tables (miner_pass_manager s'))
    ∧ rtc (energy_statement h) (pm_energy (miner_pass_manager s)) (pm_energy (miner_pass_manager s'))) as H.
  { intros s' [[Ft _ Fe] _]. split; [exact (tf_written _ _ _ Ft)|exact (ef_written _ _ _ Fe)]. }
  destruct (sync_block h s) as [[[]|e|e] s']; cbn.
  - destruct Ho as (s1 & w & _ & F & _ & ->). exact (H _ F).
  - exact (H _ (proj1 Ho)).
  - exact (H _ Ho).
Qed.

(** The guard of the savepoint restores the pass store. *)
Lemma savepoint_restored s s' :
  savepoints (pm_storage (miner_pass_manager s'))
  = savepoints (pm_storage (miner_pass_manager (storage savepoint_begin s).2)) →
  pm_storage (miner_pass_manager (storage savepoint_guard_drop s').2) = pm_storage (miner_pass_manager s)
  ∧ transfer_tracker (storage savepoint_guard_drop s').2 = transfer_tracker s'
  ∧ pm_energy (miner_pass_manager (storage savepoint_guard_drop s').2) = pm_energy (miner_pass_manager s')
  ∧ collector (storage savepoint_guard_drop s').2 = collector s'.
Proof.
  intros Hsp. cbn in Hsp. unfold storage, manager, zoom. cbn. split_and!; try done.
  unfold savepoint_guard_drop, bind, try, savepoint_rollback, savepoint_commit. rewrite Hsp. cbn.
  by destruct (pm_storage (miner_pass_manager s)).
Qed.

(** What is left of a block that the guard has undone: the stores of before, the energy store as far
    as the next reconciliation. *)
Definition undone (h : u32) (s s' : InscriptionIndexer) : Prop :=
  pm_storage (miner_pass_manager s') = pm_storage (miner_pass_manager s)
  ∧ collector s' = None
  ∧ ∃ db, reconcile_with_pass_synced_height (h - 1) (pm_energy (miner_pass_manager s')) = (Ok tt, db)
      ∧ pass_energy_cf db = pass_energy_cf (pm_energy (miner_pass_manager s))
      ∧ meta_pending_block_height db = None ∧ meta_synced_block_height db = Some (h - 1)
      ∧ wf_db db ∧ max_marker_ok db.

Lemma guard_undoes h s s2 :
  ready h s →
  savepoints (pm_storage (miner_pass_manager s2))
  = savepoints (pm_storage (miner_pass_manager (storage savepoint_begin s).2)) →
  energy_frame h (pm_energy (miner_pass_manager s)) (pm_energy (miner_pass_manager s2)) →
  collector s2 = None →
  undone h s (storage savepoint_guard_drop s2).2
  ∧ transfer_tracker (storage savepoint_guard_drop s2).2 = transfer_tracker s2.
Proof.
  intros R Hsp Fe Hc. destruct (savepoint_restored s s2 Hsp) as (H1 & H2 & H3 & H4).
  split; [|done]. unfold undone. rewrite H1, H3, H4. split_and!; [done..|].
  destruct (frame_reconciles h (pm_energy (miner_pass_manager s)) (rd_height _ _ R)
    (pm_energy (miner_pass_manager s2))) as (db & ? & ? & ? & ? & ? & ?); [done|apply R|]. by exists db.
Qed.

(** A closing statement that is refused rolls the energy store back. *)
Lemma closing_refused_run h db0 context e m s2 :
  0 < h < U32_MAX → energy_frame h db0 (pm_energy (miner_pass_manager s2)) →
  ∃ msg s3, closing_statement (h - 1) context (Some e) m s2 = (Err msg, s3)
    ∧ energy_frame h db0 (pm_energy (miner_pass_manager s3))
    ∧ pm_storage (miner_pass_manager s3) = pm_storage (miner_pass_manager s2)
    ∧ collector s3 = collector s2 ∧ transfer_tracker s3 = transfer_tracker s2.
Proof.
  intros Hh F. unfold closing_statement.
  pose proof (frame_rollback h db0 Hh (pm_energy (miner_pass_manager s2)) F) as F'.
  unfold energy_manager, manager, on_energy, zoom. destruct (rollback_to_pass_synced_height _ _) as [r db].
  do 2 eexists. split; [done|]. by split_and!.
Qed.

(** SQLite refuses a statement that closes the block. *)
Definition closing_refused `{SyncEnv} (h : u32) : Prop :=
  is_Some (synced_height_error h) ∨ is_Some (savepoint_commit_error h).

(** The end of a block that was published. *)
Lemma closing_facts h s s2 r s' :
  ready h s →
  energy_frame h (pm_energy (miner_pass_manager s)) (pm_energy (miner_pass_manager s2)) →
  savepoints (pm_storage (miner_pass_manager s2))
  = savepoints (pm_storage (miner_pass_manager (storage savepoint_begin s).2)) →
  collector s2 = None →
  with_savepoint
    (let! _ := closing_statement (h - 1) "energy rollback after synced-height update failure"
                 (synced_height_error h) (pass_tables (update_synced_btc_block_height h)) in
     closing_statement (h - 1) "energy rollback after sqlite savepoint failure" (savepoint_commit_error h)
       (storage savepoint_commit)) s2 = (r, s') →
  is_ok r = false →
  closing_refused h ∧ undone h s s' ∧ transfer_tracker s' = transfer_tracker s2.
Proof.
  intros R Fe Hsp Hc E Hr. pose proof (rd_height _ _ R) as Hh. unfold with_savepoint, bind in E.
  destruct (synced_height_error h) as [e|] eqn:E1.
  - destruct (closing_refused_run h _ "energy rollback after synced-height update failure" e
      (pass_tables (update_synced_btc_block_height h)) s2 Hh Fe) as (msg & s3 & Er & F3 & Hs3 & Hc3 & Ht3).
    rewrite Er in E. injection E as _ <-. split; [left; by rewrite E1|].
    destruct (guard_undoes h s s3 R) as [U Et]; [by rewrite Hs3|done|congruence|].
    split; [exact U|exact (eq_trans Et Ht3)].
  - cbn [closing_statement] in E.
    set (s3 := (pass_tables (update_synced_btc_block_height h) s2).2) in *.
    replace (pass_tables (update_synced_btc_block_height h) s2) with (Ok tt, s3) in E by done.
    destruct (savepoint_commit_error h) as [e|] eqn:E2.
    + destruct (closing_refused_run h (pm_energy (miner_pass_manager s)) "energy rollback after sqlite savepoint failure" e
        (storage savepoint_commit) s3 Hh Fe) as (msg & s4 & Er & F4 & Hs4 & Hc4 & Ht4).
      rewrite Er in E. injection E as _ <-. split; [right; by rewrite E2|].
      destruct (guard_undoes h s s4 R) as [U Et]; [by rewrite Hs4|done|by rewrite Hc4|].
      split; [exact U|exact (eq_trans Et Ht4)].
    + exfalso. unfold storage, manager, zoom in E. cbn in E. unfold savepoint_commit in E. cbn in E.
      rewrite Hsp in E. cbn in E. by injection E as <- _.
Qed.

Lemma failed_block_facts h s r s' :
  ready h s → sync_height h s = (r, s') → is_ok r = false →
  undone h s s'
  ∧ (∀ e, r = Err e → staged s' = ∅)
  ∧ (published s' = published s
     ∨ closing_refused h
       ∧ ∃ s2, sync_block h (storage savepoint_begin s).2 = (Ok tt, s2) ∧ published s' = published s2).
Proof.
  intros R E Hr. unfold sync_height in E.
  destruct (frame_synced h s R (pm_tables (miner_pass_manager s))) as (o & Eo & Ho).
  { destruct (frame_start h s R) as [Ft _]. exact Ft. }
  rewrite (bind_run _ _ _ _ _ (pass_tables_pure _ s _ Eo)), Ho in E.
  rewrite (bind_run _ _ s tt (storage savepoint_begin s).2) in E by done.
  set (s1 := (storage savepoint_begin s).2) in *.
  pose proof (ready_savepoint h s R) as R1. fold s1 in R1.
  pose proof (sync_block_outcome h s1 R1) as Hout. pose proof (sync_block_collector h s1 (rd_collector _ _ R1)) as Hc.
  unfold with_savepoint, bind in E. destruct (sync_block h s1) as [rb s2] eqn:Eb. cbn in Hc.
  destruct rb as [[]|e|e].
  - destruct Hout as (s3 & w & _ & [[_ Hsp Fe] _] & Hw & E2).
    destruct (closing_facts h s s2 r s') as (Hcl & U & Et); [done|by rewrite E2|by rewrite E2|done|exact E|done|].
    split_and!; [done| |].
    + intros e _. unfold staged. rewrite Et, E2. done.
    + right. split; [done|]. exists s2. split; [done|]. unfold published. by rewrite Et.
  - destruct Hout as [[[_ Hsp Fe] Hp] Hst].
    destruct (guard_undoes h s s2 R Hsp Fe Hc) as [U Et]. injection E as <- <-.
    split_and!; [exact U|intros _ _; exact (eq_trans (f_equal staged_blocks Et) Hst)|].
    left. exact (eq_trans (f_equal inscriptions Et) Hp).
  - destruct Hout as [[_ Hsp Fe] Hp].
    destruct (guard_undoes h s s2 R Hsp Fe Hc) as [U Et]. injection E as <- <-.
    split_and!; [exact U|done|]. left. exact (eq_trans (f_equal inscriptions Et) Hp).
Qed.


(** *** What a synchronised block has written *)

Lemma apply_rows_tables h rows s :
  pm_tables (miner_pass_manager (for_each rows (apply_balance_row h) s).2)
  = pm_tables (miner_pass_manager s) ∨ is_ok (for_each rows (apply_balance_row h) s).1 = false.
Proof.
  destruct (for_each rows (apply_balance_row h) s) as [r s'] eqn:E. cbn.
  destruct r as [[]|?|?]; [left|by right..]. revert s E. induction rows as [|row rows IH]; intros s E.
  - by injection E as <-.
  - cbn [for_each] in E. apply bind_Ok in E as ([] & s1 & E1 & E). rewrite (IH _ E).
    unfold apply_balance_row in E1. destruct (_ =? 0); [by injection E1 as <-|].
    apply bind_Ok in E1 as (b & s2 & E1 & E2). injection E2 as <-.
    apply or_recover_Ok, zoom_Ok in E1 as (m & E1 & ->). by apply zoom_Ok in E1 as (db & _ & ->).
Qed.

Lemma body_writes h s c s' :
  sync_block_body h s = (Ok c, s') →
  meta_pending_block_height (pm_energy (miner_pass_manager s')) = None
  ∧ meta_synced_block_height (pm_energy (miner_pass_manager s')) = Some h
  ∧ is_Some (t_balances (pm_tables (miner_pass_manager s')) !! h).
Proof.
  unfold sync_block_body. intros E. do 7 (apply bind_Ok in E as (? & ? & _ & E)).
  apply bind_Ok in E as (st & s1 & E1 & E). apply or_recover_Ok in E1.
  apply zoom_Ok in E1 as (m1 & E1 & ->). apply zoom_Ok in E1 as (t1 & E1 & ->).
  assert (is_Some (t_balances t1 !! h)) as Hb.
  { unfold settle_active_balance_with_details in E1. do 5 (apply bind_Ok in E1 as (? & ? & _ & E1)).
    apply bind_Ok in E1 as ([[? ?] ?] & ? & _ & E1). destruct (negb _); [done|]. apply bind_Ok in E1 as (? & ? & E2 & E1).
    injection E1 as _ <-. injection E2 as _ <-. cbn. rewrite lookup_insert_eq. eauto. }
  apply bind_Ok in E as ([] & s2 & E2 & E).
  match type of E2 with for_each ?rows _ ?s = _ => destruct (apply_rows_tables h rows s) as [Ht|Ht] end;
    rewrite E2 in Ht; [|done]. cbn in Ht.
  apply bind_Ok in E as ([] & s3 & E3 & E). apply or_recover_Ok in E3.
  apply zoom_Ok in E3 as (m3 & E3 & ->). apply zoom_Ok in E3 as (db & E3 & ->).
  apply or_recover_Ok, zoom_Ok in E as (m4 & E & ->).
  assert (pm_energy m4 = db ∧ pm_tables m4 = pm_tables (miner_pass_manager s2)) as [Em Et].
  { unfold take_block_mutation_collector in E. do 3 (apply bind_Ok in E as (? & ? & ? & E)).
    destruct (negb _); [done|]. injection E as _ <-. unfold gets, modify, lift in *. by simplify_eq/=. }
  cbn [miner_pass_manager set_manager]. rewrite Em, Et, Ht. split_and!; [| |done].
  - unfold finalize_block_sync in E3. apply bind_Ok in E3 as (? & ? & _ & E3). destruct (negb _); [done|].
    by injection E3 as <-.
  - unfold finalize_block_sync in E3. apply bind_Ok in E3 as (? & ? & _ & E3). destruct (negb _); [done|].
    by injection E3 as <-.
Qed.

Lemma persist_writes h c s s' :
  block_height c = h → or_recover h true (persist_pass_block_commit h c) s = (Ok tt, s') →
  miner_pass_manager s' = set_pm_tables (pm_tables (miner_pass_manager s')) (miner_pass_manager s)
  ∧ (t_passes (pm_tables (miner_pass_manager s')) = t_passes (pm_tables (miner_pass_manager s))
     ∧ t_history (pm_tables (miner_pass_manager s')) = t_history (pm_tables (miner_pass_manager s)))
  ∧ t_balances (pm_tables (miner_pass_manager s')) = t_balances (pm_tables (miner_pass_manager s))
  ∧ ∃ u e, get_block_commit h = Ok (Some u) ∧ bc_block_height u = h
      ∧ build_commit_entry c u (if h =? 0 then None else t_commits (pm_tables (miner_pass_manager s)) !! (h - 1)) = Ok e
      ∧ t_commits (pm_tables (miner_pass_manager s')) = <[h := e]> (t_commits (pm_tables (miner_pass_manager s))).
Proof.
  intros Ec E. apply or_recover_Ok in E. unfold persist_pass_block_commit in E.
  apply bind_Ok in E as (found & s1 & E1 & E). injection E1 as E1 <-.
  apply bind_Ok in E as (u & s1 & E2 & E). destruct found as [u'|]; [|done]. injection E2 as -> <-.
  apply bind_Ok in E as (prev & s2 & E3 & E).
  assert (s2 = s ∧ prev = if h =? 0 then None else t_commits (pm_tables (miner_pass_manager s)) !! (h - 1))
    as [-> Ep].
  { destruct (h =? 0); [by injection E3 as <- <-|]. unfold get_pass_block_commit in E3.
    rewrite (pass_tables_pure (gets (λ t, t_commits t !! (h - 1))) s _ eq_refl) in E3. by injection E3 as <- <-. }
  apply bind_Ok in E as (e & s2 & E4 & E). injection E4 as E4 <-.
  apply zoom_Ok in E as (m & E & ->). apply zoom_Ok in E as (t & E & ->). injection E as <-. cbn.
  split_and!; [done|done|done|done|]. exists u, e. rewrite <-Ep. split_and!; [done| |done|].
  - unfold build_commit_entry in E4. destruct (_ =? _) eqn:Eh; [|done]. b2p. congruence.
  - unfold build_commit_entry in E4. destruct (negb _); [done|]. injection E4 as <-. cbn.
    by rewrite Ec.
Qed.

(** The manager as the body of a block finds it. *)
Definition block_start (h : u32) (m : MinerPassManager) : MinerPassManager :=
  {| pm_storage := (savepoint_begin (pm_storage m)).2;
     pm_energy := (set_pending_block_height h (pm_energy m)).2;
     pm_collector := Some (new_collector h) |}.
Lemma begin_start h s sa s0 :
  energy_manager (begin_block_sync h) (storage savepoint_begin s).2 = (Ok tt, sa) →
  manager (begin_block_mutation_collection h) sa = (Ok tt, s0) →
  miner_pass_manager s0 = block_start h (miner_pass_manager s) ∧ transfer_tracker s0 = transfer_tracker s.
Proof.
  intros (ma & Ea & ->)%zoom_Ok (m & E0 & ->)%zoom_Ok. apply zoom_Ok in Ea as (db & Ea & ->).
  unfold begin_block_mutation_collection in E0. apply bind_Ok in E0 as (o & ? & E6 & E0). injection E6 as _ <-.
  destruct o; [done|]. injection E0 as <-.
  unfold begin_block_sync in Ea. apply bind_Ok in Ea as (o & ? & E7 & Ea). injection E7 as _ <-.
  destruct o; [done|]. by injection Ea as <-.
Qed.
Lemma persist_tracker h c s s' :
  or_recover h true (persist_pass_block_commit h c) s = (Ok tt, s') → transfer_tracker s' = transfer_tracker s.
Proof.
  intros E%or_recover_Ok. unfold persist_pass_block_commit in E.
  apply bind_Ok in E as (found & ? & E1 & E). injection E1 as _ <-.
  apply bind_Ok in E as (u & ? & E1 & E). injection E1 as _ <-.
  apply bind_Ok in E as (prev & s2 & E3 & E). apply bind_Ok in E as (e & ? & E1 & E). injection E1 as _ <-.
  apply zoom_Ok in E as (m & _ & ->). cbn.
  destruct (h =? 0); [by injection E3 as _ <-|]. by apply zoom_Ok in E3 as (m' & _ & ->).
Qed.

(** The steps of a block that succeeds: the state [s0] in which its body starts, the state [s5] in
    which it ends, and the state [s3] with the commit, which the closing statements complete. *)
Lemma sync_height_run h s s' :
  ready h s → sync_height h s = (Ok tt, s') →
  ∃ s0 c s5 s3 w,
    sync_frame h (storage savepoint_begin s).2 s0
    ∧ pm_tables (miner_pass_manager s0) = pm_tables (miner_pass_manager s)
    ∧ pass_energy_cf (pm_energy (miner_pass_manager s0)) = pass_energy_cf (pm_energy (miner_pass_manager s))
    ∧ sync_block_body h s0 = (Ok c, s5) ∧ block_height c = h
    ∧ or_recover h true (persist_pass_block_commit h c) s5 = (Ok tt, s3)
    ∧ sync_frame h (storage savepoint_begin s).2 s3
    ∧ pm_storage (miner_pass_manager s')
      = {| tables := (update_synced_btc_block_height h (pm_tables (miner_pass_manager s3))).2;
           savepoints := savepoints (pm_storage (miner_pass_manager s)) |}
    ∧ pm_energy (miner_pass_manager s') = pm_energy (miner_pass_manager s3)
    ∧ (staged s5 = {[h := w]} ∧ published s' = w
       ∧ miner_pass_manager s0 = block_start h (miner_pass_manager s) ∧ transfer_tracker s0 = transfer_tracker s)
    ∧ staged s' = ∅ ∧ collector s' = None.
Proof.
  intros R E. unfold sync_height in E. apply bind_Ok in E as (o & s0 & E0 & E).
  assert (s0 = s) as ->.
  { rewrite (pass_tables_pure get_synced_btc_block_height s _ eq_refl) in E0. by injection E0 as _ <-. }
  rewrite (bind_run _ _ s tt (storage savepoint_begin s).2) in E by done.
  set (s1 := (storage savepoint_begin s).2) in *. pose proof (ready_savepoint h s R) as R1. fold s1 in R1.
  assert (∀ m : M InscriptionIndexer unit, with_savepoint m s1 = (Ok tt, s') → m s1 = (Ok tt, s')) as Hw.
  { intros m. unfold with_savepoint. by destruct (m s1) as [[?|?|?] ?]. }
  apply Hw in E. clear Hw. apply bind_Ok in E as ([] & s2 & E1 & E).
  pose proof (sync_block_outcome h s1 R1) as Ho. pose proof (sync_block_collector h s1 (rd_collector _ _ R1)) as Hc.
  rewrite E1 in Ho, Hc. destruct Ho as (s3 & w & E3 & F3 & Hw & ->). cbn in Hc.
  apply bind_Ok in E as ([] & s4 & E4 & E). unfold closing_statement in E4, E.
  destruct (synced_height_error h) as [?|]; [by destruct (energy_manager _ _)|].
  destruct (savepoint_commit_error h) as [?|]; [by destruct (energy_manager _ _)|].
  injection E4 as <-. unfold storage, manager, zoom in E. cbn in E. unfold savepoint_commit in E. cbn in E.
  pose proof (bf_savepoints _ _ _ (sf_manager _ _ _ F3)) as Hsp. cbn in Hsp. rewrite Hsp in E. injection E as <-.
  unfold sync_block_unpublished in E3. apply bind_Ok in E3 as ([] & sa & Ea & E3).
  apply bind_Ok in E3 as ([] & s0 & E0' & E3).
  apply bind_Ok in E3 as (c & s5 & E5 & E3). unfold with_collection_guard in E5.
  destruct (sync_block_body h _) as [[?|?|?] ?] eqn:Eb; [|done..]. injection E5 as -> ->.
  destruct (begin_start h s sa s0 Ea E0') as [Em0 Et0].
  exists s0, c, s5, s3, w. split_and!; try done.
  - pose proof (sf_begin h s1 s1) as Fa. rewrite Ea in Fa.
    pose proof (sf_begin_collection h s1 sa) as F0. rewrite E0' in F0. apply F0, Fa.
    destruct (frame_start h s1 R1) as [Ft Fe]. split; [|done]. split; [|done|done]. by destruct Ft.
  - unfold pm_tables. by rewrite Em0.
  - by rewrite Em0.
  - by eapply body_collector.
  - unfold staged in *. by rewrite <-(persist_tracker h c s5 s3 E3).
Qed.

Lemma synced_block_facts h s s' :
  ready h s → sync_height h s = (Ok tt, s') →
  let t := pm_tables (miner_pass_manager s) in let t' := pm_tables (miner_pass_manager s') in
  let db := pm_energy (miner_pass_manager s) in let db' := pm_energy (miner_pass_manager s') in
  savepoints (pm_storage (miner_pass_manager s')) = savepoints (pm_storage (miner_pass_manager s))
  ∧ t_state t' !! BTC_SYNCED_BLOCK_HEIGHT_KEY = Some h
  ∧ ledger_ok h t' ∧ state_moves t t'
  ∧ (∃ c u e, block_height c = h ∧ get_block_commit h = Ok (Some u) ∧ bc_block_height u = h
       ∧ build_commit_entry c u (if h =? 0 then None else t_commits t !! (h - 1)) = Ok e
       ∧ t_commits t' !! h = Some e)
  ∧ is_Some (t_balances t' !! h)
  ∧ meta_pending_block_height db' = None ∧ meta_synced_block_height db' = Some h
  ∧ (∀ k, k.2 < h → pass_energy_cf db' !! k = pass_energy_cf db !! k)
  ∧ (∀ k v, pass_energy_cf db' !! k = Some v → k.2 <= h)
  ∧ collector s' = None ∧ staged s' = ∅.
Proof.
  intros R E. destruct (sync_height_run h s s' R E) as (s0 & c & s5 & s3 & w & _ & _ & _ & Eb & Ecol & E3
    & [[Ft Hsp Fe] _] & Es & Ee' & _ & Hst & Hc). cbn in Ft, Fe.
  destruct (body_writes h _ _ _ Eb) as (Hp & Hs & Hb).
  destruct (persist_writes h c s5 s3 Ecol E3) as (Em & _ & Ebal & u & e & Hu & Hh & Hbuild & Hcommit).
  assert (pm_energy (miner_pass_manager s3) = pm_energy (miner_pass_manager s5)) as Ee by by rewrite Em.
  destruct (tf_rows _ _ _ Ft (h - 1)) as [Hprev _]; [lia|]. rewrite Hcommit, lookup_insert_ne in Hprev by lia.
  assert (pm_tables (miner_pass_manager s')
    = (update_synced_btc_block_height h (pm_tables (miner_pass_manager s3))).2) as Et
    by (unfold pm_tables; by rewrite Es).
  cbv zeta. rewrite Et, Es, Ee'. cbn. rewrite Ee, Ebal, Hcommit. split_and!; try done.
  - apply lookup_insert_eq.
  - apply (ledger_ok_same h (pm_tables (miner_pass_manager s3))); [done..|apply Ft].
  - apply Ft.
  - exists c, u, e. rewrite Hprev in Hbuild. split_and!; try done. apply lookup_insert_eq.
  - rewrite <-Ee. apply Fe.
  - rewrite <-Ee. apply Fe.
Qed.

(** The rows of the settlement change the energy store only. *)
Lemma apply_rows_energy h rows : ∀ s s',
  for_each rows (apply_balance_row h) s = (Ok tt, s') →
  ∃ db, s' = set_manager (set_pm_energy db (miner_pass_manager s)) s.
Proof.
  induction rows as [|row rows IH]; intros s s' E; cbn [for_each] in E.
  { injection E as <-. exists (pm_energy (miner_pass_manager s)). by destruct s as [[] ?]. }
  apply bind_Ok in E as ([] & s1 & E1 & E). apply IH in E as [db ->].
  unfold apply_balance_row in E1. destruct (_ =? 0); [injection E1 as <-; by exists db|].
  apply bind_Ok in E1 as (b & s2 & E1 & E2). injection E2 as <-.
  apply or_recover_Ok, zoom_Ok in E1 as (m & E1 & ->). apply zoom_Ok in E1 as (db' & _ & ->). by exists db.
Qed.

(** What a block does, from the state [s] to the mutations [c], the manager [m2] after its events, the
    settlement with its rows, and the map [w] of tracked passes. *)
Definition block_work `{BalanceProvider} `{IdText} `{ContentEnv} `{BitcoinNode} `{CommitHash}
    `{InscriptionSource} `{BalanceRpcLoader} `{SyncEnv} (h : u32) (s : InscriptionIndexer)
    (m2 : MinerPassManager) (c : PassBlockMutationCollector) (t3 : Tables) (s4 : InscriptionIndexer)
    (w : MultiMap) : Prop :=
  ∃ block collected ta items tb events counts m1 invalid st,
    load_block_hint h = Ok (Some block)
    ∧ collect_block_inscription_mints h (Some block) (transfer_tracker s) = (Ok collected, ta)
    ∧ process_block_with_hint h (Some block) (build_transfer_track_seeds (valid_items collected)) ta
      = (Ok items, tb)
    ∧ staged_blocks tb = {[h := w]}
    ∧ plan block (valid_items collected) items = Ok events
    ∧ execute events (block_start h (miner_pass_manager s)) = (Ok counts, m1)
    ∧ process_invalid_mints (invalid_items collected) m1 = (Ok invalid, m2)
    ∧ pm_collector m2 = Some c
    ∧ settle_active_balance_with_details h (pm_tables m2) = (Ok st, t3)
    ∧ for_each (active_pass_balances st) (apply_balance_row h)
        (set_manager (set_pm_tables t3 m2) (set_tracker tb s)) = (Ok tt, s4).

Lemma body_work h s s0 c s5 w :
  miner_pass_manager s0 = block_start h (miner_pass_manager s) → transfer_tracker s0 = transfer_tracker s →
  sync_block_body h s0 = (Ok c, s5) → staged s5 = {[h := w]} →
  ∃ m2 t3 s4, block_work h s m2 c t3 s4 w
    ∧ pm_tables (miner_pass_manager s5) = t3
    ∧ pass_energy_cf (pm_energy (miner_pass_manager s5)) = pass_energy_cf (pm_energy (miner_pass_manager s4)).
Proof.
  intros Em Et E Hw. unfold sync_block_body in E.
  apply bind_Ok in E as (hint & ? & E0 & E). injection E0 as E0 <-.
  apply bind_Ok in E as (block & ? & E1 & E). injection E1 as E1 <-. apply ok_or_Ok in E1 as ->.
  apply bind_Ok in E as (mints & sa & E1 & E). apply zoom_Ok in E1 as (ta & E1 & ->).
  apply bind_Ok in E as (items & sb & E2 & E). apply zoom_Ok in E2 as (tb & E2 & ->).
  apply bind_Ok in E as (evs & sc & E3 & E). apply or_recover_Ok in E3. injection E3 as E3 <-.
  apply bind_Ok in E as (counts & sd & E4 & E). apply or_recover_Ok, zoom_Ok in E4 as (m1 & E4 & ->).
  apply bind_Ok in E as (n & se & E5 & E). apply or_recover_Ok, zoom_Ok in E5 as (m2 & E5 & ->).
  apply bind_Ok in E as (st & sf & E6 & E). apply or_recover_Ok, zoom_Ok in E6 as (mf & E6 & ->).
  apply zoom_Ok in E6 as (t3 & E6 & ->).
  apply bind_Ok in E as ([] & sg & E7 & E). pose proof (apply_rows_energy _ _ _ _ E7) as [db ->].
  apply bind_Ok in E as ([] & sh & E8 & E). apply or_recover_Ok in E8, E.
  apply zoom_Ok in E8 as (mh & E8 & ->). apply zoom_Ok in E8 as (db' & E8 & ->).
  apply zoom_Ok in E as (mi & E & ->). cbn in *. rewrite Em, Et in *.
  assert (pm_tables mi = t3 ∧ pm_energy mi = db' ∧ pm_collector m2 = Some c) as (E9 & E10 & E11).
  { destruct (pm_collector m2) as [c'|]; [|done]. cbn in E. destruct (negb (block_height c' =? h)); [done|]. by injection E as <- <-. }
  exists m2, t3. eexists. split; [|split; [exact E9|]].
  - exists block, mints, ta, items, tb, evs, counts, m1, n, st. by split_and!.
  - rewrite E10. cbn. unfold finalize_block_sync in E8.
    destruct (negb (bool_decide (meta_pending_block_height db = Some h))); [done|]. by injection E8 as <-.
Qed.

(** C4. A block that succeeds has done all of its work, and is complete in every store.  Its mints are
    collected and its tracked passes moved, the planned events executed on the manager with its
    savepoint, pending marker and fresh collector, the invalid mints recorded and the balances
    settled; the pass store has the passes, the log and the balance snapshot of that work, the block's
    synced height, and the commit that the collected mutations give over the upstream commit of the
    same height and the previous local commit, and is a ledger of this height; the savepoint is
    closed; the energy store has the records of that work, with the block finalized and the records
    below untouched; the map of tracked passes that the block staged is published; nothing transient
    is left. *)
Theorem synced_block_is_complete h s s' :
  ready h s → sync_height h s = (Ok tt, s') →
  let t := pm_tables (miner_pass_manager s) in let t' := pm_tables (miner_pass_manager s') in
  let db := pm_energy (miner_pass_manager s) in let db' := pm_energy (miner_pass_manager s') in
  ∃ m2 c t3 s4 w u e,
    block_work h s m2 c t3 s4 w
    ∧ (t_passes t' = t_passes t3 ∧ t_history t' = t_history t3 ∧ t_balances t' = t_balances t3
       ∧ is_Some (t_balances t' !! h))
    ∧ (block_height c = h ∧ get_block_commit h = Ok (Some u) ∧ bc_block_height u = h
       ∧ build_commit_entry c u (if h =? 0 then None else t_commits t !! (h - 1)) = Ok e
       ∧ t_commits t' !! h = Some e)
    ∧ t_state t' !! BTC_SYNCED_BLOCK_HEIGHT_KEY = Some h
    ∧ ledger_ok h t' ∧ state_moves t t'
    ∧ savepoints (pm_storage (miner_pass_manager s')) = savepoints (pm_storage (miner_pass_manager s))
    ∧ pass_energy_cf db' = pass_energy_cf (pm_energy (miner_pass_manager s4))
    ∧ meta_pending_block_height db' = None ∧ meta_synced_block_height db' = Some h
    ∧ (∀ k, k.2 < h → pass_energy_cf db' !! k = pass_energy_cf db !! k)
    ∧ (∀ k v, pass_energy_cf db' !! k = Some v → k.2 <= h)
    ∧ published s' = w ∧ staged s' = ∅ ∧ collector s' = None.
Proof.
  intros R E t t' db db'. subst t t' db db'.
  destruct (synced_block_facts h s s' R E) as (H1 & H2 & H3 & H4 & _ & H6 & H7 & H8 & H9 & H10 & H11 & H12).
  destruct (sync_height_run h s s' R E) as (s0 & c & s5 & s3 & w & _ & _ & _ & Eb & Ecol & E3
    & F3 & Es & Ee & (Hw & Hpub & Em0 & Et0) & _).
  destruct (body_work h s s0 c s5 w Em0 Et0 Eb Hw) as (m2 & t3 & s4 & W & E5 & Ecf).
  destruct (persist_writes h c s5 s3 Ecol E3) as (Em & (Etp & Eth) & Ebal & u & e & Hu & Hh & Hbuild & Hcommit).
  destruct (tf_rows _ _ _ (bf_tables _ _ _ (sf_manager _ _ _ F3)) (h - 1)) as [Hprev _]; [lia|].
  rewrite Hcommit, lookup_insert_ne in Hprev by lia. rewrite Hprev in Hbuild.
  assert (pm_tables (miner_pass_manager s')
    = (update_synced_btc_block_height h (pm_tables (miner_pass_manager s3))).2) as Et
    by (unfold pm_tables; by rewrite Es).
  assert (pm_energy (miner_pass_manager s3) = pm_energy (miner_pass_manager s5)) as Ee3 by by rewrite Em.
  exists m2, c, t3, s4, w, u, e. subst t3. rewrite Ee3 in Ee. split_and!; try done.
  - by rewrite Et.
  - by rewrite Et.
  - by rewrite Et.
  - rewrite Et. cbn. rewrite Hcommit. apply lookup_insert_eq.
  - congruence.
Qed.
End Outcome.

(** ** Witnesses

    Block 10 reveals a mint whose sat goes to the owner of the first output; balance-history has, or
    does not have, the block's commit. *)

#[local] Existing Instance demo_text.
Definition sync_tx : Transaction :=
  {| compute_txid := 9; input := [{| op_txid := 3; vout := 0 |}];
     output := [ {| value := 40; script_pubkey := [2] |} ]; envelopes := [0] |}.
#[local] Instance sync_node : BitcoinNode :=
  {| node_get_utxo _ := Ok 50; node_get_transaction _ := Ok sync_tx; node_get_block _ := Ok [sync_tx];
     to_usdb_script_hash s := Tx.total s |}.
#[local] Instance sync_provider : BalanceProvider := table_provider [].
#[local] Instance sync_provider_laws : BalanceProviderLaws.
Proof. apply (table_provider_laws []); constructor. Qed.
#[local] Instance sync_content : ContentEnv := {|
  inscription_id_from_str _ := Err "no id"; json_from_str _ := None; ord_content _ := Ok None |}.
Definition sync_mint : DiscoveredMint :=
  {| dm_inscription_id := {| txid := 9; index := 0 |}; dm_inscription_number := 1;
     dm_block_height := 10; dm_timestamp := 0; dm_satpoint := None; dm_content_string := "";
     dm_content := MintContent {| um_eth_main := "0x"; um_eth_collab := None; um_prev := [] |} |}.
#[local] Instance sync_source : InscriptionSource :=
  {| load_block_inscriptions _ _ := Ok [];
     load_block_mint_batch h _ :=
       Ok {| valid_mints := if h =? 10 then [sync_mint] else []; invalid_mints := [] |} |}.
#[local] Instance sync_source_laws : InscriptionSourceLaws.
Proof.
  split. intros h hint batch [= <-]. cbn. split; [|constructor].
  destruct (h =? 10) eqn:E; b2p; [|constructor]. constructor; [|constructor]. split; [done|].
  unfold wf_id, TXID_BOUND, U32_MAX. cbn. lia.
Qed.
#[local] Instance sync_loader : BalanceRpcLoader :=
  {| load_balances owners h :=
       Ok ((λ o, (o, {| ab_block_height := h; ab_balance := 7; ab_delta := 0 |})) <$> owners);
     active_address_page_size := 16 |}.
#[local] Instance sync_hash : CommitHash := plain_hash.
Definition sync_env (commit : option BalanceHistoryBlockCommitInfo) : SyncEnv :=
  {| load_block_hint _ := Ok (Some [sync_tx]); get_block_commit _ := Ok commit;
     synced_height_error _ := None; savepoint_commit_error _ := None |}.

Definition sync_start : InscriptionIndexer :=
  {| miner_pass_manager :=
       {| pm_storage := {| tables := (update_synced_btc_block_height 9 empty_tables).2; savepoints := [] |};
          pm_energy := (set_synced_block_height 9 empty_energy_db).2; pm_collector := None |};
     transfer_tracker := {| inscriptions := ∅; staged_blocks := ∅; utxo_manager := ∅ |} |}.

Lemma no_records k v : pass_energy_cf empty_energy_db !! k = Some v → False.
Proof. cbn. by rewrite lookup_empty. Qed.

Lemma sync_start_ready (BP : BalanceProvider) : @ready BP 10 sync_start.
Proof.
  split; try done; cbn.
  - apply (ledger_ok_same 9 empty_tables); [done..|apply ledger_ok_empty].
  - intros i [p Hp]. by rewrite lookup_empty in Hp.
  - intros i _ r l (_ & _ & Hl & _). by destruct (no_records _ _ Hl).
Qed.

(** The savepoint of block 10 cannot be released: block and tracker are complete, the stores undone. *)
Definition sync_env_refused : SyncEnv :=
  {| load_block_hint _ := Ok (Some [sync_tx]); get_block_commit h := Ok (Some (demo_upstream h));
     synced_height_error _ := None; savepoint_commit_error _ := Some "disk I/O error" |}.


Lemma synced_block_is_complete_witness :
  ∃ s' m2 c t3 s4 w, @sync_height _ _ _ _ _ _ _ (sync_env (Some (demo_upstream 10))) 10 sync_start = (Ok tt, s')
    ∧ @block_work _ _ _ _ _ _ _ (sync_env (Some (demo_upstream 10))) 10 sync_start m2 c t3 s4 w
    ∧ ledger_ok 10 (pm_tables (miner_pass_manager s')) ∧ published s' = w
    ∧ pass_state (pm_tables (miner_pass_manager s')) {| txid := 9; index := 0 |} = Some Active
    ∧ is_Some (published s' !! {| op_txid := 9; vout := 0 |}).
Proof.
  destruct (@synced_block_is_complete _ _ _ _ _ _ _ _ _ (sync_env (Some (demo_upstream 10))) 10 sync_start
    (@sync_height _ _ _ _ _ _ _ (sync_env (Some (demo_upstream 10))) 10 sync_start).2)
    as (m2 & c & t3 & s4 & w & u & e & W & _ & _ & _ & L & _ & _ & _ & _ & _ & _ & _ & P & _);
    [apply sync_start_ready|vm_compute; reflexivity|].
  exists (@sync_height _ _ _ _ _ _ _ (sync_env (Some (demo_upstream 10))) 10 sync_start).2, m2, c, t3, s4, w.
  split; [vm_compute; reflexivity|]. split; [exact W|]. split; [exact L|]. split; [exact P|].
  split; [vm_compute; reflexivity|vm_compute; eauto].
Defined.
