(* ===== verification/StoreAgreement.v ===== *)
(** * The energy store follows the pass table

    The invariant between two stores of the indexer: the energy store knows only passes of the
    table, and the latest energy record of an active pass is an active record of its owner.  Every
    handler of a block that succeeds keeps it. *)

From S2P Require Import Prelude Types EnergyFormula EnergyStorage Energy PassStorage PassLedger.
From S2P Require Import PassCommit Pass Content Transfer BlockEvents BalanceLoader BalanceMonitor.
From S2P Require Import BlockFrame.

(** ** The energy side *)

(** A routine that writes records of one pass only. *)
Definition only (i : InscriptionId) (db db' : EnergyDb) : Prop :=
  ∀ k, k.1 ≠ i → pass_energy_cf db' !! k = pass_energy_cf db !! k.
#[export] Instance only_refl i : Reflexive (only i).
Proof. by intros db k. Qed.
#[export] Instance only_trans i : Transitive (only i).
Proof. intros a b c H1 H2 k Hk. by rewrite H2, H1. Qed.

(** The latest record of the pass is an active one of the owner. *)
Definition active_record (h : u32) (db : EnergyDb) (i : InscriptionId) (o : USDBScriptHash) : Prop :=
  ∃ r, is_latest i h db r ∧ er_state r = Active ∧ er_owner_address r = o.

Lemma active_record_only h i j o db db' :
  only i db db' → j ≠ i → active_record h db j o → active_record h db' j o.
Proof.
  intros Ho Hj (r & (Ei & Hle & Hl & Hmax) & Hs & Hr). exists r. split; [|done]. split_and!; [done..| |].
  - by rewrite Ho.
  - intros h' v. rewrite Ho by done. apply Hmax.
Qed.

Section Energy.
Context {BP : BalanceProvider} (h : u32).

Lemma only_insert r : moves (only (er_inscription_id r)) (insert_pass_energy_record r).
Proof. intros db k Hk. cbn. apply lookup_insert_ne. by destruct k as [j x]; intros [= <- _]. Qed.

Lemma active_insert i db r :
  er_inscription_id r = i → er_block_height r = h → er_state r = Active →
  active_record h (insert_record r db) i (er_owner_address r).
Proof.
  intros Ei Eh Es. exists r. split; [|done]. apply is_latest_insert; [done|lia|intros; lia].
Qed.

Lemma only_fold i l : ∀ r, moves (only i) (fold_m l r (update_round i)).
Proof.
  induction l as [|ab l IH]; intros r; cbn [fold_m]; [apply moves_ret; apply _|].
  apply moves_bind; [apply _| |intros r'; apply IH]. unfold update_round.
  apply moves_bind; [apply _| |intros _; apply moves_ret; apply _].
  match goal with |- moves _ (insert_pass_energy_record ?r) => exact (only_insert r) end.
Qed.

Lemma only_update i : moves (only i) (update_pass_energy i h).
Proof.
  unfold update_pass_energy. apply moves_bind; [apply _|by intros db|intros o].
  apply moves_bind; [apply _|by intros db|intros r]. apply moves_assert_bind; [apply _|intros _].
  apply moves_if; [by intros db|]. apply moves_bind; [apply _|by intros db|intros l].
  apply moves_bind; [apply _|apply only_fold|intros r']. by apply moves_if; intros db.
Qed.
Lemma only_dormant i : moves (only i) (on_pass_dormant i h).
Proof.
  unfold on_pass_dormant. apply moves_bind; [apply _|apply only_update|intros e].
  apply moves_bind; [apply _|by intros db|intros o]. apply moves_bind; [apply _|by intros db|intros r].
  apply moves_bind; [apply _| |intros _].
  { match goal with |- moves _ (insert_pass_energy_record ?r) => exact (only_insert r) end. }
  apply moves_bind; [apply _|by intros db|intros v]. by apply moves_if; intros db.
Qed.
Lemma only_consumed i o : moves (only i) (on_pass_consumed i o h).
Proof.
  match goal with |- moves _ (on_pass_consumed i o h) => unfold on_pass_consumed end.
  match goal with |- moves _ (insert_pass_energy_record ?r) => exact (only_insert r) end.
Qed.

(** A new pass starts with an active record of its owner. *)
Lemma new_pass_active i o e db db' :
  on_new_pass i o h e db = (Ok tt, db') → only i db db' ∧ active_record h db' i o.
Proof.
  intros (b & d & ->)%on_new_pass_Ok. split.
  - match goal with |- only _ _ (insert_record ?r _) => exact (only_insert r db) end.
  - match goal with |- active_record _ (insert_record ?r _) _ _ => exact (active_insert i db r eq_refl eq_refl eq_refl) end.
Qed.

(** Settling keeps the state and the owner of the latest record. *)
Lemma fold_active i l : ∀ r db r' db',
  Forall (λ ab, ab_block_height ab = h) l → fold_m l r (update_round i) db = (Ok r', db') →
  active_record h db i (er_owner_address r) → active_record h db' i (er_owner_address r).
Proof.
  induction l as [|ab l IH]; intros r db r' db' Hl E A; cbn [fold_m] in E; [by injection E as _ <-|].
  apply Forall_cons in Hl as [Hab Hl]. apply bind_Ok in E as (r1 & db1 & E1 & E).
  unfold update_round in E1. apply bind_Ok in E1 as ([] & db2 & E2 & E1).
  injection E1 as <- <-. injection E2 as <-.
  refine (IH _ _ _ _ Hl E _).
  match goal with |- active_record _ (insert_record ?r _) _ _ => exact (active_insert i db r eq_refl Hab eq_refl) end.
Qed.

Context {Laws : BalanceProviderLaws} (db0 : EnergyDb) (Hh : 0 < h < U32_MAX).

Lemma update_active i o db e db' :
  energy_frame h db0 db → wf_id i → settled_pass h db0 i → active_record h db i o →
  update_pass_energy i h db = (Ok e, db') → active_record h db' i o.
Proof.
  intros F Wi Hset (r & Hl & Hs & <-) E. unfold update_pass_energy in E.
  erewrite bind_run in E by reflexivity.
  rewrite (proj2 (find_last_is_Some i h db r (ef_wf _ _ _ F) ltac:(split; [done|simpl; lia])) Hl) in E.
  erewrite bind_run in E by reflexivity. rewrite (proj2 (Z.leb_le _ _)) in E by apply Hl.
  erewrite bind_run in E by reflexivity. rewrite bool_decide_true in E by done. cbn [negb] in E.
  apply bind_Ok in E as (l & db1 & E1 & E). injection E1 as E1 <-.
  pose proof (settled_rows h db0 Hh i db r l F Hset Hl Hs E1) as Hrows.
  apply bind_Ok in E as (r' & db1 & E2 & E).
  assert (db' = db1) as -> by (destruct (_ <? _); by injection E).
  eapply fold_active; [exact Hrows|exact E2|by exists r].
Qed.

Lemma apply_active i o b d db c db' :
  energy_frame h db0 db → wf_id i → apply_active_balance_change i o h b d db = (Ok c, db') →
  only i db db' ∧ ∀ o', active_record h db i o' → active_record h db' i o'.
Proof.
  intros F Wi E. unfold apply_active_balance_change, apply_active_balance_change_internal in E.
  destruct (_ =? 0); [by injection E as _ <-|]. erewrite bind_run in E by reflexivity.
  destruct (find_last i h db) as [r|] eqn:El; [|done]. erewrite bind_run in E by reflexivity.
  apply find_last_is_Some in El; [|apply F|split; [done|simpl; lia]].
  case_bool_decide as Hs; [|done]. cbn [negb] in E. destruct (_ =? o) eqn:Eo; [|done]. cbn [negb] in E.
  destruct (_ >? h); [done|]. destruct (_ =? h).
  { destruct (_ || _); [done|]. by injection E as _ <-. }
  destruct (_ || _); [done|]. erewrite bind_run in E by reflexivity. injection E as _ <-. split.
  - match goal with |- only _ _ (insert_record ?r _) => exact (only_insert r db) end.
  - intros o' (r' & Hl' & _ & <-). b2p.
    assert (r' = r) as ->; [|rewrite Eo].
    { apply find_last_is_Some in El; [|apply F|split; [done|simpl; lia]].
      apply find_last_is_Some in Hl'; [|apply F|split; [done|simpl; lia]]. congruence. }
    match goal with |- active_record _ (insert_record ?r _) _ _ => exact (active_insert i db r eq_refl eq_refl eq_refl) end.
Qed.

(** A change that is applied leaves a record of the block, and removes none. *)
Lemma apply_records i o b d db c db' :
  energy_frame h db0 db → wf_id i → apply_active_balance_change i o h b d db = (Ok c, db') →
  (∀ k, is_Some (pass_energy_cf db !! k) → is_Some (pass_energy_cf db' !! k))
  ∧ (d ≠ 0 → is_Some (pass_energy_cf db' !! (i, h))).
Proof.
  intros F Wi E. unfold apply_active_balance_change, apply_active_balance_change_internal in E.
  destruct (d =? 0) eqn:Ed; b2p; [by injection E as _ <-|]. erewrite bind_run in E by reflexivity.
  destruct (find_last i h db) as [r|] eqn:El; [|done]. erewrite bind_run in E by reflexivity.
  apply find_last_is_Some in El; [|apply F|split; [done|simpl; lia]].
  case_bool_decide; [|done]. cbn [negb] in E. destruct (_ =? o); [|done]. cbn [negb] in E.
  destruct (_ >? h); [done|]. destruct (_ =? h) eqn:Eh.
  { destruct (_ || _); [done|]. injection E as _ <-. split; [done|]. intros _. b2p.
    destruct El as (_ & _ & Hv & _). rewrite Eh in Hv. by rewrite Hv. }
  destruct (_ || _); [done|]. erewrite bind_run in E by reflexivity. injection E as _ <-. cbn. split.
  - intros k Hk. rewrite lookup_insert_is_Some. destruct (decide ((i, h) = k)); [by left|by right].
  - intros _. rewrite lookup_insert_eq. by eexists.
Qed.
End Energy.

(** ** The agreement, but for the pass of a hole *)

Record agree (hole : option InscriptionId) (h : u32) (t : Tables) (db : EnergyDb) : Prop := {
  ag_known : ∀ k v, pass_energy_cf db !! k = Some v → is_Some (t_passes t !! k.1);
  ag_active : ∀ i p, hole ≠ Some i → t_passes t !! i = Some p → state p = Active →
    active_record h db i (owner p)
}.

(** A write of one row of the table. *)
Lemma agree_row hole hole' h t t' db i p :
  agree hole h t db → t_passes t' = <[i := p]> (t_passes t) →
  (hole' ≠ Some i → state p = Active → active_record h db i (owner p)) →
  (∀ j, j ≠ i → hole = Some j → hole' = Some j) →
  agree hole' h t' db.
Proof.
  intros [K A] Et Hi Hh. split.
  - intros k v Hv. rewrite Et, lookup_insert_is_Some. destruct (decide (i = k.1)); [by left|right].
    split; [done|by eapply K].
  - intros j q Hj. rewrite Et, lookup_insert_Some. intros [[<- <-]|[Hne Hq]] Hs; [by apply Hi|].
    apply A; [|done|done]. intros E. apply Hj, Hh; [congruence|done].
Qed.

(** Writes of one pass in the energy store. *)
Lemma agree_energy hole hole' h t db db' i :
  agree hole h t db → only i db db' → is_Some (t_passes t !! i) →
  (∀ p, t_passes t !! i = Some p → hole' ≠ Some i → state p = Active →
     active_record h db' i (owner p)) →
  (∀ j, j ≠ i → hole = Some j → hole' = Some j) →
  agree hole' h t db'.
Proof.
  intros [K A] Ho Hin Hi Hh. split.
  - intros k v Hv. destruct (decide (k.1 = i)) as [->|Hne]; [done|]. rewrite Ho in Hv by done. by eapply K.
  - intros j q Hj Hq Hs. destruct (decide (j = i)) as [->|Hne]; [by apply Hi|].
    eapply active_record_only; [exact Ho|done|]. apply A; [|done|done].
    intros E. by apply Hj, Hh.
Qed.

(** Reading the tables at a later height of the same block keeps it. *)
Lemma agree_same hole h t t' db :
  agree hole h t db → t_passes t' = t_passes t → agree hole h t' db.
Proof. intros [K A] E. split; rewrite E; done. Qed.

Lemma agree_records hole h t db db' :
  agree hole h t db → pass_energy_cf db' = pass_energy_cf db → agree hole h t db'.
Proof.
  intros [K A] E. split; [by rewrite E|]. intros i p Hi Hp Ha.
  destruct (A i p Hi Hp Ha) as (r & (E1 & E2 & E3 & E4) & Hr). exists r. split; [|done].
  by split_and!; [done..| |]; rewrite E.
Qed.

Lemma no_conflict_ledger h t : ledger_ok h t → no_active_conflict (t_passes t) = true.
Proof. intros L. apply no_active_conflict_spec. intros i j p q. by eapply ledger_unique_current. Qed.

Section Handlers.
Context {BP : BalanceProvider} {Laws : BalanceProviderLaws} {IT : IdText}.
Context (h : u32) (m0 : MinerPassManager) (Hh : 0 < h < U32_MAX).
Hypothesis Hsettled : ∀ i, settles (pm_tables m0) i → settled_pass h (pm_energy m0) i.

Definition agrees (hole : option InscriptionId) (m : MinerPassManager) : Prop :=
  agree hole h (pm_tables m) (pm_energy m).

(** Settling an active pass of the table. *)
Lemma update_agrees i p s e db :
  block_frame h m0 s → agrees None s → t_passes (pm_tables s) !! i = Some p → state p = Active →
  update_pass_energy i h (pm_energy s) = (Ok e, db) → agree None h (pm_tables s) db.
Proof.
  intros F A Hp Ha E. destruct (bf_settled h m0 Hsettled i s p F Hp Ha) as [Wi Hset].
  eapply (agree_energy None None _ _ _ _ i A); [|by rewrite Hp| |done].
  - pose proof (only_update h i (pm_energy s)) as Ho. by rewrite E in Ho.
  - intros q Hq _ _. rewrite Hp in Hq. injection Hq as <-.
    refine (update_active h (pm_energy m0) Hh i (owner p) _ e db _ Wi Hset _ E); [apply F|by apply A].
Qed.

Lemma transfer_agrees i o sp s s' :
  block_frame h m0 s → agrees None s → on_pass_transfer i o sp h s = (Ok tt, s') → agrees None s'.
Proof.
  intros F A E. destruct (t_passes (pm_tables s) !! i) as [p|] eqn:Hp.
  2: { unfold on_pass_transfer in E. rewrite (bind_run _ _ _ _ _ (store_get_pass i s)), Hp in E. done. }
  pose proof (no_conflict_ledger h _ (tf_ledger _ _ _ (bf_tables _ _ _ F))) as Hc.
  pose proof (transfer_run i o sp h s p Hc Hp) as R.
  destruct (transfer_energy p i o h (pm_energy s)) as [[[]|?|?] db] eqn:Ee; [|congruence..].
  destruct R as (t' & R & Et). rewrite E in R. injection R as ->.
  change (agree None h t' db). unfold transfer_energy in Ee. unfold transferred in Et.
  case_bool_decide as Ha.
  - apply bind_Ok in Ee as (e & db1 & E1 & Ee).
    pose proof (update_agrees i p s e db1 F A Hp Ha E1) as A1.
    destruct (owner p =? o).
    + injection Ee as <-. eapply agree_row; [exact A1|exact Et| |done].
      intros _ _. by apply (ag_active _ _ _ _ A1 i p).
    + apply (agree_row (Some i) None h (pm_tables s) t' db i _) in Et; [done| |done|by intros ? ? [=]].
      eapply (agree_energy None (Some i)); [exact A1| |by rewrite Hp|done|done].
      pose proof (only_dormant h i db1) as Ho. by rewrite Ee in Ho.
  - injection Ee as <-. eapply agree_row; [exact A|exact Et| |done].
    destruct (owner p =? o); by intros _ Hs.
Qed.

Lemma burned_agrees i s s' :
  block_frame h m0 s → agrees None s → on_pass_burned i h s = (Ok tt, s') → agrees None s'.
Proof.
  intros F A E. unfold on_pass_burned in E. rewrite (bind_run _ _ _ _ _ (store_get_pass i s)) in E.
  destruct (t_passes (pm_tables s) !! i) as [p|] eqn:Hp; [|done]. erewrite bind_run in E by reflexivity.
  apply bind_Ok in E as ([] & s1 & E1 & E).
  assert (pm_tables s1 = pm_tables s ∧ agrees None s1) as [Et A1].
  { case_bool_decide as Ha; [|by injection E1 as <-].
    apply bind_Ok in E1 as (e & s2 & E1 & E2). injection E2 as <-.
    apply zoom_Ok in E1 as (db & E1 & ->). split; [done|]. by eapply (update_agrees i p s e). }
  apply bind_Ok in E as ([] & s2 & E2 & E). injection E as <-. apply zoom_Ok in E2 as (t & E2 & ->).
  rewrite Et in E2. destruct (update_state_run i (state p) Burned h (pm_tables s) p Hp eq_refl ltac:(done))
    as (t' & E3 & Et'). rewrite E3 in E2. injection E2 as <-. change (agree None h t' (pm_energy s1)).
  rewrite <-Et in Et'. eapply agree_row; [exact A1|exact Et'|done|done].
Qed.

(** *** Mint *)

Lemma dormant_last_agrees info s s' :
  mi_mint_block_height info = h → block_frame h m0 s → agrees None s →
  dormant_last_pass info s = (Ok tt, s') → agrees None s'.
Proof.
  intros Eh F A E. unfold dormant_last_pass in E. rewrite Eh in E.
  erewrite bind_run in E by apply store_read. destruct (head _) as [p|] eqn:Ep; [|by injection E as <-].
  apply last_active_elem in Ep as (_ & Ha & i & Hi).
  pose proof (lk_key _ _ (tf_ledger _ _ _ (bf_tables _ _ _ F)) _ _ Hi) as Ei. rewrite Ei in E.
  rewrite bool_decide_true in E by done. erewrite bind_run in E by reflexivity.
  apply bind_Ok in E as ([] & s1 & [_ ->]%assert_Ok & E).
  destruct (update_state_run i Active Dormant h (pm_tables s) p Hi Ha ltac:(done)) as (t1 & E2 & Et).
  erewrite bind_run in E by (apply store_Ok; exact E2). erewrite bind_run in E by reflexivity.
  apply zoom_Ok in E as (db & E & ->). change (agree None h t1 db).
  change (on_pass_dormant i h (pm_energy s) = (Ok tt, db)) in E.
  apply (agree_energy None None h t1 (pm_energy s) db i).
  - eapply agree_row; [exact A|exact Et|done|done].
  - pose proof (only_dormant h i (pm_energy s)) as Ho. by rewrite E in Ho.
  - by rewrite Et, lookup_insert_eq.
  - intros q Hq _ Hs. rewrite Et, lookup_insert_eq in Hq. by injection Hq as <-.
  - done.
Qed.

(** One previous pass of the mint of [new]. *)
Lemma inherit_agrees info acc i s e s' new p :
  mi_mint_block_height info = h →
  agrees (Some new) s → t_passes (pm_tables s) !! new = Some p → state p = Active →
  inherit_round info acc i s = (Ok e, s') →
  agrees (Some new) s' ∧ t_passes (pm_tables s') !! new = Some p.
Proof.
  intros Eh A Hp Ha E. unfold inherit_round in E. rewrite (bind_run _ _ _ _ _ (store_get_pass i s)) in E.
  destruct (t_passes (pm_tables s) !! i) as [q|] eqn:Hq; [|by injection E as <- <-].
  destruct (negb _); [by injection E as <- <-|]. apply bind_Ok in E as ([] & s1 & [_ ->]%assert_Ok & E).
  case_bool_decide as Hd; cbn [negb] in E; [|by injection E as <- <-].
  assert (i ≠ new) as Hne by (intros ->; congruence).
  apply bind_Ok in E as (e1 & s1 & E2 & E). injection E as _ <-. rewrite Eh in E2.
  unfold consume_pass in E2. rewrite (bind_run _ _ _ _ _ (store_get_pass i s)), Hq in E2.
  erewrite bind_run in E2 by reflexivity. rewrite bool_decide_true in E2 by done.
  erewrite bind_run in E2 by reflexivity.
  destruct (update_state_run i (state q) Consumed h (pm_tables s) q Hq eq_refl ltac:(done)) as (t1 & E3 & Et).
  erewrite bind_run in E2 by (apply store_Ok; exact E3). erewrite bind_run in E2 by reflexivity.
  erewrite bind_run in E2 by apply on_energy_read. apply bind_Ok in E2 as (x & s2 & E4 & E2).
  injection E4 as _ <-. apply bind_Ok in E2 as ([] & s3 & [_ ->]%assert_Ok & E2).
  apply bind_Ok in E2 as ([] & s4 & E6 & E2). injection E2 as _ <-. apply zoom_Ok in E6 as (db & E6 & ->).
  change (on_pass_consumed i (owner q) h (pm_energy s) = (Ok tt, db)) in E6.
  change (agree (Some new) h t1 db ∧ t_passes t1 !! new = Some p).
  split; [|by rewrite Et, lookup_insert_ne].
  apply (agree_energy (Some new) (Some new) h t1 (pm_energy s) db i).
  - eapply agree_row; [exact A|exact Et|done|done].
  - pose proof (only_consumed h i (owner q) (pm_energy s)) as Ho. by rewrite E6 in Ho.
  - by rewrite Et, lookup_insert_eq.
  - intros q' Hq' _ Hs. rewrite Et, lookup_insert_eq in Hq'. by injection Hq' as <-.
  - done.
Qed.

Lemma inherit_all_agrees info prevs new p : ∀ acc s e s',
  mi_mint_block_height info = h →
  agrees (Some new) s → t_passes (pm_tables s) !! new = Some p → state p = Active →
  fold_m prevs acc (inherit_round info) s = (Ok e, s') →
  agrees (Some new) s' ∧ t_passes (pm_tables s') !! new = Some p.
Proof.
  induction prevs as [|i prevs IH]; intros acc s e s' Eh A Hp Ha E; cbn [fold_m] in E.
  { by injection E as _ <-. }
  apply bind_Ok in E as (e1 & s1 & E1 & E).
  destruct (inherit_agrees _ _ _ _ _ _ _ _ Eh A Hp Ha E1) as [A1 Hp1]. by eapply IH.
Qed.

Lemma mint_agrees info s s' :
  mi_mint_block_height info = h → block_frame h m0 s → agrees None s →
  on_mint_pass info s = (Ok tt, s') → agrees None s'.
Proof.
  intros Eh F A E. unfold on_mint_pass in E. apply bind_Ok in E as ([] & s1 & E1 & E).
  pose proof (dormant_last_agrees info s s1 Eh F A E1) as A1. rewrite Eh in E.
  apply bind_Ok in E as ([] & s2 & E2 & E). erewrite bind_run in E by reflexivity.
  apply bind_Ok in E as (e & s3 & E3 & E). apply zoom_Ok in E as (db & E & ->).
  set (new := mi_inscription_id info) in *. apply zoom_Ok in E2 as (t2 & E2 & ->).
  pose proof (mint_row_Ok _ _ _ _ E2 : t_passes t2 = <[new := minted_pass info]> _) as Et.
  apply (inherit_all_agrees info _ new (minted_pass info)) in E3 as [A3 Hp]; [|done| | |done].
  - destruct (new_pass_active h new _ _ _ _ E) as [Ho Hact].
    eapply (agree_energy (Some new) None); [exact A3|exact Ho|by eexists| |by intros ? ? [=]].
    intros p Hp' _ _. change (t_passes (pm_tables s3) !! new = Some p) in Hp'. rewrite Hp in Hp'. by injection Hp' as <-.
  - eapply (agree_row None (Some new)); [exact A1|exact Et|done|done].
  - cbn. by rewrite Et, lookup_insert_eq.
Qed.

Lemma invalid_mint_agrees info s s' :
  agrees None s → on_invalid_mint_pass info s = (Ok tt, s') → agrees None s'.
Proof.
  intros A E. unfold on_invalid_mint_pass in E. apply bind_Ok in E as ([] & s1 & E1 & E).
  injection E as <-. apply zoom_Ok in E1 as (t1 & E1 & ->). change (agree None h t1 (pm_energy s)).
  eapply agree_row; [exact A|exact (invalid_row_Ok _ _ _ _ E1)|done|done].
Qed.

(** The events of a planned block. *)
Lemma execute_event_agrees {CE : ContentEnv} counts ev s c s' :
  event_ok h ev → block_frame h m0 s → agrees None s →
  execute_event counts ev s = (Ok c, s') → agrees None s'.
Proof.
  intros [Eh W] F A E. destruct ev as [item|item]; cbn in Eh; unfold execute_event in E;
    apply bind_Ok in E as ([] & s1 & E1 & E); injection E as _ <-.
  - unfold on_new_inscription in E1. destruct (as_mint _) as [mc|]; [|done].
    apply bind_Ok in E1 as (prevs & s2 & E2 & E1). unfold map_err, lift in E2.
    assert (s2 = s) as -> by (destruct (prev_inscription_ids mc); by simplify_eq).
    by apply mint_agrees in E1.
  - rewrite Eh in E1. destruct (it_to_address item); [by eapply transfer_agrees|by eapply burned_agrees].
Qed.

Lemma execute_agrees {CE : ContentEnv} evs : ∀ counts s c s',
  Forall (event_ok h) evs → block_frame h m0 s → agrees None s →
  fold_m evs counts execute_event s = (Ok c, s') → agrees None s'.
Proof.
  induction evs as [|ev evs IH]; intros counts s c s' Hev F A E; cbn [fold_m] in E; [by injection E as _ <-|].
  apply Forall_cons in Hev as [Hev Hevs]. apply bind_Ok in E as (c1 & s1 & E1 & E).
  eapply (IH c1 s1 c s' Hevs); [|by eapply execute_event_agrees|exact E].
  pose proof (bf_execute_event h m0 Hh Hsettled counts ev Hev s F) as F1. by rewrite E1 in F1.
Qed.

Lemma invalid_mints_agrees items : ∀ n s c s',
  agrees None s →
  fold_m items n (λ processed item, let! _ := on_invalid_mint_pass item in ret (processed + 1)) s = (Ok c, s') →
  agrees None s'.
Proof.
  induction items as [|item items IH]; intros n s c s' A E; cbn [fold_m] in E; [by injection E as _ <-|].
  apply bind_Ok in E as (c1 & s1 & E1 & E). apply bind_Ok in E1 as ([] & s2 & E1 & E2).
  injection E2 as _ <-. eapply IH; [|exact E]. by eapply invalid_mint_agrees.
Qed.
End Handlers.
