(* ===== verification/SyncInvariant.v ===== *)
(** * The stores stay together over any number of blocks

    Theorems on [sync_blocks] ([usdb-indexer/src/index/indexer.rs]): the invariant that ties the pass
    store, the energy store and the tracker to one height, kept by every block that succeeds and
    restored after one that fails. *)

From S2P Require Import Prelude Types EnergyStorage Energy PassStorage PassLedger PassCommit Pass.
From S2P Require Import Tx Transfer Content BlockEvents BalanceLoader BalanceMonitor InscriptionSource.
From S2P Require Import BlockFrame BlockSync BlockAtomicity StoreAgreement.

(** ** The rows behind both interfaces of balance-history

    The provider of the energy manager and the loader of the balance monitor answer from one table
    of rows: a range query returns the rows of the range, and the balance at a height is the row of
    that height if there is one.  A row may leave the balance as it was (its delta is zero). *)
Class BalanceRows `{BalanceProvider} `{BalanceRpcLoader} := {
  balance_rows : USDBScriptHash → list AddressBalance;
  range_is_rows o lo hi l x :
    provider_balance_at_range o lo hi = Ok l →
    x ∈ l ↔ x ∈ balance_rows o ∧ lo <= ab_block_height x < hi;
  reply_is_latest owners h reply o ab x :
    load_balances owners h = Ok reply → (o, ab) ∈ reply →
    x ∈ balance_rows o → ab_block_height x = h → ab = x
}.

Section Invariant.
Context {BP : BalanceProvider} {Laws : BalanceProviderLaws} {IT : IdText} {CE : ContentEnv}
  {BN : BitcoinNode} {CH : CommitHash} {SRC : InscriptionSource} {SL : InscriptionSourceLaws}
  {LD : BalanceRpcLoader} {SE : SyncEnv} {ROWS : BalanceRows}.

(** Every change of the owner's balance up to the height is in the records of an active pass. *)
Definition rows_settled (n : u32) (t : Tables) (db : EnergyDb) : Prop :=
  ∀ i p r x, t_passes t !! i = Some p → state p = Active → is_latest i n db r →
    x ∈ balance_rows (owner p) → er_block_height r < ab_block_height x → n < ab_block_height x.

(** No row of height [n] was skipped: where the owner of an active pass has a balance row at [n] and
    the pass no record, the row changed the balance.  The settlement of a block skips the rows with a
    zero delta, which balance-history writes when a block touches a script and leaves its balance as
    it was. *)
Definition no_skipped_row (n : u32) (s : InscriptionIndexer) : Prop :=
  ∀ i p x, t_passes (pm_tables (miner_pass_manager s)) !! i = Some p → state p = Active →
    x ∈ balance_rows (owner p) → ab_block_height x = n →
    pass_energy_cf (pm_energy (miner_pass_manager s)) !! (i, n) = None → ab_delta x ≠ 0.

(** The pass store and the energy store are at height [n], and no block is staged in the tracker. *)
Record synced (n : u32) (s : InscriptionIndexer) : Prop := {
  sy_ready : ready (n + 1) s;
  sy_agree : agree None n (pm_tables (miner_pass_manager s)) (pm_energy (miner_pass_manager s));
  sy_rows : rows_settled n (pm_tables (miner_pass_manager s)) (pm_energy (miner_pass_manager s))
}.

(** The latest record does not depend on the height it is asked at, above all records. *)
Lemma is_latest_later i n n' db r :
  (∀ k v, pass_energy_cf db !! k = Some v → k.2 <= n) → n <= n' →
  is_latest i n' db r ↔ is_latest i n db r.
Proof.
  intros Hlow Hn. split; intros (Ei & Hle & Hl & Hmax); split_and!; try done.
  - apply (Hlow _ _ Hl).
  - intros h' v Hv Hh. eapply Hmax; [done|lia].
  - lia.
  - intros h' v Hv Hh. eapply Hmax; [done|]. apply (Hlow _ _ Hv).
Qed.

Lemma agree_later hole n n' t db :
  (∀ k v, pass_energy_cf db !! k = Some v → k.2 <= n) → n <= n' →
  agree hole n t db → agree hole n' t db.
Proof.
  intros Hlow Hn [K A]. split; [done|]. intros i p Hi Hp Ha. destruct (A i p Hi Hp Ha) as (r & Hl & Hr).
  exists r. split; [|done]. by apply (is_latest_later i n n').
Qed.

Lemma is_latest_unique i n db r r' : is_latest i n db r → is_latest i n db r' → r' = r.
Proof.
  intros (E1 & E2 & E3 & E4) (F1 & F2 & F3 & F4). pose proof (E4 _ _ F3 F2). pose proof (F4 _ _ E3 E2).
  assert (er_block_height r' = er_block_height r) as Eh by lia.
  apply record_eq; [congruence|done|]. rewrite Eh in F3. congruence.
Qed.
Lemma agree_latest n t db i p r :
  agree None n t db → t_passes t !! i = Some p → state p = Active → is_latest i n db r →
  er_state r = Active ∧ er_owner_address r = owner p.
Proof.
  intros A Hp Ha Hl. destruct (ag_active _ _ _ _ A i p ltac:(done) Hp Ha) as (r' & Hl' & ?).
  by rewrite <-(is_latest_unique _ _ _ _ _ Hl Hl').
Qed.

(** The invariant implies what a block needs of the balances. *)
Lemma rows_settled_pass n t db i :
  0 < n + 1 < U32_MAX → ledger_ok n t → wf_db db →
  (∀ k v, pass_energy_cf db !! k = Some v → k.2 <= n) →
  agree None n t db → rows_settled n t db → settles t i → settled_pass (n + 1) db i.
Proof.
  intros Hn L W Hlow A Hr Hs r l Hl Ha Ep. replace (n + 1 - 1) with n in Hl by lia.
  unfold settles, pass_state in Hs. destruct (t_passes t !! i) as [p|] eqn:Hp; cbn in Hs.
  - destruct Hs as [[= Hact]|]; [|done].
    destruct (agree_latest n t db i p r A Hp Hact Hl) as [_ Ho].
    apply Forall_forall. intros x Hx. apply (range_is_rows _ _ _ _ _ Ep) in Hx as [Hx Hrange].
    assert (n < ab_block_height x); [|lia]. eapply (Hr i p r x); [done..|by rewrite <-Ho|].
    destruct Hl as (_ & Hle & Hv & _). pose proof (Hlow _ _ Hv). pose proof (wf_key_height _ (W _ _ Hv)). cbn in *.
    rewrite u32_add_small in Hrange by lia. lia.
  - exfalso. destruct Hl as (_ & _ & Hv & _). destruct (ag_known _ _ _ _ A _ _ Hv) as [q Hq].
    cbn in Hq. congruence.
Qed.

(** ** One block *)

Section Block.
Context (h : u32) (s1 : InscriptionIndexer) (R : ready h s1).

Abbreviation tables_at s := (pm_tables (miner_pass_manager s)).
Abbreviation energy_at s := (pm_energy (miner_pass_manager s)).

(** A row of the settlement is about an active pass, so its id is in the table. *)
Lemma apply_row_keeps row s s' :
  sync_frame h s1 s → agree None h (tables_at s) (energy_at s) →
  apb_block_height row = h → is_Some (t_passes (tables_at s) !! apb_inscription_id row) →
  apply_balance_row h row s = (Ok tt, s') →
  sync_frame h s1 s' ∧ tables_at s' = tables_at s
  ∧ agree None h (tables_at s') (energy_at s')
  ∧ (∀ k, is_Some (pass_energy_cf (energy_at s) !! k) → is_Some (pass_energy_cf (energy_at s') !! k))
  ∧ (apb_delta row ≠ 0 → is_Some (pass_energy_cf (energy_at s') !! (apb_inscription_id row, h))).
Proof.
  intros F A Eh [p Hp] E. assert (wf_id (apb_inscription_id row)) as Wi.
  { apply (tf_ids _ _ _ (bf_tables _ _ _ (sf_manager _ _ _ F))). by rewrite Hp. }
  pose proof (preserves_run _ _ _ _ _ (sf_apply_row h s1 R row Wi Eh) F E) as F'.
  split; [exact F'|]. unfold apply_balance_row in E.
  destruct (apb_delta row =? 0) eqn:Ed; b2p; [by injection E as <-|].
  apply bind_Ok in E as (b & s2 & E & E2). injection E2 as <-.
  apply or_recover_Ok, zoom_Ok in E as (m & E & ->). apply zoom_Ok in E as (db & E & ->). cbn.
  rewrite Eh in E.
  destruct (apply_active h (energy_at s1) (frame_height h s1 R) _ _ _ _ (energy_at s) b db
    (bf_energy _ _ _ (sf_manager _ _ _ F)) Wi E) as [Ho Hact].
  destruct (apply_records h (energy_at s1) (frame_height h s1 R) _ _ _ _ (energy_at s) b db
    (bf_energy _ _ _ (sf_manager _ _ _ F)) Wi E) as [Hk Hrec].
  split_and!; [done| |done|done].
  apply (agree_energy None None h _ _ _ _ A Ho); [by rewrite Hp| |done].
  intros q Hq Hn Ha. by apply Hact, (ag_active _ _ _ _ A _ q).
Qed.

(** All rows of the settlement. *)
Lemma apply_rows_keep rows : ∀ s s',
  sync_frame h s1 s → agree None h (tables_at s) (energy_at s) →
  Forall (λ row, apb_block_height row = h ∧ is_Some (t_passes (tables_at s) !! apb_inscription_id row)) rows →
  for_each rows (apply_balance_row h) s = (Ok tt, s') →
  sync_frame h s1 s' ∧ tables_at s' = tables_at s
  ∧ agree None h (tables_at s') (energy_at s')
  ∧ (∀ k, is_Some (pass_energy_cf (energy_at s) !! k) → is_Some (pass_energy_cf (energy_at s') !! k))
  ∧ (∀ row, row ∈ rows → apb_delta row ≠ 0 →
       is_Some (pass_energy_cf (energy_at s') !! (apb_inscription_id row, h))).
Proof.
  induction rows as [|row rows IH]; intros s s' F A Hrows E; cbn [for_each] in E.
  { injection E as <-. split_and!; [done..|]. by intros row ?%elem_of_nil. }
  apply Forall_cons in Hrows as [[Eh Hin] Hrows]. apply bind_Ok in E as ([] & s2 & E1 & E).
  destruct (apply_row_keeps row s s2 F A Eh Hin E1) as (F2 & Et & A2 & Hk & Hrec).
  destruct (IH s2 s' F2 A2) as (F' & Et' & A' & Hk' & Hrec'); [by rewrite Et|done|].
  split_and!; [done|congruence|done|auto|].
  intros row' [->|Hr]%elem_of_cons Hd; [by apply Hk', Hrec|by apply Hrec'].
Qed.

(** The settlement has a row for every active pass, with the change of its owner's balance. *)
Lemma settle_covers t st t' :
  ledger_ok h t → pages_bounded t → settle_active_balance_with_details h t = (Ok st, t') →
  Forall (λ row, apb_block_height row = h ∧ is_Some (t_passes t !! apb_inscription_id row))
      (active_pass_balances st)
  ∧ ∀ i p x, t_passes t !! i = Some p → state p = Active → x ∈ balance_rows (owner p) →
      ab_block_height x = h → ab_delta x ≠ 0 →
      ∃ row, row ∈ active_pass_balances st ∧ apb_inscription_id row = i ∧ apb_delta row ≠ 0.
Proof.
  intros L Hb E. pose proof (settlement_run h t L Hb) as Hs. rewrite E in Hs.
  destruct Hs as (reply & ps & abs & _ & Hps & Hreply & _ & _ & Hf & -> & _ & ->).
  split.
  - apply Forall_forall. intros row Hrow.
    apply list_elem_of_lookup_1 in Hrow as [k Hk]. apply lookup_zip_with_Some in Hk as (p & ab & -> & Hp & _).
    split; [done|]. apply list_elem_of_lookup_2, Hps in Hp as (r & Hr & _).
    apply (ledger_row_current h t h) in Hr as (q & Hq & _); [|done|lia]. cbn. by rewrite Hq.
  - intros i p x Hp Ha Hx Ex Hd. destruct (ledger_current_row h t i p L Hp) as (r & Hr & Es & Eo & _).
    assert (active_info i (owner p) ∈ ps) as Hin.
    { apply Hps. exists r. cbn. by rewrite Es, Eo. }
    apply list_elem_of_lookup_1 in Hin as [k Hk].
    destruct (Forall2_lookup_l _ _ _ _ _ Hf Hk) as (ab & Hab & Hin & Hle). cbn in Hin.
    pose proof (reply_is_latest _ _ _ _ _ x Hreply Hin Hx Ex) as ->.
    eexists. split; [eapply list_elem_of_lookup_2, lookup_zip_with_Some; by exists (active_info i (owner p)), x|].
    split; [done|]. cbn. by rewrite Ex, Z.ltb_irrefl.
Qed.

(** The body of a block keeps the agreement; and when it is done, every change that the block made
    to the balance of the owner of an active pass is in a record of the block, if none was skipped. *)
Lemma finalize_keeps_records db u db' : finalize_block_sync h db = (Ok u, db') → pass_energy_cf db' = pass_energy_cf db.
Proof.
  intros E. unfold finalize_block_sync in E. apply bind_Ok in E as (? & ? & Eg & E).
  injection Eg as _ <-. destruct (negb _); [done|]. by injection E as _ <-.
Qed.
Lemma take_collector_keeps k m c m' : take_block_mutation_collector k m = (Ok c, m') → pm_tables m' = pm_tables m ∧ pm_energy m' = pm_energy m.
Proof.
  intros E. unfold take_block_mutation_collector in E. do 3 (apply bind_Ok in E as (? & ? & ? & E)).
  destruct (negb _); [done|]. injection E as _ <-. unfold gets, modify, lift in *. by simplify_eq/=.
Qed.
Lemma body_keeps s0 c s5 :
  sync_frame h s1 s0 → agree None h (tables_at s0) (energy_at s0) →
  sync_block_body h s0 = (Ok c, s5) → pages_bounded (tables_at s5) → no_skipped_row h s5 →
  agree None h (tables_at s5) (energy_at s5)
  ∧ ∀ i p x, t_passes (tables_at s5) !! i = Some p → state p = Active →
      x ∈ balance_rows (owner p) → ab_block_height x = h →
      is_Some (pass_energy_cf (energy_at s5) !! (i, h)).
Proof.
  intros F A E Hpages Hskip. unfold sync_block_body in E.
  apply bind_Ok in E as (hint & ? & E1 & E). injection E1 as _ <-.
  apply bind_Ok in E as (block & ? & E1 & E). injection E1 as _ <-.
  apply bind_Ok in E as (mints & sa & E1 & E).
  pose proof (preserves_run _ _ _ _ _ (sf_only_utxo h s1 _ (collect_mints_moves h (Some block))) F E1) as Fa.
  apply zoom_Ok in E1 as (ta & E1 & ->). apply collect_mints_ok in E1 as Hmints.
  apply bind_Ok in E as (items & sb & E2 & E).
  pose proof (preserves_run _ _ _ _ _ (sf_process h s1 _ _) Fa E2) as Fb.
  apply zoom_Ok in E2 as (tb & E2 & ->). apply (processed_transfers_in _ _ _ _ _ _ block) in E2; [|done].
  apply bind_Ok in E as (evs & sc & E3 & E). apply or_recover_Ok in E3. injection E3 as E3 <-.
  apply (planned_events_ok h block mints items) in E3; [|done..].
  apply bind_Ok in E as (counts & sd & E4 & E). apply or_recover_Ok in E4.
  pose proof (preserves_run _ _ _ _ _ (sf_on_manager h s1 _
    (bf_execute h _ (frame_height h s1 R) (frame_settled h s1 R) evs E3)) Fb E4) as Fd.
  apply zoom_Ok in E4 as (md & E4 & ->).
  apply (execute_agrees h (miner_pass_manager s1) (frame_height h s1 R) (frame_settled h s1 R) evs) in E4;
    [|done|apply Fb|done].
  apply bind_Ok in E as (n & se & E5 & E). apply or_recover_Ok in E5.
  pose proof (preserves_run _ _ _ _ _ (sf_on_manager h s1 _
    (bf_process_invalid h _ _ (proj2 Hmints))) Fd E5) as Fe.
  apply zoom_Ok in E5 as (me & E5 & ->). apply (invalid_mints_agrees h) in E5 as Ae; [|done]. clear E5.
  apply bind_Ok in E as (st & sf & E6 & E). apply or_recover_Ok in E6.
  pose proof (preserves_run _ _ _ _ _ (sf_settle h s1) Fe E6) as Ff.
  apply zoom_Ok in E6 as (mf & E6 & ->). apply zoom_Ok in E6 as (tf & E6 & ->).
  apply bind_Ok in E as ([] & sg & E7 & E).
  apply bind_Ok in E as ([] & sh & E8 & E). apply or_recover_Ok in E8, E.
  apply zoom_Ok in E8 as (mh & E8 & ->). apply zoom_Ok in E8 as (db & E8 & ->). apply finalize_keeps_records in E8.
  apply zoom_Ok in E as (mi & E & ->).
  assert (pm_tables mi = tables_at sg ∧ pm_energy mi = db) as [Eti Eei] by exact (take_collector_keeps _ _ _ _ E).
  cbn [miner_pass_manager set_manager] in *. rewrite Eti in *. rewrite Eei.
  pose proof (tf_ledger _ _ _ (bf_tables _ _ _ (sf_manager _ _ _ Fe))) as L.
  destruct (settle_writes _ _ _ _ E6) as [Etp Eth].
  assert (tables_at sg = tf) as Etg.
  { match type of E7 with for_each ?rows _ ?s = _ => destruct (apply_rows_tables h rows s) as [Ht|Ht] end;
      rewrite E7 in Ht; done. }
  rewrite Etg in *. unfold pages_bounded in Hpages. rewrite Eth in Hpages.
  destruct (settle_covers _ _ _ L Hpages E6) as (Hrows & Hcov).
  apply apply_rows_keep in E7 as (_ & Et7 & A7 & _ & Hrec); [|exact Ff| |].
  - rewrite Etg in A7. split; [by apply (agree_records None h tf (energy_at sg))|].
    intros i p x Hp Ha Hx Ex. destruct (pass_energy_cf db !! (i, h)) as [v|] eqn:Ev; [by eexists|].
    specialize (Hskip i p x). cbn in Hskip. rewrite Eti, Eei in Hskip. specialize (Hskip Hp Ha Hx Ex Ev).
    rewrite Etp in Hp. destruct (Hcov i p x Hp Ha Hx Ex Hskip) as (row & Hrow & <- & Hd).
    rewrite <-Ev, E8. by apply Hrec.
  - by apply (agree_same None h (pm_tables me)).
  - eapply Forall_impl; [exact Hrows|]. intros row [? ?]. split; [done|]. cbn. by rewrite Etp.
Qed.
End Block.

(** A block settles the rows of its height and keeps those below. *)
Lemma settled_next n t e t3 e' t' :
  agree None n t e → rows_settled n t e → tables_frame (n + 1) t t3 → energy_frame (n + 1) e e' → agree None (n + 1) t' e' →
  t_passes t' = t_passes t3 →
  (∀ i p x, t_passes t' !! i = Some p → state p = Active → x ∈ balance_rows (owner p) → ab_block_height x = n + 1 →
     is_Some (pass_energy_cf e' !! (i, n + 1))) →
  rows_settled (n + 1) t' e'.
Proof.
  intros A Hrows Ft Fe A' Ep Hcov i p r x Hi Ha Hl Hx Hlt.
  destruct (agree_latest _ _ _ _ _ _ A' Hi Ha Hl) as [Hra Hro].
  destruct (decide (ab_block_height x = n + 1)) as [Ex|Hne].
  { destruct (Hcov i p x Hi Ha Hx Ex) as [v Hv]. destruct Hl as (_ & _ & _ & Hmax). specialize (Hmax _ v Hv ltac:(lia)). lia. }
  destruct (Z_lt_le_dec (n + 1) (ab_block_height x)) as [|Hle]; [done|exfalso].
  destruct (frame_latest (n + 1) _ i _ r Fe Hl) as [|Hl0]; [lia|]. rewrite Ep in Hi.
  replace (n + 1 - 1) with n in Hl0 by lia. destruct (frame_active (n + 1) _ _ i p Ft Hi Ha) as [Hset _].
  unfold settles, pass_state in Hset. destruct (t_passes t !! i) as [p0|] eqn:Hp0; cbn in Hset.
  - destruct Hset as [[= Ha0]|]; [|done]. destruct (agree_latest _ _ _ _ _ _ A Hp0 Ha0 Hl0) as [_ Ho].
    rewrite <-Hro, Ho in Hx. specialize (Hrows i p0 r x Hp0 Ha0 Hl0 Hx Hlt). lia.
  - destruct Hl0 as (_ & _ & Hv & _). destruct (ag_known _ _ _ _ A _ _ Hv) as [q Hq]. cbn in Hq. congruence.
Qed.

Lemma synced_next n s s' :
  synced n s → n + 2 < U32_MAX → pages_bounded (pm_tables (miner_pass_manager s')) →
  no_skipped_row (n + 1) s' → sync_height (n + 1) s = (Ok tt, s') → synced (n + 1) s'.
Proof.
  intros [R A Hrows] Hn Hpages Hskip E. set (h := n + 1) in *.
  destruct (synced_block_facts h s s' R E) as (_ & Hsy & L & _ & _ & _ & Hp & Hs & _ & Hlow & Hc & Hst).
  destruct (sync_height_run h s s' R E) as (s0 & c & s5 & s3 & w & F0 & Et0 & Ee0 & Eb & Ecol & E3
    & F3 & Es & Ee & _). pose proof (ready_savepoint h s R) as R1. set (s1 := (storage savepoint_begin s).2) in *.
  destruct (persist_writes h c s5 s3 Ecol E3) as (Em & (Etp & Eth) & _).
  assert (t_passes (pm_tables (miner_pass_manager s')) = t_passes (pm_tables (miner_pass_manager s5))
    ∧ t_history (pm_tables (miner_pass_manager s')) = t_history (pm_tables (miner_pass_manager s5))) as [Ep' Eh'].
  { unfold pm_tables at 1 3. rewrite Es. by split. }
  assert (pm_energy (miner_pass_manager s') = pm_energy (miner_pass_manager s5)) as Ee' by (rewrite Ee, Em; done).
  assert (agree None h (pm_tables (miner_pass_manager s0)) (pm_energy (miner_pass_manager s0))) as A0.
  { rewrite Et0. apply (agree_records None h _ (pm_energy (miner_pass_manager s))); [|done].
    apply (agree_later None n h); [|unfold h; lia|done]. intros k v Hk. pose proof (rd_records _ _ R _ _ Hk). lia. }
  destruct (body_keeps h s1 R1 s0 c s5 F0 A0 Eb) as [A5 Hcov].
  { unfold pages_bounded in *. by rewrite <-Eh'. }
  { unfold no_skipped_row in *. by rewrite <-Ep', <-Ee'. }
  assert (agree None h (pm_tables (miner_pass_manager s')) (pm_energy (miner_pass_manager s'))) as A'.
  { rewrite Ee'. by apply (agree_same None h (pm_tables (miner_pass_manager s5))). }
  assert (energy_frame h (pm_energy (miner_pass_manager s)) (pm_energy (miner_pass_manager s'))) as Fe.
  { rewrite Ee. apply F3. }
  assert (rows_settled h (pm_tables (miner_pass_manager s')) (pm_energy (miner_pass_manager s'))) as Hrows'.
  { eapply (settled_next n); [done|done| |exact Fe|done| |]; [apply (sf_manager _ _ _ F3)|by rewrite Ep', Etp|].
    intros i p x Hi. rewrite Ep' in Hi. rewrite Ee'. by apply Hcov. }
  assert (tables_frame h (pm_tables (miner_pass_manager s)) (pm_tables (miner_pass_manager s3))) as Ft by apply F3.
  pose proof (rd_height _ _ R) as Hh. assert (h = n + 1) as En by done. split; [|done|done]. split.
  - lia.
  - unfold synced_height, get_synced_btc_block_height, get_numeric_state, bind, gets. rewrite Hsy. cbn.
    rewrite i64_as_u32_id by lia. lia.
  - by replace (h + 1 - 1) with h by lia.
  - intros i Hi. apply (tf_ids _ _ _ Ft). by rewrite Etp, <-Ep'.
  - intros k v Hk. specialize (Hlow k v Hk). lia.
  - split; apply Fe.
  - done.
  - by replace (h + 1 - 1) with h by lia.
  - intros i. apply rows_settled_pass; try done; [lia|apply Fe].
  - done.
  - done.
Qed.

(** The stores of a synchronised state, found again. *)
Lemma synced_same n s0 s :
  synced n s0 → ledger_ok n (pm_tables (miner_pass_manager s)) →
  t_passes (pm_tables (miner_pass_manager s)) = t_passes (pm_tables (miner_pass_manager s0)) →
  t_state (pm_tables (miner_pass_manager s)) !! BTC_SYNCED_BLOCK_HEIGHT_KEY = Some n →
  pass_energy_cf (pm_energy (miner_pass_manager s)) = pass_energy_cf (pm_energy (miner_pass_manager s0)) →
  wf_db (pm_energy (miner_pass_manager s)) → max_marker_ok (pm_energy (miner_pass_manager s)) →
  meta_pending_block_height (pm_energy (miner_pass_manager s)) = None →
  meta_synced_block_height (pm_energy (miner_pass_manager s)) = Some n →
  collector s = None → staged s = ∅ → synced n s.
Proof.
  intros [R A Hrows] L Ep Es Ee W Hm Hp Hs Hc Hst. pose proof (rd_height _ _ R) as Hh.
  assert (agree None n (pm_tables (miner_pass_manager s)) (pm_energy (miner_pass_manager s))) as A'.
  { apply (agree_records None n _ (pm_energy (miner_pass_manager s0))); [|done]. by eapply agree_same. }
  assert (rows_settled n (pm_tables (miner_pass_manager s)) (pm_energy (miner_pass_manager s))) as Hrows'.
  { intros i p r x Hi Ha Hl. rewrite Ep in Hi. apply (Hrows i p r x Hi Ha). unfold is_latest in *. by rewrite <-Ee. }
  assert (∀ k v, pass_energy_cf (pm_energy (miner_pass_manager s)) !! k = Some v → k.2 < n + 1) as Hlow.
  { rewrite Ee. apply R. }
  split; [|done|done]. split; try done.
  - unfold synced_height, get_synced_btc_block_height, get_numeric_state, bind, gets. rewrite Es. cbn.
    unfold i64_as_u32. destruct (decide (0 <= n)); [rewrite Z.mod_small by lia; lia|]. lia.
  - by replace (n + 1 - 1) with n by lia.
  - rewrite Ep. apply R.
  - by replace (n + 1 - 1) with n by lia.
  - intros i. apply rows_settled_pass; try done. intros k v Hk. specialize (Hlow k v Hk). lia.
Qed.

(** The state of height [n] after the reconciliation that precedes every sync. *)
Definition recovers (n : u32) (s : InscriptionIndexer) : Prop :=
  ∃ db, reconcile_with_pass_synced_height n (pm_energy (miner_pass_manager s)) = (Ok tt, db)
    ∧ synced n (set_manager (set_pm_energy db (miner_pass_manager s)) s).

(** The state after a restart: the staged map of a panicked block lived in memory only. *)
Definition drop_staged (s : InscriptionIndexer) : InscriptionIndexer :=
  set_tracker (set_staged ∅ (transfer_tracker s)) s.
Lemma drop_nothing s : staged s = ∅ → drop_staged s = s.
Proof. destruct s as [m [ins st ut]]. unfold staged, drop_staged, set_tracker, set_staged. cbn. by intros ->. Qed.

Lemma synced_fails n s s' r :
  synced n s → sync_height (n + 1) s = (r, s') → is_ok r = false →
  recovers n (drop_staged s') ∧ ∀ e, r = Err e → recovers n s'.
Proof.
  intros [R A Hrows] E Hr.
  destruct (failed_block_facts (n + 1) s r s' R E Hr) as ((Hsto & Hc & (db & Hrec & Hcf & Hp & Hs & W & Hm)) & Hst & _).
  assert (recovers n (drop_staged s')) as Y.
  2: { split; [done|]. intros e Ee. by rewrite <-(drop_nothing s') by by eapply Hst. }
  replace (n + 1 - 1) with n in * by lia. exists db. split; [done|].
  assert (pm_tables (set_pm_energy db (miner_pass_manager s')) = pm_tables (miner_pass_manager s)) as Et
    by (unfold pm_tables; cbn; by rewrite Hsto).
  assert (∀ i x, is_latest i n db x ↔ is_latest i n (pm_energy (miner_pass_manager s)) x) as Hl
    by (intros; unfold is_latest; by rewrite Hcf).
  split; cbn; rewrite ?Et.
  - destruct R as [? ? ? ? Hrecs ? ? ? Hset ? ?]. split; cbn; rewrite ?Et, ?Hcf; try done.
    + by replace (n + 1 - 1) with n by lia.
    + intros i Hi x l Hlr. apply (Hset i Hi). replace (n + 1 - 1) with n in * by lia. by apply Hl.
  - by apply (agree_records None n _ (pm_energy (miner_pass_manager s))).
  - intros i p x y Hi Ha Hlr. apply (Hrows i p x y Hi Ha). by apply Hl.
Qed.

(** What later blocks leave of height [n]: the pass store can be rolled back to it, and the energy
    records up to it are untouched. *)
Record extends (n : u32) (s0 s : InscriptionIndexer) : Prop := {
  ex_tables : undoable n (pm_tables (miner_pass_manager s0)) (pm_tables (miner_pass_manager s));
  ex_energy : ∀ k, k.2 <= n →
    pass_energy_cf (pm_energy (miner_pass_manager s)) !! k
    = pass_energy_cf (pm_energy (miner_pass_manager s0)) !! k
}.

Lemma extends_refl n s : synced n s → extends n s s.
Proof.
  intros [R _ _]. split; [|done]. apply undoable_refl.
  pose proof (rd_ledger _ _ R) as L. by replace (n + 1 - 1) with n in L by lia.
Qed.

Lemma extends_block n m s0 s s' :
  n <= m → extends n s0 s → ready (m + 1) s → sync_height (m + 1) s = (Ok tt, s') → extends n s0 s'.
Proof.
  intros Hn [Ht He] R E.
  destruct (sync_height_run (m + 1) s s' R E) as (_ & _ & _ & s3 & _ & _ & _ & _ & _ & _ & _ & F3 & Es & Ee & _).
  pose proof (tf_undoable _ _ _ (bf_tables _ _ _ (sf_manager _ _ _ F3))) as U.
  replace (m + 1 - 1) with m in U by lia. cbn in U. split.
  - apply (undoable_trans n m _ (pm_tables (miner_pass_manager s))); [done..|].
    apply (undoable_same m _ (pm_tables (miner_pass_manager s3))); [|done].
    unfold pm_tables at 2. rewrite Es. by split_and!.
  - intros k Hk. rewrite Ee, (ef_below _ _ _ (bf_energy _ _ _ (sf_manager _ _ _ F3))) by lia. by apply He.
Qed.

(** ** A range of blocks *)

(** The loop of [sync_blocks]. *)
Definition sync_loop (first last : u32) : M InscriptionIndexer u32 :=
  fold_m (heights first last) first (λ _ height, let! _ := sync_height height in ret height).

(** The event log fits the paged queries, and no row is skipped, in every state the range goes
    through. *)
Record range_env (first last : u32) (s : InscriptionIndexer) : Prop := {
  re_first : 0 < first; re_last : last + 1 < U32_MAX;
  re_log : ∀ k n s', first <= k <= last → sync_loop first k s = (Ok n, s') →
    pages_bounded (pm_tables (miner_pass_manager s'));
  re_rows : ∀ k n s', first <= k <= last → sync_loop first k s = (Ok n, s') → no_skipped_row k s'
}.

Lemma range_env_prefix first last k s : range_env first last s → k <= last → range_env first k s.
Proof.
  intros [E0 E1 E2 E3] Hk. split; [done|lia|intros j m t Hj; apply E2; lia|intros j m t Hj; apply E3; lia].
Qed.
Lemma sync_loop_run first s : ∀ last r s',
  synced (first - 1) s → range_env first last s → first - 1 <= last → sync_loop first last s = (r, s') →
  match r with
  | Ok n => synced last s' ∧ extends (first - 1) s s' ∧ (first <= last → n = last)
  | Err _ => ∃ n, first - 1 <= n < last ∧ recovers n s'
  | Panic _ => ∃ n, first - 1 <= n < last ∧ recovers n (drop_staged s')
  end.
Proof.
  intros last r s' Y En Hle. remember (Z.to_nat (last - (first - 1))) as d eqn:Ed.
  revert last r s' En Hle Ed. induction d as [|d IH]; intros last r s' En Hle Ed E.
  - assert (last = first - 1) as -> by lia. unfold sync_loop in E.
    rewrite heights_nil in E by lia. injection E as <- <-. split_and!; [done|by apply extends_refl|lia].
  - unfold sync_loop in E. rewrite heights_snoc, fold_m_app in E by lia.
    assert (range_env first (last - 1) s) as En1 by (apply (range_env_prefix _ last); [done|lia]).
    destruct En as [E0 E1 E2 E3]. unfold bind at 1 in E.
    destruct (fold_m (heights first (last - 1)) _ _ s) as [r1 s1] eqn:Er.
    specialize (IH (last - 1) r1 s1 En1 ltac:(lia) ltac:(lia) Er).
    destruct r1 as [m|e|e];
      [|injection E as <- <-; destruct IH as (n & Hn & ?); exists n; (split; [lia|done])..].
    destruct IH as (Y1 & X1 & _). cbn in E. rewrite bind_assoc in E. cbn in E.
    assert (last = last - 1 + 1) as El by lia.
    unfold bind in E. destruct (sync_height last s1) as [[[]|e|e] s2] eqn:Eb; injection E as <- <-.
    + assert (sync_loop first last s = (Ok last, s2)) as Erun.
      { unfold sync_loop. rewrite heights_snoc, fold_m_app by lia. rewrite (bind_run _ _ _ _ _ Er). cbn.
        unfold bind. by rewrite Eb. }
      rewrite El in Eb. assert (synced last s2) as Y2.
      { rewrite El. apply (synced_next (last - 1) s1); [done|lia| | |done].
        - apply (E2 last last s2); [lia|done].
        - rewrite <-El. apply (E3 last last s2); [lia|done]. }
      split_and!; [done| |done]. by eapply (extends_block _ (last - 1)); [lia|exact X1|apply Y1|].
    + exists (last - 1). split; [lia|]. rewrite El in Eb.
      by destruct (synced_fails _ _ _ _ Y1 Eb eq_refl) as [_ ?]; eauto.
    + exists (last - 1). split; [lia|]. rewrite El in Eb. by destruct (synced_fails _ _ _ _ Y1 Eb eq_refl).
Qed.

(** C18. The pass store and the energy store stay together over any range of blocks, in which the event
    log fits the paged queries and no zero-delta row of the owner of an active pass is skipped.  If
    they are at the height before the range, then either every block is synchronised and they are at
    the last height, with everything at or below the start untouched; or the range stops after some
    block [n], with an error or a panic, closing statements included, and the reconciliation that
    precedes the next sync puts them at height [n] (after a panic, in the process that restarts
    without the staged map).  The tracker has no block staged; its published map is the subject of
    [BlockAtomicity]. *)
Theorem sync_blocks_keeps_stores_synced first last s r s' :
  synced (first - 1) s → range_env first last s → sync_blocks first last s = (r, s') →
  match r with
  | Ok n => n = last ∧ synced last s' ∧ extends (first - 1) s s'
  | Err _ => ∃ n, first - 1 <= n < last ∧ recovers n s'
  | Panic _ => last < first ∧ s' = s ∨ ∃ n, first - 1 <= n < last ∧ recovers n (drop_staged s')
  end.
Proof.
  intros Y En E. unfold sync_blocks, assert in E.
  destruct (first <=? last) eqn:Hle; b2p; [|injection E as <- <-; left; by split; [lia|]].
  apply sync_loop_run in E; [|done|done|lia]. destruct r as [n|e|e]; [|done|by right].
  destruct E as (? & ? & Hn). auto.
Qed.
End Invariant.

(** ** Witness

    Blocks 10 to 13 over the rows of an owner that changes its balance at heights 10 and 13; block 10
    mints its pass. *)

#[local] Existing Instances demo_text sync_node sync_content sync_source sync_source_laws sync_hash.
#[local] Instance range_provider : BalanceProvider := table_provider demo_rows.
#[local] Instance range_provider_laws : BalanceProviderLaws := demo_laws.
#[local] Instance range_loader : BalanceRpcLoader :=
  {| load_balances owners h :=
       Ok ((λ o, (o, default {| ab_block_height := 0; ab_balance := 0; ab_delta := 0 |}
                       (last (filter (λ ab, ab_block_height ab <= h) demo_rows)))) <$> owners);
     active_address_page_size := 16 |}.
#[local] Instance range_rows : BalanceRows.
Proof.
  refine {| balance_rows := λ _, demo_rows |}.
  - intros o lo hi l x [= <-]. rewrite list_elem_of_filter. tauto.
  - intros owners h reply o ab x [= <-] (o' & [= <- ->] & _)%list_elem_of_fmap Hx <-.
    repeat (apply elem_of_cons in Hx as [->|Hx]; [reflexivity|]). by apply elem_of_nil in Hx.
Defined.
#[local] Instance range_chain : SyncEnv :=
  {| load_block_hint h := Ok (Some (if h =? 10 then [sync_tx] else []));
     get_block_commit h := Ok (Some (demo_upstream h));
     synced_height_error _ := None; savepoint_commit_error _ := None |}.

Lemma no_passes i p : t_passes (pm_tables (miner_pass_manager sync_start)) !! i = Some p → False.
Proof. change ((∅ : gmap InscriptionId MinerPassInfo) !! i = Some p → False). by rewrite lookup_empty. Qed.
Lemma sync_start_synced : synced 9 sync_start.
Proof.
  split; [apply sync_start_ready| |].
  - split; [intros k v Hk; by destruct (no_records _ _ Hk)|]. intros i p _ Hp. by destruct (no_passes i p Hp).
  - intros i p r x Hp. by destruct (no_passes i p Hp).
Qed.
Lemma demo_rows_change s k : no_skipped_row k s.
Proof.
  intros i p x _ _ Hx _ _. repeat (apply elem_of_cons in Hx as [->|Hx]; [done|]). by apply elem_of_nil in Hx.
Qed.
Lemma range_start_env : range_env 10 13 sync_start.
Proof.
  split; [done..| |intros; apply demo_rows_change]. intros k n s' Hk E.
  assert (k = 10 ∨ k = 11 ∨ k = 12 ∨ k = 13) as [->|[->|[->| ->]]] by lia;
    vm_compute in E; injection E as _ <-; by vm_compute.
Qed.

Lemma sync_blocks_keeps_stores_synced_witness :
  ∃ s', sync_blocks 10 13 sync_start = (Ok 13, s') ∧ synced 13 s'
    ∧ pass_state (pm_tables (miner_pass_manager s')) {| txid := 9; index := 0 |} = Some Active
    ∧ is_Some (pass_energy_cf (pm_energy (miner_pass_manager s')) !! ({| txid := 9; index := 0 |}, 13)).
Proof.
  eexists. split; [vm_compute; reflexivity|].
  destruct (sync_blocks_keeps_stores_synced 10 13 sync_start (Ok 13) (sync_blocks 10 13 sync_start).2)
    as (_ & Y & _); [apply sync_start_synced|apply range_start_env|vm_compute; reflexivity|].
  split; [|split; [vm_compute; reflexivity|vm_compute; eauto]]. exact Y.
Defined.
