(* ===== verification/Reorg.v ===== *)
(** * Upstream reorganisations and the sync loop

    [usdb-indexer/src/index/indexer.rs], [InscriptionIndexer]: balance-history may replace blocks
    that were already processed.  The indexer detects it from its stored commits and anchors, looks
    for the last height on which both agree, rolls the pass store back to it (which leaves a durable
    marker) and then repairs the energy store and the tracker in a second phase that can be retried. *)

From S2P Require Import Prelude Types EnergyStorage Energy PassStorage PassLedger PassCommit Pass.
From S2P Require Import Tx Transfer Content BlockEvents BalanceLoader BalanceMonitor InscriptionSource.
From S2P Require Import BlockSync.

(** The fields of balance-history's [HistoricalSnapshotStateRef] that the indexer reads. *)
Record HistoricalSnapshotStateRef := {
  sr_block_height : u32;
  sr_stable_block_hash : string;
  sr_latest_block_commit : string;
  sr_stable_lag : u32;
  sr_commit_protocol_version : string;
  sr_commit_hash_algo : string
}.
(** [From<HistoricalSnapshotStateRef> for SnapshotInfo]. *)
Definition snapshot_of_state_ref (r : HistoricalSnapshotStateRef) : BalanceHistorySnapshotInfo :=
  {| bs_stable_height := sr_block_height r; bs_stable_block_hash := Some (sr_stable_block_hash r);
     bs_latest_block_commit := Some (sr_latest_block_commit r); bs_stable_lag := sr_stable_lag r;
     bs_commit_protocol_version := sr_commit_protocol_version r;
     bs_commit_hash_algo := sr_commit_hash_algo r |}.

(** What balance-history answers for a past height. *)
Class HistoryEnv := { get_state_ref_at_height : u32 → result HistoricalSnapshotStateRef }.

(** ** The running indexer: the stores, the readiness flag of the status and the fault budgets *)

Record ReorgRecoveryFaultInjector := {
  energy_failure_budget : u32;
  transfer_reload_failure_budget : u32
}.
Record Runtime := {
  indexer : InscriptionIndexer;
  upstream_reorg_recovery_pending : bool;
  reorg_recovery_fault_injector : ReorgRecoveryFaultInjector
}.
Definition set_indexer (i : InscriptionIndexer) (s : Runtime) : Runtime :=
  {| indexer := i; upstream_reorg_recovery_pending := upstream_reorg_recovery_pending s;
     reorg_recovery_fault_injector := reorg_recovery_fault_injector s |}.
Definition set_injector (f : ReorgRecoveryFaultInjector) (s : Runtime) : Runtime :=
  {| indexer := indexer s; upstream_reorg_recovery_pending := upstream_reorg_recovery_pending s;
     reorg_recovery_fault_injector := f |}.
Definition set_upstream_reorg_recovery_pending (pending : bool) (s : Runtime) : Runtime :=
  {| indexer := indexer s; upstream_reorg_recovery_pending := pending;
     reorg_recovery_fault_injector := reorg_recovery_fault_injector s |}.
Definition set_energy_failure_budget (n : u32) (f : ReorgRecoveryFaultInjector) :
    ReorgRecoveryFaultInjector :=
  {| energy_failure_budget := n; transfer_reload_failure_budget := transfer_reload_failure_budget f |}.
Definition set_transfer_reload_failure_budget (n : u32) (f : ReorgRecoveryFaultInjector) :
    ReorgRecoveryFaultInjector :=
  {| energy_failure_budget := energy_failure_budget f; transfer_reload_failure_budget := n |}.

Definition on_indexer {A} (m : M InscriptionIndexer A) : M Runtime A := zoom indexer set_indexer m.
Definition mark_pending (pending : bool) : M Runtime unit :=
  modify (set_upstream_reorg_recovery_pending pending).
Definition tables_of (s : Runtime) : Tables := pm_tables (miner_pass_manager (indexer s)).

(** *** Injected faults *)

Definition consume_budget : M u32 (option u32) := λ remaining,
  if remaining =? 0 then (Ok None, remaining) else (Ok (Some (remaining - 1)), remaining - 1).
Definition maybe_fail_energy_recovery : M ReorgRecoveryFaultInjector unit :=
  let! remaining_after := zoom energy_failure_budget set_energy_failure_budget consume_budget in
  match remaining_after with
  | None => ret tt
  | Some _ => fail "Injected reorg recovery energy failure"
  end.
Definition maybe_fail_transfer_reload : M ReorgRecoveryFaultInjector unit :=
  let! remaining_after :=
    zoom transfer_reload_failure_budget set_transfer_reload_failure_budget consume_budget in
  match remaining_after with
  | None => ret tt
  | Some _ => fail "Injected reorg recovery transfer reload failure"
  end.
Definition injector {A} (m : M ReorgRecoveryFaultInjector A) : M Runtime A :=
  zoom reorg_recovery_fault_injector set_injector m.

(** ** Comparing local and upstream state *)

Definition stored_pass_commit_matches_upstream (local_commit : StoredPassBlockCommitEntry)
    (upstream_commit : BalanceHistoryBlockCommitInfo) : bool :=
  (pc_balance_history_block_height local_commit =? bc_block_height upstream_commit)
  && bool_decide (pc_balance_history_block_commit local_commit = bc_block_commit upstream_commit)
  && bool_decide (pc_commit_protocol_version local_commit = bc_commit_protocol_version upstream_commit)
  && bool_decide (pc_commit_hash_algo local_commit = bc_commit_hash_algo upstream_commit).

Definition snapshot_anchor_matches_upstream (local_anchor : BalanceHistorySnapshotAnchor)
    (upstream_snapshot : BalanceHistorySnapshotInfo) : result bool :=
  let? upstream_block_hash := ok_or "Balance-history snapshot missing stable block hash"
                                (bs_stable_block_hash upstream_snapshot) in
  let? upstream_block_commit := ok_or "Balance-history snapshot missing latest block commit"
                                  (bs_latest_block_commit upstream_snapshot) in
  Ok ((stable_height local_anchor =? bs_stable_height upstream_snapshot)
      && bool_decide (stable_block_hash local_anchor = upstream_block_hash)
      && bool_decide (latest_block_commit local_anchor = upstream_block_commit)
      && bool_decide (commit_protocol_version local_anchor = bs_commit_protocol_version upstream_snapshot)
      && bool_decide (commit_hash_algo local_anchor = bs_commit_hash_algo upstream_snapshot)).

Definition stored_snapshot_anchor_matches_historical_state_ref
    (local_anchor : BalanceHistorySnapshotAnchor) (upstream_state_ref : HistoricalSnapshotStateRef) :
    bool :=
  (stable_height local_anchor =? sr_block_height upstream_state_ref)
  && bool_decide (stable_block_hash local_anchor = sr_stable_block_hash upstream_state_ref)
  && bool_decide (latest_block_commit local_anchor = sr_latest_block_commit upstream_state_ref)
  && (stable_lag local_anchor =? sr_stable_lag upstream_state_ref)
  && bool_decide (commit_protocol_version local_anchor = sr_commit_protocol_version upstream_state_ref)
  && bool_decide (commit_hash_algo local_anchor = sr_commit_hash_algo upstream_state_ref).

Section Reorg.
Context `{BalanceProvider} `{IdText} `{ContentEnv} `{BitcoinNode} `{CommitHash} `{InscriptionSource}
  `{BalanceRpcLoader} `{SyncEnv} `{HistoryEnv}.

(** ** Detection *)

(** The loop of [find_common_ancestor_height] over the heights still to try. *)
Fixpoint search_common_ancestor (rollback_floor : u32) (search : list u32) : M Tables u32 :=
  match search with
  | [] => ret rollback_floor
  | height :: search =>
      let! found := get_pass_block_commit height in
      match found with
      | None => ret rollback_floor
      | Some local_commit =>
          let! found := lift (get_block_commit height) in
          let! upstream_commit := lift (ok_or
            "Balance-history block commit is missing during common-ancestor search" found) in
          let! anchor := get_balance_history_snapshot_anchor_at_height height in
          match anchor with
          | None =>
              if stored_pass_commit_matches_upstream local_commit upstream_commit then ret height
              else search_common_ancestor rollback_floor search
          | Some local_snapshot_anchor =>
              let! upstream_state_ref :=
                map_err "Balance-history historical state ref is missing during common-ancestor search"
                  (lift (get_state_ref_at_height height)) in
              if stored_pass_commit_matches_upstream local_commit upstream_commit
                 && stored_snapshot_anchor_matches_historical_state_ref local_snapshot_anchor
                      upstream_state_ref
              then ret height
              else search_common_ancestor rollback_floor search
          end
      end
  end.
Definition find_common_ancestor_height (current_height latest_height genesis_block_height : u32) :
    M Tables u32 :=
  let rollback_floor := u32_saturating_sub genesis_block_height 1 in
  let search_tip := Z.min current_height latest_height in
  if search_tip <? genesis_block_height then ret rollback_floor
  else search_common_ancestor rollback_floor (rev (heights genesis_block_height search_tip)).

(** The three drift checks of [detect_upstream_reorg_target]. *)
Definition height_drift (current_height latest_height : u32) : list string :=
  if current_height >? latest_height then ["upstream stable height regressed"] else [].
Definition anchor_drift (current_height latest_height : u32)
    (balance_history_snapshot : BalanceHistorySnapshotInfo) : M Tables (list string) :=
  if current_height =? latest_height then
    let! anchor := get_balance_history_snapshot_anchor in
    match anchor with
    | None => ret []
    | Some local_anchor =>
        let! matches := lift (snapshot_anchor_matches_upstream local_anchor balance_history_snapshot) in
        ret (if matches : bool then [] else ["upstream snapshot anchor drifted"])
    end
  else ret [].
Definition commit_drift (current_height genesis_block_height : u32) : M Tables (list string) :=
  if current_height >=? genesis_block_height then
    let! found := get_pass_block_commit current_height in
    match found with
    | None => ret []
    | Some local_commit =>
        let! upstream := lift (get_block_commit current_height) in
        ret (match upstream with
             | Some upstream_commit =>
                 if stored_pass_commit_matches_upstream local_commit upstream_commit then []
                 else ["upstream block commit drifted"]
             | None => ["upstream block commit missing"]
             end)
    end
  else ret [].

Definition detect_upstream_reorg_target (current_height latest_height : u32)
    (balance_history_snapshot : BalanceHistorySnapshotInfo) (genesis_block_height : u32) :
    M Tables (option (u32 * string)) :=
  let! anchor := anchor_drift current_height latest_height balance_history_snapshot in
  let! commit := commit_drift current_height genesis_block_height in
  let drift_reasons := height_drift current_height latest_height ++ anchor ++ commit in
  match drift_reasons with
  | [] => ret None
  | _ =>
      let! rollback_target :=
        find_common_ancestor_height current_height latest_height genesis_block_height in
      ret (Some (rollback_target, String.concat "; " drift_reasons))
  end.

(** ** Recovery *)

Definition resume_pending_upstream_reorg_recovery (genesis_block_height : u32) : M Runtime unit :=
  let! pending := on_indexer (pass_tables get_upstream_reorg_recovery_pending_height) in
  match pending with
  | None => mark_pending false
  | Some pending_height =>
      let! _ := mark_pending true in
      let! synced := on_indexer (pass_tables get_synced_btc_block_height) in
      let pass_synced_height := default 0 synced in
      if negb (pass_synced_height =? pending_height)
      then fail "Pending upstream reorg recovery height mismatch"
      else
        let! _ := map_err "Failed to inject pending upstream reorg energy recovery fault"
                    (injector maybe_fail_energy_recovery) in
        let! _ := map_err "Failed to rollback energy state during pending upstream reorg recovery"
                    (on_indexer (energy_manager (rollback_to_pass_synced_height pending_height))) in
        let! _ := map_err "Failed to inject pending upstream reorg transfer reload fault"
                    (injector maybe_fail_transfer_reload) in
        let! t := gets tables_of in
        let! _ := map_err "Failed to reload transfer tracker during pending upstream reorg recovery"
                    (on_indexer (tracker (reload_from_storage t))) in
        let! _ := map_err "Data consistency check failed after pending upstream reorg recovery"
                    (on_indexer (pass_tables (assert_no_data_after_block_height pending_height))) in
        let! _ := map_err "Balance snapshot consistency check failed after pending upstream reorg recovery"
                    (on_indexer (pass_tables
                       (assert_balance_snapshot_consistency pending_height genesis_block_height))) in
        let! _ := map_err "Failed to clear pending upstream reorg recovery marker"
                    (on_indexer (pass_tables clear_upstream_reorg_recovery_pending_height)) in
        mark_pending false
  end.

Definition reconcile_upstream_reorg (current_height latest_height : u32)
    (balance_history_snapshot : BalanceHistorySnapshotInfo) (genesis_block_height : u32) :
    M Runtime u32 :=
  let! detected := on_indexer (pass_tables (detect_upstream_reorg_target current_height latest_height
                     balance_history_snapshot genesis_block_height)) in
  match detected with
  | None => ret current_height
  | Some (rollback_target, drift_reason) =>
      let! _ := mark_pending true in
      let! rolled_back := try (on_indexer (storage
        (rollback_to_block_height_with_upstream_reorg_recovery_pending rollback_target None))) in
      match rolled_back with
      | inr _ =>
          let! _ := mark_pending false in
          fail "Failed to rollback miner pass storage after upstream anchor drift"
      | inl _ =>
          let! _ := resume_pending_upstream_reorg_recovery genesis_block_height in
          ret rollback_target
      end
  end.

(** ** Anchors *)

Definition backfill_height (height : u32) : M Tables unit :=
  let! anchor := get_balance_history_snapshot_anchor_at_height height in
  match anchor with
  | Some _ => ret tt
  | None =>
      let! state_ref := map_err "Failed to load balance-history historical state ref"
                          (lift (get_state_ref_at_height height)) in
      map_err "Failed to persist backfilled balance-history snapshot history"
        (upsert_balance_history_snapshot_history_entry (snapshot_of_state_ref state_ref))
  end.
Definition backfill_balance_history_snapshot_history (start_height end_height : u32) :
    M Tables unit :=
  if start_height >? end_height then ret tt
  else
    let! first_missing :=
      get_first_missing_balance_history_snapshot_history_height start_height end_height in
    match first_missing with
    | None => ret tt
    | Some first_missing_height => for_each (heights first_missing_height end_height) backfill_height
    end.

Definition persist_balance_history_snapshot_anchor (synced_height : u32)
    (snapshot : BalanceHistorySnapshotInfo) : M PassDb unit :=
  if negb (bs_stable_height snapshot =? synced_height)
  then fail "Balance-history snapshot height mismatch when persisting anchor"
  else map_err "Failed to persist adopted balance-history snapshot anchor"
         (upsert_balance_history_snapshot_anchor snapshot).

(** ** The sync loop *)

(** [wait_for_new_blocks] over what its rounds observe: the snapshot of the status, and whether a
    shutdown was requested after the sleep.  [None] while it still waits. *)
Fixpoint wait_for_new_blocks (genesis_block_height last_synced_height : u32)
    (rounds : list (option BalanceHistorySnapshotInfo * bool)) : M Tables (option u32) :=
  match rounds with
  | [] => ret None
  | (latest_snapshot, should_stop) :: rounds =>
      let latest_height := default last_synced_height (bs_stable_height <$> latest_snapshot) in
      if latest_height >? last_synced_height then ret (Some latest_height)
      else
        let! drifted :=
          match latest_snapshot with
          | Some snapshot =>
              let! target := detect_upstream_reorg_target last_synced_height latest_height snapshot
                               genesis_block_height in
              ret (bool_decide (is_Some target))
          | None => ret false
          end in
        if drifted : bool then ret (Some latest_height)
        else if should_stop : bool then ret (Some last_synced_height)
        else wait_for_new_blocks genesis_block_height last_synced_height rounds
  end.

(** The two statements that close a round of the loop on an adopted height. *)
Definition adopt_height (genesis_block_height current_height : u32)
    (snapshot : BalanceHistorySnapshotInfo) : M InscriptionIndexer unit :=
  let! _ := storage (persist_balance_history_snapshot_anchor current_height snapshot) in
  pass_tables (backfill_balance_history_snapshot_history genesis_block_height current_height).

(** [sync_once]; [snapshot] and [stable_height] are the two reads of the status cell that
    another task updates. *)
Definition sync_once (snapshot : option BalanceHistorySnapshotInfo) (stable_height : option u32)
    (genesis_block_height : u32) : M Runtime u32 :=
  let! balance_history_snapshot := lift (ok_or "Balance-history snapshot is not ready yet" snapshot) in
  let! latest_height := lift (ok_or "Balance-history stable height is not ready yet" stable_height) in
  let! synced := on_indexer (pass_tables get_synced_btc_block_height) in
  let current_height := default 0 synced in
  let current_height :=
    if current_height <? u32_sub genesis_block_height 1 then u32_sub genesis_block_height 1
    else current_height in
  let! _ := resume_pending_upstream_reorg_recovery genesis_block_height in
  let! synced := on_indexer (pass_tables get_synced_btc_block_height) in
  let current_height := default current_height synced in
  let current_height :=
    if current_height <? u32_sub genesis_block_height 1 then u32_sub genesis_block_height 1
    else current_height in
  if latest_height <? genesis_block_height then ret latest_height
  else
    let! current_height := reconcile_upstream_reorg current_height latest_height
                             balance_history_snapshot genesis_block_height in
    let! _ := map_err "Data consistency check failed before syncing"
                (on_indexer (pass_tables (assert_no_data_after_block_height current_height))) in
    let! _ := map_err "Balance snapshot consistency check failed before syncing"
                (on_indexer (pass_tables
                   (assert_balance_snapshot_consistency current_height genesis_block_height))) in
    let! _ := map_err "Energy consistency check failed before syncing"
                (on_indexer (energy_manager (reconcile_with_pass_synced_height current_height))) in
    if current_height >=? latest_height then
      let! _ := on_indexer (adopt_height genesis_block_height current_height balance_history_snapshot) in
      ret current_height
    else
      let next_height := u32_add current_height 1 in
      let! current_height := map_err "Failed to sync inscriptions from block range"
                               (on_indexer (sync_blocks next_height latest_height)) in
      let! _ := on_indexer (adopt_height genesis_block_height current_height balance_history_snapshot) in
      ret current_height.
End Reorg.
