(* ===== verification/ReorgRecovery.v ===== *)
(** * Detecting and recovering from an upstream reorganisation

    Theorems on [Reorg]: the drift that is detected, the common ancestor that is found, the recovery
    that resumes where it stopped, and the state it ends in. *)

From S2P Require Import Prelude Types EnergyStorage Energy PassStorage PassLedger PassCommit Pass.
From S2P Require Import Tx Transfer Content BlockEvents BalanceLoader BalanceMonitor InscriptionSource.
From S2P Require Import BlockFrame BlockSync BlockAtomicity StoreAgreement SyncInvariant Reorg.

(** ** Detection and the common ancestor *)

Section Detection.
Context {SE : SyncEnv} {HE : HistoryEnv}.

(** Local and upstream state agree on a height: the commits match, and so does the anchor stored for
    the height, if there is one. *)
Definition agrees_at (t : Tables) (k : u32) : Prop :=
  ∃ c u, t_commits t !! k = Some c ∧ get_block_commit k = Ok (Some u)
    ∧ stored_pass_commit_matches_upstream c u = true
    ∧ ∀ a, t_anchors t !! k = Some a → ∃ r, get_state_ref_at_height k = Ok r
        ∧ stored_snapshot_anchor_matches_historical_state_ref a r = true.

(** The local history has the height, and balance-history answers for it. *)
Definition answers (t : Tables) (k : u32) : Prop :=
  is_Some (t_commits t !! k) ∧ (∃ u, get_block_commit k = Ok (Some u))
  ∧ (is_Some (t_anchors t !! k) → ∃ r, get_state_ref_at_height k = Ok r).

(** What the search learns at one height: [Ok None] when the local commit is missing. *)
Definition verdict (t : Tables) (k : u32) : result (option bool) :=
  match t_commits t !! k with
  | None => Ok None
  | Some c =>
      let? found := get_block_commit k in
      let? u := ok_or "Balance-history block commit is missing during common-ancestor search" found in
      match t_anchors t !! k with
      | None => Ok (Some (stored_pass_commit_matches_upstream c u))
      | Some a =>
          match get_state_ref_at_height k with
          | Ok r => Ok (Some (stored_pass_commit_matches_upstream c u
                              && stored_snapshot_anchor_matches_historical_state_ref a r))
          | Err _ => Err "Balance-history historical state ref is missing during common-ancestor search"
          | Panic e => Panic e
          end
      end
  end.

Lemma search_step floor k search t :
  search_common_ancestor floor (k :: search) t
  = match verdict t k with
    | Ok None => (Ok floor, t)
    | Ok (Some true) => (Ok k, t)
    | Ok (Some false) => search_common_ancestor floor search t
    | Err e => (Err e, t)
    | Panic e => (Panic e, t)
    end.
Proof.
  cbn [search_common_ancestor]. unfold verdict, get_pass_block_commit,
    get_balance_history_snapshot_anchor_at_height, bind, gets, lift, map_err.
  destruct (t_commits t !! k) as [c|]; [|done]. destruct (get_block_commit k) as [[u|]|e|e]; [|done..].
  cbn. destruct (t_anchors t !! k) as [a|].
  - destruct (get_state_ref_at_height k) as [r|e|e]; [|done..]. by destruct (_ && _).
  - by destruct (stored_pass_commit_matches_upstream c u).
Qed.

Lemma verdict_agrees t k : verdict t k = Ok (Some true) ↔ agrees_at t k.
Proof.
  unfold verdict, agrees_at. destruct (t_commits t !! k) as [c|];
    [|split; [done|by intros (? & ? & ? & _)]].
  destruct (get_block_commit k) as [[u|]|e|e]; cbn;
    [|split; [done|by intros (? & ? & _ & ? & _)]..].
  destruct (t_anchors t !! k) as [a|].
  - destruct (get_state_ref_at_height k) as [r|e|e];
      [|split; [done|intros (? & ? & _ & _ & _ & Ha); by destruct (Ha a eq_refl) as (? & ? & _)]..].
    split.
    + intros [= [Hm Hr]%andb_prop]. exists c, u. split_and!; [done..|]. intros ? [= <-]. by exists r.
    + intros (? & ? & [= <-] & [= <-] & Hm & Ha). destruct (Ha a eq_refl) as (? & [= <-] & Hr).
      by rewrite Hm, Hr.
  - split; [intros [= Hm]; exists c, u; by split_and!|]. by intros (? & ? & [= <-] & [= <-] & -> & _).
Qed.
Lemma verdict_answers t k : answers t k → ∃ b, verdict t k = Ok (Some b).
Proof.
  intros ([c Hc] & [u Hu] & Hr). unfold verdict. rewrite Hc, Hu. cbn.
  destruct (t_anchors t !! k) as [a|]; [|by eexists].
  destruct Hr as [r ->]; [by eexists|]. by eexists.
Qed.

(** The search from a tip down. *)
Lemma search_run floor g t : ∀ tip, g - 1 <= tip →
  let out := search_common_ancestor floor (rev (heights g tip)) t in
  out.2 = t
  ∧ (∀ a, out.1 = Ok a → agrees_at t a ∧ g <= a <= tip ∨ a = floor)
  ∧ ((∀ k, g <= k <= tip → answers t k) →
     ∃ a, out.1 = Ok a ∧ (agrees_at t a ∧ g <= a <= tip ∧ (∀ k, a < k <= tip → ¬ agrees_at t k)
                          ∨ a = floor ∧ ∀ k, g <= k <= tip → ¬ agrees_at t k)).
Proof.
  intros tip Hle. remember (Z.to_nat (tip - (g - 1))) as d eqn:Ed. revert tip Hle Ed.
  induction d as [|d IH]; intros tip Hle Ed.
  { rewrite heights_nil by lia. split_and!; [done| |].
    - intros a [= <-]. by right.
    - intros _. exists floor. split; [done|]. right. split; [done|]. lia. }
  rewrite heights_snoc, rev_app_distr by lia. cbn [rev app]. rewrite search_step.
  destruct (IH (tip - 1) ltac:(lia) ltac:(lia)) as (I1 & I2 & I3).
  pose proof (verdict_agrees t tip) as Hv.
  destruct (verdict t tip) as [[[]|]|e|e] eqn:Ev; cbn.
  - split_and!; [done| |].
    + intros a [= <-]. left. split; [by apply Hv|lia].
    + intros _. exists tip. split; [done|]. left. split; [by apply Hv|]. split; [lia|]. intros k Hk. lia.
  - assert (¬ agrees_at t tip) as Hn by by intros ?%Hv. split_and!; [done| |].
    + intros a Ha. destruct (I2 a Ha) as [[? ?]|?]; [left; split; [done|lia]|by right].
    + intros Hans. destruct I3 as (a & Ha & Hr); [intros; apply Hans; lia|]. exists a. split; [done|].
      destruct Hr as [(H1 & H2 & H3)|[H1 H2]].
      * left. split; [done|]. split; [lia|]. intros k Hk.
        destruct (decide (k = tip)) as [->|]; [done|]. apply H3. lia.
      * right. split; [done|]. intros k Hk. destruct (decide (k = tip)) as [->|]; [done|]. apply H2. lia.
  - split_and!; [done| |].
    + intros a [= <-]. by right.
    + intros Hans. destruct (verdict_answers t tip) as [b Hb]; [apply Hans; lia|congruence].
  - split_and!; [done|done|]. intros Hans.
    destruct (verdict_answers t tip) as [b Hb]; [apply Hans; lia|congruence].
  - split_and!; [done|done|]. intros Hans.
    destruct (verdict_answers t tip) as [b Hb]; [apply Hans; lia|congruence].
Qed.

(** The search for the common ancestor reads only.  Whatever it answers is a height on which local
    and upstream state agree, or the height below the genesis block; and when the local history is
    complete and balance-history answers, it ends with the greatest height on which they agree. *)
Theorem common_ancestor_correct current latest g t :
  0 <= g →
  let tip := Z.min current latest in
  let out := find_common_ancestor_height current latest g t in
  out.2 = t
  ∧ (∀ a, out.1 = Ok a → agrees_at t a ∧ g <= a <= tip ∨ a = Z.max 0 (g - 1))
  ∧ ((∀ k, g <= k <= tip → answers t k) →
     ∃ a, out.1 = Ok a ∧ (agrees_at t a ∧ g <= a <= tip ∧ (∀ k, a < k <= tip → ¬ agrees_at t k)
                          ∨ a = Z.max 0 (g - 1) ∧ ∀ k, g <= k <= tip → ¬ agrees_at t k)).
Proof.
  intros Hg tip out. unfold out, find_common_ancestor_height, u32_saturating_sub. fold tip.
  destruct (tip <? g) eqn:E; b2p; [|apply search_run; lia]. split_and!; [done| |].
  - intros a [= <-]. by right.
  - intros _. eexists. split; [done|]. right. split; [done|]. lia.
Qed.

(** No drift: the upstream head is not below the local height; at the same height the adopted anchor
    is still the upstream snapshot; and the upstream commit of the local height is the one the local
    commit was built on. *)
Definition no_drift (current latest : u32) (snapshot : BalanceHistorySnapshotInfo) (g : u32)
    (t : Tables) : Prop :=
  current <= latest
  ∧ (current = latest → match (get_balance_history_snapshot_anchor t).1 with
                        | Ok None => True
                        | Ok (Some a) => snapshot_anchor_matches_upstream a snapshot = Ok true
                        | _ => False
                        end)
  ∧ (g <= current → ∀ c, t_commits t !! current = Some c →
       ∃ u, get_block_commit current = Ok (Some u) ∧ stored_pass_commit_matches_upstream c u = true).

Lemma anchor_reads t : (get_balance_history_snapshot_anchor t).2 = t.
Proof.
  unfold get_balance_history_snapshot_anchor, get_numeric_state, get_text_state, bind, gets, lift.
  repeat (done || case_match; simplify_eq/=).
Qed.

Lemma anchor_drift_none current latest snapshot t :
  (anchor_drift current latest snapshot t).2 = t
  ∧ ((anchor_drift current latest snapshot t).1 = Ok [] ↔
     (current = latest → match (get_balance_history_snapshot_anchor t).1 with
                         | Ok None => True
                         | Ok (Some a) => snapshot_anchor_matches_upstream a snapshot = Ok true
                         | _ => False
                         end)).
Proof.
  unfold anchor_drift. destruct (current =? latest) eqn:E; b2p; [|by split].
  pose proof (anchor_reads t) as Hr. unfold bind at 1 3.
  destruct (get_balance_history_snapshot_anchor t) as [[[a|]|e|e] t1]; cbn in *; subst t1;
    [|by split|by (split; [done|split; [done|intros H; by destruct (H E)]])..].
  unfold bind, lift. destruct (snapshot_anchor_matches_upstream a snapshot) as [[]|e|e]; cbn;
    (split; [done|]); (split; [done|intros H; specialize (H E); done]).
Qed.
Lemma commit_drift_none current g t :
  (commit_drift current g t).2 = t
  ∧ ((commit_drift current g t).1 = Ok [] ↔
     (g <= current → ∀ c, t_commits t !! current = Some c →
       ∃ u, get_block_commit current = Ok (Some u) ∧ stored_pass_commit_matches_upstream c u = true)).
Proof.
  unfold commit_drift. destruct (current >=? g) eqn:E; [|split; [done|]; split; [intros _ ?; lia|done]].
  unfold get_pass_block_commit. erewrite bind_run by reflexivity.
  destruct (t_commits t !! current) as [c|]; [|by split]. unfold bind, lift.
  destruct (get_block_commit current) as [[u|]|e|e]; cbn.
  - destruct (stored_pass_commit_matches_upstream c u) eqn:Em; (split; [done|]).
    + split; [|done]. intros _ _ ? [= <-]. by exists u.
    + split; [done|]. intros H. destruct (H ltac:(lia) c eq_refl) as (? & [= <-] & ?). congruence.
  - split; [done|]. split; [done|]. intros H. by destruct (H ltac:(lia) c eq_refl) as (? & ? & _).
  - split; [done|]. split; [done|]. intros H. by destruct (H ltac:(lia) c eq_refl) as (? & ? & _).
  - split; [done|]. split; [done|]. intros H. by destruct (H ltac:(lia) c eq_refl) as (? & ? & _).
Qed.

Lemma find_common_ancestor_reads current latest g t :
  (find_common_ancestor_height current latest g t).2 = t.
Proof.
  unfold find_common_ancestor_height. destruct (_ <? g) eqn:E; b2p; [done|]. apply search_run. lia.
Qed.

Lemma detect_run current latest snapshot g t :
  (detect_upstream_reorg_target current latest snapshot g t).2 = t
  ∧ ((detect_upstream_reorg_target current latest snapshot g t).1 = Ok None
     ↔ no_drift current latest snapshot g t).
Proof.
  unfold detect_upstream_reorg_target, no_drift.
  destruct (anchor_drift_none current latest snapshot t) as [A1 <-].
  destruct (commit_drift_none current g t) as [C1 <-].
  destruct (anchor_drift current latest snapshot t) as [[la|e|e] t1] eqn:Ea; cbn in A1; subst t1;
    [rewrite (bind_run _ _ _ _ _ Ea)|rewrite (bind_run_Err _ _ _ _ _ Ea)|rewrite (bind_run_Panic _ _ _ _ _ Ea)];
    [|by split; [|split; [|intros (_ & ? & _)]]..].
  destruct (commit_drift current g t) as [[lc|e|e] t1] eqn:Ec; cbn in C1; subst t1;
    [rewrite (bind_run _ _ _ _ _ Ec)|rewrite (bind_run_Err _ _ _ _ _ Ec)|rewrite (bind_run_Panic _ _ _ _ _ Ec)];
    [|by split; [|split; [|intros (_ & _ & ?)]]..].
  cbn [fst].
  destruct (height_drift current latest ++ la ++ lc) as [|x l] eqn:El.
  - apply app_eq_nil in El as [Eh [-> ->]%app_eq_nil]. split; [done|]. split; [|done]. intros _.
    split_and!; [|done..]. unfold height_drift in Eh. destruct (current >? latest) eqn:E; [done|lia].
  - pose proof (find_common_ancestor_reads current latest g t) as Hr. unfold bind.
    destruct (find_common_ancestor_height current latest g t) as [[a|e|e] t1]; cbn in Hr |- *; subst t1;
      (split; [done|]); (split; [done|]); intros (H1 & [= ->] & [= ->]); exfalso;
      unfold height_drift in El; (destruct (current >? latest) eqn:E; [lia|done]).
Qed.

(** A reorganisation is not reported exactly when there is no drift, and looking changes nothing. *)
Theorem no_reorg_detected_iff current latest snapshot g t :
  (detect_upstream_reorg_target current latest snapshot g t).2 = t
  ∧ ((detect_upstream_reorg_target current latest snapshot g t).1 = Ok None
     ↔ no_drift current latest snapshot g t).
Proof. apply detect_run. Qed.
End Detection.

(** ** The second phase of the recovery *)

Section Recovery.
Context (g : u32).

Abbreviation tables_of_rt s := (pm_tables (miner_pass_manager (indexer s))).
Abbreviation energy_of s := (pm_energy (miner_pass_manager (indexer s))).

(** The pass store has been rolled back to [T] and carries the marker; the energy store and the
    tracker still have to follow. *)
Record recovering (T : u32) (s : Runtime) : Prop := {
  rc_range : 0 <= T <= U32_MAX;
  rc_pending : t_state (tables_of_rt s) !! UPSTREAM_REORG_RECOVERY_PENDING_HEIGHT_KEY = Some T;
  rc_synced : t_state (tables_of_rt s) !! BTC_SYNCED_BLOCK_HEIGHT_KEY = Some T;
  rc_clean : (assert_no_data_after_block_height T (tables_of_rt s)).1 = Ok tt;
  rc_balance : assert_balance_snapshot_consistency T g (tables_of_rt s) = (Ok tt, tables_of_rt s);
  rc_ids : ∀ i p, t_passes (tables_of_rt s) !! i = Some p → inscription_id p = i;
  rc_size : Z.of_nat (size (t_passes (tables_of_rt s))) + 2 * PAGE_SIZE <= I64_MAX;
  rc_wf : wf_db (energy_of s);
  rc_max : max_marker_ok (energy_of s);
  rc_ahead : ∀ m, meta_synced_block_height (energy_of s) = Some m → T <= m
}.

(** Only the second phase may fail, by an injected fault. *)
Definition budget (s : Runtime) : Z * Z :=
  (energy_failure_budget (reorg_recovery_fault_injector s),
   transfer_reload_failure_budget (reorg_recovery_fault_injector s)).

(** A routine that only reads the tables. *)
Lemma rt_tables_pure {A} (m : M Tables A) s r :
  m (tables_of_rt s) = (r, tables_of_rt s) → on_indexer (pass_tables m) s = (r, s).
Proof.
  intros E. unfold on_indexer, zoom. rewrite (pass_tables_pure m (indexer s) r E). by destruct s.
Qed.

Lemma rollback_energy T s :
  recovering T s →
  ∃ db, rollback_to_pass_synced_height T (energy_of s) = (Ok tt, db)
    ∧ (∀ k v, pass_energy_cf db !! k = Some v ↔ pass_energy_cf (energy_of s) !! k = Some v ∧ k.2 <= T
         ∧ ∀ q, meta_pending_block_height (energy_of s) = Some q → k.2 < q)
    ∧ meta_pending_block_height db = None ∧ meta_synced_block_height db = Some T
    ∧ wf_db db ∧ max_marker_ok db.
Proof.
  intros [HT _ _ _ _ _ _ W Hm Ha].
  assert (∀ k v, pass_energy_cf (energy_of s) !! k = Some v → k.2 <= U32_MAX) as Hu.
  { intros k v Hk. pose proof (wf_key_height _ (W _ _ Hk)). lia. }
  destruct (reconcile_run T (energy_of s) Hm HT Hu) as (H1 & H2 & H3 & H4).
  pose proof (reconcile_keeps_max T (energy_of s) Hm HT Hu) as H5.
  unfold rollback_to_pass_synced_height. apply H3 in Ha.
  destruct (reconcile_with_pass_synced_height T (energy_of s)) as [[[]|?|?] db]; [|done..].
  exists db. split_and!; try done; [by apply H4|]. intros k v Hk. apply H1 in Hk as [Hk _]. by eapply W.
Qed.

(** The first phase of an attempt, up to the first injected fault. *)
Lemma resume_unfold T s :
  recovering T s →
  resume_pending_upstream_reorg_recovery g s
  = (let! _ := map_err "Failed to inject pending upstream reorg energy recovery fault"
                 (injector maybe_fail_energy_recovery) in
     let! _ := map_err "Failed to rollback energy state during pending upstream reorg recovery"
                 (on_indexer (energy_manager (rollback_to_pass_synced_height T))) in
     let! _ := map_err "Failed to inject pending upstream reorg transfer reload fault"
                 (injector maybe_fail_transfer_reload) in
     let! t := gets tables_of in
     let! _ := map_err "Failed to reload transfer tracker during pending upstream reorg recovery"
                 (on_indexer (tracker (reload_from_storage t))) in
     let! _ := map_err "Data consistency check failed after pending upstream reorg recovery"
                 (on_indexer (pass_tables (assert_no_data_after_block_height T))) in
     let! _ := map_err "Balance snapshot consistency check failed after pending upstream reorg recovery"
                 (on_indexer (pass_tables (assert_balance_snapshot_consistency T g))) in
     let! _ := map_err "Failed to clear pending upstream reorg recovery marker"
                 (on_indexer (pass_tables clear_upstream_reorg_recovery_pending_height)) in
     mark_pending false) (set_upstream_reorg_recovery_pending true s).
Proof.
  intros R. unfold resume_pending_upstream_reorg_recovery.
  rewrite (bind_run _ _ s (Some T) s).
  2: { apply rt_tables_pure. unfold get_upstream_reorg_recovery_pending_height, get_numeric_state.
       erewrite bind_run by reflexivity. rewrite (rc_pending _ _ R). pose proof (rc_range _ _ R).
       rewrite (proj2 (Z.ltb_ge T 0)) by lia. by rewrite i64_as_u32_id by lia. }
  rewrite (bind_run _ _ s tt (set_upstream_reorg_recovery_pending true s)) by done.
  rewrite (bind_run _ _ _ (Some T) (set_upstream_reorg_recovery_pending true s)).
  2: { apply rt_tables_pure. unfold get_synced_btc_block_height, get_numeric_state.
       erewrite bind_run by reflexivity. cbn. rewrite (rc_synced _ _ R). cbn.
       pose proof (rc_range _ _ R). by rewrite i64_as_u32_id by lia. }
  cbn [default]. by rewrite Z.eqb_refl.
Qed.

Lemma inject_energy s :
  map_err "Failed to inject pending upstream reorg energy recovery fault"
    (injector maybe_fail_energy_recovery) s
  = if (budget s).1 =? 0 then (Ok tt, s)
    else (Err "Failed to inject pending upstream reorg energy recovery fault",
          set_injector (set_energy_failure_budget ((budget s).1 - 1) (reorg_recovery_fault_injector s)) s).
Proof.
  destruct s as [i p [e f]]. unfold map_err, injector, zoom, maybe_fail_energy_recovery, bind, zoom, consume_budget.
  cbn. by destruct (e =? 0) eqn:E; b2p; subst.
Qed.
Lemma inject_transfer s :
  map_err "Failed to inject pending upstream reorg transfer reload fault"
    (injector maybe_fail_transfer_reload) s
  = if (budget s).2 =? 0 then (Ok tt, s)
    else (Err "Failed to inject pending upstream reorg transfer reload fault",
          set_injector (set_transfer_reload_failure_budget ((budget s).2 - 1) (reorg_recovery_fault_injector s)) s).
Proof.
  destruct s as [i p [e f]]. unfold map_err, injector, zoom, maybe_fail_transfer_reload, bind, zoom, consume_budget.
  cbn. by destruct (f =? 0) eqn:E; b2p; subst.
Qed.

(** What every attempt keeps: the tables, and the energy records that the recovery will keep. *)
Definition kept (T : u32) (s0 s : Runtime) : Prop :=
  tables_of s = tables_of s0
  ∧ ∀ k v, (pass_energy_cf (energy_of s) !! k = Some v ∧ k.2 <= T
            ∧ ∀ q, meta_pending_block_height (energy_of s) = Some q → k.2 < q)
        ↔ (pass_energy_cf (energy_of s0) !! k = Some v ∧ k.2 <= T
            ∧ ∀ q, meta_pending_block_height (energy_of s0) = Some q → k.2 < q).

(** One attempt. *)
Lemma attempt T s :
  recovering T s → 0 <= (budget s).1 → 0 <= (budget s).2 →
  let '(r, s') := resume_pending_upstream_reorg_recovery g s in
  if (budget s).1 >? 0 then
    (∃ e, r = Err e) ∧ recovering T s' ∧ kept T s s' ∧ upstream_reorg_recovery_pending s' = true
    ∧ budget s' = ((budget s).1 - 1, (budget s).2)
  else if (budget s).2 >? 0 then
    (∃ e, r = Err e) ∧ recovering T s' ∧ kept T s s' ∧ upstream_reorg_recovery_pending s' = true
    ∧ budget s' = (0, (budget s).2 - 1)
  else
    r = Ok tt ∧ upstream_reorg_recovery_pending s' = false ∧ budget s' = budget s
    ∧ pm_storage (miner_pass_manager (indexer s'))
      = set_tables (clear_upstream_reorg_recovery_pending_height (tables_of s)).2
          (pm_storage (miner_pass_manager (indexer s)))
    ∧ pm_collector (miner_pass_manager (indexer s')) = pm_collector (miner_pass_manager (indexer s))
    ∧ (∀ k v, pass_energy_cf (energy_of s') !! k = Some v ↔
         pass_energy_cf (energy_of s) !! k = Some v ∧ k.2 <= T
         ∧ ∀ q, meta_pending_block_height (energy_of s) = Some q → k.2 < q)
    ∧ meta_pending_block_height (energy_of s') = None ∧ meta_synced_block_height (energy_of s') = Some T
    ∧ wf_db (energy_of s') ∧ max_marker_ok (energy_of s')
    ∧ staged (indexer s') = ∅ ∧ represents (inscriptions (transfer_tracker (indexer s'))) (table_view (tables_of s)).
Proof.
  intros R He Hf. rewrite (resume_unfold T s R). set (s1 := set_upstream_reorg_recovery_pending true s).
  assert (recovering T s1) as R1 by by destruct R.
  change (budget s) with (budget s1).
  destruct ((budget s1).1 >? 0) eqn:Ee.
  { pose proof (inject_energy s1) as Ei. destruct ((budget s1).1 =? 0) eqn:E0; [rewrite Z.gtb_ltb in Ee; b2p; lia|].
    rewrite (bind_run_Err _ _ _ _ _ Ei). split_and!; [by eexists|by destruct R1|done..]. }
  pose proof (inject_energy s1) as Ei. destruct ((budget s1).1 =? 0) eqn:E0; [|rewrite Z.gtb_ltb in Ee; b2p; change (budget s1) with (budget s) in *; lia].
  rewrite (bind_run _ _ _ _ _ Ei). clear Ei.
  destruct (rollback_energy T s1 R1) as (db & Edb & Hcf & Hp & Hs & W & Hm).
  set (s2 := set_indexer (set_manager (set_pm_energy db (miner_pass_manager (indexer s1))) (indexer s1)) s1).
  rewrite (bind_run _ _ s1 tt s2).
  2: { unfold map_err, on_indexer, energy_manager, manager, on_energy, zoom. by rewrite Edb. }
  assert (recovering T s2) as R2.
  { destruct R1 as [? ? ? ? ? ? ? ? ? Ha]. split; try done. intros m Em. cbn in Em. rewrite Hs in Em.
    injection Em as <-. lia. }
  pose proof (inject_transfer s2) as Et. change (budget s2) with (budget s1) in Et.
  destruct ((budget s1).2 >? 0) eqn:Ef.
  { destruct ((budget s1).2 =? 0) eqn:E1; [rewrite Z.gtb_ltb in Ef; b2p; lia|]. rewrite (bind_run_Err _ _ _ _ _ Et).
    split_and!; [by eexists|by destruct R2| |done|].
    - split; [done|]. intros k v. cbn. rewrite Hp, Hcf. naive_solver.
    - unfold budget. cbn. f_equal. unfold budget in E0. cbn in E0. lia. }
  destruct ((budget s1).2 =? 0) eqn:E1; [|rewrite Z.gtb_ltb in Ef; b2p; change (budget s1) with (budget s) in *; lia]. rewrite (bind_run _ _ _ _ _ Et). clear Et.
  erewrite bind_run by reflexivity.
  destruct (reload_run (tables_of s2) (transfer_tracker (indexer s2)) (rc_ids _ _ R2) (rc_size _ _ R2))
    as (m & Er & Hrep).
  set (s3 := set_indexer (set_tracker {| inscriptions := m; staged_blocks := ∅;
    utxo_manager := utxo_manager (transfer_tracker (indexer s2)) |} (indexer s2)) s2).
  rewrite (bind_run _ _ s2 tt s3).
  2: { unfold map_err, on_indexer, tracker, zoom. by rewrite Er. }
  rewrite (bind_run _ _ s3 tt s3).
  2: { unfold map_err. rewrite (rt_tables_pure _ s3 (Ok tt)); [done|].
       rewrite (surjective_pairing (assert_no_data_after_block_height T _)).
       f_equal; [apply (rc_clean _ _ R)|apply assert_no_data_spec]. }
  rewrite (bind_run _ _ s3 tt s3).
  2: { unfold map_err. by rewrite (rt_tables_pure _ s3 (Ok tt) (rc_balance _ _ R)). }
  erewrite bind_run by reflexivity. cbn.
  split_and!; try done.
Qed.

(** The attempts of [sync_once] that fail in the recovery, one after the other. *)
Definition attempts (n : nat) (s : Runtime) : Runtime :=
  Nat.iter n (λ s, (resume_pending_upstream_reorg_recovery g s).2) s.

Lemma attempts_S n s :
  attempts (S n) s = attempts n (resume_pending_upstream_reorg_recovery g s).2.
Proof. unfold attempts. by rewrite Nat.iter_succ_r. Qed.

(** The end of the recovery of [s0]. *)
Definition recovered (T : u32) (s0 s' : Runtime) : Prop :=
  upstream_reorg_recovery_pending s' = false
  ∧ tables_of s' = (clear_upstream_reorg_recovery_pending_height (tables_of s0)).2
  ∧ (∀ k v, pass_energy_cf (energy_of s') !! k = Some v ↔
       pass_energy_cf (energy_of s0) !! k = Some v ∧ k.2 <= T
       ∧ ∀ q, meta_pending_block_height (energy_of s0) = Some q → k.2 < q)
  ∧ meta_pending_block_height (energy_of s') = None ∧ meta_synced_block_height (energy_of s') = Some T
  ∧ staged (indexer s') = ∅
  ∧ represents (inscriptions (transfer_tracker (indexer s'))) (table_view (tables_of s0)).

(** C26. The recovery survives its failures and ends: as many attempts fail as faults are injected, each
    leaves the tables with the durable marker and the readiness flag raised, and the attempt after
    them succeeds, with the energy store at the target height, the tracker reloaded from the table,
    and marker and flag cleared. *)
Theorem recovery_survives_failures T s e f :
  recovering T s → budget s = (Z.of_nat e, Z.of_nat f) →
  (∀ k, (k < e + f)%nat →
     (∃ msg, (resume_pending_upstream_reorg_recovery g (attempts k s)).1 = Err msg)
     ∧ tables_of (attempts (S k) s) = tables_of s
     ∧ upstream_reorg_recovery_pending (attempts (S k) s) = true)
  ∧ ∃ s', resume_pending_upstream_reorg_recovery g (attempts (e + f) s) = (Ok tt, s')
      ∧ recovered T s s'.
Proof.
  remember (e + f)%nat as n eqn:En. revert s e f En. induction n as [|n IH]; intros s e f En R Hb.
  - pose proof (attempt T s R) as Ha. rewrite Hb in Ha. specialize (Ha ltac:(cbn; lia) ltac:(cbn; lia)).
    assert (e = 0%nat ∧ f = 0%nat) as [-> ->] by lia.
    destruct (resume_pending_upstream_reorg_recovery g s) as [r s'] eqn:Er. cbn in Ha.
    destruct Ha as (-> & Hfl & _ & Hst & _ & Hcf & Hp & Hs & _ & _ & Hstag & Hrep).
    split; [lia|]. exists s'. split; [done|]. unfold recovered. split_and!; try done.
    unfold tables_of, pm_tables. by rewrite Hst.
  - pose proof (attempt T s R) as Ha. rewrite Hb in Ha. specialize (Ha ltac:(cbn; lia) ltac:(cbn; lia)).
    destruct (resume_pending_upstream_reorg_recovery g s) as [r s1] eqn:Er. cbn [fst snd] in Ha.
    assert (∃ e' f', (∃ msg, r = Err msg) ∧ recovering T s1 ∧ kept T s s1
              ∧ upstream_reorg_recovery_pending s1 = true ∧ budget s1 = (Z.of_nat e', Z.of_nat f')
              ∧ n = (e' + f')%nat) as (e' & f' & Hr & R1 & [Kt Kc] & Hfl & Hb1 & En').
    { destruct (Z.of_nat e >? 0) eqn:E1; rewrite Z.gtb_ltb in E1; b2p.
      - destruct Ha as (? & ? & ? & ? & Hb'). exists (e - 1)%nat, f. rewrite Hb'.
        split_and!; try done; [f_equal; lia|lia].
      - destruct (Z.of_nat f >? 0) eqn:E2; rewrite Z.gtb_ltb in E2; b2p; [|lia].
        destruct Ha as (? & ? & ? & ? & Hb'). exists 0%nat, (f - 1)%nat. rewrite Hb'.
        split_and!; try done; [f_equal; lia|lia]. }
    destruct (IH s1 e' f' En' R1 Hb1) as [I1 (s' & I2 & I3)]. split.
    + intros [|k] Hk.
      * rewrite attempts_S, Er. change (attempts 0 s) with s. rewrite Er. by split_and!.
      * rewrite !attempts_S, Er. cbn [snd]. destruct (I1 k) as (? & ? & ?); [lia|].
        rewrite attempts_S in *. split_and!; [done|congruence|done].
    + exists s'. rewrite attempts_S, Er. split; [done|]. unfold recovered in *. rewrite Kt in I3.
      destruct I3 as (? & ? & Hcf & ? & ? & ? & ?). split_and!; try done. intros k v. rewrite Hcf. apply Kc.
Qed.
End Recovery.

(** ** A reorganisation from end to end *)

Section Reorganisation.
Context {BP : BalanceProvider} {Laws : BalanceProviderLaws} {IT : IdText} {CE : ContentEnv}
  {BN : BitcoinNode} {CH : CommitHash} {SRC : InscriptionSource} {SL : InscriptionSourceLaws}
  {LD : BalanceRpcLoader} {SE : SyncEnv} {ROWS : BalanceRows} {HE : HistoryEnv}.

(** The rows keyed by height of the state at [T]. *)
Lemma clean_side T t : (assert_no_data_after_block_height T t).1 = Ok tt → side_bound T t.
Proof. intros Hc. apply assert_no_data_spec in Hc as (_ & _ & Hb & _ & Hc & _ & Ha). by split_and!. Qed.

Lemma assert_balance_ext T g t t' :
  t_balances t' = t_balances t →
  assert_balance_snapshot_consistency T g t' = ((assert_balance_snapshot_consistency T g t).1, t').
Proof.
  intros E. unfold assert_balance_snapshot_consistency, get_latest_active_balance_snapshot, bind, gets, lift.
  rewrite E. destruct (head _) as [row|]; [destruct (row_to_active_balance_snapshot row) as [x|?|?]|]; cbn;
    try done; (destruct (T <? g); cbn; [done|]); [|done]. by destruct (negb _).
Qed.

(** The pass store rolled back to the height of [s0], with the marker of the recovery. *)
Lemma rolled_back T L g s0 s :
  synced T s0 → synced L (indexer s) → extends T s0 (indexer s) → 0 <= T <= L →
  (assert_no_data_after_block_height T (pm_tables (miner_pass_manager s0))).1 = Ok tt →
  (assert_balance_snapshot_consistency T g (pm_tables (miner_pass_manager s0))).1 = Ok tt →
  savepoints (pm_storage (miner_pass_manager (indexer s))) = [] →
  Z.of_nat (size (t_passes (pm_tables (miner_pass_manager s0)))) + 2 * PAGE_SIZE <= I64_MAX →
  ∃ s2,
    try (on_indexer (storage (rollback_to_block_height_with_upstream_reorg_recovery_pending T None)))
      (set_upstream_reorg_recovery_pending true s) = (Ok (inl tt), s2)
    ∧ recovering g T s2
    ∧ same_ledger (pm_tables (miner_pass_manager s0)) (tables_of s2) ∧ ledger_ok T (tables_of s2)
    ∧ budget s2 = budget s
    ∧ pm_collector (miner_pass_manager (indexer s2)) = pm_collector (miner_pass_manager (indexer s))
    ∧ pm_energy (miner_pass_manager (indexer s2)) = pm_energy (miner_pass_manager (indexer s)).
Proof.
  intros Y0 YL [Xt Xe] HT Hclean Hbal Hsp Hsize.
  pose proof (rd_ledger _ _ (sy_ready _ _ Y0)) as L0. replace (T + 1 - 1) with T in L0 by lia.
  pose proof (rd_ledger _ _ (sy_ready _ _ YL)) as LL. replace (L + 1 - 1) with L in LL by lia.
  destruct (rollback_restores T _ L _ true LL L0 (clean_side _ _ Hclean) Xt) as (t' & Er & Hsame & K1 & K2 & K3).
  pose proof (ledger_ok_rollback L _ T true LL ltac:(lia)) as L'. rewrite Er in L'. cbn in L'.
  eexists. split.
  { unfold try, on_indexer, storage, manager, zoom. cbn.
    unfold rollback_to_block_height_with_upstream_reorg_recovery_pending, rollback_to_block_height_internal, transaction.
    rewrite Hsp. change (tables (pm_storage (miner_pass_manager (indexer s)))) with (pm_tables (miner_pass_manager (indexer s))).
    rewrite Er. reflexivity. }
  split; [|by split_and!].
  pose proof Hsame as (E1 & E2 & E3 & E4 & E5).
  apply assert_no_data_spec in Hclean as (_ & H1 & H2 & H3 & H4 & _ & H6).
  pose proof (rd_height _ _ (sy_ready _ _ Y0)). split; cbn.
  - lia.
  - done.
  - done.
  - apply assert_no_data_spec. unfold pm_tables. cbn. rewrite E1, E2, E3, E4, E5, K1, K2.
    split_and!; try done. cbn. rewrite i64_as_u32_id by lia. lia.
  - unfold pm_tables. cbn. rewrite (assert_balance_ext T g _ t' E4). by rewrite Hbal.
  - unfold pm_tables. cbn. rewrite E1. apply (lk_key _ _ L0).
  - unfold pm_tables. cbn. by rewrite E1.
  - apply (sy_ready _ _ YL).
  - apply (sy_ready _ _ YL).
  - intros m. rewrite (rd_energy_synced _ _ (sy_ready _ _ YL)). intros [= <-]. lia.
Qed.

(** C13. The indexer was synchronised at height [T] in the state [s0], and has synchronised blocks since,
    up to [L], in both states with every balance row of an active pass's owner settled
    ([rows_settled], part of [synced]), and the records up to [T] untouched since.  Balance-history now
    disagrees, and the height on which both agree is [T].  Then the reorganisation is handled without
    error: the passes, the event log, the commits, the balance snapshots and the anchors are those of
    [s0], the pass store and the energy store are synchronised at [T] again, ready for the blocks of
    the new branch, the tracker has no block staged and its published map follows the table, and
    neither the marker nor the readiness flag is left. *)
Theorem reorg_restores_ancestor T L latest snapshot g s0 s why :
  synced T s0 → synced L (indexer s) → extends T s0 (indexer s) → 0 <= T <= L →
  (assert_no_data_after_block_height T (pm_tables (miner_pass_manager s0))).1 = Ok tt →
  (assert_balance_snapshot_consistency T g (pm_tables (miner_pass_manager s0))).1 = Ok tt →
  savepoints (pm_storage (miner_pass_manager (indexer s))) = [] →
  Z.of_nat (size (t_passes (pm_tables (miner_pass_manager s0)))) + 2 * PAGE_SIZE <= I64_MAX →
  budget s = (0, 0) →
  (detect_upstream_reorg_target L latest snapshot g (tables_of s)).1 = Ok (Some (T, why)) →
  ∃ s', reconcile_upstream_reorg L latest snapshot g s = (Ok T, s')
    ∧ same_ledger (pm_tables (miner_pass_manager s0)) (tables_of s')
    ∧ synced T (indexer s')
    ∧ represents (inscriptions (transfer_tracker (indexer s'))) (table_view (tables_of s'))
    ∧ t_state (tables_of s') !! UPSTREAM_REORG_RECOVERY_PENDING_HEIGHT_KEY = None
    ∧ upstream_reorg_recovery_pending s' = false.
Proof.
  intros Y0 YL X HT Hclean Hbal Hsp Hsize Hb Hd.
  destruct (rolled_back T L g s0 s Y0 YL X HT Hclean Hbal Hsp Hsize) as (s2 & Er & R2 & Hsame & L2 & Hbud & Hcol & Hen).
  unfold reconcile_upstream_reorg. rewrite (bind_run _ _ s (Some (T, why)) s).
  2: { apply rt_tables_pure. pose proof (proj1 (detect_run L latest snapshot g (tables_of s))) as H2.
       unfold tables_of in *. rewrite (surjective_pairing (detect_upstream_reorg_target _ _ _ _ _)). by rewrite Hd, H2. }
  erewrite bind_run by reflexivity. rewrite (bind_run _ _ _ (inl tt) s2) by exact Er.
  pose proof (attempt g T s2 R2) as Ha. rewrite Hbud, Hb in Ha. specialize (Ha ltac:(done) ltac:(done)).
  destruct (resume_pending_upstream_reorg_recovery g s2) as [r s3] eqn:Ers. cbn [fst snd Z.gtb Z.compare] in Ha.
  destruct Ha as (-> & Hfl & _ & Hst & Hc3 & Hcf & Hp & Hs & W & Hm & Hstag & Hrep).
  erewrite bind_run by exact Ers. exists s3. split; [done|].
  assert (tables_of s3 = (clear_upstream_reorg_recovery_pending_height (tables_of s2)).2) as Et3
    by (unfold tables_of at 1, pm_tables; by rewrite Hst).
  assert (same_ledger (pm_tables (miner_pass_manager s0)) (tables_of s3)) as Hs3 by by rewrite Et3.
  split_and!; try done.
  - apply (synced_same T s0); try done.
    + change (ledger_ok T (tables_of s3)). rewrite Et3. by apply (ledger_ok_same T (tables_of s2)).
    + apply Hs3.
    + change (t_state (tables_of s3) !! BTC_SYNCED_BLOCK_HEIGHT_KEY = Some T). rewrite Et3. cbn.
      rewrite lookup_delete_ne by done. apply (rc_synced _ _ _ R2).
    + apply map_eq. intros k. apply option_eq. intros v. rewrite Hcf, Hen, (rd_pending _ _ (sy_ready _ _ YL)).
      split.
      * intros (Hk & Hle & _). by rewrite <-(ex_energy _ _ _ X) by done.
      * intros Hk. pose proof (rd_records _ _ (sy_ready _ _ Y0) _ _ Hk). rewrite (ex_energy _ _ _ X) by lia.
        by split_and!; [|lia|].
    + unfold collector. rewrite Hc3, Hcol. apply (rd_collector _ _ (sy_ready _ _ YL)).
  - rewrite Et3. exact Hrep.
  - rewrite Et3. cbn. apply lookup_delete_eq.
Qed.
End Reorganisation.

(** ** Witnesses

    The chain of [SyncInvariant]: blocks 10 to 13 are synchronised; then balance-history replaces the
    blocks above 11. *)

#[local] Existing Instances demo_text sync_node sync_content sync_source sync_source_laws sync_hash
  range_provider range_provider_laws range_loader range_rows.

Definition at_11 : InscriptionIndexer := (@sync_loop _ _ _ _ _ _ _ range_chain 10 11 sync_start).2.
Definition at_13 : InscriptionIndexer := (@sync_loop _ _ _ _ _ _ _ range_chain 12 13 at_11).2.

Lemma at_11_synced : synced 11 at_11.
Proof.
  refine (proj1 (@sync_loop_run _ _ _ _ _ _ _ _ _ range_chain _ 10 sync_start 11 (Ok 11) at_11 _ _ _ _)).
  - apply sync_start_synced.
  - exact (range_env_prefix 10 13 11 sync_start range_start_env ltac:(lia)).
  - done.
  - vm_compute. reflexivity.
Qed.
Lemma at_11_env : @range_env _ _ _ _ _ _ _ range_chain range_rows 12 13 at_11.
Proof.
  split; [done..| |intros; apply demo_rows_change]. intros k n s' Hk E.
  assert (k = 12 ∨ k = 13) as [->| ->] by lia; vm_compute in E; injection E as _ <-; by vm_compute.
Qed.
Lemma at_13_run : synced 13 at_13 ∧ extends 11 at_11 at_13.
Proof.
  refine (let H := @sync_loop_run _ _ _ _ _ _ _ _ _ range_chain _ 12 at_11 13 (Ok 13) at_13 _ _ _ _ in
          conj (proj1 H) (proj1 (proj2 H))).
  - apply at_11_synced.
  - apply at_11_env.
  - done.
  - vm_compute. reflexivity.
Qed.

(** The other branch: the same commits up to height 11. *)
#[local] Instance fork_chain : SyncEnv :=
  {| load_block_hint _ := Ok (Some []);
     get_block_commit h :=
       Ok (Some (if h <=? 11 then demo_upstream h
                 else {| bc_block_height := h; bc_block_commit := "fork";
                         bc_commit_protocol_version := "1"; bc_commit_hash_algo := "sha256" |}));
     synced_height_error _ := None; savepoint_commit_error _ := None |}.
#[local] Instance fork_history : HistoryEnv := {| get_state_ref_at_height _ := Err "none" |}.
Definition fork_snapshot : BalanceHistorySnapshotInfo :=
  {| bs_stable_height := 13; bs_stable_block_hash := Some "b"; bs_latest_block_commit := Some "c";
     bs_stable_lag := 6; bs_commit_protocol_version := "1"; bs_commit_hash_algo := "sha256" |}.
Definition before_fork : Runtime :=
  {| indexer := at_13; upstream_reorg_recovery_pending := false;
     reorg_recovery_fault_injector :=
       {| energy_failure_budget := 0; transfer_reload_failure_budget := 0 |} |}.

Lemma reorg_restores_ancestor_witness :
  ∃ s', reconcile_upstream_reorg 13 13 fork_snapshot 10 before_fork = (Ok 11, s')
    ∧ synced 11 (indexer s') ∧ same_ledger (pm_tables (miner_pass_manager at_11)) (tables_of s').
Proof.
  destruct (reorg_restores_ancestor 11 13 13 fork_snapshot 10 at_11 before_fork
    "upstream block commit drifted") as (s' & E & Hl & Y & _);
    [apply at_11_synced|apply at_13_run|apply at_13_run|lia|by vm_compute..|].
  exists s'. split; [exact E|]. split; [exact Y|exact Hl].
Defined.

Lemma common_ancestor_correct_witness :
  agrees_at (tables_of before_fork) 11 ∧ ¬ agrees_at (tables_of before_fork) 12.
Proof.
  destruct (common_ancestor_correct 13 13 10 (tables_of before_fork) ltac:(lia)) as (_ & H & _).
  destruct (H 11) as [[Ha _]|E]; [vm_compute; reflexivity| |done].
  split; [exact Ha|]. intros Hv%verdict_agrees. by vm_compute in Hv.
Defined.

(** Both faults are injected: the third attempt ends the recovery. *)
Definition with_faults : Runtime :=
  set_injector {| energy_failure_budget := 1; transfer_reload_failure_budget := 1 |} before_fork.

Lemma recovery_survives_failures_witness :
  ∃ s, try (on_indexer (storage (rollback_to_block_height_with_upstream_reorg_recovery_pending 11 None)))
         (set_upstream_reorg_recovery_pending true with_faults) = (Ok (inl tt), s)
    ∧ (∃ msg, (resume_pending_upstream_reorg_recovery 10 (attempts 10 1 s)).1 = Err msg)
    ∧ ∃ s', resume_pending_upstream_reorg_recovery 10 (attempts 10 2 s) = (Ok tt, s')
        ∧ recovered 11 s s'.
Proof.
  destruct (rolled_back 11 13 10 at_11 with_faults) as (s & E & R & _ & _ & Hb & _);
    [apply at_11_synced|apply at_13_run|apply at_13_run|lia|by vm_compute..|].
  exists s. split; [exact E|].
  destruct (recovery_survives_failures 10 11 s 1 1 R Hb) as [H1 H2].
  split; [apply (H1 1%nat); lia|exact H2].
Defined.
