(* ===== verification/BalanceCodec.v ===== *)
(** * Keys and values of the balance-history database

    [balance-history/src/db/db.rs] (the key and value layouts) and [usdb-util/src/types.rs]
    ([OutPointCodec], [UTXOValue]).  Everything is big-endian, so that keys sort by their fields.
    A byte string is a list of numbers below 256; a 32-byte hash is the number it spells. *)

From S2P Require Import Prelude Types.

Abbreviation BlockHash := Z (only parsing).

Record UTXOValue := { uv_script_hash : USDBScriptHash; uv_value : u64 }.
Record BlockCommitEntry := {
  cm_block_height : u32;
  cm_btc_block_hash : BlockHash;
  cm_balance_delta_root : list Z;
  cm_block_commit : list Z
}.
Record BlockUndoMetaEntry := {
  um_block_height : u32;
  um_format_version : Z;
  um_btc_block_hash : BlockHash;
  um_created_utxo_count : u32;
  um_spent_utxo_count : u32;
  um_balance_entry_count : u32
}.
Record BlockUndoUtxoEntry := {
  uu_outpoint : OutPoint;
  uu_script_hash : USDBScriptHash;
  uu_value : u64
}.
Record BlockEntry := {
  bf_block_file_index : u32;
  bf_block_file_offset : u64;
  bf_block_record_index : u32
}.

#[export] Instance UTXOValue_eq_dec : EqDecision UTXOValue.
Proof. solve_decision. Defined.
#[export] Instance BlockCommitEntry_eq_dec : EqDecision BlockCommitEntry.
Proof. solve_decision. Defined.
#[export] Instance BlockUndoMetaEntry_eq_dec : EqDecision BlockUndoMetaEntry.
Proof. solve_decision. Defined.
#[export] Instance BlockUndoUtxoEntry_eq_dec : EqDecision BlockUndoUtxoEntry.
Proof. solve_decision. Defined.

(** The slice [data[from..from + len]]. *)
Definition slice (from len : nat) (data : list Z) : list Z := take len (drop from data).
Definition be_at (from len : nat) (data : list Z) : Z := of_be_bytes (slice from len data).

(** ** usdb-util *)

Definition OutPointCodec_encode (o : OutPoint) : list Z :=
  be_bytes 32 (op_txid o) ++ be_bytes 4 (vout o).
Definition OutPointCodec_decode (data : list Z) : result OutPoint :=
  if negb (Nat.eqb (length data) 36) then Err "Invalid data length"
  else Ok {| op_txid := be_at 0 32 data; vout := be_at 32 4 data |}.

Definition UTXOValue_encode (script_hash : USDBScriptHash) (v : u64) : list Z :=
  be_bytes 32 script_hash ++ be_bytes 8 v.
Definition UTXOValue_from_slice (data : list Z) : result UTXOValue :=
  if negb (Nat.eqb (length data) 40) then Err "Invalid UTXOValue data length"
  else Ok {| uv_script_hash := be_at 0 32 data; uv_value := be_at 32 8 data |}.

(** ** Balance history *)

Definition make_balance_history_key (script_hash : USDBScriptHash) (block_height : u32) : list Z :=
  be_bytes 32 script_hash ++ be_bytes 4 block_height.
Definition parse_block_height_from_key (key : list Z) : result u32 :=
  if Nat.eqb (length key) 36 then Ok (be_at 32 4 key) else Panic "Invalid balance key length".

(** The 16 bytes of a row: [delta.to_be_bytes()] and [balance.to_be_bytes()]. *)
Definition balance_value (delta : i64) (balance : u64) : list Z :=
  be_bytes 8 (i64_as_u64 delta) ++ be_bytes 8 balance.
Definition parse_balance_from_value (data : list Z) : result (i64 * u64) :=
  if Nat.eqb (length data) 16 then Ok (u64_as_i64 (be_at 0 8 data), be_at 8 8 data)
  else Panic "Invalid balance value length".

(** ** Blocks, commits and undo bundles *)

Definition parse_block_from_value (data : list Z) : result BlockEntry :=
  if Nat.eqb (length data) 16
  then Ok {| bf_block_file_index := be_at 0 4 data; bf_block_file_offset := be_at 4 8 data;
             bf_block_record_index := be_at 12 4 data |}
  else Panic "Invalid Block value length".

Definition make_block_commit_key (block_height : u32) : list Z := be_bytes 4 block_height.
Definition serialize_block_commit_value (entry : BlockCommitEntry) : list Z :=
  be_bytes 32 (cm_btc_block_hash entry) ++ cm_balance_delta_root entry ++ cm_block_commit entry.
Definition parse_block_commit_value (block_height : u32) (data : list Z) : result BlockCommitEntry :=
  if negb (Nat.eqb (length data) 96) then Err "Invalid block commit value length"
  else Ok {| cm_block_height := block_height; cm_btc_block_hash := be_at 0 32 data;
             cm_balance_delta_root := slice 32 32 data; cm_block_commit := drop 64 data |}.

Definition make_block_undo_meta_key (block_height : u32) : list Z := be_bytes 4 block_height.
Definition serialize_block_undo_meta_value (entry : BlockUndoMetaEntry) : list Z :=
  be_bytes 2 (um_format_version entry) ++ be_bytes 32 (um_btc_block_hash entry)
  ++ be_bytes 4 (um_created_utxo_count entry) ++ be_bytes 4 (um_spent_utxo_count entry)
  ++ be_bytes 4 (um_balance_entry_count entry).
Definition parse_block_undo_meta_value (block_height : u32) (data : list Z) :
    result BlockUndoMetaEntry :=
  if negb (Nat.eqb (length data) 46) then Err "Invalid block undo meta value length"
  else Ok {| um_block_height := block_height; um_format_version := be_at 0 2 data;
             um_btc_block_hash := be_at 2 32 data; um_created_utxo_count := be_at 34 4 data;
             um_spent_utxo_count := be_at 38 4 data; um_balance_entry_count := be_at 42 4 data |}.

Definition make_block_undo_utxo_key (block_height seq : u32) : list Z :=
  be_bytes 4 block_height ++ be_bytes 4 seq.
Definition serialize_block_undo_utxo_value (entry : BlockUndoUtxoEntry) : list Z :=
  OutPointCodec_encode (uu_outpoint entry) ++ be_bytes 32 (uu_script_hash entry)
  ++ be_bytes 8 (uu_value entry).
Definition parse_block_undo_utxo_value (data : list Z) : result BlockUndoUtxoEntry :=
  if negb (Nat.eqb (length data) 76) then Err "Invalid block undo utxo value length"
  else
    let? o := OutPointCodec_decode (take 36 data) in
    Ok {| uu_outpoint := o; uu_script_hash := be_at 36 32 data; uu_value := be_at 68 8 data |}.

Definition make_block_undo_balance_index_key (block_height : u32) (script_hash : USDBScriptHash) :
    list Z := be_bytes 4 block_height ++ be_bytes 32 script_hash.
Definition block_height_prefix_matches (key : list Z) (block_height : u32) : bool :=
  (4 <=? count key) && bool_decide (take 4 key = be_bytes 4 block_height).
Definition parse_u32_be_key (key : list Z) : result u32 :=
  if negb (Nat.eqb (length key) 4) then Err "Invalid 4-byte key length" else Ok (of_be_bytes key).

(** ** Ranges of the fields *)

Definition u256 (z : Z) : Prop := 0 <= z < 256 ^ 32.
Definition wf_outpoint (o : OutPoint) : Prop := u256 (op_txid o) ∧ 0 <= vout o <= U32_MAX.
Definition wf_utxo_value (v : UTXOValue) : Prop :=
  u256 (uv_script_hash v) ∧ 0 <= uv_value v <= U64_MAX.
Definition bytes32 (l : list Z) : Prop := length l = 32%nat.

(** *** Reading a field: skip the fields before it, then take its width *)

Lemma be_at_head w z rest :
  0 <= z < 256 ^ Z.of_nat w → be_at 0 w (be_bytes w z ++ rest) = z.
Proof.
  intros Hz. unfold be_at, slice. rewrite drop_0, take_app_le, take_ge by by rewrite length_be_bytes.
  by apply of_be_bytes_be_bytes.
Qed.
Lemma be_at_last w z : 0 <= z < 256 ^ Z.of_nat w → be_at 0 w (be_bytes w z) = z.
Proof. intros Hz. rewrite <-(app_nil_r (be_bytes w z)). by apply be_at_head. Qed.
Lemma slice_skip from len w z rest :
  (w <= from)%nat → slice from len (be_bytes w z ++ rest) = slice (from - w) len rest.
Proof.
  intros Hw. unfold slice. rewrite drop_app, length_be_bytes, drop_ge by (rewrite length_be_bytes; lia).
  done.
Qed.
Lemma be_at_skip from len w z rest :
  (w <= from)%nat → be_at from len (be_bytes w z ++ rest) = be_at (from - w) len rest.
Proof. intros Hw. unfold be_at. by rewrite slice_skip. Qed.
Lemma drop_skip n w z rest :
  (w <= n)%nat → drop n (be_bytes w z ++ rest) = drop (n - w) rest.
Proof. intros Hw. by rewrite drop_app, length_be_bytes, drop_ge by (rewrite length_be_bytes; lia). Qed.

Lemma pow_u32 z : 0 <= z <= U32_MAX → 0 <= z < 256 ^ Z.of_nat 4.
Proof. change (256 ^ Z.of_nat 4) with 4294967296. unfold U32_MAX. lia. Qed.
Lemma pow_u64 z : 0 <= z <= U64_MAX → 0 <= z < 256 ^ Z.of_nat 8.
Proof. change (256 ^ Z.of_nat 8) with 18446744073709551616. unfold U64_MAX. lia. Qed.
Lemma pow_u16 z : 0 <= z < 65536 → 0 <= z < 256 ^ Z.of_nat 2.
Proof. done. Qed.
Lemma pow_u256 z : u256 z → 0 <= z < 256 ^ Z.of_nat 32.
Proof. done. Qed.

Ltac read_fields :=
  repeat first
    [ rewrite be_at_head by eauto using pow_u32, pow_u64, pow_u16, pow_u256
    | rewrite be_at_last by eauto using pow_u32, pow_u64, pow_u16, pow_u256
    | rewrite be_at_skip by lia
    | rewrite slice_skip by lia
    | rewrite drop_skip by lia
    | progress cbn [Nat.sub] ].
(** The length check of a parser. *)
Ltac check_length := rewrite ?length_app, ?length_be_bytes; cbn [Nat.add Nat.eqb negb].

(** ** What is written is read back *)

Lemma OutPointCodec_roundtrip o : wf_outpoint o → OutPointCodec_decode (OutPointCodec_encode o) = Ok o.
Proof.
  destruct o as [t n]. intros [? ?]. cbn in *. unfold OutPointCodec_decode, OutPointCodec_encode.
  check_length. cbn [op_txid vout]. by read_fields.
Qed.
Lemma UTXOValue_roundtrip v :
  wf_utxo_value v → UTXOValue_from_slice (UTXOValue_encode (uv_script_hash v) (uv_value v)) = Ok v.
Proof.
  destruct v as [h n]. intros [? ?]. cbn in *. unfold UTXOValue_from_slice, UTXOValue_encode.
  check_length. by read_fields.
Qed.
Lemma balance_height_roundtrip h k :
  0 <= k <= U32_MAX → parse_block_height_from_key (make_balance_history_key h k) = Ok k.
Proof.
  intros Hk. unfold parse_block_height_from_key, make_balance_history_key. check_length. by read_fields.
Qed.

Lemma i64_as_u64_range d : 0 <= i64_as_u64 d <= U64_MAX.
Proof. unfold i64_as_u64. pose proof (Z.mod_pos_bound d (U64_MAX + 1) ltac:(done)). lia. Qed.
Lemma u64_as_i64_as_u64 d : I64_MIN <= d <= I64_MAX → u64_as_i64 (i64_as_u64 d) = d.
Proof.
  intros Hd. unfold u64_as_i64, i64_as_u64. destruct (decide (0 <= d)) as [H0|H0].
  - rewrite Z.mod_small by (ints; lia). by rewrite (proj2 (Z.leb_le d I64_MAX)) by lia.
  - replace (d mod (U64_MAX + 1)) with (d + (U64_MAX + 1)).
    + rewrite (proj2 (Z.leb_gt _ _)) by (ints; lia). lia.
    + rewrite <-(Z.mod_add d 1 (U64_MAX + 1)) by done. rewrite Z.mod_small by (ints; lia). lia.
Qed.
Lemma balance_value_roundtrip d b :
  I64_MIN <= d <= I64_MAX → 0 <= b <= U64_MAX →
  parse_balance_from_value (balance_value d b) = Ok (d, b).
Proof.
  intros Hd Hb. unfold parse_balance_from_value, balance_value. check_length.
  pose proof (i64_as_u64_range d). read_fields. by rewrite u64_as_i64_as_u64.
Qed.

Lemma block_commit_roundtrip e :
  u256 (cm_btc_block_hash e) → bytes32 (cm_balance_delta_root e) → bytes32 (cm_block_commit e) →
  parse_block_commit_value (cm_block_height e) (serialize_block_commit_value e) = Ok e.
Proof.
  destruct e as [k h r c]. cbn. intros Hh Hr Hc. unfold bytes32 in *.
  unfold parse_block_commit_value, serialize_block_commit_value. cbn.
  check_length. rewrite Hr, Hc. cbn. read_fields.
  unfold slice. rewrite drop_0, (take_app_le r), take_ge, (drop_app_ge r), Hr, drop_0 by lia. done.
Qed.
Lemma block_undo_meta_roundtrip e :
  0 <= um_format_version e < 65536 → u256 (um_btc_block_hash e) →
  0 <= um_created_utxo_count e <= U32_MAX → 0 <= um_spent_utxo_count e <= U32_MAX →
  0 <= um_balance_entry_count e <= U32_MAX →
  parse_block_undo_meta_value (um_block_height e) (serialize_block_undo_meta_value e) = Ok e.
Proof.
  destruct e as [k v h a b c]. cbn. intros. unfold parse_block_undo_meta_value, serialize_block_undo_meta_value.
  check_length. cbn. by read_fields.
Qed.
Lemma block_undo_utxo_roundtrip e :
  wf_outpoint (uu_outpoint e) → u256 (uu_script_hash e) → 0 <= uu_value e <= U64_MAX →
  parse_block_undo_utxo_value (serialize_block_undo_utxo_value e) = Ok e.
Proof.
  destruct e as [o h v]. cbn. intros Ho Hh Hv. pose proof (OutPointCodec_roundtrip o Ho) as Hr.
  unfold parse_block_undo_utxo_value, serialize_block_undo_utxo_value, OutPointCodec_encode in *. cbn.
  check_length. rewrite (take_app_le (_ ++ _)), take_ge, Hr by (rewrite !length_app, !length_be_bytes; lia).
  cbn. rewrite <-app_assoc. by read_fields.
Qed.

(** ** Keys sort by their fields *)

(** A pair of big-endian numbers compares as the pair. *)
Lemma bytes_le_pair w1 w2 a b c d :
  0 <= a < 256 ^ Z.of_nat w1 → 0 <= b < 256 ^ Z.of_nat w2 →
  0 <= c < 256 ^ Z.of_nat w1 → 0 <= d < 256 ^ Z.of_nat w2 →
  bytes_le (be_bytes w1 a ++ be_bytes w2 b) (be_bytes w1 c ++ be_bytes w2 d) = true
  ↔ a < c ∨ a = c ∧ b <= d.
Proof.
  intros Ha Hb Hc Hd. destruct (decide (a = c)) as [->|Hne].
  - rewrite bytes_le_app, bytes_le_be_bytes, Z.leb_le by done. lia.
  - rewrite bytes_le_app_ne; [|by rewrite !length_be_bytes|intros E; by apply be_bytes_inj in E].
    rewrite bytes_le_be_bytes, Z.leb_le by done. lia.
Qed.
