(* ===== verification/BalanceDb.v ===== *)
(** * The balance-history database

    [balance-history/src/db/db.rs], [BalanceHistoryDB]: RocksDB column families as finite maps of
    decoded keys and values ([BalanceCodec] shows that nothing is lost), iterators in the byte order
    of the encoded keys, and write batches.  RocksDB applies a batch atomically; the process may stop,
    or a write may fail, between two batches, which [Disk] models with a number of writes left. *)

From S2P Require Import Prelude Types BalanceCodec.

Record BalanceHistoryData := { bd_block_height : u32; bd_delta : i64; bd_balance : u64 }.
Record BalanceHistoryEntry := {
  be_script_hash : USDBScriptHash;
  be_block_height : u32;
  be_delta : i64;
  be_balance : u64
}.
Record BlockUndoBundle := {
  ub_block_height : u32;
  ub_btc_block_hash : BlockHash;
  ub_created_utxos : list BlockUndoUtxoEntry;
  ub_spent_utxos : list BlockUndoUtxoEntry;
  ub_touched_script_hashes : list USDBScriptHash
}.
Record ScriptRegistryEntry := { sre_script_hash : USDBScriptHash; sre_script_pubkey : list Z }.
Record BlockStateUpdateBatch := {
  up_new_utxos : list (OutPoint * UTXOValue);
  up_remove_utxos : list OutPoint;
  up_entries_list : list BalanceHistoryEntry;
  up_block_height : u32;
  up_block_commits : list BlockCommitEntry;
  up_script_registry_entries : list ScriptRegistryEntry;
  up_undo_bundles : list BlockUndoBundle
}.

(** ** Column families *)

(** The meta column family holds the heights and rollback markers as [u32] values. *)
Record BalanceHistoryDB := {
  balance_history_cf : gmap (USDBScriptHash * u32) (i64 * u64);
  utxo_cf : gmap OutPoint UTXOValue;
  script_registry_cf : gmap USDBScriptHash (list Z);
  block_commits_cf : gmap u32 BlockCommitEntry;
  block_undo_meta_cf : gmap u32 BlockUndoMetaEntry;
  block_undo_created_utxos_cf : gmap (u32 * u32) BlockUndoUtxoEntry;
  block_undo_spent_utxos_cf : gmap (u32 * u32) BlockUndoUtxoEntry;
  block_undo_balance_index_cf : gmap (u32 * USDBScriptHash) unit;
  meta_cf : gmap string u32
}.
Definition empty_balance_db : BalanceHistoryDB :=
  {| balance_history_cf := ∅; utxo_cf := ∅; script_registry_cf := ∅; block_commits_cf := ∅;
     block_undo_meta_cf := ∅; block_undo_created_utxos_cf := ∅; block_undo_spent_utxos_cf := ∅;
     block_undo_balance_index_cf := ∅; meta_cf := ∅ |}.

Definition on_balance_history_cf f db :=
  {| balance_history_cf := f (balance_history_cf db); utxo_cf := utxo_cf db;
     script_registry_cf := script_registry_cf db; block_commits_cf := block_commits_cf db;
     block_undo_meta_cf := block_undo_meta_cf db;
     block_undo_created_utxos_cf := block_undo_created_utxos_cf db;
     block_undo_spent_utxos_cf := block_undo_spent_utxos_cf db;
     block_undo_balance_index_cf := block_undo_balance_index_cf db; meta_cf := meta_cf db |}.
Definition on_utxo_cf f db :=
  {| balance_history_cf := balance_history_cf db; utxo_cf := f (utxo_cf db);
     script_registry_cf := script_registry_cf db; block_commits_cf := block_commits_cf db;
     block_undo_meta_cf := block_undo_meta_cf db;
     block_undo_created_utxos_cf := block_undo_created_utxos_cf db;
     block_undo_spent_utxos_cf := block_undo_spent_utxos_cf db;
     block_undo_balance_index_cf := block_undo_balance_index_cf db; meta_cf := meta_cf db |}.
Definition on_script_registry_cf f db :=
  {| balance_history_cf := balance_history_cf db; utxo_cf := utxo_cf db;
     script_registry_cf := f (script_registry_cf db); block_commits_cf := block_commits_cf db;
     block_undo_meta_cf := block_undo_meta_cf db;
     block_undo_created_utxos_cf := block_undo_created_utxos_cf db;
     block_undo_spent_utxos_cf := block_undo_spent_utxos_cf db;
     block_undo_balance_index_cf := block_undo_balance_index_cf db; meta_cf := meta_cf db |}.
Definition on_block_commits_cf f db :=
  {| balance_history_cf := balance_history_cf db; utxo_cf := utxo_cf db;
     script_registry_cf := script_registry_cf db; block_commits_cf := f (block_commits_cf db);
     block_undo_meta_cf := block_undo_meta_cf db;
     block_undo_created_utxos_cf := block_undo_created_utxos_cf db;
     block_undo_spent_utxos_cf := block_undo_spent_utxos_cf db;
     block_undo_balance_index_cf := block_undo_balance_index_cf db; meta_cf := meta_cf db |}.
(** The four undo column families. *)
Definition on_undo fm fc fs fb db :=
  {| balance_history_cf := balance_history_cf db; utxo_cf := utxo_cf db;
     script_registry_cf := script_registry_cf db; block_commits_cf := block_commits_cf db;
     block_undo_meta_cf := fm (block_undo_meta_cf db);
     block_undo_created_utxos_cf := fc (block_undo_created_utxos_cf db);
     block_undo_spent_utxos_cf := fs (block_undo_spent_utxos_cf db);
     block_undo_balance_index_cf := fb (block_undo_balance_index_cf db); meta_cf := meta_cf db |}.
Definition on_meta_cf f db :=
  {| balance_history_cf := balance_history_cf db; utxo_cf := utxo_cf db;
     script_registry_cf := script_registry_cf db; block_commits_cf := block_commits_cf db;
     block_undo_meta_cf := block_undo_meta_cf db;
     block_undo_created_utxos_cf := block_undo_created_utxos_cf db;
     block_undo_spent_utxos_cf := block_undo_spent_utxos_cf db;
     block_undo_balance_index_cf := block_undo_balance_index_cf db; meta_cf := f (meta_cf db) |}.

(** A loop of [put_cf] or [delete_cf] calls on one column family. *)
Definition put_all {K V} `{Countable K} (l : list (K * V)) (m : gmap K V) : gmap K V :=
  foldl (λ m kv, <[kv.1 := kv.2]> m) m l.
Definition delete_all {K V} `{Countable K} (l : list K) (m : gmap K V) : gmap K V :=
  foldl (λ m k, delete k m) m l.

(** *** Iterators: rows in the byte order of their keys *)

Section Iterators.
Context {K V : Type} `{Countable K} (encode : K → list Z).

Definition cf_rows (m : gmap K V) : list (K * V) := order_by (λ kv, encode kv.1) false (map_to_list m).
(** [IteratorMode::From(start, Forward)] *)
Definition cf_from (start : list Z) (m : gmap K V) : list (K * V) :=
  filter (λ kv, bytes_le start (encode kv.1) = true) (cf_rows m).
(** [IteratorMode::From(start, Reverse)] *)
Definition cf_from_reverse (start : list Z) (m : gmap K V) : list (K * V) :=
  reverse (filter (λ kv, bytes_le (encode kv.1) start = true) (cf_rows m)).
End Iterators.

Definition balance_key (k : USDBScriptHash * u32) : list Z := make_balance_history_key k.1 k.2.
Definition undo_utxo_key (k : u32 * u32) : list Z := make_block_undo_utxo_key k.1 k.2.
Definition undo_balance_key (k : u32 * USDBScriptHash) : list Z :=
  make_block_undo_balance_index_key k.1 k.2.

(** *** Writes *)

Record Disk := { db : BalanceHistoryDB; writes_left : option nat }.

(** [db.write_opt(&batch)]: all of the batch or nothing. *)
Definition write (msg : string) (batch : BalanceHistoryDB → BalanceHistoryDB) : M Disk unit := λ d,
  match writes_left d with
  | Some O => (Err msg, d)
  | n => (Ok tt, {| db := batch (db d); writes_left := pred <$> n |})
  end.
Definition reads {A} (f : BalanceHistoryDB → A) : M Disk A := gets (λ d, f (db d)).

(** ** Meta values *)

Definition META_KEY_BTC_BLOCK_HEIGHT : string := "btc_block_height".
Definition META_KEY_ROLLBACK_IN_PROGRESS : string := "rollback_in_progress".
Definition META_KEY_ROLLBACK_TARGET_HEIGHT : string := "rollback_target_height".
Definition META_KEY_ROLLBACK_NEXT_HEIGHT : string := "rollback_next_height".
Definition META_KEY_ROLLBACK_SUPPORTED_FROM_HEIGHT : string := "rollback_supported_from_height".
Definition META_KEY_UNDO_RETAINED_FROM_HEIGHT : string := "undo_retained_from_height".

Definition put_u32_meta (key : string) (v : u32) : M Disk unit :=
  write "Failed to put meta key" (on_meta_cf (insert key v)).
Definition get_u32_meta (key : string) : M Disk (option u32) := reads (λ db, meta_cf db !! key).
Definition delete_meta_key (key : string) : M Disk unit :=
  write "Failed to delete meta key" (on_meta_cf (delete key)).
Definition clear_rollback_state : M Disk unit :=
  let! _ := delete_meta_key META_KEY_ROLLBACK_IN_PROGRESS in
  let! _ := delete_meta_key META_KEY_ROLLBACK_TARGET_HEIGHT in
  delete_meta_key META_KEY_ROLLBACK_NEXT_HEIGHT.

Definition put_undo_retained_from_height := put_u32_meta META_KEY_UNDO_RETAINED_FROM_HEIGHT.
Definition get_undo_retained_from_height := get_u32_meta META_KEY_UNDO_RETAINED_FROM_HEIGHT.
Definition put_rollback_supported_from_height := put_u32_meta META_KEY_ROLLBACK_SUPPORTED_FROM_HEIGHT.
Definition get_rollback_supported_from_height := get_u32_meta META_KEY_ROLLBACK_SUPPORTED_FROM_HEIGHT.
Definition put_btc_block_height (height : u32) : M Disk unit :=
  write "Failed to put BTC block height" (on_meta_cf (insert META_KEY_BTC_BLOCK_HEIGHT height)).
Definition get_btc_block_height : M Disk u32 :=
  reads (λ db, default 0 (meta_cf db !! META_KEY_BTC_BLOCK_HEIGHT)).

(** ** Reading *)

Definition get_block_commit (block_height : u32) : M Disk (option BlockCommitEntry) :=
  reads (λ db, block_commits_cf db !! block_height).

Definition no_balance : BalanceHistoryData := {| bd_block_height := 0; bd_delta := 0; bd_balance := 0 |}.
Definition balance_row (kv : (USDBScriptHash * u32) * (i64 * u64)) : BalanceHistoryData :=
  {| bd_block_height := kv.1.2; bd_delta := kv.2.1; bd_balance := kv.2.2 |}.

(** The first row of a reverse iterator, if it is one of the script hash. *)
Definition latest_at (script_hash : USDBScriptHash) (height : u32) (db : BalanceHistoryDB) :
    BalanceHistoryData :=
  match cf_from_reverse balance_key (make_balance_history_key script_hash height)
          (balance_history_cf db) with
  | kv :: _ => if kv.1.1 =? script_hash then balance_row kv else no_balance
  | [] => no_balance
  end.
Definition get_latest_balance (script_hash : USDBScriptHash) : M Disk BalanceHistoryData :=
  reads (latest_at script_hash U32_MAX).
Definition get_balance_at_block_height (script_hash : USDBScriptHash) (target_height : u32) :
    M Disk BalanceHistoryData :=
  let! found := reads (latest_at script_hash target_height) in
  let! _ := assert (bd_block_height found <=? target_height)
              "Found block height greater than target height" in
  ret found.

(** The rows of the forward iterator up to the first of another script hash or beyond the range. *)
Definition rows_in_range (script_hash : USDBScriptHash) (range_begin range_end : u32)
    (db : BalanceHistoryDB) : list BalanceHistoryData :=
  balance_row <$> take_while (λ kv, (kv.1.1 =? script_hash) && negb (kv.1.2 >=? range_end))
    (cf_from balance_key (make_balance_history_key script_hash range_begin) (balance_history_cf db)).
Definition get_balance_in_range (script_hash : USDBScriptHash) (range_begin range_end : u32) :
    M Disk (list BalanceHistoryData) :=
  let! _ := assert (range_begin <? range_end) "Invalid range" in
  reads (rows_in_range script_hash range_begin range_end).
Definition get_all_balance (script_hash : USDBScriptHash) : M Disk (list BalanceHistoryData) :=
  get_balance_in_range script_hash 0 U32_MAX.
Definition get_balance_delta_at_block_height (script_hash : USDBScriptHash) (target_height : u32) :
    M Disk (option BalanceHistoryData) :=
  reads (λ db, (λ v, balance_row ((script_hash, target_height), v))
               <$> balance_history_cf db !! (script_hash, target_height)).

Definition get_utxo (o : OutPoint) : M Disk (option UTXOValue) := reads (λ db, utxo_cf db !! o).
Definition get_utxos_bulk (outpoints : list OutPoint) : M Disk (list (option UTXOValue)) :=
  reads (λ db, (λ o, utxo_cf db !! o) <$> outpoints).
Definition get_script_registry_entry (script_hash : USDBScriptHash) : M Disk (option (list Z)) :=
  reads (λ db, script_registry_cf db !! script_hash).
Definition get_script_registry_entries (script_hashes : list USDBScriptHash) :
    M Disk (list (option (list Z))) :=
  reads (λ db, (λ h, script_registry_cf db !! h) <$> script_hashes).

(** ** Block batches *)

Definition put_balance_entries (entries : list BalanceHistoryEntry) :=
  on_balance_history_cf (put_all ((λ e, ((be_script_hash e, be_block_height e), (be_delta e, be_balance e)))
                                  <$> entries)).
Definition put_block_commits (commits : list BlockCommitEntry) :=
  on_block_commits_cf (put_all ((λ c, (cm_block_height c, c)) <$> commits)).
Definition append_script_registry_entries_to_batch (entries : list ScriptRegistryEntry) :=
  on_script_registry_cf (put_all ((λ e, (sre_script_hash e, sre_script_pubkey e)) <$> entries)).

(** [l.iter().enumerate()] with the index [as u32], below the block height. *)
Definition enumerate_utxos (block_height : u32) (l : list BlockUndoUtxoEntry) :
    list ((u32 * u32) * BlockUndoUtxoEntry) :=
  imap (λ seq e, ((block_height, usize_as_u32 (Z.of_nat seq)), e)) l.

Definition bundle_meta (bundle : BlockUndoBundle) : BlockUndoMetaEntry :=
  {| um_block_height := ub_block_height bundle; um_format_version := 1;
     um_btc_block_hash := ub_btc_block_hash bundle;
     um_created_utxo_count := usize_as_u32 (count (ub_created_utxos bundle));
     um_spent_utxo_count := usize_as_u32 (count (ub_spent_utxos bundle));
     um_balance_entry_count := usize_as_u32 (count (ub_touched_script_hashes bundle)) |}.
Definition append_block_undo_bundle (bundle : BlockUndoBundle) :=
  on_undo
    (insert (ub_block_height bundle) (bundle_meta bundle))
    (put_all (enumerate_utxos (ub_block_height bundle) (ub_created_utxos bundle)))
    (put_all (enumerate_utxos (ub_block_height bundle) (ub_spent_utxos bundle)))
    (put_all ((λ h, ((ub_block_height bundle, h), ())) <$> ub_touched_script_hashes bundle)).
Definition append_block_undo_bundles_to_batch (undo_bundles : list BlockUndoBundle) db :=
  foldl (λ db bundle, append_block_undo_bundle bundle db) db undo_bundles.

(** [put_cf] of a meta value, when the key is absent. *)
Definition put_if_none (key : string) (present : option u32) (v : u32) :=
  on_meta_cf (λ m, if bool_decide (present = None) then <[key := v]> m else m).

(** [bundles.iter().map(|b| b.block_height).min()] *)
Definition first_undo_height (undo_bundles : list BlockUndoBundle) : option u32 :=
  Z.opp <$> list_max (λ b, - ub_block_height b) undo_bundles.

(** The write batch; [supported] and [retained] are the bounds read before it. *)
Definition block_state_batch (update : BlockStateUpdateBatch) (supported retained : option u32)
    (db : BalanceHistoryDB) : BalanceHistoryDB :=
  let db := on_utxo_cf (put_all (up_new_utxos update)) db in
  let db := on_utxo_cf (delete_all (up_remove_utxos update)) db in
  let db := put_balance_entries (up_entries_list update) db in
  let db := put_block_commits (up_block_commits update) db in
  let db := on_meta_cf (insert META_KEY_BTC_BLOCK_HEIGHT (up_block_height update)) db in
  let db := append_script_registry_entries_to_batch (up_script_registry_entries update) db in
  let db := append_block_undo_bundles_to_batch (up_undo_bundles update) db in
  match first_undo_height (up_undo_bundles update) with
  | None => db
  | Some first =>
      let db := put_if_none META_KEY_ROLLBACK_SUPPORTED_FROM_HEIGHT supported first db in
      put_if_none META_KEY_UNDO_RETAINED_FROM_HEIGHT retained first db
  end.
Definition update_block_state_batch_async (update : BlockStateUpdateBatch) : M Disk unit :=
  let! supported := get_rollback_supported_from_height in
  let! retained := get_undo_retained_from_height in
  write "Failed to write atomic block-state batch to DB" (block_state_batch update supported retained).
Definition update_block_state_with_undo_async (new_utxos : list (OutPoint * UTXOValue))
    (remove_utxos : list OutPoint) (entries_list : list BalanceHistoryEntry) (block_height : u32)
    (block_commits : list BlockCommitEntry) (undo_bundles : list BlockUndoBundle) : M Disk unit :=
  update_block_state_batch_async
    {| up_new_utxos := new_utxos; up_remove_utxos := remove_utxos; up_entries_list := entries_list;
       up_block_height := block_height; up_block_commits := block_commits;
       up_script_registry_entries := []; up_undo_bundles := undo_bundles |}.
Definition update_block_state_async (new_utxos : list (OutPoint * UTXOValue))
    (remove_utxos : list OutPoint) (entries_list : list BalanceHistoryEntry) (block_height : u32)
    (block_commits : list BlockCommitEntry) : M Disk unit :=
  update_block_state_with_undo_async new_utxos remove_utxos entries_list block_height block_commits [].

Definition put_address_history_async (entries_list : list BalanceHistoryEntry) : M Disk unit :=
  write "Failed to write batch to DB" (put_balance_entries entries_list).
Definition update_address_history_with_block_commits_async
    (entries_list : list BalanceHistoryEntry) (block_height : u32)
    (block_commits : list BlockCommitEntry) : M Disk unit :=
  write "Failed to write batch to DB" (λ db,
    let db := put_balance_entries entries_list db in
    let db := put_block_commits block_commits db in
    on_meta_cf (insert META_KEY_BTC_BLOCK_HEIGHT block_height) db).
Definition put_block_commits_async (block_commits : list BlockCommitEntry) : M Disk unit :=
  write "Failed to write block commits batch to DB" (put_block_commits block_commits).
Definition put_script_registry_entries (entries : list ScriptRegistryEntry) : M Disk unit :=
  write "Failed to write script registry batch to DB" (append_script_registry_entries_to_batch entries).
Definition put_utxo (o : OutPoint) (script_hash : USDBScriptHash) (amount : u64) : M Disk unit :=
  write "Failed to put UTXO" (on_utxo_cf (insert o {| uv_script_hash := script_hash; uv_value := amount |})).
Definition update_utxos_async (new_utxos : list (OutPoint * UTXOValue)) (remove_utxos : list OutPoint) :
    M Disk unit :=
  write "Failed to write UTXO batch to DB" (λ db,
    let db := on_utxo_cf (put_all new_utxos) db in on_utxo_cf (delete_all remove_utxos) db).

(** ** Undo bundles *)

Definition get_block_undo_meta (block_height : u32) : M Disk (option BlockUndoMetaEntry) :=
  reads (λ db, block_undo_meta_cf db !! block_height).

(** The values of the rows with the height prefix, in key order. *)
Definition get_block_undo_utxos_from_cf (cf : BalanceHistoryDB → gmap (u32 * u32) BlockUndoUtxoEntry)
    (block_height : u32) (db : BalanceHistoryDB) : list BlockUndoUtxoEntry :=
  snd <$> take_while (λ kv, block_height_prefix_matches (undo_utxo_key kv.1) block_height)
    (cf_from undo_utxo_key (make_block_undo_utxo_key block_height 0) (cf db)).
Definition get_block_undo_created_utxos := get_block_undo_utxos_from_cf block_undo_created_utxos_cf.
Definition get_block_undo_spent_utxos := get_block_undo_utxos_from_cf block_undo_spent_utxos_cf.
Definition get_block_undo_touched_script_hashes (block_height : u32) (db : BalanceHistoryDB) :
    list USDBScriptHash :=
  (λ kv : (u32 * USDBScriptHash) * (), kv.1.2)
  <$> take_while (λ kv, block_height_prefix_matches (undo_balance_key kv.1) block_height)
        (cf_from undo_balance_key (make_block_undo_balance_index_key block_height 0)
           (block_undo_balance_index_cf db)).
Definition undo_bundle_of (block_height : u32) (db : BalanceHistoryDB) : option BlockUndoBundle :=
  (λ meta,
    {| ub_block_height := block_height; ub_btc_block_hash := um_btc_block_hash meta;
       ub_created_utxos := get_block_undo_created_utxos block_height db;
       ub_spent_utxos := get_block_undo_spent_utxos block_height db;
       ub_touched_script_hashes := get_block_undo_touched_script_hashes block_height db |})
  <$> block_undo_meta_cf db !! block_height.
Definition get_block_undo_bundle (block_height : u32) : M Disk (option BlockUndoBundle) :=
  reads (undo_bundle_of block_height).

(** The deletions of a bundle; what to delete is read from [seen], the database outside the batch. *)
Definition append_delete_block_undo_bundle_to_batch (seen : BalanceHistoryDB) (block_height : u32) :=
  on_undo
    (delete block_height)
    (delete_all (fst <$> enumerate_utxos block_height (get_block_undo_created_utxos block_height seen)))
    (delete_all (fst <$> enumerate_utxos block_height (get_block_undo_spent_utxos block_height seen)))
    (delete_all ((λ h, (block_height, h)) <$> get_block_undo_touched_script_hashes block_height seen)).

(** ** Rollback *)

Definition undo_block (bundle : BlockUndoBundle) (block_height : u32) (seen db : BalanceHistoryDB) :
    BalanceHistoryDB :=
  let db := on_utxo_cf (delete_all (uu_outpoint <$> ub_created_utxos bundle)) db in
  let db := on_utxo_cf (put_all ((λ e, (uu_outpoint e, {| uv_script_hash := uu_script_hash e;
                                                           uv_value := uu_value e |}))
                                 <$> ub_spent_utxos bundle)) db in
  let db := on_balance_history_cf
              (delete_all ((λ h, (h, block_height)) <$> ub_touched_script_hashes bundle)) db in
  let db := on_block_commits_cf (delete block_height) db in
  let db := append_delete_block_undo_bundle_to_batch seen block_height db in
  on_meta_cf (insert META_KEY_BTC_BLOCK_HEIGHT (u32_saturating_sub block_height 1)) db.

Definition rollback_one_block (block_height : u32) : M Disk unit :=
  let! current_height := get_btc_block_height in
  if negb (current_height =? block_height)
  then fail "Rollback currently only supports the latest committed height"
  else
    let! found := get_block_undo_bundle block_height in
    let! bundle := lift (ok_or "Missing block undo bundle" found) in
    let! seen := reads id in
    write "Failed to rollback block height" (undo_block bundle block_height seen).

Definition ensure_rollback_undo_available (target_height current_height : u32) : M Disk unit :=
  if target_height >=? current_height then ret tt
  else
    let first_required_height := u32_saturating_add target_height 1 in
    let! supported_from_height := get_rollback_supported_from_height in
    if (match supported_from_height with Some s => first_required_height <? s | None => false end)
    then fail "Rollback is only supported from a later height"
    else
      let! retained := get_undo_retained_from_height in
      match retained with
      | None => fail "No undo retention boundary is recorded"
      | Some retained_from_height =>
          if first_required_height <? retained_from_height
          then fail "Undo is only retained from a later height"
          else
            for_each (heights first_required_height current_height) (λ height,
              let! meta := get_block_undo_meta height in
              match meta with
              | None => fail "Missing block undo bundle for the rollback"
              | Some _ => ret tt
              end)
      end.

(** [while next_height > target_height]: the blocks above the target, from the top. *)
Definition rollback_blocks (next_height target_height : u32) : M Disk unit :=
  for_each (rev (heights (target_height + 1) next_height)) (λ next_height,
    let! _ := rollback_one_block next_height in
    put_u32_meta META_KEY_ROLLBACK_NEXT_HEIGHT (u32_sub next_height 1)).

Definition rollback_to_block_height (target_height : u32) : M Disk unit :=
  let! current_height := get_btc_block_height in
  if target_height >? current_height then fail "Invalid rollback target height"
  else if target_height =? current_height then ret tt
  else
    let! _ := ensure_rollback_undo_available target_height current_height in
    let! _ := put_u32_meta META_KEY_ROLLBACK_IN_PROGRESS 1 in
    let! _ := put_u32_meta META_KEY_ROLLBACK_TARGET_HEIGHT target_height in
    let! _ := put_u32_meta META_KEY_ROLLBACK_NEXT_HEIGHT current_height in
    let! _ := rollback_blocks current_height target_height in
    clear_rollback_state.

Definition resume_rollback_if_needed : M Disk bool :=
  let! in_progress := get_u32_meta META_KEY_ROLLBACK_IN_PROGRESS in
  if negb (bool_decide (in_progress = Some 1)) then ret false
  else
    let! found := get_u32_meta META_KEY_ROLLBACK_TARGET_HEIGHT in
    let! target_height := lift (ok_or "Missing rollback_target_height" found) in
    let! found := get_u32_meta META_KEY_ROLLBACK_NEXT_HEIGHT in
    let! next_height := lift (ok_or "Missing rollback_next_height" found) in
    let! current_height := get_btc_block_height in
    if negb (next_height =? current_height) then fail "Rollback resume state mismatch"
    else if target_height >? next_height then fail "Invalid rollback resume state"
    else
      let! _ := ensure_rollback_undo_available target_height next_height in
      let! _ := rollback_blocks next_height target_height in
      let! _ := clear_rollback_state in
      ret true.
Definition is_rollback_in_progress : M Disk bool :=
  let! in_progress := get_u32_meta META_KEY_ROLLBACK_IN_PROGRESS in
  ret (bool_decide (in_progress = Some 1)).

(** ** Pruning *)

Definition heights_to_prune (min_retained : u32) (db : BalanceHistoryDB) : list u32 :=
  fst <$> take_while (λ kv, negb (kv.1 >=? min_retained))
    (cf_from make_block_undo_meta_key (make_block_undo_meta_key 0) (block_undo_meta_cf db)).

Definition prune_undo_before_height (min_retained_height : u32) : M Disk Z :=
  let! in_progress := get_u32_meta META_KEY_ROLLBACK_IN_PROGRESS in
  if bool_decide (in_progress = Some 1) then ret 0
  else
    let! supported := get_rollback_supported_from_height in
    match supported with
    | None => ret 0
    | Some rollback_supported_from_height =>
        let effective := Z.max min_retained_height rollback_supported_from_height in
        let! retained := get_undo_retained_from_height in
        if (match retained with Some r => r >=? effective | None => false end) then ret 0
        else
          let! pruned := reads (heights_to_prune effective) in
          match pruned with
          | [] =>
              let! _ := put_undo_retained_from_height effective in ret 0
          | _ =>
              let! seen := reads id in
              let! _ := write "Failed to prune undo journal" (λ db,
                on_meta_cf (insert META_KEY_UNDO_RETAINED_FROM_HEIGHT effective)
                  (foldl (λ db h, append_delete_block_undo_bundle_to_batch seen h db) db pruned)) in
              ret (count pruned)
          end
    end.

(** ** Traversal for snapshots *)

(** Where the full reverse iterator starts. *)
Definition traverse_start (start_script_hash : option USDBScriptHash) (db : BalanceHistoryDB) :
    list ((USDBScriptHash * u32) * (i64 * u64)) :=
  match start_script_hash with
  | Some h => cf_from_reverse balance_key (make_balance_history_key h U32_MAX) (balance_history_cf db)
  | None => reverse (cf_rows balance_key (balance_history_cf db))
  end.
Definition traverse_entry (kv : (USDBScriptHash * u32) * (i64 * u64)) : BalanceHistoryEntry :=
  {| be_script_hash := kv.1.1; be_block_height := kv.1.2; be_delta := kv.2.1; be_balance := kv.2.2 |}.

(** The entries the loop of [traverse_at_height] hands to the callback, in order; [current] is the
    script hash of the last row and whether its entry was found. *)
Fixpoint traverse_rows_at (target_block_height : u32) (current : option (USDBScriptHash * bool))
    (rows : list ((USDBScriptHash * u32) * (i64 * u64))) : list BalanceHistoryEntry :=
  match rows with
  | [] => []
  | kv :: rows =>
      let founded := match current with
                     | Some (h, f) => bool_decide (h = kv.1.1) && f
                     | None => false
                     end in
      if negb founded && (kv.1.2 <=? target_block_height)
      then (if kv.2.2 >? 0 then [traverse_entry kv] else [])
           ++ traverse_rows_at target_block_height (Some (kv.1.1, true)) rows
      else traverse_rows_at target_block_height (Some (kv.1.1, founded)) rows
  end.
(** The loop of [traverse_latest]. *)
Fixpoint traverse_rows_latest (current : option USDBScriptHash)
    (rows : list ((USDBScriptHash * u32) * (i64 * u64))) : list BalanceHistoryEntry :=
  match rows with
  | [] => []
  | kv :: rows =>
      if bool_decide (current = Some kv.1.1) then traverse_rows_latest current rows
      else traverse_entry kv :: traverse_rows_latest (Some kv.1.1) rows
  end.

(** The entries reach the callback in chunks of [batch_size], the last one shorter. *)
Fixpoint chunks {A} (fuel : nat) (batch_size : nat) (l : list A) : list (list A) :=
  match fuel, l with
  | O, _ | _, [] => []
  | S fuel, _ => take batch_size l :: chunks fuel batch_size (drop batch_size l)
  end.
Definition traverse_latest {S} (start_script_hash : option USDBScriptHash) (batch_size : nat)
    (callback : list BalanceHistoryEntry → M S unit) (db : BalanceHistoryDB) : M S unit :=
  let! _ := assert (0 <? Z.of_nat batch_size) "Batch size must be greater than 0" in
  let entries := traverse_rows_latest None (traverse_start start_script_hash db) in
  for_each (chunks (length entries) batch_size entries) callback.
Definition traverse_at_height {S} (start_script_hash : option USDBScriptHash)
    (target_block_height : u32) (batch_size : nat) (callback : list BalanceHistoryEntry → M S unit)
    (db : BalanceHistoryDB) : M S unit :=
  let! _ := assert (0 <? Z.of_nat batch_size) "Batch size must be greater than 0" in
  let entries := traverse_rows_at target_block_height None (traverse_start start_script_hash db) in
  for_each (chunks (length entries) batch_size entries) callback.
