(* ===== verification/BalanceDbFacts.v ===== *)
(** * What the reads and batches of the balance-history database do

    Lookups after a batch, rows of the iterators, the balance queries and the undo bundles. *)

From S2P Require Import Prelude Types BalanceCodec BalanceDb.

(** ** Batches *)

Section Batches.
Context {K V : Type} `{Countable K}.
Implicit Types (m : gmap K V) (l : list (K * V)).

Lemma put_all_lookup l m k :
  NoDup l.*1 → put_all l m !! k = (list_to_map l ∪ m) !! k.
Proof.
  revert m. induction l as [|[j v] l IH]; intros m Hnd; cbn -[union].
  - by rewrite left_id_L by apply _.
  - apply NoDup_cons in Hnd as [Hj Hnd]. change (put_all l (<[j:=v]> m) !! k = (<[j:=v]> (list_to_map l) ∪ m) !! k).
    rewrite IH by done. rewrite <-insert_union_l. destruct (decide (k = j)) as [->|Hne].
    + rewrite lookup_insert_eq, lookup_union_r, lookup_insert_eq; [done|].
      by apply not_elem_of_list_to_map.
    + rewrite lookup_insert_ne, !lookup_union, lookup_insert_ne by done. done.
Qed.
Lemma put_all_in l m k v : NoDup l.*1 → (k, v) ∈ l → put_all l m !! k = Some v.
Proof.
  intros Hnd Hin. rewrite put_all_lookup by done. apply lookup_union_Some_l.
  by apply elem_of_list_to_map.
Qed.
Lemma put_all_out l m k : k ∉ l.*1 → put_all l m !! k = m !! k.
Proof.
  revert m. induction l as [|[j v] l IH]; intros m Hk; [done|]. cbn in Hk.
  apply not_elem_of_cons in Hk as [Hne Hk]. change (put_all l (<[j:=v]> m) !! k = m !! k).
  rewrite IH by done. by rewrite lookup_insert_ne.
Qed.
Lemma delete_all_lookup (ks : list K) m k :
  delete_all ks m !! k = if decide (k ∈ ks) then None else m !! k.
Proof.
  revert m. induction ks as [|j ks IH]; intros m; cbn.
  - destruct (decide (k ∈ [])) as [Hk|]; [by apply elem_of_nil in Hk|done].
  - change (delete_all ks (delete j m) !! k = if decide (k ∈ j :: ks) then None else m !! k).
    rewrite IH. destruct (decide (k = j)) as [->|Hne].
    + rewrite lookup_delete_eq, (decide_True (P := j ∈ j :: ks)) by (by left). by destruct (decide _).
    + rewrite lookup_delete_ne by done. destruct (decide (k ∈ ks)) as [Hi|Hi];
        [rewrite decide_True by (by right); done|].
      rewrite decide_False; [done|]. by rewrite not_elem_of_cons.
Qed.
Lemma delete_all_in (ks : list K) m k : k ∈ ks → delete_all ks m !! k = None.
Proof. intros. by rewrite delete_all_lookup, decide_True. Qed.
Lemma delete_all_out (ks : list K) m k : k ∉ ks → delete_all ks m !! k = m !! k.
Proof. intros. by rewrite delete_all_lookup, decide_False. Qed.

(** Entries that agree on a key. *)
Lemma put_all_agree l m k v :
  (∀ v', (k, v') ∈ l → v' = v) → (k, v) ∈ l ∨ m !! k = Some v → put_all l m !! k = Some v.
Proof.
  revert m. induction l as [|[j w] l IH]; intros m Ha Hk.
  { destruct Hk as [Hk|Hk]; [by apply elem_of_nil in Hk|done]. }
  apply (IH (<[j:=w]> m)); [intros; apply Ha; by right|].
  destruct (decide (k = j)) as [->|Hne]; [right|].
  - rewrite lookup_insert_eq. f_equal. apply Ha. by left.
  - rewrite lookup_insert_ne by done. destruct Hk as [[[= -> ->]|Hk]%elem_of_cons|Hk]; [done|by left|by right].
Qed.
Lemma put_all_fun (g : K → V) (l : list K) m k :
  put_all ((λ x, (x, g x)) <$> l) m !! k = if decide (k ∈ l) then Some (g k) else m !! k.
Proof.
  revert m. induction l as [|j l IH]; intros m.
  - by rewrite decide_False by set_solver.
  - change (put_all ((λ x, (x, g x)) <$> l) (<[j:=g j]> m) !! k = if decide (k ∈ j :: l) then Some (g k) else m !! k).
    rewrite IH. destruct (decide (k ∈ l)); [by rewrite decide_True by (by right)|].
    destruct (decide (k = j)) as [->|Hne]; [by rewrite lookup_insert_eq, decide_True by (by left)|].
    rewrite lookup_insert_ne by done. by rewrite decide_False by set_solver.
Qed.

(** ** Iterators *)

Context (encode : K → list Z).

Definition row_le (a b : K * V) : Prop := bytes_le (encode a.1) (encode b.1) = true.

Lemma elem_of_cf_rows m kv : kv ∈ cf_rows encode m ↔ m !! kv.1 = Some kv.2.
Proof. unfold cf_rows. rewrite elem_of_order_by. destruct kv. apply elem_of_map_to_list. Qed.
Lemma cf_rows_sorted m : StronglySorted row_le (cf_rows encode m).
Proof. apply order_by_sorted. Qed.
Lemma cf_rows_NoDup m : NoDup (cf_rows encode m).*1.
Proof. unfold cf_rows. rewrite order_by_Permutation. apply NoDup_fst_map_to_list. Qed.

Lemma elem_of_cf_from start m kv :
  kv ∈ cf_from encode start m ↔ m !! kv.1 = Some kv.2 ∧ bytes_le start (encode kv.1) = true.
Proof. unfold cf_from. rewrite list_elem_of_filter, elem_of_cf_rows. naive_solver. Qed.

(** The first row of a reverse iterator has the greatest key at or below the start. *)
Lemma cf_from_reverse_cases start m :
  match cf_from_reverse encode start m with
  | kv :: _ => m !! kv.1 = Some kv.2 ∧ bytes_le (encode kv.1) start = true
      ∧ ∀ k v, m !! k = Some v → bytes_le (encode k) start = true →
               bytes_le (encode k) (encode kv.1) = true
  | [] => ∀ k v, m !! k = Some v → bytes_le (encode k) start = false
  end.
Proof.
  unfold cf_from_reverse. set (l := filter _ _).
  assert (∀ k v, (k, v) ∈ l ↔ m !! k = Some v ∧ bytes_le (encode k) start = true) as Hl.
  { intros k v. unfold l. rewrite list_elem_of_filter, elem_of_cf_rows. naive_solver. }
  assert (StronglySorted (flip row_le) (reverse l)) as Hs
    by (apply StronglySorted_reverse, StronglySorted_filter, cf_rows_sorted).
  destruct (reverse l) as [|[k v] l'] eqn:E.
  - intros k v Hk. apply not_true_is_false. intros Hle.
    assert ((k, v) ∈ reverse l) as Hin by (by apply elem_of_reverse, Hl). rewrite E in Hin.
    by apply elem_of_nil in Hin.
  - assert ((k, v) ∈ l) as Hin by (apply elem_of_reverse; rewrite E; by left).
    apply Hl in Hin as [H1 H2]. split_and!; [done..|]. intros k' v' H1' H2'.
    assert ((k', v') ∈ reverse l) as Hin by (by apply elem_of_reverse, Hl). rewrite E in Hin.
    apply elem_of_cons in Hin as [[= -> ->]|Hin]; [apply bytes_le_refl|].
    apply StronglySorted_inv in Hs as [_ Hs]. rewrite Forall_forall in Hs. by apply (Hs (k', v')).
Qed.

(** A scan that stops at the first row that fails the test, when the rows that pass come first. *)
Lemma scan_filter (p : K * V → bool) start m :
  (∀ x y, m !! x.1 = Some x.2 → m !! y.1 = Some y.2 →
     bytes_le start (encode x.1) = true → row_le x y → p y = true → p x = true) →
  take_while p (cf_from encode start m) = filter (λ x, p x = true) (cf_from encode start m).
Proof.
  intros Hp. apply (take_while_filter row_le); [apply StronglySorted_filter, cf_rows_sorted|].
  intros x y [??]%elem_of_cf_from [??]%elem_of_cf_from. by apply Hp.
Qed.

(** Sorted rows with the elements of a scan are the scan. *)
Lemma scan_unique (p : K * V → bool) start m l :
  (∀ k k', is_Some (m !! k) → is_Some (m !! k') → encode k = encode k' → k = k') →
  NoDup l → StronglySorted row_le l →
  (∀ kv, kv ∈ l ↔ m !! kv.1 = Some kv.2 ∧ bytes_le start (encode kv.1) = true ∧ p kv = true) →
  filter (λ x, p x = true) (cf_from encode start m) = l.
Proof.
  intros Hinj Hnd Hs Hl. apply (StronglySorted_unique_strong row_le).
  - intros [k v] [k' v'] H1 H2 L1 L2. apply list_elem_of_filter in H1 as [_ [H1 _]%elem_of_cf_from].
    apply Hl in H2 as [H2 _]. cbn in *.
    assert (k = k') as -> by (apply Hinj; [by eexists..|]; by apply bytes_le_antisym). congruence.
  - apply StronglySorted_filter, StronglySorted_filter, cf_rows_sorted.
  - done.
  - apply NoDup_Permutation; [|done|].
    + apply NoDup_filter, NoDup_filter. eapply NoDup_fmap_1, cf_rows_NoDup.
    + intros kv. rewrite list_elem_of_filter, elem_of_cf_from, Hl. naive_solver.
Qed.
End Batches.

(** ** Balance queries *)

Definition wf_balance_key (k : USDBScriptHash * u32) : Prop := u256 k.1 ∧ 0 <= k.2 <= U32_MAX.
(** Every row of the balance history has a key that the encoding can hold. *)
Definition wf_balance_cf (m : gmap (USDBScriptHash * u32) (i64 * u64)) : Prop :=
  ∀ k v, m !! k = Some v → wf_balance_key k.

Lemma balance_key_le a b :
  wf_balance_key a → wf_balance_key b →
  bytes_le (balance_key a) (balance_key b) = true ↔ a.1 < b.1 ∨ a.1 = b.1 ∧ a.2 <= b.2.
Proof. intros [? ?%pow_u32] [? ?%pow_u32]. by apply bytes_le_pair. Qed.

(** The backward scan finds the last row of the script hash at or below the height. *)
Lemma latest_at_cases a h d :
  wf_balance_cf (balance_history_cf d) → wf_balance_key (a, h) →
  (∃ k v, balance_history_cf d !! (a, k) = Some v ∧ k <= h
     ∧ (∀ k' v', balance_history_cf d !! (a, k') = Some v' → k' <= h → k' <= k)
     ∧ latest_at a h d = balance_row ((a, k), v))
  ∨ (∀ k v, balance_history_cf d !! (a, k) = Some v → h < k) ∧ latest_at a h d = no_balance.
Proof.
  intros W Wa. unfold latest_at.
  pose proof (cf_from_reverse_cases balance_key (make_balance_history_key a h) (balance_history_cf d)) as Hc.
  assert (∀ k v, balance_history_cf d !! k = Some v →
    bytes_le (balance_key k) (make_balance_history_key a h) = true ↔ k.1 < a ∨ k.1 = a ∧ k.2 <= h) as Hle.
  { intros k v Hk. apply (balance_key_le k (a, h)); [by eapply W|done]. }
  destruct (cf_from_reverse _ _ _) as [|[[b k] v] rows].
  - right. split; [|done]. intros k v Hk. specialize (Hc _ _ Hk). apply Z.lt_nge. intros Hkh.
    apply not_true_iff_false in Hc. apply Hc, (Hle _ _ Hk). by right.
  - destruct Hc as (Hk & Hb & Hmax). cbn in Hk, Hb, Hmax. cbn [fst snd]. destruct (b =? a) eqn:E; b2p.
    + subst b. left. exists k, v. apply (Hle _ _ Hk) in Hb. cbn in Hb. split_and!; [done|lia| |done].
      intros k' v' Hk' Hh. specialize (Hmax _ _ Hk'). rewrite (Hle _ _ Hk') in Hmax.
      specialize (Hmax ltac:(by right)). apply balance_key_le in Hmax; [|by eapply W..]. cbn in Hmax. lia.
    + right. split; [|done]. intros k' v' Hk'. apply Z.lt_nge. intros Hh.
      specialize (Hmax _ _ Hk'). rewrite (Hle _ _ Hk') in Hmax. specialize (Hmax ltac:(by right)).
      apply balance_key_le in Hmax; [|by eapply W..]. apply (Hle _ _ Hk) in Hb. cbn in *. lia.
Qed.

Lemma rows_in_range_filter a lo hi d :
  wf_balance_cf (balance_history_cf d) → wf_balance_key (a, lo) →
  rows_in_range a lo hi d
  = balance_row <$> filter (λ kv, (kv.1.1 =? a) && negb (kv.1.2 >=? hi) = true)
      (cf_from balance_key (make_balance_history_key a lo) (balance_history_cf d)).
Proof.
  intros W Wa. unfold rows_in_range. f_equal. apply scan_filter.
  intros [[b k] v] [[b' k'] v'] Hx Hy Hs Hxy Hp. cbn in *. apply andb_prop in Hp as [Hb Hhi]. b2p. subst b'.
  apply (balance_key_le (a, lo) (b, k) Wa (W _ _ Hx)) in Hs.
  apply (balance_key_le (b, k) (a, k') (W _ _ Hx) (W _ _ Hy)) in Hxy. cbn in *.
  destruct (k' >=? hi) eqn:E; [done|]. rewrite Z.geb_leb in E |- *. b2p.
  assert (b = a) as -> by lia. rewrite Z.eqb_refl, (proj2 (Z.leb_gt hi k)) by lia. done.
Qed.

Lemma elem_of_balance_rows a lo hi d x :
  wf_balance_cf (balance_history_cf d) → wf_balance_key (a, lo) →
  x ∈ rows_in_range a lo hi d ↔
  ∃ k v, balance_history_cf d !! (a, k) = Some v ∧ lo <= k < hi ∧ x = balance_row ((a, k), v).
Proof.
  intros W Wa. rewrite rows_in_range_filter by done. rewrite list_elem_of_fmap. setoid_rewrite list_elem_of_filter. setoid_rewrite elem_of_cf_from. split.
  - intros ([[b k] v] & -> & Hp & Hk & Hle). cbn in *. apply andb_prop in Hp as [Hb Hhi]. b2p. subst b.
    apply (balance_key_le (a, lo) (a, k) Wa (W _ _ Hk)) in Hle. cbn in Hle.
    exists k, v. split_and!; [done|lia| |done].
    destruct (k >=? hi) eqn:E; [done|]. rewrite Z.geb_leb in E. b2p. lia.
  - intros (k & v & Hk & Hr & ->). exists ((a, k), v). cbn. split_and!; [done| |done|].
    + rewrite Z.eqb_refl, Z.geb_leb. cbn. rewrite (proj2 (Z.leb_gt hi k)) by lia. done.
    + apply (balance_key_le (a, lo) (a, k)); [done|by eapply W|]. cbn. lia.
Qed.

Lemma rows_in_range_sorted a lo hi d :
  wf_balance_cf (balance_history_cf d) → wf_balance_key (a, lo) →
  StronglySorted (λ x y, bd_block_height x < bd_block_height y) (rows_in_range a lo hi d).
Proof.
  intros W Wa. rewrite rows_in_range_filter by done.
  set (l := filter _ _).
  assert (StronglySorted (row_le balance_key) l) as Hs
    by (apply StronglySorted_filter, StronglySorted_filter, cf_rows_sorted).
  assert (NoDup l.*1) as Hnd.
  { apply (sublist_NoDup _ (cf_rows balance_key (balance_history_cf d)).*1); [apply cf_rows_NoDup|].
    apply fmap_sublist. etrans; apply sublist_filter. }
  assert (∀ kv, kv ∈ l → kv.1.1 = a ∧ balance_history_cf d !! kv.1 = Some kv.2) as Hin.
  { intros kv [Hp [Hk _]%elem_of_cf_from]%list_elem_of_filter. apply andb_prop in Hp as [Hb _]. by b2p. }
  clearbody l. induction Hs as [|[[b k] v] l Hs IH Hall]; [constructor|]. cbn in Hnd.
  apply NoDup_cons in Hnd as [Hnot Hnd]. destruct (Hin _ ltac:(by left)) as [E Hk]. cbn in E, Hk. subst b.
  cbn. constructor.
  { apply IH; [done|]. intros kv Hkv. apply Hin. by right. }
  apply Forall_fmap, Forall_forall. intros [[b k'] v'] Hkv. destruct (Hin _ ltac:(by right)) as [E Hk'].
  cbn in E, Hk'. subst b. rewrite Forall_forall in Hall. specialize (Hall _ Hkv).
  apply balance_key_le in Hall; [|by eapply W..]. cbn in *. destruct (decide (k = k')) as [->|]; [|lia].
  exfalso. apply Hnot. apply list_elem_of_fmap. by exists ((a, k'), v').
Qed.

(** ** Undo bundles read back *)

Lemma undo_key_inj (w1 w2 : nat) (a b c e : Z) :
  0 <= a < 256 ^ Z.of_nat w1 → 0 <= b < 256 ^ Z.of_nat w2 →
  0 <= c < 256 ^ Z.of_nat w1 → 0 <= e < 256 ^ Z.of_nat w2 →
  be_bytes w1 a ++ be_bytes w2 b = be_bytes w1 c ++ be_bytes w2 e → a = c ∧ b = e.
Proof.
  intros ? ? ? ? [E1 E2]%app_inj_1; [|by rewrite !length_be_bytes].
  apply be_bytes_inj in E1, E2; done.
Qed.

(** The prefix test compares heights. *)
Lemma prefix_matches_spec (w : nat) k h x :
  0 <= k <= U32_MAX → 0 <= h <= U32_MAX →
  block_height_prefix_matches (be_bytes 4 k ++ be_bytes w x) h = (k =? h).
Proof.
  intros Hk%pow_u32 Hh%pow_u32. unfold block_height_prefix_matches, count.
  rewrite length_app, !length_be_bytes, (proj2 (Z.leb_le _ _)) by lia. cbn [andb].
  rewrite take_app_le, take_ge by by rewrite length_be_bytes.
  destruct (k =? h) eqn:E; b2p; [subst; by apply bool_decide_true|].
  apply bool_decide_false. intros Eb. by apply be_bytes_inj in Eb.
Qed.

(** The rows below a height prefix, when they are known to be those of a sorted list. *)
Lemma prefix_scan {V} (w : nat) (m : gmap (Z * Z) V) h (l : list ((Z * Z) * V)) :
  (∀ k v, m !! k = Some v → 0 <= k.1 <= U32_MAX ∧ 0 <= k.2 < 256 ^ Z.of_nat w) →
  0 <= h <= U32_MAX →
  (∀ kv, kv ∈ l ↔ kv.1.1 = h ∧ m !! kv.1 = Some kv.2) →
  StronglySorted (λ x y, x.1.2 < y.1.2) l →
  take_while (λ kv, block_height_prefix_matches (be_bytes 4 kv.1.1 ++ be_bytes w kv.1.2) h)
    (cf_from (λ k, be_bytes 4 k.1 ++ be_bytes w k.2) (be_bytes 4 h ++ be_bytes w 0) m) = l.
Proof.
  intros W Hh Hl Hs. pose proof (pow_u32 h Hh) as Hh'.
  assert (0 <= 0 < 256 ^ Z.of_nat w) as H0 by (split; [lia|apply Z.pow_pos_nonneg; lia]).
  rewrite (scan_filter (λ k : Z * Z, be_bytes 4 k.1 ++ be_bytes w k.2)).
  - apply scan_unique.
    + intros [a b] [c e] [v Hv] [v' Hv'] E. destruct (W _ _ Hv) as [?%pow_u32 ?], (W _ _ Hv') as [?%pow_u32 ?].
      cbn in *. apply undo_key_inj in E as [-> ->]; done.
    + clear Hl. induction Hs as [|x l Hs IH Hall]; constructor; [|done].
      rewrite Forall_forall in Hall. intros Hx%Hall. lia.
    + assert (∀ kv, kv ∈ l → kv.1.1 = h ∧ m !! kv.1 = Some kv.2) as Hin by (intros; by apply Hl).
      clear Hl. induction Hs as [|x l Hs IH Hall]; constructor.
      * apply IH. intros. apply Hin. by right.
      * rewrite Forall_forall in *. intros y Hy. destruct (Hin x ltac:(by left)) as [Ex Hx].
        destruct (Hin y ltac:(by right)) as [Ey Hy']. specialize (Hall _ Hy).
        destruct (W _ _ Hx) as [_ ?], (W _ _ Hy') as [_ ?]. unfold row_le. rewrite Ex, Ey.
        apply bytes_le_pair; [done..|]. right. split; [done|lia].
    + intros [[a b] v]. rewrite Hl. cbn. split.
      * intros [-> Hv]. destruct (W _ _ Hv) as [_ ?]. split_and!; [done| |].
        -- apply bytes_le_pair; [done..|]. cbn in *. lia.
        -- rewrite prefix_matches_spec by done. apply Z.eqb_refl.
      * intros (Hv & _ & Hp). destruct (W _ _ Hv) as [? ?]. rewrite prefix_matches_spec in Hp by done. by b2p.
  - intros [[a b] v] [[c e] v'] Hx Hy Hsx Hxy Hp. cbn in *.
    destruct (W _ _ Hx) as [Ha ?], (W _ _ Hy) as [Hc ?]. cbn in *.
    rewrite prefix_matches_spec in Hp |- * by done. b2p. subst c. apply Z.eqb_eq.
    pose proof (pow_u32 a Ha). unfold row_le in Hxy. cbn in Hxy. apply bytes_le_pair in Hsx, Hxy; [lia|done..].
Qed.

(** The undo rows of height [h] are exactly those of the list. *)
Definition utxos_stored (h : u32) (l : list BlockUndoUtxoEntry) (m : gmap (u32 * u32) BlockUndoUtxoEntry) :
    Prop :=
  ∀ i e, m !! (h, i) = Some e ↔ ((h, i), e) ∈ enumerate_utxos h l.
Definition wf_undo_keys {V} (w : nat) (m : gmap (Z * Z) V) : Prop :=
  ∀ k v, m !! k = Some v → 0 <= k.1 <= U32_MAX ∧ 0 <= k.2 < 256 ^ Z.of_nat w.

Lemma elem_of_enumerate h l k e :
  count l <= U32_MAX + 1 →
  (k, e) ∈ enumerate_utxos h l ↔ k.1 = h ∧ 0 <= k.2 ∧ l !! Z.to_nat k.2 = Some e.
Proof.
  intros Hc. unfold enumerate_utxos. rewrite elem_of_lookup_imap. split.
  - intros (i & x & [= -> ->] & Hi). cbn. pose proof (lookup_lt_Some _ _ _ Hi).
    unfold count in Hc. rewrite usize_as_u32_id by lia. split_and!; [done|lia|]. by rewrite Nat2Z.id.
  - destruct k as [h' i]. cbn. intros (-> & Hi & Hl). exists (Z.to_nat i), e. split; [|done].
    pose proof (lookup_lt_Some _ _ _ Hl). unfold count in Hc.
    rewrite usize_as_u32_id by lia. by rewrite Z2Nat.id by lia.
Qed.

Lemma get_undo_utxos_stored cf h l d :
  wf_undo_keys 4 (cf d) → 0 <= h <= U32_MAX → count l <= U32_MAX + 1 →
  utxos_stored h l (cf d) → get_block_undo_utxos_from_cf cf h d = l.
Proof.
  intros W Hh Hc Hst. unfold get_block_undo_utxos_from_cf.
  transitivity (enumerate_utxos h l).*2.
  2: { unfold enumerate_utxos. rewrite fmap_imap. etrans; [apply (imap_const id)|]. apply list_fmap_id. }
  f_equal. apply (prefix_scan 4 (cf d) h (enumerate_utxos h l)); [done..| |].
  - intros [[a i] e]. cbn. rewrite (elem_of_enumerate h l (a, i)) by done. cbn. split.
    + intros (-> & Hi & Hl). split; [done|]. apply Hst. by apply elem_of_enumerate.
    + intros [-> He]. apply Hst in He. by apply elem_of_enumerate in He.
  - unfold enumerate_utxos. assert (∀ n, Z.of_nat n + count l <= U32_MAX + 1 →
      StronglySorted (λ x y : (Z * Z) * BlockUndoUtxoEntry, x.1.2 < y.1.2)
        (imap (λ i e, ((h, usize_as_u32 (Z.of_nat (n + i))), e)) l)) as Hs; [|by apply (Hs 0%nat)].
    clear Hc Hst. unfold count. induction l as [|e l IH]; intros n Hn; cbn; [constructor|]. cbn in Hn.
    constructor.
    + erewrite imap_ext; [apply (IH (S n)); lia|]. intros i x _. cbn. by rewrite Nat.add_succ_r.
    + apply Forall_forall. intros [[a b] x] (i & y & [= -> -> ->] & Hi)%elem_of_lookup_imap. cbn.
      apply lookup_lt_Some in Hi. rewrite !usize_as_u32_id by lia. lia.
Qed.

(** The touched script hashes of height [h] are exactly those of the sorted list. *)
Lemma get_touched_stored h l d :
  wf_undo_keys 32 (block_undo_balance_index_cf d) → 0 <= h <= U32_MAX →
  (∀ a, is_Some (block_undo_balance_index_cf d !! (h, a)) ↔ a ∈ l) →
  StronglySorted Z.lt l →
  get_block_undo_touched_script_hashes h d = l.
Proof.
  intros W Hh Hst Hs. unfold get_block_undo_touched_script_hashes.
  transitivity ((λ kv : (u32 * USDBScriptHash) * (), kv.1.2) <$> ((λ a, ((h, a), ())) <$> l)).
  2: { rewrite <-list_fmap_compose. apply list_fmap_id. }
  f_equal. apply (prefix_scan 32 _ h ((λ a, ((h, a), ())) <$> l)); [done..| |].
  - intros [[k a] []]. cbn. rewrite list_elem_of_fmap. split.
    + intros (x & [= -> ->] & Hx). split; [done|]. apply Hst in Hx as [[] ?]. done.
    + intros [-> Hx]. exists a. split; [done|]. apply Hst. by eexists.
  - clear -Hs. induction Hs as [|x l Hs IH Hall]; cbn; constructor; [done|].
    apply Forall_fmap. eapply Forall_impl; [exact Hall|]. done.
Qed.

(** ** Maps from lists of rows *)

Lemma put_all_new {K V} `{Countable K} (l : list (K * V)) k v : NoDup l.*1 → put_all l ∅ !! k = Some v ↔ (k, v) ∈ l.
Proof. intros Hn. rewrite put_all_lookup, (right_id_L ∅ (∪)) by done. symmetry. by apply elem_of_list_to_map. Qed.
(** A list of rows of a map, with keys that do not repeat, is not longer than the map. *)
Lemma rows_length {E K V} `{Countable K} (f : E → K) (l : list E) (m : gmap K V) :
  NoDup (f <$> l) → (∀ e, e ∈ l → is_Some (m !! f e)) → count l <= Z.of_nat (size m).
Proof.
  intros Hn Hm. unfold count. rewrite <-(length_fmap f), <-size_dom, <-(size_list_to_set (C := gset K)) by done.
  apply inj_le, subseteq_size. intros k (e & -> & He)%elem_of_list_to_set%list_elem_of_fmap. apply elem_of_dom. by apply Hm.
Qed.
