(* ===== verification/BalanceBlock.v ===== *)
(** * Processing a batch of blocks

    [balance-history/src/index/block.rs]: a batch of consecutive blocks is preloaded (with the
    outputs its inputs spend and the balances before it), turned into balance rows block by block,
    and flushed as one write, then the caches follow.  Also the two LRU caches
    ([cache/utxo.rs], [cache/balance.rs]).

    The parallel loops are modelled in block order: their tasks share the map of the batch's outputs,
    behind a lock, and each task inserts its own outputs or marks the outputs it spends. *)

From S2P Require Import Prelude Encoding Types Tx BalanceCodec BalanceDb.

(** ** The bitcoin crate, the client and the LRU crate *)

Record BtcBlock := { block_hash : BlockHash; block_txdata : list Transaction }.

Class BitcoinCrate := {
  is_coinbase : Transaction → bool;
  is_op_return : ScriptBuf → bool;
  sha256 : list Z → list Z
}.
Class BTCClient := {
  btc_get_latest_block_height : result u32;
  btc_get_block_hash : u32 → result BlockHash;
  btc_get_block_by_height : u32 → result BtcBlock;
  btc_get_utxo : OutPoint → result (ScriptBuf * u64)
}.
(** What a full cache forgets when an entry is added. *)
Class LruCrate := {
  evict_utxos : gmap OutPoint UTXOValue → gmap OutPoint UTXOValue;
  evict_balances : gmap USDBScriptHash BalanceHistoryData → gmap USDBScriptHash BalanceHistoryData
}.

(** A cache forgets entries, it does not invent them. *)
Class LruCrateLaws `{LruCrate} := {
  evict_utxos_subseteq m : evict_utxos m ⊆ m;
  evict_balances_subseteq m : evict_balances m ⊆ m
}.

(** ** Caches *)

Record Caches := {
  utxo_cache : gmap OutPoint UTXOValue;
  balance_cache : gmap USDBScriptHash BalanceHistoryData
}.
Definition no_caches : Caches := {| utxo_cache := ∅; balance_cache := ∅ |}.

Section Caches.
Context `{LruCrate}.

Definition utxo_cache_put (o : OutPoint) (utxo : UTXOValue) (c : Caches) : Caches :=
  {| utxo_cache := evict_utxos (<[o := utxo]> (utxo_cache c)); balance_cache := balance_cache c |}.
Definition utxo_cache_spend (o : OutPoint) (c : Caches) : Caches :=
  {| utxo_cache := delete o (utxo_cache c); balance_cache := balance_cache c |}.
(** An entry with balance zero is not cached. *)
Definition balance_cache_put (script_hash : USDBScriptHash) (data : BalanceHistoryData) (c : Caches) :
    Caches :=
  {| utxo_cache := utxo_cache c;
     balance_cache := if bd_balance data =? 0 then delete script_hash (balance_cache c)
                      else evict_balances (<[script_hash := data]> (balance_cache c)) |}.
Definition balance_cache_get (script_hash : USDBScriptHash) (block_height : u32) (c : Caches) :
    result (option BalanceHistoryData) :=
  match balance_cache c !! script_hash with
  | Some cached =>
      if bd_block_height cached <=? block_height then Ok (Some cached)
      else Panic "Inconsistent cache state"
  | None => Ok None
  end.
End Caches.

(** ** The data of a batch *)

Record VOutUtxoInfo := { vo_item : UTXOValue; vo_block_height : u32; vo_spend : bool }.
Definition created_before (info : VOutUtxoInfo) (spending_block_height : u32) : bool :=
  vo_block_height info <? spending_block_height.

Record PreloadVIn := { vi_outpoint : OutPoint; vi_cache_tx_out : option UTXOValue; need_flush : bool }.
Record PreloadVOut := { po_outpoint : OutPoint; po_cache_tx_out : UTXOValue }.
Record PreloadTx := { pt_txid : Txid; vin : list PreloadVIn; pt_vout : list PreloadVOut }.
Record PreloadBlock := { pb_height : u32; pb_block_hash : BlockHash; pb_txdata : list PreloadTx }.
Record BlockBalanceDelta := {
  dl_block_height : u32;
  dl_block_hash : BlockHash;
  dl_entries : list BalanceHistoryEntry
}.
Record BatchBlockData := {
  (* [block_range.start] and [block_range.end] *)
  range_start : u32;
  range_end : u32;
  blocks : list PreloadBlock;
  vout_utxos : gmap OutPoint VOutUtxoInfo;
  balances : gmap USDBScriptHash BalanceHistoryData;
  balance_history : list BalanceHistoryEntry;
  block_balance_deltas : list BlockBalanceDelta;
  script_registry : list ScriptRegistryEntry
}.
Definition new_batch (first last : u32) : BatchBlockData :=
  {| range_start := first; range_end := last; blocks := []; vout_utxos := ∅; balances := ∅;
     balance_history := []; block_balance_deltas := []; script_registry := [] |}.

Definition set_blocks bs d :=
  {| range_start := range_start d; range_end := range_end d; blocks := bs; vout_utxos := vout_utxos d;
     balances := balances d; balance_history := balance_history d;
     block_balance_deltas := block_balance_deltas d; script_registry := script_registry d |}.
Definition set_vout_utxos m d :=
  {| range_start := range_start d; range_end := range_end d; blocks := blocks d; vout_utxos := m;
     balances := balances d; balance_history := balance_history d;
     block_balance_deltas := block_balance_deltas d; script_registry := script_registry d |}.
Definition set_balances m d :=
  {| range_start := range_start d; range_end := range_end d; blocks := blocks d;
     vout_utxos := vout_utxos d; balances := m; balance_history := balance_history d;
     block_balance_deltas := block_balance_deltas d; script_registry := script_registry d |}.
Definition set_results bal all deltas d :=
  {| range_start := range_start d; range_end := range_end d; blocks := blocks d;
     vout_utxos := vout_utxos d; balances := bal; balance_history := all;
     block_balance_deltas := deltas; script_registry := script_registry d |}.
Definition extend_script_registry l d :=
  {| range_start := range_start d; range_end := range_end d; blocks := blocks d;
     vout_utxos := vout_utxos d; balances := balances d; balance_history := balance_history d;
     block_balance_deltas := block_balance_deltas d; script_registry := script_registry d ++ l |}.

Section Block.
Context `{BitcoinCrate} `{BTCClient} `{LruCrate}.

(** [usdb-util/src/hash.rs]: the SHA-256 of the script, reversed. *)
Definition to_usdb_script_hash (script : ScriptBuf) : USDBScriptHash :=
  of_be_bytes (rev (sha256 script)).

(** ** Preloading *)

Definition preload_vin (o : OutPoint) : PreloadVIn :=
  {| vi_outpoint := o; vi_cache_tx_out := None; need_flush := true |}.
(** The spendable outputs of a transaction. *)
Definition preload_vouts (tx : Transaction) : list (PreloadVOut * ScriptRegistryEntry) :=
  omap id (imap (λ n out,
    if is_op_return (script_pubkey out) then None
    else
      let script_hash := to_usdb_script_hash (script_pubkey out) in
      Some ({| po_outpoint := {| op_txid := compute_txid tx; vout := usize_as_u32 (Z.of_nat n) |};
               po_cache_tx_out := {| uv_script_hash := script_hash; uv_value := value out |} |},
            {| sre_script_hash := script_hash; sre_script_pubkey := script_pubkey out |})) (output tx)).
Definition preload_tx (tx : Transaction) : PreloadTx :=
  {| pt_txid := compute_txid tx;
     vin := if is_coinbase tx then [] else preload_vin <$> input tx;
     pt_vout := fst <$> preload_vouts tx |}.

Definition preprocess_block (block_height : u32) (block : BtcBlock) : M BatchBlockData PreloadBlock :=
  let preload_block := {| pb_height := block_height; pb_block_hash := block_hash block;
                          pb_txdata := preload_tx <$> block_txdata block |} in
  let! _ := modify (extend_script_registry
              (block_txdata block ≫= λ tx, snd <$> preload_vouts tx)) in
  let! _ := modify (λ d, set_vout_utxos
              (put_all ((λ out, (po_outpoint out,
                           {| vo_item := po_cache_tx_out out; vo_block_height := block_height;
                              vo_spend := false |}))
                        <$> (pb_txdata preload_block ≫= pt_vout)) (vout_utxos d)) d) in
  ret preload_block.

Definition set_cache_tx_out (utxo : UTXOValue) (flush : bool) (i : PreloadVIn) : PreloadVIn :=
  {| vi_outpoint := vi_outpoint i; vi_cache_tx_out := Some utxo; need_flush := flush |}.
(** The sources in memory; an input found in neither stays empty. *)
Definition resolve_vin (c : Caches) (height : u32) (i : PreloadVIn) : M BatchBlockData PreloadVIn :=
  let! found := gets (λ d, vout_utxos d !! vi_outpoint i) in
  match found with
  | Some info =>
      let! _ := assert (negb (vo_spend info)) "Double spend of UTXO in the same batch" in
      let! _ := modify (λ d, set_vout_utxos
                  (<[vi_outpoint i := {| vo_item := vo_item info;
                                         vo_block_height := vo_block_height info;
                                         vo_spend := true |}]> (vout_utxos d)) d) in
      ret (set_cache_tx_out (vo_item info) (created_before info height) i)
  | None =>
      match utxo_cache c !! vi_outpoint i with
      | Some cache_tx_out => ret (set_cache_tx_out cache_tx_out (need_flush i) i)
      | None => ret i
      end
  end.

Definition fetch_utxo (found : option UTXOValue) (o : OutPoint) : result UTXOValue :=
  match found with
  | Some utxo => Ok utxo
  | None =>
      let? (script, amount) := btc_get_utxo o in
      Ok {| uv_script_hash := to_usdb_script_hash script; uv_value := amount |}
  end.
Definition fetch_utxos (d : BalanceHistoryDB) (outpoints : list OutPoint) : result (list UTXOValue) :=
  collect (λ p, fetch_utxo p.1 p.2) (zip ((λ o, utxo_cf d !! o) <$> outpoints) outpoints).

(** The loaded outputs go to the empty inputs, in order. *)
Definition fill_vin (i : PreloadVIn) : M (list UTXOValue) PreloadVIn := λ loaded,
  match vi_cache_tx_out i, loaded with
  | None, utxo :: loaded => (Ok (set_cache_tx_out utxo (need_flush i) i), loaded)
  | _, _ => (Ok i, loaded)
  end.
Definition map_vins {S} (body : PreloadVIn → M S PreloadVIn) (txs : list PreloadTx) :
    M S (list PreloadTx) :=
  map_m txs (λ tx,
    let! vins := map_m (vin tx) body in
    ret {| pt_txid := pt_txid tx; vin := vins; pt_vout := pt_vout tx |}).
Definition outpoints_to_load (txs : list PreloadTx) : list OutPoint :=
  vi_outpoint <$> filter (λ i, vi_cache_tx_out i = None) (txs ≫= vin).

Definition preload_utxos (disk : BalanceHistoryDB) (c : Caches) (b : PreloadBlock) :
    M BatchBlockData PreloadBlock :=
  let! txs := map_vins (resolve_vin c (pb_height b)) (pb_txdata b) in
  match outpoints_to_load txs with
  | [] => ret {| pb_height := pb_height b; pb_block_hash := pb_block_hash b; pb_txdata := txs |}
  | outpoints =>
      let! loaded := lift (fetch_utxos disk outpoints) in
      let! _ := assert (count loaded =? count outpoints) "Loaded UTXO count mismatch" in
      let! txs := lift (map_vins fill_vin txs loaded).1 in
      ret {| pb_height := pb_height b; pb_block_hash := pb_block_hash b; pb_txdata := txs |}
  end.

(** [cache_tx_out.as_ref().unwrap()] *)
Definition vin_utxo (i : PreloadVIn) : result UTXOValue :=
  match vi_cache_tx_out i with
  | Some utxo => Ok utxo
  | None => Panic "called `Option::unwrap()` on a `None` value"
  end.
Definition involved_addresses (bs : list PreloadBlock) : result (list USDBScriptHash) :=
  let? spent := collect vin_utxo (bs ≫= λ b, pb_txdata b ≫= vin) in
  Ok (elements (list_to_set (C := gset USDBScriptHash)
    ((uv_script_hash <$> spent)
     ++ ((λ out, uv_script_hash (po_cache_tx_out out)) <$> (bs ≫= λ b, pb_txdata b ≫= pt_vout))))).

Definition preload_balance (disk : Disk) (c : Caches) (target_block_height : u32)
    (script_hash : USDBScriptHash) : M BatchBlockData unit :=
  let! cached := lift (balance_cache_get script_hash target_block_height c) in
  match cached with
  | Some cached => modify (λ d, set_balances (<[script_hash := cached]> (balances d)) d)
  | None =>
      let! balance := lift (get_balance_at_block_height script_hash target_block_height disk).1 in
      modify (λ d, set_balances (<[script_hash := balance]> (balances d)) d)
  end.
Definition preload_balances (disk : Disk) (c : Caches) (target_block_height : u32) :
    M BatchBlockData unit :=
  let! bs := gets blocks in
  let! addresses := lift (involved_addresses bs) in
  for_each (order_by (be_bytes 32) false addresses) (preload_balance disk c target_block_height).

Definition preload (disk : Disk) (c : Caches) (first last : u32) : M BatchBlockData unit :=
  let! _ := assert (first <? last) "Invalid block height range" in
  let! raw := lift (collect (λ h, result_map (λ b, (h, b)) (btc_get_block_by_height h))
                      (heights first (last - 1))) in
  let! preprocessed := map_m raw (λ hb, preprocess_block hb.1 hb.2) in
  let! bs := map_m preprocessed (preload_utxos (db disk) c) in
  let! _ := modify (set_blocks bs) in
  if first >? 0 then preload_balances disk c (u32_sub first 1) else ret tt.

(** ** Balances *)

(** [block_history.entry(script_hash)]: the delta of a new entry, or added to the entry. *)
Definition add_delta (block_height : u32) (script_hash : USDBScriptHash) (new_delta : i64)
    (update : i64 → i64) (m : gmap USDBScriptHash BalanceHistoryData) :
    gmap USDBScriptHash BalanceHistoryData :=
  match m !! script_hash with
  | None => <[script_hash := {| bd_block_height := block_height; bd_delta := new_delta;
                                bd_balance := 0 |}]> m
  | Some e => <[script_hash := {| bd_block_height := bd_block_height e;
                                  bd_delta := update (bd_delta e);
                                  bd_balance := bd_balance e |}]> m
  end.
Definition vin_delta (block_height : u32) (i : PreloadVIn) :
    M (gmap USDBScriptHash BalanceHistoryData) unit :=
  let! utxo := lift (vin_utxo i) in
  let amount := u64_as_i64 (uv_value utxo) in
  modify (add_delta block_height (uv_script_hash utxo) (i64_neg amount) (λ delta, i64_sub delta amount)).
Definition vout_delta (block_height : u32) (out : PreloadVOut) :
    M (gmap USDBScriptHash BalanceHistoryData) unit :=
  let amount := u64_as_i64 (uv_value (po_cache_tx_out out)) in
  modify (add_delta block_height (uv_script_hash (po_cache_tx_out out)) amount
            (λ delta, i64_add delta amount)).
Definition block_history (b : PreloadBlock) : result (gmap USDBScriptHash BalanceHistoryData) :=
  let m := for_each (pb_txdata b) (λ tx,
    let! _ := for_each (vin tx) (vin_delta (pb_height b)) in
    for_each (pt_vout tx) (vout_delta (pb_height b))) ∅ in
  result_map (λ _, m.2) m.1.

(** One entry of a block: the new balance, for the row and for the blocks after it. *)
Definition update_balance (kv : USDBScriptHash * BalanceHistoryData) :
    M (gmap USDBScriptHash BalanceHistoryData) (USDBScriptHash * BalanceHistoryData) :=
  let! found := gets (λ m, m !! kv.1) in
  let! balance_entry := lift (ok_or "Balance not found for address" found) in
  let balance := u64_as_i64 (bd_balance balance_entry) in
  let! _ := assert (0 <=? i64_add balance (bd_delta kv.2)) "Insufficient balance for script_hash" in
  let new_entry := {| bd_block_height := bd_block_height kv.2; bd_delta := bd_delta kv.2;
                      bd_balance := i64_as_u64 (i64_add balance (bd_delta kv.2)) |} in
  let! _ := modify (<[kv.1 := new_entry]>) in
  ret (kv.1, new_entry).

Definition history_entry (kv : USDBScriptHash * BalanceHistoryData) : BalanceHistoryEntry :=
  {| be_script_hash := kv.1; be_block_height := bd_block_height kv.2; be_delta := bd_delta kv.2;
     be_balance := bd_balance kv.2 |}.
Definition balance_delta (b : PreloadBlock) (history : list (USDBScriptHash * BalanceHistoryData)) :
    BlockBalanceDelta :=
  {| dl_block_height := pb_height b; dl_block_hash := pb_block_hash b;
     dl_entries := order_by (λ e, be_bytes 32 (be_script_hash e)) false (history_entry <$> history) |}.
Definition entry_key (e : BalanceHistoryEntry) : list Z :=
  make_balance_history_key (be_script_hash e) (be_block_height e).

Definition process : M BatchBlockData unit :=
  let! d := gets id in
  let! histories := lift (collect block_history (blocks d)) in
  let updated := map_m histories (λ history, map_m (map_to_list history) update_balance) (balances d) in
  let! histories := lift updated.1 in
  let! _ := assert (bool_decide (length (balance_history d) = 0%nat))
              "Balance history vector is not empty before flushing" in
  let! _ := assert (bool_decide (length (block_balance_deltas d) = 0%nat))
              "Block balance delta vector is not empty before flushing" in
  let deltas := zip_with balance_delta (blocks d) histories in
  modify (set_results updated.2 (order_by entry_key false (deltas ≫= dl_entries)) deltas).
(** ** The commit chain *)

Definition EMPTY_COMMIT_HASH : list Z := repeat 0 32.

(** What one entry feeds to the hasher. *)
Definition entry_bytes (e : BalanceHistoryEntry) : list Z :=
  be_bytes 32 (be_script_hash e) ++ be_bytes 4 (be_block_height e)
  ++ be_bytes 8 (i64_as_u64 (be_delta e)) ++ be_bytes 8 (be_balance e).
Definition delta_root_input (b : BlockBalanceDelta) : list Z :=
  as_bytes "balance-history:block-delta-root:v1" ++ be_bytes 4 (dl_block_height b)
  ++ be_bytes 32 (dl_block_hash b) ++ (dl_entries b ≫= entry_bytes).
Definition compute_balance_delta_root (b : BlockBalanceDelta) : list Z := sha256 (delta_root_input b).

Definition block_commit_input (block_height : u32) (hash : BlockHash)
    (balance_delta_root prev_block_commit : list Z) : list Z :=
  as_bytes "balance-history:block-commit:v1" ++ be_bytes 4 block_height ++ be_bytes 32 hash
  ++ balance_delta_root ++ prev_block_commit.
Definition compute_block_commit (block_height : u32) (hash : BlockHash)
    (balance_delta_root prev_block_commit : list Z) : list Z :=
  sha256 (block_commit_input block_height hash balance_delta_root prev_block_commit).

Definition commit_entry (b : BlockBalanceDelta) (prev_block_commit : list Z) : BlockCommitEntry :=
  let balance_delta_root := compute_balance_delta_root b in
  {| cm_block_height := dl_block_height b; cm_btc_block_hash := dl_block_hash b;
     cm_balance_delta_root := balance_delta_root;
     cm_block_commit := compute_block_commit (dl_block_height b) (dl_block_hash b)
                          balance_delta_root prev_block_commit |}.
Fixpoint build_block_commits (bs : list BlockBalanceDelta) (prev_block_commit : list Z) :
    list BlockCommitEntry :=
  match bs with
  | [] => []
  | b :: bs =>
      let entry := commit_entry b prev_block_commit in
      entry :: build_block_commits bs (cm_block_commit entry)
  end.

Definition resolve_previous_commit (previous_height : option u32)
    (previous_commit : option BlockCommitEntry) : result (list Z) :=
  match previous_height with
  | None => Ok (from_option cm_block_commit EMPTY_COMMIT_HASH previous_commit)
  | Some height =>
      if height =? 0 then Ok (from_option cm_block_commit EMPTY_COMMIT_HASH previous_commit)
      else ok_or "Missing previous block commit" (cm_block_commit <$> previous_commit)
  end.

(** ** What a batch writes *)

Definition should_persist_undo_for_block (block_height latest_btc_height undo_retention_blocks : u32) :
    bool :=
  if (undo_retention_blocks =? 0) || (block_height >? latest_btc_height) then false
  else block_height >=? u32_saturating_sub latest_btc_height (u32_sub undo_retention_blocks 1).
Definition should_persist_any_undo_for_range (first last latest_btc_height undo_retention_blocks : u32) :
    bool :=
  if (last <=? first) || (undo_retention_blocks =? 0) then false
  else
    let min_undo_height := u32_saturating_sub latest_btc_height (u32_sub undo_retention_blocks 1) in
    (first <=? latest_btc_height) && (u32_sub last 1 >=? min_undo_height).

Definition collect_utxo_updates (d : BatchBlockData) : list (OutPoint * UTXOValue) * list OutPoint :=
  (order_by (λ p, OutPointCodec_encode p.1) false
     ((λ p, (p.1, vo_item p.2)) <$> filter (λ p, vo_spend p.2 = false) (map_to_list (vout_utxos d))),
   order_by OutPointCodec_encode false
     (vi_outpoint <$> filter (λ i, need_flush i = true) (blocks d ≫= λ b, pb_txdata b ≫= vin))).

Definition collect_balance_updates (stored : u32 → option BlockCommitEntry) (d : BatchBlockData) :
    result (list BalanceHistoryEntry * list BlockCommitEntry * u32) :=
  let previous_height := if range_start d =? 0 then None else Some (range_start d - 1) in
  let previous_commit_entry := previous_height ≫= stored in
  let? previous_commit := resolve_previous_commit previous_height previous_commit_entry in
  Ok (balance_history d, build_block_commits (block_balance_deltas d) previous_commit,
      u32_sub (range_end d) 1).

(** Neighbours with one script hash must be the same script. *)
Definition push_script (deduped : list ScriptRegistryEntry) (entry : ScriptRegistryEntry) :
    result (list ScriptRegistryEntry) :=
  match last deduped with
  | Some prev =>
      if sre_script_hash prev =? sre_script_hash entry then
        if negb (bool_decide (sre_script_pubkey prev = sre_script_pubkey entry))
        then Err "Conflicting script registry entries" else Ok deduped
      else Ok (deduped ++ [entry])
  | None => Ok (deduped ++ [entry])
  end.
Definition collect_script_registry_updates (d : BatchBlockData) : result (list ScriptRegistryEntry) :=
  foldl (λ acc entry, let? deduped := acc in push_script deduped entry) (Ok [])
    (order_by (λ e, be_bytes 32 (sre_script_hash e)) false (script_registry d)).

Definition created_entry (out : PreloadVOut) : BlockUndoUtxoEntry :=
  {| uu_outpoint := po_outpoint out; uu_script_hash := uv_script_hash (po_cache_tx_out out);
     uu_value := uv_value (po_cache_tx_out out) |}.
Definition spent_entry (i : PreloadVIn) : result BlockUndoUtxoEntry :=
  let? spent := ok_or "Missing cached spent UTXO when collecting undo bundle" (vi_cache_tx_out i) in
  Ok {| uu_outpoint := vi_outpoint i; uu_script_hash := uv_script_hash spent;
        uu_value := uv_value spent |}.
Definition undo_bundle (deltas : list BlockBalanceDelta) (b : PreloadBlock) : result BlockUndoBundle :=
  let created := created_entry <$> (pb_txdata b ≫= pt_vout) in
  let? spent := collect spent_entry (filter (λ i, need_flush i = true) (pb_txdata b ≫= vin)) in
  let touched := deltas ≫= λ dl, if dl_block_height dl =? pb_height b
                                 then be_script_hash <$> dl_entries dl else [] in
  Ok {| ub_block_height := pb_height b; ub_btc_block_hash := pb_block_hash b;
        ub_created_utxos := created; ub_spent_utxos := spent;
        ub_touched_script_hashes := order_by (be_bytes 32) false
          (elements (list_to_set (C := gset USDBScriptHash)
            ((uu_script_hash <$> created) ++ (uu_script_hash <$> spent) ++ touched))) |}.
Definition collect_undo_bundles (latest_btc_height undo_retention_blocks : u32) (d : BatchBlockData) :
    result (list BlockUndoBundle) :=
  if negb (should_persist_any_undo_for_range (range_start d) (range_end d) latest_btc_height
             undo_retention_blocks)
  then Ok []
  else collect (undo_bundle (block_balance_deltas d))
         (filter (λ b, should_persist_undo_for_block (pb_height b) latest_btc_height
                         undo_retention_blocks = true) (blocks d)).

(** ** Flushing *)

Record Store := { disk : Disk; caches : Caches }.
Definition on_disk {A} (m : M Disk A) : M Store A :=
  zoom disk (λ k s, {| disk := k; caches := caches s |}) m.
Definition on_caches (f : Caches → Caches) : M Store unit :=
  modify (λ s, {| disk := disk s; caches := f (caches s) |}).

Definition apply_cache_updates (d : BatchBlockData) (new_utxos : list (OutPoint * UTXOValue))
    (spent_utxos : list OutPoint) (c : Caches) : Caches :=
  let c := foldl (λ c p, utxo_cache_put p.1 p.2 c) c new_utxos in
  let c := foldl (λ c o, utxo_cache_spend o c) c spent_utxos in
  foldl (λ c kv, balance_cache_put kv.1 kv.2 c) c (map_to_list (balances d)).

Definition flush (latest_btc_height undo_retention_blocks : u32) (d : BatchBlockData) : M Store unit :=
  let (new_utxos, spent_utxos) := collect_utxo_updates d in
  let! stored := gets (λ s h, block_commits_cf (db (disk s)) !! h) in
  let! (balance_entries, block_commits, last_block_height) := lift (collect_balance_updates stored d) in
  let! script_registry_entries := lift (collect_script_registry_updates d) in
  let! undo_bundles := lift (collect_undo_bundles latest_btc_height undo_retention_blocks d) in
  let! _ := on_disk (update_block_state_batch_async
    {| up_new_utxos := new_utxos; up_remove_utxos := spent_utxos; up_entries_list := balance_entries;
       up_block_height := last_block_height; up_block_commits := block_commits;
       up_script_registry_entries := script_registry_entries; up_undo_bundles := undo_bundles |}) in
  on_caches (apply_cache_updates d new_utxos spent_utxos).

(** [process_blocks]: the range [first..last] without its end. *)
Definition process_blocks (first last latest_btc_height undo_retention_blocks : u32) : M Store unit :=
  let! s := gets id in
  let loaded := (let! _ := preload (disk s) (caches s) first last in process) (new_batch first last) in
  let! _ := lift loaded.1 in
  flush latest_btc_height undo_retention_blocks loaded.2.
End Block.
