(* ===== verification/BalanceChain.v ===== *)
(** * The chain that balance-history indexes

    The reference semantics: the unspent outputs after each block, and the balance of a script hash as
    the sum of its unspent outputs.  From it, what the database must hold at a height: the rows, the
    commit chain and the undo bundles, each a function of the chain alone. *)

From S2P Require Import Prelude Encoding Types Tx BalanceCodec BalanceDb BalanceDbFacts BalanceBlock.

(** SHA-256 gives 32 bytes. *)
Class BitcoinCrateLaws `{BitcoinCrate} := {
  sha256_length l : length (sha256 l) = 32%nat;
  sha256_bytes l : Forall byte (sha256 l)
}.

(** ** Unspent outputs *)

Section Ledger.
Context `{BitcoinCrate}.

Definition tx_inputs (tx : Transaction) : list OutPoint := if is_coinbase tx then [] else input tx.
(** The spendable outputs with their outpoints. *)
Definition tx_outputs (tx : Transaction) : list (OutPoint * UTXOValue) :=
  omap id (imap (λ n out,
    if is_op_return (script_pubkey out) then None
    else Some ({| op_txid := compute_txid tx; vout := Z.of_nat n |},
               {| uv_script_hash := to_usdb_script_hash (script_pubkey out); uv_value := value out |}))
    (output tx)).
Definition apply_tx (u : gmap OutPoint UTXOValue) (tx : Transaction) : gmap OutPoint UTXOValue :=
  put_all (tx_outputs tx) (delete_all (tx_inputs tx) u).
Definition unspent (txs : list Transaction) : gmap OutPoint UTXOValue := foldl apply_tx ∅ txs.

Definition created (txs : list Transaction) : list (OutPoint * UTXOValue) := txs ≫= tx_outputs.
Definition spent (txs : list Transaction) : list OutPoint := txs ≫= tx_inputs.
(** Every output ever created. *)
Definition coins (txs : list Transaction) : gmap OutPoint UTXOValue := list_to_map (created txs).

(** What a script hash owns. *)
Definition amount (a : USDBScriptHash) (v : UTXOValue) : Z :=
  if uv_script_hash v =? a then uv_value v else 0.
Definition balance_of (a : USDBScriptHash) (u : gmap OutPoint UTXOValue) : Z :=
  map_fold (λ _ v acc, amount a v + acc) 0 u.

(** Transactions in order: no outpoint is created twice or spent twice, and an input was created by
    an earlier transaction. *)
Record ledger (txs : list Transaction) : Prop := {
  lg_created : NoDup (created txs).*1;
  lg_spent : NoDup (spent txs);
  lg_order pre tx post : txs = pre ++ tx :: post → ∀ o, o ∈ tx_inputs tx → o ∈ (created pre).*1
}.

Lemma created_app l k : created (l ++ k) = created l ++ created k.
Proof. apply bind_app. Qed.
Lemma spent_app l k : spent (l ++ k) = spent l ++ spent k.
Proof. apply bind_app. Qed.
Lemma created_single tx : created [tx] = tx_outputs tx.
Proof. apply app_nil_r. Qed.
Lemma spent_single tx : spent [tx] = tx_inputs tx.
Proof. apply app_nil_r. Qed.

Lemma ledger_prefix l k : ledger (l ++ k) → ledger l.
Proof.
  intros [Hc Hs Ho]. rewrite created_app, fmap_app in Hc. rewrite spent_app in Hs. split.
  - by apply NoDup_app in Hc as [? _].
  - by apply NoDup_app in Hs as [? _].
  - intros pre tx post ->. apply (Ho pre tx (post ++ k)). by rewrite <-app_assoc.
Qed.

(** What is spent was created before. *)
Lemma ledger_spent_created txs o : ledger txs → o ∈ spent txs → o ∈ (created txs).*1.
Proof.
  intros L (tx & Ho & (pre & post & ->)%list_elem_of_split)%list_elem_of_bind.
  rewrite created_app, fmap_app, elem_of_app. left. by apply (lg_order _ L _ _ _ eq_refl).
Qed.

Lemma coins_app l k : coins (l ++ k) = coins l ∪ coins k.
Proof. unfold coins. by rewrite created_app, list_to_map_app. Qed.
Lemma coins_None txs o : o ∉ (created txs).*1 ↔ coins txs !! o = None.
Proof. split; [apply not_elem_of_list_to_map_1|apply not_elem_of_list_to_map_2]. Qed.
Lemma coins_Some txs o v : NoDup (created txs).*1 → coins txs !! o = Some v ↔ (o, v) ∈ created txs.
Proof. intros. symmetry. by apply elem_of_list_to_map. Qed.

(** The last transaction creates new outputs and spends old ones. *)
Lemma ledger_snoc txs tx :
  ledger (txs ++ [tx]) →
  ledger txs ∧ NoDup (tx_inputs tx) ∧ NoDup (tx_outputs tx).*1
  ∧ (∀ o, o ∈ tx_inputs tx → o ∈ (created txs).*1 ∧ o ∉ spent txs)
  ∧ (∀ o, o ∈ (tx_outputs tx).*1 → o ∉ (created txs).*1).
Proof.
  intros L. pose proof (ledger_prefix _ _ L) as L0. destruct L as [Hc Hs Ho].
  rewrite created_app, created_single, fmap_app in Hc. rewrite spent_app, spent_single in Hs.
  apply NoDup_app in Hc as (_ & Hc & Hco). apply NoDup_app in Hs as (_ & Hs & Hso).
  split_and!; [done..| |].
  - intros o Hi. split; [by apply (Ho txs tx [])|]. intros Hx. by apply (Hs _ Hx).
  - intros o Hi Hx. by apply (Hc _ Hx).
Qed.

(** The unspent outputs are the created ones that no input spends. *)
Lemma unspent_lookup txs o :
  ledger txs → unspent txs !! o = if decide (o ∈ spent txs) then None else coins txs !! o.
Proof.
  induction txs as [|tx txs IH] using rev_ind; intros L.
  { unfold unspent. cbn -[lookup decide]. rewrite lookup_empty. by destruct (decide _). }
  apply ledger_snoc in L as (L & Hi & Hc & Hin & Hout). specialize (IH L).
  unfold unspent. rewrite foldl_app. change (foldl apply_tx ∅ txs) with (unspent txs). cbn.
  unfold apply_tx. rewrite put_all_lookup by done. rewrite !coins_app, !lookup_union.
  unfold coins at 2. rewrite created_single.
  assert (o ∈ spent (txs ++ [tx]) ↔ o ∈ spent txs ∨ o ∈ tx_inputs tx) as Hsp
    by (by rewrite spent_app, spent_single, elem_of_app).
  destruct (decide (o ∈ (tx_outputs tx).*1)) as [Ho|Ho].
  - specialize (Hout _ Ho). rewrite (proj1 (coins_None txs o) Hout), (left_id_L None (∪)).
    rewrite decide_False. 2: { rewrite Hsp. intros [H1|H1].
      - by apply Hout, ledger_spent_created.
      - by apply Hin in H1 as [? _]. }
    destruct (list_to_map (tx_outputs tx) !! o) as [v|] eqn:E; [by destruct (delete_all _ _ !! o)|].
    by apply not_elem_of_list_to_map_2 in E.
  - pose proof (not_elem_of_list_to_map_1 (M := gmap OutPoint) _ _ Ho) as En.
    rewrite En, (left_id_L None (∪)), (right_id_L None (∪)), delete_all_lookup.
    destruct (decide (o ∈ tx_inputs tx)) as [Hx|Hx].
    + by rewrite decide_True by tauto.
    + rewrite IH. destruct (decide (o ∈ spent txs)) as [Hy|Hy]; [by rewrite decide_True by tauto|].
      rewrite decide_False; [done|tauto].
Qed.

(** *** Balances are what was received less what was paid *)

Definition received (a : USDBScriptHash) (txs : list Transaction) : Z :=
  total (amount a <$> (created txs).*2).
Definition paid (a : USDBScriptHash) (c : gmap OutPoint UTXOValue) (txs : list Transaction) : Z :=
  total ((λ o, from_option (amount a) 0 (c !! o)) <$> spent txs).

Lemma balance_insert a o v u :
  u !! o = None → balance_of a (<[o := v]> u) = amount a v + balance_of a u.
Proof. intros E. unfold balance_of. apply (map_fold_insert_L (λ _ v acc, amount a v + acc)); [|done]. intros; lia. Qed.
Lemma balance_delete a o v u :
  u !! o = Some v → balance_of a (delete o u) = balance_of a u - amount a v.
Proof.
  intros E. rewrite <-(insert_delete_id u o v E) at 2. rewrite balance_insert by apply lookup_delete_eq. lia.
Qed.
Lemma balance_put_all a l : ∀ u,
  NoDup l.*1 → (∀ o, o ∈ l.*1 → u !! o = None) →
  balance_of a (put_all l u) = balance_of a u + total (amount a <$> l.*2).
Proof.
  induction l as [|[o v] l IH]; intros u Hnd Hf; [cbn; unfold total; cbn; lia|].
  apply NoDup_cons in Hnd as [Ho Hnd]. change (put_all ((o, v) :: l) u) with (put_all l (<[o := v]> u)).
  cbn [fmap list_fmap fst snd] in *. rewrite total_cons, IH; [|done|].
  - rewrite balance_insert by (apply Hf; by left). lia.
  - intros x Hx. rewrite lookup_insert_ne; [apply Hf; by right|]. intros ->. done.
Qed.
Lemma balance_delete_all a ks : ∀ u,
  NoDup ks → (∀ o, o ∈ ks → is_Some (u !! o)) →
  balance_of a (delete_all ks u)
  = balance_of a u - total ((λ o, from_option (amount a) 0 (u !! o)) <$> ks).
Proof.
  induction ks as [|o ks IH]; intros u Hnd Hs; [cbn; unfold total; cbn; lia|].
  apply NoDup_cons in Hnd as [Ho Hnd]. change (delete_all (o :: ks) u) with (delete_all ks (delete o u)).
  cbn [fmap list_fmap]. rewrite total_cons. destruct (Hs o ltac:(by left)) as [v Ev]. rewrite Ev. cbn.
  rewrite IH; [|done|].
  - rewrite (balance_delete a o v) by done.
    assert ((λ x, from_option (amount a) 0 (delete o u !! x)) <$> ks
            = (λ x, from_option (amount a) 0 (u !! x)) <$> ks) as ->; [|lia].
    apply list_fmap_ext. intros i x Hx%list_elem_of_lookup_2. rewrite lookup_delete_ne; [done|]. by intros ->.
  - intros x Hx. rewrite lookup_delete_ne; [apply Hs; by right|]. by intros ->.
Qed.

Lemma paid_app a c l k : paid a c (l ++ k) = paid a c l + paid a c k.
Proof. unfold paid. by rewrite spent_app, fmap_app, total_app. Qed.
Lemma received_app a l k : received a (l ++ k) = received a l + received a k.
Proof. unfold received. by rewrite created_app, !fmap_app, total_app. Qed.
(** Later transactions do not change the outputs that a prefix spent. *)
Lemma paid_coins a l k : ledger (l ++ k) → paid a (coins (l ++ k)) l = paid a (coins l) l.
Proof.
  intros L. unfold paid. f_equal. apply list_fmap_ext. intros i o Ho%list_elem_of_lookup_2.
  apply ledger_spent_created in Ho; [|by eapply ledger_prefix].
  rewrite coins_app, lookup_union. destruct (coins l !! o) as [v|] eqn:E.
  - by destruct (coins k !! o).
  - by apply coins_None in E.
Qed.

Lemma unspent_balance a txs :
  ledger txs → balance_of a (unspent txs) = received a txs - paid a (coins txs) txs.
Proof.
  induction txs as [|tx txs IH] using rev_ind; intros L; [done|].
  pose proof L as L1. apply ledger_snoc in L as (L & Hi & Hc & Hin & Hout). specialize (IH L).
  rewrite received_app, paid_app, (paid_coins a txs [tx] L1).
  unfold unspent. rewrite foldl_app. change (foldl apply_tx ∅ txs) with (unspent txs). cbn.
  assert (∀ o, o ∈ tx_inputs tx → unspent txs !! o = coins (txs ++ [tx]) !! o ∧ is_Some (unspent txs !! o)) as Hu.
  { intros o Ho. destruct (Hin _ Ho) as [H1 H2]. rewrite unspent_lookup, decide_False by done.
    rewrite coins_app, lookup_union. destruct (coins txs !! o) as [v|] eqn:E; [by destruct (coins [tx] !! o)|].
    by apply coins_None in E. }
  unfold apply_tx. rewrite balance_put_all, balance_delete_all, IH; [|done| |done|].
  - assert (received a [tx] = total (amount a <$> (tx_outputs tx).*2)) as -> by (unfold received; by rewrite created_single).
    unfold paid at 3. rewrite spent_single.
    assert ((λ o, from_option (amount a) 0 (unspent txs !! o)) <$> tx_inputs tx
            = (λ o, from_option (amount a) 0 (coins (txs ++ [tx]) !! o)) <$> tx_inputs tx) as ->; [|lia].
    apply list_fmap_ext. intros i o Ho%list_elem_of_lookup_2. by destruct (Hu _ Ho) as [-> _].
  - intros o Ho. by apply Hu.
  - intros o Ho. rewrite delete_all_lookup. destruct (decide _); [done|].
    rewrite unspent_lookup by done. destruct (decide _); [done|]. by apply coins_None, Hout.
Qed.

(** What a block changes. *)
Lemma balance_change a l k :
  ledger (l ++ k) →
  balance_of a (unspent (l ++ k)) - balance_of a (unspent l) = received a k - paid a (coins (l ++ k)) k.
Proof.
  intros L. rewrite !unspent_balance by (done || by eapply ledger_prefix).
  rewrite received_app, paid_app, paid_coins by done. lia.
Qed.
End Ledger.

(** ** The chain by height *)

Section Chain.
Context `{BitcoinCrate} (chain : u32 → BtcBlock).

Definition block_txs (k : u32) : list Transaction := block_txdata (chain k).
(** The transactions of the blocks 1 to [n]; the block at height 0 is not indexed. *)
Definition txs_to (n : u32) : list Transaction := heights 1 n ≫= block_txs.
Definition utxos (n : u32) : gmap OutPoint UTXOValue := unspent (txs_to n).
Definition balance_at (a : USDBScriptHash) (n : u32) : Z := balance_of a (utxos n).

Record valid_chain (n : u32) : Prop := {
  vc_height : 0 <= n < U32_MAX;
  vc_ledger : ledger (txs_to n);
  vc_values o v : (o, v) ∈ created (txs_to n) → 0 <= uv_value v <= I64_MAX;
  vc_supply a k : 0 <= k <= n → balance_at a k <= I64_MAX;
  vc_outputs tx : tx ∈ txs_to n → count (output tx) <= U32_MAX;
  (* no two scripts of the chain collide *)
  vc_scripts tx1 tx2 o1 o2 : tx1 ∈ txs_to n → tx2 ∈ txs_to n → o1 ∈ output tx1 → o2 ∈ output tx2 →
    to_usdb_script_hash (script_pubkey o1) = to_usdb_script_hash (script_pubkey o2) →
    script_pubkey o1 = script_pubkey o2;
  vc_block_size k : 1 <= k <= n →
    count (created (block_txs k)) <= U32_MAX ∧ count (spent (block_txs k)) <= U32_MAX
}.

(** *** What the database holds of block [k] *)

(** The script hashes that receive or spend. *)
Definition touched (k : u32) : gset USDBScriptHash :=
  list_to_set ((uv_script_hash <$> (created (block_txs k)).*2)
               ++ (uv_script_hash <$> omap (coins (txs_to k) !!.) (spent (block_txs k)))).
Definition chain_row (k : u32) (a : USDBScriptHash) : BalanceHistoryEntry :=
  {| be_script_hash := a; be_block_height := k; be_delta := balance_at a k - balance_at a (k - 1);
     be_balance := balance_at a k |}.
Definition chain_delta (k : u32) : BlockBalanceDelta :=
  {| dl_block_height := k; dl_block_hash := block_hash (chain k);
     dl_entries := order_by (λ e, be_bytes 32 (be_script_hash e)) false
                     (chain_row k <$> elements (touched k)) |}.
Fixpoint commit_hash (n : nat) : list Z :=
  match n with
  | O => EMPTY_COMMIT_HASH
  | S m => cm_block_commit (commit_entry (chain_delta (Z.of_nat n)) (commit_hash m))
  end.
Definition chain_commit (k : u32) : BlockCommitEntry :=
  commit_entry (chain_delta k) (commit_hash (Z.to_nat (k - 1))).

Definition undo_entry (p : OutPoint * UTXOValue) : BlockUndoUtxoEntry :=
  {| uu_outpoint := p.1; uu_script_hash := uv_script_hash p.2; uu_value := uv_value p.2 |}.
(** The outputs of earlier blocks that block [k] spends. *)
Definition spent_before (k : u32) : list OutPoint :=
  filter (λ o, o ∉ (created (block_txs k)).*1) (spent (block_txs k)).
Definition chain_undo (k : u32) : BlockUndoBundle :=
  {| ub_block_height := k; ub_btc_block_hash := block_hash (chain k);
     ub_created_utxos := undo_entry <$> created (block_txs k);
     ub_spent_utxos := omap (λ o, (λ v, undo_entry (o, v)) <$> coins (txs_to k) !! o) (spent_before k);
     ub_touched_script_hashes := order_by (be_bytes 32) false (elements (touched k)) |}.

(** The undo journal: whole bundles of blocks up to [n], and nothing else. *)
Record undo_ok (n : u32) (d : BalanceHistoryDB) : Prop := {
  uo_some k m : block_undo_meta_cf d !! k = Some m →
    1 <= k <= n ∧ m = bundle_meta (chain_undo k)
    ∧ utxos_stored k (ub_created_utxos (chain_undo k)) (block_undo_created_utxos_cf d)
    ∧ utxos_stored k (ub_spent_utxos (chain_undo k)) (block_undo_spent_utxos_cf d)
    ∧ ∀ a, is_Some (block_undo_balance_index_cf d !! (k, a)) ↔ a ∈ touched k;
  uo_none k : block_undo_meta_cf d !! k = None → ∀ i,
    block_undo_created_utxos_cf d !! (k, i) = None ∧ block_undo_spent_utxos_cf d !! (k, i) = None
    ∧ block_undo_balance_index_cf d !! (k, i) = None
}.

(** The database has indexed the blocks 1 to [n]. *)
Record indexed (n : u32) (d : BalanceHistoryDB) : Prop := {
  ix_height : default 0 (meta_cf d !! META_KEY_BTC_BLOCK_HEIGHT) = n;
  ix_utxos : utxo_cf d = utxos n;
  ix_rows a k : balance_history_cf d !! (a, k) =
    if decide (1 <= k <= n ∧ a ∈ touched k)
    then Some (be_delta (chain_row k a), be_balance (chain_row k a)) else None;
  ix_commits k : block_commits_cf d !! k = if decide (1 <= k <= n) then Some (chain_commit k) else None;
  ix_scripts tx out : tx ∈ txs_to n → out ∈ output tx → is_op_return (script_pubkey out) = false →
    script_registry_cf d !! to_usdb_script_hash (script_pubkey out) = Some (script_pubkey out);
  ix_undo : undo_ok n d
}.

(** *** A database that starts from a snapshot of height [b] *)

(** The row that a snapshot keeps of [a]: the last one up to [b], unless its balance is zero. *)
Definition seed_row (b : u32) (a : USDBScriptHash) (k : u32) : option (i64 * u64) :=
  if decide (1 <= k <= b ∧ a ∈ touched k ∧ 0 < balance_at a k ∧ Forall (λ j, a ∉ touched j) (heights (k + 1) b))
  then Some (be_delta (chain_row k a), be_balance (chain_row k a)) else None.

(** The database was seeded with the state at [b] and has indexed the blocks after it up to [n]. *)
Record seeded (b n : u32) (d : BalanceHistoryDB) : Prop := {
  sd_base : 0 <= b <= n;
  sd_height : default 0 (meta_cf d !! META_KEY_BTC_BLOCK_HEIGHT) = n;
  sd_utxos : utxo_cf d = utxos n;
  sd_rows a k : balance_history_cf d !! (a, k) =
    if decide (b < k <= n ∧ a ∈ touched k)
    then Some (be_delta (chain_row k a), be_balance (chain_row k a)) else seed_row b a k;
  sd_commits k : block_commits_cf d !! k = if decide (1 <= k <= n) then Some (chain_commit k) else None;
  sd_scripts tx out : tx ∈ txs_to n → out ∈ output tx → is_op_return (script_pubkey out) = false →
    script_registry_cf d !! to_usdb_script_hash (script_pubkey out) = Some (script_pubkey out);
  sd_undo : undo_ok n d
}.

Lemma seed_row_0 a k : seed_row 0 a k = None.
Proof. unfold seed_row. rewrite decide_False; [done|]. intros [? _]. lia. Qed.
(** Indexing from the first block is the seed of height 0. *)
Lemma seeded_0 n d : 0 <= n → seeded 0 n d ↔ indexed n d.
Proof.
  intros Hn. split.
  - intros [_ H1 H2 H3 H4 H5 H6]. split; [done|done| |done|done|done]. intros a k. rewrite H3, seed_row_0.
    apply decide_ext. split; intros [? ?]; (split; [lia|done]).
  - intros [H1 H2 H3 H4 H5 H6]. split; [lia|done|done| |done|done|done]. intros a k. rewrite H3, seed_row_0.
    apply decide_ext. split; intros [? ?]; (split; [lia|done]).
Qed.

(** Caches hold nothing but what is true at height [n]. *)
Definition caches_ok (n : u32) (c : Caches) : Prop :=
  (∀ o v, utxo_cache c !! o = Some v → utxos n !! o = Some v)
  ∧ ∀ a e, balance_cache c !! a = Some e →
      bd_balance e = balance_at a n ∧ 0 <= bd_block_height e <= n.

(** *** First facts *)

Lemma txs_to_split m n : 0 <= m <= n → txs_to n = txs_to m ++ (heights (m + 1) n ≫= block_txs).
Proof. intros Hm. unfold txs_to. rewrite (heights_app 1 m n) by lia. apply bind_app. Qed.
Lemma txs_to_last n : 1 <= n → txs_to n = txs_to (n - 1) ++ block_txs n.
Proof.
  intros Hn. rewrite (txs_to_split (n - 1) n) by lia. f_equal. replace (n - 1 + 1) with n by lia.
  rewrite heights_cons, heights_nil by lia. cbn. apply app_nil_r.
Qed.
Lemma txs_to_0 n : n <= 0 → txs_to n = [].
Proof. intros. unfold txs_to. by rewrite heights_nil by lia. Qed.

Lemma valid_chain_le m n : valid_chain n → 0 <= m <= n → valid_chain m.
Proof.
  intros V Hm. pose proof (txs_to_split m n Hm) as E. split.
  - pose proof (vc_height _ V). lia.
  - apply (ledger_prefix _ (heights (m + 1) n ≫= block_txs)). rewrite <-E. apply V.
  - intros o v Hv. apply (vc_values _ V o). rewrite E, created_app. apply elem_of_app. by left.
  - intros a k Hk. apply (vc_supply _ V). lia.
  - intros tx Htx. apply (vc_outputs _ V). rewrite E. apply elem_of_app. by left.
  - intros tx1 tx2 o1 o2 H1 H2. apply (vc_scripts _ V); rewrite E; apply elem_of_app; by left.
  - intros k Hk. apply (vc_block_size _ V). lia.
Qed.

Lemma to_usdb_script_hash_range {Laws : BitcoinCrateLaws} script : u256 (to_usdb_script_hash script).
Proof.
  unfold to_usdb_script_hash, u256, of_be_bytes. set (l := rev (sha256 script)).
  assert (Forall byte l) as Hb by (apply Forall_rev, sha256_bytes).
  assert (length l = 32%nat) as Hl by (unfold l; rewrite length_rev; apply sha256_length).
  change 32 with (Z.of_nat 32). rewrite <-Hl. clear Hl. clearbody l.
  induction l as [|b l IH] using rev_ind; [cbn; lia|].
  apply Forall_app in Hb as [Hb Hx]. apply Forall_cons in Hx as [Hx _]. specialize (IH Hb).
  rewrite foldl_app, length_app, Nat.add_1_r, Nat2Z.inj_succ, Z.pow_succ_r by lia. cbn. unfold byte in Hx. lia.
Qed.

Lemma tx_outputs_hash {Laws : BitcoinCrateLaws} tx o v : (o, v) ∈ tx_outputs tx → u256 (uv_script_hash v).
Proof.
  unfold tx_outputs. intros ([x|] & Hx & [= ->])%list_elem_of_omap.
  apply elem_of_lookup_imap in Hx as (i & out & E & _). destruct (is_op_return _); [done|].
  injection E as -> ->. apply to_usdb_script_hash_range.
Qed.
Lemma created_hash {Laws : BitcoinCrateLaws} txs o v : (o, v) ∈ created txs → u256 (uv_script_hash v).
Proof. intros (tx & Hv & _)%list_elem_of_bind. by eapply tx_outputs_hash. Qed.
Lemma coins_created txs o v : coins txs !! o = Some v → (o, v) ∈ created txs.
Proof. apply elem_of_list_to_map_2. Qed.
Lemma elem_of_touched a k :
  a ∈ touched k ↔ (∃ o v, (o, v) ∈ created (block_txs k) ∧ uv_script_hash v = a)
                ∨ (∃ o v, o ∈ spent (block_txs k) ∧ coins (txs_to k) !! o = Some v ∧ uv_script_hash v = a).
Proof.
  unfold touched. rewrite elem_of_list_to_set, elem_of_app, !list_elem_of_fmap. split.
  - intros [(v & -> & ([o v'] & -> & Hv)%list_elem_of_fmap)|(v & -> & (o & Ho & Hv)%list_elem_of_omap)];
      [left|right]; eauto.
  - intros [(o & v & Hv & <-)|(o & v & Ho & Hv & <-)]; [left|right].
    + exists v. split; [done|]. apply list_elem_of_fmap. by exists (o, v).
    + exists v. split; [done|]. apply list_elem_of_omap. by exists o.
Qed.
Lemma touched_range {Laws : BitcoinCrateLaws} a k : a ∈ touched k → u256 a.
Proof.
  intros [(o & v & Hv & <-)|(o & v & _ & Hv%coins_created & <-)]%elem_of_touched; by eapply created_hash.
Qed.

Section Valid.
Context {Laws : BitcoinCrateLaws} (n : u32) (V : valid_chain n).

Lemma utxos_lookup k o : 0 <= k <= n →
  utxos k !! o = if decide (o ∈ spent (txs_to k)) then None else coins (txs_to k) !! o.
Proof. intros Hk. apply unspent_lookup, (vc_ledger k). by apply (valid_chain_le k n). Qed.

(** An output keeps its value. *)
Lemma coins_stable k o : 0 <= k <= n → o ∈ (created (txs_to k)).*1 →
  coins (txs_to n) !! o = coins (txs_to k) !! o.
Proof.
  intros Hk Ho. rewrite (txs_to_split k n Hk), coins_app, lookup_union.
  destruct (coins (txs_to k) !! o) as [v|] eqn:E; [by destruct (coins (heights _ _ ≫= _) !! o)|]. by apply coins_None in E.
Qed.
Lemma spent_is_created k o : 0 <= k <= n → o ∈ spent (txs_to k) → o ∈ (created (txs_to k)).*1.
Proof. intros Hk. apply ledger_spent_created, (vc_ledger k), (valid_chain_le k n); [done|lia]. Qed.
(** An input of block [k] is created up to block [k]. *)
Lemma input_is_created k o : 1 <= k <= n → o ∈ spent (block_txs k) → o ∈ (created (txs_to k)).*1.
Proof.
  intros Hk Ho. apply spent_is_created; [lia|]. rewrite txs_to_last, spent_app by lia.
  apply elem_of_app. by right.
Qed.
Lemma input_coin k o : 1 <= k <= n → o ∈ spent (block_txs k) →
  ∃ v, coins (txs_to k) !! o = Some v ∧ coins (txs_to n) !! o = Some v
       ∧ 0 <= uv_value v <= I64_MAX ∧ u256 (uv_script_hash v).
Proof.
  intros Hk Ho. pose proof (input_is_created k o Hk Ho) as Hc.
  destruct (coins (txs_to k) !! o) as [v|] eqn:E; [|by apply coins_None in E].
  exists v. split; [done|]. rewrite (coins_stable k) by (done || lia). split; [done|].
  apply coins_created in E. split; [|by eapply created_hash].
  apply (vc_values _ (valid_chain_le k n V ltac:(lia)) o v E).
Qed.

Lemma balance_step a k : 1 <= k <= n →
  balance_at a k - balance_at a (k - 1)
  = received a (block_txs k) - paid a (coins (txs_to k)) (block_txs k).
Proof.
  intros Hk. unfold balance_at, utxos. pose proof (vc_ledger _ (valid_chain_le k n V ltac:(lia))) as L.
  rewrite txs_to_last in L |- * by lia. by apply balance_change.
Qed.
Lemma balance_untouched a k : 1 <= k <= n → a ∉ touched k → balance_at a k = balance_at a (k - 1).
Proof.
  intros Hk Ha. pose proof (balance_step a k Hk) as E.
  assert (∀ l, Forall (λ x, x = 0) l → total l = 0) as Hz by (induction 1; unfold total in *; cbn in *; lia).
  assert (received a (block_txs k) = 0) as E1.
  { apply Hz, Forall_fmap, Forall_fmap, Forall_forall. intros [o v] Hv. cbn. unfold amount.
    destruct (_ =? a) eqn:Ea; [|done]. b2p. exfalso. apply Ha, elem_of_touched. left. eauto. }
  assert (paid a (coins (txs_to k)) (block_txs k) = 0) as E2; [|lia].
  apply Hz, Forall_fmap, Forall_forall. intros o Ho. cbn.
  destruct (coins (txs_to k) !! o) as [v|] eqn:Ev; [|done]. cbn. unfold amount.
  destruct (_ =? a) eqn:Ea; [|done]. b2p. exfalso. apply Ha, elem_of_touched. right. eauto.
Qed.
Lemma balance_constant a k h : 0 <= k <= h → h <= n → (∀ j, k < j <= h → a ∉ touched j) →
  balance_at a h = balance_at a k.
Proof.
  intros [H0 Hkh]. revert h Hkh.
  apply (Zlt_lower_bound_ind (λ h, h <= n → (∀ j, k < j <= h → a ∉ touched j) → balance_at a h = balance_at a k) k).
  intros h IH Hk' Hh Ht. destruct (decide (h = k)) as [->|]; [done|].
  rewrite balance_untouched by (lia || (apply Ht; lia)). apply IH; [lia|lia|]. intros; apply Ht; lia.
Qed.

Lemma balance_range a k : 0 <= k <= n → 0 <= balance_at a k <= I64_MAX.
Proof.
  intros Hk. split; [|by apply (vc_supply _ V)]. unfold balance_at, balance_of.
  assert (∀ o v, utxos k !! o = Some v → 0 <= uv_value v) as Hv.
  { intros o v. rewrite utxos_lookup by done. destruct (decide _); [done|]. intros E%coins_created.
    apply (vc_values _ (valid_chain_le k n V Hk) o v E). }
  revert Hv. generalize (utxos k). clear. intros u. induction u as [|o v u E IH] using map_ind; intros Hv.
  - by rewrite map_fold_empty.
  - change (0 <= balance_of a (<[o := v]> u)). rewrite balance_insert by done.
    assert (0 <= balance_of a u).
    { apply IH. intros x w Hx. apply (Hv x). rewrite lookup_insert_ne; [done|]. intros ->. congruence. }
    specialize (Hv o v (lookup_insert_eq _ _ _)). unfold amount. destruct (_ =? _); lia.
Qed.

(** *** Reading an indexed database *)

Section Indexed.
Context (d : BalanceHistoryDB) (I : indexed n d).

Lemma indexed_rows_wf : wf_balance_cf (balance_history_cf d).
Proof.
  intros [a k] v. rewrite (ix_rows _ _ I). destruct (decide _) as [[Hk Ha]|]; [|done].
  intros _. split; cbn; [by eapply touched_range|]. pose proof (vc_height _ V). lia.
Qed.

(** The row found at a height carries the balance of that height. *)
Lemma indexed_latest a h : u256 a → 0 <= h <= n →
  bd_balance (latest_at a h d) = balance_at a h
  ∧ 0 <= bd_block_height (latest_at a h d) <= h
  ∧ (∀ j, bd_block_height (latest_at a h d) < j <= h → a ∉ touched j)
  ∧ (0 < bd_block_height (latest_at a h d) → a ∈ touched (bd_block_height (latest_at a h d))
     ∧ bd_delta (latest_at a h d) = be_delta (chain_row (bd_block_height (latest_at a h d)) a)).
Proof.
  intros Ha Hh. pose proof (vc_height _ V) as Hn.
  destruct (latest_at_cases a h d indexed_rows_wf ltac:(split; cbn; [done|lia])) as [(k & v & Hk & Hle & Hmax & ->)|[Hnone ->]].
  - rewrite (ix_rows _ _ I) in Hk. destruct (decide _) as [[Hr Ht]|]; [|done]. injection Hk as <-. cbn.
    assert (∀ j, k < j <= h → a ∉ touched j) as Hu.
    { intros j Hj Hx. specialize (Hmax j). rewrite (ix_rows _ _ I) in Hmax.
      rewrite decide_True in Hmax by (split; [lia|done]). specialize (Hmax _ eq_refl). lia. }
    split_and!; [|lia|lia|done|done].
    symmetry. apply balance_constant; [lia|lia|done].
  - cbn. assert (∀ j, 0 < j <= h → a ∉ touched j) as Hu.
    { intros j Hj Hx. specialize (Hnone j). rewrite (ix_rows _ _ I) in Hnone.
      rewrite decide_True in Hnone by (split; [lia|done]). specialize (Hnone _ eq_refl). lia. }
    split_and!; [|lia|lia|done|lia].
    rewrite (balance_constant a 0 h); [|lia|lia|done]. unfold balance_at, utxos.
    by rewrite txs_to_0 by lia.
Qed.
End Indexed.

(** From the height of the seed on, the rows found carry the balances of the chain. *)
Section Seeded.
Context (b : u32) (d : BalanceHistoryDB) (I : seeded b n d).

Lemma seed_row_Some a k v : seed_row b a k = Some v →
  1 <= k <= b ∧ a ∈ touched k ∧ 0 < balance_at a k ∧ (∀ j, k < j <= b → a ∉ touched j)
  ∧ v = (be_delta (chain_row k a), be_balance (chain_row k a)).
Proof.
  unfold seed_row. destruct (decide _) as [(Hk & Ha & Hp & Hj)|]; [|done]. intros [= <-]. split_and!; try done; try lia.
  intros j Hj'. rewrite Forall_forall in Hj. apply Hj, elem_of_heights. lia.
Qed.
Lemma seeded_row a k v : balance_history_cf d !! (a, k) = Some v →
  1 <= k <= n ∧ a ∈ touched k ∧ v = (be_delta (chain_row k a), be_balance (chain_row k a))
  ∧ (k <= b → ∀ j, k < j <= b → a ∉ touched j).
Proof.
  pose proof (sd_base _ _ _ I) as Hb. rewrite (sd_rows _ _ _ I). destruct (decide _) as [[Hk Ha]|].
  - intros [= <-]. split_and!; try done; lia.
  - intros (Hk & Ha & _ & Hj & ->)%seed_row_Some. split_and!; try done; lia.
Qed.
Lemma seeded_rows_wf : wf_balance_cf (balance_history_cf d).
Proof.
  intros [a k] v (Hk & Ha & _)%seeded_row. pose proof (vc_height _ V). split; cbn; [by eapply touched_range|lia].
Qed.

(** The last block up to [h] that touches a script hash. *)
Lemma last_touch a h : 0 <= h → ∃ k, 0 <= k <= h ∧ (∀ j, k < j <= h → a ∉ touched j) ∧ (0 < k → a ∈ touched k).
Proof.
  revert h. apply (Zlt_lower_bound_ind (λ h, ∃ k, 0 <= k <= h ∧ (∀ j, k < j <= h → a ∉ touched j) ∧ (0 < k → a ∈ touched k)) 0).
  intros h IH H0. destruct (decide (h = 0)) as [->|Hh]; [exists 0; split_and!; [lia|lia|intros; lia|lia]|].
  destruct (decide (a ∈ touched h)) as [Ha|Ha]; [exists h; split_and!; [lia|lia|intros; lia|done]|].
  destruct (IH (h - 1)) as (k & Hk & Hj & Ht); [lia|]. exists k. split_and!; [lia|lia| |done].
  intros j Hj'. destruct (decide (j = h)) as [->|]; [done|]. apply Hj. lia.
Qed.
Lemma balance_untouched_zero a h : 0 <= h <= n → (∀ j, 0 < j <= h → a ∉ touched j) → balance_at a h = 0.
Proof.
  intros Hh Hu. rewrite (balance_constant a 0 h); [|lia|lia|done]. unfold balance_at, utxos. by rewrite txs_to_0 by lia.
Qed.
Lemma seeded_latest a h : u256 a → b <= h <= n →
  bd_balance (latest_at a h d) = balance_at a h ∧ 0 <= bd_block_height (latest_at a h d) <= h.
Proof.
  intros Ha Hh. pose proof (vc_height _ V) as Hn. pose proof (sd_base _ _ _ I) as Hb.
  destruct (last_touch a h) as (k & Hk & Hj & Ht); [lia|].
  assert (balance_at a h = balance_at a k) as Hbal by (apply balance_constant; [lia|lia|done]).
  assert (0 < k → balance_history_cf d !! (a, k) = None → balance_at a k = 0) as Hnone.
  { intros Hk0. specialize (Ht Hk0). rewrite (sd_rows _ _ _ I). unfold seed_row.
    destruct (decide (b < k <= n ∧ _)) as [|Hx]; [done|]. destruct (decide (1 <= k <= b ∧ _)) as [|Hy]; [done|]. intros _.
    pose proof (balance_range a k ltac:(lia)). destruct (decide (balance_at a k = 0)); [done|]. destruct Hy.
    assert (k <= b) by (destruct (decide (k <= b)); [done|]; destruct Hx; split; [lia|done]).
    split_and!; [lia|lia|done|lia|]. apply Forall_forall. intros j Hj'%elem_of_heights. apply Hj. lia. }
  destruct (latest_at_cases a h d seeded_rows_wf ltac:(split; cbn; [done|lia])) as [(j & v & Hv & Hle & Hmax & ->)|[Hno ->]]; cbn.
  - pose proof (seeded_row _ _ _ Hv) as (Hj1 & Hta & -> & Hlast). split; [|lia]. cbn.
    assert (j <= k) by (destruct (decide (j <= k)); [done|]; exfalso; apply (Hj j); [lia|done]).
    destruct (decide (j = k)) as [->|Hjk]; [by rewrite Hbal|].
    destruct (balance_history_cf d !! (a, k)) as [w|] eqn:Ek.
    + specialize (Hmax k _ Ek). lia.
    + assert (balance_at a k = 0) as Hz by (apply Hnone; [lia|done]). exfalso.
      rewrite (sd_rows _ _ _ I) in Ek. destruct (decide (b < k <= n ∧ a ∈ touched k)) as [|Hx]; [done|].
      assert (k <= b) by (destruct (decide (k <= b)); [done|]; destruct Hx; split; [lia|apply Ht; lia]).
      apply (Hlast ltac:(lia) k); [lia|apply Ht; lia].
  - split; [|lia]. destruct (decide (0 < k)) as [Hk0|].
    + rewrite Hbal, Hnone; [done|lia|]. destruct (balance_history_cf d !! (a, k)) as [w|] eqn:Ek; [|done].
      exfalso. specialize (Hno k _ Ek). lia.
    + symmetry. apply balance_untouched_zero; [lia|]. intros j Hj'. apply Hj. lia.
Qed.
End Seeded.
End Valid.
End Chain.
