(* ===== verification/BalanceDemo.v ===== *)
(** * Concrete chains

    An executable check of a chain, sound for [valid_chain], and two small chains with a fork, for the
    witnesses of the balance-history theorems. *)

From S2P Require Import Prelude Encoding Types Tx BalanceCodec BalanceDb BalanceDbFacts BalanceBlock.
From S2P Require Import BalanceChain.

Section Check.
Context {BC : BitcoinCrate} (chain : u32 → BtcBlock).

Fixpoint ordered (seen : list OutPoint) (txs : list Transaction) : bool :=
  match txs with
  | [] => true
  | tx :: txs => forallb (λ o, bool_decide (o ∈ seen)) (tx_inputs tx) && ordered (seen ++ (tx_outputs tx).*1) txs
  end.
Definition supply (u : gmap OutPoint UTXOValue) : Z := map_fold (λ _ v acc, uv_value v + acc) 0 u.
Definition scripts_ok (l : list TxOut) : bool :=
  forallb (λ o1, forallb (λ o2, negb (to_usdb_script_hash (script_pubkey o1) =? to_usdb_script_hash (script_pubkey o2))
                                || bool_decide (script_pubkey o1 = script_pubkey o2)) l) l.
Definition check_chain (n : u32) : bool :=
  let txs := txs_to chain n in
  (0 <=? n) && (n <? U32_MAX)
  && bool_decide (NoDup (created txs).*1) && bool_decide (NoDup (spent txs)) && ordered [] txs
  && forallb (λ p, (0 <=? uv_value p.2) && (uv_value p.2 <=? I64_MAX)) (created txs)
  && forallb (λ k, supply (utxos chain k) <=? I64_MAX) (heights 0 n)
  && forallb (λ tx, count (output tx) <=? U32_MAX) txs
  && scripts_ok (txs ≫= output)
  && forallb (λ k, (count (created (block_txs chain k)) <=? U32_MAX)
                   && (count (spent (block_txs chain k)) <=? U32_MAX)) (heights 1 n).

Lemma ordered_sound txs : ∀ seen,
  ordered seen txs = true →
  ∀ pre tx post, txs = pre ++ tx :: post → ∀ o, o ∈ tx_inputs tx → o ∈ seen ++ (created pre).*1.
Proof.
  induction txs as [|tx0 txs IH]; intros seen E pre tx post Ep o Ho; [by destruct pre|].
  cbn in E. apply andb_prop in E as [E1 E2]. destruct pre as [|tx1 pre].
  - injection Ep as -> _. unfold created. cbn. rewrite app_nil_r. rewrite forallb_forall in E1.
    by apply list_elem_of_In, E1, bool_decide_eq_true in Ho.
  - injection Ep as -> ->. change (created (tx1 :: pre)) with (tx_outputs tx1 ++ created pre).
    rewrite fmap_app, app_assoc. by apply (IH _ E2 pre tx post).
Qed.
Lemma forallb_elem {A} (p : A → bool) l x : forallb p l = true → x ∈ l → p x = true.
Proof. intros E Hx. rewrite forallb_forall in E. by apply E, list_elem_of_In. Qed.
Lemma balance_le_supply a u :
  (∀ o v, u !! o = Some v → 0 <= uv_value v) → balance_of a u <= supply u.
Proof.
  unfold supply. induction u as [|o v u E IH] using map_ind; intros Hv; [done|].
  rewrite balance_insert by done. rewrite (map_fold_insert_L (λ _ v acc, uv_value v + acc)) by (done || (intros; lia)).
  assert (balance_of a u <= map_fold (λ _ v acc, uv_value v + acc) 0 u).
  { apply IH. intros x w Hx. apply (Hv x). rewrite lookup_insert_ne; [done|]. intros ->. congruence. }
  specialize (Hv o v (lookup_insert_eq _ _ _)). unfold amount. destruct (_ =? _); lia.
Qed.

Lemma check_chain_sound n : check_chain n = true → valid_chain chain n.
Proof.
  unfold check_chain. intros E. do 9 apply andb_prop in E as [E ?Hx].
  rename Hx into Hsz, Hx0 into Hsc, Hx1 into Hout, Hx2 into Hsup, Hx3 into Hval0, Hx4 into Hord, Hx5 into Hsp,
    Hx6 into Hcr, Hx7 into Hmax. b2p.
  assert (ledger (txs_to chain n)) as L.
  { split; [done|done|]. intros pre tx post Ep o Ho.
    rewrite <-(app_nil_l (created pre).*1). by eapply ordered_sound. }
  assert (∀ o v, (o, v) ∈ created (txs_to chain n) → 0 <= uv_value v <= I64_MAX) as Hval.
  { intros o v Hv. apply (forallb_elem _ _ _ Hval0) in Hv. cbn in Hv. b2p. lia. }
  split; [lia|done|done|..].
  - intros a k Hk. etrans; [apply balance_le_supply|].
    + intros o v. assert (ledger (txs_to chain k)) as Lk.
      { rewrite (txs_to_split chain k n) in L by lia. by apply ledger_prefix in L. }
      unfold utxos. rewrite unspent_lookup by done. destruct (decide _); [done|]. intros Ev%coins_created.
      apply (Hval o). rewrite (txs_to_split chain k n), created_app by lia. apply elem_of_app. by left.
    + assert (k ∈ heights 0 n) as Hkn by by apply elem_of_heights. apply (forallb_elem _ _ _ Hsup) in Hkn. by apply Z.leb_le.
  - intros tx Htx. apply (forallb_elem _ _ _ Hout) in Htx. by apply Z.leb_le.
  - intros tx1 tx2 o1 o2 Ht1 Ht2 Ho1 Ho2 Eh. unfold scripts_ok in Hsc.
    apply (forallb_elem _ _ o1) in Hsc; [|apply list_elem_of_bind; by exists tx1].
    apply (forallb_elem _ _ o2) in Hsc; [|apply list_elem_of_bind; by exists tx2].
    rewrite Eh, Z.eqb_refl in Hsc. cbn in Hsc. by apply bool_decide_eq_true in Hsc.
  - intros k Hk. assert (k ∈ heights 1 n) as Hkn by by apply elem_of_heights.
    apply (forallb_elem _ _ _ Hsz) in Hkn. b2p. by split.
Qed.

(** An empty database has indexed no block. *)
Lemma indexed_empty : indexed chain 0 empty_balance_db.
Proof.
  split; [done|..]; cbn.
  - unfold utxos. by rewrite txs_to_0.
  - intros a k. rewrite lookup_empty. by rewrite decide_False by lia.
  - intros k. rewrite lookup_empty. by rewrite decide_False by lia.
  - intros tx out. rewrite txs_to_0 by done. by intros ?%elem_of_nil.
  - split; cbn.
    + intros k m. by rewrite lookup_empty.
    + intros k _ i. by rewrite !lookup_empty.
Qed.
Lemma no_caches_ok n : caches_ok chain n no_caches.
Proof. split; intros ? ?; cbn; by rewrite lookup_empty. Qed.
End Check.

(** ** A fork *)

#[local] Instance demo_crate : BitcoinCrate := {|
  is_coinbase tx := bool_decide (input tx = []);
  is_op_return s := match s with 106 :: _ => true | _ => false end;
  sha256 l := take 32 (((λ b, b mod 256) <$> l) ++ repeat 0 32)
|}.
Lemma demo_crate_laws : BitcoinCrateLaws.
Proof.
  split; intros l; cbn.
  - rewrite length_take, length_app. cbn [length]. lia.
  - apply Forall_take, Forall_app. split; [|by repeat constructor].
    apply Forall_fmap, Forall_true. intros b. cbn. unfold byte. pose proof (Z.mod_pos_bound b 256). lia.
Qed.
#[local] Instance demo_lru : LruCrate := {| evict_utxos m := m; evict_balances _ := ∅ |}.
Lemma demo_lru_laws : LruCrateLaws.
Proof. split; [done|]. intros m. apply map_empty_subseteq. Qed.

Definition pay (id : Txid) (inputs : list OutPoint) (outs : list (u64 * list Z)) : Transaction :=
  {| compute_txid := id; input := inputs;
     output := (λ o, {| value := o.1; script_pubkey := o.2 |}) <$> outs; envelopes := [] |}.
Definition demo_block (hash : Z) (txs : list Transaction) : BtcBlock := {| block_hash := hash; block_txdata := txs |}.
Definition first_out (id : Txid) : OutPoint := {| op_txid := id; vout := 0 |}.

Definition demo_first : BtcBlock := demo_block 101 [pay 11 [] [(50, [1])]].
(** Two blocks, the second spends an output of the first and one of its own. *)
Definition demo_chain (k : u32) : BtcBlock :=
  if k =? 1 then demo_first
  else if k =? 2 then demo_block 102 [pay 12 [] [(50, [2])]; pay 13 [first_out 11] [(30, [2]); (20, [1])];
                                      pay 14 [first_out 13] [(30, [3])]]
  else demo_block (300 + k) [].
(** The chain that replaces its second block. *)
Definition demo_fork (k : u32) : BtcBlock :=
  if k =? 1 then demo_first
  else if k =? 2 then demo_block 202 [pay 22 [] [(50, [3])]]
  else if k =? 3 then demo_block 203 [pay 23 [] [(50, [2]); (0, [106])]; pay 24 [first_out 11] [(50, [3])]]
  else demo_block (400 + k) [].
Definition demo_client (chain : u32 → BtcBlock) (tip : u32) : BTCClient := {|
  btc_get_latest_block_height := Ok tip;
  btc_get_block_hash k := if k <=? tip then Ok (block_hash (chain k)) else Err "Block height out of range";
  btc_get_block_by_height k := if k <=? tip then Ok (chain k) else Err "Block height out of range";
  btc_get_utxo _ := Err "No such mempool or blockchain transaction"
|}.

Lemma demo_chain_valid : valid_chain demo_chain 2.
Proof. apply check_chain_sound. by vm_compute. Qed.
Lemma demo_fork_valid : valid_chain demo_fork 3.
Proof. apply check_chain_sound. by vm_compute. Qed.

Definition demo_store : Store :=
  {| disk := {| db := empty_balance_db; writes_left := None |}; caches := no_caches |}.
