(* ===== verification/BalanceUndo.v ===== *)
(** * The undo journal

    Adding the bundle of a block to the journal, reading it back, and deleting it: the journal holds
    whole bundles of the blocks of the chain, each as the chain determines it. *)

From S2P Require Import Prelude Encoding Types Tx BalanceCodec BalanceDb BalanceDbFacts BalanceBlock.
From S2P Require Import BalanceChain.

(** The meta keys of a rollback. *)
Definition rollback_keys : list string :=
  [META_KEY_ROLLBACK_IN_PROGRESS; META_KEY_ROLLBACK_TARGET_HEIGHT; META_KEY_ROLLBACK_NEXT_HEIGHT].

Lemma enumerate_keys h l k : k ∈ (enumerate_utxos h l).*1 → k.1 = h.
Proof.
  intros ([k' x] & -> & Hx)%list_elem_of_fmap. unfold enumerate_utxos in Hx.
  apply elem_of_lookup_imap in Hx as (i & y & [= -> _] & _). done.
Qed.
Lemma enumerate_NoDup h l : count l <= U32_MAX → NoDup (enumerate_utxos h l).*1.
Proof.
  intros Hc. unfold enumerate_utxos. rewrite fmap_imap. apply NoDup_alt. intros i j [a b] Hi Hj.
  rewrite list_lookup_imap in Hi, Hj. unfold count in Hc.
  destruct (l !! i) as [x|] eqn:Ei; [|done]. destruct (l !! j) as [y|] eqn:Ej; [|done].
  pose proof (lookup_lt_Some _ _ _ Ei). pose proof (lookup_lt_Some _ _ _ Ej).
  cbn in *. rewrite usize_as_u32_id in Hi, Hj by lia. simplify_eq. lia.
Qed.
Lemma put_stored h l m :
  count l <= U32_MAX → (∀ i, m !! (h, i) = None) → utxos_stored h l (put_all (enumerate_utxos h l) m).
Proof.
  intros Hc Hm i x. rewrite put_all_lookup by by apply enumerate_NoDup.
  rewrite lookup_union, Hm, (right_id_L None (∪)). symmetry. apply elem_of_list_to_map. by apply enumerate_NoDup.
Qed.
Lemma put_stored_ne h l m k : k.1 ≠ h → put_all (enumerate_utxos h l) m !! k = m !! k.
Proof. intros Hk. apply put_all_out. by intros ?%enumerate_keys. Qed.
Lemma stored_ext h l m m' : (∀ i, m !! (h, i) = m' !! (h, i)) → utxos_stored h l m → utxos_stored h l m'.
Proof. intros E Hm i x. by rewrite <-E. Qed.

Lemma put_all_unit (h a : Z) (l : list Z) (m : gmap (Z * Z) unit) :
  put_all ((λ x, ((h, x), ())) <$> l) m !! (h, a) = if decide (a ∈ l) then Some () else m !! (h, a).
Proof.
  pose proof (put_all_fun (λ _ : Z * Z, ()) ((λ x, (h, x)) <$> l) m (h, a)) as E.
  rewrite <-list_fmap_compose in E. unfold compose in E. rewrite E.
  rewrite (decide_ext _ (a ∈ l)); [done|]. rewrite list_elem_of_fmap. naive_solver.
Qed.

(** A bundle batch changes the undo column families alone. *)
Lemma append_bundles_frame bs d :
  ∃ m c s b, append_block_undo_bundles_to_batch bs d = on_undo (λ _, m) (λ _, c) (λ _, s) (λ _, b) d.
Proof.
  revert d. induction bs as [|x bs IH]; intros d.
  - exists (block_undo_meta_cf d), (block_undo_created_utxos_cf d), (block_undo_spent_utxos_cf d), (block_undo_balance_index_cf d).
    by destruct d.
  - destruct (IH (append_block_undo_bundle x d)) as (m & c & s & b & E). exists m, c, s, b.
    change (append_block_undo_bundles_to_batch (x :: bs) d)
      with (append_block_undo_bundles_to_batch bs (append_block_undo_bundle x d)). by rewrite E.
Qed.

Section Undo.
Context {BC : BitcoinCrate} {BL : BitcoinCrateLaws} (chain : u32 → BtcBlock).

Lemma undo_ok_ext n d d' :
  block_undo_meta_cf d = block_undo_meta_cf d' → block_undo_created_utxos_cf d = block_undo_created_utxos_cf d' →
  block_undo_spent_utxos_cf d = block_undo_spent_utxos_cf d' →
  block_undo_balance_index_cf d = block_undo_balance_index_cf d' → undo_ok chain n d → undo_ok chain n d'.
Proof. intros E1 E2 E3 E4 [Hs Hn]. rewrite E1, E2, E3, E4 in *. by split. Qed.
Lemma undo_ok_le m n d : m <= n → undo_ok chain m d → undo_ok chain n d.
Proof.
  intros Hm [Hs Hn]. split; [|done]. intros k x Hx. destruct (Hs k x Hx) as (Hk & H). split; [lia|done].
Qed.

Context (n : u32) (V : valid_chain chain n).

Lemma undo_counts k : 1 <= k <= n →
  count (ub_created_utxos (chain_undo chain k)) <= U32_MAX ∧ count (ub_spent_utxos (chain_undo chain k)) <= U32_MAX.
Proof.
  intros Hk. destruct (vc_block_size _ _ V k Hk) as [H1 H2]. unfold count in *. cbn. rewrite length_fmap.
  split; [done|]. etrans; [|exact H2]. apply inj_le.
  transitivity (length (spent_before chain k)); [|apply length_filter].
  generalize (spent_before chain k). intros l. induction l as [|o l IH]; [done|]. cbn.
  destruct (coins _ !! o); cbn; lia.
Qed.

Lemma undo_append k d :
  1 <= k <= n → undo_ok chain n d → block_undo_meta_cf d !! k = None →
  undo_ok chain n (append_block_undo_bundle (chain_undo chain k) d).
Proof.
  intros Hk [Hs Hn] E. destruct (undo_counts k Hk) as [Hc1 Hc2].
  assert (∀ j a, j ≠ k → put_all ((λ h, (ub_block_height (chain_undo chain k), h, ())) <$>
    ub_touched_script_hashes (chain_undo chain k)) (block_undo_balance_index_cf d) !! (j, a)
    = block_undo_balance_index_cf d !! (j, a)) as Hb.
  { intros j a Hj. apply put_all_out. intros (x & Ex & (h & -> & _)%list_elem_of_fmap)%list_elem_of_fmap.
    by injection Ex as -> _. }
  split; intros j; cbn [append_block_undo_bundle on_undo block_undo_meta_cf block_undo_created_utxos_cf
                        block_undo_spent_utxos_cf block_undo_balance_index_cf].
  - intros m. change (ub_block_height (chain_undo chain k)) with k. destruct (decide (j = k)) as [->|Hne].
    + rewrite lookup_insert_eq. intros [= <-]. split_and!; [lia|lia|done|apply put_stored; [done|by apply Hn]..|].
      intros a. rewrite (put_all_unit k), (proj2 (proj2 (Hn k E a))).
      rewrite (decide_ext _ (a ∈ touched chain k)); [destruct (decide _); [by split|split; [by intros []|done]]|].
      etrans; [apply (elem_of_order_by _ false)|]. apply elem_of_elements.
    + rewrite lookup_insert_ne by done. intros Hm. destruct (Hs j m Hm) as (Hj & Em & H1 & H2 & H3).
      split_and!; [lia|lia|done|..].
      * eapply stored_ext; [|exact H1]. intros i. by rewrite put_stored_ne.
      * eapply stored_ext; [|exact H2]. intros i. by rewrite put_stored_ne.
      * intros a. by rewrite Hb.
  - change (ub_block_height (chain_undo chain k)) with k. destruct (decide (j = k)) as [->|Hne];
      [by rewrite lookup_insert_eq|]. rewrite lookup_insert_ne by done. intros Hj i.
    rewrite !put_stored_ne, Hb by done. by apply Hn.
Qed.

Lemma undo_append_all ks : ∀ d,
  NoDup ks → (∀ k, k ∈ ks → 1 <= k <= n ∧ block_undo_meta_cf d !! k = None) → undo_ok chain n d →
  let d' := append_block_undo_bundles_to_batch (chain_undo chain <$> ks) d in
  undo_ok chain n d' ∧ ∀ k, is_Some (block_undo_meta_cf d' !! k) ↔ k ∈ ks ∨ is_Some (block_undo_meta_cf d !! k).
Proof.
  induction ks as [|k ks IH]; intros d Hnd Hk U d'.
  { split; [done|]. intros k. rewrite elem_of_nil. naive_solver. }
  apply NoDup_cons in Hnd as [Hn Hnd]. destruct (Hk k ltac:(by left)) as [Hk1 E].
  assert (∀ j, is_Some (block_undo_meta_cf (append_block_undo_bundle (chain_undo chain k) d) !! j)
               ↔ j = k ∨ is_Some (block_undo_meta_cf d !! j)) as Hm.
  { intros j. cbn. destruct (decide (j = k)) as [->|Hne]; [rewrite lookup_insert_eq; split; [by left|by eexists]|].
    rewrite lookup_insert_ne by done. naive_solver. }
  destruct (IH (append_block_undo_bundle (chain_undo chain k) d) Hnd) as [U' Hm'].
  - intros j Hj. destruct (Hk j ltac:(by right)) as [Hj1 Ej]. split; [done|].
    apply eq_None_not_Some. rewrite Hm, Ej. intros [->|[? ?]]; done.
  - by apply undo_append.
  - split; [exact U'|]. intros j. specialize (Hm' j). rewrite Hm in Hm'. rewrite elem_of_cons.
    change (is_Some (block_undo_meta_cf d' !! j)) with
      (is_Some (block_undo_meta_cf (append_block_undo_bundles_to_batch (chain_undo chain <$> ks)
         (append_block_undo_bundle (chain_undo chain k) d)) !! j)). tauto.
Qed.

(** *** Reading *)

Lemma touched_sorted k : StronglySorted Z.lt (ub_touched_script_hashes (chain_undo chain k)).
Proof.
  change (StronglySorted Z.lt (order_by (be_bytes 32) false (elements (touched chain k)))).
  set (l := order_by _ _ _). assert (Forall u256 l) as Hu.
  { apply Forall_forall. intros a Ha. apply (elem_of_order_by _ false), elem_of_elements in Ha.
    by eapply touched_range. }
  assert (NoDup l) as Hnd by (unfold l; rewrite order_by_Permutation; apply NoDup_elements).
  assert (StronglySorted (key_le (be_bytes 32)) l) as Hs by apply order_by_sorted.
  clearbody l. induction Hs as [|a l Hs IH Ha]; [constructor|].
  apply NoDup_cons in Hnd as [Hna Hnd]. apply Forall_cons in Hu as [Hu Hul]. constructor; [by apply IH|].
  apply Forall_forall. intros b Hb. rewrite Forall_forall in Ha, Hul. specialize (Ha b Hb). unfold key_le in Ha.
  rewrite bytes_le_be_bytes in Ha by (done || by apply Hul). b2p.
  assert (a ≠ b) by by intros ->. lia.
Qed.

Section Read.
Context (d : BalanceHistoryDB) (U : undo_ok chain n d).

Lemma undo_keys k i :
  is_Some (block_undo_created_utxos_cf d !! (k, i)) ∨ is_Some (block_undo_spent_utxos_cf d !! (k, i))
  ∨ is_Some (block_undo_balance_index_cf d !! (k, i)) →
  1 <= k <= n ∧ is_Some (block_undo_meta_cf d !! k).
Proof.
  destruct (block_undo_meta_cf d !! k) as [m|] eqn:E.
  - intros _. destruct (uo_some _ _ _ U k m E) as [Hk _]. split; [done|by eexists].
  - destruct (uo_none _ _ _ U k E i) as (-> & -> & ->). intros [[]|[[]|[]]]; done.
Qed.
Lemma stored_range h l m i x :
  count l <= U32_MAX → utxos_stored h l m → m !! (h, i) = Some x → 0 <= i < 256 ^ Z.of_nat 4.
Proof.
  intros Hc Hst E%Hst. apply elem_of_enumerate in E as (_ & Hi & Hl); [|lia]. cbn in *.
  apply lookup_lt_Some in Hl. unfold count in Hc. change (256 ^ Z.of_nat 4) with (U32_MAX + 1). lia.
Qed.
Lemma undo_wf :
  wf_undo_keys 4 (block_undo_created_utxos_cf d) ∧ wf_undo_keys 4 (block_undo_spent_utxos_cf d)
  ∧ wf_undo_keys 32 (block_undo_balance_index_cf d).
Proof.
  pose proof (vc_height _ _ V) as Hn. split_and!; intros [k i] x E; cbn.
  - destruct (undo_keys k i) as [Hk [m Em]]; [left; by eexists|]. split; [lia|].
    destruct (uo_some _ _ _ U k m Em) as (_ & _ & Hst & _). destruct (undo_counts k Hk) as [Hc _].
    by eapply stored_range.
  - destruct (undo_keys k i) as [Hk [m Em]]; [right; left; by eexists|]. split; [lia|].
    destruct (uo_some _ _ _ U k m Em) as (_ & _ & _ & Hst & _). destruct (undo_counts k Hk) as [_ Hc].
    by eapply stored_range.
  - destruct (undo_keys k i) as [Hk [m Em]]; [right; right; by eexists|]. split; [lia|].
    destruct (uo_some _ _ _ U k m Em) as (_ & _ & _ & _ & Ht).
    assert (is_Some (block_undo_balance_index_cf d !! (k, i))) as Hi%Ht by by eexists.
    apply (touched_range _ _ _ Hi).
Qed.

(** The bundle read back is the bundle of the chain. *)
Lemma undo_read k : is_Some (block_undo_meta_cf d !! k) →
  1 <= k <= n
  ∧ get_block_undo_created_utxos k d = ub_created_utxos (chain_undo chain k)
  ∧ get_block_undo_spent_utxos k d = ub_spent_utxos (chain_undo chain k)
  ∧ get_block_undo_touched_script_hashes k d = ub_touched_script_hashes (chain_undo chain k).
Proof.
  intros [m E]. pose proof (vc_height _ _ V) as Hn.
  destruct (uo_some _ _ _ U k m E) as (Hk & _ & H1 & H2 & H3). destruct undo_wf as (W1 & W2 & W3).
  destruct (undo_counts k Hk) as [Hc1 Hc2]. split; [done|]. split_and!.
  - apply get_undo_utxos_stored; [done|lia|lia|done].
  - apply get_undo_utxos_stored; [done|lia|lia|done].
  - apply get_touched_stored; [done|lia| |apply touched_sorted]. intros a. rewrite H3. symmetry.
    etrans; [apply (elem_of_order_by _ false)|]. apply elem_of_elements.
Qed.
Lemma undo_bundle_read k : is_Some (block_undo_meta_cf d !! k) → undo_bundle_of k d = Some (chain_undo chain k).
Proof.
  intros Hk. destruct (undo_read k Hk) as (_ & E1 & E2 & E3). destruct Hk as [m E]. unfold undo_bundle_of.
  rewrite E. cbn [fmap option_fmap option_map]. rewrite E1, E2, E3.
  destruct (uo_some _ _ _ U k m E) as (_ & -> & _). done.
Qed.

(** *** Deleting *)

Lemma undo_delete k d' :
  is_Some (block_undo_meta_cf d !! k) → undo_ok chain n d' →
  undo_ok chain n (append_delete_block_undo_bundle_to_batch d k d').
Proof.
  intros Hk U'. destruct (undo_read k Hk) as (_ & E1 & E2 & E3).
  unfold append_delete_block_undo_bundle_to_batch. rewrite E1, E2, E3.
  assert (∀ l (m : gmap (u32 * u32) BlockUndoUtxoEntry) j i, j ≠ k → delete_all (enumerate_utxos k l).*1 m !! (j, i) = m !! (j, i)) as Hne.
  { intros l m j i Hj. apply delete_all_out. intros Hx. apply Hj. by apply enumerate_keys in Hx. }
  assert (∀ l (m : gmap (u32 * USDBScriptHash) ()) j a, j ≠ k →
    delete_all ((λ h, (k, h)) <$> l) m !! (j, a) = m !! (j, a)) as Hneb.
  { intros l m j a Hj. apply delete_all_out. intros (x & [= -> _] & _)%list_elem_of_fmap. done. }
  split; intros j; cbn [on_undo block_undo_meta_cf block_undo_created_utxos_cf block_undo_spent_utxos_cf
                        block_undo_balance_index_cf].
  - intros m [Hne' Em]%lookup_delete_Some. destruct (uo_some _ _ _ U' j m Em) as (Hj & Emj & H1 & H2 & H3).
    split_and!; [lia|lia|done|..].
    + eapply stored_ext; [|exact H1]. intros i. by rewrite Hne.
    + eapply stored_ext; [|exact H2]. intros i. by rewrite Hne.
    + intros a. by rewrite Hneb.
  - destruct (decide (j = k)) as [->|Hj].
    + intros _ i. rewrite !delete_all_lookup.
      destruct (block_undo_meta_cf d' !! k) as [m|] eqn:Em.
      * destruct (uo_some _ _ _ U' k m Em) as (_ & _ & H1 & H2 & H3). split_and!.
        -- destruct (decide _) as [|Hx]; [done|]. apply eq_None_not_Some. intros [x Ex%H1].
           apply Hx, list_elem_of_fmap. eexists. by split; [|exact Ex].
        -- destruct (decide _) as [|Hx]; [done|]. apply eq_None_not_Some. intros [x Ex%H2].
           apply Hx, list_elem_of_fmap. eexists. by split; [|exact Ex].
        -- destruct (decide _) as [|Hx]; [done|]. apply eq_None_not_Some. intros Ex%H3.
           apply Hx, list_elem_of_fmap_2. apply (elem_of_order_by _ false), elem_of_elements, Ex.
      * destruct (uo_none _ _ _ U' k Em i) as (-> & -> & ->). by repeat destruct (decide _).
    + rewrite lookup_delete_ne by done. intros Ej i. rewrite !Hne, Hneb by done. by apply (uo_none _ _ _ U').
Qed.
End Read.
End Undo.
