(* ===== verification/BalanceBatch.v ===== *)
(** * A batch indexes its blocks

    [process_blocks] over an indexed database and true caches: the database after it is what the chain
    says of the last block of the batch, whatever the caches held and however the blocks are cut into
    batches. *)

From S2P Require Import Prelude Encoding Types Tx BalanceCodec BalanceDb BalanceDbFacts BalanceBlock.
From S2P Require Import BalanceChain.

Section Batch.
Context {BC : BitcoinCrate} {BL : BitcoinCrateLaws} {CL : BTCClient}.
Context (chain : u32 → BtcBlock).

Abbreviation block_txs := (block_txs chain).
Abbreviation txs_to := (txs_to chain).

(** ** Preloading *)

Lemma fmap_omap_imap {A B C} (g : B → C) (F : nat → A → option B) l :
  g <$> omap id (imap F l) = omap id (imap (λ n x, g <$> F n x) l).
Proof.
  revert F. induction l as [|x l IH]; intros F; [done|]. cbn. unfold id at 1 3.
  destruct (F 0%nat x); cbn; [f_equal|]; apply IH.
Qed.
(** The outputs of a transaction, as the code lists them. *)
Lemma preload_vouts_outputs tx :
  count (output tx) <= U32_MAX →
  (λ p, (po_outpoint p.1, po_cache_tx_out p.1)) <$> preload_vouts tx = tx_outputs tx.
Proof.
  intros Hc. unfold preload_vouts, tx_outputs. rewrite fmap_omap_imap. f_equal. apply imap_ext.
  intros i out Hi%lookup_lt_Some. unfold count in Hc. rewrite usize_as_u32_id by lia.
  by destruct (is_op_return _).
Qed.

(** A batch: the blocks [f] to [e] of a valid chain. *)
Context (f e : u32) (Hf : 1 <= f) (Hfe : f <= e) (V : valid_chain chain e).

Definition coin (o : OutPoint) : UTXOValue :=
  default {| uv_script_hash := 0; uv_value := 0 |} (coins (txs_to e) !! o).
Definition out_info (k : u32) : list (OutPoint * VOutUtxoInfo) :=
  (λ p, (p.1, {| vo_item := p.2; vo_block_height := k; vo_spend := false |})) <$> created (block_txs k).
Definition batch_outs : list (OutPoint * VOutUtxoInfo) := heights f e ≫= out_info.
Definition batch_txs : list Transaction := heights f e ≫= block_txs.
Definition batch_scripts (k : u32) : list ScriptRegistryEntry :=
  block_txs k ≫= λ tx, snd <$> preload_vouts tx.

Lemma txs_to_batch : txs_to e = txs_to (f - 1) ++ batch_txs.
Proof. rewrite (txs_to_split chain (f - 1) e) by lia. by replace (f - 1 + 1) with f by lia. Qed.
Lemma block_in_chain k tx : 1 <= k <= e → tx ∈ block_txs k → tx ∈ txs_to e.
Proof. intros Hk Htx. apply list_elem_of_bind. exists k. split; [done|]. by apply elem_of_heights. Qed.

Definition pre_block (k : u32) : PreloadBlock :=
  {| pb_height := k; pb_block_hash := block_hash (chain k); pb_txdata := preload_tx <$> block_txs k |}.

Lemma pre_block_outputs k :
  1 <= k <= e →
  (λ out, (po_outpoint out, po_cache_tx_out out)) <$> (pb_txdata (pre_block k) ≫= pt_vout)
  = created (block_txs k).
Proof.
  intros Hk. cbn. assert (∀ tx, tx ∈ block_txs k → count (output tx) <= U32_MAX) as Hc
    by (intros; by eapply (vc_outputs _ _ V), block_in_chain).
  induction (block_txs k) as [|tx l IH]; [done|]. cbn. rewrite fmap_app, IH by (intros; apply Hc; by right).
  unfold created. cbn. f_equal. rewrite <-list_fmap_compose. apply preload_vouts_outputs, Hc. by left.
Qed.

Lemma preprocess_run k d :
  1 <= k <= e →
  preprocess_block k (chain k) d
  = (Ok (pre_block k), set_vout_utxos (put_all (out_info k) (vout_utxos d))
                         (extend_script_registry (batch_scripts k) d)).
Proof.
  intros Hk. unfold preprocess_block. erewrite bind_run by reflexivity. erewrite bind_run by reflexivity.
  change (ret (pre_block k)
    (set_vout_utxos (put_all ((λ out, (po_outpoint out, {| vo_item := po_cache_tx_out out;
       vo_block_height := k; vo_spend := false |})) <$> (pb_txdata (pre_block k) ≫= pt_vout))
       (vout_utxos d)) (extend_script_registry (batch_scripts k) d)) =
    (Ok (pre_block k), set_vout_utxos (put_all (out_info k) (vout_utxos d))
                         (extend_script_registry (batch_scripts k) d))).
  unfold ret. do 3 f_equal. unfold out_info. rewrite <-pre_block_outputs by done. by rewrite <-list_fmap_compose.
Qed.

Lemma preprocess_all :
  ∃ d, map_m ((λ k, (k, chain k)) <$> heights f e) (λ hb, preprocess_block hb.1 hb.2) (new_batch f (e + 1))
       = (Ok (pre_block <$> heights f e), d)
    ∧ d = set_vout_utxos (put_all batch_outs ∅)
            (extend_script_registry (heights f e ≫= batch_scripts) (new_batch f (e + 1))).
Proof.
  assert (∀ ks d, (∀ k, k ∈ ks → 1 <= k <= e) →
    map_m ((λ k, (k, chain k)) <$> ks) (λ hb, preprocess_block hb.1 hb.2) d
    = (Ok (pre_block <$> ks), set_vout_utxos (put_all (ks ≫= out_info) (vout_utxos d))
                                (extend_script_registry (ks ≫= batch_scripts) d))) as Hgen.
  { induction ks as [|k ks IH]; intros d Hks.
    - cbn. unfold set_vout_utxos, extend_script_registry, ret. cbn. rewrite app_nil_r. by destruct d.
    - cbn [map_m fmap list_fmap fst snd]. rewrite (bind_run _ _ _ _ _ (preprocess_run k d (Hks k ltac:(by left)))).
      rewrite (bind_run _ _ _ _ _ (IH _ (λ j Hj, Hks j (proj2 (elem_of_cons _ _ _) (or_intror Hj))))).
      unfold ret, set_vout_utxos, extend_script_registry. cbn. rewrite <-app_assoc.
      unfold put_all. by rewrite foldl_app. }
  eexists. split; [|reflexivity]. apply (Hgen (heights f e)). intros k Hk%elem_of_heights. lia.
Qed.

(** Every output of the batch is entered once. *)
Lemma batch_outs_fst : batch_outs.*1 = (created batch_txs).*1.
Proof.
  unfold batch_outs, batch_txs. induction (heights f e) as [|k ks IH]; [done|].
  rewrite !bind_cons, created_app, !fmap_app, IH. f_equal. unfold out_info. by rewrite <-list_fmap_compose.
Qed.
Lemma batch_outs_NoDup : NoDup batch_outs.*1.
Proof.
  rewrite batch_outs_fst. pose proof (lg_created _ (vc_ledger _ _ V)) as Hc.
  rewrite txs_to_batch, created_app, fmap_app in Hc. by apply NoDup_app in Hc as (_ & _ & ?).
Qed.
Definition out_map : gmap OutPoint VOutUtxoInfo := list_to_map batch_outs.
Lemma out_map_Some o info :
  out_map !! o = Some info → ∃ k, f <= k <= e ∧ o ∈ (created (block_txs k)).*1
    ∧ info = {| vo_item := coin o; vo_block_height := k; vo_spend := false |}.
Proof.
  intros E%elem_of_list_to_map_2. apply list_elem_of_bind in E as (k & Hi & Hk%elem_of_heights).
  apply list_elem_of_fmap in Hi as ([o' v] & [= -> ->] & Hv). exists k. split; [done|].
  split; [apply list_elem_of_fmap; by exists (o', v)|]. f_equal. unfold coin.
  assert (coins (txs_to e) !! o' = Some v) as ->; [|done].
  apply coins_Some; [apply V|]. unfold created. apply list_elem_of_bind in Hv as (tx & Hv & Htx).
  apply list_elem_of_bind. exists tx. split; [done|]. apply (block_in_chain k); [lia|done].
Qed.
Lemma out_map_None o : out_map !! o = None ↔ ∀ k, f <= k <= e → o ∉ (created (block_txs k)).*1.
Proof.
  unfold out_map. split.
  - intros E%not_elem_of_list_to_map_2 k Hk Ho. apply E. rewrite batch_outs_fst.
    apply list_elem_of_fmap in Ho as (p & -> & (tx & Hp & Htx)%list_elem_of_bind).
    apply list_elem_of_fmap. exists p. split; [done|]. apply list_elem_of_bind. exists tx. split; [done|].
    apply list_elem_of_bind. exists k. split; [done|]. by apply elem_of_heights.
  - intros Hn. apply not_elem_of_list_to_map_1. rewrite batch_outs_fst.
    intros (p & -> & (tx & Hp & (k & Htx & Hk%elem_of_heights)%list_elem_of_bind)%list_elem_of_bind)%list_elem_of_fmap.
    apply (Hn k Hk), list_elem_of_fmap. exists p. split; [done|]. apply list_elem_of_bind. eauto.
Qed.
(** The block that creates an output is unique. *)
Lemma created_once k k' o :
  1 <= k <= e → 1 <= k' <= e → o ∈ (created (block_txs k)).*1 → o ∈ (created (block_txs k')).*1 → k = k'.
Proof.
  intros Hk Hk' Ho Ho'. assert (∀ a b, 1 <= a < b → b <= e → o ∈ (created (block_txs a)).*1 →
    o ∈ (created (block_txs b)).*1 → False) as Hlt.
  { intros a b Ha Hb H1 H2. pose proof (lg_created _ (vc_ledger _ _ (valid_chain_le chain b e V ltac:(lia)))) as Hc.
    rewrite txs_to_last, created_app, fmap_app in Hc by lia. apply NoDup_app in Hc as (_ & Hc & _).
    apply (Hc o); [|done]. apply list_elem_of_fmap in H1 as (p & -> & (tx & Hp & Htx)%list_elem_of_bind).
    apply list_elem_of_fmap. exists p. split; [done|]. apply list_elem_of_bind. exists tx. split; [done|].
    apply list_elem_of_bind. exists a. split; [done|]. apply elem_of_heights. lia. }
  destruct (Z.lt_trichotomy k k') as [?|[?|?]]; [exfalso; by apply (Hlt k k'); [lia|lia|..]|done|
    exfalso; by apply (Hlt k' k); [lia|lia|..]].
Qed.

(** *** Inputs found in memory *)

Definition mark (b : bool) (info : VOutUtxoInfo) : VOutUtxoInfo :=
  {| vo_item := vo_item info; vo_block_height := vo_block_height info; vo_spend := b |}.
(** The map of outputs after the inputs [sp] were resolved. *)
Definition marked (sp : list OutPoint) (m : gmap OutPoint VOutUtxoInfo) : Prop :=
  ∀ o, m !! o = mark (bool_decide (o ∈ sp)) <$> out_map !! o.

Definition resolved (c : Caches) (k : u32) (o : OutPoint) : PreloadVIn :=
  match out_map !! o with
  | Some info => set_cache_tx_out (vo_item info) (created_before info k) (preload_vin o)
  | None => match utxo_cache c !! o with
            | Some v => set_cache_tx_out v true (preload_vin o)
            | None => preload_vin o
            end
  end.
Definition resolved_tx (c : Caches) (k : u32) (tx : Transaction) : PreloadTx :=
  {| pt_txid := compute_txid tx; vin := resolved c k <$> tx_inputs tx; pt_vout := fst <$> preload_vouts tx |}.

Lemma resolve_vin_run c k o d sp :
  marked sp (vout_utxos d) → o ∉ sp →
  ∃ m, resolve_vin c k (preload_vin o) d = (Ok (resolved c k o), set_vout_utxos m d) ∧ marked (sp ++ [o]) m.
Proof.
  intros Hm Ho. unfold resolve_vin. erewrite bind_run by reflexivity.
  change (vi_outpoint (preload_vin o)) with o. rewrite (Hm o). unfold resolved.
  destruct (out_map !! o) as [info|] eqn:E; cbn [fmap option_fmap option_map].
  - rewrite (bind_run _ _ d tt d) by (unfold assert; cbn; by rewrite (bool_decide_false _ Ho)).
    erewrite bind_run by reflexivity. eexists. split; [reflexivity|].
    intros x. destruct (decide (x = o)) as [->|Hne].
    + rewrite lookup_insert_eq, E. cbn. unfold mark. do 2 f_equal. symmetry. apply bool_decide_true. set_solver.
    + rewrite lookup_insert_ne, (Hm x) by done. destruct (out_map !! x); cbn; [|done]. do 2 f_equal.
      apply bool_decide_ext. set_solver.
  - assert (marked (sp ++ [o]) (vout_utxos d)) as Hm'.
    { intros x. rewrite (Hm x). destruct (out_map !! x) eqn:Ex; cbn; [|done]. do 2 f_equal.
      apply bool_decide_ext. rewrite elem_of_app, list_elem_of_singleton. split; [tauto|].
      intros [?| ->]; [done|congruence]. }
    exists (vout_utxos d). split; [|done].
    destruct (utxo_cache c !! o) as [v|]; unfold ret; by destruct d.
Qed.

Lemma resolve_vins_run c k os : ∀ d sp,
  marked sp (vout_utxos d) → NoDup (sp ++ os) →
  ∃ m, map_m (preload_vin <$> os) (resolve_vin c k) d = (Ok (resolved c k <$> os), set_vout_utxos m d)
       ∧ marked (sp ++ os) m.
Proof.
  induction os as [|o os IH]; intros d sp Hm Hnd.
  - exists (vout_utxos d). rewrite app_nil_r. split; [by destruct d|done].
  - assert (o ∉ sp) as Ho by (apply NoDup_app in Hnd as (_ & Hn & _); intros Hx; apply (Hn _ Hx); by left).
    destruct (resolve_vin_run c k o d sp Hm Ho) as (m & E & Hm1).
    destruct (IH (set_vout_utxos m d) (sp ++ [o]) Hm1) as (m' & E' & Hm2); [by rewrite <-app_assoc|].
    exists m'. cbn [map_m fmap list_fmap]. rewrite (bind_run _ _ _ _ _ E). rewrite (bind_run _ _ _ _ _ E').
    split; [done|]. by rewrite <-app_assoc in Hm2.
Qed.

Lemma vin_preload_tx tx : vin (preload_tx tx) = preload_vin <$> tx_inputs tx.
Proof. unfold tx_inputs. cbn. by destruct (is_coinbase tx). Qed.

Lemma resolve_txs_run c k l : ∀ d sp,
  marked sp (vout_utxos d) → NoDup (sp ++ spent l) →
  ∃ m, map_vins (resolve_vin c k) (preload_tx <$> l) d = (Ok (resolved_tx c k <$> l), set_vout_utxos m d)
       ∧ marked (sp ++ spent l) m.
Proof.
  unfold map_vins. induction l as [|tx l IH]; intros d sp Hm Hnd.
  - exists (vout_utxos d). unfold spent. cbn. rewrite app_nil_r. split; [by destruct d|done].
  - change (spent (tx :: l)) with (tx_inputs tx ++ spent l) in *. rewrite app_assoc in Hnd.
    destruct (resolve_vins_run c k (tx_inputs tx) d sp Hm) as (m & E & Hm1);
      [by apply NoDup_app in Hnd as [? _]|].
    destruct (IH (set_vout_utxos m d) (sp ++ tx_inputs tx) Hm1 Hnd) as (m' & E' & Hm2).
    exists m'. rewrite app_assoc. split; [|done]. cbn [map_m fmap list_fmap].
    erewrite bind_run; [|rewrite vin_preload_tx; erewrite bind_run by exact E; reflexivity].
    by rewrite (bind_run _ _ _ _ _ E').
Qed.

(** *** Inputs read from the database *)

Definition full_vin (k : u32) (o : OutPoint) : PreloadVIn :=
  {| vi_outpoint := o; vi_cache_tx_out := Some (coin o);
     need_flush := bool_decide (o ∉ (created (block_txs k)).*1) |}.
Definition full_tx (k : u32) (tx : Transaction) : PreloadTx :=
  {| pt_txid := compute_txid tx; vin := full_vin k <$> tx_inputs tx; pt_vout := fst <$> preload_vouts tx |}.
Definition full_block (k : u32) : PreloadBlock :=
  {| pb_height := k; pb_block_hash := block_hash (chain k); pb_txdata := full_tx k <$> block_txs k |}.

Definition filled (i : PreloadVIn) : PreloadVIn :=
  match vi_cache_tx_out i with
  | None => set_cache_tx_out (coin (vi_outpoint i)) (need_flush i) i
  | Some _ => i
  end.
Definition missing (ins : list PreloadVIn) : list OutPoint :=
  vi_outpoint <$> filter (λ i, vi_cache_tx_out i = None) ins.

Lemma fill_vins_run ins rest :
  map_m ins fill_vin ((coin <$> missing ins) ++ rest) = (Ok (filled <$> ins), rest).
Proof.
  induction ins as [|i ins IH]; [done|]. unfold missing in *. cbn [map_m]. destruct (vi_cache_tx_out i) as [v|] eqn:E.
  - rewrite filter_cons_False by congruence. unfold bind, fill_vin at 1. rewrite E.
    destruct ((coin <$> _) ++ rest) as [|u us] eqn:El; rewrite IH; unfold ret; cbn; unfold filled at 2; by rewrite E.
  - rewrite filter_cons_True by done. cbn [fmap list_fmap app]. unfold bind, fill_vin at 1. rewrite E, IH.
    unfold ret. cbn. unfold filled at 2. by rewrite E.
Qed.
Lemma fill_txs_run txs rest :
  map_vins fill_vin txs ((coin <$> missing (txs ≫= vin)) ++ rest)
  = (Ok ((λ tx, {| pt_txid := pt_txid tx; vin := filled <$> vin tx; pt_vout := pt_vout tx |}) <$> txs), rest).
Proof.
  unfold map_vins. revert rest. induction txs as [|tx txs IH]; intros rest; [done|].
  rewrite bind_cons. unfold missing. rewrite filter_app, !fmap_app, <-app_assoc. cbn [map_m].
  erewrite bind_run; [|erewrite bind_run by apply fill_vins_run; reflexivity].
  rewrite (bind_run _ _ _ _ _ (IH rest)). done.
Qed.

Lemma fetch_utxos_run d os :
  (∀ o, o ∈ os → utxo_cf d !! o = Some (coin o)) → fetch_utxos d os = Ok (coin <$> os).
Proof.
  unfold fetch_utxos. induction os as [|o os IH]; intros Ho; [done|].
  cbn -[collect]. cbn [collect]. cbn [fst snd]. rewrite (Ho o) by (by left). cbn -[collect].
  rewrite IH by (intros; apply Ho; by right). done.
Qed.

(** An input of the batch that no block of the batch creates is unspent before the batch. *)
Lemma spent_batch_NoDup : NoDup (spent (txs_to (f - 1)) ++ spent batch_txs).
Proof. rewrite <-spent_app, <-txs_to_batch. apply V. Qed.
Lemma block_spent_in_batch k o : f <= k <= e → o ∈ spent (block_txs k) → o ∈ spent batch_txs.
Proof.
  intros Hk (tx & Ho & Htx)%list_elem_of_bind. apply list_elem_of_bind. exists tx. split; [done|].
  apply list_elem_of_bind. exists k. split; [done|]. by apply elem_of_heights.
Qed.
Lemma created_in_block k o :
  0 <= k <= e → o ∈ (created (txs_to k)).*1 → ∃ j, 1 <= j <= k ∧ o ∈ (created (block_txs j)).*1.
Proof.
  intros Hk (p & -> & (tx & Hp & (j & Htx & Hj%elem_of_heights)%list_elem_of_bind)%list_elem_of_bind)%list_elem_of_fmap.
  exists j. split; [done|]. apply list_elem_of_fmap. exists p. split; [done|]. apply list_elem_of_bind. eauto.
Qed.
Lemma old_input k o :
  f <= k <= e → o ∈ spent (block_txs k) → out_map !! o = None → utxos chain (f - 1) !! o = Some (coin o).
Proof.
  intros Hk Ho Hnone. rewrite out_map_None in Hnone.
  destruct (input_coin chain e V k o ltac:(lia) Ho) as (v & Ev & Ee & _).
  assert (o ∈ (created (txs_to (f - 1))).*1) as Hc.
  { pose proof (input_is_created chain e V k o ltac:(lia) Ho) as Hin.
    apply created_in_block in Hin as (j & Hj & Hoj); [|lia].
    destruct (decide (f <= j)) as [Hfj|Hfj]; [exfalso; apply (Hnone j); [lia|done]|].
    apply list_elem_of_fmap in Hoj as (p & -> & (tx & Hp & Htx)%list_elem_of_bind).
    apply list_elem_of_fmap. exists p. split; [done|]. apply list_elem_of_bind. exists tx. split; [done|].
    apply list_elem_of_bind. exists j. split; [done|]. apply elem_of_heights. lia. }
  rewrite (utxos_lookup chain e V (f - 1)) by lia. rewrite decide_False.
  - rewrite <-(coins_stable chain e (f - 1) o) by (lia || done). unfold coin. by rewrite Ee.
  - intros Hs. pose proof spent_batch_NoDup as Hnd. apply NoDup_app in Hnd as (_ & Hnd & _).
    apply (Hnd o Hs). by eapply block_spent_in_batch.
Qed.

Lemma filled_resolved c k o :
  caches_ok chain (f - 1) c → f <= k <= e → o ∈ spent (block_txs k) →
  filled (resolved c k o) = full_vin k o.
Proof.
  intros [Hc _] Hk Ho. unfold filled, resolved, full_vin.
  destruct (out_map !! o) as [info|] eqn:E; cbn.
  - apply out_map_Some in E as (j & Hj & Hoj & ->). unfold set_cache_tx_out, created_before. cbn. f_equal.
    destruct (j <? k) eqn:Ejk; b2p; symmetry.
    + apply bool_decide_true. intros Hok. pose proof (created_once j k o ltac:(lia) ltac:(lia) Hoj Hok). lia.
    + apply bool_decide_false. intros Hn. apply Hn.
      pose proof (input_is_created chain e V k o ltac:(lia) Ho) as Hin.
      apply created_in_block in Hin as (i & Hi & Hoi); [|lia].
      pose proof (created_once i j o ltac:(lia) ltac:(lia) Hoi Hoj). by replace k with j by lia.
  - assert (bool_decide (o ∉ (created (block_txs k)).*1) = true) as Hb
      by (apply bool_decide_true; by apply out_map_None).
    rewrite Hb. destruct (utxo_cache c !! o) as [v|] eqn:Ec; cbn; [|done].
    apply Hc in Ec. rewrite (old_input k) in Ec by done. injection Ec as <-. done.
Qed.
Lemma resolved_missing c k o :
  vi_cache_tx_out (resolved c k o) = None → out_map !! o = None.
Proof. unfold resolved. destruct (out_map !! o); [done|]. done. Qed.

Lemma resolved_vins c k l : (resolved_tx c k <$> l) ≫= vin = resolved c k <$> spent l.
Proof.
  induction l as [|tx l IH]; [done|]. change (spent (tx :: l)) with (tx_inputs tx ++ spent l).
  by rewrite fmap_cons, bind_cons, fmap_app, IH.
Qed.
Lemma missing_nil ins : missing ins = [] → filled <$> ins = ins.
Proof.
  unfold missing. induction ins as [|i ins IH]; [done|]. destruct (vi_cache_tx_out i) as [v|] eqn:E.
  - rewrite filter_cons_False by congruence. intros Hm. cbn. rewrite IH by done. unfold filled. by rewrite E.
  - by rewrite filter_cons_True by done.
Qed.
Lemma missing_app l1 l2 : missing (l1 ++ l2) = missing l1 ++ missing l2.
Proof. unfold missing. by rewrite filter_app, fmap_app. Qed.
Lemma missing_resolved c k o os : o ∈ missing (resolved c k <$> os) → o ∈ os ∧ out_map !! o = None.
Proof.
  unfold missing. intros (i & -> & [Hn (o' & -> & Ho)%list_elem_of_fmap]%list_elem_of_filter)%list_elem_of_fmap.
  assert (vi_outpoint (resolved c k o') = o') as ->
    by (unfold resolved; destruct (out_map !! o'); [done|]; by destruct (utxo_cache c !! o')).
  split; [done|]. by eapply resolved_missing.
Qed.

(** The resolved inputs that the database completes are the full ones. *)
Lemma filled_txs c k :
  caches_ok chain (f - 1) c → f <= k <= e →
  (λ tx, {| pt_txid := pt_txid tx; vin := filled <$> vin tx; pt_vout := pt_vout tx |})
    <$> (resolved_tx c k <$> block_txs k) = full_tx k <$> block_txs k.
Proof.
  intros Hc Hk. rewrite <-list_fmap_compose. apply list_fmap_ext. intros i tx Htx%list_elem_of_lookup_2.
  unfold compose, resolved_tx, full_tx. cbn. f_equal. rewrite <-list_fmap_compose. apply list_fmap_ext.
  intros j o Ho%list_elem_of_lookup_2. apply filled_resolved; [done..|]. apply list_elem_of_bind. eauto.
Qed.
Lemma unfilled_txs txs :
  missing (txs ≫= vin) = [] →
  (λ tx, {| pt_txid := pt_txid tx; vin := filled <$> vin tx; pt_vout := pt_vout tx |}) <$> txs = txs.
Proof.
  induction txs as [|tx txs IH]; [done|]. rewrite bind_cons, missing_app. intros [H1 H2]%app_nil.
  rewrite fmap_cons, IH, missing_nil by done. by destruct tx.
Qed.

Lemma preload_utxos_run dk c k d sp :
  utxo_cf dk = utxos chain (f - 1) → caches_ok chain (f - 1) c → f <= k <= e →
  marked sp (vout_utxos d) → NoDup (sp ++ spent (block_txs k)) →
  ∃ m, preload_utxos dk c (pre_block k) d = (Ok (full_block k), set_vout_utxos m d)
       ∧ marked (sp ++ spent (block_txs k)) m.
Proof.
  intros Ix Hc Hk Hm Hnd. unfold preload_utxos.
  destruct (resolve_txs_run c k (block_txs k) d sp Hm Hnd) as (m & E & Hm'). exists m. split; [|done].
  rewrite (bind_run _ _ _ _ _ E). set (txs := resolved_tx c k <$> block_txs k).
  pose proof (filled_txs c k Hc Hk) as Hfill. fold txs in Hfill.
  change (outpoints_to_load txs) with (missing (txs ≫= vin)).
  destruct (missing (txs ≫= vin)) as [|o os] eqn:Em.
  - unfold ret, full_block. rewrite <-Hfill, unfilled_txs by done. done.
  - rewrite <-Em. rewrite (bind_run _ _ _ (coin <$> missing (txs ≫= vin)) (set_vout_utxos m d)).
    2: { unfold lift. f_equal. apply fetch_utxos_run. intros x Hx. unfold txs in Hx.
         rewrite resolved_vins in Hx. apply missing_resolved in Hx as [Hx Hn]. rewrite Ix.
         by apply (old_input k). }
    rewrite (bind_run _ _ _ tt (set_vout_utxos m d)).
    2: { unfold assert, count. by rewrite length_fmap, Z.eqb_refl. }
    pose proof (fill_txs_run txs []) as Hf1. rewrite app_nil_r in Hf1. rewrite Hf1, Hfill. done.
Qed.

Lemma preload_all_utxos dk c d :
  utxo_cf dk = utxos chain (f - 1) → caches_ok chain (f - 1) c → marked [] (vout_utxos d) →
  ∃ m, map_m (pre_block <$> heights f e) (preload_utxos dk c) d
       = (Ok (full_block <$> heights f e), set_vout_utxos m d) ∧ marked (spent batch_txs) m.
Proof.
  intros Ix Hc Hm.
  assert (∀ ks d sp, (∀ k, k ∈ ks → f <= k <= e) → marked sp (vout_utxos d) →
    NoDup (sp ++ spent (ks ≫= block_txs)) →
    ∃ m, map_m (pre_block <$> ks) (preload_utxos dk c) d = (Ok (full_block <$> ks), set_vout_utxos m d)
         ∧ marked (sp ++ spent (ks ≫= block_txs)) m) as Hgen.
  { clear d Hm. induction ks as [|k ks IH]; intros d sp Hks Hm Hnd.
    - exists (vout_utxos d). unfold spent. cbn. rewrite app_nil_r. split; [by destruct d|done].
    - rewrite bind_cons, spent_app, app_assoc in Hnd.
      destruct (preload_utxos_run dk c k d sp Ix Hc (Hks k ltac:(by left)) Hm) as (m & E & Hm1);
        [by apply NoDup_app in Hnd as [? _]|].
      destruct (IH (set_vout_utxos m d) (sp ++ spent (block_txs k))) as (m' & E' & Hm2);
        [intros; apply Hks; by right|done..|].
      exists m'. rewrite bind_cons, spent_app, app_assoc. split; [|done]. cbn [map_m fmap list_fmap].
      rewrite (bind_run _ _ _ _ _ E). by rewrite (bind_run _ _ _ _ _ E'). }
  apply (Hgen (heights f e) d []); [by intros k Hk%elem_of_heights|done|].
  cbn. pose proof spent_batch_NoDup as Hnd. by apply NoDup_app in Hnd as (_ & _ & ?).
Qed.
End Batch.
