(* ===== verification/BalanceProcess.v ===== *)
(** * The rows a batch computes

    The second half of [process_blocks]: the balances before the batch, the balance rows of every
    block of the batch from the first to the last, and their deltas.  With the preloaded outputs of
    [BalanceBatch], the rows are those the chain determines. *)

From S2P Require Import Prelude Encoding Types Tx BalanceCodec BalanceDb BalanceDbFacts BalanceBlock.
From S2P Require Import BalanceChain BalanceBatch.

Section Process.
Context {BC : BitcoinCrate} {BL : BitcoinCrateLaws} {CL : BTCClient}.
Context (chain : u32 → BtcBlock).
Context (f e : u32) (Hf : 1 <= f) (Hfe : f <= e) (V : valid_chain chain e).

Abbreviation block_txs := (block_txs chain).
Abbreviation txs_to := (txs_to chain).
Abbreviation coin := (coin chain e).
Abbreviation full_block := (full_block chain e).
Abbreviation full_vin := (full_vin chain e).

(** ** The script hashes of a batch *)

Lemma coin_spent k o v :
  1 <= k <= e → o ∈ spent (block_txs k) → coins (txs_to k) !! o = Some v ↔ coin o = v.
Proof.
  intros Hk Ho. destruct (input_coin chain e V k o Hk Ho) as (w & Ew & Ee & _). unfold coin.
  rewrite Ew, Ee. cbn. split; [by intros [= ->]|by intros ->].
Qed.
Lemma coin_range k o :
  1 <= k <= e → o ∈ spent (block_txs k) → 0 <= uv_value (coin o) <= I64_MAX.
Proof.
  intros Hk Ho. destruct (input_coin chain e V k o Hk Ho) as (w & Ew & Ee & Hw & _).
  unfold coin. by rewrite Ee.
Qed.
Lemma created_range k o v : 1 <= k <= e → (o, v) ∈ created (block_txs k) → 0 <= uv_value v <= I64_MAX.
Proof.
  intros Hk Hv. apply (vc_values _ _ V o). rewrite (txs_to_split chain (k - 1) e) by lia.
  rewrite (heights_cons (k - 1 + 1)), bind_cons, !created_app by lia.
  replace (k - 1 + 1) with k by lia. apply elem_of_app. right. apply elem_of_app. by left.
Qed.

Lemma full_vins k : pb_txdata (full_block k) ≫= vin = full_vin k <$> spent (block_txs k).
Proof.
  cbn. induction (block_txs k) as [|tx l IH]; [done|].
  change (spent (tx :: l)) with (tx_inputs tx ++ spent l). by rewrite fmap_cons, bind_cons, fmap_app, IH.
Qed.
Lemma full_vouts k : 1 <= k <= e →
  (λ out, (po_outpoint out, po_cache_tx_out out)) <$> (pb_txdata (full_block k) ≫= pt_vout)
  = created (block_txs k).
Proof.
  intros Hk. rewrite <-(pre_block_outputs chain e V k) by done. f_equal. cbn.
  induction (block_txs k) as [|tx l IH]; [done|]. cbn. by rewrite IH.
Qed.
(** What holds of every created output, the code's list has it. *)
Lemma elem_of_full_vouts k out : 1 <= k <= e →
  out ∈ pb_txdata (full_block k) ≫= pt_vout →
  (po_outpoint out, po_cache_tx_out out) ∈ created (block_txs k).
Proof. intros Hk Ho. rewrite <-full_vouts by done. apply list_elem_of_fmap. eauto. Qed.

Lemma touched_coin k a : 1 <= k <= e →
  a ∈ touched chain k ↔ (∃ o v, (o, v) ∈ created (block_txs k) ∧ uv_script_hash v = a)
                      ∨ (∃ o, o ∈ spent (block_txs k) ∧ uv_script_hash (coin o) = a).
Proof.
  intros Hk. rewrite elem_of_touched. split; (intros [H|H]; [by left|right]).
  - destruct H as (o & v & Ho & Hv%coin_spent & <-); [|done..]. exists o. by rewrite Hv.
  - destruct H as (o & Ho & <-). exists o, (coin o). split_and!; [done| |done]. by apply coin_spent.
Qed.

Lemma involved_run :
  ∃ addresses, involved_addresses (full_block <$> heights f e) = Ok addresses
    ∧ ∀ a, a ∈ addresses ↔ ∃ k, f <= k <= e ∧ a ∈ touched chain k.
Proof.
  assert (∀ ks, collect vin_utxo ((full_block <$> ks) ≫= λ b, pb_txdata b ≫= vin)
                = Ok (coin <$> (ks ≫= λ k, spent (block_txs k)))) as Hv.
  { intros ks. apply collect_Ok. induction ks as [|k ks IH]; [constructor|].
    rewrite fmap_cons, !bind_cons, fmap_app. apply Forall2_app; [|done]. rewrite full_vins.
    apply Forall2_fmap. apply Forall2_same_length_lookup_2; [done|].
    intros i x y Hx Hy. rewrite Hx in Hy. by injection Hy as ->. }
  unfold involved_addresses. rewrite Hv. cbn [result_bind]. eexists. split; [reflexivity|].
  intros a. rewrite elem_of_elements, elem_of_list_to_set, elem_of_app, <-list_fmap_compose.
  rewrite !list_elem_of_fmap. split.
  - intros [(o & -> & (k & Ho & Hk%elem_of_heights)%list_elem_of_bind)|
            (out & -> & (b & Ho & (k & -> & Hk%elem_of_heights)%list_elem_of_fmap)%list_elem_of_bind)];
      exists k; (split; [done|]); apply touched_coin; try lia; [right; eauto|left].
    apply elem_of_full_vouts in Ho; [eauto|lia].
  - intros (k & Hk & [(o & v & Hv' & <-)|(o & Ho & <-)]%touched_coin); [| |lia].
    + right. rewrite <-full_vouts in Hv' by lia.
      apply list_elem_of_fmap in Hv' as (out & [= -> ->] & Ho). exists out. split; [done|].
      apply list_elem_of_bind. exists (full_block k). split; [done|].
      apply list_elem_of_fmap. exists k. split; [done|]. by apply elem_of_heights.
    + left. exists o. split; [done|]. apply list_elem_of_bind. exists k. split; [done|]. by apply elem_of_heights.
Qed.

(** ** The balances before a batch *)

(** What an entry of the balances says of the height before a block. *)
Definition entry_ok (n : u32) (a : USDBScriptHash) (en : BalanceHistoryData) : Prop :=
  bd_balance en = balance_at chain a n ∧ 0 <= bd_block_height en <= n.
Definition balances_ok (n : u32) (bal : gmap USDBScriptHash BalanceHistoryData) : Prop :=
  map_Forall (entry_ok n) bal.

Lemma preload_balances_run b dk c d :
  seeded chain b (f - 1) (db dk) → caches_ok chain (f - 1) c →
  blocks d = full_block <$> heights f e → balances d = ∅ →
  ∃ bal, preload_balances dk c (f - 1) d = (Ok tt, set_balances bal d)
    ∧ balances_ok (f - 1) bal
    ∧ ∀ a, is_Some (bal !! a) ↔ ∃ k, f <= k <= e ∧ a ∈ touched chain k.
Proof.
  intros I Hc Hb He. destruct involved_run as (addrs & Ea & Ha).
  set (entry a := default (latest_at a (f - 1) (db dk)) (balance_cache c !! a)).
  assert (∀ a k, f <= k <= e → a ∈ touched chain k → entry_ok (f - 1) a (entry a)) as Hen.
  { intros a k Hk Ht. unfold entry. destruct (balance_cache c !! a) as [en|] eqn:E; [by apply Hc|].
    pose proof (valid_chain_le chain (f - 1) e V ltac:(lia)) as V1.
    pose proof (sd_base _ _ _ _ I).
    destruct (seeded_latest chain (f - 1) V1 b (db dk) I a (f - 1)); [by eapply touched_range|lia|]. by split. }
  set (l := order_by (be_bytes 32) false addrs).
  assert (∀ a, a ∈ l ↔ ∃ k, f <= k <= e ∧ a ∈ touched chain k) as Hl
    by (intros; unfold l; by rewrite elem_of_order_by).
  assert (∀ ks d, foldl (λ s a, set_balances (<[a := entry a]> (balances s)) s) d ks
                  = set_balances (put_all ((λ a, (a, entry a)) <$> ks) (balances d)) d) as Hfold.
  { induction ks as [|a ks IH]; intros d'; [by destruct d'|]. cbn. rewrite IH. by destruct d'. }
  exists (put_all ((λ a, (a, entry a)) <$> l) ∅). split; [|split].
  - unfold preload_balances. erewrite bind_run by reflexivity. rewrite Hb, Ea.
    erewrite bind_run by reflexivity. rewrite <-He, <-Hfold.
    apply (for_each_run l (preload_balance dk c (f - 1))). intros a s Hal.
    apply Hl in Hal as (k & Hk & Ht). pose proof (Hen a k Hk Ht) as [_ Hh].
    unfold preload_balance, balance_cache_get, entry in *.
    destruct (balance_cache c !! a) as [en|]; cbn in *.
    + rewrite (proj2 (Z.leb_le _ _)) by lia. done.
    + unfold bind, lift, get_balance_at_block_height, bind, reads, gets, assert. cbn.
      by rewrite (proj2 (Z.leb_le _ _)) by lia.
  - intros a en. rewrite put_all_fun, lookup_empty. destruct (decide (a ∈ l)) as [Ha'|]; [|done].
    intros [= <-]. apply Hl in Ha' as (k & Hk & Ht). by eapply Hen.
  - intros a. rewrite put_all_fun, lookup_empty, <-Hl. destruct (decide (a ∈ l)); [by split|].
    split; [by intros []|done].
Qed.

(** ** Rows of one block *)

(** What a transaction adds to the delta of a script hash, in the order of the code. *)
Definition tx_events (tx : Transaction) : list (USDBScriptHash * Z) :=
  ((λ o, (uv_script_hash (coin o), - uv_value (coin o))) <$> tx_inputs tx)
  ++ ((λ p, (uv_script_hash p.2, uv_value p.2)) <$> tx_outputs tx).
Definition block_events (k : u32) : list (USDBScriptHash * Z) := block_txs k ≫= tx_events.
Definition apply_event (k : u32) (m : gmap USDBScriptHash BalanceHistoryData) (ev : USDBScriptHash * Z) :
    gmap USDBScriptHash BalanceHistoryData :=
  add_delta k ev.1 (i64_wrap ev.2) (λ delta, i64_add delta ev.2) m.
Definition of_hash (a : USDBScriptHash) (ev : USDBScriptHash * Z) : Z := if ev.1 =? a then ev.2 else 0.

Lemma apply_event_ne k m ev a : a ≠ ev.1 → apply_event k m ev !! a = m !! a.
Proof. intros Hne. unfold apply_event, add_delta. destruct (m !! ev.1); by rewrite lookup_insert_ne. Qed.
Lemma events_lookup k evs a :
  foldl (apply_event k) ∅ evs !! a
  = if decide (a ∈ evs.*1)
    then Some {| bd_block_height := k; bd_delta := i64_wrap (total (of_hash a <$> evs)); bd_balance := 0 |}
    else None.
Proof.
  induction evs as [|[h x] evs IH] using rev_ind; [done|].
  rewrite foldl_app, !fmap_app, total_app. cbn -[lookup decide].
  assert (total (of_hash a <$> evs) = 0 ∨ a ∈ evs.*1) as Hz.
  { clear. induction evs as [|[h x] evs IH]; [by left|]. rewrite fmap_cons, total_cons. unfold of_hash at 1. cbn.
    destruct (h =? a) eqn:E; b2p; [right; subst; by left|]. destruct IH as [->|]; [by left|right; by right]. }
  unfold of_hash at 2. cbn [fst snd].
  destruct (decide (a = h)) as [->|Hne].
  - rewrite (decide_True (P := h ∈ evs.*1 ++ [h])) by set_solver. rewrite Z.eqb_refl.
    unfold apply_event at 1, add_delta. cbn [fst snd]. rewrite IH.
    destruct (decide (h ∈ evs.*1)) as [Hin|Hout]; rewrite lookup_insert_eq; do 2 f_equal; cbn.
    + unfold i64_add. rewrite i64_wrap_add. f_equal. unfold total at 3. cbn. lia.
    + destruct Hz as [->|]; [|done]. f_equal. unfold total. cbn. lia.
  - rewrite apply_event_ne, IH by done.
    rewrite (proj2 (Z.eqb_neq h a)) by congruence.
    destruct (decide (a ∈ evs.*1)) as [Hin|Hout].
    + rewrite decide_True by set_solver. do 3 f_equal. unfold total at 3. cbn. lia.
    + rewrite decide_False by set_solver. done.
Qed.

Lemma spent_block k tx o : tx ∈ block_txs k → o ∈ tx_inputs tx → o ∈ spent (block_txs k).
Proof. intros. apply list_elem_of_bind. eauto. Qed.
Lemma created_block k tx p : tx ∈ block_txs k → p ∈ tx_outputs tx → p ∈ created (block_txs k).
Proof. intros. apply list_elem_of_bind. eauto. Qed.

Lemma block_history_run k : 1 <= k <= e →
  block_history (full_block k) = Ok (foldl (apply_event k) ∅ (block_events k)).
Proof.
  intros Hk. unfold block_history.
  assert (∀ txs m, (∀ tx, tx ∈ txs → tx ∈ block_txs k) →
    for_each (full_tx chain e k <$> txs) (λ tx,
      let! _ := for_each (vin tx) (vin_delta k) in for_each (pt_vout tx) (vout_delta k)) m
    = (Ok tt, foldl (apply_event k) m (txs ≫= tx_events))) as Hrun.
  { induction txs as [|tx txs IH]; intros m Htx; [done|]. rewrite bind_cons, foldl_app.
    cbn [fmap list_fmap for_each]. specialize (Htx tx ltac:(by left)) as Ht.
    erewrite bind_run; [by apply IH; intros; apply Htx; by right|].
    unfold tx_events. rewrite foldl_app. erewrite bind_run.
    - cbn [full_tx pt_vout]. rewrite (for_each_run _ _ (λ out m, apply_event k m
        (uv_script_hash (po_cache_tx_out out), uv_value (po_cache_tx_out out)))).
      + rewrite <-(preload_vouts_outputs tx) by (eapply (vc_outputs _ _ V), block_in_chain; [|done]; lia).
        by rewrite <-list_fmap_compose, !foldl_fmap.
      + intros out m' Ho. unfold vout_delta, modify, apply_event. cbn [fst snd].
        apply list_elem_of_fmap in Ho as (p & -> & Hp).
        assert (0 <= uv_value (po_cache_tx_out p.1) <= I64_MAX) as Hr.
        { apply (created_range k (po_outpoint p.1)); [done|]. apply (created_block k tx); [done|].
          rewrite <-preload_vouts_outputs by (eapply (vc_outputs _ _ V), block_in_chain; [|done]; lia).
          apply list_elem_of_fmap. eauto. }
        rewrite u64_as_i64_id, i64_wrap_id by (unfold I64_MIN in *; lia). done.
    - cbn [full_tx vin]. rewrite (for_each_run _ _ (λ i m, apply_event k m
        (uv_script_hash (coin (vi_outpoint i)), - uv_value (coin (vi_outpoint i))))).
      + by rewrite !foldl_fmap.
      + intros i m' (o & -> & Ho)%list_elem_of_fmap. unfold vin_delta. erewrite bind_run by reflexivity.
        cbn. rewrite u64_as_i64_id; [done|]. apply (coin_range k); [done|]. by apply (spent_block k tx). }
  by rewrite (Hrun (block_txs k) ∅).
Qed.

Lemma events_touched k a : 1 <= k <= e → a ∈ (block_events k).*1 ↔ a ∈ touched chain k.
Proof.
  intros Hk. rewrite touched_coin by done. rewrite list_elem_of_fmap. unfold block_events. split.
  - intros (ev & -> & (tx & Hev & Htx)%list_elem_of_bind). unfold tx_events in Hev.
    apply elem_of_app in Hev as [(o & -> & Ho)%list_elem_of_fmap|([o v] & -> & Hv)%list_elem_of_fmap]; [right|left].
    + exists o. split; [|done]. by eapply spent_block.
    + exists o, v. split; [|done]. by eapply created_block.
  - intros [(o & v & (tx & Hv & Htx)%list_elem_of_bind & <-)|(o & (tx & Ho & Htx)%list_elem_of_bind & <-)].
    + exists (uv_script_hash v, uv_value v). split; [done|]. apply list_elem_of_bind. exists tx. split; [|done].
      apply elem_of_app. right. apply list_elem_of_fmap. by exists (o, v).
    + exists (uv_script_hash (coin o), - uv_value (coin o)). split; [done|]. apply list_elem_of_bind. exists tx.
      split; [|done]. apply elem_of_app. left. apply list_elem_of_fmap. by exists o.
Qed.
Lemma events_total k a : 1 <= k <= e →
  total (of_hash a <$> block_events k) = balance_at chain a k - balance_at chain a (k - 1).
Proof.
  intros Hk. rewrite (balance_step chain e V) by done.
  assert (∀ o, o ∈ spent (block_txs k) → of_hash a (uv_script_hash (coin o), - uv_value (coin o))
          = - from_option (amount a) 0 (coins (txs_to k) !! o)) as Hs.
  { intros o Ho. rewrite (proj2 (coin_spent k o (coin o) Hk Ho) eq_refl). unfold of_hash, amount. cbn.
    by destruct (_ =? a). }
  unfold block_events, received, paid. revert Hs. induction (block_txs k) as [|tx l IH]; intros Hs; [done|].
  change (created (tx :: l)) with (tx_outputs tx ++ created l) in *.
  change (spent (tx :: l)) with (tx_inputs tx ++ spent l) in *.
  rewrite bind_cons, !fmap_app, !total_app, IH by (intros; apply Hs, elem_of_app; by right).
  unfold tx_events. rewrite fmap_app, total_app.
  assert (total (of_hash a <$> ((λ p, (uv_script_hash p.2, uv_value p.2)) <$> tx_outputs tx))
          = total (amount a <$> (tx_outputs tx).*2)) as -> by by rewrite <-!list_fmap_compose.
  assert (total (of_hash a <$> ((λ o, (uv_script_hash (coin o), - uv_value (coin o))) <$> tx_inputs tx))
          = - total ((λ o, from_option (amount a) 0 (coins (txs_to k) !! o)) <$> tx_inputs tx)) as ->; [|lia].
  assert (∀ o, o ∈ tx_inputs tx → of_hash a (uv_script_hash (coin o), - uv_value (coin o))
          = - from_option (amount a) 0 (coins (txs_to k) !! o)) as Hs'
    by (intros; apply Hs, elem_of_app; by left).
  clear Hs IH. induction (tx_inputs tx) as [|o os IH]; [done|].
  rewrite !fmap_cons, !total_cons, Hs', IH by (by left || (intros; apply Hs'; by right)). lia.
Qed.

(** The entries of block [k]: the change of every touched script hash. *)
Definition block_hist (k : u32) : gmap USDBScriptHash BalanceHistoryData :=
  foldl (apply_event k) ∅ (block_events k).
Definition change (k : u32) (a : USDBScriptHash) : BalanceHistoryData :=
  {| bd_block_height := k; bd_delta := be_delta (chain_row chain k a); bd_balance := 0 |}.
Definition row (k : u32) (a : USDBScriptHash) : BalanceHistoryData :=
  {| bd_block_height := k; bd_delta := be_delta (chain_row chain k a); bd_balance := balance_at chain a k |}.

Lemma block_hist_lookup k a : 1 <= k <= e →
  block_hist k !! a = if decide (a ∈ touched chain k) then Some (change k a) else None.
Proof.
  intros Hk. unfold block_hist. rewrite events_lookup, events_total by done.
  pose proof (balance_range chain e V a k ltac:(lia)). pose proof (balance_range chain e V a (k - 1) ltac:(lia)).
  rewrite i64_wrap_id by (unfold I64_MIN, I64_MAX in *; lia).
  by rewrite (decide_ext _ (a ∈ touched chain k)) by by apply events_touched.
Qed.
Lemma block_hist_list k : 1 <= k <= e →
  ∃ l, map_to_list (block_hist k) = (λ a, (a, change k a)) <$> l ∧ l ≡ₚ elements (touched chain k).
Proof.
  intros Hk. exists (map_to_list (block_hist k)).*1. split.
  - rewrite <-list_fmap_compose. symmetry. etrans; [|apply list_fmap_id]. apply list_fmap_ext.
    intros i [a en] Ha%list_elem_of_lookup_2. apply elem_of_map_to_list in Ha.
    rewrite block_hist_lookup in Ha by done. destruct (decide _); [|done]. by injection Ha as <-.
  - apply NoDup_Permutation; [apply NoDup_fst_map_to_list|apply NoDup_elements|].
    intros a. rewrite elem_of_elements, list_elem_of_fmap. split.
    + intros ([a' en] & -> & Ha%elem_of_map_to_list). rewrite block_hist_lookup in Ha by done.
      by destruct (decide _).
    + intros Ha. exists (a, change k a). split; [done|]. apply elem_of_map_to_list.
      rewrite block_hist_lookup by done. by rewrite decide_True.
Qed.

(** ** Balances through the batch *)

Lemma update_run k l bal :
  1 <= k <= e → NoDup l → (∀ a, a ∈ l → is_Some (bal !! a)) → balances_ok (k - 1) bal →
  map_m ((λ a, (a, change k a)) <$> l) update_balance bal
  = (Ok ((λ a, (a, row k a)) <$> l), put_all ((λ a, (a, row k a)) <$> l) bal).
Proof.
  intros Hk Hnd Hin Hb.
  assert (∀ a, a ∈ l → ∃ en, bal !! a = Some en ∧ bd_balance en = balance_at chain a (k - 1)) as Hl.
  { intros a Ha. destruct (Hin a Ha) as [en E]. exists en. split; [done|]. by apply (Hb a en E). }
  clear Hin Hb. revert bal Hl. induction Hnd as [|a l Ha Hnd IH]; intros bal Hl; [done|].
  cbn [fmap list_fmap map_m]. destruct (Hl a ltac:(by left)) as (en & E & Eb).
  pose proof (balance_range chain e V a k ltac:(lia)). pose proof (balance_range chain e V a (k - 1) ltac:(lia)).
  assert (update_balance (a, change k a) bal = (Ok (a, row k a), <[a := row k a]> bal)) as Hu.
  { unfold update_balance. erewrite bind_run by reflexivity. cbn [fst snd]. rewrite E.
    erewrite bind_run by reflexivity. rewrite Eb, u64_as_i64_id by done.
    assert (i64_add (balance_at chain a (k - 1)) (bd_delta (change k a)) = balance_at chain a k) as ->.
    { unfold i64_add. cbn. rewrite i64_wrap_id; unfold I64_MIN in *; lia. }
    unfold assert. rewrite (proj2 (Z.leb_le _ _)) by lia. erewrite bind_run by reflexivity.
    unfold bind, modify, ret, row. cbn. rewrite i64_as_u64_id by (unfold I64_MAX, U64_MAX in *; lia). done. }
  rewrite (bind_run _ _ _ _ _ Hu). erewrite bind_run; [reflexivity|]. apply IH.
  intros b Hb. rewrite lookup_insert_ne by (intros ->; done). apply Hl. by right.
Qed.
Lemma balances_ok_step k l bal :
  1 <= k <= e → l ≡ₚ elements (touched chain k) → balances_ok (k - 1) bal →
  balances_ok k (put_all ((λ a, (a, row k a)) <$> l) bal).
Proof.
  intros Hk Hl Hb a en. rewrite put_all_fun. destruct (decide (a ∈ l)) as [Ha|Ha].
  - intros [= <-]. unfold entry_ok, row. cbn. split; [done|lia].
  - intros E. rewrite Hl, elem_of_elements in Ha. destruct (Hb a en E) as [E1 E2].
    split; [|lia]. rewrite E1. symmetry. by apply (balance_untouched chain e V).
Qed.

Lemma update_all (n : nat) : ∀ k bal,
  f <= k → k + Z.of_nat n = e + 1 → balances_ok (k - 1) bal →
  (∀ a j, f <= j <= e → a ∈ touched chain j → is_Some (bal !! a)) →
  ∃ hs bal', map_m (block_hist <$> heights k e) (λ h, map_m (map_to_list h) update_balance) bal = (Ok hs, bal')
    ∧ balances_ok e bal' ∧ (∀ a, is_Some (bal !! a) → is_Some (bal' !! a))
    ∧ Forall2 (λ j h, ∃ l, h = (λ a, (a, row j a)) <$> l ∧ l ≡ₚ elements (touched chain j)) (heights k e) hs.
Proof.
  induction n as [|n IH]; intros k bal Hk Hn Hb Hin.
  - rewrite heights_nil by lia. exists [], bal. split; [done|]. split; [|by split].
    by replace e with (k - 1) by lia.
  - rewrite heights_cons by lia. destruct (block_hist_list k) as (l & El & Hl); [lia|].
    destruct (IH (k + 1) (put_all ((λ a, (a, row k a)) <$> l) bal)) as (hs & bal' & E & Hb' & Hdom & Hhs); [lia|lia| | |].
    { replace (k + 1 - 1) with k by lia. apply balances_ok_step; [lia|done..]. }
    { intros a j Hj Ha. rewrite put_all_fun. destruct (decide _); [done|]. by apply (Hin a j). }
    exists (((λ a, (a, row k a)) <$> l) :: hs), bal'. split; [|split; [done|split; [|constructor; eauto]]].
    2: { intros a Ha. apply Hdom. rewrite put_all_fun. by destruct (decide _). }
    cbn [fmap list_fmap map_m]. erewrite bind_run; [by erewrite bind_run by exact E|].
    rewrite El. apply update_run; [lia| |intros a Ha; apply (Hin a k); [lia|]|done].
    + rewrite Hl. apply NoDup_elements.
    + by rewrite Hl, elem_of_elements in Ha.
Qed.

Lemma chain_rows_unique k x y :
  x ∈ chain_row chain k <$> elements (touched chain k) → y ∈ chain_row chain k <$> elements (touched chain k) →
  be_bytes 32 (be_script_hash x) = be_bytes 32 (be_script_hash y) → x = y.
Proof.
  intros (a & -> & Ha)%list_elem_of_fmap (b & -> & Hb)%list_elem_of_fmap E. rewrite elem_of_elements in *.
  assert (a = b) as ->; [|done]. by apply (be_bytes_inj 32); [eapply touched_range..|].
Qed.
Lemma balance_delta_chain k l :
  l ≡ₚ elements (touched chain k) → balance_delta (full_block k) ((λ a, (a, row k a)) <$> l) = chain_delta chain k.
Proof.
  intros Hl. unfold balance_delta, chain_delta. f_equal. rewrite <-list_fmap_compose.
  change (history_entry ∘ (λ a, (a, row k a))) with (chain_row chain k). apply order_by_unique.
  - by rewrite Hl.
  - intros x y Hx Hy. apply (chain_rows_unique k); by rewrite <-Hl.
Qed.

(** All rows of the batch. *)
Definition batch_rows : list BalanceHistoryEntry := heights f e ≫= λ k, dl_entries (chain_delta chain k).

Lemma process_run d :
  blocks d = full_block <$> heights f e → balances_ok (f - 1) (balances d) →
  (∀ a k, f <= k <= e → a ∈ touched chain k → is_Some (balances d !! a)) →
  balance_history d = [] → block_balance_deltas d = [] →
  ∃ bal, process d = (Ok tt, set_results bal (order_by entry_key false batch_rows)
                               (chain_delta chain <$> heights f e) d) ∧ balances_ok e bal
    ∧ ∀ a k, f <= k <= e → a ∈ touched chain k → is_Some (bal !! a).
Proof.
  intros Hb Hbal Hin Hh Hd.
  destruct (update_all (Z.to_nat (e + 1 - f)) f (balances d)) as (hs & bal & E & Hok & Hdom & Hhs); [lia|lia|done..|].
  exists bal. split; [|split; [done|intros; apply Hdom; by eapply Hin]]. unfold process. erewrite bind_run by reflexivity. cbn [id].
  assert (collect block_history (blocks d) = Ok (block_hist <$> heights f e)) as ->.
  { apply collect_Ok. rewrite Hb. apply Forall2_fmap, Forall_Forall2_diag, Forall_forall.
    intros k Hk%elem_of_heights. apply block_history_run. lia. }
  erewrite bind_run by reflexivity. rewrite E. erewrite bind_run by reflexivity. rewrite Hh, Hd.
  erewrite bind_run by reflexivity. erewrite bind_run by reflexivity. unfold modify. cbn [fst snd].
  assert (zip_with balance_delta (blocks d) hs = chain_delta chain <$> heights f e) as ->.
  { rewrite Hb. clear -Hhs BL. induction Hhs as [|k h ks hs (l & -> & Hl) _ IH]; [done|].
    cbn. rewrite IH. f_equal. by apply balance_delta_chain. }
  do 3 f_equal. unfold batch_rows. f_equal. clear. induction (heights f e) as [|k ks IH]; [done|].
  by rewrite fmap_cons, !bind_cons, IH.
Qed.

(** ** A loaded batch *)

Record loaded (d : BatchBlockData) : Prop := {
  ld_start : range_start d = f;
  ld_end : range_end d = e + 1;
  ld_blocks : blocks d = full_block <$> heights f e;
  ld_outs : marked chain f e (spent (batch_txs chain f e)) (vout_utxos d);
  ld_balances : balances_ok e (balances d);
  ld_dom a k : f <= k <= e → a ∈ touched chain k → is_Some (balances d !! a);
  ld_rows : balance_history d = order_by entry_key false batch_rows;
  ld_deltas : block_balance_deltas d = chain_delta chain <$> heights f e;
  ld_scripts : script_registry d = heights f e ≫= batch_scripts chain
}.

Lemma load_run b dk c :
  (∀ k, f <= k <= e → btc_get_block_by_height k = Ok (chain k)) →
  seeded chain b (f - 1) (db dk) → caches_ok chain (f - 1) c →
  ∃ d, (let! _ := preload dk c f (e + 1) in process) (new_batch f (e + 1)) = (Ok tt, d) ∧ loaded d.
Proof.
  intros Hcl I Hc. pose proof (vc_height _ _ V) as He.
  destruct (preprocess_all chain f e Hf V) as (d1 & E1 & Ed1).
  destruct (preload_all_utxos chain f e Hf Hfe V (db dk) c d1 (sd_utxos _ _ _ _ I) Hc) as (m & E2 & Hm).
  { rewrite Ed1. intros o. cbn. rewrite put_all_lookup by by eapply batch_outs_NoDup.
    rewrite (right_id_L ∅ (∪)). unfold out_map. destruct (list_to_map _ !! o) as [info|] eqn:E; [|done].
    apply (out_map_Some chain f e Hf V) in E as (k & _ & _ & ->). done. }
  set (d2 := set_blocks (full_block <$> heights f e) (set_vout_utxos m d1)).
  destruct (preload_balances_run b dk c d2 I Hc) as (bal & E3 & Hbal & Hdom); [done|by subst d2 d1|].
  destruct (process_run (set_balances bal d2)) as (bal' & E4 & Hbal' & Hdom'); [done|done| |by subst d2 d1..|].
  { intros a k Hk Ha. apply Hdom. eauto. }
  eexists. split.
  - erewrite bind_run; [exact E4|]. unfold preload. unfold assert at 1.
    rewrite (proj2 (Z.ltb_lt _ _)) by lia. erewrite bind_run by reflexivity.
    replace (e + 1 - 1) with e by lia.
    assert (collect (λ h, result_map (λ b, (h, b)) (btc_get_block_by_height h)) (heights f e)
            = Ok ((λ k, (k, chain k)) <$> heights f e)) as ->.
    { apply collect_Ok, Forall2_fmap_r, Forall_Forall2_diag, Forall_forall.
      intros k Hk%elem_of_heights. by rewrite Hcl. }
    erewrite bind_run by reflexivity. rewrite (bind_run _ _ _ _ _ E1), (bind_run _ _ _ _ _ E2).
    erewrite bind_run by reflexivity. rewrite (proj2 (Z.gtb_lt _ _)) by lia.
    unfold u32_sub. rewrite Z.mod_small by (unfold U32_MAX in *; lia). exact E3.
  - subst d2 d1. by split.
Qed.
End Process.
