(* ===== verification/BalanceFlush.v ===== *)
(** * What a batch writes

    The flush of a loaded batch: the write that brings the database to what the chain says of the
    last block, and the caches after it.  [process_blocks_indexed] joins the halves. *)

From S2P Require Import Prelude Encoding Types Tx BalanceCodec BalanceDb BalanceDbFacts BalanceBlock.
From S2P Require Import BalanceChain BalanceUndo BalanceBatch BalanceProcess BalanceDemo.

Section Flush.
Context {BC : BitcoinCrate} {BL : BitcoinCrateLaws} {CL : BTCClient} {LR : LruCrate} {LL : LruCrateLaws}.
Context (chain : u32 → BtcBlock).
Context (f e : u32) (Hf : 1 <= f) (Hfe : f <= e) (V : valid_chain chain e).
Context (d : BatchBlockData) (L : loaded chain f e d).

Abbreviation block_txs := (block_txs chain).
Abbreviation txs_to := (txs_to chain).
Abbreviation utxos := (utxos chain).
Abbreviation coin := (coin chain e).
Abbreviation full_block := (full_block chain e).
Abbreviation full_vin := (full_vin chain e).
Abbreviation batch_txs := (batch_txs chain f e).
Abbreviation out_map := (out_map chain f e).

(** ** Unspent outputs *)

Definition new_utxos : list (OutPoint * UTXOValue) := (collect_utxo_updates d).1.
Definition spent_utxos : list OutPoint := (collect_utxo_updates d).2.

Lemma elem_of_new o v : (o, v) ∈ new_utxos ↔ is_Some (out_map !! o) ∧ o ∉ spent batch_txs ∧ v = coin o.
Proof.
  unfold new_utxos, collect_utxo_updates. cbn [fst]. rewrite elem_of_order_by, list_elem_of_fmap. split.
  - intros ([o' info] & [= -> ->] & [Hs Hi%elem_of_map_to_list]%list_elem_of_filter). cbn in *.
    rewrite (ld_outs _ _ _ _ L) in Hi. destruct (out_map !! o') as [info'|] eqn:E; [|done].
    injection Hi as <-. cbn in *. apply bool_decide_eq_false in Hs.
    apply (out_map_Some chain f e Hf V) in E as (k & _ & _ & ->). by split_and!; [eexists| |].
  - intros ([info E] & Hs & ->). exists (o, mark false info). split.
    + apply (out_map_Some chain f e Hf V) in E as (k & _ & _ & ->). done.
    + apply list_elem_of_filter. split; [done|]. apply elem_of_map_to_list.
      rewrite (ld_outs _ _ _ _ L), E. by rewrite bool_decide_false.
Qed.
Lemma new_NoDup : NoDup new_utxos.*1.
Proof.
  unfold new_utxos, collect_utxo_updates. cbn [fst].
  rewrite order_by_Permutation, <-list_fmap_compose.
  eapply (sublist_NoDup _ (map_to_list (vout_utxos d)).*1); [apply NoDup_fst_map_to_list|].
  apply (fmap_sublist fst), sublist_filter.
Qed.
Lemma elem_of_spent_utxos o :
  o ∈ spent_utxos ↔ ∃ k, f <= k <= e ∧ o ∈ spent (block_txs k) ∧ o ∉ (created (block_txs k)).*1.
Proof.
  unfold spent_utxos, collect_utxo_updates. cbn [snd]. rewrite elem_of_order_by, list_elem_of_fmap.
  rewrite (ld_blocks _ _ _ _ L). split.
  - intros (i & -> & [Hn (b & Hi & (k & -> & Hk%elem_of_heights)%list_elem_of_fmap)%list_elem_of_bind]%list_elem_of_filter).
    rewrite full_vins in Hi. apply list_elem_of_fmap in Hi as (o & -> & Ho). cbn in *.
    apply bool_decide_eq_true in Hn. eauto.
  - intros (k & Hk & Ho & Hn). exists (full_vin k o). split; [done|]. apply list_elem_of_filter.
    split; [by apply bool_decide_true|]. apply list_elem_of_bind. exists (full_block k). split.
    + rewrite full_vins. by apply list_elem_of_fmap_2.
    + by apply list_elem_of_fmap_2, elem_of_heights.
Qed.

Lemma created_in_txs k o : 1 <= k <= e → o ∈ (created (block_txs k)).*1 →
  ∀ m, k <= m <= e → o ∈ (created (txs_to m)).*1.
Proof.
  intros Hk (p & -> & (tx & Hp & Htx)%list_elem_of_bind)%list_elem_of_fmap m Hm.
  apply list_elem_of_fmap_2, list_elem_of_bind. exists tx. split; [done|].
  apply list_elem_of_bind. exists k. split; [done|]. by apply elem_of_heights; lia.
Qed.
(** An output of the batch was neither created nor spent before it. *)
Lemma out_map_fresh o : is_Some (out_map !! o) → o ∉ (created (txs_to (f - 1))).*1.
Proof.
  intros [info E] Ho. apply (out_map_Some chain f e Hf V) in E as (k & Hk & Hok & _).
  apply (created_in_block chain e) in Ho as (j & Hj & Hoj); [|lia].
  pose proof (created_once chain e V j k o ltac:(lia) ltac:(lia) Hoj Hok). lia.
Qed.
Lemma coin_created o : o ∈ (created (txs_to e)).*1 → coins (txs_to e) !! o = Some (coin o).
Proof.
  intros Ho. unfold BalanceBatch.coin. destruct (coins _ !! o) eqn:E; [done|]. by apply coins_None in E.
Qed.

(** The two writes of the batch bring the outputs to the last block. *)
Lemma flushed_utxos : delete_all spent_utxos (put_all new_utxos (utxos (f - 1))) = utxos e.
Proof.
  apply map_eq. intros o. rewrite delete_all_lookup, (utxos_lookup chain e V e) by lia.
  pose proof (txs_to_batch chain f e Hf Hfe) as Eb.
  assert (o ∈ spent (txs_to e) ↔ o ∈ spent (txs_to (f - 1)) ∨ o ∈ spent batch_txs) as Hse
    by by rewrite Eb, spent_app, elem_of_app.
  destruct (decide (o ∈ spent_utxos)) as [Hs|Hs].
  { apply elem_of_spent_utxos in Hs as (k & Hk & Ho & _). rewrite decide_True; [done|]. apply Hse. right.
    by eapply block_spent_in_batch. }
  rewrite put_all_lookup, lookup_union by apply new_NoDup.
  destruct (out_map !! o) as [info|] eqn:Em.
  - pose proof (out_map_fresh o ltac:(by eexists)) as Hfr.
    assert (utxos (f - 1) !! o = None) as Hu.
    { rewrite (utxos_lookup chain e V) by lia. destruct (decide _); [done|]. by apply coins_None. }
    rewrite Hu, (right_id_L None (∪)).
    assert (o ∈ spent (txs_to e) ↔ o ∈ spent batch_txs) as Hse2.
    { rewrite Hse. split; [|tauto]. intros [Hx|]; [|done]. exfalso. apply Hfr.
      apply (spent_is_created chain e V); [lia|done]. }
    destruct (decide (o ∈ spent batch_txs)) as [Hb|Hb].
    + rewrite decide_True by tauto. apply not_elem_of_list_to_map_1.
      intros ([o' v] & -> & Ho)%list_elem_of_fmap. apply elem_of_new in Ho. tauto.
    + rewrite decide_False by tauto. rewrite coin_created.
      * apply elem_of_list_to_map_1; [apply new_NoDup|]. apply elem_of_new. split; [by eexists|done].
      * apply (out_map_Some chain f e Hf V) in Em as (k & Hk & Hok & _). eapply created_in_txs; [|done|]; lia.
  - assert (list_to_map (M := gmap OutPoint UTXOValue) new_utxos !! o = None) as ->.
    { apply not_elem_of_list_to_map_1. intros ([o' v] & -> & Ho)%list_elem_of_fmap.
      apply elem_of_new in Ho as [[x Hx] _]. cbn in *. congruence. }
    rewrite (left_id_L None (∪)), (utxos_lookup chain e V) by lia.
    assert (coins batch_txs !! o = None) as Hc.
    { apply coins_None. rewrite <-(batch_outs_fst chain f e). by apply not_elem_of_list_to_map_2. }
    assert (o ∉ spent batch_txs) as Hb.
    { intros (tx & Ho & (k & Htx & Hk%elem_of_heights)%list_elem_of_bind)%list_elem_of_bind.
      apply Hs, elem_of_spent_utxos. exists k. split; [done|]. split; [by apply (spent_block chain k tx)|].
      by apply (out_map_None chain f e). }
    rewrite (decide_ext (o ∈ spent (txs_to e)) (o ∈ spent (txs_to (f - 1)))) by tauto.
    destruct (decide _); [done|]. rewrite Eb, coins_app, lookup_union, Hc. by rewrite (right_id_L None (∪)).
Qed.

(** ** Caches *)

Lemma put_utxos_subseteq l : ∀ c m, utxo_cache c ⊆ m →
  utxo_cache (foldl (λ c p, utxo_cache_put p.1 p.2 c) c l) ⊆ put_all l m.
Proof.
  induction l as [|[o v] l IH]; intros c m Hc; [done|]. apply (IH _ (<[o:=v]> m)). cbn.
  etrans; [apply evict_utxos_subseteq|]. by apply insert_mono.
Qed.
Lemma spend_utxos_subseteq l : ∀ c m, utxo_cache c ⊆ m →
  utxo_cache (foldl (λ c o, utxo_cache_spend o c) c l) ⊆ delete_all l m.
Proof.
  induction l as [|o l IH]; intros c m Hc; [done|]. apply (IH _ (delete o m)). by apply delete_mono.
Qed.
Lemma utxos_keep_balances l l' : ∀ c,
  balance_cache (foldl (λ c o, utxo_cache_spend o c) (foldl (λ c p, utxo_cache_put p.1 p.2 c) c l) l')
  = balance_cache c.
Proof.
  intros c. transitivity (balance_cache (foldl (λ c p, utxo_cache_put p.1 p.2 c) c l)).
  - generalize (foldl (λ c p, utxo_cache_put p.1 p.2 c) c l). induction l' as [|o l' IH]; intros c'; [done|]. cbn. by rewrite IH.
  - revert c. induction l as [|p l IH]; intros c; [done|]. cbn. by rewrite IH.
Qed.
Lemma balances_keep_utxos l : ∀ c,
  utxo_cache (foldl (λ c kv, balance_cache_put kv.1 kv.2 c) c l) = utxo_cache c.
Proof. induction l as [|p l IH]; intros c; [done|]. cbn. by rewrite IH. Qed.
(** A cached balance was put there, or was there and no entry replaced it. *)
Lemma put_balances l : ∀ c a en,
  balance_cache (foldl (λ c kv, balance_cache_put kv.1 kv.2 c) c l) !! a = Some en →
  (a, en) ∈ l ∨ a ∉ l.*1 ∧ balance_cache c !! a = Some en.
Proof.
  induction l as [|[b x] l IH] using rev_ind; intros c a en; [cbn; intros E; right; split; [apply not_elem_of_nil|done]|].
  rewrite foldl_app, fmap_app, !elem_of_app, list_elem_of_singleton. cbn.
  set (c' := foldl _ _ _). intros E.
  assert ((a = b ∧ en = x) ∨ a ≠ b ∧ balance_cache c' !! a = Some en) as [[-> ->]|[Hne E']].
  { destruct (bd_balance x =? 0).
    - apply lookup_delete_Some in E as [? ?]. right. by split.
    - pose proof (lookup_weaken _ _ _ _ E (evict_balances_subseteq _)) as E1.
      apply lookup_insert_Some in E1 as [[-> ->]|[? ?]]; [by left|by right]. }
  - left. by right.
  - destruct (IH c a en E') as [?|[? ?]]; [by left; left|right; split; [|done]]. intros [?|?%list_elem_of_singleton]; done.
Qed.

Lemma flushed_caches c :
  caches_ok chain (f - 1) c → caches_ok chain e (apply_cache_updates d new_utxos spent_utxos c).
Proof.
  intros [Hu Hb]. unfold apply_cache_updates. split.
  - intros o v. rewrite balances_keep_utxos. intros E. rewrite <-flushed_utxos. eapply lookup_weaken; [exact E|].
    apply spend_utxos_subseteq, put_utxos_subseteq, map_subseteq_spec. exact Hu.
  - intros a en E. apply put_balances in E as [Ha|[Ha E]].
    + apply elem_of_map_to_list in Ha. by apply (ld_balances _ _ _ _ L).
    + rewrite utxos_keep_balances in E. destruct (Hb a en E) as [E1 E2]. split; [|lia]. rewrite E1. symmetry.
      apply (balance_constant chain e V); [lia|lia|]. intros k Hk Hx. apply Ha.
      destruct (ld_dom _ _ _ _ L a k) as [en' Hd]; [lia|done|].
      apply list_elem_of_fmap. exists (a, en'). split; [done|]. by apply elem_of_map_to_list.
Qed.

(** ** Commits *)

Lemma chain_commit_hash k : 1 <= k → cm_block_commit (chain_commit chain k) = commit_hash chain (Z.to_nat k).
Proof.
  intros Hk. destruct (Z.to_nat k) as [|n] eqn:E; [lia|]. cbn [commit_hash]. unfold chain_commit.
  replace (Z.to_nat (k - 1)) with n by lia. by replace (Z.of_nat (S n)) with k by lia.
Qed.
Lemma build_commits (n : nat) : ∀ k, 1 <= k → k + Z.of_nat n = e + 1 →
  build_block_commits (chain_delta chain <$> heights k e) (commit_hash chain (Z.to_nat (k - 1)))
  = chain_commit chain <$> heights k e.
Proof.
  induction n as [|n IH]; intros k Hk Hn; [by rewrite heights_nil by lia|].
  rewrite heights_cons by lia.
  change (chain_commit chain k :: build_block_commits (chain_delta chain <$> heights (k + 1) e)
            (cm_block_commit (chain_commit chain k))
          = chain_commit chain k :: (chain_commit chain <$> heights (k + 1) e)).
  rewrite chain_commit_hash, <-(IH (k + 1)) by lia. by replace (k + 1 - 1) with k by lia.
Qed.

Lemma collect_balance_run b db0 :
  seeded chain b (f - 1) db0 →
  collect_balance_updates (λ h, block_commits_cf db0 !! h) d
  = Ok (order_by entry_key false (batch_rows chain f e), chain_commit chain <$> heights f e, e).
Proof.
  intros I. pose proof (vc_height _ _ V) as He. unfold collect_balance_updates.
  rewrite (ld_start _ _ _ _ L), (ld_end _ _ _ _ L), (ld_rows _ _ _ _ L), (ld_deltas _ _ _ _ L).
  rewrite (proj2 (Z.eqb_neq _ _)) by lia. cbn [option_bind mbind].
  assert (resolve_previous_commit (Some (f - 1)) (block_commits_cf db0 !! (f - 1))
          = Ok (commit_hash chain (Z.to_nat (f - 1)))) as E.
  { unfold resolve_previous_commit. rewrite (sd_commits _ _ _ _ I). destruct (f - 1 =? 0) eqn:E0; b2p.
    - rewrite decide_False by lia. by rewrite E0.
    - rewrite decide_True by lia. cbn [fmap option_fmap option_map ok_or]. by rewrite chain_commit_hash by lia. }
  change (Some (f - 1) ≫= λ h, block_commits_cf db0 !! h) with (block_commits_cf db0 !! (f - 1)).
  rewrite E. cbn [result_bind]. rewrite (build_commits (Z.to_nat (e + 1 - f))) by lia.
  unfold u32_sub. rewrite Z.mod_small by (unfold U32_MAX in *; lia). by replace (e + 1 - 1) with e by lia.
Qed.

(** ** Scripts *)

Lemma push_scripts_run l : ∀ acc,
  (∀ x y, x ∈ acc ++ l → y ∈ acc ++ l → sre_script_hash x = sre_script_hash y → x = y) →
  ∃ r, foldl (λ acc entry, let? deduped := acc in push_script deduped entry) (Ok acc) l = Ok r
       ∧ ∀ x, x ∈ r ↔ x ∈ acc ++ l.
Proof.
  induction l as [|x l IH]; intros acc Hu; [exists acc; by rewrite app_nil_r|].
  assert (∃ acc', push_script acc x = Ok acc' ∧ ∀ y, y ∈ acc' ↔ y ∈ acc ++ [x]) as (acc' & E & Ha).
  { unfold push_script. destruct (last acc) as [p|] eqn:El; [|by eauto].
    destruct (_ =? _) eqn:Eh; b2p; [|by eauto]. apply last_Some in El as [acc0 El].
    assert (p = x) as -> by (apply Hu; [set_solver|set_solver|done]).
    rewrite bool_decide_true by done. exists acc. split; [done|]. set_solver. }
  destruct (IH acc') as (r & Er & Hr).
  - intros y z. rewrite !elem_of_app, !Ha. intros Hy Hz. apply Hu; set_solver.
  - exists r. split; [cbn; rewrite E; exact Er|]. intros y. rewrite Hr, !elem_of_app, Ha. set_solver.
Qed.

Lemma elem_of_batch_scripts k x :
  x ∈ batch_scripts chain k ↔ ∃ tx out, tx ∈ block_txs k ∧ out ∈ output tx ∧ is_op_return (script_pubkey out) = false
    ∧ x = {| sre_script_hash := to_usdb_script_hash (script_pubkey out); sre_script_pubkey := script_pubkey out |}.
Proof.
  unfold batch_scripts. rewrite list_elem_of_bind. split.
  - intros (tx & (p & -> & ([q|] & Hp & [= ->])%list_elem_of_omap)%list_elem_of_fmap & Htx).
    apply elem_of_lookup_imap in Hp as (i & out & E & Hi). destruct (is_op_return _) eqn:Eo; [done|].
    injection E as ->. exists tx, out. split_and!; [done|by eapply list_elem_of_lookup_2|done|done].
  - intros (tx & out & Htx & [i Hi]%list_elem_of_lookup_1 & Eo & ->). exists tx. split; [|done].
    apply list_elem_of_fmap. eexists (_, _). split; [reflexivity|]. apply list_elem_of_omap.
    exists (Some ({| po_outpoint := {| op_txid := compute_txid tx; vout := usize_as_u32 (Z.of_nat i) |};
              po_cache_tx_out := {| uv_script_hash := to_usdb_script_hash (script_pubkey out);
                                    uv_value := value out |} |},
            {| sre_script_hash := to_usdb_script_hash (script_pubkey out);
               sre_script_pubkey := script_pubkey out |})). split; [|done].
    apply elem_of_lookup_imap. exists i, out. split; [by rewrite Eo|done].
Qed.
Lemma collect_scripts_run :
  ∃ r, collect_script_registry_updates d = Ok r ∧ ∀ x, x ∈ r ↔ ∃ k, f <= k <= e ∧ x ∈ batch_scripts chain k.
Proof.
  unfold collect_script_registry_updates. rewrite (ld_scripts _ _ _ _ L).
  set (l := order_by _ _ _).
  assert (∀ x, x ∈ l ↔ ∃ k, f <= k <= e ∧ x ∈ batch_scripts chain k) as Hl.
  { intros x. unfold l. rewrite elem_of_order_by, list_elem_of_bind. setoid_rewrite elem_of_heights. naive_solver. }
  destruct (push_scripts_run l []) as (r & E & Hr).
  - intros x y. cbn [app]. rewrite !Hl. intros (k & Hk & Hx) (j & Hj & Hy) E.
    apply elem_of_batch_scripts in Hx as (tx1 & o1 & Ht1 & Ho1 & _ & ->).
    apply elem_of_batch_scripts in Hy as (tx2 & o2 & Ht2 & Ho2 & _ & ->). cbn in E.
    assert (script_pubkey o1 = script_pubkey o2) as ->; [|done].
    apply (vc_scripts _ _ V tx1 tx2); [eapply block_in_chain; [|done]; lia..|done|done|done].
  - exists r. split; [done|]. intros x. by rewrite Hr, app_nil_l.
Qed.

(** ** Undo bundles *)

Lemma undo_bundle_run k :
  f <= k <= e → undo_bundle (block_balance_deltas d) (full_block k) = Ok (chain_undo chain k).
Proof.
  intros Hk. unfold undo_bundle.
  assert (created_entry <$> (pb_txdata (full_block k) ≫= pt_vout) = undo_entry <$> created (block_txs k)) as Ec
    by (rewrite <-(full_vouts chain e V k), <-list_fmap_compose by lia; done).
  set (sp := (λ o, undo_entry (o, coin o)) <$> spent_before chain k).
  assert (collect spent_entry (filter (λ i, need_flush i = true) (pb_txdata (full_block k) ≫= vin)) = Ok sp) as ->.
  { rewrite full_vins. apply collect_Ok. unfold sp, spent_before.
    induction (spent (block_txs k)) as [|o os IH]; [constructor|]. rewrite fmap_cons, !filter_cons.
    cbn [need_flush BalanceBatch.full_vin]. destruct (decide (o ∉ _)) as [Ho|Ho].
    - rewrite decide_True by by apply bool_decide_true. by constructor.
    - rewrite decide_False; [done|]. by rewrite bool_decide_false. }
  cbn [result_bind]. unfold chain_undo. cbn [pb_height pb_block_hash BalanceBatch.full_block].
  assert (sp = omap (λ o, (λ v, undo_entry (o, v)) <$> coins (txs_to k) !! o) (spent_before chain k)) as Es.
  { unfold sp. assert (∀ o, o ∈ spent_before chain k → coins (txs_to k) !! o = Some (coin o)) as Hs.
    { intros o [_ Ho]%list_elem_of_filter. by apply (coin_spent chain e V k); [lia|..]. }
    induction (spent_before chain k) as [|o os IH]; [done|]. cbn. rewrite Hs by (by left). cbn. f_equal.
    apply IH. intros. apply Hs. by right. }
  rewrite Ec, <-Es. do 4 f_equal. apply set_eq. intros a.
  rewrite elem_of_list_to_set, !elem_of_app. split.
  - intros [Ha|[Ha|Ha]].
    + apply list_elem_of_fmap in Ha as (x & -> & ([o v] & -> & Ho)%list_elem_of_fmap).
      apply elem_of_touched. left. eauto.
    + apply list_elem_of_fmap in Ha as (x & -> & (o & -> & [_ Ho]%list_elem_of_filter)%list_elem_of_fmap).
      apply (touched_coin chain e V); [lia|]. right. eauto.
    + apply list_elem_of_bind in Ha as (dl & Ha & Hdl). destruct (_ =? _) eqn:E; [|by apply elem_of_nil in Ha].
      rewrite (ld_deltas _ _ _ _ L) in Hdl. apply list_elem_of_fmap in Hdl as (j & -> & _). apply Z.eqb_eq in E. cbn in E. subst j.
      apply list_elem_of_fmap in Ha as (x & -> & Hx).
      apply (elem_of_order_by _ false), list_elem_of_fmap in Hx as (b & -> & Hb). by apply elem_of_elements in Hb.
  - intros Ha. right. right. apply list_elem_of_bind. exists (chain_delta chain k). split.
    + change (a ∈ if k =? k then be_script_hash <$> dl_entries (chain_delta chain k) else []).
      rewrite Z.eqb_refl. apply list_elem_of_fmap. exists (chain_row chain k a). split; [done|].
      apply (elem_of_order_by _ false), list_elem_of_fmap_2. by apply elem_of_elements.
    + rewrite (ld_deltas _ _ _ _ L). by apply list_elem_of_fmap_2, elem_of_heights.
Qed.

(** The blocks of the batch whose undo data is kept. *)
Definition kept (latest keep : u32) : list u32 :=
  filter (λ k, should_persist_undo_for_block k latest keep = true) (heights f e).

Lemma collect_undo_run latest keep :
  collect_undo_bundles latest keep d = Ok (chain_undo chain <$> kept latest keep).
Proof.
  pose proof (vc_height _ _ V) as He. unfold collect_undo_bundles, kept.
  rewrite (ld_start _ _ _ _ L), (ld_end _ _ _ _ L), (ld_blocks _ _ _ _ L).
  destruct (should_persist_any_undo_for_range f (e + 1) latest keep) eqn:Ea; cbn [negb].
  - apply collect_Ok. assert (∀ k, k ∈ heights f e → f <= k <= e) as Hin by (intros; by apply elem_of_heights).
    induction (heights f e) as [|k ks IH]; [constructor|]. rewrite fmap_cons, !filter_cons.
    cbn [pb_height BalanceBatch.full_block]. specialize (IH ltac:(intros; apply Hin; by right)).
    destruct (decide _); [|done]. constructor; [|done]. apply undo_bundle_run, Hin. by left.
  - assert (filter (λ k, should_persist_undo_for_block k latest keep = true) (heights f e) = []) as ->; [|done].
    assert (∀ k, k ∈ heights f e → f <= k <= e) as Hin by (intros; by apply elem_of_heights).
    induction (heights f e) as [|k ks IH]; [done|]. rewrite filter_cons_False; [apply IH; intros; apply Hin; by right|].
    specialize (Hin k ltac:(by left)). unfold should_persist_any_undo_for_range in Ea.
    unfold should_persist_undo_for_block. rewrite Z.geb_leb in *.
    assert (u32_sub (e + 1) 1 = e) as Ee by (unfold u32_sub; rewrite Z.mod_small by (unfold U32_MAX in *; lia); lia).
    rewrite Ee in Ea. destruct (keep =? 0) eqn:Ek; [done|].
    rewrite (proj2 (Z.leb_gt (e + 1) f)), orb_false_l in Ea by lia. cbn in *.
    destruct (k >? latest) eqn:Ekl; [done|]. b2p. destruct Ea as [Ea|Ea]; b2p; [lia|]. intros; b2p; lia.
Qed.

(** ** The write *)

Lemma elem_of_batch_rows x :
  x ∈ batch_rows chain f e ↔ ∃ k a, f <= k <= e ∧ a ∈ touched chain k ∧ x = chain_row chain k a.
Proof.
  unfold batch_rows. rewrite list_elem_of_bind. setoid_rewrite elem_of_heights. split.
  - intros (k & Hx & Hk). apply (elem_of_order_by _ false), list_elem_of_fmap in Hx as (a & -> & Ha).
    exists k, a. by rewrite elem_of_elements in Ha.
  - intros (k & a & Hk & Ha & ->). exists k. split; [|done].
    apply (elem_of_order_by _ false), list_elem_of_fmap_2. by apply elem_of_elements.
Qed.
(** The rows of the batch join those of the blocks before it. *)
Lemma flushed_rows b (db0 : BalanceHistoryDB) a k :
  seeded chain b (f - 1) db0 →
  balance_history_cf (put_balance_entries (order_by entry_key false (batch_rows chain f e)) db0) !! (a, k)
  = if decide (b < k <= e ∧ a ∈ touched chain k)
    then Some (be_delta (chain_row chain k a), be_balance (chain_row chain k a)) else seed_row chain b a k.
Proof.
  intros I. pose proof (sd_base _ _ _ _ I) as Hb. cbn [put_balance_entries on_balance_history_cf balance_history_cf].
  set (l := _ <$> order_by _ _ _).
  assert (∀ a k v, (a, k, v) ∈ l ↔ f <= k <= e ∧ a ∈ touched chain k
            ∧ v = (be_delta (chain_row chain k a), be_balance (chain_row chain k a))) as Hl.
  { intros a' j v. unfold l. rewrite list_elem_of_fmap. setoid_rewrite elem_of_order_by.
    setoid_rewrite elem_of_batch_rows. split.
    - intros (x & [= -> -> ->] & (k' & b' & Hk & Ha & ->)). done.
    - intros (Hj & Ha & ->). exists (chain_row chain j a'). split; [done|]. eauto. }
  destruct (decide (f <= k)) as [Hk|Hk].
  - destruct (decide (b < k <= e ∧ a ∈ touched chain k)) as [[Hke Ha]|Hn].
    + apply put_all_agree; [intros v' Hv%Hl; by destruct Hv as (_ & _ & ->)|]. left. apply Hl. split; [lia|done].
    + rewrite put_all_out.
      * rewrite (sd_rows _ _ _ _ I). rewrite decide_False; [done|]. intros [? ?]. lia.
      * intros ([[a' j] v] & [= <- <-] & (Hj & Ha & _)%Hl)%list_elem_of_fmap. apply Hn. split; [lia|done].
  - rewrite put_all_out, (sd_rows _ _ _ _ I).
    + apply decide_ext. split; intros [? ?]; (split; [lia|done]).
    + intros ([[a' j] v] & [= <- <-] & (Hj & Ha & _)%Hl)%list_elem_of_fmap. lia.
Qed.
Lemma flushed_commits b (db0 : BalanceHistoryDB) k :
  seeded chain b (f - 1) db0 →
  block_commits_cf (put_block_commits (chain_commit chain <$> heights f e) db0) !! k
  = if decide (1 <= k <= e) then Some (chain_commit chain k) else None.
Proof.
  intros I. cbn. rewrite <-list_fmap_compose.
  change (put_all ((λ x, (x, chain_commit chain x)) <$> heights f e) (block_commits_cf db0) !! k
          = if decide (1 <= k <= e) then Some (chain_commit chain k) else None).
  rewrite put_all_fun, (sd_commits _ _ _ _ I). destruct (decide (k ∈ _)) as [Hk|Hk].
  - apply elem_of_heights in Hk. by rewrite decide_True by lia.
  - assert (¬ (f <= k <= e)) by by rewrite <-elem_of_heights. apply decide_ext. lia.
Qed.
Lemma flushed_scripts b (db0 : BalanceHistoryDB) r :
  seeded chain b (f - 1) db0 → (∀ x, x ∈ r ↔ ∃ k, f <= k <= e ∧ x ∈ batch_scripts chain k) →
  ∀ tx out, tx ∈ txs_to e → out ∈ output tx → is_op_return (script_pubkey out) = false →
  script_registry_cf (append_script_registry_entries_to_batch r db0) !! to_usdb_script_hash (script_pubkey out)
  = Some (script_pubkey out).
Proof.
  intros I Hr tx out Htx Hout Ho. cbn. apply put_all_agree.
  - intros s (x & [= E ->] & (k & Hk & Hx)%Hr)%list_elem_of_fmap.
    apply elem_of_batch_scripts in Hx as (tx' & out' & Htx' & Hout' & _ & ->). cbn in *.
    apply (vc_scripts _ _ V tx' tx); [eapply block_in_chain; [|done]; lia|done..].
  - rewrite (txs_to_split chain (f - 1) e) in Htx by lia. apply elem_of_app in Htx as [Htx|Htx].
    + right. by apply (sd_scripts _ _ _ _ I tx).
    + left. replace (f - 1 + 1) with f in Htx by lia.
      apply list_elem_of_bind in Htx as (k & Htx & Hk%elem_of_heights). apply list_elem_of_fmap.
      eexists {| sre_script_hash := to_usdb_script_hash (script_pubkey out); sre_script_pubkey := script_pubkey out |}.
      split; [done|]. apply Hr. exists k. split; [done|]. apply elem_of_batch_scripts. eauto 10.
Qed.

Definition batch_update (scripts : list ScriptRegistryEntry) (latest keep : u32) : BlockStateUpdateBatch :=
  {| up_new_utxos := new_utxos; up_remove_utxos := spent_utxos;
     up_entries_list := order_by entry_key false (batch_rows chain f e); up_block_height := e;
     up_block_commits := chain_commit chain <$> heights f e; up_script_registry_entries := scripts;
     up_undo_bundles := chain_undo chain <$> kept latest keep |}.

Lemma flushed_db b scripts latest keep s r db0 :
  seeded chain b (f - 1) db0 → (∀ x, x ∈ scripts ↔ ∃ k, f <= k <= e ∧ x ∈ batch_scripts chain k) →
  let db1 := block_state_batch (batch_update scripts latest keep) s r db0 in
  seeded chain b e db1
  ∧ (∀ k, is_Some (block_undo_meta_cf db1 !! k) ↔ k ∈ kept latest keep ∨ is_Some (block_undo_meta_cf db0 !! k))
  ∧ (∀ key, key ∈ rollback_keys → meta_cf db1 !! key = meta_cf db0 !! key).
Proof.
  intros I Hr db1. pose proof (vc_height _ _ V) as He.
  set (db2 := append_script_registry_entries_to_batch scripts (on_meta_cf (insert META_KEY_BTC_BLOCK_HEIGHT e)
    (put_block_commits (chain_commit chain <$> heights f e) (put_balance_entries
      (order_by entry_key false (batch_rows chain f e)) (on_utxo_cf (delete_all spent_utxos)
        (on_utxo_cf (put_all new_utxos) db0)))))).
  destruct (undo_append_all chain e V (kept latest keep) db2) as [U Hm].
  { apply NoDup_filter. apply heights_NoDup. }
  { intros k [_ Hk%elem_of_heights]%list_elem_of_filter. split; [lia|]. cbn. apply eq_None_not_Some.
    intros [m Em]. destruct (uo_some _ _ _ (sd_undo _ _ _ _ I) k m Em) as [? _]. lia. }
  { eapply undo_ok_ext; [..|apply (undo_ok_le chain (f - 1) e); [lia|apply (sd_undo _ _ _ _ I)]]; done. }
  set (db3 := append_block_undo_bundles_to_batch (chain_undo chain <$> kept latest keep) db2) in U, Hm.
  assert (∃ g, db1 = on_meta_cf g db3 ∧ ∀ m key, key ∈ META_KEY_BTC_BLOCK_HEIGHT :: rollback_keys →
            g m !! key = m !! key) as (g & Eg & Hg).
  { assert (db1 = match first_undo_height (chain_undo chain <$> kept latest keep) with
                  | None => db3
                  | Some first => put_if_none META_KEY_UNDO_RETAINED_FROM_HEIGHT r first
                                    (put_if_none META_KEY_ROLLBACK_SUPPORTED_FROM_HEIGHT s first db3)
                  end) as -> by reflexivity.
    destruct (first_undo_height _) as [h|]; [|exists id; by destruct db3].
    set (put_none key (o : option u32) (m : gmap string u32) := if bool_decide (o = None) then <[key := h]> m else m).
    exists (λ m, put_none META_KEY_UNDO_RETAINED_FROM_HEIGHT r (put_none META_KEY_ROLLBACK_SUPPORTED_FROM_HEIGHT s m)).
    split; [reflexivity|]. intros m key Hk. unfold put_none.
    assert (key ≠ META_KEY_UNDO_RETAINED_FROM_HEIGHT ∧ key ≠ META_KEY_ROLLBACK_SUPPORTED_FROM_HEIGHT) as [? ?].
    { split; intros ->; apply (bool_decide_eq_true_2 _) in Hk; vm_compute in Hk; done. }
    repeat case_bool_decide; by rewrite ?lookup_insert_ne. }
  destruct (append_bundles_frame (chain_undo chain <$> kept latest keep) db2) as (m & c & sp & bi & E).
  fold db3 in E. rewrite Eg. split; [|split].
  - pose proof (sd_base _ _ _ _ I). split.
    + lia.
    + cbn. rewrite Hg by (by left). rewrite E. cbn. by rewrite lookup_insert_eq.
    + cbn. rewrite E. cbn. rewrite (sd_utxos _ _ _ _ I). apply flushed_utxos.
    + intros a k. rewrite <-(flushed_rows b db0) by done. cbn. by rewrite E.
    + intros k. rewrite <-(flushed_commits b db0) by done. cbn. by rewrite E.
    + intros tx out Htx Hout Ho. rewrite <-(flushed_scripts b db0 scripts I Hr tx out) by done. cbn. by rewrite E.
    + eapply undo_ok_ext; [..|exact U]; done.
  - exact Hm.
  - intros key Hk. cbn. rewrite Hg by (by right). rewrite E. cbn. rewrite lookup_insert_ne; [done|].
    intros <-. apply (bool_decide_eq_true_2 _) in Hk; vm_compute in Hk; done.
Qed.

Lemma flush_run b dk c latest keep :
  seeded chain b (f - 1) (db dk) → caches_ok chain (f - 1) c →
  ∃ scripts s r, (∀ x, x ∈ scripts ↔ ∃ k, f <= k <= e ∧ x ∈ batch_scripts chain k)
  ∧ flush latest keep d {| disk := dk; caches := c |}
    = match writes_left dk with
      | Some O => (Err "Failed to write atomic block-state batch to DB", {| disk := dk; caches := c |})
      | w => (Ok tt, {| disk := {| db := block_state_batch (batch_update scripts latest keep) s r (db dk);
                                   writes_left := pred <$> w |};
                        caches := apply_cache_updates d new_utxos spent_utxos c |})
      end.
Proof.
  intros I Hc. destruct collect_scripts_run as (scripts & Es & Hs).
  exists scripts, (meta_cf (db dk) !! META_KEY_ROLLBACK_SUPPORTED_FROM_HEIGHT),
    (meta_cf (db dk) !! META_KEY_UNDO_RETAINED_FROM_HEIGHT). split; [done|].
  unfold flush. unfold new_utxos, spent_utxos. destruct (collect_utxo_updates d) as [nu su] eqn:Eu.
  erewrite bind_run by reflexivity. cbn [disk db]. rewrite (collect_balance_run b (db dk) I).
  erewrite bind_run by reflexivity. rewrite Es. erewrite bind_run by reflexivity.
  rewrite collect_undo_run. erewrite bind_run by reflexivity.
  unfold batch_update, new_utxos, spent_utxos. rewrite Eu. cbn [fst snd].
  unfold bind, on_disk, zoom, update_block_state_batch_async, bind, get_rollback_supported_from_height,
    get_undo_retained_from_height, get_u32_meta, reads, gets, write. cbn [disk].
  by destruct (writes_left dk) as [[|w]|].
Qed.
End Flush.

(** ** A batch *)

Section Batch.
Context {BC : BitcoinCrate} {BL : BitcoinCrateLaws} {CL : BTCClient} {LR : LruCrate} {LL : LruCrateLaws}.
Context (chain : u32 → BtcBlock).

(** [process_blocks] indexes the blocks [f] to [e], or does nothing when the write fails. *)
Lemma process_blocks_seeded b f e latest keep s :
  1 <= f <= e → valid_chain chain e → (∀ k, f <= k <= e → btc_get_block_by_height k = Ok (chain k)) →
  seeded chain b (f - 1) (db (disk s)) → caches_ok chain (f - 1) (caches s) →
  match process_blocks f (e + 1) latest keep s with
  | (Ok _, s') => seeded chain b e (db (disk s')) ∧ caches_ok chain e (caches s')
      ∧ writes_left (disk s') = pred <$> writes_left (disk s) ∧ writes_left (disk s) ≠ Some O
      ∧ (∀ k, is_Some (block_undo_meta_cf (db (disk s')) !! k)
              ↔ k ∈ kept f e latest keep ∨ is_Some (block_undo_meta_cf (db (disk s)) !! k))
      ∧ (∀ key, key ∈ rollback_keys → meta_cf (db (disk s')) !! key = meta_cf (db (disk s)) !! key)
  | (Err _, s') => s' = s ∧ writes_left (disk s) = Some O
  | (Panic _, _) => False
  end.
Proof.
  intros [Hf Hfe] V Hcl I Hc. destruct s as [dk c]. cbn [disk caches] in *.
  destruct (load_run chain f e Hf Hfe V b dk c Hcl I Hc) as (d & E & L).
  destruct (flush_run chain f e Hf Hfe V d L b dk c latest keep I Hc) as (scripts & sf & rf & Hs & Ef).
  unfold process_blocks. erewrite bind_run by reflexivity. cbn [id disk caches].
  rewrite E. cbn [fst snd]. erewrite bind_run by reflexivity. rewrite Ef.
  pose proof (flushed_db chain f e Hf Hfe V d L b scripts latest keep sf rf (db dk) I Hs) as (I1 & Hu & Hm).
  pose proof (flushed_caches chain f e Hf Hfe V d L c Hc) as Hc1.
  destruct (writes_left dk) as [[|w]|]; [done|by split_and!..].
Qed.

Lemma process_blocks_run f e latest keep s :
  1 <= f <= e → valid_chain chain e → (∀ k, f <= k <= e → btc_get_block_by_height k = Ok (chain k)) →
  indexed chain (f - 1) (db (disk s)) → caches_ok chain (f - 1) (caches s) →
  match process_blocks f (e + 1) latest keep s with
  | (Ok _, s') => indexed chain e (db (disk s')) ∧ caches_ok chain e (caches s')
      ∧ writes_left (disk s') = pred <$> writes_left (disk s) ∧ writes_left (disk s) ≠ Some O
      ∧ (∀ k, is_Some (block_undo_meta_cf (db (disk s')) !! k)
              ↔ k ∈ kept f e latest keep ∨ is_Some (block_undo_meta_cf (db (disk s)) !! k))
      ∧ (∀ key, key ∈ rollback_keys → meta_cf (db (disk s')) !! key = meta_cf (db (disk s)) !! key)
  | (Err _, s') => s' = s ∧ writes_left (disk s) = Some O
  | (Panic _, _) => False
  end.
Proof.
  intros Hf V Hcl I%seeded_0 Hc; [|lia]. pose proof (process_blocks_seeded 0 f e latest keep s Hf V Hcl I Hc) as H.
  destruct (process_blocks _ _ _ _ _) as [[u|er|er] s']; [|done|done].
  destruct H as (I' & H). split; [|done]. by apply seeded_0; [lia|].
Qed.

(** A batch that is written. *)
Lemma process_blocks_done f e latest keep s :
  1 <= f <= e → valid_chain chain e → (∀ k, f <= k <= e → btc_get_block_by_height k = Ok (chain k)) →
  indexed chain (f - 1) (db (disk s)) → caches_ok chain (f - 1) (caches s) → writes_left (disk s) = None →
  ∃ s', process_blocks f (e + 1) latest keep s = (Ok tt, s') ∧ indexed chain e (db (disk s'))
    ∧ caches_ok chain e (caches s') ∧ writes_left (disk s') = None.
Proof.
  intros Hf V Hcl I Hc Hw. pose proof (process_blocks_run f e latest keep s Hf V Hcl I Hc) as H.
  destruct (process_blocks _ _ _ _ _) as [[[]|er|er] s']; [|..|done].
  - destruct H as (I' & Hc' & W & _). rewrite Hw in W. eauto.
  - destruct H as [_ H]. congruence.
Qed.

(** The column families that the chain determines: balance rows, unspent outputs and commits. *)
Definition same_data (d1 d2 : BalanceHistoryDB) : Prop :=
  balance_history_cf d1 = balance_history_cf d2 ∧ utxo_cf d1 = utxo_cf d2
  ∧ block_commits_cf d1 = block_commits_cf d2.
Lemma indexed_unique n d1 d2 : indexed chain n d1 → indexed chain n d2 → same_data d1 d2.
Proof.
  intros I1 I2. unfold same_data. split_and!; [apply map_eq; intros [a k]; by rewrite (ix_rows _ _ _ I1), (ix_rows _ _ _ I2)|
    by rewrite (ix_utxos _ _ _ I1), (ix_utxos _ _ _ I2)|
    apply map_eq; intros k; by rewrite (ix_commits _ _ _ I1), (ix_commits _ _ _ I2)].
Qed.

(** C5. A batch [f..e] over a database that has indexed a valid chain up to [f - 1], with caches that
    hold nothing false and may have forgotten anything, either writes everything or nothing.  After
    it the database has indexed the chain up to [e] (unspent outputs, balance rows, the commit chain,
    scripts and undo bundles are those the chain determines), the caches are true at [e], and the
    undo journal has gained exactly the blocks inside the retention window.  It never panics: no
    double spend, no missing output and no negative balance is reported for a valid chain. *)
Theorem process_blocks_indexed f e latest keep s :
  1 <= f <= e → valid_chain chain e → (∀ k, f <= k <= e → btc_get_block_by_height k = Ok (chain k)) →
  indexed chain (f - 1) (db (disk s)) → caches_ok chain (f - 1) (caches s) →
  match process_blocks f (e + 1) latest keep s with
  | (Ok _, s') => indexed chain e (db (disk s')) ∧ caches_ok chain e (caches s')
      ∧ ∀ k, is_Some (block_undo_meta_cf (db (disk s')) !! k)
             ↔ k ∈ kept f e latest keep ∨ is_Some (block_undo_meta_cf (db (disk s)) !! k)
  | (Err _, s') => s' = s ∧ writes_left (disk s) = Some O
  | (Panic _, _) => False
  end.
Proof.
  intros Hf V Hcl I Hc. pose proof (process_blocks_run f e latest keep s Hf V Hcl I Hc) as H.
  destruct (process_blocks _ _ _ _ _) as [[u|er|er] s']; [|done..].
  by destruct H as (I' & Hc' & _ & _ & Hu & _).
Qed.

(** How the blocks are cut into batches, what the caches had kept and which retention applies do
    not matter: one batch [f..e], or [f..m] and then [m+1..e] over other caches, give the same balance
    rows, unspent outputs and commit chain. *)
Theorem batching_irrelevant f m e latest1 keep1 latest2 keep2 latest3 keep3 s1 s2 :
  1 <= f <= m → m < e → valid_chain chain e →
  (∀ k, f <= k <= e → btc_get_block_by_height k = Ok (chain k)) →
  indexed chain (f - 1) (db (disk s1)) → caches_ok chain (f - 1) (caches s1) → writes_left (disk s1) = None →
  indexed chain (f - 1) (db (disk s2)) → caches_ok chain (f - 1) (caches s2) → writes_left (disk s2) = None →
  let d1 := db (disk (process_blocks f (e + 1) latest1 keep1 s1).2) in
  let d2 := db (disk ((let! _ := process_blocks f (m + 1) latest2 keep2 in
                       process_blocks (m + 1) (e + 1) latest3 keep3) s2).2) in
  same_data d1 d2.
Proof.
  intros Hf Hm V Hcl I1 C1 W1 I2 C2 W2.
  destruct (process_blocks_done f e latest1 keep1 s1 ltac:(lia) V Hcl I1 C1 W1) as (s1' & -> & I1' & _).
  destruct (process_blocks_done f m latest2 keep2 s2 ltac:(lia) (valid_chain_le chain m e V ltac:(lia))
              ltac:(intros; apply Hcl; lia) I2 C2 W2) as (s2' & E2 & I2' & C2' & W2').
  replace m with (m + 1 - 1) in I2', C2' by lia.
  destruct (process_blocks_done (m + 1) e latest3 keep3 s2' ltac:(lia) V ltac:(intros; apply Hcl; lia) I2' C2' W2')
    as (s3' & E3 & I3' & _).
  rewrite (bind_run _ _ _ _ _ E2), E3. by apply (indexed_unique e).
Qed.
End Batch.

(** ** Witnesses *)

#[local] Existing Instances demo_crate demo_lru.
#[local] Instance demo_node : BTCClient := demo_client demo_chain 2.

Lemma process_blocks_indexed_witness :
  let s' := (process_blocks 1 3 2 2 demo_store).2 in
  indexed demo_chain 2 (db (disk s')) ∧ is_Some (block_undo_meta_cf (db (disk s')) !! 2)
  ∧ (λ v, uv_value v) <$> utxo_cf (db (disk s')) !! first_out 14 = Some 30.
Proof.
  pose proof (process_blocks_indexed (BL := demo_crate_laws) (LL := demo_lru_laws)
    demo_chain 1 2 2 2 demo_store) as H.
  specialize (H ltac:(lia) demo_chain_valid).
  specialize (H ltac:(intros k Hk; cbn; by rewrite (proj2 (Z.leb_le k 2)) by lia)).
  specialize (H (indexed_empty demo_chain) (no_caches_ok demo_chain 0)).
  change (2 + 1) with 3 in H. destruct (process_blocks 1 3 2 2 demo_store) as [[u|er|er] s'] eqn:E.
  - destruct H as (I & _ & Hu). cbn [snd]. split; [exact I|]. split.
    + apply Hu. left. by apply (bool_decide_unpack _); vm_compute.
    + rewrite (ix_utxos _ _ _ I). by vm_compute.
  - destruct H as [_ H]. discriminate H.
  - destruct H.
Defined.

Lemma batching_irrelevant_witness :
  let d1 := db (disk (process_blocks 1 3 2 2 demo_store).2) in
  let d2 := db (disk ((let! _ := process_blocks 1 2 2 0 in
                       process_blocks 2 3 2 5) demo_store).2) in
  utxo_cf d1 = utxo_cf d2.
Proof.
  apply (batching_irrelevant (BL := demo_crate_laws) (LL := demo_lru_laws)
    demo_chain 1 1 2 2 2 2 0 2 5 demo_store demo_store);
    [lia|lia|exact demo_chain_valid|intros k Hk; cbn; by rewrite (proj2 (Z.leb_le k 2)) by lia|
     exact (indexed_empty demo_chain)|exact (no_caches_ok demo_chain 0)|done|
     exact (indexed_empty demo_chain)|exact (no_caches_ok demo_chain 0)|done].
Defined.
