(* ===== verification/BalanceRollback.v ===== *)
(** * Rolling the database back

    [rollback_to_block_height] and [resume_rollback_if_needed] ([balance-history/src/db/db.rs]) over
    an indexed database: undoing a block leaves what the chain says of the block before it.  A
    rollback is a sequence of writes and may stop between any two of them; the theorems say in which
    states it stops and from which of them the resumption completes. *)

From S2P Require Import Prelude Encoding Types Tx BalanceCodec BalanceDb BalanceDbFacts BalanceBlock.
From S2P Require Import BalanceChain BalanceDemo BalanceUndo BalanceFlush.

Section Rollback.
Context {BC : BitcoinCrate} {BL : BitcoinCrateLaws} (chain : u32 → BtcBlock).

Abbreviation block_txs := (block_txs chain).
Abbreviation txs_to := (txs_to chain).
Abbreviation utxos := (utxos chain).

(** ** One block *)

Section Block.
Context (k : u32) (Hk : 1 <= k) (V : valid_chain chain k).

Lemma created_fresh o : o ∈ (created (block_txs k)).*1 → o ∉ (created (txs_to (k - 1))).*1.
Proof.
  intros Ho Hx. pose proof (lg_created _ (vc_ledger _ _ V)) as Hc.
  rewrite txs_to_last, created_app, fmap_app in Hc by done. apply NoDup_app in Hc as (_ & Hc & _). by apply (Hc o).
Qed.
Lemma spent_fresh o : o ∈ spent (block_txs k) → o ∉ spent (txs_to (k - 1)).
Proof.
  intros Ho Hx. pose proof (lg_spent _ (vc_ledger _ _ V)) as Hc.
  rewrite txs_to_last, spent_app in Hc by done. apply NoDup_app in Hc as (_ & Hc & _). by apply (Hc o).
Qed.
Lemma created_last o :
  o ∈ (created (txs_to k)).*1 ↔ o ∈ (created (txs_to (k - 1))).*1 ∨ o ∈ (created (block_txs k)).*1.
Proof. by rewrite txs_to_last, created_app, fmap_app, elem_of_app by done. Qed.
Lemma spent_last o : o ∈ spent (txs_to k) ↔ o ∈ spent (txs_to (k - 1)) ∨ o ∈ spent (block_txs k).
Proof. by rewrite txs_to_last, spent_app, elem_of_app by done. Qed.

(** The outputs that undoing the block restores. *)
Definition restored : list (OutPoint * UTXOValue) :=
  (λ en, (uu_outpoint en, {| uv_script_hash := uu_script_hash en; uv_value := uu_value en |}))
  <$> ub_spent_utxos (chain_undo chain k).
Lemma elem_of_restored o v :
  (o, v) ∈ restored ↔ o ∈ spent_before chain k ∧ coins (txs_to k) !! o = Some v.
Proof.
  unfold restored. rewrite list_elem_of_fmap. cbn [chain_undo ub_spent_utxos]. split.
  - intros (en & [= -> ->] & (o' & Ho & Hv)%list_elem_of_omap). destruct (coins _ !! o') as [w|] eqn:E; [|done].
    injection Hv as <-. cbn. split; [done|]. rewrite E. by destruct w.
  - intros [Ho Ev]. exists (undo_entry (o, v)). split; [by destruct v|]. apply list_elem_of_omap.
    exists o. split; [done|]. by rewrite Ev.
Qed.

Lemma undone_utxos :
  put_all restored (delete_all (uu_outpoint <$> ub_created_utxos (chain_undo chain k)) (utxos k)) = utxos (k - 1).
Proof.
  assert (∀ o, o ∈ uu_outpoint <$> ub_created_utxos (chain_undo chain k) ↔ o ∈ (created (block_txs k)).*1) as Hcr.
  { intros o. cbn. rewrite <-list_fmap_compose. done. }
  apply map_eq. intros o. pose proof (utxos_lookup chain k V (k - 1) o ltac:(lia)) as E1.
  destruct (decide (o ∈ spent_before chain k)) as [Hs|Hs].
  - pose proof Hs as [Hn Hsp]%list_elem_of_filter.
    destruct (input_coin chain k V k o ltac:(lia) Hsp) as (v & Ev & _).
    rewrite (put_all_agree _ _ o v).
    + rewrite E1, decide_False by by apply spent_fresh.
      assert (o ∈ (created (txs_to (k - 1))).*1) as Hc.
      { pose proof (input_is_created chain k V k o ltac:(lia) Hsp) as [?|?]%created_last; done. }
      by rewrite <-(coins_stable chain k (k - 1)) by (lia || done).
    + intros v' [_ Ev']%elem_of_restored. congruence.
    + left. by apply elem_of_restored.
  - rewrite put_all_out.
    2: { intros ([o' v] & -> & [Hx _]%elem_of_restored)%list_elem_of_fmap. done. }
    rewrite delete_all_lookup, (decide_ext _ _ _ _ (Hcr o)). rewrite E1.
    destruct (decide (o ∈ (created (block_txs k)).*1)) as [Hc|Hc].
    + apply created_fresh in Hc. destruct (decide _); [done|]. symmetry. by apply coins_None.
    + assert (o ∉ spent (block_txs k)) as Hsp by (intros Hx; apply Hs, list_elem_of_filter; by split).
      rewrite (utxos_lookup chain k V k) by lia.
      rewrite (decide_ext (o ∈ spent (txs_to k)) (o ∈ spent (txs_to (k - 1)))) by (rewrite spent_last; tauto).
      destruct (decide (o ∈ spent _)); [done|]. rewrite txs_to_last, coins_app, lookup_union by done.
      rewrite (proj1 (coins_None (block_txs k) o) Hc). by rewrite (right_id_L None (∪)).
Qed.

Lemma undone_indexed d :
  indexed chain k d → is_Some (block_undo_meta_cf d !! k) →
  indexed chain (k - 1) (undo_block (chain_undo chain k) k d d).
Proof.
  intros I Hm. split.
  - cbn. rewrite lookup_insert_eq. cbn. unfold u32_saturating_sub. lia.
  - cbn -[undo_entry]. rewrite (ix_utxos _ _ _ I). apply undone_utxos.
  - intros a j. change (delete_all ((λ h, (h, k)) <$> ub_touched_script_hashes (chain_undo chain k))
      (balance_history_cf d) !! (a, j) = if decide (1 <= j <= k - 1 ∧ a ∈ touched chain j)
      then Some (be_delta (chain_row chain j a), be_balance (chain_row chain j a)) else None).
    rewrite delete_all_lookup, (ix_rows _ _ _ I). cbn [chain_undo ub_touched_script_hashes].
    assert ((a, j) ∈ (λ h, (h, k)) <$> order_by (be_bytes 32) false (elements (touched chain k))
            ↔ j = k ∧ a ∈ touched chain k) as Hin.
    { rewrite list_elem_of_fmap. setoid_rewrite elem_of_order_by. setoid_rewrite elem_of_elements. naive_solver. }
    destruct (decide ((a, j) ∈ _)) as [Hx%Hin|Hx].
    + rewrite decide_False; [done|]. lia.
    + apply decide_ext. rewrite Hin in Hx. split; intros [? Ha]; (split; [|done]); [|lia].
      assert (j ≠ k) by (intros ->; by apply Hx). lia.
  - intros j. change (delete k (block_commits_cf d) !! j = if decide (1 <= j <= k - 1) then Some (chain_commit chain j) else None).
    destruct (decide (j = k)) as [->|Hne].
    + rewrite lookup_delete_eq. by rewrite decide_False by lia.
    + rewrite lookup_delete_ne, (ix_commits _ _ _ I) by done. apply decide_ext. lia.
  - intros tx out Htx. apply (ix_scripts _ _ _ I tx). rewrite txs_to_last by done. apply elem_of_app. by left.
  - pose proof (undo_delete chain k V d (ix_undo _ _ _ I) k d Hm (ix_undo _ _ _ I)) as [Us Un].
    split; [|exact Un]. intros j m Ej. destruct (Us j m Ej) as (Hj & H). split; [|exact H].
    assert (j ≠ k); [|lia]. intros ->. cbn in Ej. by rewrite lookup_delete_eq in Ej.
Qed.
End Block.

Lemma undo_block_meta bundle k seen d key :
  key ≠ META_KEY_BTC_BLOCK_HEIGHT → meta_cf (undo_block bundle k seen d) !! key = meta_cf d !! key.
Proof. intros Hk. cbn. by rewrite lookup_insert_ne. Qed.
(** The bundles of earlier blocks stay. *)
Lemma undo_block_journal bundle k seen d j :
  j ≠ k → block_undo_meta_cf (undo_block bundle k seen d) !! j = block_undo_meta_cf d !! j.
Proof. intros Hj. cbn. by rewrite lookup_delete_ne. Qed.

Lemma rollback_one_run k dk :
  1 <= k → valid_chain chain k → indexed chain k (db dk) → is_Some (block_undo_meta_cf (db dk) !! k) →
  rollback_one_block k dk = write "Failed to rollback block height" (undo_block (chain_undo chain k) k (db dk)) dk.
Proof.
  intros Hk V I Hm. unfold rollback_one_block. erewrite bind_run by reflexivity.
  rewrite (ix_height _ _ _ I), Z.eqb_refl. cbn [negb]. erewrite bind_run by reflexivity.
  rewrite (undo_bundle_read chain k V (db dk) (ix_undo _ _ _ I) k Hm). erewrite bind_run by reflexivity.
  by erewrite bind_run by reflexivity.
Qed.

(** ** The loop *)

(** The journal covers the blocks above the target, and the recorded bounds say so. *)
Record undoable (T k : u32) (d : BalanceHistoryDB) : Prop := {
  ud_supported s : meta_cf d !! META_KEY_ROLLBACK_SUPPORTED_FROM_HEIGHT = Some s → s <= T + 1;
  ud_retained : ∃ r, meta_cf d !! META_KEY_UNDO_RETAINED_FROM_HEIGHT = Some r ∧ r <= T + 1;
  ud_bundles j : T < j <= k → is_Some (block_undo_meta_cf d !! j)
}.
(** A database in the middle of a rollback to [T]: block [k] is the last one, the marker says [next]. *)
Record rolling (T k next : u32) (d : BalanceHistoryDB) : Prop := {
  rl_indexed : indexed chain k d;
  rl_undoable : undoable T k d;
  rl_progress : meta_cf d !! META_KEY_ROLLBACK_IN_PROGRESS = Some 1;
  rl_target : meta_cf d !! META_KEY_ROLLBACK_TARGET_HEIGHT = Some T;
  rl_next : meta_cf d !! META_KEY_ROLLBACK_NEXT_HEIGHT = Some next
}.
Definition writes_after (w : option nat) (n : nat) : option nat := (λ w, w - n)%nat <$> w.

Lemma indexed_meta k key v d :
  key ≠ META_KEY_BTC_BLOCK_HEIGHT → indexed chain k d → indexed chain k (on_meta_cf (insert key v) d)
                                   ∧ indexed chain k (on_meta_cf (delete key) d).
Proof.
  intros Hkey I. split; (split; [cbn|apply I..|eapply undo_ok_ext; [..|apply (ix_undo _ _ _ I)]; done]).
  - rewrite lookup_insert_ne by done. apply I.
  - rewrite lookup_delete_ne by done. apply I.
Qed.

Lemma undoable_meta T k key v d :
  key ≠ META_KEY_ROLLBACK_SUPPORTED_FROM_HEIGHT → key ≠ META_KEY_UNDO_RETAINED_FROM_HEIGHT →
  undoable T k d → undoable T k (on_meta_cf (insert key v) d).
Proof. intros H1 H2 [Hs Hr Hb]. split; [cbn; rewrite lookup_insert_ne by done..|]; done. Qed.
Lemma rolling_block T k d :
  1 <= k → T < k → valid_chain chain k → rolling T k k d →
  rolling T (k - 1) k (undo_block (chain_undo chain k) k d d).
Proof.
  intros Hk HT V [I Hu H1 H2 H3]. split.
  - apply undone_indexed; [done|done|done|]. apply (ud_bundles _ _ _ Hu). lia.
  - split; [intros s; rewrite undo_block_meta by done; apply Hu|rewrite undo_block_meta by done; apply Hu|].
    intros j Hj. rewrite undo_block_journal by lia. apply (ud_bundles _ _ _ Hu). lia.
  - by rewrite undo_block_meta.
  - by rewrite undo_block_meta.
  - by rewrite undo_block_meta.
Qed.
Lemma rolling_next T k next v d :
  rolling T k next d → rolling T k v (on_meta_cf (insert META_KEY_ROLLBACK_NEXT_HEIGHT v) d).
Proof.
  intros [I Hu H1 H2 H3]. split; [by apply indexed_meta|by apply undoable_meta|cbn..].
  - by rewrite lookup_insert_ne.
  - by rewrite lookup_insert_ne.
  - by rewrite lookup_insert_eq.
Qed.

(** One round of the loop: a write for the block, a write for the marker. *)
Lemma rollback_step T k dk :
  1 <= k → T < k → valid_chain chain k → rolling T k k (db dk) →
  let d1 := undo_block (chain_undo chain k) k (db dk) (db dk) in
  (let! _ := rollback_one_block k in put_u32_meta META_KEY_ROLLBACK_NEXT_HEIGHT (u32_sub k 1)) dk
  = match writes_left dk with
    | Some O => (Err "Failed to rollback block height", dk)
    | Some 1%nat => (Err "Failed to put meta key", {| db := d1; writes_left := Some O |})
    | w => (Ok tt, {| db := on_meta_cf (insert META_KEY_ROLLBACK_NEXT_HEIGHT (k - 1)) d1;
                      writes_left := writes_after w 2 |})
    end.
Proof.
  intros Hk HT V R d1. pose proof (vc_height _ _ V) as Hmax. destruct dk as [dd [[|[|w]]|]];
    unfold bind; rewrite rollback_one_run by (done || by apply R || (apply (ud_bundles _ _ _ (rl_undoable _ _ _ _ R)); lia)); [done..| |].
  all: unfold put_u32_meta, write; cbn; unfold u32_sub; rewrite Z.mod_small by (unfold U32_MAX in *; lia).
  all: rewrite ?Nat.sub_0_r; done.
Qed.

(** The loop ends at the target, or stops where a write fails: before a block, or after the block and
    before its marker. *)
Lemma rollback_blocks_run (m : nat) : ∀ T dk,
  0 <= T → valid_chain chain (T + Z.of_nat m) → rolling T (T + Z.of_nat m) (T + Z.of_nat m) (db dk) →
  match rollback_blocks (T + Z.of_nat m) T dk with
  | (Ok _, dk') => rolling T T T (db dk') ∧ writes_left dk' = writes_after (writes_left dk) (2 * m)
      ∧ (∀ w, writes_left dk = Some w → (2 * m <= w)%nat)
  | (Err _, dk') => writes_left dk' = Some O ∧ ∃ w, writes_left dk = Some w ∧ (w < 2 * m)%nat
      ∧ rolling T (T + Z.of_nat m - Z.of_nat (Nat.div2 (S w))) (T + Z.of_nat m - Z.of_nat (Nat.div2 w)) (db dk')
  | (Panic _, _) => False
  end.
Proof.
  induction m as [|m IH]; intros T dk HT V R.
  - unfold rollback_blocks. rewrite heights_nil by lia. cbn. rewrite Z.add_0_r in R.
    split; [done|]. unfold writes_after. destruct (writes_left dk); cbn; (split; [f_equal; lia || done|lia || done]).
  - set (k := T + Z.of_nat (S m)) in *. assert (k - 1 = T + Z.of_nat m) as Ek by lia.
    unfold rollback_blocks in *. rewrite (heights_snoc (T + 1) k) by lia. rewrite rev_app_distr. cbn [rev app for_each].
    pose proof (rolling_block T k (db dk) ltac:(lia) ltac:(lia) V R) as R1.
    pose proof (rollback_step T k dk ltac:(lia) ltac:(lia) V R) as E. cbv zeta in E.
    unfold bind at 1. rewrite E. clear E.
    specialize (IH T {| db := on_meta_cf (insert META_KEY_ROLLBACK_NEXT_HEIGHT (k - 1))
      (undo_block (chain_undo chain k) k (db dk) (db dk)); writes_left := writes_after (writes_left dk) 2 |} HT).
    rewrite Ek in R1, IH |- *. assert (0 <= T + Z.of_nat m <= k) as Hle by (clear IH; lia).
    specialize (IH (valid_chain_le chain _ k V Hle) (rolling_next _ _ _ _ _ R1)).
    cbn [db writes_left] in IH. destruct (writes_left dk) as [[|[|w]]|] eqn:Ew; cbn [fst snd].
    1: { split; [done|]. exists O. split; [done|]. split; [lia|]. cbn. by replace (k - Z.of_nat 0) with k by lia. }
    1: { split; [done|]. exists 1%nat. split; [done|]. split; [lia|]. cbn.
         replace (k - Z.of_nat 0) with k by lia. by replace (k - Z.of_nat 1) with (T + Z.of_nat m) by lia. }
    all: destruct (for_each _ _ _) as [[u|er|p] dk']; [|..|done].
    + destruct IH as (IH1 & IH2 & IH3). split; [done|]. split; [rewrite IH2; cbn; f_equal; lia|].
      intros w' [= <-]. specialize (IH3 w). cbn in IH3. rewrite Nat.sub_0_r in IH3. specialize (IH3 eq_refl). lia.
    + destruct IH as (IH1 & w' & Hw' & Hw & IH2). cbn in Hw'. rewrite Nat.sub_0_r in Hw'. injection Hw' as <-.
      split; [done|]. exists (S (S w)). split; [done|]. split; [lia|].
      change (Nat.div2 (S (S (S w)))) with (S (Nat.div2 (S w))). change (Nat.div2 (S (S w))) with (S (Nat.div2 w)).
      replace (k - Z.of_nat (S (Nat.div2 (S w)))) with (T + Z.of_nat m - Z.of_nat (Nat.div2 (S w))) by lia.
      by replace (k - Z.of_nat (S (Nat.div2 w))) with (T + Z.of_nat m - Z.of_nat (Nat.div2 w)) by lia.
    + destruct IH as (IH1 & IH2 & IH3). by split_and!.
    + by destruct IH as (IH1 & w' & ? & _).
Qed.
(** ** The whole rollback *)

Lemma ensure_bundles dk l :
  let body := λ height : u32,
    let! meta := get_block_undo_meta height in
    match meta with None => fail "Missing block undo bundle for the rollback" | Some _ => ret tt end in
  ∃ r, for_each l body dk = (r, dk) ∧ (r = Ok tt ↔ ∀ j, j ∈ l → is_Some (block_undo_meta_cf (db dk) !! j))
       ∧ ∀ e, r ≠ Panic e.
Proof.
  intros body. induction l as [|k l (r & E & IH & Hp)].
  - exists (Ok tt). split_and!; [done| |done]. split; [|done]. intros _ j Hj. by apply elem_of_nil in Hj.
  - cbn [for_each]. unfold bind, body at 1, bind, get_block_undo_meta, reads, gets.
    destruct (block_undo_meta_cf (db dk) !! k) as [x|] eqn:Ek.
    + cbn. rewrite E. exists r. split_and!; [done| |done]. rewrite IH. setoid_rewrite elem_of_cons. split.
      * intros H j [->|Hj]; [by rewrite Ek|by apply H].
      * intros H j Hj. apply H. by right.
    + eexists. split_and!; [done| |done]. split; [done|]. intros H. specialize (H k ltac:(by left)).
      rewrite Ek in H. by destruct H.
Qed.
(** The check reads only, and passes exactly when the journal covers the blocks. *)
Lemma ensure_run T n dk :
  0 <= T < n → n <= U32_MAX →
  ∃ r, ensure_rollback_undo_available T n dk = (r, dk) ∧ (r = Ok tt ↔ undoable T n (db dk)) ∧ ∀ e, r ≠ Panic e.
Proof.
  intros HT Hn. unfold ensure_rollback_undo_available.
  destruct (T >=? n) eqn:E; b2p; [lia|]. clear E.
  assert (u32_saturating_add T 1 = T + 1) as -> by (unfold u32_saturating_add; lia).
  rewrite (bind_run _ _ dk (meta_cf (db dk) !! META_KEY_ROLLBACK_SUPPORTED_FROM_HEIGHT) dk) by done.
  destruct (match meta_cf (db dk) !! META_KEY_ROLLBACK_SUPPORTED_FROM_HEIGHT with Some s => _ | None => _ end) eqn:Es.
  { eexists. split_and!; [done| |done]. split; [done|]. intros [Hs _ _].
    destruct (meta_cf _ !! _) as [s|]; [|done]. specialize (Hs s eq_refl). b2p. lia. }
  rewrite (bind_run _ _ dk (meta_cf (db dk) !! META_KEY_UNDO_RETAINED_FROM_HEIGHT) dk) by done.
  destruct (meta_cf (db dk) !! META_KEY_UNDO_RETAINED_FROM_HEIGHT) as [rf|] eqn:Er.
  2: { eexists. split_and!; [done| |done]. split; [done|]. intros [_ (r & Hr & _) _]. congruence. }
  destruct (T + 1 <? rf) eqn:Ef; b2p.
  { eexists. split_and!; [done| |done]. split; [done|]. intros [_ (r & Hr & ?) _]. rewrite Er in Hr. injection Hr as <-. lia. }
  destruct (ensure_bundles dk (heights (T + 1) n)) as (r & -> & Hr & Hp). exists r. split_and!; [done| |done].
  rewrite Hr. setoid_rewrite elem_of_heights. split.
  - intros H. split; [|by exists rf|intros j Hj; apply H; lia]. intros s Hs. rewrite Hs in Es. b2p. lia.
  - intros [_ _ H] j Hj. apply H. lia.
Qed.

(** No rollback is under way. *)
Definition no_rollback (d : BalanceHistoryDB) : Prop :=
  meta_cf d !! META_KEY_ROLLBACK_IN_PROGRESS = None ∧ meta_cf d !! META_KEY_ROLLBACK_TARGET_HEIGHT = None
  ∧ meta_cf d !! META_KEY_ROLLBACK_NEXT_HEIGHT = None.
(** What [w] writes of a rollback by [m] blocks leave. *)
Definition stopped (m w : nat) (T : u32) (d : BalanceHistoryDB) : Prop :=
  let n := T + Z.of_nat m in
  if decide (w = 0)%nat then indexed chain n d ∧ no_rollback d
  else if decide (w <= 2)%nat then
    indexed chain n d ∧ meta_cf d !! META_KEY_ROLLBACK_IN_PROGRESS = Some 1
    ∧ (meta_cf d !! META_KEY_ROLLBACK_TARGET_HEIGHT = None ∨ meta_cf d !! META_KEY_ROLLBACK_NEXT_HEIGHT = None)
  else if decide (w <= 2 * m + 3)%nat then
    rolling T (n - Z.of_nat (Nat.div2 (S (w - 3)))) (n - Z.of_nat (Nat.div2 (w - 3))) d
  else indexed chain T d ∧ meta_cf d !! META_KEY_ROLLBACK_IN_PROGRESS = None.

Lemma put_meta_run key v dk :
  put_u32_meta key v dk
  = match writes_left dk with
    | Some O => (Err "Failed to put meta key", dk)
    | w => (Ok tt, {| db := on_meta_cf (insert key v) (db dk); writes_left := pred <$> w |})
    end.
Proof. done. Qed.

Lemma clear_run T dk :
  rolling T T T (db dk) →
  match clear_rollback_state dk with
  | (Ok _, dk') => indexed chain T (db dk') ∧ no_rollback (db dk') ∧ writes_left dk' = writes_after (writes_left dk) 3
      ∧ (∀ w, writes_left dk = Some w → (3 <= w)%nat)
  | (Err _, dk') => writes_left dk' = Some O ∧ ∃ w, writes_left dk = Some w ∧ (w < 3)%nat
      ∧ if decide (w = 0)%nat then rolling T T T (db dk')
        else indexed chain T (db dk') ∧ meta_cf (db dk') !! META_KEY_ROLLBACK_IN_PROGRESS = None
  | (Panic _, _) => False
  end.
Proof.
  intros R. pose proof (rl_indexed _ _ _ _ R) as I. destruct dk as [d w]. cbn [db] in *.
  assert (∀ key d, key ∈ rollback_keys → indexed chain T d → indexed chain T (on_meta_cf (delete key) d)) as Hi.
  { intros key d' Hk I'. apply (indexed_meta T key 0); [|done]. intros ->. by apply (bool_decide_eq_true_2 _) in Hk. }
  unfold clear_rollback_state, delete_meta_key, bind, write. cbn [writes_left db].
  destruct w as [[|[|[|w]]]|]; cbn.
  - split; [done|]. exists O. split; [done|]. by split; [lia|].
  - split; [done|]. exists 1%nat. split; [done|]. split; [lia|]. split; [apply Hi; [by left|done]|].
    by rewrite lookup_delete_eq.
  - split; [done|]. exists 2%nat. split; [done|]. split; [lia|]. split; [apply Hi; [by right; left|apply Hi; [by left|done]]|].
    rewrite lookup_delete_ne by done. by rewrite lookup_delete_eq.
  - split; [apply Hi; [by right; right; left|apply Hi; [by right; left|apply Hi; [by left|done]]]|].
    split_and!; [..|unfold writes_after; cbn; f_equal; lia|intros ? [= <-]; lia].
    all: unfold no_rollback; cbn; repeat (rewrite lookup_delete_eq || rewrite lookup_delete_ne by done); done.
  - split; [apply Hi; [by right; right; left|apply Hi; [by right; left|apply Hi; [by left|done]]]|].
    split_and!; [..|done|done].
    all: unfold no_rollback; cbn; repeat (rewrite lookup_delete_eq || rewrite lookup_delete_ne by done); done.
Qed.

(** The loop and the clearing of the markers, from a database in the middle of a rollback. *)
Lemma finish_run (m : nat) T dk :
  0 <= T → valid_chain chain (T + Z.of_nat m) → rolling T (T + Z.of_nat m) (T + Z.of_nat m) (db dk) →
  match (let! _ := rollback_blocks (T + Z.of_nat m) T in clear_rollback_state) dk with
  | (Ok _, dk') => indexed chain T (db dk') ∧ no_rollback (db dk')
      ∧ writes_left dk' = writes_after (writes_left dk) (2 * m + 3)
      ∧ (∀ w, writes_left dk = Some w → (2 * m + 3 <= w)%nat)
  | (Err _, dk') => writes_left dk' = Some O ∧ ∃ w, writes_left dk = Some w ∧ (w < 2 * m + 3)%nat
      ∧ stopped m (w + 3) T (db dk')
  | (Panic _, _) => False
  end.
Proof.
  intros HT V R. pose proof (rollback_blocks_run m T dk HT V R) as H. unfold bind at 1.
  destruct (rollback_blocks _ _ _) as [[u|er|er] dk1]; [|..|done].
  - destruct H as (R1 & W1 & H1). pose proof (clear_run T dk1 R1) as H.
    destruct (clear_rollback_state dk1) as [[u'|er|er] dk2]; [|..|done].
    + destruct H as (I & Hn & W2 & H2). split; [done|]. split; [done|]. rewrite W2, W1. split.
      * unfold writes_after. destruct (writes_left dk); cbn; [f_equal; lia|done].
      * intros w Hw. specialize (H1 w Hw). rewrite W1, Hw in H2. specialize (H2 (w - 2 * m)%nat eq_refl). lia.
    + destruct H as (W2 & w2 & E2 & Hw2 & Hs). split; [done|].
      rewrite W1 in E2. destruct (writes_left dk) as [w|]; [|done]. injection E2 as <-.
      specialize (H1 w eq_refl). exists w. split; [done|]. split; [lia|]. unfold stopped.
      rewrite decide_False, decide_False by lia. destruct (decide (w = 2 * m)%nat) as [E0|E0].
      * rewrite decide_True in Hs by lia. rewrite decide_True by lia. replace (w + 3 - 3)%nat with (m + m)%nat by lia.
        replace (m + m)%nat with (2 * m)%nat by lia. rewrite Nat.div2_double, Nat.div2_succ_double.
        by replace (T + Z.of_nat m - Z.of_nat m) with T by lia.
      * rewrite decide_False in Hs by lia. by rewrite decide_False by lia.
  - destruct H as (W1 & w & Ew & Hw & R1). split; [done|]. exists w. split; [done|]. split; [lia|].
    unfold stopped. rewrite decide_False, decide_False, decide_True by lia. by replace (w + 3 - 3)%nat with w by lia.
Qed.

(** The markers that start a rollback. *)
Lemma rolling_started T n d : indexed chain n d → undoable T n d →
  rolling T n n (on_meta_cf (insert META_KEY_ROLLBACK_NEXT_HEIGHT n) (on_meta_cf (insert META_KEY_ROLLBACK_TARGET_HEIGHT T)
    (on_meta_cf (insert META_KEY_ROLLBACK_IN_PROGRESS 1) d))).
Proof.
  intros I U. split; [|do 3 (apply undoable_meta; [done|done|]); done|..].
  - do 3 (apply (indexed_meta n); [done|]). done.
  - cbn. rewrite !lookup_insert_ne by done. by rewrite lookup_insert_eq.
  - cbn. rewrite lookup_insert_ne by done. by rewrite lookup_insert_eq.
  - cbn. by rewrite lookup_insert_eq.
Qed.
Lemma rollback_run (m : nat) T dk :
  0 <= T → (0 < m)%nat → valid_chain chain (T + Z.of_nat m) → indexed chain (T + Z.of_nat m) (db dk) →
  no_rollback (db dk) → undoable T (T + Z.of_nat m) (db dk) →
  match rollback_to_block_height T dk with
  | (Ok _, dk') => indexed chain T (db dk') ∧ no_rollback (db dk')
      ∧ writes_left dk' = writes_after (writes_left dk) (2 * m + 6)
      ∧ (∀ w, writes_left dk = Some w → (2 * m + 6 <= w)%nat)
  | (Err _, dk') => writes_left dk' = Some O ∧ ∃ w, writes_left dk = Some w ∧ (w < 2 * m + 6)%nat
      ∧ stopped m w T (db dk')
  | (Panic _, _) => False
  end.
Proof.
  intros HT Hm V I (H1 & H2 & H3) He. set (n := T + Z.of_nat m) in *. pose proof (vc_height _ _ V) as Hn.
  destruct (ensure_run T n dk) as (r & E & Hr & _); [lia|lia|]. rewrite (proj2 Hr He) in E. clear Hr.
  unfold rollback_to_block_height. rewrite (bind_run _ _ dk n dk) by (by unfold get_btc_block_height, reads, gets; rewrite (ix_height _ _ _ I)).
  destruct (T >? n) eqn:Egt; b2p; [lia|]. destruct (T =? n) eqn:Eeq; b2p; [lia|]. rewrite (bind_run _ _ _ _ _ E).
  set (d3 := on_meta_cf (insert META_KEY_ROLLBACK_NEXT_HEIGHT n) (on_meta_cf (insert META_KEY_ROLLBACK_TARGET_HEIGHT T)
              (on_meta_cf (insert META_KEY_ROLLBACK_IN_PROGRESS 1) (db dk)))).
  assert (rolling T n n d3) as R by by apply rolling_started.
  destruct dk as [d w]. cbn [db writes_left] in *. unfold bind at 1. rewrite put_meta_run. cbn [writes_left db].
  destruct w as [[|w]|]; cbn [fmap option_fmap option_map pred].
  { split; [done|]. exists O. split; [done|]. split; [lia|]. by unfold stopped. }
  all: unfold bind at 1; rewrite put_meta_run; cbn [writes_left db]; try destruct w as [|w]; cbn [fmap option_fmap option_map pred].
  { split; [done|]. exists 1%nat. split; [done|]. split; [lia|]. unfold stopped. cbn.
    split; [by apply (indexed_meta n)|]. split; [by rewrite lookup_insert_eq|left]. by rewrite lookup_insert_ne. }
  all: unfold bind at 1; rewrite put_meta_run; cbn [writes_left db]; try destruct w as [|w]; cbn [fmap option_fmap option_map pred].
  { split; [done|]. exists 2%nat. split; [done|]. split; [lia|]. unfold stopped. cbn.
    split; [by do 2 (apply (indexed_meta n); [done|])|]. rewrite (lookup_insert_ne _ META_KEY_ROLLBACK_TARGET_HEIGHT META_KEY_ROLLBACK_IN_PROGRESS) by done.
    split; [by rewrite lookup_insert_eq|right]. by rewrite !lookup_insert_ne. }
  - change (match (let! _ := rollback_blocks n T in clear_rollback_state) {| db := d3; writes_left := Some w |} with
      | (Ok _, dk') => indexed chain T (db dk') ∧ no_rollback (db dk')
          ∧ writes_left dk' = writes_after (Some (S (S (S w)))) (2 * m + 6)
          ∧ (∀ w', Some (S (S (S w))) = Some w' → (2 * m + 6 <= w')%nat)
      | (Err _, dk') => writes_left dk' = Some O ∧ ∃ w', Some (S (S (S w))) = Some w' ∧ (w' < 2 * m + 6)%nat
          ∧ stopped m w' T (db dk')
      | (Panic _, _) => False
      end).
    pose proof (finish_run m T {| db := d3; writes_left := Some w |} HT V R) as H. fold n in H.
    destruct (bind _ _ _) as [[u|er|er] dk']; [|..|done].
    + destruct H as (I' & Hno & W & Hw). split_and!; [done|done| |].
      * rewrite W. unfold writes_after. cbn [writes_left fmap option_fmap option_map]. f_equal. lia.
      * intros w' [= <-]. specialize (Hw w eq_refl). lia.
    + destruct H as (W & w' & [= <-] & Hw & Hs). split; [done|]. exists (S (S (S w))). split; [done|]. split; [lia|].
      by replace (S (S (S w))) with (w + 3)%nat by lia.
  - pose proof (finish_run m T {| db := d3; writes_left := None |} HT V R) as H. fold n in H.
    match goal with |- context [bind ?a ?b ?c] => change (bind a b c) with
      ((let! _ := rollback_blocks n T in clear_rollback_state) {| db := d3; writes_left := None |}) end.
    destruct (bind _ _ _) as [[u|er|er] dk']; [|..|done].
    + destruct H as (I' & Hno & W & _). by split_and!.
    + by destruct H as (W & w' & ? & _).
Qed.

(** ** Resuming *)

Lemma resume_run (m : nat) T dk :
  0 <= T → valid_chain chain (T + Z.of_nat m) → rolling T (T + Z.of_nat m) (T + Z.of_nat m) (db dk) →
  match resume_rollback_if_needed dk with
  | (Ok b, dk') => b = true ∧ indexed chain T (db dk') ∧ no_rollback (db dk')
  | (Err _, dk') => writes_left dk' = Some O ∧ ∃ w, writes_left dk = Some w ∧ (w < 2 * m + 3)%nat
      ∧ stopped m (w + 3) T (db dk')
  | (Panic _, _) => False
  end.
Proof.
  intros HT V R. set (n := T + Z.of_nat m) in *. pose proof (vc_height _ _ V) as Hn.
  unfold resume_rollback_if_needed.
  rewrite (bind_run _ _ dk (Some 1) dk) by (unfold get_u32_meta, reads, gets; by rewrite (rl_progress _ _ _ _ R)).
  cbn [negb]. rewrite bool_decide_true by done. cbn [negb].
  rewrite (bind_run _ _ dk (Some T) dk) by (unfold get_u32_meta, reads, gets; by rewrite (rl_target _ _ _ _ R)).
  rewrite (bind_run _ _ dk T dk) by done.
  rewrite (bind_run _ _ dk (Some n) dk) by (unfold get_u32_meta, reads, gets; by rewrite (rl_next _ _ _ _ R)).
  rewrite (bind_run _ _ dk n dk) by done.
  rewrite (bind_run _ _ dk n dk) by (by unfold get_btc_block_height, reads, gets; rewrite (ix_height _ _ _ (rl_indexed _ _ _ _ R))).
  rewrite Z.eqb_refl. cbn [negb]. destruct (T >? n) eqn:E; b2p; [lia|].
  rewrite (bind_run _ _ dk tt dk).
  2: { destruct (decide (T < n)) as [Hlt|Hge].
       - destruct (ensure_run T n dk ltac:(lia) ltac:(lia)) as (r & -> & Hr & _).
         by rewrite (proj2 Hr (rl_undoable _ _ _ _ R)).
       - unfold ensure_rollback_undo_available. by destruct (T >=? n) eqn:Eg; b2p; [|lia]. }
  rewrite <-bind_assoc. pose proof (finish_run m T dk HT V R) as H. fold n in H. unfold bind at 1.
  destruct (bind _ _ _) as [[u|er|er] dk']; [|exact H|done]. cbn. split; [done|]. by destruct H as (? & ? & _).
Qed.

(** The markers that no resumption accepts. *)
Lemma resume_mismatch T k next dk :
  rolling T k next (db dk) → next ≠ k →
  resume_rollback_if_needed dk = (Err "Rollback resume state mismatch", dk).
Proof.
  intros R Hne. unfold resume_rollback_if_needed.
  rewrite (bind_run _ _ dk (Some 1) dk) by (unfold get_u32_meta, reads, gets; by rewrite (rl_progress _ _ _ _ R)).
  rewrite bool_decide_true by done. cbn [negb].
  rewrite (bind_run _ _ dk (Some T) dk) by (unfold get_u32_meta, reads, gets; by rewrite (rl_target _ _ _ _ R)).
  rewrite (bind_run _ _ dk T dk) by done.
  rewrite (bind_run _ _ dk (Some next) dk) by (unfold get_u32_meta, reads, gets; by rewrite (rl_next _ _ _ _ R)).
  rewrite (bind_run _ _ dk next dk) by done.
  rewrite (bind_run _ _ dk k dk) by (by unfold get_btc_block_height, reads, gets; rewrite (ix_height _ _ _ (rl_indexed _ _ _ _ R))).
  by rewrite (proj2 (Z.eqb_neq _ _)).
Qed.
Lemma resume_missing dk :
  meta_cf (db dk) !! META_KEY_ROLLBACK_IN_PROGRESS = Some 1 →
  meta_cf (db dk) !! META_KEY_ROLLBACK_TARGET_HEIGHT = None ∨ meta_cf (db dk) !! META_KEY_ROLLBACK_NEXT_HEIGHT = None →
  ∃ e, resume_rollback_if_needed dk = (Err e, dk).
Proof.
  intros H1 H2. unfold resume_rollback_if_needed.
  rewrite (bind_run _ _ dk (Some 1) dk) by (unfold get_u32_meta, reads, gets; by rewrite H1).
  rewrite bool_decide_true by done. cbn [negb]. unfold bind, get_u32_meta, reads, gets, lift.
  destruct (meta_cf (db dk) !! META_KEY_ROLLBACK_TARGET_HEIGHT) as [T|]; [|by eexists]. cbn.
  destruct H2 as [?| ->]; [done|by eexists].
Qed.
Lemma resume_none dk :
  meta_cf (db dk) !! META_KEY_ROLLBACK_IN_PROGRESS = None → resume_rollback_if_needed dk = (Ok false, dk).
Proof.
  intros H1. unfold resume_rollback_if_needed.
  rewrite (bind_run _ _ dk None dk) by (unfold get_u32_meta, reads, gets; by rewrite H1). done.
Qed.

(** The numbers of writes after which a stop cannot be resumed: before the markers are complete, and
    between a block and its marker. *)
Definition stuck (m w : nat) : bool :=
  (0 <? w)%nat && (w <=? 2)%nat || (3 <? w)%nat && (w <=? 2 * m + 3)%nat && Nat.even w.

Lemma div2_odd_even w : Nat.div2 (S w) = if Nat.even w then Nat.div2 w else S (Nat.div2 w).
Proof.
  revert w. fix IH 1. intros [|[|w]]; [done..|].
  change (Nat.div2 (S (S (S w)))) with (S (Nat.div2 (S w))). change (Nat.div2 (S (S w))) with (S (Nat.div2 w)).
  change (Nat.even (S (S w))) with (Nat.even w). rewrite IH. by destruct (Nat.even w).
Qed.

Lemma resume_stopped (m w : nat) T d :
  0 <= T → valid_chain chain (T + Z.of_nat m) → stopped m w T d →
  let out := resume_rollback_if_needed {| db := d; writes_left := None |} in
  if stuck m w then (∃ e, out.1 = Err e) ∧ db out.2 = d
  else is_ok out.1 = true ∧ meta_cf (db out.2) !! META_KEY_ROLLBACK_IN_PROGRESS = None
       ∧ indexed chain (if decide (w = 0)%nat then T + Z.of_nat m else T) (db out.2).
Proof.
  intros HT V Hs out. unfold stopped in Hs. unfold stuck.
  destruct (decide (w = 0)%nat) as [->|H0].
  { unfold out. destruct Hs as (I & Hno & _). by rewrite resume_none. }
  rewrite (proj2 (Nat.ltb_lt 0 w)) by lia. destruct (decide (w <= 2)%nat) as [H2|H2].
  { rewrite (proj2 (Nat.leb_le w 2)) by done. cbn [andb orb]. unfold out. destruct Hs as (_ & Hp & Hm).
    destruct (resume_missing {| db := d; writes_left := None |} Hp Hm) as [er ->]. split; [by eexists|done]. }
  rewrite (proj2 (Nat.leb_gt w 2)) by lia. cbn [andb orb].
  destruct (decide (w <= 2 * m + 3)%nat) as [H3|H3].
  - rewrite (proj2 (Nat.leb_le _ _)) by done. rewrite div2_odd_even in Hs.
    assert (Nat.div2 (w - 3) <= m)%nat as Hd.
    { rewrite <-(Nat.div2_succ_double m). apply Nat.div2_le_mono. lia. }
    destruct w as [|[|[|w]]]; [lia..|]. replace (S (S (S w)) - 3)%nat with w in Hs, Hd by lia.
    change (Nat.even (S (S (S w)))) with (Nat.even (S w)). rewrite Nat.even_succ, <-Nat.negb_even.
    destruct (Nat.even w) eqn:Ew; cbn [negb].
    + rewrite andb_false_r. revert Hs Hd. generalize (Nat.div2 w). intros q Hs Hd.
      assert (∃ m', m' = m - q)%nat as [m' Em] by eauto.
      replace (T + Z.of_nat m - Z.of_nat q) with (T + Z.of_nat m') in Hs by lia.
      pose proof (resume_run m' T {| db := d; writes_left := None |} HT) as H.
      assert (0 <= T + Z.of_nat m' <= T + Z.of_nat m) as Hle by lia.
      specialize (H (valid_chain_le chain _ _ V Hle) Hs). fold out in H. destruct out as [[b|er|er] dk'].
      * destruct H as (-> & I & Hno & _). done.
      * destruct H as (_ & w' & ? & _). done.
      * done.
    + assert (3 < S (S (S w)))%nat as Hlt by (destruct w; [done|lia]).
      rewrite (proj2 (Nat.ltb_lt _ _)) by done. cbn [andb]. unfold out. rewrite (resume_mismatch _ _ _ {| db := d; writes_left := None |} Hs) by (generalize (Nat.div2 w); lia).
      split; [by eexists|done].
  - rewrite (proj2 (Nat.leb_gt _ _)) by lia. rewrite andb_false_r. unfold out. destruct Hs as [I Hp].
    by rewrite resume_none.
Qed.

(** ** Theorems *)

(** C10. A rollback from an indexed database to an earlier height, no other being under way.  When the
    journal does not cover the blocks in between, or its recorded bounds exclude them, the call is
    refused and nothing changes.  Otherwise it undoes the blocks one by one and ends with a database
    that has indexed the chain up to the target, with no marker left: what those blocks added to the
    unspent outputs, the balance rows, the commits and the journal is gone, what they spent is
    back. *)
Theorem rollback_restores_height T n dk :
  0 <= T < n → valid_chain chain n → indexed chain n (db dk) → no_rollback (db dk) → writes_left dk = None →
  match rollback_to_block_height T dk with
  | (Ok _, dk') => undoable T n (db dk) ∧ indexed chain T (db dk') ∧ no_rollback (db dk')
  | (Err _, dk') => ¬ undoable T n (db dk) ∧ dk' = dk
  | (Panic _, _) => False
  end.
Proof.
  intros HT V I Hno Hw. pose proof (vc_height _ _ V) as Hn.
  destruct (ensure_run T n dk ltac:(lia) ltac:(lia)) as (r & E & Hr & Hp). destruct r as [[]|er|er]; [| |by destruct (Hp er)].
  - pose proof (proj1 Hr eq_refl) as Hu. replace n with (T + Z.of_nat (Z.to_nat (n - T))) in * by lia.
    pose proof (rollback_run (Z.to_nat (n - T)) T dk ltac:(lia) ltac:(lia) V I Hno Hu) as H.
    destruct (rollback_to_block_height T dk) as [[u|er|er] dk']; [|..|done].
    + destruct H as (? & ? & _). done.
    + destruct H as (_ & w & Ew & _). congruence.
  - assert (rollback_to_block_height T dk = (Err er, dk)) as ->.
    { unfold rollback_to_block_height.
      rewrite (bind_run _ _ dk n dk) by (by unfold get_btc_block_height, reads, gets; rewrite (ix_height _ _ _ I)).
      destruct (T >? n) eqn:Eg; b2p; [lia|]. destruct (T =? n) eqn:Ee; b2p; [lia|]. by apply bind_run_Err. }
    split; [|done]. intros Hu%Hr. done.
Qed.

(** C20. A rollback by [m] blocks that stops after [w] of its [2m + 6] writes, and the resumption at
    the next start.  Unless [w] is one of the stuck positions, the resumption succeeds, clears the
    marker and reaches the target (or, when nothing was written, leaves the database as it was).  At
    the stuck positions, which are those before the three markers are complete and those between the
    undoing of a block and the update of its marker, the resumption returns an error and changes
    nothing, so that every later start fails the same way. *)
Theorem rollback_crash_resume (m w : nat) T d :
  0 <= T → (0 < m)%nat → (w < 2 * m + 6)%nat → valid_chain chain (T + Z.of_nat m) →
  indexed chain (T + Z.of_nat m) d → no_rollback d → undoable T (T + Z.of_nat m) d →
  let d1 := db (rollback_to_block_height T {| db := d; writes_left := Some w |}).2 in
  let out := resume_rollback_if_needed {| db := d1; writes_left := None |} in
  if stuck m w then (∃ e, out.1 = Err e) ∧ db out.2 = d1
  else is_ok out.1 = true ∧ meta_cf (db out.2) !! META_KEY_ROLLBACK_IN_PROGRESS = None
       ∧ indexed chain (if decide (w = 0)%nat then T + Z.of_nat m else T) (db out.2).
Proof.
  intros HT Hm Hw V I Hno Hu d1. unfold d1.
  pose proof (rollback_run m T {| db := d; writes_left := Some w |} HT Hm V I Hno Hu) as H.
  destruct (rollback_to_block_height _ _) as [[u|er|er] dk]; [|..|done].
  - destruct H as (_ & _ & _ & H). specialize (H w eq_refl). lia.
  - destruct H as (_ & w' & [= <-] & _ & Hs). by apply (resume_stopped m w T).
Qed.
End Rollback.

(** ** Witnesses *)

Section Witness.
#[local] Existing Instances demo_crate demo_lru.
#[local] Instance demo_node : BTCClient := demo_client demo_chain 2.

(** The database of the two blocks, with both bundles kept. *)
Definition demo_indexed : BalanceHistoryDB := db (disk (process_blocks 1 3 2 2 demo_store).2).
Lemma demo_undoable : undoable 1 2 demo_indexed.
Proof.
  split.
  - intros s. vm_compute. by intros [= <-].
  - exists 1. split; [by vm_compute|lia].
  - intros j Hj. replace j with 2 by lia. vm_compute. by eexists.
Qed.
Lemma demo_indexed_ok : indexed demo_chain 2 demo_indexed ∧ no_rollback demo_indexed.
Proof.
  split; [|by vm_compute].
  destruct (process_blocks_done (BL := demo_crate_laws) (LL := demo_lru_laws) demo_chain 1 2 2 2 demo_store)
    as (s' & E & I & _); [lia|exact demo_chain_valid| |exact (indexed_empty demo_chain)|exact (no_caches_ok demo_chain 0)|done|].
  - intros k Hk. cbn. by rewrite (proj2 (Z.leb_le k 2)) by lia.
  - unfold demo_indexed. change (2 + 1) with 3 in E. by rewrite E.
Qed.

Lemma rollback_restores_height_witness :
  is_ok (rollback_to_block_height 1 {| db := demo_indexed; writes_left := None |}).1 = true
  ∧ indexed demo_chain 1 (db (rollback_to_block_height 1 {| db := demo_indexed; writes_left := None |}).2).
Proof.
  pose proof (rollback_restores_height (BL := demo_crate_laws) demo_chain 1 2 {| db := demo_indexed; writes_left := None |}
    ltac:(lia) demo_chain_valid (proj1 demo_indexed_ok) (proj2 demo_indexed_ok) eq_refl) as H.
  destruct (rollback_to_block_height _ _) as [[u|er|er] dk'].
  - by destruct H as (_ & ? & _).
  - destruct H as [H _]. destruct (H demo_undoable).
  - destruct H.
Defined.

(** The stop between the undoing of the block and its marker. *)
Lemma rollback_crash_resume_witness :
  let d1 := db (rollback_to_block_height 1 {| db := demo_indexed; writes_left := Some 4%nat |}).2 in
  (∃ e, (resume_rollback_if_needed {| db := d1; writes_left := None |}).1 = Err e)
  ∧ db (resume_rollback_if_needed {| db := d1; writes_left := None |}).2 = d1.
Proof.
  exact (rollback_crash_resume (BL := demo_crate_laws) demo_chain 1 4 1 demo_indexed ltac:(lia) ltac:(lia) ltac:(lia)
    demo_chain_valid (proj1 demo_indexed_ok) (proj2 demo_indexed_ok) demo_undoable).
Defined.
End Witness.
