(* ===== verification/BalanceIndexer.v ===== *)
(** * The balance-history indexer

    [balance-history/src/index/indexer.rs]: the search for the height where the local chain leaves
    the canonical one, the rollback to it, and the batches up to the stable height.  Messages to the
    output are left out; the rollback flag of its status is kept, the RPC service reads it.  One
    iteration sees one node: the client does not change while it runs. *)

From S2P Require Import Prelude Encoding Types Tx BalanceCodec BalanceDb BalanceBlock.

(** The fields of the sync configuration that the loop reads. *)
Record SyncConfig := {
  cfg_batch_size : Z;
  cfg_max_sync_block_height : u32;
  cfg_undo_retention_blocks : u32;
  cfg_undo_cleanup_interval_blocks : u32
}.
Definition BALANCE_HISTORY_STABLE_LAG : u32 := 0.

Record IndexerState := { store : Store; status_rollback_in_progress : bool }.
Definition on_store {A} (m : M Store A) : M IndexerState A :=
  zoom store (λ t s, {| store := t; status_rollback_in_progress := status_rollback_in_progress s |}) m.
Definition on_db {A} (m : M Disk A) : M IndexerState A := on_store (on_disk m).
Definition set_rollback_in_progress (b : bool) : M IndexerState unit :=
  modify (λ s, {| store := store s; status_rollback_in_progress := b |}).
(** [utxo_cache.clear()] and [balance_cache.clear()] *)
Definition clear_caches : M IndexerState unit := on_store (on_caches (λ _, no_caches)).

Definition compute_stable_sync_target_height (rpc_tip_height max_sync_block_height stable_lag : u32) : u32 :=
  Z.min max_sync_block_height (u32_saturating_sub rpc_tip_height stable_lag).

Section Indexer.
Context `{BitcoinCrate} `{BTCClient} `{LruCrate} (config : SyncConfig).

(** ** Detecting a reorganisation *)

(** [for height in (1..=search_start_height).rev()] *)
Fixpoint search_ancestor (candidates : list u32) : M Disk (option u32) :=
  match candidates with
  | [] => ret (Some 0)
  | height :: candidates =>
      let! found := get_block_commit height in
      let! local_commit := lift (ok_or "Missing local block commit while searching reorg common ancestor" found) in
      let! canonical_hash := lift (btc_get_block_hash height) in
      if decide (cm_btc_block_hash local_commit = canonical_hash) then ret (Some height)
      else search_ancestor candidates
  end.
Definition find_reorg_common_ancestor_height (current_height latest_btc_height : u32) :
    M Disk (option u32) :=
  if current_height =? 0 then ret None
  else
    let! tip_agrees :=
      if latest_btc_height >=? current_height then
        let! found := get_block_commit current_height in
        let! local_tip_commit := lift (ok_or "Missing local block commit while checking for reorg" found) in
        let! canonical_tip_hash := lift (btc_get_block_hash current_height) in
        ret (bool_decide (cm_btc_block_hash local_tip_commit = canonical_tip_hash))
      else ret false in
    if (tip_agrees : bool) then ret None
    else search_ancestor (rev (heights 1 (Z.min current_height latest_btc_height))).

Definition should_wake_for_chain_update (last_height latest_height : u32) : M Disk bool :=
  if negb (latest_height =? last_height) || (last_height =? 0) then ret (negb (latest_height =? last_height))
  else
    let! found := get_block_commit last_height in
    let! local_tip_commit := lift (ok_or "Missing local block commit while waiting for chain updates" found) in
    let! canonical_tip_hash := lift (btc_get_block_hash last_height) in
    ret (negb (bool_decide (cm_btc_block_hash local_tip_commit = canonical_tip_hash))).

Definition get_latest_block_height : result u32 :=
  let? rpc_latest_block_height := btc_get_latest_block_height in
  Ok (compute_stable_sync_target_height rpc_latest_block_height (cfg_max_sync_block_height config)
        BALANCE_HISTORY_STABLE_LAG).

(** ** One iteration *)

Definition resume_pending_rollback_if_needed : M IndexerState bool :=
  let! in_progress := on_db is_rollback_in_progress in
  let! _ := if (in_progress : bool) then set_rollback_in_progress true else ret tt in
  let! resumed := on_db resume_rollback_if_needed in
  let! _ := set_rollback_in_progress false in
  let! _ := if (resumed : bool) then clear_caches else ret tt in
  ret resumed.

Definition reconcile_reorg_if_needed (current_height latest_btc_height : u32) : M IndexerState u32 :=
  let! found := on_db (find_reorg_common_ancestor_height current_height latest_btc_height) in
  match found with
  | None => ret current_height
  | Some ancestor_height =>
      let! _ := set_rollback_in_progress true in
      let! _ := on_db (rollback_to_block_height ancestor_height) in
      let! _ := set_rollback_in_progress false in
      let! _ := clear_caches in
      ret ancestor_height
  end.

Definition prune_undo_journal_if_needed (batch_start_height last_height : u32) : M IndexerState unit :=
  let retention_blocks := cfg_undo_retention_blocks config in
  let cleanup_interval_blocks := cfg_undo_cleanup_interval_blocks config in
  if (retention_blocks =? 0) || (cleanup_interval_blocks =? 0) then ret tt
  else
    let previous_height := u32_saturating_sub batch_start_height 1 in
    let previous_bucket := previous_height / cleanup_interval_blocks in
    let current_bucket := last_height / cleanup_interval_blocks in
    if current_bucket =? previous_bucket then ret tt
    else
      let! latest_btc_height := lift get_latest_block_height in
      let hot_window_start := u32_saturating_sub latest_btc_height (u32_saturating_sub retention_blocks 1) in
      if last_height <? hot_window_start then ret tt
      else
        let min_retained_height := u32_saturating_sub last_height (u32_saturating_sub retention_blocks 1) in
        let! _ := on_db (prune_undo_before_height min_retained_height) in
        ret tt.

(** The range [first..last] without its end; the last height processed. *)
Definition process_block_batch (first last latest_btc_height : u32) : M IndexerState u32 :=
  let! _ := assert (first <? last) "Height range should not be empty" in
  let! _ := on_store (process_blocks first last latest_btc_height (cfg_undo_retention_blocks config)) in
  let last_height := u32_sub last 1 in
  let! _ := prune_undo_journal_if_needed first last_height in
  ret last_height.

(** [while current_height <= latest_btc_height]: the height after the last block processed.
    [check_shutdown] is asked after the batch that ends at a height. *)
Fixpoint sync_batches (fuel : nat) (check_shutdown : u32 → bool) (latest_btc_height current_height : u32) :
    M IndexerState u32 :=
  match fuel with
  | O => ret current_height
  | S fuel =>
      if current_height <=? latest_btc_height then
        let end_height := Z.min (u32_sub (u32_add current_height (usize_as_u32 (cfg_batch_size config))) 1)
                            latest_btc_height in
        let! last_height := process_block_batch current_height (u32_add end_height 1) latest_btc_height in
        let current_height := u32_add last_height 1 in
        if check_shutdown last_height then ret current_height
        else sync_batches fuel check_shutdown latest_btc_height current_height
      else ret current_height
  end.

(** [self.db.flush_all()]: RocksDB writes its memory tables, the content stays. *)
Definition flush_all : M Disk unit := write "Failed to flush RocksDB" id.

Definition sync_once (check_shutdown : u32 → bool) : M IndexerState u32 :=
  let! _ := resume_pending_rollback_if_needed in
  let! latest_btc_height := lift get_latest_block_height in
  let! last_synced_height := on_db get_btc_block_height in
  let! last_synced_height := reconcile_reorg_if_needed last_synced_height latest_btc_height in
  if latest_btc_height <=? last_synced_height then ret last_synced_height
  else
    let! current_height := sync_batches (Z.to_nat (latest_btc_height - last_synced_height)) check_shutdown
                             latest_btc_height (u32_add last_synced_height 1) in
    let! _ := on_db flush_all in
    ret (u32_sub current_height 1).
End Indexer.
