(* ===== verification/BalanceSync.v ===== *)
(** * The indexer follows the canonical chain

    What [sync_once] ([BalanceIndexer]) reaches: whatever chain the database held, after an iteration
    against a node it is the database of the node's chain.  The local chain and the node's share
    their blocks up to any height where their hashes agree. *)

From S2P Require Import Prelude Encoding Types Tx BalanceCodec BalanceDb BalanceDbFacts BalanceBlock.
From S2P Require Import BalanceChain BalanceDemo BalanceUndo BalanceBatch BalanceProcess BalanceFlush BalanceRollback.
From S2P Require Import BalanceIndexer.

(** ** Chains that agree *)

Section Agree.
Context {BC : BitcoinCrate} (chain chain' : u32 → BtcBlock).

Definition agree (n : u32) : Prop := ∀ j, 1 <= j <= n → chain j = chain' j.

Lemma agree_le m n : m <= n → agree n → agree m.
Proof. intros Hm A j Hj. apply A. lia. Qed.
Lemma agree_txs n k : agree n → k <= n → txs_to chain k = txs_to chain' k.
Proof.
  intros A Hk. unfold txs_to, block_txs.
  assert (∀ ks, (∀ j, j ∈ ks → 1 <= j <= n) → ks ≫= (λ k, block_txdata (chain k)) = ks ≫= (λ k, block_txdata (chain' k))) as Hb.
  { induction ks as [|j ks IH]; intros Hks; [done|]. rewrite !bind_cons, IH by (intros; apply Hks; by right).
    by rewrite (A j) by (apply Hks; by left). }
  apply Hb. intros j Hj%elem_of_heights. lia.
Qed.
Lemma agree_touched n k : agree n → 1 <= k <= n → touched chain k = touched chain' k.
Proof. intros A Hk. unfold touched, block_txs. rewrite (A k) by done. by rewrite (agree_txs n) by (done || lia). Qed.
Lemma agree_balance n a k : agree n → k <= n → balance_at chain a k = balance_at chain' a k.
Proof. intros A Hk. unfold balance_at, utxos. by rewrite (agree_txs n). Qed.
Lemma agree_chain_row n a k : agree n → 1 <= k <= n → chain_row chain k a = chain_row chain' k a.
Proof. intros A Hk. unfold chain_row. by rewrite !(agree_balance n) by (done || lia). Qed.
Lemma agree_delta n k : agree n → 1 <= k <= n → chain_delta chain k = chain_delta chain' k.
Proof.
  intros A Hk. unfold chain_delta. rewrite (A k) by done. rewrite (agree_touched n) by done. do 2 f_equal.
  apply list_fmap_ext. intros i a _. by apply (agree_chain_row n).
Qed.
Lemma agree_commit_hash n (m : nat) : agree n → Z.of_nat m <= n → commit_hash chain m = commit_hash chain' m.
Proof.
  intros A. induction m as [|m IH]; intros Hm; [done|]. cbn [commit_hash].
  rewrite IH by lia. by rewrite (agree_delta n) by (done || lia).
Qed.
Lemma agree_commit n k : agree n → 1 <= k <= n → chain_commit chain k = chain_commit chain' k.
Proof.
  intros A Hk. unfold chain_commit. rewrite (agree_delta n) by done. by rewrite (agree_commit_hash n) by (done || lia).
Qed.
Lemma agree_undo n k : agree n → 1 <= k <= n → chain_undo chain k = chain_undo chain' k.
Proof.
  intros A Hk. unfold chain_undo, spent_before, block_txs. rewrite (A k) by done.
  rewrite (agree_txs n), (agree_touched n) by (done || lia). done.
Qed.

Lemma agree_indexed n d : agree n → indexed chain n d → indexed chain' n d.
Proof.
  intros A [H1 H2 H3 H4 H5 [U1 U2]]. split; [done|..].
  - rewrite H2. unfold utxos. by rewrite (agree_txs n).
  - intros a k. rewrite H3. destruct (decide (1 <= k <= n)) as [Hk|Hk].
    + rewrite (agree_touched n), (agree_chain_row n) by done. done.
    + rewrite !decide_False by tauto. done.
  - intros k. rewrite H4. destruct (decide _); [|done]. by rewrite (agree_commit n).
  - intros tx out Htx. apply (H5 tx). by rewrite (agree_txs n).
  - split; [|done]. intros k m Em. destruct (U1 k m Em) as (Hk & H). split; [done|].
    by rewrite <-(agree_undo n), <-(agree_touched n) by done.
Qed.
Lemma agree_caches n c : agree n → caches_ok chain n c → caches_ok chain' n c.
Proof.
  intros A [Hu Hb]. split.
  - intros o v. unfold utxos. rewrite <-(agree_txs n) by done. apply Hu.
  - intros a en E. rewrite <-(agree_balance n) by done. by apply Hb.
Qed.
End Agree.

(** ** Pruning *)

Section Prune.
Context {BC : BitcoinCrate} {BL : BitcoinCrateLaws} (chain : u32 → BtcBlock).

Lemma elem_of_take_while {A} (p : A → bool) l x : x ∈ take_while p l → x ∈ l ∧ p x = true.
Proof.
  induction l as [|y l IH]; cbn; [by intros ?%elem_of_nil|]. destruct (p y) eqn:E; [|by intros ?%elem_of_nil].
  intros [->|Hx]%elem_of_cons; [split; [by left|done]|]. apply IH in Hx as [? ?]. split; [by right|done].
Qed.
Lemma elem_of_heights_to_prune h k d :
  k ∈ heights_to_prune h d → is_Some (block_undo_meta_cf d !! k) ∧ k < h.
Proof.
  unfold heights_to_prune. intros ([k' m] & -> & [Hx Hp]%elem_of_take_while)%list_elem_of_fmap.
  apply elem_of_cf_from in Hx as [Hx _]. cbn in *. b2p. split; [by eexists|lia].
Qed.
(** Deleting bundles keeps the rest of the journal. *)
Lemma undo_delete_all n d (V : valid_chain chain n) ks : ∀ d',
  undo_ok chain n d → (∀ k, k ∈ ks → is_Some (block_undo_meta_cf d !! k)) → undo_ok chain n d' →
  let d1 := foldl (λ db h, append_delete_block_undo_bundle_to_batch d h db) d' ks in
  undo_ok chain n d1 ∧ (∀ k, block_undo_meta_cf d1 !! k = if decide (k ∈ ks) then None else block_undo_meta_cf d' !! k)
  ∧ ∃ m c s b, d1 = on_undo (λ _, m) (λ _, c) (λ _, s) (λ _, b) d'.
Proof.
  induction ks as [|k ks IH]; intros d' U Hk U' d1.
  - split; [done|]. split; [intros k; by rewrite decide_False by set_solver|].
    exists (block_undo_meta_cf d'), (block_undo_created_utxos_cf d'), (block_undo_spent_utxos_cf d'), (block_undo_balance_index_cf d').
    by destruct d'.
  - destruct (IH (append_delete_block_undo_bundle_to_batch d k d') U) as (U1 & Hm & m & c & s & b & E).
    + intros; apply Hk. by right.
    + apply undo_delete; [done|done|apply Hk; by left|done].
    + split; [exact U1|]. split; [|exists m, c, s, b; exact E].
      intros j. unfold d1. cbn [foldl]. rewrite Hm. cbn. destruct (decide (j ∈ ks)) as [Hj|Hj].
      * by rewrite decide_True by (by right).
      * destruct (decide (j = k)) as [->|Hne].
        -- by rewrite lookup_delete_eq, decide_True by (by left).
        -- rewrite lookup_delete_ne by done. rewrite decide_False; [done|]. by intros [?|?]%elem_of_cons.
Qed.

Lemma indexed_ext n d d' (V : valid_chain chain n) :
  meta_cf d' !! META_KEY_BTC_BLOCK_HEIGHT = meta_cf d !! META_KEY_BTC_BLOCK_HEIGHT → utxo_cf d' = utxo_cf d →
  balance_history_cf d' = balance_history_cf d → block_commits_cf d' = block_commits_cf d →
  script_registry_cf d' = script_registry_cf d → undo_ok chain n d' → indexed chain n d → indexed chain n d'.
Proof. intros E1 E2 E3 E4 E5 U [H1 H2 H3 H4 H5 _]. split; rewrite ?E1, ?E2, ?E3, ?E4, ?E5; done. Qed.

(** Pruning keeps the index and the rollback markers, and the bundles from the height on. *)
Lemma prune_run n h dk :
  valid_chain chain n → indexed chain n (db dk) →
  match prune_undo_before_height h dk with
  | (Ok _, dk') => indexed chain n (db dk')
      ∧ (∀ key, key ∈ rollback_keys → meta_cf (db dk') !! key = meta_cf (db dk) !! key)
      ∧ (writes_left dk = None → writes_left dk' = None)
  | (Err _, dk') => dk' = dk ∧ writes_left dk = Some O
  | (Panic _, _) => False
  end.
Proof.
  intros V I. unfold prune_undo_before_height.
  rewrite (bind_run _ _ dk (meta_cf (db dk) !! META_KEY_ROLLBACK_IN_PROGRESS) dk) by done.
  destruct (bool_decide _); [done|].
  rewrite (bind_run _ _ dk (meta_cf (db dk) !! META_KEY_ROLLBACK_SUPPORTED_FROM_HEIGHT) dk) by done.
  destruct (meta_cf (db dk) !! _) as [s|]; [|done].
  rewrite (bind_run _ _ dk (meta_cf (db dk) !! META_KEY_UNDO_RETAINED_FROM_HEIGHT) dk) by done.
  destruct (match meta_cf (db dk) !! _ with Some r => _ | None => _ end); [done|].
  set (eff := Z.max h s). rewrite (bind_run _ _ dk (heights_to_prune eff (db dk)) dk) by done.
  assert (∀ d, indexed chain n d → indexed chain n (on_meta_cf (insert META_KEY_UNDO_RETAINED_FROM_HEIGHT eff) d)) as Hi
    by (intros; by apply indexed_meta).
  assert (∀ (m : gmap string u32) key, key ∈ rollback_keys → <[META_KEY_UNDO_RETAINED_FROM_HEIGHT := eff]> m !! key = m !! key) as Hk.
  { intros m key Hk. rewrite lookup_insert_ne; [done|]. intros <-. by apply (bool_decide_eq_true_2 _) in Hk. }
  destruct (heights_to_prune eff (db dk)) as [|k ks] eqn:Ep.
  - unfold bind, put_undo_retained_from_height, put_u32_meta, write. destruct (writes_left dk) as [[|w]|]; [done|..];
      (split; [by apply Hi|split; [|done]]); intros key Hkey; by apply Hk.
  - rewrite (bind_run _ _ dk (db dk) dk) by done.
    destruct (undo_delete_all n (db dk) V (k :: ks) (db dk)) as (U & _ & m & c & sp & b & E); [apply I| |apply I|].
    { intros j Hj. rewrite <-Ep in Hj. by apply elem_of_heights_to_prune in Hj as [? _]. }
    set (d1 := foldl _ _ _) in U, E.
    assert (indexed chain n (on_meta_cf (insert META_KEY_UNDO_RETAINED_FROM_HEIGHT eff) d1)) as I1.
    { apply Hi. apply (indexed_ext n (db dk)); [done|by rewrite E..|done|done]. }
    unfold bind, write. destruct (writes_left dk) as [[|w]|]; [done|..]; cbn [fst snd db];
      (split; [exact I1|split; [|done]]); intros key Hkey;
      change (<[META_KEY_UNDO_RETAINED_FROM_HEIGHT := eff]> (meta_cf d1) !! key = meta_cf (db dk) !! key);
      rewrite Hk by done; by rewrite E.
Qed.
End Prune.

(** ** The iteration *)

Section Sync.
Context {BC : BitcoinCrate} {BL : BitcoinCrateLaws} {CL : BTCClient} {LR : LruCrate} {LL : LruCrateLaws}.
Context (config : SyncConfig).

(** The node serves the blocks 1 to [L] of a valid chain, [L] the stable height. *)
Record node_serves (chain : u32 → BtcBlock) (L : u32) : Prop := {
  ns_tip : get_latest_block_height config = Ok L;
  ns_hash k : 1 <= k <= L → btc_get_block_hash k = Ok (block_hash (chain k));
  ns_block k : 1 <= k <= L → btc_get_block_by_height k = Ok (chain k);
  ns_valid : valid_chain chain L
}.
(** A block hash determines the chain below it. *)
Definition hash_linked (chain0 chain : u32 → BtcBlock) : Prop :=
  ∀ k, 1 <= k → block_hash (chain0 k) = block_hash (chain k) → agree chain0 chain k.
(** The highest height up to [m] where the chains have one hash; 0 when there is none. *)
Record common_ancestor (chain0 chain : u32 → BtcBlock) (m a : u32) : Prop := {
  ca_range : 0 <= a <= m;
  ca_agree : 1 <= a → block_hash (chain0 a) = block_hash (chain a);
  ca_above j : a < j <= m → block_hash (chain0 j) ≠ block_hash (chain j)
}.
(** A batch has at least one block, and the heights of a batch do not wrap. *)
Definition batches_fit (L : u32) : Prop :=
  1 <= cfg_batch_size config ∧ L + cfg_batch_size config <= U32_MAX.

Definition db_of (s : IndexerState) : BalanceHistoryDB := db (disk (store s)).
Definition put_disk (dk : Disk) (s : IndexerState) : IndexerState :=
  {| store := {| disk := dk; caches := caches (store s) |};
     status_rollback_in_progress := status_rollback_in_progress s |}.
Lemma on_db_run {A} (m : M Disk A) s r dk :
  m (disk (store s)) = (r, dk) → on_db m s = (r, put_disk dk s).
Proof. intros E. unfold on_db, on_store, on_disk, zoom. by rewrite E. Qed.
Lemma put_disk_id s : put_disk (disk (store s)) s = s.
Proof. by destruct s as [[??] ?]. Qed.

Context (chain0 chain : u32 → BtcBlock) (L : u32) (N : node_serves chain L).

Lemma local_commit n k dk :
  indexed chain0 n (db dk) → 1 <= k <= n → get_block_commit k dk = (Ok (Some (chain_commit chain0 k)), dk).
Proof. intros I Hk. unfold get_block_commit, reads, gets. by rewrite (ix_commits _ _ _ I), decide_True. Qed.

Lemma search_ancestor_run n (m : nat) a dk :
  indexed chain0 n (db dk) → Z.of_nat m <= n → Z.of_nat m <= L → common_ancestor chain0 chain (Z.of_nat m) a →
  search_ancestor (rev (heights 1 (Z.of_nat m))) dk = (Ok (Some a), dk).
Proof.
  intros I. induction m as [|m IH]; intros Hn HL [Hr Ha Hu].
  - rewrite heights_nil by lia. cbn. by replace a with 0 by lia.
  - rewrite heights_snoc, rev_app_distr by lia. cbn [rev app search_ancestor].
    rewrite (bind_run _ _ _ _ _ (local_commit n (Z.of_nat (S m)) dk I ltac:(lia))).
    rewrite (bind_run _ _ dk (chain_commit chain0 (Z.of_nat (S m))) dk) by done.
    rewrite (bind_run _ _ dk (block_hash (chain (Z.of_nat (S m)))) dk) by (unfold lift; by rewrite (ns_hash _ _ N) by lia).
    change (cm_btc_block_hash (chain_commit chain0 (Z.of_nat (S m)))) with (block_hash (chain0 (Z.of_nat (S m)))).
    destruct (decide (_ = _)) as [E|E].
    + destruct (decide (a = Z.of_nat (S m))) as [->|]; [done|]. destruct (Hu (Z.of_nat (S m))); [lia|done].
    + replace (Z.of_nat (S m) - 1) with (Z.of_nat m) by lia. apply IH; [lia|lia|]. split; [|done|].
      * assert (a ≠ Z.of_nat (S m)); [|lia]. intros ->. apply E, Ha. lia.
      * intros j Hj. apply Hu. lia.
Qed.
(** The search finds the common ancestor, or that there is nothing to roll back. *)
Lemma find_run n a dk :
  indexed chain0 n (db dk) → 0 <= n → 0 <= L → common_ancestor chain0 chain (Z.min n L) a →
  find_reorg_common_ancestor_height n L dk = (Ok (if decide (a = n) then None else Some a), dk).
Proof.
  intros I Hn HL [Hr Ha Hu]. unfold find_reorg_common_ancestor_height.
  destruct (n =? 0) eqn:E0; b2p; [by rewrite decide_True by lia|].
  assert (common_ancestor chain0 chain (Z.min n L) a) as C by done.
  destruct (L >=? n) eqn:El; b2p.
  - erewrite bind_run.
    2: { rewrite (bind_run _ _ _ _ _ (local_commit n n dk I ltac:(lia))).
         rewrite (bind_run _ _ dk (chain_commit chain0 n) dk) by done.
         rewrite (bind_run _ _ dk (block_hash (chain n)) dk) by (unfold lift; by rewrite (ns_hash _ _ N) by lia).
         reflexivity. }
    change (cm_btc_block_hash (chain_commit chain0 n)) with (block_hash (chain0 n)). case_bool_decide as E.
    + destruct (decide (a = n)) as [->|]; [done|]. destruct (Hu n); [lia|done].
    + rewrite decide_False by (intros ->; apply E, Ha; lia). replace (Z.min n L) with (Z.of_nat (Z.to_nat (Z.min n L))) in * by lia.
      apply (search_ancestor_run n); [done|lia|lia|done].
  - erewrite bind_run by reflexivity. rewrite decide_False by lia.
    replace (Z.min n L) with (Z.of_nat (Z.to_nat (Z.min n L))) in * by lia. apply (search_ancestor_run n); [done|lia|lia|done].
Qed.

(** *** Batches *)

(** What the loop keeps: the index at height [e], true caches and no rollback. *)
Record at_height (e : u32) (s : IndexerState) : Prop := {
  ah_indexed : indexed chain e (db_of s);
  ah_caches : caches_ok chain e (caches (store s));
  ah_markers key : key ∈ rollback_keys → meta_cf (db_of s) !! key = None
}.
Definition out_of_writes (s : IndexerState) : Prop := writes_left (disk (store s)) = Some O.
(** A successful step: the flag stays and unlimited writes stay unlimited. *)
Definition steady (s s' : IndexerState) : Prop :=
  status_rollback_in_progress s' = status_rollback_in_progress s
  ∧ (writes_left (disk (store s)) = None → writes_left (disk (store s')) = None).

Lemma prune_step first last s :
  valid_chain chain last → at_height last s →
  match prune_undo_journal_if_needed config first last s with
  | (Ok _, s') => at_height last s' ∧ steady s s'
  | (Err _, s') => s' = s ∧ out_of_writes s
  | (Panic _, _) => False
  end.
Proof.
  intros V A. unfold prune_undo_journal_if_needed.
  assert (at_height last s ∧ steady s s) as Hret by (split; [done|by split]).
  destruct (_ || _); [done|]. destruct (_ =? _); [done|].
  rewrite (bind_run _ _ s L s) by (unfold lift; by rewrite (ns_tip _ _ N)).
  destruct (_ <? _); [done|]. set (h := u32_saturating_sub last _).
  pose proof (prune_run chain last h (disk (store s)) V (ah_indexed _ _ A)) as H. unfold bind.
  destruct (prune_undo_before_height h (disk (store s))) as [r dk] eqn:E. rewrite (on_db_run _ _ _ _ E).
  destruct r as [x|er|er]; [|..|done].
  - destruct H as (I & Hm & Hw). split; [|by split]. split; [done|apply A|]. intros key Hk. unfold db_of.
    cbn. rewrite Hm by done. by apply (ah_markers _ _ A).
  - destruct H as [-> Hw]. by rewrite put_disk_id.
Qed.

Lemma batch_step first last s :
  1 <= first <= last → last <= L → at_height (first - 1) s →
  match process_block_batch config first (last + 1) L s with
  | (Ok h, s') => h = last ∧ at_height last s' ∧ steady s s'
  | (Err _, s') => (at_height (first - 1) s' ∨ at_height last s') ∧ out_of_writes s'
      ∧ writes_left (disk (store s)) ≠ None
  | (Panic _, _) => False
  end.
Proof.
  intros Hr HL A. pose proof (vc_height _ _ (ns_valid _ _ N)) as Hmax.
  pose proof (valid_chain_le chain last L (ns_valid _ _ N) ltac:(lia)) as V.
  unfold process_block_batch, assert. rewrite (proj2 (Z.ltb_lt _ _)) by lia. rewrite (bind_run _ _ s tt s) by done.
  pose proof (process_blocks_run chain first last L (cfg_undo_retention_blocks config) (store s) Hr V
    ltac:(intros k Hk; apply (ns_block _ _ N); lia) (ah_indexed _ _ A) (ah_caches _ _ A)) as H.
  unfold bind at 1, on_store, zoom. destruct (process_blocks _ _ _ _ _) as [[u|er|er] st] eqn:E; [|..|done]; cbn [fst snd].
  - destruct H as (I & Hc & Hw & Hw0 & _ & Hm). set (s1 := {| store := st; status_rollback_in_progress := _ |}).
    assert (at_height last s1) as A1.
    { split; [done|done|]. intros key Hk. unfold db_of. cbn. rewrite Hm by done. by apply (ah_markers _ _ A). }
    assert (u32_sub (last + 1) 1 = last) as -> by (unfold u32_sub; rewrite Z.mod_small by (unfold U32_MAX in *; lia); lia).
    pose proof (prune_step first last s1 V A1) as H. unfold bind.
    destruct (prune_undo_journal_if_needed _ _ _ _) as [[x|er|er] s2]; [|..|done].
    + destruct H as (A2 & Hs2). split; [done|]. split; [done|]. destruct Hs2 as [Hs2 Hs3]. split; [by rewrite Hs2|].
      intros Hn. apply Hs3. cbn. by rewrite Hw, Hn.
    + destruct H as (-> & Ho). split; [by right|]. split; [done|]. intros Hn. unfold out_of_writes in Ho. cbn in Ho.
      by rewrite Hw, Hn in Ho.
  - destruct H as [-> Hw]. split; [left; by destruct A|]. split; [done|]. by rewrite Hw.
Qed.

Lemma batches_run stop (Hfit : batches_fit L) (fuel : nat) : ∀ current s,
  1 <= current → current - 1 <= L → L <= current - 1 + Z.of_nat fuel → at_height (current - 1) s →
  match sync_batches config fuel stop L current s with
  | (Ok h, s') => current <= h <= L + 1 ∧ ((∀ k, stop k = false) → h = L + 1) ∧ at_height (h - 1) s' ∧ steady s s'
  | (Err _, s') => (∃ e, current - 1 <= e <= L ∧ at_height e s') ∧ out_of_writes s'
      ∧ writes_left (disk (store s)) ≠ None
  | (Panic _, _) => False
  end.
Proof.
  pose proof (vc_height _ _ (ns_valid _ _ N)) as Hmax. destruct Hfit as [Hb1 Hb2].
  induction fuel as [|fuel IH]; intros current s H1 HL Hf A.
  - cbn. split; [lia|]. split; [lia|]. split; [done|by split].
  - cbn [sync_batches]. destruct (current <=? L) eqn:Ec; b2p; [|cbn; split; [lia|]; split; [lia|]; split; [done|by split]].
    assert (u32_sub (u32_add current (usize_as_u32 (cfg_batch_size config))) 1 = current + cfg_batch_size config - 1) as ->.
    { rewrite usize_as_u32_id by lia. unfold u32_sub. rewrite u32_add_small by lia.
      rewrite Z.mod_small by (unfold U32_MAX in *; lia). done. }
    set (last := Z.min _ L). assert (current <= last <= L) as Hlast by lia. clearbody last.
    rewrite (u32_add_small last 1) by lia.
    pose proof (batch_step current last s ltac:(lia) ltac:(lia) A) as H. unfold bind.
    destruct (process_block_batch _ _ _ _ _) as [[h|er|er] s1]; [|..|done].
    + destruct H as (-> & A1 & S1 & W1). rewrite (u32_add_small last 1) by lia. destruct (stop last) eqn:Es.
      * cbn. replace (last + 1 - 1) with last by lia. split; [lia|]. split; [|done]. intros Hs. by rewrite Hs in Es.
      * specialize (IH (last + 1) s1 ltac:(lia) ltac:(lia) ltac:(lia)).
        replace (last + 1 - 1) with last in IH by lia. specialize (IH A1).
        destruct (sync_batches _ _ _ _ _ _) as [[h|er|er] s2]; [|..|done].
        -- destruct IH as (Hh & Hstop & A2 & S2 & W2). split; [lia|]. split; [done|]. split; [done|].
           split; [by rewrite S2|auto].
        -- destruct IH as ((e & He & A2) & Ho & Hn). split; [exists e; split; [lia|done]|]. split; [done|auto].
    + destruct H as ([A1|A1] & Ho & Hn); (split; [|by split]); [exists (current - 1)|exists last]; (split; [lia|done]).
Qed.

(** *** Reorganisation *)

Lemma no_rollback_keys d : no_rollback d ↔ ∀ key, key ∈ rollback_keys → meta_cf d !! key = None.
Proof.
  unfold no_rollback, rollback_keys. split.
  - intros (H1 & H2 & H3) key. by intros [->|[->|[->|?%elem_of_nil]%elem_of_cons]%elem_of_cons]%elem_of_cons.
  - intros H. split_and!; apply H; set_solver.
Qed.

(** A rollback with enough writes reaches its target. *)
Lemma rollback_done T n dk :
  0 <= T < n → valid_chain chain0 n → indexed chain0 n (db dk) → no_rollback (db dk) → undoable T n (db dk) →
  writes_left dk = None →
  ∃ d, rollback_to_block_height T dk = (Ok tt, {| db := d; writes_left := None |})
       ∧ indexed chain0 T d ∧ no_rollback d.
Proof.
  intros HT V I Hno Hu Hw. replace n with (T + Z.of_nat (Z.to_nat (n - T))) in * by lia.
  pose proof (rollback_run chain0 (Z.to_nat (n - T)) T dk ltac:(lia) ltac:(lia) V I Hno Hu) as H.
  destruct (rollback_to_block_height T dk) as [[[]|er|er] [d w]]; [|..|done].
  - destruct H as (I' & Hno' & E & _). rewrite Hw in E. cbn in E. subst w. by exists d.
  - destruct H as (_ & w' & E & _). congruence.
Qed.

Lemma reconcile_reorg_run n a s :
  0 <= n → 0 <= L → hash_linked chain0 chain → valid_chain chain0 n →
  indexed chain0 n (db_of s) → caches_ok chain0 n (caches (store s)) → no_rollback (db_of s) →
  common_ancestor chain0 chain (Z.min n L) a → (a < n → undoable a n (db_of s)) →
  writes_left (disk (store s)) = None → status_rollback_in_progress s = false →
  ∃ s', reconcile_reorg_if_needed n L s = (Ok a, s') ∧ at_height a s' ∧ steady s s'.
Proof.
  intros Hn HL HH V I Hc Hno CA Hu Hw Hs. pose proof (ca_range _ _ _ _ CA) as Ha.
  assert (agree chain0 chain a) as A.
  { destruct (decide (a = 0)) as [->|]; [intros j; lia|]. apply HH; [lia|]. apply (ca_agree _ _ _ _ CA). lia. }
  unfold reconcile_reorg_if_needed.
  pose proof (find_run n a (disk (store s)) I Hn HL CA) as E. rewrite (bind_run _ _ _ _ _ (on_db_run _ _ _ _ E)).
  rewrite put_disk_id. destruct (decide (a = n)) as [->|Hne].
  - exists s. split; [done|]. split; [|by split]. split; [by eapply agree_indexed|by eapply agree_caches|].
    by apply no_rollback_keys.
  - destruct (rollback_done a n (disk (store s)) ltac:(lia) V I Hno (Hu ltac:(lia)) Hw) as (d & Er & I' & Hno').
    rewrite (bind_run _ _ s tt {| store := store s; status_rollback_in_progress := true |}) by done.
    rewrite (bind_run _ _ _ _ _ (on_db_run _ {| store := store s; status_rollback_in_progress := true |} _ _ Er)).
    erewrite bind_run by reflexivity. erewrite bind_run by reflexivity.
    eexists. split; [reflexivity|]. split; [|by split]. split; cbn.
    + by eapply agree_indexed.
    + by split.
    + by apply no_rollback_keys.
Qed.

Lemma sync_once_run stop n a s :
  0 <= n → batches_fit L → hash_linked chain0 chain → valid_chain chain0 n →
  indexed chain0 n (db_of s) → caches_ok chain0 n (caches (store s)) → no_rollback (db_of s) →
  common_ancestor chain0 chain (Z.min n L) a → (a < n → undoable a n (db_of s)) →
  writes_left (disk (store s)) = None →
  ∃ h s', sync_once config stop s = (Ok h, s') ∧ a <= h <= L ∧ ((∀ k, stop k = false) → h = L)
    ∧ at_height h s' ∧ status_rollback_in_progress s' = false.
Proof.
  intros Hn Hfit HH V I Hc Hno CA Hu Hw. pose proof (vc_height _ _ (ns_valid _ _ N)) as HL.
  pose proof (ca_range _ _ _ _ CA) as Ha. unfold sync_once.
  set (s0 := {| store := store s; status_rollback_in_progress := false |}).
  rewrite (bind_run _ _ s false s0).
  2: { unfold resume_pending_rollback_if_needed.
       assert (is_rollback_in_progress (disk (store s)) = (Ok false, disk (store s))) as E1.
       { unfold is_rollback_in_progress, bind, get_u32_meta, reads, gets. pose proof (proj1 Hno) as Hp. unfold db_of in Hp. by rewrite Hp. }
       rewrite (bind_run _ _ _ _ _ (on_db_run _ _ _ _ E1)), put_disk_id. rewrite (bind_run _ _ s tt s) by done.
       pose proof (resume_none (disk (store s)) (proj1 Hno)) as E2.
       rewrite (bind_run _ _ _ _ _ (on_db_run _ _ _ _ E2)), put_disk_id. done. }
  rewrite (bind_run _ _ s0 L s0) by (unfold lift; by rewrite (ns_tip _ _ N)).
  assert (get_btc_block_height (disk (store s0)) = (Ok n, disk (store s0))) as E3
    by (pose proof (ix_height _ _ _ I) as Eh; unfold db_of in Eh; unfold get_btc_block_height, reads, gets; cbn [store s0]; by rewrite Eh).
  rewrite (bind_run _ _ _ _ _ (on_db_run _ _ _ _ E3)), put_disk_id.
  destruct (reconcile_reorg_run n a s0 Hn ltac:(lia) HH V I Hc Hno CA Hu Hw eq_refl) as (s1 & E4 & A1 & S1 & W1).
  rewrite (bind_run _ _ _ _ _ E4). destruct (L <=? a) eqn:El; b2p.
  { exists a, s1. split; [done|]. split; [lia|]. split; [lia|]. done. }
  rewrite (u32_add_small a 1) by lia.
  pose proof (batches_run stop Hfit (Z.to_nat (L - a)) (a + 1) s1 ltac:(lia) ltac:(lia) ltac:(lia)) as H.
  replace (a + 1 - 1) with a in H by lia. specialize (H A1). unfold bind at 1.
  destruct (sync_batches _ _ _ _ _ _) as [[h|er|er] s2]; [|..|done].
  - destruct H as (Hh & Hstop & A2 & S2 & W2). specialize (W2 (W1 Hw)).
    assert (on_db flush_all s2 = (Ok tt, s2)) as E5.
    { rewrite (on_db_run _ s2 (Ok tt) (disk (store s2))); [by rewrite put_disk_id|]. unfold flush_all, write.
      destruct s2 as [[[d2 w2] c2] f2]. cbn in W2. subst w2. done. }
    rewrite (bind_run _ _ _ _ _ E5). exists (h - 1), s2.
    assert (u32_sub h 1 = h - 1) as -> by (unfold u32_sub; rewrite Z.mod_small by (unfold U32_MAX in *; lia); lia).
    split; [done|]. split; [lia|]. split; [intros Hk; specialize (Hstop Hk); lia|]. split; [done|].
    by rewrite S2, S1.
  - destruct H as (_ & _ & Hn0). by specialize (W1 Hw).
Qed.

(** The watch wakes the loop exactly when the stable chain is not the local one. *)
Lemma should_wake_run n L' dk :
  indexed chain0 n (db dk) → 0 <= n <= L →
  should_wake_for_chain_update n L' dk
  = (Ok (negb (bool_decide (L' = n ∧ (1 <= n → block_hash (chain0 n) = block_hash (chain n))))), dk).
Proof.
  intros I Hn. unfold should_wake_for_chain_update. destruct (L' =? n) eqn:El; b2p; cbn [negb orb].
  - subst L'. destruct (n =? 0) eqn:E0; b2p.
    + rewrite bool_decide_true; [done|]. split; [done|lia].
    + rewrite (bind_run _ _ _ _ _ (local_commit n n dk I ltac:(lia))).
      rewrite (bind_run _ _ dk (chain_commit chain0 n) dk) by done.
      rewrite (bind_run _ _ dk (block_hash (chain n)) dk) by (unfold lift; by rewrite (ns_hash _ _ N) by lia).
      unfold ret. do 3 f_equal. apply bool_decide_ext.
      change (cm_btc_block_hash (chain_commit chain0 n)) with (block_hash (chain0 n)). split; [done|]. intros [_ H]. apply H. lia.
  - rewrite bool_decide_false; [done|]. by intros [? _].
Qed.

(** ** Theorems *)

(** C7. One iteration against a node.  The database had indexed some chain up to [n]; the node serves
    another valid chain up to its stable height [L], below, at or above [n].  If the journal covers
    the blocks above the common ancestor, the iteration succeeds: it rolls back to the ancestor when
    there is something to roll back, indexes the node's blocks, and the database is then the one that
    the node's chain determines, at [L] unless a shutdown was requested between batches, in which
    case at a height between the ancestor and [L].  The caches are true for it and the rollback flag
    of the status is down. *)
Theorem sync_once_follows_chain stop n a s :
  0 <= n → batches_fit L → hash_linked chain0 chain → valid_chain chain0 n →
  indexed chain0 n (db_of s) → caches_ok chain0 n (caches (store s)) → no_rollback (db_of s) →
  common_ancestor chain0 chain (Z.min n L) a → (a < n → undoable a n (db_of s)) →
  writes_left (disk (store s)) = None →
  ∃ h s', sync_once config stop s = (Ok h, s') ∧ a <= h <= L ∧ ((∀ k, stop k = false) → h = L)
    ∧ indexed chain h (db_of s') ∧ caches_ok chain h (caches (store s')) ∧ no_rollback (db_of s')
    ∧ status_rollback_in_progress s' = false.
Proof.
  intros Hn Hfit HH V I Hc Hno CA Hu Hw.
  destruct (sync_once_run stop n a s Hn Hfit HH V I Hc Hno CA Hu Hw) as (h & s' & E & Hh & Hs & [A1 A2 A3] & Hf).
  exists h, s'. split_and!; [done|lia|lia|done|done|done|by apply no_rollback_keys|done].
Qed.

(** The watch between two iterations, at local height [n].  It wakes the loop exactly when the
    stable height is not [n] or the node's block at [n] is not the one indexed, so that a loop that
    stays asleep is at the tip of the node's chain. *)
Theorem watch_wakes_on_change n latest dk :
  indexed chain0 n (db dk) → 0 <= n <= L → hash_linked chain0 chain →
  ∃ b, should_wake_for_chain_update n latest dk = (Ok b, dk)
       ∧ (b = false ↔ latest = n ∧ agree chain0 chain n).
Proof.
  intros I Hn HH. eexists. split; [by apply should_wake_run|]. rewrite negb_false_iff, bool_decide_eq_true.
  split; intros [-> H]; (split; [done|]).
  - destruct (decide (1 <= n)) as [H1|H1]; [by apply HH, H|]. intros j Hj. lia.
  - intros H1. by rewrite (H n) by lia.
Qed.
End Sync.

(** ** Witnesses *)

Section Witness.
#[local] Existing Instances demo_crate demo_lru.
#[local] Instance fork_node : BTCClient := demo_client demo_fork 3.
Definition demo_config : SyncConfig :=
  {| cfg_batch_size := 1; cfg_max_sync_block_height := U32_MAX; cfg_undo_retention_blocks := 2;
     cfg_undo_cleanup_interval_blocks := 2 |}.
(** The indexer that had followed [demo_chain] sees [demo_fork]. *)
Definition demo_indexer : IndexerState :=
  {| store := {| disk := {| db := demo_indexed; writes_left := None |}; caches := no_caches |};
     status_rollback_in_progress := false |}.

Lemma fork_serves : node_serves demo_config demo_fork 3.
Proof.
  split; [by vm_compute| | |exact demo_fork_valid]; intros k Hk; cbn; by rewrite (proj2 (Z.leb_le k 3)) by lia.
Qed.
Lemma demo_linked : hash_linked demo_chain demo_fork.
Proof.
  intros k Hk E j Hj. unfold demo_chain, demo_fork in *.
  destruct (k =? 1) eqn:E1; b2p; [subst; by replace j with 1 by lia|].
  destruct (k =? 2) eqn:E2; b2p; [done|]. cbn in E. destruct (k =? 3) eqn:E3; b2p; cbn in E; lia.
Qed.
Lemma demo_ancestor : common_ancestor demo_chain demo_fork (Z.min 2 3) 1.
Proof. split; [lia|done|]. intros j Hj. by replace j with 2 by lia. Qed.

Lemma sync_once_follows_chain_witness :
  ∃ s', sync_once demo_config (λ _, false) demo_indexer = (Ok 3, s') ∧ indexed demo_fork 3 (db_of s')
        ∧ (uv_value <$> utxo_cf (db_of s') !! first_out 24 = Some 50).
Proof.
  destruct (sync_once_follows_chain (BL := demo_crate_laws) (LL := demo_lru_laws) demo_config demo_chain demo_fork 3
    fork_serves (λ _, false) 2 1 demo_indexer) as (h & s' & E & _ & Hs & I & _);
    [lia|split; by vm_compute|exact demo_linked|exact demo_chain_valid|exact (proj1 demo_indexed_ok)|
     exact (no_caches_ok demo_chain 2)|exact (proj2 demo_indexed_ok)|exact demo_ancestor|
     intros _; exact demo_undoable|done|].
  assert (h = 3) as -> by by apply Hs. exists s'. split; [exact E|]. split; [exact I|].
  rewrite (ix_utxos _ _ _ I). by vm_compute.
Defined.

Lemma watch_wakes_on_change_witness :
  ∃ b, should_wake_for_chain_update 2 2 {| db := demo_indexed; writes_left := None |}
       = (Ok b, {| db := demo_indexed; writes_left := None |}) ∧ b ≠ false.
Proof.
  destruct (watch_wakes_on_change demo_config demo_chain demo_fork 3 fork_serves 2 2
    {| db := demo_indexed; writes_left := None |} (proj1 demo_indexed_ok) ltac:(lia) demo_linked) as (b & E & Hb).
  exists b. split; [exact E|]. intros [_ A]%Hb. specialize (A 2 ltac:(lia)). discriminate A.
Defined.
End Witness.
