(* ===== verification/BlockFiles.v ===== *)
(** * The block files of the node

    [balance-history/src/btc/file_indexer.rs]: the records of [blk*.dat] files, which bitcoind may
    store under a repeated 8-byte key, and the scan of a file that lists the blocks in it.  A file is
    the list of its bytes; files that cannot be opened or read are not modelled.  The decoder of the
    bitcoin crate is a parameter. *)

From S2P Require Import Prelude Encoding Types Tx BalanceCodec BalanceDb BalanceBlock.

(** A block and the hash of its predecessor in its header; a decoder returns the bytes it left. *)
Record FileBlock := { fb_block : BtcBlock; fb_prev_blockhash : BlockHash }.
Class BlockCrate := { consensus_decode : list Z → option (FileBlock * list Z) }.

(** The block directory: files by their number, and the content of [xor.dat], if there is one. *)
Record BlockFileReader := { blk_files : gmap Z (list Z); xor_key : list Z; block_magic : u32 }.

(** ** The key *)

(** [XorReader::read]: the bytes read, and the position in the key after them. *)
Definition xor_read (key : list Z) (pos : nat) (buf : list Z) : list Z * nat :=
  (imap (λ i b, Z.lxor b (nth ((pos + i) mod 8) key 0)) buf, ((pos + length buf) mod 8)%nat).
(** A file as its reader gives it. *)
Definition decrypted (r : BlockFileReader) (data : list Z) : list Z :=
  match xor_key r with [] => data | key => (xor_read key 0 data).1 end.

(** ** Records *)

Definition of_le_bytes (l : list Z) : Z := of_be_bytes (rev l).
Definition read_exact (n : nat) (data : list Z) : option (list Z * list Z) :=
  if Nat.leb n (length data) then Some (take n data, drop n data) else None.

(** The loop of [read_blk_records]; fewer than four bytes at the end are no record. *)
Fixpoint read_records (fuel : nat) (block_magic : u32) (data : list Z) : result (list (list Z)) :=
  match fuel with
  | O => Panic "out of fuel"
  | S fuel =>
      match read_exact 4 data with
      | None => Ok []
      | Some (magic, data) =>
          if negb (of_le_bytes magic =? block_magic) then Err "Invalid block magic in blk file"
          else
            let? (size, data) := ok_or "Failed to read size from blk file" (read_exact 4 data) in
            let? (record, data) := ok_or "Failed to read block data from blk file"
                                     (read_exact (Z.to_nat (of_le_bytes size)) data) in
            let? records := read_records fuel block_magic data in
            Ok (record :: records)
      end
  end.
Definition read_blk_records (r : BlockFileReader) (data : list Z) : result (list (list Z)) :=
  read_records (S (length data)) (block_magic r) (decrypted r data).

(** [deserialize]: the decoder must use every byte. *)
Definition deserialize `{BlockCrate} (data : list Z) : option FileBlock :=
  match consensus_decode data with
  | Some (block, []) => Some block
  | _ => None
  end.
(** The loop of [read_blk_records2], at a position of the whole file. *)
Fixpoint read_records2 `{BlockCrate} (fuel : nat) (block_magic : u32) (data : list Z) (pos : nat) :
    result (list FileBlock) :=
  match fuel with
  | O => Panic "out of fuel"
  | S fuel =>
      if Nat.leb (pos + 8) (length data) then
        let magic := of_le_bytes (take 4 (drop pos data)) in
        if negb (magic =? block_magic) then Err "Invalid block magic in blk file"
        else
          let size := Z.to_nat (of_le_bytes (take 4 (drop (pos + 4) data))) in
          if Nat.ltb (length data) (pos + 8 + size) then Err "Failed to read block data from blk file"
          else
            let? block := ok_or "Failed to deserialize block from blk file"
                            (deserialize (take size (drop (pos + 8) data))) in
            let? records := read_records2 fuel block_magic data (pos + 8 + size) in
            Ok (block :: records)
      else Ok []
  end.
Definition read_blk_records2 `{BlockCrate} (r : BlockFileReader) (data : list Z) : result (list FileBlock) :=
  read_records2 (S (length data)) (block_magic r) (decrypted r data) 0.

(** One record at an offset, from the bytes as they are stored. *)
Definition read_blk_record (data : list Z) (offset : nat) : result (list Z) :=
  let? (_, data) := ok_or "Failed to read magic from blk file" (read_exact 4 (drop offset data)) in
  let? (size, data) := ok_or "Failed to read size from blk file" (read_exact 4 data) in
  let? (record, _) := ok_or "Failed to read block data from blk file"
                        (read_exact (Z.to_nat (of_le_bytes size)) data) in
  Ok record.

Section Reader.
Context `{BlockCrate} (r : BlockFileReader).

(** The number of files counted from 0 without a gap. *)
Fixpoint count_blk_files (fuel : nat) (file_index : Z) : Z :=
  match fuel with
  | O => file_index
  | S fuel =>
      match blk_files r !! file_index with
      | None => file_index
      | Some _ => count_blk_files fuel (file_index + 1)
      end
  end.
Definition find_latest_blk_file : result Z :=
  let n := count_blk_files (size (blk_files r)) 0 in
  if n =? 0 then Err "No blk files found in the data directory" else Ok (n - 1).
Definition last_complete_blk_file_index (latest_blk_file_index : Z) : option Z :=
  if latest_blk_file_index =? 0 then None else Some (latest_blk_file_index - 1).

Definition read_blk_records_by_index (file_index : Z) : result (list (list Z)) :=
  let? data := ok_or "Failed to open blk file" (blk_files r !! file_index) in
  read_blk_records r data.
Definition decode_record (record : list Z) : result FileBlock :=
  result_map fst (ok_or "Failed to deserialize block from blk file" (consensus_decode record)).
Definition load_blk_blocks_by_index (file_index : Z) : result (list FileBlock) :=
  let? records := read_blk_records_by_index file_index in
  collect decode_record records.

(** ** Scanning a file *)

Record BuildRecordResult := {
  br_block_hash : BlockHash;
  br_prev_block_hash : BlockHash;
  br_block_file_index : Z;
  br_block_file_offset : Z;
  br_block_record_index : Z
}.
(** [BlocksIndexer::on_block_indexed] *)
Definition on_block_indexed (file_index offset record_index : Z) (block : FileBlock) : BuildRecordResult :=
  {| br_block_hash := block_hash (fb_block block); br_prev_block_hash := fb_prev_blockhash block;
     br_block_file_index := file_index; br_block_file_offset := offset;
     br_block_record_index := record_index |}.
Fixpoint index_records (file_index offset record_index : Z) (records : list (list Z)) :
    result (list BuildRecordResult) :=
  match records with
  | [] => Ok []
  | record :: records =>
      let? block := decode_record record in
      let? rest := index_records file_index (offset + (8 + 4 + count record)) (record_index + 1) records in
      Ok (on_block_indexed file_index offset record_index block :: rest)
  end.
Definition scan_file (file_index : Z) : result (list BuildRecordResult) :=
  let? records := read_blk_records_by_index file_index in
  index_records file_index 0 0 records.
End Reader.
