(* ===== verification/LocalLoader.v ===== *)
(** * The local loader

    [balance-history/src/btc/local_loader.rs], [BlockRecordCache], [BlocksIndexer] and
    [BlockLocalLoader], with the tables of [db/db.rs] that keep the block index and the cache of
    [cache/block_file.rs]: blocks are read from the files of the node where they are indexed, and asked
    for over RPC otherwise.  Error texts lose their parameters. *)

From S2P Require Import Prelude Encoding Types Tx BalanceCodec BalanceDb BalanceBlock BlockFiles.

(** The call of the node that only the loader uses. *)
Class BlockByHash := { btc_get_block_by_hash : BlockHash → result BtcBlock }.

Record BlockRecordCache := {
  block_hash_cache : gmap BlockHash BlockEntry;
  block_prev_hash_cache : gmap BlockHash (list BlockHash);
  sorted_blocks : list (u32 * BlockHash)
}.
Definition empty_record_cache : BlockRecordCache :=
  {| block_hash_cache := ∅; block_prev_hash_cache := ∅; sorted_blocks := [] |}.

(** [.map_err(..)] on a result. *)
Definition err_as {A} (msg : string) (r : result A) : result A :=
  match r with Err _ => Err msg | _ => r end.

(** ** The index in memory *)

Definition calc_latest_block_file_index (c : BlockRecordCache) : option u32 :=
  map_fold (λ _ e acc, Some (from_option (Z.max (bf_block_file_index e)) (bf_block_file_index e) acc)) None
    (block_hash_cache c).
Definition record_cache_latest_height (c : BlockRecordCache) : u32 := from_option fst 0 (last (sorted_blocks c)).

(** Both maps are written before a duplicate is reported. *)
Definition add_new_block_entry (block_hash prev_block_hash : BlockHash) (entry : BlockEntry) :
    M BlockRecordCache unit := λ c,
  let siblings := default [] (block_prev_hash_cache c !! prev_block_hash) in
  let c' := {| block_hash_cache := <[block_hash := entry]> (block_hash_cache c);
               block_prev_hash_cache := <[prev_block_hash := siblings ++ [block_hash]]> (block_prev_hash_cache c);
               sorted_blocks := sorted_blocks c |} in
  match block_hash_cache c !! block_hash with
  | Some _ => (Err "Duplicate block_hash found in blk file", c')
  | None => (Ok tt, c')
  end.
Definition record_entry (r : BuildRecordResult) : BlockEntry :=
  {| bf_block_file_index := usize_as_u32 (br_block_file_index r); bf_block_file_offset := br_block_file_offset r;
     bf_block_record_index := usize_as_u32 (br_block_record_index r) |}.
Definition merge_build_result (records : list BuildRecordResult) : M BlockRecordCache unit :=
  for_each records (λ r, add_new_block_entry (br_block_hash r) (br_prev_block_hash r) (record_entry r)).

Section Sorting.
Context `{BitcoinCrate} `{BTCClient}.

(** The loop of [generate_sort_blocks]: from the zero hash along the children; the node decides between
    several children of one block. *)
Fixpoint sort_blocks (fuel : nat) (c : BlockRecordCache) (prev_hash : BlockHash) (block_height : u32) :
    result (list (u32 * BlockHash)) :=
  match fuel with
  | O => Panic "out of fuel"
  | S fuel =>
      match block_prev_hash_cache c !! prev_hash with
      | None => Ok []
      | Some [] => Panic "Block hashes list should not be empty"
      | Some ((first :: rest) as block_hashes) =>
          let? block_hash :=
            match rest with
            | [] => Ok first
            | _ =>
                let? block := err_as "Failed to get block from rpc" (btc_get_block_by_height block_height) in
                if bool_decide (block_hash block ∈ block_hashes) then Ok (block_hash block)
                else Err "Rpc returned a block hash which is not in the list of block hashes"
            end in
          match block_hash_cache c !! block_hash with
          | None => Err "Block entry not found for block_hash"
          | Some _ =>
              let? blocks := sort_blocks fuel c block_hash (u32_add block_height 1) in
              Ok ((block_height, block_hash) :: blocks)
          end
      end
  end.
Definition ZERO_HASH : BlockHash := 0.
Definition sort_fuel (c : BlockRecordCache) : nat := S (size (block_hash_cache c)).
Definition generate_sort_blocks : M BlockRecordCache unit := λ c,
  match sort_blocks (sort_fuel c) c ZERO_HASH 0 with
  | Ok blocks => (Ok tt, {| block_hash_cache := block_hash_cache c;
                            block_prev_hash_cache := block_prev_hash_cache c; sorted_blocks := blocks |})
  | Err e => (Err e, c)
  | Panic e => (Panic e, c)
  end.
End Sorting.

(** ** The index in the database *)

(** The tables of the index beside the rest of the database, and how many writes succeed. *)
Record BlockIndexDb := {
  blocks_cf : gmap BlockHash BlockEntry;
  block_heights_cf : gmap u32 BlockHash;
  last_block_file_index : option u32;
  bx_disk : Disk
}.
Definition set_index blocks heights last x :=
  {| blocks_cf := blocks; block_heights_cf := heights; last_block_file_index := last; bx_disk := bx_disk x |}.
(** A write of the index tables counts as a write of the database. *)
Definition index_write (msg : string) (f : BlockIndexDb → BlockIndexDb) : M BlockIndexDb unit := λ x,
  match write msg id (bx_disk x) with
  | (Ok _, d) => (Ok tt, f {| blocks_cf := blocks_cf x; block_heights_cf := block_heights_cf x;
                              last_block_file_index := last_block_file_index x; bx_disk := d |})
  | (Err e, _) => (Err e, x)
  | (Panic e, _) => (Panic e, x)
  end.
Definition on_disk_of_index {A} (m : M Disk A) : M BlockIndexDb A :=
  zoom bx_disk (λ d x, {| blocks_cf := blocks_cf x; block_heights_cf := block_heights_cf x;
                          last_block_file_index := last_block_file_index x; bx_disk := d |}) m.

Definition put_blocks_sync (last_file : u32) (blocks : list (BlockHash * BlockEntry))
    (block_heights : list (u32 * BlockHash)) : M BlockIndexDb unit :=
  index_write "Failed to write Blocks batch to DB" (λ x,
    set_index (put_all blocks (blocks_cf x)) (put_all block_heights (block_heights_cf x)) (Some last_file) x).
Definition get_all_blocks (x : BlockIndexDb) : gmap BlockHash BlockEntry := blocks_cf x.
Definition get_all_block_heights (x : BlockIndexDb) : list (u32 * BlockHash) :=
  cf_rows (be_bytes 4) (block_heights_cf x).

(** An empty column family is not written. *)
Definition clear_column_family (is_empty : BlockIndexDb → bool) (m : M BlockIndexDb unit) : M BlockIndexDb unit :=
  let! empty := gets is_empty in
  if (empty : bool) then ret tt else m.
(** The index, and the block commits of the balance history with it. *)
Definition clear_blocks : M BlockIndexDb unit :=
  let! _ := index_write "Failed to clear meta last block file index"
              (λ x, set_index (blocks_cf x) (block_heights_cf x) None x) in
  let! _ := clear_column_family (λ x, bool_decide (blocks_cf x = ∅))
              (index_write "Failed to clear column family" (λ x, set_index ∅ (block_heights_cf x) (last_block_file_index x) x)) in
  let! _ := clear_column_family (λ x, bool_decide (block_heights_cf x = ∅))
              (index_write "Failed to clear column family" (λ x, set_index (blocks_cf x) ∅ (last_block_file_index x) x)) in
  let! _ := clear_column_family (λ x, bool_decide (block_commits_cf (db (bx_disk x)) = ∅))
              (on_disk_of_index (write "Failed to clear column family" (on_block_commits_cf (λ _, ∅)))) in
  let! x := gets id in
  if bool_decide (is_Some (last_block_file_index x))
  then fail "Block index clear verification failed: last_block_file_index still exists"
  else if negb (bool_decide (get_all_blocks x = ∅))
  then fail "Block index clear verification failed: blocks CF is not empty"
  else if negb (bool_decide (get_all_block_heights x = []))
  then fail "Block index clear verification failed: block_heights CF is not empty"
  else ret tt.

(** ** The cache of block files *)

Definition BLOCK_FILE_PREFETCH_QUEUE_CAPACITY : nat := 5.
(** The files read, and the thread that reads ahead: its queue, the requests it has not received, the
    one it works on, the file it has chosen to load, whether it runs, and the last file it may load. *)
Record BlockFileCache := {
  fc_files : gmap Z (list FileBlock);
  fc_queue : list (Z * list FileBlock);
  fc_requests : list Z;
  fc_working : option Z;
  fc_loading : option Z;
  fc_running : bool;
  fc_latest : Z
}.
Definition new_file_cache (latest_blk_file_index : Z) : BlockFileCache :=
  {| fc_files := ∅; fc_queue := []; fc_requests := []; fc_working := None; fc_loading := None; fc_running := true;
     fc_latest := latest_blk_file_index |}.
Definition set_files m c :=
  {| fc_files := m; fc_queue := fc_queue c; fc_requests := fc_requests c; fc_working := fc_working c;
     fc_loading := fc_loading c; fc_running := fc_running c; fc_latest := fc_latest c |}.
Definition set_queue q c :=
  {| fc_files := fc_files c; fc_queue := q; fc_requests := fc_requests c; fc_working := fc_working c;
     fc_loading := fc_loading c; fc_running := fc_running c; fc_latest := fc_latest c |}.
Definition set_thread requests working loading running c :=
  {| fc_files := fc_files c; fc_queue := fc_queue c; fc_requests := requests; fc_working := working;
     fc_loading := loading; fc_running := running; fc_latest := fc_latest c |}.
(** What a full cache forgets before an insertion. *)
Class FileLruCrate := { evict_files : gmap Z (list FileBlock) → gmap Z (list FileBlock) }.

Section FileCache.
Context `{BlockCrate} `{FileLruCrate} (reader : BlockFileReader).

(** One action of the thread: to receive a request, to choose the next file, or to load it.  With a full
    queue it turns without doing anything. *)
Definition prefetch_step (c : BlockFileCache) : BlockFileCache :=
  if negb (fc_running c) then c
  else
    match fc_working c, fc_loading c with
    | None, _ =>
        match fc_requests c with
        | [] => c
        | file_index :: requests =>
            if file_index =? 0 then set_thread requests None None false c
            else set_thread requests (Some file_index) None true c
        end
    | Some file_index, None =>
        if Nat.leb BLOCK_FILE_PREFETCH_QUEUE_CAPACITY (length (fc_queue c)) then c
        else
          let prefetch_index := from_option (λ p, p.1 + 1) file_index (last (fc_queue c)) in
          if prefetch_index >? fc_latest c then set_thread (fc_requests c) None None false c
          else set_thread (fc_requests c) (Some file_index) (Some prefetch_index) true c
    | Some file_index, Some prefetch_index =>
        match load_blk_blocks_by_index reader prefetch_index with
        | Ok blocks =>
            set_queue (fc_queue c ++ [(prefetch_index, blocks)])
              (set_thread (fc_requests c) (Some file_index) None true c)
        | _ => set_thread (fc_requests c) None None true c
        end
    end.
Definition notify_prefetch (file_index : Z) : M BlockFileCache unit :=
  modify (λ c, if fc_running c
               then set_thread (fc_requests c ++ [file_index]) (fc_working c) (fc_loading c) true c else c).
Definition get_next_prefetch (file_index : Z) : M BlockFileCache (option (Z * list FileBlock)) := λ c,
  match fc_queue c with
  | [] => (Ok None, c)
  | (index, blocks) :: queue =>
      if file_index <? index then (Ok None, c) else (Ok (Some (index, blocks)), set_queue queue c)
  end.
(** The loop of [fetch_by_index]; [script] says how many actions of the thread fall before each look at
    the queue, and none once it ends. *)
Fixpoint drain (file_index : Z) (queue : list (Z * list FileBlock)) :
    option (list FileBlock) * list (Z * list FileBlock) :=
  match queue with
  | [] => (None, [])
  | (index, blocks) :: rest =>
      if file_index <? index then (None, queue)
      else if index =? file_index then (Some blocks, rest)
      else drain file_index rest
  end.
Fixpoint fetch_loop (script : list nat) (file_index : Z) : M BlockFileCache (option (list FileBlock)) :=
  match script with
  | [] => λ c, let '(found, queue) := drain file_index (fc_queue c) in (Ok found, set_queue queue c)
  | actions :: script =>
      let! _ := modify (Nat.iter actions prefetch_step) in
      let! next := get_next_prefetch file_index in
      match next with
      | None => ret None
      | Some (index, blocks) =>
          if index =? file_index then ret (Some blocks) else fetch_loop script file_index
      end
  end.
Definition fetch_by_index (script : list nat) (file_index : Z) : M BlockFileCache (option (list FileBlock)) :=
  let! _ := notify_prefetch (file_index + 1) in
  fetch_loop script file_index.
Definition get_block_by_file_index (script : list nat) (file_index record_index : Z) :
    M BlockFileCache FileBlock :=
  let! cached := gets (λ c, fc_files c !! file_index) in
  let! blocks :=
    match cached with
    | Some blocks => ret blocks
    | None =>
        let! prefetched := fetch_by_index script file_index in
        let! blocks := match prefetched with
                       | Some blocks => ret blocks
                       | None => lift (load_blk_blocks_by_index reader file_index)
                       end in
        let! _ := modify (λ c, set_files (<[file_index := blocks]> (evict_files (fc_files c))) c) in
        ret blocks
    end in
  lift (ok_or "Record index out of bounds" (blocks !! Z.to_nat record_index)).
Definition clear_file_cache : M BlockFileCache unit := modify (set_files ∅).
End FileCache.

(** ** The loader *)

Record BlockLocalLoader := {
  ld_cache : BlockRecordCache;
  ld_files : BlockFileCache;
  ld_index : BlockIndexDb;
  ld_should_stop : bool
}.
Definition on_cache {A} (m : M BlockRecordCache A) : M BlockLocalLoader A :=
  zoom ld_cache (λ c s, {| ld_cache := c; ld_files := ld_files s; ld_index := ld_index s;
                           ld_should_stop := ld_should_stop s |}) m.
Definition on_files {A} (m : M BlockFileCache A) : M BlockLocalLoader A :=
  zoom ld_files (λ c s, {| ld_cache := ld_cache s; ld_files := c; ld_index := ld_index s;
                           ld_should_stop := ld_should_stop s |}) m.
Definition on_index {A} (m : M BlockIndexDb A) : M BlockLocalLoader A :=
  zoom ld_index (λ x s, {| ld_cache := ld_cache s; ld_files := ld_files s; ld_index := x;
                           ld_should_stop := ld_should_stop s |}) m.
(** The order in which rayon's parallel loop merges the files, and the files before which it sees the
    signal to stop. *)
Class IndexRun := { file_order : Z → list Z; stops_at : Z → bool }.

Section Loader.
Context `{BitcoinCrate} `{BTCClient} `{BlockByHash} `{BlockCrate} `{FileLruCrate} `{IndexRun}.
Context (reader : BlockFileReader).

Definition new_loader (x : BlockIndexDb) : result BlockLocalLoader :=
  let? latest := find_latest_blk_file reader in
  Ok {| ld_cache := empty_record_cache; ld_files := new_file_cache latest; ld_index := x; ld_should_stop := false |}.

(** *** Building *)

Definition build_index_by_file (file_index : Z) : M BlockRecordCache unit :=
  if stops_at file_index then fail "Stopped"
  else
    let! records := lift (scan_file reader file_index) in
    merge_build_result records.
(** Every file is tried; of the errors, the one of the first file counts. *)
Fixpoint first_error (files : list Z) (outcomes : gmap Z (unit + string)) : result unit :=
  match files with
  | [] => Ok tt
  | i :: files =>
      match outcomes !! i with
      | Some (inr e) => Err e
      | _ => first_error files outcomes
      end
  end.
Definition build_index_by_file_range (last_file : Z) : M BlockRecordCache unit :=
  let! outcomes := map_m (file_order last_file) (λ i, let! o := try (build_index_by_file i) in ret (i, o)) in
  lift (first_error (heights 0 last_file) (list_to_map outcomes)).
Definition build_file_index : M BlockRecordCache unit :=
  let! latest_blk_file_index := lift (find_latest_blk_file reader) in
  match last_complete_blk_file_index latest_blk_file_index with
  | None => generate_sort_blocks
  | Some last_file =>
      let! _ := build_index_by_file_range last_file in
      generate_sort_blocks
  end.

Definition save_to_db (last_file : u32) : M BlockLocalLoader unit :=
  let! cache := gets ld_cache in
  on_index (put_blocks_sync last_file (cf_rows (be_bytes 32) (block_hash_cache cache)) (sorted_blocks cache)).
Definition rebuild_block_index : M BlockLocalLoader unit :=
  let! _ := on_cache build_file_index in
  let! last_file := gets (λ s, calc_latest_block_file_index (ld_cache s)) in
  match last_file with
  | None => ret tt
  | Some last_file => save_to_db last_file
  end.

(** *** Restoring *)

Definition load_from_db : M BlockLocalLoader unit :=
  let! x := gets ld_index in
  on_cache (modify (λ c, {| block_hash_cache := get_all_blocks x; block_prev_hash_cache := block_prev_hash_cache c;
                            sorted_blocks := get_all_block_heights x |})).
Definition clear_record_cache : M BlockLocalLoader unit := on_cache (modify (λ _, empty_record_cache)).
Definition should_try_restore_from_db (last_file current_last_blk_file : u32) : bool :=
  last_file >=? u32_saturating_sub current_last_blk_file 10.
Definition validation_tip_height (len : Z) : option u32 :=
  if len =? 0 then None else Some (usize_as_u32 (len - 1)).

Fixpoint check_heights (blocks : gmap BlockHash BlockEntry) (expected_height : u32)
    (sorted : list (u32 * BlockHash)) : result unit :=
  match sorted with
  | [] => Ok tt
  | (height, hash) :: sorted =>
      if negb (height =? expected_height) then Err "Persisted block heights are not contiguous"
      else if negb (bool_decide (is_Some (blocks !! hash)))
      then Err "Persisted block hash is missing from block cache"
      else check_heights blocks (u32_add expected_height 1) sorted
  end.
Definition validate_loaded_block_index (cache : BlockRecordCache) (last_file current_last_blk_file : u32) :
    result unit :=
  if bool_decide (sorted_blocks cache = []) then Err "Persisted block index is empty"
  else if last_file >? current_last_blk_file
  then Err "Persisted last block file index exceeds current local blk file"
  else if from_option (λ m, m >? last_file) false (calc_latest_block_file_index cache)
  then Err "Cached block file index exceeds persisted last block file index"
  else
    let? _ := check_heights (block_hash_cache cache) 0 (sorted_blocks cache) in
    match validation_tip_height (count (sorted_blocks cache)) with
    | None => Ok tt
    | Some height =>
        let? expected := match sorted_blocks cache !! Z.to_nat height with
                         | Some b => Ok b.2 | None => Panic "index out of bounds" end in
        let? rpc_hash := err_as "Failed to validate persisted block index against RPC" (btc_get_block_hash height) in
        if bool_decide (rpc_hash = expected) then Ok tt else Err "Persisted block hash mismatch"
    end.

Definition restore_or_clear_persisted_block_index (last_file current_last_blk_file : u32) :
    M BlockLocalLoader unit :=
  let! _ := clear_record_cache in
  let! _ := load_from_db in
  let! cache := gets ld_cache in
  let! validation := try (lift (validate_loaded_block_index cache last_file current_last_blk_file)) in
  match validation with
  | inl _ => ret tt
  | inr reason =>
      let! _ := clear_record_cache in
      let! _ := map_err "additionally failed to clear persisted block index" (on_index clear_blocks) in
      fail reason
  end.
Definition try_restore_block_index_from_db (last_file current_last_blk_file : u32) : M BlockLocalLoader bool :=
  let! restored := try (restore_or_clear_persisted_block_index last_file current_last_blk_file) in
  ret (match restored with inl _ => true | inr _ => false end).

Definition build_index : M BlockLocalLoader unit :=
  let! last_file := gets (λ s, last_block_file_index (ld_index s)) in
  match last_file with
  | None => rebuild_block_index
  | Some last_file =>
      let! latest := lift (find_latest_blk_file reader) in
      let current_last_blk_file := usize_as_u32 latest in
      if last_file >? current_last_blk_file then
        let! _ := on_index clear_blocks in
        rebuild_block_index
      else if should_try_restore_from_db last_file current_last_blk_file then
        let! restored := try_restore_block_index_from_db last_file current_last_blk_file in
        if (restored : bool) then ret tt else rebuild_block_index
      else rebuild_block_index
  end.

(** *** Reading *)

Definition loader_get_block_hash (block_height : u32) (s : BlockLocalLoader) : result BlockHash :=
  match sorted_blocks (ld_cache s) !! Z.to_nat block_height with
  | Some b => Ok b.2
  | None => btc_get_block_hash block_height
  end.
Definition loader_get_block_by_hash (script : list nat) (hash : BlockHash) :
    M BlockLocalLoader BtcBlock :=
  let! entry := gets (λ s, block_hash_cache (ld_cache s) !! hash) in
  match entry with
  | Some entry =>
      let! block := on_files (get_block_by_file_index reader script (bf_block_file_index entry)
                                (bf_block_record_index entry)) in
      ret (fb_block block)
  | None => lift (err_as "Failed to get block from rpc" (btc_get_block_by_hash hash))
  end.
Definition loader_get_block_by_height (script : list nat) (block_height : u32) :
    M BlockLocalLoader BtcBlock :=
  let! hash := (λ s, (loader_get_block_hash block_height s, s)) in
  loader_get_block_by_hash script hash.
Definition loader_get_blocks (script : list nat) (start_height end_height : u32) :
    M BlockLocalLoader (list BtcBlock) :=
  map_m (heights start_height end_height) (loader_get_block_by_height script).

Definition loader_init : M BlockLocalLoader unit := build_index.
Definition loader_stop : M BlockLocalLoader unit :=
  modify (λ s, {| ld_cache := ld_cache s; ld_files := ld_files s; ld_index := ld_index s; ld_should_stop := true |}).
Definition loader_on_sync_complete (block_height : u32) : M BlockLocalLoader unit :=
  let! _ := clear_record_cache in
  on_files clear_file_cache.
End Loader.
