(* ===== verification/BlockRecords.v ===== *)
(** * What a block file holds

    The readers of [BlockFiles] over a file that the node wrote: the key is undone however the file is
    cut into reads, every record comes back, and the scan of a file lists its blocks by their number;
    the offsets it lists are wrong. *)

From S2P Require Import Prelude Encoding Types Tx BalanceCodec BalanceDb BalanceBlock BlockFiles.

(** ** The key *)

Lemma xor_read_app key pos a b :
  (xor_read key pos (a ++ b)).1 = (xor_read key pos a).1 ++ (xor_read key (xor_read key pos a).2 b).1.
Proof.
  unfold xor_read. cbn [fst snd]. rewrite imap_app. f_equal. apply imap_ext. intros i x _. unfold compose.
  rewrite Nat.Div0.add_mod_idemp_l. do 3 f_equal. lia.
Qed.
Lemma xor_read_twice key data : (xor_read key 0 (xor_read key 0 data).1).1 = data.
Proof.
  unfold xor_read. cbn. apply list_eq. intros i. rewrite !list_lookup_imap. destruct (data !! i); [|done]. cbn.
  by rewrite Z.lxor_assoc, Z.lxor_nilpotent, Z.lxor_0_r.
Qed.
(** The bytes as bitcoind stores them. *)
Definition stored : BlockFileReader → list Z → list Z := decrypted.
Lemma decrypted_stored r data : decrypted r (stored r data) = data.
Proof. unfold stored, decrypted. destruct (xor_key r); [done|apply xor_read_twice]. Qed.

(** ** Records *)

Definition le_bytes (n : nat) (z : Z) : list Z := rev (be_bytes n z).
Definition write_record (block_magic : u32) (record : list Z) : list Z :=
  le_bytes 4 block_magic ++ le_bytes 4 (count record) ++ record.
Definition write_records (block_magic : u32) (records : list (list Z)) : list Z := records ≫= write_record block_magic.
(** A record and its size fit the file format. *)
Definition record_fits (record : list Z) : Prop := count record <= U32_MAX.

Lemma of_le_bytes_le_bytes z : 0 <= z <= U32_MAX → of_le_bytes (le_bytes 4 z) = z.
Proof. intros Hz. unfold of_le_bytes, le_bytes. rewrite rev_involutive. by apply of_be_bytes_be_bytes, pow_u32. Qed.
Lemma length_le_bytes n z : length (le_bytes n z) = n.
Proof. unfold le_bytes. by rewrite length_rev, length_be_bytes. Qed.
Lemma read_exact_app n a b : length a = n → read_exact n (a ++ b) = Some (a, b).
Proof.
  intros <-. unfold read_exact. rewrite length_app, (proj2 (Nat.leb_le _ _)) by lia.
  by rewrite take_app_length, drop_app_length.
Qed.
Lemma read_record_size record : record_fits record → Z.to_nat (of_le_bytes (le_bytes 4 (count record))) = length record.
Proof. intros Hr. rewrite of_le_bytes_le_bytes; [unfold count; lia|]. unfold record_fits, count in *. lia. Qed.

Lemma read_records_written magic records fuel :
  0 <= magic <= U32_MAX → Forall record_fits records → (length (write_records magic records) < fuel)%nat →
  read_records fuel magic (write_records magic records) = Ok records.
Proof.
  intros Hm. revert fuel. induction records as [|record records IH]; intros fuel Hf Hlen.
  - destruct fuel; [lia|]. done.
  - apply Forall_cons in Hf as [Hr Hf]. change (write_records magic (record :: records))
      with (write_record magic record ++ write_records magic records) in *. unfold write_record in *.
    rewrite !length_app, !length_le_bytes in Hlen. destruct fuel as [|fuel]; [lia|].
    cbn [read_records]. rewrite <-!app_assoc.
    rewrite read_exact_app by apply length_le_bytes. rewrite of_le_bytes_le_bytes, Z.eqb_refl by done. cbn [negb].
    rewrite read_exact_app by apply length_le_bytes. cbn [ok_or result_bind].
    rewrite read_exact_app by (by rewrite read_record_size). cbn [ok_or result_bind]. rewrite IH by (done || lia). done.
Qed.
Lemma read_blk_records_written r records :
  0 <= block_magic r <= U32_MAX → Forall record_fits records →
  read_blk_records r (stored r (write_records (block_magic r) records)) = Ok records.
Proof.
  intros Hm Hf. unfold read_blk_records. rewrite decrypted_stored. apply read_records_written; [done|done|].
  unfold stored, decrypted. destruct (xor_key r); [lia|]. unfold xor_read. cbn. rewrite length_imap. lia.
Qed.

(** ** The scan *)

Section Scan.
Context `{BlockCrate}.

Lemma load_written r i records blocks :
  0 <= block_magic r <= U32_MAX → Forall record_fits records →
  blk_files r !! i = Some (stored r (write_records (block_magic r) records)) →
  collect decode_record records = Ok blocks → load_blk_blocks_by_index r i = Ok blocks.
Proof.
  intros Hm Hf Hi Hb. unfold load_blk_blocks_by_index, read_blk_records_by_index. rewrite Hi. cbn [ok_or result_bind].
  by rewrite read_blk_records_written.
Qed.

(** What the index keeps of a record, without its offset. *)
Definition listed (r : BuildRecordResult) : BlockHash * BlockHash * (Z * Z) :=
  (br_block_hash r, br_prev_block_hash r, (br_block_file_index r, br_block_record_index r)).
Definition listing (i n : Z) (blocks : list FileBlock) : list (BlockHash * BlockHash * (Z * Z)) :=
  imap (λ m b, (block_hash (fb_block b), fb_prev_blockhash b, (i, n + Z.of_nat m))) blocks.
Lemma index_records_listing i records : ∀ blocks offset n,
  collect decode_record records = Ok blocks →
  ∃ rs, index_records i offset n records = Ok rs ∧ listed <$> rs = listing i n blocks.
Proof.
  induction records as [|record records IH]; intros blocks offset n Hb.
  - injection Hb as <-. by exists [].
  - cbn in Hb. destruct (decode_record record) as [b|e|e] eqn:Eb; [|done..]. cbn in Hb.
    destruct (collect decode_record records) as [bs|e|e] eqn:Ec; [|done..]. injection Hb as <-.
    destruct (IH bs (offset + (8 + 4 + count record)) (n + 1) eq_refl) as (rs & E & L). eexists. cbn [index_records].
    rewrite Eb. cbn [result_bind]. rewrite E. split; [done|]. cbn. unfold listing. cbn. f_equal.
    + unfold listed, on_block_indexed. cbn [br_block_hash br_prev_block_hash br_block_file_index br_block_record_index].
      by rewrite Z.add_0_r.
    + rewrite L. unfold listing. apply imap_ext. intros m x _. unfold compose.
      by replace (n + Z.of_nat (S m)) with (n + 1 + Z.of_nat m) by lia.
Qed.
Lemma scan_listing r i blocks : load_blk_blocks_by_index r i = Ok blocks →
  ∃ rs, scan_file r i = Ok rs ∧ listed <$> rs = listing i 0 blocks.
Proof.
  unfold load_blk_blocks_by_index, scan_file. destruct (read_blk_records_by_index r i) as [records|e|e]; [|done..].
  cbn. apply index_records_listing.
Qed.

(** The offset listed for a record, and where the record starts. *)
Lemma index_records_offsets i magic records : ∀ rs offset n m r,
  index_records i offset n records = Ok rs → rs !! m = Some r →
  br_block_file_offset r = offset + count (write_records magic (take m records)) + 4 * Z.of_nat m.
Proof.
  induction records as [|record records IH]; intros rs offset n m r E Hr.
  - injection E as <-. done.
  - cbn in E. destruct (decode_record record) as [b|e|e]; [|done..]. cbn in E.
    destruct (index_records i _ _ records) as [rest|e|e] eqn:Er; [|done..]. injection E as <-.
    destruct m as [|m]; cbn in Hr.
    + injection Hr as <-. cbn. unfold count. cbn. lia.
    + rewrite (IH _ _ _ _ _ Er Hr). cbn [take]. change (write_records magic (record :: take m records))
        with (write_record magic record ++ write_records magic (take m records)).
      unfold count, write_record. rewrite !length_app, !length_le_bytes. lia.
Qed.
End Scan.
