(* ===== verification/LoaderIndex.v ===== *)
(** * The index of the local loader

    What [LocalLoader] builds from the files of the node: the entry of every block, the children of
    every block in the order of the merges, and the path from the zero hash that the sorting follows. *)

From S2P Require Import Prelude Encoding Types Tx BalanceCodec BalanceDb BalanceDbFacts BalanceBlock BlockFiles.
From S2P Require Import BlockRecords LocalLoader.

(** ** Merging *)

Definition hash_entry (r : BuildRecordResult) : BlockHash * BlockEntry := (br_block_hash r, record_entry r).
Definition children (rs : list BuildRecordResult) (p : BlockHash) : list BlockHash :=
  br_block_hash <$> filter (λ r, br_prev_block_hash r = p) rs.
(** The cache holds the records [rs], merged in this order. *)
Record holds_records (rs : list BuildRecordResult) (c : BlockRecordCache) : Prop := {
  hr_entries : block_hash_cache c = list_to_map (hash_entry <$> rs);
  hr_children p : block_prev_hash_cache c !! p = match children rs p with [] => None | l => Some l end;
  hr_unsorted : sorted_blocks c = []
}.

Lemma children_app rs rs' p : children (rs ++ rs') p = children rs p ++ children rs' p.
Proof. unfold children. by rewrite filter_app, fmap_app. Qed.
Lemma elem_of_children rs p h : h ∈ children rs p ↔ ∃ r, r ∈ rs ∧ br_prev_block_hash r = p ∧ br_block_hash r = h.
Proof. unfold children. rewrite list_elem_of_fmap. setoid_rewrite list_elem_of_filter. naive_solver. Qed.

Lemma add_entry_run rs r c :
  NoDup (br_block_hash <$> rs ++ [r]) → holds_records rs c →
  ∃ c', add_new_block_entry (br_block_hash r) (br_prev_block_hash r) (record_entry r) c = (Ok tt, c')
    ∧ holds_records (rs ++ [r]) c'.
Proof.
  intros Hn [He Hc Hs]. rewrite fmap_app in Hn. apply NoDup_app in Hn as (_ & Hd & _).
  assert (br_block_hash r ∉ (hash_entry <$> rs).*1) as Hr.
  { rewrite <-list_fmap_compose. intros Hx. apply (Hd _ Hx). by left. }
  assert (block_hash_cache c !! br_block_hash r = None) as E by (rewrite He; by apply not_elem_of_list_to_map_1).
  unfold add_new_block_entry. rewrite E. eexists. split; [reflexivity|]. split; [| |done].
  - cbn. rewrite He, fmap_app, list_to_map_app. cbn. rewrite insert_empty.
    rewrite insert_union_singleton_l. apply map_union_comm, map_disjoint_singleton_l. by rewrite <-He.
  - intros p. cbn [block_prev_hash_cache]. rewrite children_app.
    destruct (decide (br_prev_block_hash r = p)) as [<-|Hp].
    + rewrite lookup_insert_eq, Hc. unfold children at 3. rewrite filter_cons_True by done. cbn. by destruct (children rs _).
    + rewrite lookup_insert_ne, Hc by done. unfold children at 3. rewrite filter_cons_False by done. cbn. by rewrite app_nil_r.
Qed.
Lemma merge_run new : ∀ rs c,
  NoDup (br_block_hash <$> rs ++ new) → holds_records rs c →
  ∃ c', merge_build_result new c = (Ok tt, c') ∧ holds_records (rs ++ new) c'.
Proof.
  induction new as [|r new IH]; intros rs c Hn Hc; [exists c; by rewrite app_nil_r|].
  rewrite cons_middle, app_assoc in Hn.
  destruct (add_entry_run rs r c) as (c1 & E1 & H1); [|done|].
  { rewrite fmap_app in Hn. by apply NoDup_app in Hn as [? _]. }
  destruct (IH (rs ++ [r]) c1 Hn H1) as (c' & E' & H'). exists c'. rewrite <-app_assoc in H'. split; [|done].
  unfold merge_build_result in *. cbn [for_each]. by rewrite (bind_run _ _ _ _ _ E1).
Qed.

(** ** The files *)

Class IndexRunLaws `{IndexRun} := {
  every_file_once last_file : file_order last_file ≡ₚ heights 0 last_file;
  never_stopped i : stops_at i = false
}.

Section Files.
Context `{BC : BitcoinCrate} `{CL : BTCClient} `{KC : BlockCrate} `{IR : IndexRun} `{IL : !IndexRunLaws}.
Context (reader : BlockFileReader).

Lemma files_run (recs : Z → list BuildRecordResult) order : ∀ rs c,
  (∀ i, i ∈ order → scan_file reader i = Ok (recs i)) → NoDup (br_block_hash <$> rs ++ (order ≫= recs)) → holds_records rs c →
  ∃ c' outcomes, map_m order (λ i, let! o := try (build_index_by_file reader i) in ret (i, o)) c = (Ok outcomes, c')
    ∧ holds_records (rs ++ (order ≫= recs)) c' ∧ Forall (λ o, o.2 = inl tt) outcomes.
Proof.
  induction order as [|i order IH]; intros rs c Hs Hn Hc.
  - exists c, []. cbn. by rewrite app_nil_r.
  - cbn [mbind list_bind] in Hn. change (mbind recs (i :: order)) with (recs i ++ (order ≫= recs)) in *.
    rewrite app_assoc in Hn.
    destruct (merge_run (recs i) rs c) as (c1 & E1 & H1); [|done|].
    { rewrite fmap_app in Hn. by apply NoDup_app in Hn as [? _]. }
    destruct (IH (rs ++ recs i) c1) as (c' & outcomes & E' & H' & F); [intros; apply Hs; by right|done|done|].
    exists c', ((i, inl tt) :: outcomes). rewrite <-app_assoc in H'. split; [|by split; [|constructor]].
    cbn [map_m]. assert (build_index_by_file reader i c = (Ok tt, c1)) as Eb.
    { unfold build_index_by_file. rewrite never_stopped. rewrite (Hs i) by by left. exact E1. }
    erewrite bind_run; [erewrite bind_run by exact E'; reflexivity|].
    unfold try, bind. by rewrite Eb.
Qed.
Lemma first_error_none files outcomes : (∀ i o, outcomes !! i = Some o → o = inl tt) → first_error files outcomes = Ok tt.
Proof.
  intros Ho. induction files as [|i files IH]; [done|]. cbn. destruct (outcomes !! i) as [o|] eqn:E; [|done].
  by rewrite (Ho _ _ E).
Qed.
Lemma file_range_run recs last_file c :
  (∀ i, 0 <= i <= last_file → scan_file reader i = Ok (recs i)) →
  NoDup (br_block_hash <$> (heights 0 last_file ≫= recs)) → holds_records [] c →
  ∃ rs c', rs ≡ₚ (heights 0 last_file ≫= recs)
    ∧ build_index_by_file_range reader last_file c = (Ok tt, c') ∧ holds_records rs c'.
Proof.
  intros Hs Hn Hc. destruct (files_run recs (file_order last_file) [] c) as (c' & outcomes & E & H & F).
  - intros i Hi. apply Hs. by rewrite every_file_once, elem_of_heights in Hi.
  - cbn. by rewrite every_file_once.
  - done.
  - exists (file_order last_file ≫= recs), c'. split; [by rewrite every_file_once|]. split; [|done].
    unfold build_index_by_file_range. rewrite (bind_run _ _ _ _ _ E). unfold lift. f_equal. apply first_error_none.
    intros i o Ho%elem_of_list_to_map_2. rewrite Forall_forall in F. by apply (F _ Ho).
Qed.
End Files.

(** ** Sorting *)

Section Sort.
Context `{BC : BitcoinCrate} `{CL : BTCClient} (c : BlockRecordCache).

(** The child of [p] that the sorting chooses at a height. *)
Definition selects (p : BlockHash) (height : u32) (h : BlockHash) : Prop :=
  is_Some (block_hash_cache c !! h)
  ∧ ∃ l, block_prev_hash_cache c !! p = Some l ∧ h ∈ l
     ∧ (l = [h] ∨ ∃ b, btc_get_block_by_height height = Ok b ∧ block_hash b = h).
(** The path from a hash at a height: every step is selected, and the last block has no child. *)
Fixpoint path_from (p : BlockHash) (height : u32) (path : list BlockHash) : Prop :=
  match path with
  | [] => block_prev_hash_cache c !! p = None
  | h :: path => selects p height h ∧ path_from h (height + 1) path
  end.
Fixpoint numbered (height : u32) (path : list BlockHash) : list (u32 * BlockHash) :=
  match path with
  | [] => []
  | h :: path => (height, h) :: numbered (height + 1) path
  end.

Lemma sort_path path : ∀ fuel p height,
  path_from p height path → (length path < fuel)%nat → 0 <= height → height + count path <= U32_MAX →
  sort_blocks fuel c p height = Ok (numbered height path).
Proof.
  induction path as [|h path IH]; intros [|fuel] p height Hp Hf H0 Hmax; [cbn in Hf; lia| |cbn in Hf; lia|].
  - cbn in *. by rewrite Hp.
  - destruct Hp as [(Hh & l & Hl & Hin & Hsel) Hp]. cbn [sort_blocks]. rewrite Hl. unfold count in *.
    cbn [length] in *. rewrite Nat2Z.inj_succ in Hmax.
    pose proof (u32_add_small height 1 ltac:(lia)) as Eh.
    destruct l as [|first rest]; [by apply elem_of_nil in Hin|].
    assert ((match rest with
             | [] => Ok first
             | _ => let? block := err_as "Failed to get block from rpc" (btc_get_block_by_height height) in
                    if bool_decide (block_hash block ∈ first :: rest) then Ok (block_hash block)
                    else Err "Rpc returned a block hash which is not in the list of block hashes"
             end) = Ok h) as ->.
    { destruct rest as [|second rest].
      - apply list_elem_of_singleton in Hin. by subst.
      - destruct Hsel as [[=]|(b & -> & <-)]. cbn [err_as result_bind]. by rewrite bool_decide_true. }
    cbn [result_bind]. destruct Hh as [e ->]. rewrite Eh, IH; [done|done|lia|lia|lia].
Qed.

Lemma length_numbered path : ∀ height, length (numbered height path) = length path.
Proof. induction path; intros; cbn; by f_equal. Qed.
Lemma numbered_lookup path : ∀ height i h, path !! i = Some h → numbered height path !! i = Some (height + Z.of_nat i, h).
Proof.
  induction path as [|h' path IH]; intros height [|i] h Hi; [done|done| |].
  - injection Hi as ->. cbn. by rewrite Z.add_0_r.
  - cbn in *. rewrite (IH _ _ _ Hi). do 2 f_equal. lia.
Qed.
Lemma path_in_cache path : ∀ p height, path_from p height path → Forall (λ h, is_Some (block_hash_cache c !! h)) path.
Proof. induction path as [|h path IH]; intros p height; [by constructor|]. intros [[Hh _] Hp]. constructor; [done|by eapply IH]. Qed.

(** A path without repetition is sorted with the fuel there is. *)
Lemma sort_run path :
  path_from ZERO_HASH 0 path → NoDup path → count path <= U32_MAX →
  generate_sort_blocks c
  = (Ok tt, {| block_hash_cache := block_hash_cache c; block_prev_hash_cache := block_prev_hash_cache c;
               sorted_blocks := numbered 0 path |}).
Proof.
  intros Hp Hn Hc. unfold generate_sort_blocks. rewrite (sort_path path); [done|done| |lia|lia].
  unfold sort_fuel. pose proof (rows_length id path (block_hash_cache c)) as Hl. rewrite list_fmap_id in Hl.
  specialize (Hl Hn (λ h Hh, proj1 (Forall_forall _ _) (path_in_cache _ _ _ Hp) h Hh)). unfold count in Hl. lia.
Qed.
End Sort.
