(* ===== verification/LoaderServes.v ===== *)
(** * The local loader serves the chain of the node

    Over files that hold a part of the node's chain, with forks, the index is built, and whatever the
    thread that reads ahead does, the loader answers as the node. *)

From S2P Require Import Prelude Encoding Types Tx BalanceCodec BalanceDb BalanceDbFacts BalanceBlock BlockFiles.
From S2P Require Import BlockRecords LocalLoader LoaderIndex.

(** ** The cache of files is transparent *)

Class FileLruCrateLaws `{FileLruCrate} := { evict_files_subset m : evict_files m ⊆ m }.

Section FileCache.
Context `{KC : BlockCrate} `{FC : FileLruCrate} `{FL : !FileLruCrateLaws} (reader : BlockFileReader).

(** Files in the cache and in the queue are those on disk. *)
Definition files_ok (c : BlockFileCache) : Prop :=
  (∀ i blocks, fc_files c !! i = Some blocks → load_blk_blocks_by_index reader i = Ok blocks)
  ∧ ∀ i blocks, (i, blocks) ∈ fc_queue c → load_blk_blocks_by_index reader i = Ok blocks.
Lemma prefetch_step_ok c : files_ok c → files_ok (prefetch_step reader c).
Proof.
  intros [Hf Hq]. unfold prefetch_step. destruct (fc_running c); [|done]. cbn [negb].
  destruct (fc_working c) as [f|].
  - destruct (fc_loading c) as [p|].
    + destruct (load_blk_blocks_by_index reader p) as [bs|e|e] eqn:El; [|done..]. split; [done|]. cbn.
      intros i blocks [?|Hx]%elem_of_app; [by apply Hq|]. apply list_elem_of_singleton in Hx. by injection Hx as -> ->.
    + destruct (Nat.leb _ _); [done|]. by destruct (_ >? _).
  - destruct (fc_requests c) as [|r rs]; [done|]. by destruct (r =? 0).
Qed.
Lemma prefetch_steps_ok n c : files_ok c → files_ok (Nat.iter n (prefetch_step reader) c).
Proof. intros Hc. induction n as [|n IH]; [done|]. by apply prefetch_step_ok. Qed.
Lemma set_queue_ok q c : files_ok c → (∀ x, x ∈ q → x ∈ fc_queue c) → files_ok (set_queue q c).
Proof. intros [Hf Hq] Hs. split; [done|]. intros i blocks Hx. apply Hq. by apply Hs. Qed.

Lemma drain_spec i q : (∀ x, x ∈ (drain i q).2 → x ∈ q) ∧ ∀ blocks, (drain i q).1 = Some blocks → (i, blocks) ∈ q.
Proof.
  induction q as [|[j bs] q [IH1 IH2]]; [by split|]. cbn. destruct (i <? j); [by split|].
  destruct (j =? i) eqn:E; b2p.
  - subst. split; cbn; [intros x Hx; by right|]. intros ? [= <-]. by left.
  - split; [intros x Hx; right; by apply IH1|]. intros blocks Hb. right. by apply IH2.
Qed.
Lemma fetch_loop_ok script i : ∀ c, files_ok c →
  ∃ r c', fetch_loop reader script i c = (Ok r, c') ∧ files_ok c'
    ∧ ∀ blocks, r = Some blocks → load_blk_blocks_by_index reader i = Ok blocks.
Proof.
  induction script as [|n script IH]; intros c Hc.
  - cbn. pose proof (drain_spec i (fc_queue c)) as [H1 H2]. destruct (drain i (fc_queue c)) as [r q].
    exists r, (set_queue q c). split; [done|]. split; [by apply set_queue_ok|]. intros blocks ->. apply Hc. by apply H2.
  - cbn [fetch_loop]. erewrite bind_run by reflexivity. pose proof (prefetch_steps_ok n c Hc) as Hc1.
    set (c1 := Nat.iter n _ c) in *. unfold bind at 1, get_next_prefetch.
    destruct (fc_queue c1) as [|[j bs] q] eqn:Eq; [by exists None, c1|].
    destruct (i <? j); [by exists None, c1|].
    assert (files_ok (set_queue q c1)) as Hc2 by (apply set_queue_ok; [done|]; rewrite Eq; intros; by right).
    destruct (j =? i) eqn:E; b2p; [|by apply IH]. subst j. exists (Some bs), (set_queue q c1).
    split; [done|]. split; [done|]. intros ? [= <-]. apply Hc1. rewrite Eq. by left.
Qed.
Lemma get_block_ok script i k c : files_ok c →
  ∃ c', get_block_by_file_index reader script i k c
        = (let? blocks := load_blk_blocks_by_index reader i in ok_or "Record index out of bounds" (blocks !! Z.to_nat k), c')
    ∧ files_ok c'.
Proof.
  intros Hc. unfold get_block_by_file_index. erewrite bind_run by reflexivity.
  destruct (fc_files c !! i) as [blocks|] eqn:Ei.
  - rewrite (proj1 Hc _ _ Ei). erewrite bind_run by reflexivity. by exists c.
  - destruct (fetch_loop_ok script i (notify_prefetch (i + 1) c).2) as (r & c1 & E & Hc1 & Hr).
    { unfold notify_prefetch, modify. cbn. by destruct (fc_running c). }
    change (fetch_by_index reader script i c = (Ok r, c1)) in E. unfold bind. rewrite E.
    assert (∀ blocks, load_blk_blocks_by_index reader i = Ok blocks →
              files_ok (set_files (<[i := blocks]> (evict_files (fc_files c1))) c1)) as Hins.
    { intros blocks Hb. split; [|apply Hc1]. cbn. intros j bs [[<- <-]|[_ Hj]]%lookup_insert_Some; [done|].
      apply (proj1 Hc1). eapply lookup_weaken; [exact Hj|apply evict_files_subset]. }
    destruct r as [blocks|].
    + rewrite (Hr blocks eq_refl). eexists. split; [reflexivity|]. by apply Hins, Hr.
    + unfold lift at 1. destruct (load_blk_blocks_by_index reader i) as [blocks|e|e] eqn:El; [|by exists c1..].
      eexists. split; [reflexivity|]. by apply Hins.
Qed.
End FileCache.

(** ** Answers *)

Section Serves.
Context `{BC : BitcoinCrate} `{CL : BTCClient} `{CH : BlockByHash} `{KC : BlockCrate}.
Context `{FC : FileLruCrate} `{FL : !FileLruCrateLaws} `{IR : IndexRun} `{IL : !IndexRunLaws}.
Context (reader : BlockFileReader) (chain : u32 → BtcBlock) (L : u32).

(** The node has the blocks 0 to [L] of the chain. *)
Record node_answers : Prop := {
  na_height : 0 <= L < U32_MAX;
  na_hash k : 0 <= k <= L → btc_get_block_hash k = Ok (block_hash (chain k));
  na_block k : 0 <= k <= L → btc_get_block_by_height k = Ok (chain k);
  na_by_hash k : 0 <= k <= L → btc_get_block_by_hash (block_hash (chain k)) = Ok (chain k);
  na_distinct j k : 0 <= j <= L → 0 <= k <= L → block_hash (chain j) = block_hash (chain k) → j = k
}.
Context (N : node_answers).

(** What is indexed is where the chain says. *)
Definition sound (s : BlockLocalLoader) : Prop :=
  (∀ k b, 0 <= k <= L → sorted_blocks (ld_cache s) !! Z.to_nat k = Some b → b.2 = block_hash (chain k))
  ∧ (∀ k e, 0 <= k <= L → block_hash_cache (ld_cache s) !! block_hash (chain k) = Some e →
       ∃ blocks b, load_blk_blocks_by_index reader (bf_block_file_index e) = Ok blocks
         ∧ blocks !! Z.to_nat (bf_block_record_index e) = Some b ∧ fb_block b = chain k)
  ∧ files_ok reader (ld_files s).

Lemma read_by_hash_keeps script hash s : sound s →
  let s' := (loader_get_block_by_hash reader script hash s).2 in
  sound s' ∧ ld_cache s' = ld_cache s ∧ ld_index s' = ld_index s.
Proof.
  intros (H1 & H2 & H3). cbn zeta. unfold loader_get_block_by_hash, bind, gets.
  destruct (block_hash_cache (ld_cache s) !! hash) as [e|]; [|done].
  destruct (get_block_ok reader script (bf_block_file_index e) (bf_block_record_index e) (ld_files s) H3) as (c' & E & Hc').
  unfold on_files, zoom. rewrite E. destruct (result_bind _ _); (split; [split; [exact H1|by split]|done]).
Qed.
Lemma sound_hash k s : sound s → 0 <= k <= L → loader_get_block_hash k s = Ok (block_hash (chain k)).
Proof.
  intros (H1 & _) Hk. unfold loader_get_block_hash. destruct (sorted_blocks (ld_cache s) !! Z.to_nat k) as [b|] eqn:E.
  - by rewrite (H1 _ _ Hk E).
  - by apply (na_hash N).
Qed.
Lemma sound_block script k s : sound s → 0 <= k <= L → (loader_get_block_by_height reader script k s).1 = Ok (chain k).
Proof.
  intros Hs Hk. pose proof (sound_hash k s Hs Hk) as Eh. destruct Hs as (H1 & H2 & H3).
  unfold loader_get_block_by_height. unfold bind at 1. rewrite Eh. unfold loader_get_block_by_hash. unfold bind at 1, gets.
  destruct (block_hash_cache (ld_cache s) !! block_hash (chain k)) as [e|] eqn:Ee.
  - destruct (H2 k e Hk Ee) as (blocks & b & El & Hb & Hc).
    destruct (get_block_ok reader script (bf_block_file_index e) (bf_block_record_index e) (ld_files s) H3) as (c' & E & _).
    unfold bind, on_files, zoom. rewrite E, El. cbn [result_bind]. rewrite Hb. cbn. by rewrite Hc.
  - cbn. by rewrite (na_by_hash N).
Qed.

(** Calls of the indexer, in any order. *)
Inductive loader_call := ReadBlock (script : list nat) (block_height : u32) | SyncComplete (block_height : u32).
Definition run_call (s : BlockLocalLoader) (call : loader_call) : BlockLocalLoader :=
  match call with
  | ReadBlock script k => (loader_get_block_by_height reader script k s).2
  | SyncComplete k => (loader_on_sync_complete k s).2
  end.
(** From now on, the loader answers as the node. *)
Definition serves (s : BlockLocalLoader) : Prop :=
  ∀ calls script k, 0 <= k <= L →
  let s' := foldl run_call s calls in
  loader_get_block_hash k s' = btc_get_block_hash k
  ∧ (loader_get_block_by_height reader script k s').1 = btc_get_block_by_height k.
Lemma run_call_sound s call : sound s → sound (run_call s call).
Proof.
  intros Hs. destruct call as [script k|k]; cbn.
  - unfold loader_get_block_by_height, bind at 1. destruct (loader_get_block_hash k s); [|done..]. by apply read_by_hash_keeps.
  - destruct Hs as (_ & _ & H3). split; [|split].
    + intros k' b _. cbn. by rewrite lookup_nil.
    + intros k' e _. cbn. by rewrite lookup_empty.
    + split; [intros i blocks; cbn; by rewrite lookup_empty|apply H3].
Qed.
Lemma sound_serves s : sound s → serves s.
Proof.
  intros Hs calls script k Hk.
  assert (sound (foldl run_call s calls)) as Hs'.
  { revert s Hs. induction calls as [|call calls IH]; intros s Hs; [done|]. cbn. by apply IH, run_call_sound. }
  cbn zeta. rewrite (sound_hash k _ Hs' Hk), (sound_block script k _ Hs' Hk), (na_hash N), (na_block N) by done. done.
Qed.
End Serves.
