(* ===== verification/LoaderChain.v ===== *)
(** * From the files to the chain

    The index that an initialisation of the local loader builds when the files of the node hold a part
    of its chain, with forks, and the two ways in which it fails the indexer: a block that left the
    chain at the end of the files, and a persisted index that is given up. *)

From S2P Require Import Prelude Encoding Types Tx BalanceCodec BalanceDb BalanceDbFacts BalanceBlock BalanceIndexer.
From S2P Require Import BlockFiles BlockRecords LocalLoader LoaderIndex LoaderServes.

Lemma NoDup_children rs p : NoDup (br_block_hash <$> rs) → NoDup (children rs p).
Proof.
  intros Hn. unfold children. induction rs as [|r rs IH]; [constructor|]. cbn in Hn. apply NoDup_cons in Hn as [Hr Hn].
  destruct (decide (br_prev_block_hash r = p)).
  - rewrite filter_cons_True by done. cbn. constructor; [|by apply IH].
    intros (x & Ex & Hx)%list_elem_of_fmap. apply list_elem_of_filter in Hx as [_ Hx]. apply Hr, list_elem_of_fmap. eauto.
  - rewrite filter_cons_False by done. by apply IH.
Qed.

Section Build.
Context `{BC : BitcoinCrate} `{CL : BTCClient} `{CH : BlockByHash} `{KC : BlockCrate}.
Context `{FC : FileLruCrate} `{FL : !FileLruCrateLaws} `{IR : IndexRun} `{IL : !IndexRunLaws}.
Context (reader : BlockFileReader) (blocks : Z → list FileBlock) (last_file : Z).

Definition all_blocks : list FileBlock := heights 0 last_file ≫= blocks.
(** The complete files 0 to [last_file] hold these blocks, each once; one more file is open. *)
Record files_hold : Prop := {
  fh_latest : find_latest_blk_file reader = Ok (last_file + 1);
  fh_last : -1 <= last_file < U32_MAX;
  fh_load i : 0 <= i <= last_file → load_blk_blocks_by_index reader i = Ok (blocks i);
  fh_small i : 0 <= i <= last_file → count (blocks i) <= U32_MAX;
  fh_once : NoDup ((λ b, block_hash (fb_block b)) <$> all_blocks)
}.
Context (F : files_hold).

Definition recs (i : Z) : list BuildRecordResult := match scan_file reader i with Ok rs => rs | _ => [] end.
Lemma recs_listed i : 0 <= i <= last_file → scan_file reader i = Ok (recs i) ∧ listed <$> recs i = listing i 0 (blocks i).
Proof. intros Hi. destruct (scan_listing reader i (blocks i) (fh_load F i Hi)) as (rs & E & L). unfold recs. by rewrite E. Qed.
Lemma recs_once : NoDup (br_block_hash <$> (heights 0 last_file ≫= recs)).
Proof.
  enough ((br_block_hash <$> (heights 0 last_file ≫= recs)) = ((λ b, block_hash (fb_block b)) <$> all_blocks)) as ->
    by apply (fh_once F).
  unfold all_blocks. assert (∀ l, (∀ i, i ∈ l → 0 <= i <= last_file) →
    br_block_hash <$> (l ≫= recs) = (λ b, block_hash (fb_block b)) <$> (l ≫= blocks)) as H.
  { induction l as [|i l IH]; intros Hl; [done|]. cbn. rewrite !fmap_app. f_equal; [|apply IH; intros; apply Hl; by right].
    destruct (recs_listed i (Hl i ltac:(by left))) as [_ E].
    assert (br_block_hash <$> recs i = (λ x, x.1.1) <$> (listed <$> recs i)) as -> by by rewrite <-list_fmap_compose.
    rewrite E. unfold listing. rewrite fmap_imap. unfold compose. cbn. apply list_eq. intros m.
    by rewrite list_lookup_imap, list_lookup_fmap. }
  apply H. intros i. apply elem_of_heights.
Qed.
(** A record stands for a block at its place. *)
Lemma record_block r : r ∈ heights 0 last_file ≫= recs → ∃ i m b, 0 <= i <= last_file ∧ blocks i !! m = Some b
  ∧ br_block_hash r = block_hash (fb_block b) ∧ br_prev_block_hash r = fb_prev_blockhash b
  ∧ br_block_file_index r = i ∧ br_block_record_index r = Z.of_nat m.
Proof.
  intros (i & Hr & Hi%elem_of_heights)%list_elem_of_bind. destruct (recs_listed i Hi) as [_ E].
  apply list_elem_of_lookup in Hr as [m Hm]. assert ((listed <$> recs i) !! m = Some (listed r)) as Hl by (by rewrite list_lookup_fmap, Hm).
  rewrite E in Hl. unfold listing in Hl. rewrite list_lookup_imap in Hl. destruct (blocks i !! m) as [b|] eqn:Eb; [|done].
  cbn in Hl. injection Hl as H1 H2 H3 H4. exists i, m, b. split_and!; try done; lia.
Qed.
(** The entry of a record leads to the block. *)
Lemma record_entry_block r : r ∈ heights 0 last_file ≫= recs → ∃ b bs, b ∈ all_blocks
  ∧ br_block_hash r = block_hash (fb_block b) ∧ br_prev_block_hash r = fb_prev_blockhash b
  ∧ load_blk_blocks_by_index reader (bf_block_file_index (record_entry r)) = Ok bs
  ∧ bs !! Z.to_nat (bf_block_record_index (record_entry r)) = Some b.
Proof.
  intros Hr. destruct (record_block r Hr) as (i & m & b & Hi & Hm & H1 & H2 & H3 & H4).
  pose proof (fh_last F) as Hl. pose proof (fh_small F i Hi) as Hs. pose proof (lookup_lt_Some _ _ _ Hm) as Hlt.
  unfold count in Hs. exists b, (blocks i). cbn. rewrite H3, H4. unfold usize_as_u32.
  rewrite !(Z.mod_small _ (U32_MAX + 1)) by lia. rewrite Nat2Z.id. split_and!; try done; [|by apply (fh_load F)].
  apply list_elem_of_bind. exists i. split; [by eapply list_elem_of_lookup_2|by apply elem_of_heights].
Qed.
Lemma block_record b : b ∈ all_blocks → ∃ r, r ∈ heights 0 last_file ≫= recs
  ∧ br_block_hash r = block_hash (fb_block b) ∧ br_prev_block_hash r = fb_prev_blockhash b.
Proof.
  intros (i & Hb & Hi)%list_elem_of_bind. pose proof Hi as Hi'%elem_of_heights. destruct (recs_listed i Hi') as [_ E].
  apply list_elem_of_lookup in Hb as [m Hm].
  assert (listing i 0 (blocks i) !! m = Some (block_hash (fb_block b), fb_prev_blockhash b, (i, 0 + Z.of_nat m))) as Hl
    by (unfold listing; by rewrite list_lookup_imap, Hm).
  rewrite <-E, list_lookup_fmap in Hl. destruct (recs i !! m) as [r|] eqn:Er; [|done]. cbn in Hl. injection Hl as H1 H2 H3 H4.
  exists r. split; [|done]. apply list_elem_of_bind. exists i. split; [by eapply list_elem_of_lookup_2|done].
Qed.
Lemma records_block rs r : rs ≡ₚ (heights 0 last_file ≫= recs) → r ∈ rs → ∃ b, b ∈ all_blocks
  ∧ br_block_hash r = block_hash (fb_block b) ∧ br_prev_block_hash r = fb_prev_blockhash b.
Proof.
  intros P Hr. rewrite P in Hr. destruct (record_block r Hr) as (i & m & b & Hi & Hm & H1 & H2 & _).
  exists b. split; [|done]. apply list_elem_of_bind. exists i. split; [by eapply list_elem_of_lookup_2|by apply elem_of_heights].
Qed.

(** ** The index *)

(** The merged records, before they are sorted. *)
Lemma build_records c : holds_records [] c → ∃ rs c', rs ≡ₚ (heights 0 last_file ≫= recs) ∧ holds_records rs c'
  ∧ build_file_index reader c = generate_sort_blocks c'.
Proof.
  intros Hc. unfold build_file_index. rewrite (fh_latest F). erewrite bind_run by reflexivity.
  unfold last_complete_blk_file_index. pose proof (fh_last F) as Hl. destruct (last_file + 1 =? 0) eqn:E; b2p.
  - exists [], c. by rewrite heights_nil by lia.
  - replace (last_file + 1 - 1) with last_file by lia.
    destruct (file_range_run reader recs last_file c) as (rs & c' & P & E' & Hc'); [intros; by apply recs_listed|apply recs_once|done|].
    exists rs, c'. split; [done|]. split; [done|]. by rewrite (bind_run _ _ _ _ _ E').
Qed.

(** A path of blocks of the files from the zero hash: at a height, the block is the only child of the one
    below it, or the node has it at this height; and the last block has no child. *)
Definition parent (path : list BlockHash) (k : nat) : BlockHash :=
  match k with O => ZERO_HASH | S j => default ZERO_HASH (path !! j) end.
Record file_path (path : list BlockHash) : Prop := {
  fp_step k h : path !! k = Some h →
    (∃ b, b ∈ all_blocks ∧ block_hash (fb_block b) = h
       ∧ fb_prev_blockhash b = parent path k)
    ∧ ((∀ b, b ∈ all_blocks → fb_prev_blockhash b = parent path k →
          block_hash (fb_block b) = h)
       ∨ ∃ b, btc_get_block_by_height (Z.of_nat k) = Ok b ∧ block_hash b = h);
  fp_end b : b ∈ all_blocks → fb_prev_blockhash b ≠ default ZERO_HASH (last path);
  fp_once : NoDup path;
  fp_short : count path <= U32_MAX
}.

Section Path.
Context (rs : list BuildRecordResult) (c : BlockRecordCache).
Context (P : rs ≡ₚ (heights 0 last_file ≫= recs)) (Hc : holds_records rs c).

Lemma rs_once : NoDup (br_block_hash <$> rs).
Proof. rewrite P. apply recs_once. Qed.
Lemma entry_of_record r : r ∈ rs → block_hash_cache c !! br_block_hash r = Some (record_entry r).
Proof.
  intros Hr. rewrite (hr_entries _ _ Hc). apply elem_of_list_to_map.
  - rewrite <-list_fmap_compose. apply rs_once.
  - apply list_elem_of_fmap. by exists r.
Qed.
Lemma record_of_entry h e : block_hash_cache c !! h = Some e → ∃ r, r ∈ rs ∧ h = br_block_hash r ∧ e = record_entry r.
Proof.
  rewrite (hr_entries _ _ Hc). intros (r & [= -> ->] & Hr)%elem_of_list_to_map_2%list_elem_of_fmap. eauto.
Qed.
Lemma single_child p h : h ∈ children rs p → (∀ h', h' ∈ children rs p → h' = h) → children rs p = [h].
Proof.
  intros Hin Hall. assert (NoDup (children rs p)) as Hn by apply NoDup_children, rs_once.
  destruct (children rs p) as [|h1 [|h2 l]]; [by apply elem_of_nil in Hin| |].
  - by rewrite (Hall h1) by by left.
  - apply NoDup_cons in Hn as [Hx _]. exfalso. apply Hx. rewrite (Hall h1) by by left.
    rewrite (Hall h2) by (right; by left). by left.
Qed.
Lemma path_step p k h :
  (∃ b, b ∈ all_blocks ∧ block_hash (fb_block b) = h ∧ fb_prev_blockhash b = p) →
  ((∀ b, b ∈ all_blocks → fb_prev_blockhash b = p → block_hash (fb_block b) = h)
   ∨ ∃ b, btc_get_block_by_height k = Ok b ∧ block_hash b = h) → selects c p k h.
Proof.
  intros (b & Hb & <- & <-) Hsel. destruct (block_record b Hb) as (r & Hr & H1 & H2). rewrite <-P in Hr.
  rewrite <-H1, <-H2 in *. assert (br_block_hash r ∈ children rs (br_prev_block_hash r)) as Hin by (apply elem_of_children; eauto).
  split; [eexists; by apply entry_of_record|]. exists (children rs (br_prev_block_hash r)).
  split; [rewrite (hr_children _ _ Hc); by destruct (children rs _); [apply elem_of_nil in Hin|]|]. split; [done|].
  destruct Hsel as [Hone|Hnode]; [left|by right]. apply single_child; [done|].
  intros h' (r' & Hr' & Hp & <-)%elem_of_children. destruct (records_block rs r' P Hr') as (b' & Hb' & H1' & H2').
  rewrite H1'. by apply Hone; [|rewrite <-H2'].
Qed.
Lemma no_child p : (∀ b, b ∈ all_blocks → fb_prev_blockhash b ≠ p) → block_prev_hash_cache c !! p = None.
Proof.
  intros Hp. rewrite (hr_children _ _ Hc). destruct (children rs p) as [|h l] eqn:E; [done|]. exfalso.
  assert (h ∈ children rs p) as (r & Hr & Hrp & _)%elem_of_children by (rewrite E; by left).
  destruct (records_block rs r P Hr) as (b & Hb & _ & H2). by apply (Hp b Hb); rewrite <-H2.
Qed.
Lemma path_holds path : file_path path → path_from c ZERO_HASH 0 path.
Proof.
  intros [Hs He _ _].
  assert (∀ (tail : list BlockHash) k, path = take k path ++ tail → (k <= length path)%nat →
    path_from c (parent path k) (Z.of_nat k) tail) as H.
  { induction tail as [|h tail IH]; intros k Ep Hk.
    - cbn. apply no_child. rewrite app_nil_r in Ep. intros b Hb.
      assert (k = length path) as -> by (apply (f_equal length) in Ep; rewrite length_take in Ep; lia).
      specialize (He b Hb). rewrite last_lookup in He. unfold parent. by destruct path.
    - assert (path !! k = Some h) as Hh by (rewrite Ep; apply list_lookup_middle; rewrite length_take; lia).
      destruct (Hs k h Hh) as [H1 H2]. split; [by apply path_step|].
      assert (path = take (S k) path ++ tail) as Ep' by (rewrite (take_S_r _ _ h Hh), <-app_assoc; exact Ep).
      specialize (IH (S k) Ep'). unfold parent at 1 in IH. rewrite Hh in IH. cbn [default from_option id] in IH.
      replace (Z.of_nat k + 1) with (Z.of_nat (S k)) by lia. apply IH. apply lookup_lt_Some in Hh. lia. }
  apply (H path O); [done|lia].
Qed.
End Path.

Lemma build_run c path : holds_records [] c → file_path path →
  ∃ rs c', rs ≡ₚ (heights 0 last_file ≫= recs) ∧ holds_records rs c'
  ∧ build_file_index reader c
    = (Ok tt, {| block_hash_cache := block_hash_cache c'; block_prev_hash_cache := block_prev_hash_cache c';
                 sorted_blocks := numbered 0 path |}).
Proof.
  intros H0 Hp. destruct (build_records c H0) as (rs & c' & P & Hc' & ->). exists rs, c'. split; [done|]. split; [done|].
  apply sort_run; [by apply (path_holds rs)|apply Hp..].
Qed.
End Build.
