(* ===== verification/LoaderDemo.v ===== *)
(** * Block files of a small node

    A node with three blocks, the first two in complete files with forks, for the witnesses of the
    theorems about the local loader. *)

From S2P Require Import Prelude Encoding Types Tx BalanceCodec BalanceDb BalanceDbFacts BalanceBlock BalanceChain BalanceDemo.
From S2P Require Import BlockFiles BlockRecords LocalLoader LoaderIndex LoaderServes LoaderChain.

(** A block is written as its hash and the hash before it; the genesis block follows the zero hash. *)
#[local] Instance demo_blocks_crate : BlockCrate := {|
  consensus_decode data :=
    match data with
    | hash :: prev :: rest => Some ({| fb_block := demo_block hash []; fb_prev_blockhash := prev |}, rest)
    | _ => None
    end
|}.
#[local] Instance demo_file_lru : FileLruCrate := {| evict_files _ := ∅ |}.
Lemma demo_file_lru_laws : FileLruCrateLaws.
Proof. split. intros m. apply map_empty_subseteq. Qed.
(** The files are merged from the last to the first. *)
#[local] Instance demo_run : IndexRun := {| file_order n := rev (heights 0 n); stops_at _ := false |}.
Lemma demo_run_laws : IndexRunLaws.
Proof. split; [|done]. intros n. cbn. symmetry. apply Permutation_rev. Qed.

Definition demo_node_chain (k : u32) : BtcBlock := demo_block (k + 1) [].
#[local] Instance demo_node : BTCClient := demo_client demo_node_chain 2.
#[local] Instance demo_by_hash : BlockByHash := {|
  btc_get_block_by_hash hash :=
    if (1 <=? hash) && (hash <=? 3) then Ok (demo_node_chain (hash - 1)) else Err "Block not found"
|}.
Lemma demo_node_answers : node_answers demo_node_chain 2.
Proof.
  assert (∀ k, 0 <= k <= 2 → k = 0 ∨ k = 1 ∨ k = 2) as Hk by lia.
  split; [done|..]; try (intros k [-> | [-> | ->]]%Hk; reflexivity). cbn. lia.
Qed.

(** Files under a key, from the blocks that each holds. *)
Definition demo_key : list Z := [17; 34; 51; 68; 85; 102; 119; 136].
Definition demo_magic : u32 := 3652501241.
Definition demo_reader (files : list (list (Z * Z))) : BlockFileReader :=
  let r := {| blk_files := ∅; xor_key := demo_key; block_magic := demo_magic |} in
  {| blk_files := list_to_map (imap (λ i l, (Z.of_nat i, stored r (write_records demo_magic ((λ b, [b.1; b.2]) <$> l)))) files);
     xor_key := demo_key; block_magic := demo_magic |}.
Definition demo_file (l : list (Z * Z)) : list FileBlock :=
  (λ b, {| fb_block := demo_block b.1 []; fb_prev_blockhash := b.2 |}) <$> l.

(** The second block has a sibling, in a file before it, and the open file has the third. *)
Definition demo_forked := [[(1, 0); (9, 1)]; [(2, 1)]; [(3, 2)]].
(** The complete files end with a block that was replaced. *)
Definition demo_stale := [[(1, 0)]; [(2, 1); (8, 2)]; [(3, 2)]].
Definition demo_files (files : list (list (Z * Z))) (i : Z) : list FileBlock := demo_file (default [] (files !! Z.to_nat i)).
Lemma demo_files_hold files :
  files = demo_forked ∨ files = demo_stale → files_hold (demo_reader files) (demo_files files) 1.
Proof.
  intros Hf. assert (∀ i, 0 <= i <= 1 → i = 0 ∨ i = 1) as Hi by lia. destruct Hf as [-> | ->].
  all: split; [by vm_compute|done|intros i [-> | ->]%Hi; by vm_compute|intros i [-> | ->]%Hi; by vm_compute|].
  all: apply (bool_decide_unpack _); by vm_compute.
Qed.
Definition demo_no_index (d : BalanceHistoryDB) : BlockIndexDb :=
  {| blocks_cf := ∅; block_heights_cf := ∅; last_block_file_index := None; bx_disk := {| db := d; writes_left := None |} |}.
