(* ===== verification/LoaderFollow.v ===== *)
(** * What the local loader does to the indexer

    Over files that hold a part of the node's chain, with forks, the loader answers as the node; a block
    that left the chain at the end of the files is served all the same; and a persisted index that is
    given up takes the block commits of the balance history with it. *)

From S2P Require Import Prelude Encoding Types Tx BalanceCodec BalanceDb BalanceDbFacts BalanceBlock BalanceIndexer.
From S2P Require Import BalanceDemo BlockFiles BlockRecords LocalLoader LoaderIndex LoaderServes LoaderChain LoaderDemo.

(** ** The chain in the files *)

Section Chain.
Context `{BC : BitcoinCrate} (chain : u32 → BtcBlock) (L : u32) (blocks : Z → list FileBlock) (last_file : Z).

Definition prev_hash (k : u32) : BlockHash := if k =? 0 then ZERO_HASH else block_hash (chain (k - 1)).
(** A block of the files with the hash of the chain at a height is that block, after its predecessor;
    the files lack a block of the chain only where they have no other child of its predecessor. *)
Record part_of_chain : Prop := {
  pc_hash b k : b ∈ all_blocks blocks last_file → 0 <= k <= L → block_hash (fb_block b) = block_hash (chain k) →
    fb_block b = chain k ∧ fb_prev_blockhash b = prev_hash k;
  pc_main b k : b ∈ all_blocks blocks last_file → 0 <= k <= L → fb_prev_blockhash b = prev_hash k →
    block_hash (chain k) ∈ ((λ b, block_hash (fb_block b)) <$> all_blocks blocks last_file);
  pc_tip b : b ∈ all_blocks blocks last_file → fb_prev_blockhash b ≠ block_hash (chain L)
}.
Definition in_files (k : u32) : Prop := block_hash (chain k) ∈ ((λ b, block_hash (fb_block b)) <$> all_blocks blocks last_file).
Definition main_path (n : nat) : list BlockHash := (λ k : nat, block_hash (chain (Z.of_nat k))) <$> seq 0 n.

Lemma first_missing m : ∃ n, (n <= m)%nat ∧ (∀ k, (k < n)%nat → in_files (Z.of_nat k)) ∧ (n = m ∨ (n < m)%nat ∧ ¬ in_files (Z.of_nat n)).
Proof.
  induction m as [|m (n & Hn & Hin & Hd)]; [exists O; split_and!; [lia|intros; lia|by left]|].
  destruct Hd as [->|[Hlt Hd]]; [|exists n; split_and!; [lia|done|right; split; [lia|done]]].
  destruct (decide (in_files (Z.of_nat m))) as [Hm|Hm]; [|exists m; split_and!; [lia|done|right; split; [lia|done]]].
  exists (S m). split_and!; [lia| |by left]. intros k Hk. destruct (decide (k = m)) as [->|]; [done|]. apply Hin. lia.
Qed.
Lemma main_path_lookup n k h : main_path n !! k = Some h → (k < n)%nat ∧ h = block_hash (chain (Z.of_nat k)).
Proof. unfold main_path. rewrite list_lookup_fmap. intros (j & [-> Hj]%lookup_seq & ->)%fmap_Some. done. Qed.
Lemma main_path_at n k : (k < n)%nat → main_path n !! k = Some (block_hash (chain (Z.of_nat k))).
Proof. intros Hk. unfold main_path. rewrite list_lookup_fmap. apply fmap_Some. exists k. split; [by apply lookup_seq|done]. Qed.
Lemma main_parent n k : (k <= n)%nat → parent (main_path n) k = prev_hash (Z.of_nat k).
Proof.
  intros Hk. destruct k as [|k]; [done|]. unfold parent, prev_hash. rewrite main_path_at by lia.
  destruct (Z.of_nat (S k) =? 0) eqn:E; b2p; [lia|]. cbn [default from_option id]. do 2 f_equal. lia.
Qed.
Lemma length_main_path n : length (main_path n) = n.
Proof. unfold main_path. by rewrite length_fmap, length_seq. Qed.
End Chain.

Section Follow.
Context `{BC : BitcoinCrate} `{CL : BTCClient} `{CH : BlockByHash} `{KC : BlockCrate}.
Context `{FC : FileLruCrate} `{FL : !FileLruCrateLaws} `{IR : IndexRun} `{IL : !IndexRunLaws}.
Context (reader : BlockFileReader) (blocks : Z → list FileBlock) (last_file : Z) (chain : u32 → BtcBlock) (L : u32).
Context (N : node_answers chain L) (F : files_hold reader blocks last_file).
Context (T : part_of_chain chain L blocks last_file).

(** The leading blocks of the chain that the files hold. *)
Definition leading (n : nat) : Prop :=
  Z.of_nat n <= L + 1 ∧ (∀ k, (k < n)%nat → in_files chain blocks last_file (Z.of_nat k))
  ∧ (Z.of_nat n = L + 1 ∨ ¬ in_files chain blocks last_file (Z.of_nat n)).
Lemma main_file_path : ∃ n, leading n ∧ file_path blocks last_file (main_path chain n).
Proof.
  destruct (first_missing chain blocks last_file (Z.to_nat (L + 1))) as (n & Hn & Hin & Hd).
  pose proof (na_height _ _ N) as HL. exists n.
  split; [split_and!; [lia|done|destruct Hd as [->|[_ ?]]; [left; lia|by right]]|]. split.
  - intros k h [Hk ->]%main_path_lookup. rewrite main_parent by lia. split.
    + destruct (proj1 (list_elem_of_fmap _ _ _) (Hin k Hk)) as (b & Eb & Hb). exists b. split; [done|]. split; [done|].
      by apply (pc_hash _ _ _ _ T b (Z.of_nat k)); [|lia|].
    + right. exists (chain (Z.of_nat k)). split; [|done]. apply (na_block _ _ N). lia.
  - intros b Hb Hp. rewrite last_lookup, length_main_path in Hp.
    assert (fb_prev_blockhash b = prev_hash chain (Z.of_nat n)) as Hp'.
    { rewrite Hp, <-(main_parent chain n n) by lia. unfold parent. destruct n; [|done]. done. }
    destruct Hd as [->|[Hlt Hd]]; [|apply Hd; apply (pc_main _ _ _ _ T b); [done| |done]; lia].
    apply (pc_tip _ _ _ _ T b Hb). rewrite Hp'. unfold prev_hash.
    destruct (_ =? 0) eqn:E; b2p; [lia|]. do 2 f_equal. lia.
  - apply NoDup_alt. intros i j h [Hi ->]%main_path_lookup [Hj E]%main_path_lookup.
    apply (na_distinct _ _ N) in E; lia.
  - unfold count. rewrite length_main_path. lia.
Qed.

(** What an initialisation builds. *)
Lemma build_sound c files x stop n rs c' :
  file_path blocks last_file (main_path chain n) → rs ≡ₚ (heights 0 last_file ≫= recs reader) → holds_records rs c' →
  files_ok reader files →
  c = {| block_hash_cache := block_hash_cache c'; block_prev_hash_cache := block_prev_hash_cache c';
         sorted_blocks := numbered 0 (main_path chain n) |} →
  sound reader chain L {| ld_cache := c; ld_files := files; ld_index := x; ld_should_stop := stop |}.
Proof.
  intros Hp P Hc Hf ->. split; [|split; [|done]]; cbn [ld_cache sorted_blocks block_hash_cache].
  - intros k b Hk Hb. pose proof (lookup_lt_Some _ _ _ Hb) as Hl. rewrite length_numbered, length_main_path in Hl.
    rewrite (numbered_lookup _ 0 _ _ (main_path_at chain _ _ Hl)) in Hb. injection Hb as <-. cbn. do 2 f_equal. lia.
  - intros k e Hk (r & Hr & Eh & ->)%(record_of_entry rs c' Hc). rewrite P in Hr.
    destruct (record_entry_block reader blocks last_file F r Hr) as (b & bs & Hb & H1 & H2 & El & Hm).
    destruct (pc_hash _ _ _ _ T b k Hb Hk) as [E _]; [congruence|]. by exists bs, b.
Qed.

(** ** The first start *)

Definition no_index (x : BlockIndexDb) : Prop :=
  blocks_cf x = ∅ ∧ block_heights_cf x = ∅ ∧ last_block_file_index x = None ∧ writes_left (bx_disk x) = None.
Definition saved (c : BlockRecordCache) (f : u32) (x : BlockIndexDb) : BlockIndexDb :=
  set_index (put_all (cf_rows (be_bytes 32) (block_hash_cache c)) (blocks_cf x))
    (put_all (sorted_blocks c) (block_heights_cf x)) (Some f) x.

Lemma save_run f s : writes_left (bx_disk (ld_index s)) = None →
  save_to_db f s = (Ok tt, {| ld_cache := ld_cache s; ld_files := ld_files s; ld_index := saved (ld_cache s) f (ld_index s);
                              ld_should_stop := ld_should_stop s |}).
Proof.
  intros Hw. destruct s as [c fs [b h l [d w]] st]. cbn in Hw. subst w. reflexivity.
Qed.
Lemma latest_file c rs : holds_records rs c → rs ≡ₚ (heights 0 last_file ≫= recs reader) →
  match calc_latest_block_file_index c with
  | None => block_hash_cache c = ∅
  | Some f => 0 <= f <= last_file
  end.
Proof.
  intros Hc P. unfold calc_latest_block_file_index. pose proof (fh_last _ _ _ F) as Hl.
  assert (∀ h e, block_hash_cache c !! h = Some e → 0 <= bf_block_file_index e <= last_file) as He.
  { intros h e (r & Hr & _ & ->)%(record_of_entry rs c Hc). rewrite P in Hr.
    destruct (record_block reader blocks last_file F r Hr) as (i & m & b & Hi & _ & _ & _ & H3 & _).
    cbn. rewrite H3, usize_as_u32_id by lia. lia. }
  revert He. apply (map_fold_weak_ind (λ r m, (∀ h e, m !! h = Some e → _) → match r with None => m = ∅ | Some f => 0 <= f <= last_file end)); [done|].
  intros h e m acc Hm IH He. assert (0 <= bf_block_file_index e <= last_file) as H1 by (apply (He h), lookup_insert_eq).
  destruct acc as [f|]; cbn; [|done].
  assert (0 <= f <= last_file); [|lia]. apply IH. intros h' e' Hh. apply (He h'). rewrite lookup_insert_ne; [done|]. by intros <-; rewrite Hm in Hh.
Qed.
(** The cache after the files have been merged and sorted. *)
Definition built (c : BlockRecordCache) : Prop := ∃ n rs c',
  leading n ∧ file_path blocks last_file (main_path chain n) ∧ rs ≡ₚ (heights 0 last_file ≫= recs reader)
  ∧ holds_records rs c'
  ∧ c = {| block_hash_cache := block_hash_cache c'; block_prev_hash_cache := block_prev_hash_cache c';
           sorted_blocks := numbered 0 (main_path chain n) |}.
Lemma rebuild_shape s : holds_records [] (ld_cache s) → writes_left (bx_disk (ld_index s)) = None →
  ∃ c, built c ∧ rebuild_block_index reader s = (Ok tt,
    {| ld_cache := c; ld_files := ld_files s;
       ld_index := match calc_latest_block_file_index c with None => ld_index s | Some f => saved c f (ld_index s) end;
       ld_should_stop := ld_should_stop s |}).
Proof.
  intros H0 Hw. destruct main_file_path as (n & Hn & Hp).
  destruct (build_run reader blocks last_file F (ld_cache s) (main_path chain n) H0 Hp) as (rs & c' & P & Hc & E).
  unfold rebuild_block_index, on_cache. unfold bind at 1, zoom. rewrite E. cbn beta iota zeta delta [fst snd].
  erewrite bind_run by reflexivity. cbn [ld_cache]. set (c := Build_BlockRecordCache _ _ _).
  exists c. split; [by exists n, rs, c'|]. destruct (calc_latest_block_file_index c) as [f|]; [by rewrite save_run|done].
Qed.
Lemma built_sound c files x stop : built c → files_ok reader files →
  sound reader chain L {| ld_cache := c; ld_files := files; ld_index := x; ld_should_stop := stop |}.
Proof. intros (n & rs & c' & Hn & Hp & P & Hc & E) Hf. by eapply build_sound. Qed.
Lemma built_latest c : built c →
  match calc_latest_block_file_index c with None => block_hash_cache c = ∅ | Some f => 0 <= f <= last_file end.
Proof.
  intros (n & rs & c' & _ & _ & P & Hc & ->). exact (latest_file c' rs Hc P).
Qed.
Lemma built_some c k : built c → in_files chain blocks last_file k → ∃ f, calc_latest_block_file_index c = Some f.
Proof.
  intros B Hk. pose proof (built_latest c B) as Hn. destruct B as (n & rs & c' & _ & _ & P & Hc & ->).
  destruct (calc_latest_block_file_index _) as [f|]; [by exists f|]. exfalso. cbn [block_hash_cache] in Hn.
  apply list_elem_of_fmap in Hk as (b & _ & Hb). destruct (block_record _ _ _ F b Hb) as (r & Hr & _). rewrite <-P in Hr.
  pose proof (entry_of_record _ _ _ F rs c' P Hc r Hr) as E. rewrite Hn in E. by rewrite lookup_empty in E.
Qed.

(** The index of the files: the heights of the leading blocks of the chain, and the place of every
    block. *)
Record index_of_files (c : BlockRecordCache) : Prop := {
  if_heights : ∃ n, (0 < n)%nat ∧ leading n
    ∧ sorted_blocks c = (λ k, (Z.of_nat k, block_hash (chain (Z.of_nat k)))) <$> seq 0 n;
  if_entries h e : block_hash_cache c !! h = Some e → ∃ bs b, b ∈ all_blocks blocks last_file
    ∧ load_blk_blocks_by_index reader (bf_block_file_index e) = Ok bs
    ∧ bs !! Z.to_nat (bf_block_record_index e) = Some b ∧ block_hash (fb_block b) = h;
  if_blocks b : b ∈ all_blocks blocks last_file → is_Some (block_hash_cache c !! block_hash (fb_block b))
}.
Lemma numbered_seq n : numbered 0 (main_path chain n) = (λ k, (Z.of_nat k, block_hash (chain (Z.of_nat k)))) <$> seq 0 n.
Proof.
  apply list_eq. intros k. destruct (decide (k < n)%nat) as [Hk|Hk].
  - rewrite (numbered_lookup _ 0 _ _ (main_path_at chain _ _ Hk)), list_lookup_fmap, lookup_seq_lt by done. cbn. by f_equal.
  - rewrite !lookup_ge_None_2; [done|by rewrite length_fmap, length_seq; lia|].
    rewrite length_numbered, length_main_path. lia.
Qed.
Lemma built_index c : built c → in_files chain blocks last_file 0 → index_of_files c.
Proof.
  intros (n & rs & c' & Hn & Hp & P & Hc & ->) H0. split; cbn [sorted_blocks block_hash_cache].
  - exists n. split; [|split; [done|apply numbered_seq]]. destruct Hn as (_ & _ & Hd). pose proof (na_height _ _ N).
    destruct n; [|lia]. exfalso. destruct Hd as [Hd|Hd]; [lia|by apply Hd].
  - intros h e (r & Hr & -> & ->)%(record_of_entry rs c' Hc). rewrite P in Hr.
    destruct (record_entry_block reader blocks last_file F r Hr) as (b & bs & Hb & H1 & _ & El & Hm). by exists bs, b.
  - intros b Hb. destruct (block_record _ _ _ F b Hb) as (r & Hr & <- & _). rewrite <-P in Hr.
    rewrite (entry_of_record _ _ _ F rs c' P Hc r Hr). by eexists.
Qed.

(** ** The index that was saved *)

Lemma put_all_rows {K V} `{Countable K} (encode : K → list Z) (m : gmap K V) : put_all (cf_rows encode m) ∅ = m.
Proof.
  apply map_eq. intros k. apply option_eq. intros v. rewrite put_all_new by apply cf_rows_NoDup. by rewrite elem_of_cf_rows.
Qed.
Lemma elem_of_numbered path : ∀ h kv, kv ∈ numbered h path → h <= kv.1 < h + count path.
Proof.
  unfold count. induction path as [|x path IH]; intros h kv; [by intros ?%elem_of_nil|]. cbn [numbered length].
  intros [->|Hk%IH]%elem_of_cons; cbn; lia.
Qed.
Lemma numbered_sorted path : ∀ h, 0 <= h → h + count path <= U32_MAX + 1 → StronglySorted (row_le (be_bytes 4)) (numbered h path).
Proof.
  induction path as [|x path IH]; intros h H0 Hm; [constructor|]. cbn [numbered].
  assert (count (x :: path) = count path + 1) as Ec by (unfold count; cbn; lia). rewrite Ec in Hm.
  constructor; [apply IH; lia|]. apply Forall_forall. intros kv Hk%elem_of_numbered. unfold row_le. cbn [fst].
  rewrite bytes_le_be_bytes; [lia| |]; unfold U32_MAX in *; cbn; lia.
Qed.
Lemma numbered_keys path : ∀ h, NoDup (numbered h path).*1.
Proof.
  induction path as [|x path IH]; intros h; [constructor|]. cbn. constructor; [|apply IH].
  intros (kv & E & Hk%elem_of_numbered)%list_elem_of_fmap. lia.
Qed.
Lemma saved_heights path : count path <= U32_MAX + 1 →
  cf_rows (be_bytes 4) (put_all (numbered 0 path) ∅) = numbered 0 path.
Proof.
  intros Hm. assert (∀ kv, kv ∈ cf_rows (be_bytes 4) (put_all (numbered 0 path) ∅) ↔ kv ∈ numbered 0 path) as Hin.
  { intros [k v]. rewrite elem_of_cf_rows. apply put_all_new, numbered_keys. }
  apply (StronglySorted_unique_strong (row_le (be_bytes 4))).
  - intros [k1 v1] [k2 v2] H1%Hin H2 L1 L2. pose proof (elem_of_numbered _ _ _ H1). pose proof (elem_of_numbered _ _ _ H2).
    unfold row_le in L1, L2. cbn [fst] in *. rewrite bytes_le_be_bytes in L1, L2 by (change (256 ^ Z.of_nat 4) with (U32_MAX + 1); lia).
    b2p. assert (k1 = k2) as -> by lia. f_equal.
    apply (put_all_new _ _ _ (numbered_keys path 0)) in H1, H2. rewrite H1 in H2. by injection H2.
  - apply cf_rows_sorted.
  - apply numbered_sorted; lia.
  - apply NoDup_Permutation; [eapply NoDup_fmap_1, cf_rows_NoDup|eapply NoDup_fmap_1, (numbered_keys path 0)|done].
Qed.
Lemma check_heights_run m path : ∀ h, 0 <= h → h + count path <= U32_MAX → Forall (λ x, is_Some (m !! x)) path →
  check_heights m h (numbered h path) = Ok tt.
Proof.
  induction path as [|x path IH]; intros h H0 Hm Hx; [done|]. apply Forall_cons in Hx as [Hx Hp].
  assert (count (x :: path) = count path + 1) as Ec by (unfold count; cbn; lia). rewrite Ec in Hm.
  assert (0 <= count path) by (unfold count; lia). cbn [numbered check_heights]. rewrite Z.eqb_refl, bool_decide_true by done. cbn [negb].
  rewrite u32_add_small by lia. apply IH; [lia|lia|done].
Qed.

(** The index that was saved is valid for the files and the node that it came from. *)
Lemma saved_valid c x f : built c → no_index x → in_files chain blocks last_file 0 → calc_latest_block_file_index c = Some f →
  let c' := {| block_hash_cache := get_all_blocks (saved c f x); block_prev_hash_cache := ∅;
               sorted_blocks := get_all_block_heights (saved c f x) |} in
  block_hash_cache c' = block_hash_cache c ∧ sorted_blocks c' = sorted_blocks c
  ∧ validate_loaded_block_index c' f (usize_as_u32 (last_file + 1)) = Ok tt.
Proof.
  intros B (X1 & X2 & _ & _) H0 Ef c'. pose proof (built_latest c B) as Hf. rewrite Ef in Hf.
  pose proof (fh_last _ _ _ F) as Hl. pose proof (na_height _ _ N) as HL.
  assert (block_hash_cache c' = block_hash_cache c) as E1.
  { unfold c', get_all_blocks, saved. cbn. rewrite X1. apply put_all_rows. }
  destruct B as (n & rs & c0 & [Hn _] & Hp & P & Hc & E).
  assert (count (main_path chain n) = Z.of_nat n) as En by (unfold count; by rewrite length_main_path).
  assert (sorted_blocks c' = numbered 0 (main_path chain n)) as E2.
  { unfold c', get_all_block_heights, saved. cbn. rewrite X2, E. cbn. apply saved_heights. lia. }
  split; [done|]. split; [by rewrite E2, E|].
  assert (n ≠ O) as Hn0.
  { intros ->. apply list_elem_of_fmap in H0 as (b & Eb & Hb). apply (fp_end _ _ _ Hp b Hb).
    by apply (pc_hash _ _ _ _ T b 0); [|lia|]. }
  unfold validate_loaded_block_index. rewrite E2, usize_as_u32_id by lia.
  rewrite bool_decide_false by (intros Hnil; apply (f_equal length) in Hnil; rewrite length_numbered, length_main_path in Hnil; done).
  destruct (f >? last_file + 1) eqn:E3; [b2p; lia|].
  assert (calc_latest_block_file_index c' = Some f) as -> by (unfold calc_latest_block_file_index; by rewrite E1).
  cbn [from_option]. destruct (f >? f) eqn:E4; [b2p; lia|].
  rewrite check_heights_run; [|lia|rewrite En; lia|].
  2:{ rewrite E1, E. eapply path_in_cache. by apply (path_holds _ _ _ F rs c0 P Hc). }
  cbn [result_bind]. unfold count. rewrite length_numbered, length_main_path. unfold validation_tip_height.
  destruct (Z.of_nat n =? 0) eqn:E5; [b2p; lia|]. rewrite usize_as_u32_id by lia.
  assert (Z.to_nat (Z.of_nat n - 1) < n)%nat as Hlt by lia.
  rewrite (numbered_lookup _ 0 _ _ (main_path_at chain n _ Hlt)). cbn [result_bind snd].
  rewrite (na_hash _ _ N) by lia. cbn [err_as result_bind]. rewrite bool_decide_true; [done|]. do 2 f_equal. lia.
Qed.

(** ** Starts *)

Definition history (s : BlockLocalLoader) : BalanceHistoryDB := db (bx_disk (ld_index s)).

Lemma start_new x : new_loader reader x
  = Ok {| ld_cache := empty_record_cache; ld_files := new_file_cache (last_file + 1); ld_index := x; ld_should_stop := false |}.
Proof. unfold new_loader. by rewrite (fh_latest _ _ _ F). Qed.
Lemma new_files_ok f : files_ok reader (new_file_cache f).
Proof. split; [intros i bs; cbn; by rewrite lookup_empty|intros i bs Hx; by apply elem_of_nil in Hx]. Qed.
Lemma empty_holds : holds_records [] empty_record_cache.
Proof. split; [done|intros p; apply lookup_empty|done]. Qed.

Lemma restore_run c x f files stop : built c → no_index x → in_files chain blocks last_file 0 →
  calc_latest_block_file_index c = Some f → files_ok reader files →
  ∃ s, try_restore_block_index_from_db f (usize_as_u32 (last_file + 1))
         {| ld_cache := empty_record_cache; ld_files := files; ld_index := saved c f x; ld_should_stop := stop |} = (Ok true, s)
    ∧ sound reader chain L s ∧ ld_index s = saved c f x
    ∧ ld_cache s = {| block_hash_cache := get_all_blocks (saved c f x); block_prev_hash_cache := ∅;
                      sorted_blocks := get_all_block_heights (saved c f x) |}.
Proof.
  intros B X H0 Ef Hf. destruct (saved_valid c x f B X H0 Ef) as (E1 & E2 & V).
  unfold try_restore_block_index_from_db, restore_or_clear_persisted_block_index.
  set (c' := Build_BlockRecordCache _ _ _) in *.
  exists {| ld_cache := c'; ld_files := files; ld_index := saved c f x; ld_should_stop := stop |}. split; [|split; [|by split]].
  - unfold bind, try, lift, clear_record_cache, load_from_db, on_cache, zoom, modify, gets, bind, empty_record_cache.
    cbn [ld_cache ld_index block_prev_hash_cache fst snd].
    fold c'. by rewrite V.
  - destruct (built_sound c files x stop B Hf) as (S1 & S2 & S3). split; [|split; [|done]]; cbn [ld_cache].
    + rewrite E2. exact S1.
    + rewrite E1. exact S2.
Qed.

Lemma first_start s : no_index (ld_index s) → ld_cache s = empty_record_cache → files_ok reader (ld_files s) →
  ∃ c, built c ∧ loader_init reader s = (Ok tt,
    {| ld_cache := c; ld_files := ld_files s;
       ld_index := match calc_latest_block_file_index c with None => ld_index s | Some f => saved c f (ld_index s) end;
       ld_should_stop := ld_should_stop s |}).
Proof.
  intros (_ & _ & X3 & X4) Ec Hf. unfold loader_init, build_index, bind at 1, gets. rewrite X3.
  apply rebuild_shape; [rewrite Ec; apply empty_holds|done].
Qed.
Lemma second_start c x f : built c → no_index x → in_files chain blocks last_file 0 → calc_latest_block_file_index c = Some f →
  ∃ s, loader_init reader {| ld_cache := empty_record_cache; ld_files := new_file_cache (last_file + 1);
                            ld_index := saved c f x; ld_should_stop := false |} = (Ok tt, s)
    ∧ sound reader chain L s ∧ history s = db (bx_disk x)
    ∧ if should_try_restore_from_db f (last_file + 1)
      then ld_index s = saved c f x
           ∧ ld_cache s = {| block_hash_cache := get_all_blocks (saved c f x); block_prev_hash_cache := ∅;
                             sorted_blocks := get_all_block_heights (saved c f x) |}
      else index_of_files (ld_cache s).
Proof.
  intros B X H0 Ef. pose proof (built_latest c B) as Hf. rewrite Ef in Hf. pose proof (fh_last _ _ _ F) as Hl.
  set (s := Build_BlockLocalLoader _ _ _ _). unfold loader_init, build_index.
  rewrite (bind_run _ _ s (Some f) s) by done. rewrite (fh_latest _ _ _ F).
  rewrite (bind_run _ _ s (last_file + 1) s) by done. cbn zeta. rewrite (usize_as_u32_id (last_file + 1)) by lia.
  destruct (f >? last_file + 1) eqn:E; [b2p; lia|]. destruct (should_try_restore_from_db _ _).
  - destruct (restore_run c x f (new_file_cache (last_file + 1)) false B X H0 Ef (new_files_ok _)) as (s' & E' & S' & I' & C').
    rewrite (usize_as_u32_id (last_file + 1)) in E' by lia. fold s in E'. exists s'. rewrite (bind_run _ _ _ _ _ E'). split; [done|].
    split; [done|]. split; [unfold history; by rewrite I'|by split].
  - destruct (rebuild_shape s) as (c2 & B2 & ->); [apply empty_holds|apply X|]. eexists. split; [reflexivity|].
    split; [by apply built_sound, new_files_ok|]. split; [|by apply built_index].
    unfold history. cbn. by destruct (calc_latest_block_file_index c2).
Qed.

(** C8. Files that hold a part of the node's chain, its first block at least, with forks and with any other
    blocks, and that lack a block of the chain only where they hold no other child of its predecessor
    (a child alone that has left the chain is the subject of [stale_child_served]): a loader that finds
    no index in the database builds one, the heights of the leading blocks of the chain in the files and
    the place of every block, and saves it.  A loader started again on that database, over the same
    files, takes its index from there if it is recent enough, and otherwise builds it again.  Both
    answer every height of the chain as the node does, whatever order the indexer reads in, whatever
    the thread that reads files ahead has done before each look at its queue, whatever the cache of
    files forgets, and with the index dropped at any moment by the end of a synchronisation.  Neither
    start touches the balance history. *)
Theorem loader_serves_chain x : no_index x → in_files chain blocks last_file 0 →
  ∃ s s' f r r', new_loader reader x = Ok s ∧ loader_init reader s = (Ok tt, s')
  ∧ index_of_files (ld_cache s') ∧ calc_latest_block_file_index (ld_cache s') = Some f
  ∧ (get_all_blocks (ld_index s') = block_hash_cache (ld_cache s')
     ∧ get_all_block_heights (ld_index s') = sorted_blocks (ld_cache s')
     ∧ last_block_file_index (ld_index s') = Some f)
  ∧ serves reader L s' ∧ history s' = db (bx_disk x)
  ∧ new_loader reader (ld_index s') = Ok r ∧ loader_init reader r = (Ok tt, r')
  ∧ (if should_try_restore_from_db f (last_file + 1)
     then ld_index r' = ld_index s'
          ∧ ld_cache r' = {| block_hash_cache := get_all_blocks (ld_index s'); block_prev_hash_cache := ∅;
                             sorted_blocks := get_all_block_heights (ld_index s') |}
     else index_of_files (ld_cache r'))
  ∧ serves reader L r' ∧ history r' = db (bx_disk x).
Proof.
  intros X H0. pose proof (start_new x) as E0. set (s := Build_BlockLocalLoader _ _ _ _) in E0.
  destruct (first_start s X eq_refl (new_files_ok _)) as (c & B & E).
  destruct (built_some c 0 B H0) as [f Ef]. rewrite Ef in E.
  destruct (second_start c x f B X H0 Ef) as (r' & Er & Sr & Hr & Ir).
  destruct (saved_valid c x f B X H0 Ef) as (V1 & V2 & _). cbn in V1, V2.
  eexists s, _, f, _, r'. split; [done|]. split; [exact E|]. cbn [ld_cache ld_index]. split; [by apply built_index|].
  split_and!; [done|done|done|done|by eapply sound_serves, built_sound, new_files_ok|done|
    apply start_new|exact Er|exact Ir|by eapply sound_serves|done].
Qed.
End Follow.

(** ** A node with forks in its files *)

#[local] Existing Instances demo_crate demo_node demo_by_hash demo_blocks_crate demo_file_lru demo_run.

Lemma demo_part : part_of_chain demo_node_chain 2 (demo_files demo_forked) 1.
Proof.
  assert (∀ k, 0 <= k <= 2 → k = 0 ∨ k = 1 ∨ k = 2) as Hk by lia.
  assert (all_blocks (demo_files demo_forked) 1 = demo_file [(1, 0); (9, 1); (2, 1)]) as E by by vm_compute.
  split; rewrite E; cbn; intros b; [intros k Hb [-> | [-> | ->]]%Hk|intros k Hb [-> | [-> | ->]]%Hk|intros Hb].
  all: repeat (apply elem_of_cons in Hb as [->|Hb]); try (by apply elem_of_nil in Hb); cbn; intros Hx; try done; set_solver.
Qed.
Lemma loader_serves_chain_witness :
  let reader := demo_reader demo_forked in
  ∃ s s' r r', new_loader reader (demo_no_index empty_balance_db) = Ok s ∧ loader_init reader s = (Ok tt, s')
  ∧ is_Some (last_block_file_index (ld_index s'))
  ∧ get_all_block_heights (ld_index s') = sorted_blocks (ld_cache s') ∧ sorted_blocks (ld_cache s') ≠ []
  ∧ serves reader 2 s' ∧ history s' = empty_balance_db
  ∧ new_loader reader (ld_index s') = Ok r ∧ loader_init reader r = (Ok tt, r')
  ∧ serves reader 2 r' ∧ history r' = empty_balance_db.
Proof.
  pose proof demo_file_lru_laws. pose proof demo_run_laws.
  destruct (loader_serves_chain (demo_reader demo_forked) (demo_files demo_forked) 1 demo_node_chain 2 demo_node_answers
    (demo_files_hold demo_forked (or_introl eq_refl)) demo_part (demo_no_index empty_balance_db))
    as (s & s' & f & r & r' & H1 & H2 & I & _ & (_ & Eh & El) & S1 & Hs1 & H3 & H4 & _ & S2 & Hs2); [done| |].
  { unfold in_files. apply (bool_decide_unpack _). by vm_compute. }
  exists s, s', r, r'. split_and!; try done.
  destruct (if_heights _ _ _ _ _ _ I) as (n & Hn & _ & ->). intros E. apply (f_equal length) in E.
  rewrite length_fmap, length_seq in E. cbn in E. lia.
Defined.
