(* ===== verification/LoaderFaults.v ===== *)
(** * Where the local loader fails the indexer

    A block that left the chain at the end of the complete files is served in the place of the chain's
    block, and a persisted index that is given up takes the block commits of the balance history with it,
    without which the indexer cannot go on. *)

From S2P Require Import Prelude Encoding Types Tx BalanceCodec BalanceDb BalanceDbFacts BalanceBlock BalanceIndexer.
From S2P Require Import BalanceDemo BlockFiles BlockRecords LocalLoader LoaderIndex LoaderServes LoaderChain LoaderDemo LoaderFollow.

(** ** A stale block *)

Section Stale.
Context `{BC : BitcoinCrate} `{CL : BTCClient} `{CH : BlockByHash} `{KC : BlockCrate}.
Context `{FC : FileLruCrate} `{FL : !FileLruCrateLaws} `{IR : IndexRun} `{IL : !IndexRunLaws}.
Context (reader : BlockFileReader) (blocks : Z → list FileBlock) (last_file : Z) (chain : u32 → BtcBlock) (L : u32).
Context (N : node_answers chain L) (F : files_hold reader blocks last_file).

(** The files hold the chain below a height, and there a block that is not on it; the chain's block of
    this height is in a later file. *)
Record stale_end (n : nat) (b : FileBlock) : Prop := {
  se_height : (0 < n)%nat ∧ Z.of_nat n <= L;
  se_below k : (k < n)%nat → ∃ b', b' ∈ all_blocks blocks last_file ∧ fb_block b' = chain (Z.of_nat k)
    ∧ fb_prev_blockhash b' = prev_hash chain (Z.of_nat k);
  se_in : b ∈ all_blocks blocks last_file;
  se_prev : fb_prev_blockhash b = prev_hash chain (Z.of_nat n);
  se_only b' : b' ∈ all_blocks blocks last_file → fb_prev_blockhash b' = prev_hash chain (Z.of_nat n) → b' = b;
  se_tip b' : b' ∈ all_blocks blocks last_file → fb_prev_blockhash b' ≠ block_hash (fb_block b);
  se_off k : 0 <= k <= L → block_hash (fb_block b) ≠ block_hash (chain k)
}.

Lemma parent_app (path tail : list BlockHash) k : (k <= length path)%nat → parent (path ++ tail) k = parent path k.
Proof. intros Hk. destruct k as [|k]; [done|]. unfold parent. by rewrite lookup_app_l by lia. Qed.
Lemma stale_path n b : stale_end n b → file_path blocks last_file (main_path chain n ++ [block_hash (fb_block b)]).
Proof.
  intros S. pose proof (na_height _ _ N) as HL. pose proof (se_height _ _ S) as [Hn0 HnL].
  pose proof (length_main_path chain n) as El. split.
  - intros k h Hk. assert (k <= n)%nat as Hkn by (apply lookup_lt_Some in Hk; rewrite length_app, El in Hk; cbn in Hk; lia).
    rewrite parent_app, main_parent by lia. destruct (decide (k = n)) as [->|Hne].
    + rewrite lookup_app_r, El, Nat.sub_diag in Hk by lia. injection Hk as <-. split; [exists b; by destruct S|].
      left. intros b' Hb' Hp. by rewrite (se_only _ _ S b' Hb' Hp).
    + rewrite lookup_app_l in Hk by lia. apply main_path_lookup in Hk as [Hk ->]. split.
      * destruct (se_below _ _ S k Hk) as (b' & Hb' & E & Hp). exists b'. by rewrite E.
      * right. exists (chain (Z.of_nat k)). split; [|done]. apply (na_block _ _ N). lia.
  - intros b' Hb'. rewrite last_snoc. by apply (se_tip _ _ S).
  - apply NoDup_app. split_and!; [|intros h Hh Hx|apply NoDup_singleton].
    + apply NoDup_alt. intros i j h [Hi ->]%main_path_lookup [Hj E]%main_path_lookup. apply (na_distinct _ _ N) in E; lia.
    + apply list_elem_of_singleton in Hx. subst h. apply list_elem_of_lookup in Hh as [k [Hk E]%main_path_lookup].
      eapply (se_off _ _ S); [|exact E]. lia.
  - unfold count. rewrite length_app, El. cbn. lia.
Qed.

(** C33. The index that is built from the files is not compared with the node where a block has a single
    child.  When the complete files end with a block that left the chain, and the block that replaced it
    is in the file that the node still writes, the loader answers this height with the block that left the chain,
    whatever the node says: the check of the tip over RPC is made only for an index read from the
    database. *)
Theorem stale_child_served x n b : no_index x → stale_end n b →
  ∃ s s', new_loader reader x = Ok s ∧ loader_init reader s = (Ok tt, s')
  ∧ loader_get_block_hash (Z.of_nat n) s' = Ok (block_hash (fb_block b))
  ∧ (∀ script, (loader_get_block_by_height reader script (Z.of_nat n) s').1 = Ok (fb_block b))
  ∧ btc_get_block_hash (Z.of_nat n) = Ok (block_hash (chain (Z.of_nat n)))
  ∧ block_hash (chain (Z.of_nat n)) ≠ block_hash (fb_block b).
Proof.
  intros (_ & _ & X3 & X4) S. pose proof (se_height _ _ S) as [Hn0 HnL].
  pose proof (start_new reader blocks last_file F x) as E0. set (s := Build_BlockLocalLoader _ _ _ _) in E0.
  destruct (build_run reader blocks last_file F empty_record_cache _ (empty_holds) (stale_path n b S)) as (rs & c' & P & Hc & E).
  set (c := Build_BlockRecordCache _ _ _) in E.
  assert (∃ x', loader_init reader s = (Ok tt, {| ld_cache := c; ld_files := ld_files s; ld_index := x'; ld_should_stop := false |}))
    as (x' & Ei).
  { unfold loader_init, build_index, bind at 1, gets. cbn [ld_index s]. rewrite X3. unfold rebuild_block_index, on_cache.
    unfold bind at 1, zoom. cbn [ld_cache s]. rewrite E. cbn beta iota zeta delta [fst snd].
    erewrite bind_run by reflexivity. cbn [ld_cache]. destruct (calc_latest_block_file_index c); [rewrite save_run by done|];
    eexists; reflexivity. }
  eexists s, _. split; [done|]. split; [exact Ei|].
  assert (loader_get_block_hash (Z.of_nat n) {| ld_cache := c; ld_files := ld_files s; ld_index := x'; ld_should_stop := false |}
    = Ok (block_hash (fb_block b))) as Eh.
  { unfold loader_get_block_hash. cbn [ld_cache c sorted_blocks]. rewrite Nat2Z.id.
    rewrite (numbered_lookup _ 0 _ (block_hash (fb_block b))); [done|].
    by rewrite lookup_app_r, length_main_path, Nat.sub_diag by (rewrite length_main_path; lia). }
  split; [done|]. split; [|split; [apply (na_hash _ _ N); lia|intros Hx; apply (se_off _ _ S (Z.of_nat n)); [lia|done]]].
  intros script. unfold loader_get_block_by_height. unfold bind at 1. rewrite Eh. unfold loader_get_block_by_hash. unfold bind at 1, gets.
  cbn [ld_cache c block_hash_cache].
  destruct (block_record _ _ _ F b (se_in _ _ S)) as (r & Hr & H1 & H2).
  destruct (record_entry_block _ _ _ F r Hr) as (b' & bs & Hb' & H3 & H4 & El & Hm). rewrite <-P in Hr.
  assert (b' = b) as -> by (apply (se_only _ _ S); [done|]; rewrite <-H4, H2; apply S).
  rewrite <-H1, (entry_of_record _ _ _ F rs c' P Hc r Hr).
  destruct (get_block_ok reader script (bf_block_file_index (record_entry r)) (bf_block_record_index (record_entry r)) _
    (new_files_ok reader (last_file + 1))) as (cf & Ef & _).
  unfold bind, on_files, zoom. cbn [ld_files s]. rewrite Ef, El. cbn [result_bind]. by rewrite Hm.
Qed.
End Stale.

(** ** An index that is given up *)

Section GivenUp.
Context `{BC : BitcoinCrate} `{CL : BTCClient} `{CH : BlockByHash} `{KC : BlockCrate} `{LC : LruCrate}.
Context `{FC : FileLruCrate} `{IR : IndexRun} (reader : BlockFileReader).

(** The cache that the tables of the index give. *)
Definition loaded (x : BlockIndexDb) : BlockRecordCache :=
  {| block_hash_cache := get_all_blocks x; block_prev_hash_cache := ∅; sorted_blocks := get_all_block_heights x |}.
(** The index in the database is ahead of the files, or is loaded and does not pass. *)
Definition gives_up (x : BlockIndexDb) (last_file current : u32) : Prop :=
  last_file > current
  ∨ should_try_restore_from_db last_file current = true
    ∧ ∃ e, validate_loaded_block_index (loaded x) last_file current = Err e.
Definition no_commits (d : BalanceHistoryDB) : BalanceHistoryDB := on_block_commits_cf (λ _, ∅) d.

Lemma index_write_run msg f x : writes_left (bx_disk x) = None → index_write msg f x = (Ok tt, f x).
Proof. destruct x as [b h l [d w]]. cbn. by intros ->. Qed.
Lemma clear_cf_run p m f x : m x = (Ok tt, f x) → (p x = true → f x = x) → clear_column_family p m x = (Ok tt, f x).
Proof.
  intros Hm Hp. unfold clear_column_family. rewrite (bind_run _ _ x (p x) x) by done.
  destruct (p x); [by rewrite Hp|exact Hm].
Qed.
Lemma clear_blocks_run x : writes_left (bx_disk x) = None →
  clear_blocks x = (Ok tt, {| blocks_cf := ∅; block_heights_cf := ∅; last_block_file_index := None;
                              bx_disk := {| db := no_commits (db (bx_disk x)); writes_left := None |} |}).
Proof.
  intros Hw. unfold clear_blocks. rewrite (bind_run _ _ _ _ _ (index_write_run _ _ _ Hw)). destruct x as [b h l [d w]]. cbn in Hw. subst w.
  erewrite bind_run; cycle 1.
  { apply (clear_cf_run _ _ (λ x, set_index ∅ (block_heights_cf x) (last_block_file_index x) x)); [done|].
    intros Hb%bool_decide_eq_true. unfold set_index in *. cbn in *. by rewrite Hb. }
  erewrite bind_run; cycle 1.
  { apply (clear_cf_run _ _ (λ x, set_index (blocks_cf x) ∅ (last_block_file_index x) x)); [done|].
    intros Hb%bool_decide_eq_true. unfold set_index in *. cbn in *. by rewrite Hb. }
  erewrite bind_run; cycle 1.
  { apply (clear_cf_run _ _ (λ x, {| blocks_cf := blocks_cf x; block_heights_cf := block_heights_cf x;
      last_block_file_index := last_block_file_index x; bx_disk := {| db := no_commits (db (bx_disk x)); writes_left := None |} |}));
      [done|]. intros Hb%bool_decide_eq_true. cbn in *. unfold no_commits, on_block_commits_cf. rewrite <-Hb. by destruct d. }
  reflexivity.
Qed.
Lemma rebuild_keeps s : db (bx_disk (ld_index (rebuild_block_index reader s).2)) = db (bx_disk (ld_index s)).
Proof.
  unfold rebuild_block_index, on_cache, zoom, bind. destruct (build_file_index reader (ld_cache s)) as [[[]|e|e] c]; [|done..].
  unfold gets. cbn [ld_cache fst snd]. destruct (calc_latest_block_file_index c) as [f|]; [|done].
  unfold save_to_db, bind, gets, on_index, zoom, put_blocks_sync, index_write, write. cbn [ld_index ld_cache].
  destruct (writes_left (bx_disk (ld_index s))) as [[|w]|]; done.
Qed.

(** Without the commits, an indexer that has indexed a block cannot compare it with the node. *)
Lemma search_stuck h n dk : block_commits_cf (db dk) = ∅ → 0 < h → 0 < n →
  ∃ e, find_reorg_common_ancestor_height h n dk = (Err e, dk).
Proof.
  intros Hc Hh Hn. unfold find_reorg_common_ancestor_height. destruct (h =? 0) eqn:E; [b2p; lia|].
  assert (∀ k, get_block_commit k dk = (Ok None, dk)) as Hk.
  { intros k. unfold get_block_commit, reads, gets. by rewrite Hc, lookup_empty. }
  destruct (n >=? h) eqn:E2.
  - eexists. unfold bind at 1. rewrite (bind_run _ _ _ _ _ (Hk h)). reflexivity.
  - rewrite (bind_run _ _ dk false dk) by done. cbn beta iota.
    rewrite (heights_snoc 1) by lia.
    rewrite rev_app_distr. cbn [rev app search_ancestor]. eexists. rewrite (bind_run _ _ _ _ _ (Hk _)). reflexivity.
Qed.
Definition is_stuck (config : SyncConfig) (d : BalanceHistoryDB) : Prop :=
  ∀ n shutdown t, get_latest_block_height config = Ok n → 0 < n → db (disk (store t)) = d →
  ∃ e t', sync_once config shutdown t = (Err e, t') ∧ db (disk (store t')) = d.
Lemma sync_stuck config d h : block_commits_cf d = ∅ → meta_cf d !! META_KEY_ROLLBACK_IN_PROGRESS = None →
  meta_cf d !! META_KEY_BTC_BLOCK_HEIGHT = Some h → 0 < h → is_stuck config d.
Proof.
  intros Hc Hr Hh H0 n shutdown t Hn Hn0 <-. destruct t as [[dk cs] b]. cbn in Hc, Hr, Hh.
  destruct (search_stuck h n dk Hc H0 Hn0) as [e E].
  exists e, {| store := {| disk := dk; caches := cs |}; status_rollback_in_progress := false |}. split; [|done].
  unfold sync_once. set (t := Build_IndexerState _ _). set (t' := Build_IndexerState _ _).
  assert (resume_pending_rollback_if_needed t = (Ok false, t')) as Er.
  { assert (get_u32_meta META_KEY_ROLLBACK_IN_PROGRESS dk = (Ok None, dk)) as Em by (unfold get_u32_meta, reads, gets; by rewrite Hr).
    assert (on_db is_rollback_in_progress t = (Ok false, t)) as E1.
    { unfold on_db, on_store, on_disk, zoom, is_rollback_in_progress. cbn [t store disk]. by rewrite (bind_run _ _ _ _ _ Em). }
    assert (on_db resume_rollback_if_needed t = (Ok false, t)) as E2.
    { unfold on_db, on_store, on_disk, zoom, resume_rollback_if_needed. cbn [t store disk]. by rewrite (bind_run _ _ _ _ _ Em). }
    unfold resume_pending_rollback_if_needed. rewrite (bind_run _ _ _ _ _ E1). rewrite (bind_run _ _ t tt t) by done.
    by rewrite (bind_run _ _ _ _ _ E2). }
  rewrite (bind_run _ _ _ _ _ Er). rewrite (bind_run _ _ t' n t') by (unfold lift; by rewrite Hn).
  rewrite (bind_run _ _ t' h t').
  2: { unfold t', on_db, on_store, on_disk, zoom, get_btc_block_height, reads, gets. cbn [store disk fst snd db]. by rewrite Hh. }
  unfold reconcile_reorg_if_needed. unfold bind at 1, bind at 1. unfold on_db, on_store, on_disk, zoom. cbn [t' store disk fst snd].
  by rewrite E.
Qed.

Definition with_index (x : BlockIndexDb) (c : BlockRecordCache) (s : BlockLocalLoader) : BlockLocalLoader :=
  {| ld_cache := c; ld_files := ld_files s; ld_index := x; ld_should_stop := ld_should_stop s |}.
Definition cleared (x : BlockIndexDb) : BlockIndexDb :=
  {| blocks_cf := ∅; block_heights_cf := ∅; last_block_file_index := None;
     bx_disk := {| db := no_commits (db (bx_disk x)); writes_left := None |} |}.
Lemma give_up_run s f current : writes_left (bx_disk (ld_index s)) = None →
  (∃ e, validate_loaded_block_index (loaded (ld_index s)) f current = Err e) →
  try_restore_block_index_from_db f current s = (Ok false, with_index (cleared (ld_index s)) empty_record_cache s).
Proof.
  intros Hw [e E]. unfold try_restore_block_index_from_db, restore_or_clear_persisted_block_index.
  assert (∀ c, map_err "additionally failed to clear persisted block index" (on_index clear_blocks) (with_index (ld_index s) c s)
    = (Ok tt, with_index (cleared (ld_index s)) c s)) as Ec.
  { intros c. unfold map_err, on_index, zoom. cbn [with_index ld_index]. by rewrite (clear_blocks_run _ Hw). }
  unfold bind at 1, try. rewrite (bind_run _ _ s tt (with_index (ld_index s) empty_record_cache s)) by done.
  rewrite (bind_run _ _ _ tt (with_index (ld_index s) (loaded (ld_index s)) s)) by done.
  rewrite (bind_run _ _ _ (loaded (ld_index s)) (with_index (ld_index s) (loaded (ld_index s)) s)) by done.
  rewrite (bind_run _ _ _ (inr e) (with_index (ld_index s) (loaded (ld_index s)) s)) by (unfold lift; by rewrite E).
  rewrite (bind_run _ _ _ tt (with_index (ld_index s) empty_record_cache s)) by done.
  by rewrite (bind_run _ _ _ _ _ (Ec empty_record_cache)).
Qed.

(** C32. An index in the database that is ahead of the block files, or that is loaded and does not pass (the
    node has another block at its tip, for one), is cleared, and the block commits of the balance history
    go with it, whether the new index can be built or not; nothing else of the history changes.  The
    commits are not of the index: an indexer that has indexed a block cannot compare its tip with
    the node any more, and every iteration of it fails from then on. *)
Theorem failed_restore_erases_commits s f latest :
  last_block_file_index (ld_index s) = Some f → find_latest_blk_file reader = Ok latest →
  writes_left (bx_disk (ld_index s)) = None → gives_up (ld_index s) f (usize_as_u32 latest) →
  let s' := (loader_init reader s).2 in
  history s' = no_commits (history s)
  ∧ ∀ config h, meta_cf (history s) !! META_KEY_ROLLBACK_IN_PROGRESS = None →
      meta_cf (history s) !! META_KEY_BTC_BLOCK_HEIGHT = Some h → 0 < h → is_stuck config (history s').
Proof.
  intros Hf Hl Hw G s'. assert (history s' = no_commits (history s)) as E.
  { unfold s', loader_init, build_index. rewrite (bind_run _ _ s (Some f) s) by (unfold gets; by rewrite Hf). rewrite Hl.
    rewrite (bind_run _ _ s latest s) by done. cbn zeta. destruct (f >? usize_as_u32 latest) eqn:Ef.
    - rewrite (bind_run _ _ s tt (with_index (cleared (ld_index s)) (ld_cache s) s))
        by (unfold on_index, zoom; by rewrite (clear_blocks_run _ Hw)). apply rebuild_keeps.
    - destruct G as [G|[G1 G2]]; [b2p; lia|]. rewrite G1. rewrite (bind_run _ _ _ _ _ (give_up_run s f _ Hw G2)).
      apply rebuild_keeps. }
  split; [done|]. intros config h Hr Hh H0. rewrite E. by apply (sync_stuck _ _ h).
Qed.
End GivenUp.

(** ** The small node *)

#[local] Existing Instances demo_crate demo_lru demo_node demo_by_hash demo_blocks_crate demo_file_lru demo_run.

Definition demo_stale_block : FileBlock := {| fb_block := demo_block 8 []; fb_prev_blockhash := 2 |}.
Lemma demo_stale_end : stale_end (demo_files demo_stale) 1 demo_node_chain 2 2 demo_stale_block.
Proof.
  assert (all_blocks (demo_files demo_stale) 1 = demo_file [(1, 0); (2, 1); (8, 2)]) as E by by vm_compute.
  split; rewrite ?E; cbn.
  - lia.
  - intros k Hk. destruct k as [|[|k]]; [| |lia].
    + exists {| fb_block := demo_block 1 []; fb_prev_blockhash := 0 |}. set_solver.
    + exists {| fb_block := demo_block 2 []; fb_prev_blockhash := 1 |}. set_solver.
  - set_solver.
  - done.
  - intros b Hb. repeat (apply elem_of_cons in Hb as [->|Hb]); try (by apply elem_of_nil in Hb); done.
  - intros b Hb. repeat (apply elem_of_cons in Hb as [->|Hb]); try (by apply elem_of_nil in Hb); done.
  - intros k Hk. lia.
Qed.
Lemma stale_child_served_witness :
  let reader := demo_reader demo_stale in
  ∃ s s', new_loader reader (demo_no_index empty_balance_db) = Ok s ∧ loader_init reader s = (Ok tt, s')
  ∧ loader_get_block_hash 2 s' = Ok 8 ∧ (∀ script, (loader_get_block_by_height reader script 2 s').1 = Ok (demo_block 8 []))
  ∧ btc_get_block_hash 2 = Ok 3 ∧ 3 ≠ 8.
Proof.
  pose proof demo_file_lru_laws. pose proof demo_run_laws.
  apply (stale_child_served (demo_reader demo_stale) (demo_files demo_stale) 1 demo_node_chain 2 demo_node_answers
    (demo_files_hold demo_stale (or_intror eq_refl)) (demo_no_index empty_balance_db) 2 demo_stale_block); [done|apply demo_stale_end].
Defined.

(** An index saved before the tip of the chain was replaced, and a history of two blocks. *)
Definition demo_saved : BlockIndexDb :=
  {| blocks_cf := <[7 := {| bf_block_file_index := 0; bf_block_file_offset := 0; bf_block_record_index := 0 |}]> ∅;
     block_heights_cf := <[0 := 7]> ∅; last_block_file_index := Some 1;
     bx_disk := {| db := on_block_commits_cf (insert 1 {| cm_block_height := 1; cm_btc_block_hash := 2; cm_balance_delta_root := repeat 0 32;
                                                        cm_block_commit := repeat 0 32 |})
                           (on_meta_cf (insert META_KEY_BTC_BLOCK_HEIGHT 1) empty_balance_db);
                   writes_left := None |} |}.
Definition demo_config : SyncConfig :=
  {| cfg_batch_size := 10; cfg_max_sync_block_height := 100; cfg_undo_retention_blocks := 10; cfg_undo_cleanup_interval_blocks := 5 |}.
Lemma failed_restore_erases_commits_witness :
  let s := {| ld_cache := empty_record_cache; ld_files := new_file_cache 2; ld_index := demo_saved; ld_should_stop := false |} in
  let s' := (loader_init (demo_reader demo_forked) s).2 in
  is_Some (block_commits_cf (history s) !! 1) ∧ history s' = no_commits (history s)
  ∧ get_latest_block_height demo_config = Ok 2 ∧ is_stuck demo_config (history s').
Proof.
  split; [by eexists|].
  destruct (failed_restore_erases_commits (demo_reader demo_forked)
    {| ld_cache := empty_record_cache; ld_files := new_file_cache 2; ld_index := demo_saved; ld_should_stop := false |} 1 2)
    as [H1 H2]; [done|by vm_compute|done|right; split; [done|eexists; by vm_compute]|].
  split; [exact H1|]. split; [done|]. by apply (H2 demo_config 1).
Defined.
