(* ===== verification/StateIds.v ===== *)
(** * Identifiers of the consensus state

    [usdb-util/src/types.rs]: the SHA-256 identifiers that tie a snapshot of balance-history, the local
    state of usdb-indexer and both together, as downstream chains pin them.  Two states with one
    identifier are one state, if SHA-256 tells apart the texts that were hashed for the two. *)

From S2P Require Import Prelude Encoding Types Tx BalanceBlock BalanceChain BalanceDemo.

Definition CONSENSUS_SOURCE_CHAIN_BTC : string := "BTC".
Definition CONSENSUS_SNAPSHOT_ID_VERSION : string := "btc-consensus-snapshot:v1".
Definition LOCAL_STATE_COMMIT_VERSION : string := "usdb-local-state:v1".
Definition SYSTEM_STATE_ID_VERSION : string := "btc-system-state:v1".
Definition USDB_INDEX_FORMULA_VERSION : string := "pass-energy-formula:v1".
Definition USDB_INDEX_PROTOCOL_VERSION : string := "1.0.0".

Record ConsensusSnapshotIdentity := {
  cs_source_chain : string;
  cs_network : string;
  cs_stable_height : u32;
  cs_stable_block_hash : string;
  cs_stable_lag : u32;
  cs_balance_history_api_version : string;
  cs_balance_history_semantics_version : string;
  cs_usdb_index_formula_version : string;
  cs_usdb_index_protocol_version : string
}.
Record LocalStatePassCommitIdentity := {
  lp_block_height : u32;
  lp_block_commit : string;
  lp_commit_protocol_version : string;
  lp_commit_hash_algo : string
}.
Record LocalStateActiveBalanceSnapshot := {
  ls_block_height : u32;
  ls_total_balance : u64;
  ls_active_address_count : u32
}.
Record LocalStateCommitIdentity := {
  lc_upstream_snapshot_id : string;
  lc_local_synced_block_height : u32;
  lc_latest_pass_block_commit : option LocalStatePassCommitIdentity;
  lc_latest_active_balance_snapshot : option LocalStateActiveBalanceSnapshot;
  lc_usdb_index_protocol_version : string
}.
Record SystemStateIdentity := { ss_upstream_snapshot_id : string; ss_local_state_commit : string }.

(** ** What is fed to the hasher *)

Definition string_component (value : string) : list Z :=
  be_bytes 4 (usize_as_u32 (count (as_bytes value))) ++ as_bytes value.
Definition optional_marker (present : bool) : list Z := [if present then 1 else 0].

Definition snapshot_id_input (i : ConsensusSnapshotIdentity) : list Z :=
  string_component CONSENSUS_SNAPSHOT_ID_VERSION ++ string_component (cs_source_chain i)
  ++ string_component (cs_network i) ++ be_bytes 4 (cs_stable_height i)
  ++ string_component (cs_stable_block_hash i) ++ be_bytes 4 (cs_stable_lag i)
  ++ string_component (cs_balance_history_api_version i)
  ++ string_component (cs_balance_history_semantics_version i)
  ++ string_component (cs_usdb_index_formula_version i)
  ++ string_component (cs_usdb_index_protocol_version i).

Definition pass_commit_component (c : LocalStatePassCommitIdentity) : list Z :=
  be_bytes 4 (lp_block_height c) ++ string_component (lp_block_commit c)
  ++ string_component (lp_commit_protocol_version c) ++ string_component (lp_commit_hash_algo c).
Definition balance_snapshot_component (s : LocalStateActiveBalanceSnapshot) : list Z :=
  be_bytes 4 (ls_block_height s) ++ be_bytes 8 (ls_total_balance s)
  ++ be_bytes 4 (ls_active_address_count s).
Definition optional_component {A} (component : A → list Z) (o : option A) : list Z :=
  optional_marker (bool_decide (is_Some o)) ++ from_option component [] o.
Definition local_state_input (i : LocalStateCommitIdentity) : list Z :=
  string_component LOCAL_STATE_COMMIT_VERSION ++ string_component (lc_upstream_snapshot_id i)
  ++ be_bytes 4 (lc_local_synced_block_height i)
  ++ optional_component pass_commit_component (lc_latest_pass_block_commit i)
  ++ optional_component balance_snapshot_component (lc_latest_active_balance_snapshot i)
  ++ string_component (lc_usdb_index_protocol_version i).
Definition system_state_input (i : SystemStateIdentity) : list Z :=
  string_component SYSTEM_STATE_ID_VERSION ++ string_component (ss_upstream_snapshot_id i)
  ++ string_component (ss_local_state_commit i).

Section Ids.
Context `{BitcoinCrate}.

Definition build_consensus_snapshot_id (i : ConsensusSnapshotIdentity) : string :=
  encode_hex (sha256 (snapshot_id_input i)).
Definition build_local_state_commit (i : LocalStateCommitIdentity) : string :=
  encode_hex (sha256 (local_state_input i)).
Definition build_system_state_id (i : SystemStateIdentity) : string :=
  encode_hex (sha256 (system_state_input i)).

(** ** The inputs tell the identities apart *)

(** A text whose length the code can write. *)
Definition short (s : string) : Prop := count (as_bytes s) <= U32_MAX.
Definition is_height (h : u32) : Prop := 0 <= h <= U32_MAX.

Lemma string_component_inj a b x y :
  short a → short b → string_component a ++ x = string_component b ++ y → a = b ∧ x = y.
Proof.
  unfold short, string_component. intros Ha Hb E. rewrite <-!app_assoc in E. unfold count in *.
  rewrite !usize_as_u32_id in E by lia. apply be4_inj in E as [El E]; [|lia..].
  apply app_inj_1 in E as [E ->]; [|lia]. by apply as_bytes_inj in E.
Qed.
Lemma string_component_inj_last a b :
  short a → short b → string_component a = string_component b → a = b.
Proof.
  intros Ha Hb E. apply (string_component_inj a b [] []); [done..|]. by rewrite !app_nil_r.
Qed.
Lemma optional_component_inj {A} (component : A → list Z) (P : A → Prop) o1 o2 x y :
  (∀ a b x y, P a → P b → component a ++ x = component b ++ y → a = b ∧ x = y) →
  (∀ a, o1 = Some a → P a) → (∀ a, o2 = Some a → P a) →
  optional_component component o1 ++ x = optional_component component o2 ++ y → o1 = o2 ∧ x = y.
Proof.
  unfold optional_component. intros Hc H1 H2. destruct o1 as [a|], o2 as [b|]; cbn; intros E; simplify_eq; [|done].
  apply Hc in E as [-> ->]; auto.
Qed.

Record wf_snapshot_identity (i : ConsensusSnapshotIdentity) : Prop := {
  wcs_heights : is_height (cs_stable_height i) ∧ is_height (cs_stable_lag i);
  wcs_short : Forall short [cs_source_chain i; cs_network i; cs_stable_block_hash i;
    cs_balance_history_api_version i; cs_balance_history_semantics_version i;
    cs_usdb_index_formula_version i; cs_usdb_index_protocol_version i]
}.
Definition wf_pass_commit (c : LocalStatePassCommitIdentity) : Prop :=
  is_height (lp_block_height c)
  ∧ Forall short [lp_block_commit c; lp_commit_protocol_version c; lp_commit_hash_algo c].
Definition wf_balance_snapshot (s : LocalStateActiveBalanceSnapshot) : Prop :=
  is_height (ls_block_height s) ∧ 0 <= ls_total_balance s <= U64_MAX ∧ is_height (ls_active_address_count s).
Record wf_local_identity (i : LocalStateCommitIdentity) : Prop := {
  wlc_height : is_height (lc_local_synced_block_height i);
  wlc_short : short (lc_upstream_snapshot_id i) ∧ short (lc_usdb_index_protocol_version i);
  wlc_pass c : lc_latest_pass_block_commit i = Some c → wf_pass_commit c;
  wlc_balance s : lc_latest_active_balance_snapshot i = Some s → wf_balance_snapshot s
}.

(** Peels the first component of two equal inputs. *)
Ltac peel E :=
  lazymatch type of E with
  | string_component _ ++ _ = string_component _ ++ _ =>
      apply string_component_inj in E as [? E]; [|done|done]
  | be_bytes 4 _ ++ _ = be_bytes 4 _ ++ _ => apply be4_inj in E as [? E]; [|done|done]
  end.
Ltac peel_all E := rewrite <-?app_assoc in E; repeat peel E.

Lemma pass_commit_inj a b x y :
  wf_pass_commit a → wf_pass_commit b →
  pass_commit_component a ++ x = pass_commit_component b ++ y → a = b ∧ x = y.
Proof.
  unfold wf_pass_commit, pass_commit_component. rewrite !Forall_cons. intros (Ha & ? & ? & ? & _) (Hb & ? & ? & ? & _) E.
  peel_all E. split; [|done]. destruct a, b; cbn in *; congruence.
Qed.
Lemma balance_snapshot_inj a b x y :
  wf_balance_snapshot a → wf_balance_snapshot b →
  balance_snapshot_component a ++ x = balance_snapshot_component b ++ y → a = b ∧ x = y.
Proof.
  unfold wf_balance_snapshot, balance_snapshot_component. intros (? & Ha & ?) (? & Hb & ?) E.
  rewrite <-!app_assoc in E. peel E. apply app_inj_1 in E as [Et E]; [|by rewrite !length_be_bytes].
  apply (be_bytes_inj 8) in Et; [|change (256 ^ Z.of_nat 8) with (U64_MAX + 1); lia..]. peel E.
  split; [|done]. destruct a, b; cbn in *; congruence.
Qed.

Lemma snapshot_id_input_inj i j :
  wf_snapshot_identity i → wf_snapshot_identity j → snapshot_id_input i = snapshot_id_input j → i = j.
Proof.
  intros [[? ?] Si] [[? ?] Sj] E. rewrite !Forall_cons in Si, Sj.
  destruct Si as (?&?&?&?&?&?&?&_), Sj as (?&?&?&?&?&?&?&_). unfold snapshot_id_input in E.
  assert (short CONSENSUS_SNAPSHOT_ID_VERSION) by by vm_compute.
  peel_all E. apply string_component_inj_last in E; [|done..]. destruct i, j; cbn in *; congruence.
Qed.
Lemma local_state_input_inj i j :
  wf_local_identity i → wf_local_identity j → local_state_input i = local_state_input j → i = j.
Proof.
  intros [? [? ?] Pi Bi] [? [? ?] Pj Bj] E. unfold local_state_input in E.
  assert (short LOCAL_STATE_COMMIT_VERSION) by by vm_compute.
  do 3 peel E. apply (optional_component_inj _ wf_pass_commit) in E as [? E]; [|by apply pass_commit_inj|done..].
  apply (optional_component_inj _ wf_balance_snapshot) in E as [? E]; [|by apply balance_snapshot_inj|done..].
  apply string_component_inj_last in E; [|done..]. destruct i, j; cbn in *; congruence.
Qed.
Lemma system_state_input_inj i j :
  short (ss_upstream_snapshot_id i) → short (ss_local_state_commit i) →
  short (ss_upstream_snapshot_id j) → short (ss_local_state_commit j) →
  system_state_input i = system_state_input j → i = j.
Proof.
  intros ???? E. unfold system_state_input in E. assert (short SYSTEM_STATE_ID_VERSION) by by vm_compute.
  do 2 peel E. apply string_component_inj_last in E; [|done..]. destruct i, j; cbn in *; congruence.
Qed.

(** ** The identifiers *)

Context {BL : BitcoinCrateLaws}.

(** SHA-256 tells these texts apart. *)
Definition tells_apart (inputs : list (list Z)) : Prop :=
  ∀ x y, x ∈ inputs → y ∈ inputs → sha256 x = sha256 y → x = y.

Lemma hex_digest_inj inputs x y :
  tells_apart inputs → x ∈ inputs → y ∈ inputs → encode_hex (sha256 x) = encode_hex (sha256 y) → x = y.
Proof. intros D Hx Hy E. apply encode_hex_inj in E; [by apply D|apply sha256_bytes..]. Qed.
Lemma short_digest x : short (encode_hex (sha256 x)).
Proof.
  unfold short, count, as_bytes. rewrite length_fmap.
  assert (∀ l, length (list_ascii_of_string (encode_hex l)) = (2 * length l)%nat) as ->.
  { induction l as [|b l IH]; cbn; [done|]. rewrite IH. lia. }
  rewrite sha256_length. done.
Qed.

(** The identifier of a whole state: of the snapshot adopted and the local state derived from it. *)
Definition system_identity (snapshot : ConsensusSnapshotIdentity) (local : LocalStateCommitIdentity) :
    SystemStateIdentity :=
  {| ss_upstream_snapshot_id := build_consensus_snapshot_id snapshot;
     ss_local_state_commit := build_local_state_commit local |}.
Definition state_id (snapshot : ConsensusSnapshotIdentity) (local : LocalStateCommitIdentity) : string :=
  build_system_state_id (system_identity snapshot local).
(** The three texts hashed for it. *)
Definition state_inputs (snapshot : ConsensusSnapshotIdentity) (local : LocalStateCommitIdentity) : list (list Z) :=
  [snapshot_id_input snapshot; local_state_input local; system_state_input (system_identity snapshot local)].

Lemma state_id_inj s1 l1 s2 l2 :
  wf_snapshot_identity s1 → wf_snapshot_identity s2 → wf_local_identity l1 → wf_local_identity l2 →
  tells_apart (state_inputs s1 l1 ++ state_inputs s2 l2) →
  state_id s1 l1 = state_id s2 l2 → s1 = s2 ∧ l1 = l2.
Proof.
  intros W1 W2 L1 L2 D E. unfold state_inputs in D. cbn [app] in D.
  apply (hex_digest_inj _ _ _ D) in E; [|set_solver..].
  apply system_state_input_inj in E; [|apply short_digest..]. injection E as E1 E2.
  apply (hex_digest_inj _ _ _ D) in E1; [|set_solver..]. apply (hex_digest_inj _ _ _ D) in E2; [|set_solver..].
  split; [by apply snapshot_id_input_inj|by apply local_state_input_inj].
Qed.

(** C21. The system state id that downstream chains pin determines everything under it: the network,
    height, block hash and versions of the balance-history snapshot, and the height, pass commit,
    active-balance snapshot and version of the local state.  Two states have one id only if they are
    one state, where SHA-256 tells apart the six texts that are hashed for the two. *)
Theorem system_state_id_binds s1 l1 s2 l2 :
  wf_snapshot_identity s1 → wf_snapshot_identity s2 → wf_local_identity l1 → wf_local_identity l2 →
  tells_apart (state_inputs s1 l1 ++ state_inputs s2 l2) →
  state_id s1 l1 = state_id s2 l2 → s1 = s2 ∧ l1 = l2.
Proof. apply state_id_inj. Qed.
End Ids.

(** ** Witness *)

(** A digest to which every byte of the input counts. *)
Definition DIGEST_BOUND : Z := Eval cbv in 256 ^ 8.
Definition rolling_crate : BitcoinCrate := {|
  is_coinbase tx := bool_decide (input tx = []);
  is_op_return s := match s with 106 :: _ => true | _ => false end;
  sha256 l := be_bytes 32 (foldl (λ acc b, (acc * 65599 + b + 1) mod DIGEST_BOUND) 7 l)
|}.
Lemma rolling_crate_laws : @BitcoinCrateLaws rolling_crate.
Proof. split; intros l; cbn [sha256 rolling_crate]; [by rewrite length_be_bytes|apply be_bytes_range]. Qed.

Section Witness.
#[local] Existing Instance rolling_crate.

Definition demo_identity (h : u32) : ConsensusSnapshotIdentity :=
  {| cs_source_chain := CONSENSUS_SOURCE_CHAIN_BTC; cs_network := "regtest"; cs_stable_height := h;
     cs_stable_block_hash := "00ab"; cs_stable_lag := 0; cs_balance_history_api_version := "1.0.0";
     cs_balance_history_semantics_version := "balance-snapshot-at-or-before:v1";
     cs_usdb_index_formula_version := USDB_INDEX_FORMULA_VERSION;
     cs_usdb_index_protocol_version := USDB_INDEX_PROTOCOL_VERSION |}.
Definition demo_local : LocalStateCommitIdentity :=
  {| lc_upstream_snapshot_id := "00ab"; lc_local_synced_block_height := 7;
     lc_latest_pass_block_commit := Some {| lp_block_height := 6; lp_block_commit := "00";
       lp_commit_protocol_version := "1.0.0"; lp_commit_hash_algo := "sha256" |};
     lc_latest_active_balance_snapshot := None;
     lc_usdb_index_protocol_version := USDB_INDEX_PROTOCOL_VERSION |}.
Lemma demo_identity_wf h : is_height h → wf_snapshot_identity (demo_identity h).
Proof. intros Hh. split; [split; [done|by vm_compute]|]. repeat constructor; by vm_compute. Qed.
Lemma demo_local_wf : wf_local_identity demo_local.
Proof.
  split; [by vm_compute|split; by vm_compute| |done]. intros c [= <-].
  split; [by vm_compute|]. repeat constructor; by vm_compute.
Qed.

(** A check of [tells_apart]. *)
Definition distinct_digests `{BitcoinCrate} (inputs : list (list Z)) : bool :=
  let hashed := (λ x, (x, sha256 x)) <$> inputs in
  forallb (λ p, forallb (λ q, negb (bool_decide (p.2 = q.2)) || bool_decide (p.1 = q.1)) hashed) hashed.
Lemma distinct_digests_sound `{BitcoinCrate} inputs : distinct_digests inputs = true → tells_apart inputs.
Proof.
  intros E x y Hx Hy Exy. unfold distinct_digests in E.
  assert (∀ z, z ∈ inputs → (z, sha256 z) ∈ ((λ x, (x, sha256 x)) <$> inputs)) as Hin
    by (intros z Hz; apply list_elem_of_fmap; by exists z).
  pose proof (forallb_elem _ _ _ (forallb_elem _ _ _ E (Hin x Hx)) (Hin y Hy)) as Hd. cbn in Hd.
  rewrite (bool_decide_true _ Exy) in Hd. by apply bool_decide_eq_true in Hd.
Qed.

(** Heights 7 and 8 of one chain: the state of height 7 has one id, and that of height 8 another. *)
Lemma system_state_id_binds_witness :
  (demo_identity 7 = demo_identity 7 ∧ demo_local = demo_local)
  ∧ state_id (demo_identity 7) demo_local ≠ state_id (demo_identity 8) demo_local.
Proof.
  assert (tells_apart (state_inputs (demo_identity 7) demo_local ++ state_inputs (demo_identity 8) demo_local)
    ∧ tells_apart (state_inputs (demo_identity 7) demo_local ++ state_inputs (demo_identity 7) demo_local)) as [D1 D2]
    by (split; apply distinct_digests_sound; by vm_compute).
  pose proof (demo_identity_wf 7 ltac:(done)) as W7. pose proof (demo_identity_wf 8 ltac:(done)) as W8.
  split.
  - exact (system_state_id_binds (BL := rolling_crate_laws) (demo_identity 7) demo_local (demo_identity 7) demo_local
      W7 W7 demo_local_wf demo_local_wf D2 eq_refl).
  - intros E. destruct (system_state_id_binds (BL := rolling_crate_laws) (demo_identity 7) demo_local (demo_identity 8)
      demo_local W7 W8 demo_local_wf demo_local_wf D1 E) as [E' _].
    clear E. discriminate E'.
Defined.
End Witness.
