(* ===== verification/BalanceService.v ===== *)
(** * The balance-history query service: data

    [balance-history/src/service/rpc.rs], [service/state_ref.rs], [status.rs],
    [snapshot_provenance.rs] and the consensus types of [usdb-util/src/types.rs]: requests, replies,
    error codes, and the state that a request sees.

    The service answers while the indexer works on the same database and status.  A request is
    therefore not answered from one state: each of its accesses to the database or to the status
    cells sees what is there at that moment ([Moment]), and the indexer may have written any number
    of batches between two accesses. *)

From S2P Require Import Prelude Encoding Types Tx BalanceCodec BalanceDb BalanceBlock BalanceIndexer.
From S2P Require Import StateIds.

(** ** Status *)

Inductive SyncPhase := Initializing | Loading | Indexing | Synced.
#[export] Instance SyncPhase_eq_dec : EqDecision SyncPhase.
Proof. solve_decision. Defined.
Record SyncStatus := { ph_phase : SyncPhase; ph_current : u64; ph_total : u64; ph_message : option string }.
Record RuntimeReadinessStatus := {
  rt_rpc_alive : bool;
  rt_rollback_in_progress : bool;
  rt_shutdown_requested : bool
}.
(** [SyncStatusManager]; its mutexes are the accesses of [Moment]. *)
Record SyncStatusManager := { status : SyncStatus; runtime_readiness : RuntimeReadinessStatus }.
Definition new_status : SyncStatusManager :=
  {| status := {| ph_phase := Initializing; ph_current := 0; ph_total := 0; ph_message := None |};
     runtime_readiness := {| rt_rpc_alive := false; rt_rollback_in_progress := false;
                             rt_shutdown_requested := false |} |}.

Definition on_status (f : SyncStatus → SyncStatus) (m : SyncStatusManager) : SyncStatusManager :=
  {| status := f (status m); runtime_readiness := runtime_readiness m |}.
Definition keep_message (msg old : option string) : option string :=
  match msg with Some _ => msg | None => old end.
Definition update_phase (phase : SyncPhase) (msg : option string) : SyncStatusManager → SyncStatusManager :=
  on_status (λ s, {| ph_phase := phase; ph_current := ph_current s; ph_total := ph_total s;
                     ph_message := keep_message msg (ph_message s) |}).
Definition update_total (total : u64) (msg : option string) : SyncStatusManager → SyncStatusManager :=
  on_status (λ s, {| ph_phase := ph_phase s; ph_current := ph_current s; ph_total := total;
                     ph_message := keep_message msg (ph_message s) |}).
Definition update_current (current : u64) (msg : option string) : SyncStatusManager → SyncStatusManager :=
  on_status (λ s, {| ph_phase := ph_phase s; ph_current := current; ph_total := ph_total s;
                     ph_message := keep_message msg (ph_message s) |}).
Definition update_message (message : option string) : SyncStatusManager → SyncStatusManager :=
  on_status (λ s, {| ph_phase := ph_phase s; ph_current := ph_current s; ph_total := ph_total s;
                     ph_message := message |}).
Definition update_status (current total : u64) (message : option string) : SyncStatusManager → SyncStatusManager :=
  on_status (λ s, {| ph_phase := ph_phase s; ph_current := current; ph_total := total; ph_message := message |}).
Definition on_runtime (f : RuntimeReadinessStatus → RuntimeReadinessStatus) (m : SyncStatusManager) :
    SyncStatusManager :=
  {| status := status m; runtime_readiness := f (runtime_readiness m) |}.
Definition set_rpc_alive (b : bool) : SyncStatusManager → SyncStatusManager :=
  on_runtime (λ r, {| rt_rpc_alive := b; rt_rollback_in_progress := rt_rollback_in_progress r;
                      rt_shutdown_requested := rt_shutdown_requested r |}).
Definition status_set_rollback_in_progress (b : bool) : SyncStatusManager → SyncStatusManager :=
  on_runtime (λ r, {| rt_rpc_alive := rt_rpc_alive r; rt_rollback_in_progress := b;
                      rt_shutdown_requested := rt_shutdown_requested r |}).
Definition set_shutdown_requested (b : bool) : SyncStatusManager → SyncStatusManager :=
  on_runtime (λ r, {| rt_rpc_alive := rt_rpc_alive r;
                      rt_rollback_in_progress := rt_rollback_in_progress r;
                      rt_shutdown_requested := b |}).

(** ** Snapshot provenance *)

Inductive SnapshotInstallOrigin := SnapshotInstall.
Inductive SnapshotVerificationState := ManifestMissing | ManifestVerified | SignatureVerified.
Inductive SnapshotTrustMode := Dev | Manifest | Signed.
Record SnapshotInstallProvenance := {
  pv_origin : SnapshotInstallOrigin;
  pv_trust_mode : SnapshotTrustMode;
  pv_verification_state : SnapshotVerificationState;
  pv_manifest_present : bool;
  pv_manifest_verified : bool;
  pv_signature_present : bool;
  pv_signature_verified : bool;
  pv_manifest_version : option string;
  pv_signature_scheme : option string;
  pv_signing_key_id : option string;
  pv_snapshot_file_sha256 : option string;
  pv_snapshot_id : option string;
  pv_installed_block_height : u32
}.
Definition is_consensus_verified (p : SnapshotInstallProvenance) : bool :=
  match pv_verification_state p with
  | ManifestVerified | SignatureVerified => true
  | ManifestMissing => false
  end.
Definition legacy_manifest_verified (p : SnapshotInstallProvenance) : bool := pv_manifest_verified p.

(** ** Error codes and consensus references *)

Inductive ConsensusRpcErrorCode :=
  | HeightNotSynced | SnapshotNotReady | SnapshotIdMismatch | BlockHashMismatch | VersionMismatch
  | LocalStateCommitMismatch | SystemStateIdMismatch | NoRecord | StateNotRetained
  | HistoryNotAvailable.
Definition error_code (c : ConsensusRpcErrorCode) : i64 :=
  match c with
  | HeightNotSynced => -32040
  | SnapshotNotReady => -32041
  | SnapshotIdMismatch => -32042
  | BlockHashMismatch => -32043
  | VersionMismatch => -32044
  | LocalStateCommitMismatch => -32045
  | SystemStateIdMismatch => -32046
  | NoRecord => -32047
  | StateNotRetained => -32048
  | HistoryNotAvailable => -32049
  end.
Definition error_name (c : ConsensusRpcErrorCode) : string :=
  match c with
  | HeightNotSynced => "HEIGHT_NOT_SYNCED"
  | SnapshotNotReady => "SNAPSHOT_NOT_READY"
  | SnapshotIdMismatch => "SNAPSHOT_ID_MISMATCH"
  | BlockHashMismatch => "BLOCK_HASH_MISMATCH"
  | VersionMismatch => "VERSION_MISMATCH"
  | LocalStateCommitMismatch => "LOCAL_STATE_COMMIT_MISMATCH"
  | SystemStateIdMismatch => "SYSTEM_STATE_ID_MISMATCH"
  | NoRecord => "NO_RECORD"
  | StateNotRetained => "STATE_NOT_RETAINED"
  | HistoryNotAvailable => "HISTORY_NOT_AVAILABLE"
  end.

Record ConsensusStateReference := {
  rf_snapshot_id : option string;
  rf_stable_height : option u32;
  rf_stable_block_hash : option string;
  rf_balance_history_api_version : option string;
  rf_balance_history_semantics_version : option string;
  rf_usdb_index_protocol_version : option string;
  rf_local_state_commit : option string;
  rf_system_state_id : option string
}.
Definition default_reference : ConsensusStateReference :=
  {| rf_snapshot_id := None; rf_stable_height := None; rf_stable_block_hash := None;
     rf_balance_history_api_version := None; rf_balance_history_semantics_version := None;
     rf_usdb_index_protocol_version := None; rf_local_state_commit := None; rf_system_state_id := None |}.
Definition is_none {A} (o : option A) : bool := match o with None => true | Some _ => false end.
Definition is_empty (r : ConsensusStateReference) : bool :=
  is_none (rf_snapshot_id r) && is_none (rf_stable_height r) && is_none (rf_stable_block_hash r)
  && is_none (rf_balance_history_api_version r) && is_none (rf_balance_history_semantics_version r)
  && is_none (rf_usdb_index_protocol_version r) && is_none (rf_local_state_commit r)
  && is_none (rf_system_state_id r).
Record ConsensusQueryContext := {
  cx_requested_height : option u32;
  cx_expected_state : ConsensusStateReference
}.
Record ConsensusRpcErrorData := {
  er_service : string;
  er_requested_height : option u32;
  er_local_synced_height : option u32;
  er_upstream_stable_height : option u32;
  er_consensus_ready : option bool;
  er_expected_state : ConsensusStateReference;
  er_actual_state : ConsensusStateReference;
  er_detail : option string
}.
Inductive JsonError :=
  | InternalError (message : string)
  | InvalidParams (message : string)
  | ServerError (code : ConsensusRpcErrorCode) (data : ConsensusRpcErrorData).

(** ** Requests and replies *)

Definition BALANCE_HISTORY_SERVICE_NAME : string := "balance-history".
Definition BALANCE_HISTORY_API_VERSION : string := "1.0.0".
Definition BALANCE_HISTORY_SEMANTICS_VERSION : string := "balance-snapshot-at-or-before:v1".
Definition COMMIT_PROTOCOL_VERSION : string := "1.0.0".
Definition COMMIT_HASH_ALGO : string := "sha256".
Definition CONSENSUS_SNAPSHOT_ID_HASH_ALGO : string := "sha256".
Definition MAX_ADDRESS_AGGREGATE_BUCKETS : u64 := 2000.
Definition MAX_SCRIPT_RESOLUTION_ITEMS : Z := 1000.
Definition SCRIPT_REGISTRY_POLICY : string := "auxiliary_seen_scripts_non_consensus_v1".

(** [Range<u32>] *)
Record BlockRange := { range_first : u32; range_last : u32 }.
Definition range_is_empty (r : BlockRange) : bool := range_last r <=? range_first r.

Record GetBalanceParams := {
  gb_script_hash : USDBScriptHash;
  gb_block_height : option u32;
  gb_block_range : option BlockRange
}.
Record GetBalancesParams := {
  gs_script_hashes : list USDBScriptHash;
  gs_block_height : option u32;
  gs_block_range : option BlockRange
}.
Record GetAddressBalanceSummaryParams := {
  gm_script_hash : USDBScriptHash;
  gm_block_range : BlockRange
}.
Record GetAddressBalanceBucketsParams := {
  bk_script_hash : USDBScriptHash;
  bk_block_range : BlockRange;
  bk_bucket_size : u32
}.
Record AddressBalanceSummary := {
  sm_range_start : u32;
  sm_range_end : u32;
  sm_start_balance : u64;
  sm_end_balance : u64;
  sm_change_count : u64;
  sm_total_inflow : u64;
  sm_total_outflow : u64;
  sm_net_delta : i64;
  sm_first_movement_height : option u32;
  sm_latest_movement_height : option u32;
  sm_peak_balance : u64;
  sm_peak_height : u32;
  sm_low_balance : u64;
  sm_low_height : u32
}.
Record AddressBalanceTimeseriesPoint := {
  tp_bucket_start : u32;
  tp_bucket_end : u32;
  tp_balance : u64;
  tp_net_delta : i64;
  tp_change_count : u64;
  tp_latest_movement_height : option u32
}.
Record AddressFlowBucket := {
  fb_bucket_start : u32;
  fb_bucket_end : u32;
  fb_inflow : u64;
  fb_outflow : u64;
  fb_net_delta : i64;
  fb_change_count : u64
}.
Record SnapshotInfo := {
  si_stable_height : u32;
  si_stable_block_hash : option string;
  si_latest_block_commit : option string;
  si_stable_lag : u32;
  si_balance_history_api_version : string;
  si_balance_history_semantics_version : string;
  si_commit_protocol_version : string;
  si_commit_hash_algo : string
}.
Record HistoricalSnapshotStateRef := {
  hs_block_height : u32;
  hs_stable_block_hash : string;
  hs_latest_block_commit : string;
  hs_consensus_identity : ConsensusSnapshotIdentity;
  hs_snapshot_id : string;
  hs_snapshot_id_hash_algo : string;
  hs_snapshot_id_version : string;
  hs_commit_protocol_version : string;
  hs_commit_hash_algo : string
}.
Record GetStateRefAtHeightParams := {
  gr_block_height : u32;
  gr_context : option ConsensusQueryContext
}.
Inductive ReadinessBlocker :=
  | RpcNotListening | BlockerInitializing | BlockerLoading | CatchingUp | RollbackInProgress
  | ShutdownRequested | StableBlockHashMissing | LatestBlockCommitMissing | SnapshotInstallUnverified.
Record ScriptRegistryStatus := { rg_available : bool; rg_count : option u64; rg_policy : string }.
Record ReadinessInfo := {
  rd_service : string;
  rd_rpc_alive : bool;
  rd_query_ready : bool;
  rd_consensus_ready : bool;
  rd_phase : SyncPhase;
  rd_current : u64;
  rd_total : u64;
  rd_message : option string;
  rd_stable_height : option u32;
  rd_stable_block_hash : option string;
  rd_latest_block_commit : option string;
  rd_snapshot_origin : option SnapshotInstallOrigin;
  rd_snapshot_verification_state : option SnapshotVerificationState;
  rd_snapshot_signing_key_id : option string;
  rd_script_registry : ScriptRegistryStatus;
  rd_blockers : list ReadinessBlocker
}.
Record BlockCommitInfo := {
  ci_block_height : u32;
  ci_btc_block_hash : string;
  ci_balance_delta_root : string;
  ci_block_commit : string;
  ci_commit_protocol_version : string;
  ci_commit_hash_algo : string
}.
Record UtxoInfo := { ui_txid : string; ui_vout : u32; ui_script_hash : string; ui_value : u64 }.
Record ResolveScriptHashesParams := {
  rs_script_hashes : list USDBScriptHash;
  rs_include_script_pubkey : option bool
}.
Record ScriptHashResolution := {
  rv_script_hash : string;
  rv_found : bool;
  rv_script_pubkey : option string;
  rv_address : option string;
  rv_address_type : option string;
  rv_standard : bool
}.
Record ScriptHashResolutionResponse := { rr_network : string; rr_items : list ScriptHashResolution }.

(** ** What a request sees *)

(** [mo_provenance] is the provenance entry of the meta column family, parsed, and [mo_registry_count]
    the number of keys that RocksDB estimates for the script registry. *)
Record Moment := {
  mo_db : BalanceHistoryDB;
  mo_provenance : option SnapshotInstallProvenance;
  mo_registry_count : result u64;
  mo_manager : SyncStatusManager
}.
(** The moments of the accesses of a request, and the number of the next access. *)
Record View := { now : nat; moments : nat → Moment }.
Definition moment (v : View) : Moment := moments v (now v).
Definition later (v : View) : View := {| now := S (now v); moments := moments v |}.

(** One access to the status or the database, and one call of a reading operation of the database. *)
Definition observe {A} (f : Moment → A) : M View A := λ v, (Ok (f (moment v)), later v).
Definition query {A} (m : M Disk A) : M View A :=
  λ v, ((m {| db := mo_db (moment v); writes_left := None |}).1, later v).

(** ** JSON results

    [JsonResult]: a value or a [JsonError], which the handlers propagate with [?].  The errors of the
    [result] underneath are the texts of the database layer, until they are wrapped. *)

Definition Json (A : Type) : Type := M View (JsonError + A).
Definition jret {A} (a : A) : Json A := ret (inr a).
Definition jerr {A} (e : JsonError) : Json A := ret (inl e).
Definition jbind {A B} (m : Json A) (f : A → Json B) : Json B :=
  let! r := m in match r with inl e => ret (inl e) | inr a => f a end.
Notation "'let^' x := m 'in' k" := (jbind m (λ x, k))
  (at level 10, x pattern, m at level 100, k at level 200) : usdb_scope.
(** [.map_err(to_internal_error)?] *)
Definition internal {A} (msg : string) (m : M View A) : Json A :=
  let! r := try m in match r with inl a => jret a | inr _ => jerr (InternalError msg) end.
(** [params.iter().map(..).collect()]: all replies in order, or an error of one. *)
Fixpoint json_collect {A B} (f : A → Json B) (l : list A) : Json (list B) :=
  match l with
  | [] => jret []
  | x :: l => let^ y := f x in let^ ys := json_collect f l in jret (y :: ys)
  end.
