(* ===== verification/BalanceServer.v ===== *)
(** * The balance-history query service: handlers

    [balance-history/src/service/server.rs], [BalanceHistoryRpcServer], and
    [build_historical_state_ref_at_height] of [service/state_ref.rs].  Opening and closing the HTTP
    listener is not modelled.  The texts of errors are kept without the values that are printed into
    them. *)

From S2P Require Import Prelude Encoding Types Tx BalanceCodec BalanceDb BalanceBlock BalanceIndexer.
From S2P Require Import StateIds BalanceService.

(** The script predicates and addresses of the bitcoin crate. *)
Class ScriptCrate := {
  is_p2tr : ScriptBuf → bool;
  is_p2wpkh : ScriptBuf → bool;
  is_p2wsh : ScriptBuf → bool;
  is_p2sh : ScriptBuf → bool;
  is_p2pkh : ScriptBuf → bool;
  address_from_script : ScriptBuf → option string
}.

(** [{:x}] of the hash of a block or a transaction prints its bytes from the last to the first,
    that of a script hash in order. *)
Definition reversed_hex (h : Z) : string := encode_hex (rev (be_bytes 32 h)).
Definition script_hash_hex (h : USDBScriptHash) : string := encode_hex (be_bytes 32 h).

Definition address_balance (b : BalanceHistoryData) : AddressBalance :=
  {| ab_block_height := bd_block_height b; ab_balance := bd_balance b; ab_delta := bd_delta b |}.

Section Server.
Context `{BitcoinCrate} `{ScriptCrate} (network : string).

(** ** Snapshots and state references *)

Definition build_snapshot_info : M View SnapshotInfo :=
  let! stable_height := query get_btc_block_height in
  let! latest_commit := query (get_block_commit stable_height) in
  ret {| si_stable_height := stable_height;
         si_stable_block_hash := (λ entry, reversed_hex (cm_btc_block_hash entry)) <$> latest_commit;
         si_latest_block_commit := (λ entry, encode_hex (cm_block_commit entry)) <$> latest_commit;
         si_stable_lag := BALANCE_HISTORY_STABLE_LAG;
         si_balance_history_api_version := BALANCE_HISTORY_API_VERSION;
         si_balance_history_semantics_version := BALANCE_HISTORY_SEMANTICS_VERSION;
         si_commit_protocol_version := COMMIT_PROTOCOL_VERSION;
         si_commit_hash_algo := COMMIT_HASH_ALGO |}.

Definition build_consensus_snapshot_identity (stable_height : u32) (stable_block_hash : string) :
    ConsensusSnapshotIdentity :=
  {| cs_source_chain := CONSENSUS_SOURCE_CHAIN_BTC; cs_network := network;
     cs_stable_height := stable_height; cs_stable_block_hash := stable_block_hash;
     cs_stable_lag := BALANCE_HISTORY_STABLE_LAG;
     cs_balance_history_api_version := BALANCE_HISTORY_API_VERSION;
     cs_balance_history_semantics_version := BALANCE_HISTORY_SEMANTICS_VERSION;
     cs_usdb_index_formula_version := USDB_INDEX_FORMULA_VERSION;
     cs_usdb_index_protocol_version := USDB_INDEX_PROTOCOL_VERSION |}.

Definition state_ref_of (block_height : u32) (commit : BlockCommitEntry) : HistoricalSnapshotStateRef :=
  let stable_block_hash := reversed_hex (cm_btc_block_hash commit) in
  let consensus_identity := build_consensus_snapshot_identity block_height stable_block_hash in
  {| hs_block_height := block_height; hs_stable_block_hash := stable_block_hash;
     hs_latest_block_commit := encode_hex (cm_block_commit commit);
     hs_consensus_identity := consensus_identity;
     hs_snapshot_id := build_consensus_snapshot_id consensus_identity;
     hs_snapshot_id_hash_algo := CONSENSUS_SNAPSHOT_ID_HASH_ALGO;
     hs_snapshot_id_version := CONSENSUS_SNAPSHOT_ID_VERSION;
     hs_commit_protocol_version := COMMIT_PROTOCOL_VERSION;
     hs_commit_hash_algo := COMMIT_HASH_ALGO |}.
Definition build_historical_state_ref_at_height (block_height : u32) :
    M View (option HistoricalSnapshotStateRef) :=
  let! commit := query (get_block_commit block_height) in
  ret (state_ref_of block_height <$> commit).

(** [From<SnapshotStateReferenceSeed> for ConsensusStateReference] *)
Definition reference_of_snapshot (snapshot : SnapshotInfo) : ConsensusStateReference :=
  {| rf_snapshot_id := (λ stable_block_hash, build_consensus_snapshot_id
       {| cs_source_chain := CONSENSUS_SOURCE_CHAIN_BTC; cs_network := network;
          cs_stable_height := si_stable_height snapshot; cs_stable_block_hash := stable_block_hash;
          cs_stable_lag := si_stable_lag snapshot;
          cs_balance_history_api_version := si_balance_history_api_version snapshot;
          cs_balance_history_semantics_version := si_balance_history_semantics_version snapshot;
          cs_usdb_index_formula_version := USDB_INDEX_FORMULA_VERSION;
          cs_usdb_index_protocol_version := USDB_INDEX_PROTOCOL_VERSION |})
       <$> si_stable_block_hash snapshot;
     rf_stable_height := Some (si_stable_height snapshot);
     rf_stable_block_hash := si_stable_block_hash snapshot;
     rf_balance_history_api_version := Some (si_balance_history_api_version snapshot);
     rf_balance_history_semantics_version := Some (si_balance_history_semantics_version snapshot);
     rf_usdb_index_protocol_version := Some USDB_INDEX_PROTOCOL_VERSION;
     rf_local_state_commit := None; rf_system_state_id := None |}.
(** [From<&HistoricalSnapshotStateRef> for ConsensusStateReference] *)
Definition reference_of_state_ref (r : HistoricalSnapshotStateRef) : ConsensusStateReference :=
  {| rf_snapshot_id := Some (hs_snapshot_id r); rf_stable_height := Some (hs_block_height r);
     rf_stable_block_hash := Some (hs_stable_block_hash r);
     rf_balance_history_api_version := Some (cs_balance_history_api_version (hs_consensus_identity r));
     rf_balance_history_semantics_version :=
       Some (cs_balance_history_semantics_version (hs_consensus_identity r));
     rf_usdb_index_protocol_version := Some (cs_usdb_index_protocol_version (hs_consensus_identity r));
     rf_local_state_commit := None; rf_system_state_id := None |}.
Definition build_consensus_state_reference (snapshot : option SnapshotInfo) : ConsensusStateReference :=
  match snapshot with None => default_reference | Some snapshot => reference_of_snapshot snapshot end.

(** ** Readiness *)

Definition script_registry_status : M View ScriptRegistryStatus :=
  let! count := observe mo_registry_count in
  match count with
  | Ok count => ret {| rg_available := true; rg_count := Some count; rg_policy := SCRIPT_REGISTRY_POLICY |}
  | _ => ret {| rg_available := false; rg_count := None; rg_policy := SCRIPT_REGISTRY_POLICY |}
  end.

Definition META_KEY_SNAPSHOT_INSTALL_USED : string := "snapshot_install_used".
Definition META_KEY_SNAPSHOT_INSTALL_MANIFEST_VERIFIED : string := "snapshot_install_manifest_verified".
Definition get_snapshot_install_provenance : M View (option SnapshotInstallProvenance) :=
  observe mo_provenance.
Definition get_snapshot_install_used : M View bool :=
  let! provenance := get_snapshot_install_provenance in
  match provenance with
  | Some _ => ret true
  | None =>
      let! used := query (get_u32_meta META_KEY_SNAPSHOT_INSTALL_USED) in
      ret (bool_decide (used = Some 1))
  end.
Definition get_snapshot_install_manifest_verified : M View (option bool) :=
  let! provenance := get_snapshot_install_provenance in
  match provenance with
  | Some provenance => ret (Some (legacy_manifest_verified provenance))
  | None =>
      let! verified := query (get_u32_meta META_KEY_SNAPSHOT_INSTALL_MANIFEST_VERIFIED) in
      match verified with
      | Some v => if v =? 0 then ret (Some false) else if v =? 1 then ret (Some true)
                  else fail "Invalid snapshot install manifest verification meta value"
      | None => ret None
      end
  end.

Definition when {A} (b : bool) (x : A) : list A := if b then [x] else [].
Definition phase_blockers (phase : SyncPhase) : list ReadinessBlocker :=
  match phase with
  | Initializing => [BlockerInitializing]
  | Loading => [BlockerLoading]
  | Indexing | Synced => []
  end.
Definition readiness_info : M View ReadinessInfo :=
  let! sync_status := observe (λ m, status (mo_manager m)) in
  let! runtime := observe (λ m, runtime_readiness (mo_manager m)) in
  let! stable_height := query get_btc_block_height in
  let! latest_commit := query (get_block_commit stable_height) in
  let! script_registry := script_registry_status in
  let! snapshot_provenance := get_snapshot_install_provenance in
  let! snapshot_install_used :=
    match snapshot_provenance with Some _ => ret true | None => get_snapshot_install_used end in
  let! snapshot_install_manifest_verified :=
    match snapshot_provenance with
    | Some provenance => ret (Some (legacy_manifest_verified provenance))
    | None => get_snapshot_install_manifest_verified
    end in
  let stable_block_hash := (λ entry, reversed_hex (cm_btc_block_hash entry)) <$> latest_commit in
  let latest_block_commit := (λ entry, encode_hex (cm_block_commit entry)) <$> latest_commit in
  let unverified := snapshot_install_used && bool_decide (snapshot_install_manifest_verified = Some false) in
  let blockers :=
    when (negb (rt_rpc_alive runtime)) RpcNotListening
    ++ phase_blockers (ph_phase sync_status)
    ++ when (rt_rollback_in_progress runtime) RollbackInProgress
    ++ when (rt_shutdown_requested runtime) ShutdownRequested
    ++ when (bool_decide (ph_phase sync_status = Indexing) && (ph_total sync_status >? 0)
             && (ph_current sync_status <? ph_total sync_status)) CatchingUp
    ++ when (is_none stable_block_hash) StableBlockHashMissing
    ++ when (is_none latest_block_commit) LatestBlockCommitMissing
    ++ when unverified SnapshotInstallUnverified in
  let query_ready :=
    rt_rpc_alive runtime && negb (rt_rollback_in_progress runtime)
    && negb (rt_shutdown_requested runtime)
    && negb (match ph_phase sync_status with Initializing | Loading => true | _ => false end) in
  let consensus_ready :=
    query_ready && (ph_current sync_status >=? ph_total sync_status)
    && negb (is_none stable_block_hash) && negb (is_none latest_block_commit) && negb unverified in
  ret {| rd_service := BALANCE_HISTORY_SERVICE_NAME; rd_rpc_alive := rt_rpc_alive runtime;
         rd_query_ready := query_ready; rd_consensus_ready := consensus_ready;
         rd_phase := ph_phase sync_status; rd_current := ph_current sync_status;
         rd_total := ph_total sync_status; rd_message := ph_message sync_status;
         rd_stable_height := Some stable_height; rd_stable_block_hash := stable_block_hash;
         rd_latest_block_commit := latest_block_commit;
         rd_snapshot_origin := pv_origin <$> snapshot_provenance;
         rd_snapshot_verification_state := pv_verification_state <$> snapshot_provenance;
         rd_snapshot_signing_key_id := snapshot_provenance ≫= pv_signing_key_id;
         rd_script_registry := script_registry; rd_blockers := blockers |}.

(** ** Consensus errors *)

Definition build_consensus_error_data_for_state (requested_height : option u32)
    (expected_state actual_state : ConsensusStateReference) (detail : option string) :
    M View ConsensusRpcErrorData :=
  let! readiness := try readiness_info in
  ret {| er_service := BALANCE_HISTORY_SERVICE_NAME; er_requested_height := requested_height;
         er_local_synced_height := None; er_upstream_stable_height := rf_stable_height actual_state;
         er_consensus_ready := match readiness with inl r => Some (rd_consensus_ready r) | inr _ => None end;
         er_expected_state := expected_state; er_actual_state := actual_state; er_detail := detail |}.
Definition build_consensus_error_data (requested_height : option u32) (snapshot : option SnapshotInfo)
    (detail : option string) : M View ConsensusRpcErrorData :=
  build_consensus_error_data_for_state requested_height default_reference
    (build_consensus_state_reference snapshot) detail.
Definition consensus_error {A} (code : ConsensusRpcErrorCode) (data : M View ConsensusRpcErrorData) :
    Json A :=
  let! data := data in jerr (ServerError code data).

(** ** Validation *)

Definition resolve_queryable_snapshot : Json SnapshotInfo :=
  let^ snapshot := internal "Failed to read the snapshot" build_snapshot_info in
  if is_none (si_stable_block_hash snapshot) || is_none (si_latest_block_commit snapshot)
  then consensus_error SnapshotNotReady
         (build_consensus_error_data None (Some snapshot)
            (Some "Current stable snapshot is incomplete: missing stable block hash or latest block commit"))
  else jret snapshot.

Definition validate_requested_height (requested_height : u32) : Json SnapshotInfo :=
  let^ snapshot := resolve_queryable_snapshot in
  if requested_height >? si_stable_height snapshot
  then consensus_error HeightNotSynced
         (build_consensus_error_data (Some requested_height) (Some snapshot)
            (Some "Requested height is above current stable height"))
  else jret snapshot.

Definition validate_requested_range (range : BlockRange) : Json SnapshotInfo :=
  let^ snapshot := resolve_queryable_snapshot in
  if negb (range_is_empty range)
     && (u32_saturating_sub (range_last range) 1 >? si_stable_height snapshot)
  then consensus_error HeightNotSynced
         (build_consensus_error_data (Some (u32_saturating_sub (range_last range) 1)) (Some snapshot)
            (Some "Requested range exceeds current stable height"))
  else jret snapshot.

Definition validate_aggregate_range (range : BlockRange) : Json SnapshotInfo :=
  if range_is_empty range then jerr (InvalidParams "Block range must be non-empty")
  else validate_requested_range range.

Definition validate_bucket_params (range : BlockRange) (bucket_size : u32) : Json u64 :=
  if bucket_size =? 0 then jerr (InvalidParams "bucket_size must be greater than 0")
  else
    let span := u32_sub (range_last range) (range_first range) in
    let bucket_count := (span + bucket_size - 1) / bucket_size in
    if bucket_count >? MAX_ADDRESS_AGGREGATE_BUCKETS
    then jerr (InvalidParams "Bucket count exceeds maximum; increase bucket_size or narrow block_range")
    else jret bucket_count.

Definition validate_script_resolution_params (params : ResolveScriptHashesParams) : Json unit :=
  if count (rs_script_hashes params) >? MAX_SCRIPT_RESOLUTION_ITEMS
  then jerr (InvalidParams "script_hashes length exceeds maximum") else jret tt.

Definition validate_consensus_query_context (block_height : u32) (context : option ConsensusQueryContext) :
    Json ConsensusStateReference :=
  match context with
  | None => jret default_reference
  | Some context =>
      if (match cx_requested_height context with
          | Some requested_height => negb (requested_height =? block_height)
          | None => false
          end)
      then jerr (InvalidParams "ConsensusQueryContext.requested_height does not match block_height")
      else jret (cx_expected_state context)
  end.

(** One pinned selector against the value of the state reference. *)
Definition expect_equal {A} `{EqDecision A} (code : ConsensusRpcErrorCode) (block_height : u32)
    (expected_state actual_state : ConsensusStateReference) (detail : string) (expected : option A)
    (actual : A) : Json unit :=
  match expected with
  | Some expected =>
      if bool_decide (expected = actual) then jret tt
      else consensus_error code
             (build_consensus_error_data_for_state (Some block_height) expected_state actual_state
                (Some detail))
  | None => jret tt
  end.
Definition validate_historical_state_ref_expected_state (block_height : u32)
    (state_ref : HistoricalSnapshotStateRef) (expected_state : ConsensusStateReference) : Json unit :=
  if is_empty expected_state then jret tt
  else
    let actual_state := reference_of_state_ref state_ref in
    let identity := hs_consensus_identity state_ref in
    let^ _ := expect_equal SnapshotIdMismatch block_height expected_state actual_state
                "Expected historical snapshot_id" (rf_snapshot_id expected_state)
                (hs_snapshot_id state_ref) in
    let^ _ := expect_equal SnapshotIdMismatch block_height expected_state actual_state
                "Expected historical stable height" (rf_stable_height expected_state)
                (hs_block_height state_ref) in
    let^ _ := expect_equal BlockHashMismatch block_height expected_state actual_state
                "Expected historical stable block hash" (rf_stable_block_hash expected_state)
                (hs_stable_block_hash state_ref) in
    let^ _ := expect_equal VersionMismatch block_height expected_state actual_state
                "Expected balance-history API version" (rf_balance_history_api_version expected_state)
                (cs_balance_history_api_version identity) in
    let^ _ := expect_equal VersionMismatch block_height expected_state actual_state
                "Expected balance-history semantics version"
                (rf_balance_history_semantics_version expected_state)
                (cs_balance_history_semantics_version identity) in
    expect_equal VersionMismatch block_height expected_state actual_state
      "Expected usdb-index protocol version" (rf_usdb_index_protocol_version expected_state)
      (cs_usdb_index_protocol_version identity).

Definition build_state_ref_at_height (block_height : u32) : Json HistoricalSnapshotStateRef :=
  let^ _ := validate_requested_height block_height in
  let^ found := internal "Failed to get block commit while building state ref"
                  (build_historical_state_ref_at_height block_height) in
  match found with
  | Some state_ref => jret state_ref
  | None =>
      let! snapshot := try build_snapshot_info in
      consensus_error HistoryNotAvailable
        (build_consensus_error_data (Some block_height)
           (match snapshot with inl s => Some s | inr _ => None end)
           (Some "Missing block commit while building historical state ref"))
  end.

(** ** Rows *)

Definition get_balance_before_range (script_hash : USDBScriptHash) (range_start : u32) :
    Json BalanceHistoryData :=
  if range_start =? 0 then jret no_balance
  else internal "Failed to get range-start balance"
         (query (get_balance_at_block_height script_hash (u32_sub range_start 1))).
Definition get_balance_at_range_end (script_hash : USDBScriptHash) (range_end : u32) :
    Json BalanceHistoryData :=
  internal "Failed to get range-end balance"
    (query (get_balance_at_block_height script_hash (u32_sub range_end 1))).
Definition get_range_balance_rows (script_hash : USDBScriptHash) (range : BlockRange) :
    Json (list BalanceHistoryData) :=
  internal "Failed to get balance rows in block range"
    (query (get_balance_in_range script_hash (range_first range) (range_last range))).

(** ** Handlers *)

Definition get_network_type : Json string := jret network.
Definition get_block_height : Json u64 := internal "Failed to get block height" (query get_btc_block_height).
Definition get_sync_status : Json SyncStatus :=
  let! s := observe (λ m, status (mo_manager m)) in jret s.
Definition get_snapshot_info : Json SnapshotInfo := resolve_queryable_snapshot.
Definition get_readiness : Json ReadinessInfo := internal "Failed to build readiness info" readiness_info.
Definition get_snapshot_provenance : Json (option SnapshotInstallProvenance) :=
  internal "Failed to get snapshot provenance" get_snapshot_install_provenance.

Definition get_state_ref_at_height (params : GetStateRefAtHeightParams) : Json HistoricalSnapshotStateRef :=
  let^ expected_state := validate_consensus_query_context (gr_block_height params) (gr_context params) in
  let^ state_ref := build_state_ref_at_height (gr_block_height params) in
  let^ _ := validate_historical_state_ref_expected_state (gr_block_height params) state_ref expected_state in
  jret state_ref.

Definition get_block_commit_info (block_height : u32) : Json (option BlockCommitInfo) :=
  let^ commit := internal "Failed to get block commit" (query (get_block_commit block_height)) in
  jret ((λ entry, {| ci_block_height := cm_block_height entry;
                     ci_btc_block_hash := reversed_hex (cm_btc_block_hash entry);
                     ci_balance_delta_root := encode_hex (cm_balance_delta_root entry);
                     ci_block_commit := encode_hex (cm_block_commit entry);
                     ci_commit_protocol_version := COMMIT_PROTOCOL_VERSION;
                     ci_commit_hash_algo := COMMIT_HASH_ALGO |}) <$> commit).

Definition get_address_balance (params : GetBalanceParams) : Json (list AddressBalance) :=
  match gb_block_height params, gb_block_range params with
  | Some height, _ =>
      let^ _ := validate_requested_height height in
      let^ ret := internal "Failed to get balance at block height"
                    (query (get_balance_at_block_height (gb_script_hash params) height)) in
      jret [address_balance ret]
  | None, Some range =>
      if range_is_empty range then jret []
      else
        let^ _ := validate_requested_range range in
        let^ ret := internal "Failed to get balance in block range"
                      (query (get_balance_in_range (gb_script_hash params) (range_first range)
                                (range_last range))) in
        jret (address_balance <$> ret)
  | None, None =>
      let^ _ := resolve_queryable_snapshot in
      let^ ret := internal "Failed to get latest balance"
                    (query (get_latest_balance (gb_script_hash params))) in
      jret [address_balance ret]
  end.
Definition single_params (params : GetBalancesParams) (script_hash : USDBScriptHash) : GetBalanceParams :=
  {| gb_script_hash := script_hash; gb_block_height := gs_block_height params;
     gb_block_range := gs_block_range params |}.
Definition get_addresses_balances (params : GetBalancesParams) : Json (list (list AddressBalance)) :=
  json_collect (λ script_hash, get_address_balance (single_params params script_hash))
    (gs_script_hashes params).

Definition get_address_balance_delta (params : GetBalanceParams) : Json (list (option AddressBalance)) :=
  match gb_block_height params, gb_block_range params with
  | Some height, _ =>
      let^ ret := internal "Failed to get balance delta at block height"
                    (query (get_balance_delta_at_block_height (gb_script_hash params) height)) in
      jret [address_balance <$> ret]
  | None, Some range =>
      if range_is_empty range then jret []
      else
        let^ ret := internal "Failed to get balance in block range"
                      (query (get_balance_in_range (gb_script_hash params) (range_first range)
                                (range_last range))) in
        jret ((λ b, Some (address_balance b)) <$> ret)
  | None, None =>
      jerr (InvalidParams "Block height or block range must be specified to get balance delta")
  end.
Definition get_addresses_balances_delta (params : GetBalancesParams) :
    Json (list (list (option AddressBalance))) :=
  json_collect (λ script_hash, get_address_balance_delta (single_params params script_hash))
    (gs_script_hashes params).

(** ** Aggregates *)

(** What a row adds to an inflow and to an outflow. *)
Definition add_inflow (delta : i64) (inflow : u64) : u64 :=
  if 0 <=? delta then u64_add inflow (i64_as_u64 delta) else inflow.
Definition add_outflow (delta : i64) (outflow : u64) : u64 :=
  if 0 <=? delta then outflow else u64_add outflow (i64_as_u64 (i64_neg delta)).

Definition empty_summary (range : BlockRange) (start_balance end_balance : u64) : AddressBalanceSummary :=
  {| sm_range_start := range_first range; sm_range_end := range_last range;
     sm_start_balance := start_balance; sm_end_balance := end_balance; sm_change_count := 0;
     sm_total_inflow := 0; sm_total_outflow := 0; sm_net_delta := 0;
     sm_first_movement_height := None; sm_latest_movement_height := None;
     sm_peak_balance := start_balance; sm_peak_height := range_first range;
     sm_low_balance := start_balance; sm_low_height := range_first range |}.
Definition summary_row (s : AddressBalanceSummary) (row : BalanceHistoryData) : AddressBalanceSummary :=
  {| sm_range_start := sm_range_start s; sm_range_end := sm_range_end s;
     sm_start_balance := sm_start_balance s; sm_end_balance := sm_end_balance s;
     sm_change_count := u64_add (sm_change_count s) 1;
     sm_total_inflow := add_inflow (bd_delta row) (sm_total_inflow s);
     sm_total_outflow := add_outflow (bd_delta row) (sm_total_outflow s);
     sm_net_delta := i64_add (sm_net_delta s) (bd_delta row);
     sm_first_movement_height := Some (default (bd_block_height row) (sm_first_movement_height s));
     sm_latest_movement_height := Some (bd_block_height row);
     sm_peak_balance := if bd_balance row >? sm_peak_balance s then bd_balance row else sm_peak_balance s;
     sm_peak_height := if bd_balance row >? sm_peak_balance s then bd_block_height row else sm_peak_height s;
     sm_low_balance := if bd_balance row <? sm_low_balance s then bd_balance row else sm_low_balance s;
     sm_low_height := if bd_balance row <? sm_low_balance s then bd_block_height row else sm_low_height s |}.
Definition build_address_balance_summary (script_hash : USDBScriptHash) (range : BlockRange)
    (rows : list BalanceHistoryData) : Json AddressBalanceSummary :=
  let^ start := get_balance_before_range script_hash (range_first range) in
  let^ fin := get_balance_at_range_end script_hash (range_last range) in
  jret (foldl summary_row (empty_summary range (bd_balance start) (bd_balance fin)) rows).
Definition get_address_balance_summary (params : GetAddressBalanceSummaryParams) : Json AddressBalanceSummary :=
  let^ _ := validate_aggregate_range (gm_block_range params) in
  let^ rows := get_range_balance_rows (gm_script_hash params) (gm_block_range params) in
  build_address_balance_summary (gm_script_hash params) (gm_block_range params) rows.

(** [while row_index < rows.len() && rows[row_index].block_height < bucket_end]: the accumulator and
    the rows left. *)
Fixpoint take_rows {A} (step : A → BalanceHistoryData → A) (bucket_end : u32)
    (rows : list BalanceHistoryData) (acc : A) : A * list BalanceHistoryData :=
  match rows with
  | [] => (acc, [])
  | row :: rest => if bd_block_height row <? bucket_end then take_rows step bucket_end rest (step acc row)
                   else (acc, rows)
  end.
(** [while bucket_start < block_range.end]: [reset] starts a bucket, [emit] pushes it. *)
Fixpoint bucket_loop {A P} (fuel : nat) (reset : A → A) (step : A → BalanceHistoryData → A)
    (emit : u32 → u32 → A → P) (bucket_size range_end bucket_start : u32)
    (rows : list BalanceHistoryData) (acc : A) : list P :=
  match fuel with
  | O => []
  | S fuel =>
      if bucket_start <? range_end then
        let bucket_end := Z.min (u32_saturating_add bucket_start bucket_size) range_end in
        let (acc, rest) := take_rows step bucket_end rows (reset acc) in
        emit bucket_start bucket_end acc
        :: bucket_loop fuel reset step emit bucket_size range_end bucket_end rest acc
      else []
  end.
(** The number of blocks bounds the number of buckets. *)
Definition bucket_fuel (range : BlockRange) : nat := Z.to_nat (range_last range - range_first range).

Record SeriesAcc := {
  ta_current_balance : u64;
  ta_net_delta : i64;
  ta_change_count : u64;
  ta_latest_movement_height : option u32
}.
Definition series_reset (a : SeriesAcc) : SeriesAcc :=
  {| ta_current_balance := ta_current_balance a; ta_net_delta := 0; ta_change_count := 0;
     ta_latest_movement_height := None |}.
Definition series_row (a : SeriesAcc) (row : BalanceHistoryData) : SeriesAcc :=
  {| ta_current_balance := bd_balance row; ta_net_delta := i64_add (ta_net_delta a) (bd_delta row);
     ta_change_count := u64_add (ta_change_count a) 1;
     ta_latest_movement_height := Some (bd_block_height row) |}.
Definition series_point (bucket_start bucket_end : u32) (a : SeriesAcc) : AddressBalanceTimeseriesPoint :=
  {| tp_bucket_start := bucket_start; tp_bucket_end := bucket_end; tp_balance := ta_current_balance a;
     tp_net_delta := ta_net_delta a; tp_change_count := ta_change_count a;
     tp_latest_movement_height := ta_latest_movement_height a |}.
Definition get_address_balance_timeseries (params : GetAddressBalanceBucketsParams) :
    Json (list AddressBalanceTimeseriesPoint) :=
  let range := bk_block_range params in
  let^ _ := validate_aggregate_range range in
  let^ _ := validate_bucket_params range (bk_bucket_size params) in
  let^ rows := get_range_balance_rows (bk_script_hash params) range in
  let^ start_balance := get_balance_before_range (bk_script_hash params) (range_first range) in
  jret (bucket_loop (bucket_fuel range) series_reset series_row series_point (bk_bucket_size params)
          (range_last range) (range_first range) rows
          {| ta_current_balance := bd_balance start_balance; ta_net_delta := 0; ta_change_count := 0;
             ta_latest_movement_height := None |}).

Record FlowAcc := { fa_inflow : u64; fa_outflow : u64; fa_net_delta : i64; fa_change_count : u64 }.
Definition flow_zero : FlowAcc :=
  {| fa_inflow := 0; fa_outflow := 0; fa_net_delta := 0; fa_change_count := 0 |}.
Definition flow_row (a : FlowAcc) (row : BalanceHistoryData) : FlowAcc :=
  {| fa_inflow := add_inflow (bd_delta row) (fa_inflow a);
     fa_outflow := add_outflow (bd_delta row) (fa_outflow a);
     fa_net_delta := i64_add (fa_net_delta a) (bd_delta row);
     fa_change_count := u64_add (fa_change_count a) 1 |}.
Definition flow_bucket (bucket_start bucket_end : u32) (a : FlowAcc) : AddressFlowBucket :=
  {| fb_bucket_start := bucket_start; fb_bucket_end := bucket_end; fb_inflow := fa_inflow a;
     fb_outflow := fa_outflow a; fb_net_delta := fa_net_delta a; fb_change_count := fa_change_count a |}.
Definition get_address_flow_buckets (params : GetAddressBalanceBucketsParams) :
    Json (list AddressFlowBucket) :=
  let range := bk_block_range params in
  let^ _ := validate_aggregate_range range in
  let^ _ := validate_bucket_params range (bk_bucket_size params) in
  let^ rows := get_range_balance_rows (bk_script_hash params) range in
  jret (bucket_loop (bucket_fuel range) (λ _, flow_zero) flow_row flow_bucket (bk_bucket_size params)
          (range_last range) (range_first range) rows flow_zero).

(** ** Outputs and scripts *)

Definition get_live_utxo (o : OutPoint) : Json (option UtxoInfo) :=
  let^ utxo := internal "Failed to get utxo" (query (get_utxo o)) in
  jret ((λ entry, {| ui_txid := reversed_hex (op_txid o); ui_vout := vout o;
                     ui_script_hash := script_hash_hex (uv_script_hash entry);
                     ui_value := uv_value entry |}) <$> utxo).

Definition classify_script (script : ScriptBuf) : string :=
  if is_p2tr script then "p2tr"
  else if is_p2wpkh script then "p2wpkh"
  else if is_p2wsh script then "p2wsh"
  else if is_p2sh script then "p2sh"
  else if is_p2pkh script then "p2pkh"
  else if is_op_return script then "op_return"
  else "non_standard".
Definition resolution (include_script_pubkey : bool) (p : USDBScriptHash * option ScriptBuf) :
    ScriptHashResolution :=
  match p.2 with
  | None => {| rv_script_hash := script_hash_hex p.1; rv_found := false; rv_script_pubkey := None;
               rv_address := None; rv_address_type := None; rv_standard := false |}
  | Some script_pubkey =>
      let address := address_from_script script_pubkey in
      {| rv_script_hash := script_hash_hex p.1; rv_found := true;
         rv_script_pubkey := if include_script_pubkey then Some (encode_hex script_pubkey) else None;
         rv_address := address; rv_address_type := Some (classify_script script_pubkey);
         rv_standard := negb (is_none address) |}
  end.
Definition resolve_script_hashes (params : ResolveScriptHashesParams) : Json ScriptHashResolutionResponse :=
  let^ _ := validate_script_resolution_params params in
  let include_script_pubkey := default false (rs_include_script_pubkey params) in
  let^ entries := internal "Failed to resolve script hashes"
                    (query (get_script_registry_entries (rs_script_hashes params))) in
  jret {| rr_network := network;
          rr_items := resolution include_script_pubkey <$> zip (rs_script_hashes params) entries |}.
End Server.
