(* ===== verification/ServedRows.v ===== *)
(** * The rows a chain determines

    What the balance history of a chain says about one script hash, as a function of the chain alone:
    its rows in a range of heights and its latest row at or below a height; and that an indexed
    database holds exactly these. *)

From S2P Require Import Prelude Encoding Types Tx BalanceCodec BalanceDb BalanceDbFacts BalanceBlock.
From S2P Require Import BalanceChain.

(** ** Strictly sorted lists *)

Section Sorted.
Context {A} (R : A → A → Prop) (Hasym : ∀ x y, R x y → R y x → False).

(** Two of them with the same elements are equal. *)
Lemma strictly_sorted_unique l k :
  StronglySorted R l → StronglySorted R k → (∀ x, x ∈ l ↔ x ∈ k) → l = k.
Proof.
  intros Hl Hk Hin.
  assert (∀ m, StronglySorted R m → NoDup m) as Hnd.
  { induction 1 as [|x m Hm IH Hx]; constructor; [|done]. intros Hxm. rewrite Forall_forall in Hx.
    exact (Hasym x x (Hx x Hxm) (Hx x Hxm)). }
  apply (StronglySorted_unique_strong R); [|done..|].
  - intros x y _ _ H1 H2. destruct (Hasym x y H1 H2).
  - apply NoDup_Permutation; auto.
Qed.
(** The last element is the one above all others. *)
Lemma strictly_sorted_last l x :
  StronglySorted R l → x ∈ l → (∀ y, y ∈ l → y = x ∨ R y x) → last l = Some x.
Proof.
  intros Hl Hx Hmax. destruct l as [|z l _] using rev_ind; [by apply elem_of_nil in Hx|].
  rewrite last_snoc. f_equal. destruct (Hmax z) as [->|Hz]; [apply elem_of_app; right; by left|done|].
  apply elem_of_app in Hx as [Hx|Hx]; [|by apply list_elem_of_singleton in Hx].
  assert (R x z) as Hxz; [|destruct (Hasym _ _ Hz Hxz)].
  clear Hmax Hz. induction l as [|y l IH]; [by apply elem_of_nil in Hx|].
  apply StronglySorted_inv in Hl as [Hl Hy]. apply elem_of_cons in Hx as [->|Hx]; [|by apply IH].
  rewrite Forall_forall in Hy. apply Hy, elem_of_app. right. by left.
Qed.
End Sorted.

Lemma heights_sorted a b : StronglySorted Z.lt (heights a b).
Proof.
  destruct (decide (b < a)) as [|Hb]; [rewrite heights_nil by done; constructor|].
  replace b with (a + Z.of_nat (Z.to_nat (b - a))) by lia. generalize (Z.to_nat (b - a)). intros n. clear Hb.
  revert a. induction n as [|n IH]; intros a; rewrite heights_cons by lia.
  - rewrite heights_nil by lia. repeat constructor.
  - constructor.
    + replace (a + Z.of_nat (S n)) with (a + 1 + Z.of_nat n) by lia. apply IH.
    + apply Forall_forall. intros k Hk. apply elem_of_heights in Hk. lia.
Qed.

Section Served.
Context `{BitcoinCrate} {Laws : BitcoinCrateLaws} (chain : u32 → BtcBlock).

(** The heights of a range that change the balance of [a]. *)
Definition movements (a : USDBScriptHash) (first last : u32) : list u32 :=
  filter (λ k, a ∈ touched chain k) (heights (Z.max 1 first) (last - 1)).
Definition row_at (a : USDBScriptHash) (k : u32) : BalanceHistoryData :=
  {| bd_block_height := k; bd_delta := balance_at chain a k - balance_at chain a (k - 1);
     bd_balance := balance_at chain a k |}.
Definition chain_rows (a : USDBScriptHash) (first last : u32) : list BalanceHistoryData :=
  row_at a <$> movements a first last.
Definition chain_latest (a : USDBScriptHash) (h : u32) : BalanceHistoryData :=
  default no_balance (row_at a <$> last (movements a 1 (h + 1))).

Lemma elem_of_movements a lo hi k : k ∈ movements a lo hi ↔ Z.max 1 lo <= k < hi ∧ a ∈ touched chain k.
Proof. unfold movements. rewrite list_elem_of_filter, elem_of_heights. intuition lia. Qed.
Lemma movements_sorted a lo hi : StronglySorted Z.lt (movements a lo hi).
Proof. apply StronglySorted_filter, heights_sorted. Qed.
Lemma chain_rows_sorted a lo hi :
  StronglySorted (λ x y, bd_block_height x < bd_block_height y) (chain_rows a lo hi).
Proof.
  unfold chain_rows. induction (movements_sorted a lo hi) as [|k l _ IH Hk]; cbn; [constructor|].
  constructor; [done|]. apply Forall_fmap. exact Hk.
Qed.

(** *** The rows in an indexed database *)

Section Valid.
Context (n : u32) (V : valid_chain chain n) (d : BalanceHistoryDB) (I : indexed chain n d).

Lemma row_stored a k : 1 <= k <= n → a ∈ touched chain k →
  ∃ v, balance_history_cf d !! (a, k) = Some v ∧ balance_row ((a, k), v) = row_at a k.
Proof. intros Hk Ha. eexists. by rewrite (ix_rows _ _ _ I), decide_True by done. Qed.
Lemma stored_row a k v : balance_history_cf d !! (a, k) = Some v →
  1 <= k <= n ∧ a ∈ touched chain k ∧ balance_row ((a, k), v) = row_at a k.
Proof. rewrite (ix_rows _ _ _ I). destruct (decide _) as [[? ?]|]; [|done]. by intros [= <-]. Qed.

Lemma rows_served a lo hi : u256 a → 0 <= lo < hi → hi <= n + 1 →
  rows_in_range a lo hi d = chain_rows a lo hi.
Proof.
  intros Ha Hlo Hhi. pose proof (vc_height _ _ V) as Hn. pose proof (indexed_rows_wf chain n V d I) as W.
  assert (wf_balance_key (a, lo)) as Wa by (split; cbn; [done|lia]).
  apply (strictly_sorted_unique (λ x y, bd_block_height x < bd_block_height y)); [lia| | |].
  - by apply rows_in_range_sorted.
  - apply chain_rows_sorted.
  - intros x. rewrite elem_of_balance_rows by done. unfold chain_rows. rewrite list_elem_of_fmap. split.
    + intros (k & v & Hv & Hk & ->). apply stored_row in Hv as (Hr & Ht & E). exists k. split; [done|].
      apply elem_of_movements. split; [lia|done].
    + intros (k & -> & (Hk & Ht)%elem_of_movements).
      destruct (row_stored a k ltac:(lia) Ht) as (v & Hv & E). exists k, v. split_and!; [done|lia|lia|done].
Qed.
Lemma latest_served a h : u256 a → 0 <= h <= U32_MAX →
  latest_at a h d = chain_latest a (Z.min h n).
Proof.
  intros Ha Hh. pose proof (vc_height _ _ V) as Hn. pose proof (indexed_rows_wf chain n V d I) as W.
  unfold chain_latest.
  destruct (latest_at_cases a h d W ltac:(split; cbn; [done|lia])) as [(k & v & Hv & Hk & Hmax & ->)|[Hnone ->]].
  - apply stored_row in Hv as (Hr & Ht & ->).
    rewrite (strictly_sorted_last Z.lt ltac:(lia) _ k); [done|apply movements_sorted| |].
    + apply elem_of_movements. split; [lia|done].
    + intros j (Hj & Htj)%elem_of_movements. destruct (row_stored a j ltac:(lia) Htj) as (w & Hw & _).
      specialize (Hmax j w Hw ltac:(lia)). lia.
  - destruct (last _) as [k|] eqn:E; [|done]. apply last_Some in E as [l' E].
    assert (k ∈ movements a 1 (Z.min h n + 1)) as (Hk & Ht)%elem_of_movements
      by (rewrite E; apply elem_of_app; right; by left).
    destruct (row_stored a k ltac:(lia) Ht) as (w & Hw & _). specialize (Hnone k w Hw). lia.
Qed.
End Valid.

(** *** What the rows say *)

Section Facts.
Context (n : u32) (V : valid_chain chain n).

(** The latest row of a height. *)
Lemma chain_latest_cases a h : 0 <= h <= n →
  (∃ k, k ∈ movements a 1 (h + 1) ∧ chain_latest a h = row_at a k ∧ ∀ j, k < j <= h → a ∉ touched chain j)
  ∨ (∀ j, 1 <= j <= h → a ∉ touched chain j) ∧ chain_latest a h = no_balance.
Proof.
  intros Hh. unfold chain_latest. destruct (last (movements a 1 (h + 1))) as [k|] eqn:E; [left|right].
  - apply last_Some in E as [l' E]. exists k. split_and!; [rewrite E; apply elem_of_app; right; by left|done|].
    intros j Hj Ht. assert (j ∈ movements a 1 (h + 1)) as Hm.
    { apply elem_of_movements. assert (k ∈ movements a 1 (h + 1)) as (? & ?)%elem_of_movements; [|split; [lia|done]].
      rewrite E. apply elem_of_app. right. by left. }
    rewrite E in Hm. apply elem_of_app in Hm as [Hm|Hm%list_elem_of_singleton]; [|lia].
    pose proof (movements_sorted a 1 (h + 1)) as Hs. rewrite E in Hs.
    assert (j < k); [|lia]. clear E. induction l' as [|y l' IH]; [by apply elem_of_nil in Hm|].
    apply StronglySorted_inv in Hs as [Hs Hy]. apply elem_of_cons in Hm as [->|Hm]; [|by apply IH].
    rewrite Forall_forall in Hy. apply Hy, elem_of_app. right. by left.
  - apply last_None in E. split; [|done]. intros j Hj Ht. apply (not_elem_of_nil (A := u32) j).
    rewrite <-E. apply elem_of_movements. split; [lia|done].
Qed.
(** It carries the balance of the height. *)
Lemma chain_latest_balance a h : 0 <= h <= n →
  bd_balance (chain_latest a h) = balance_at chain a h ∧ 0 <= bd_block_height (chain_latest a h) <= h.
Proof.
  intros Hh. destruct (chain_latest_cases a h Hh) as [(k & (Hk & _)%elem_of_movements & -> & Hno)|[Hno ->]]; cbn.
  - split; [|lia]. symmetry. apply (balance_constant chain n V); [lia|lia|done].
  - split; [|lia]. rewrite (balance_constant chain n V a 0 h); [|lia|lia|intros; apply Hno; lia].
    unfold balance_at, utxos. by rewrite txs_to_0 by lia.
Qed.
Lemma balance_at_before a k : k <= 0 → balance_at chain a k = 0.
Proof. intros Hk. unfold balance_at, utxos. by rewrite txs_to_0 by lia. Qed.

(** The movements of adjacent ranges. *)
Lemma movements_app a lo m hi : lo <= m <= hi → movements a lo hi = movements a lo m ++ movements a m hi.
Proof.
  intros Hm. unfold movements. destruct (decide (m <= 1)) as [|Hm1].
  { rewrite (heights_nil _ (m - 1)) by lia. by replace (Z.max 1 lo) with (Z.max 1 m) by lia. }
  rewrite (heights_app _ (m - 1) (hi - 1)), filter_app by lia.
  by replace (m - 1 + 1) with (Z.max 1 m) by lia.
Qed.
(** The deltas of a range sum up to the change of the balance. *)
Lemma movements_total a lo hi : 0 <= lo <= hi → hi <= n + 1 →
  total (bd_delta <$> chain_rows a lo hi) = balance_at chain a (hi - 1) - balance_at chain a (lo - 1).
Proof.
  intros Hlo Hhi. replace hi with (lo + Z.of_nat (Z.to_nat (hi - lo))) in * by lia.
  generalize dependent (Z.to_nat (hi - lo)). intros m. induction m as [|m IH]; intros Hhi Hm.
  - unfold chain_rows, movements. rewrite heights_nil by lia. unfold total. cbn.
    replace (lo + Z.of_nat 0 - 1) with (lo - 1) by lia. lia.
  - set (h := lo + Z.of_nat m). replace (lo + Z.of_nat (S m)) with (h + 1) in * by lia.
    unfold chain_rows. rewrite (movements_app a lo h (h + 1)), fmap_app, fmap_app, total_app by lia.
    fold (chain_rows a lo h). unfold h at 1. rewrite IH by lia. fold h.
    unfold movements. destruct (decide (h < 1)) as [|H1].
    { rewrite heights_nil by lia. unfold total. cbn. rewrite !(balance_at_before a) by lia. lia. }
    replace (Z.max 1 h) with h by lia. rewrite heights_cons, heights_nil by lia.
    rewrite filter_cons. destruct (decide _) as [Ht|Ht]; unfold total; cbn.
    + replace (h + 1 - 1) with h by lia. lia.
    + replace (h + 1 - 1) with h by lia. rewrite (balance_untouched chain n V a h) by (done || lia). lia.
Qed.
End Facts.
End Served.
