(* ===== verification/BalanceQueries.v ===== *)
(** * Balance queries while the indexer runs

    What the handlers of the query service answer when the database they read moves forward between
    their accesses: the answers are those of an abstract service that knows only the chain. *)

From S2P Require Import Prelude Encoding Types Tx BalanceCodec BalanceDb BalanceDbFacts BalanceBlock.
From S2P Require Import BalanceChain BalanceDemo BalanceIndexer StateIds BalanceService BalanceServer.
From S2P Require Import BalanceFlush ServedRows.

(** ** Steps of a request *)

Lemma reads_run {A} (f : BalanceHistoryDB → A) v :
  query (reads f) v = (Ok (f (mo_db (moment v))), later v).
Proof. done. Qed.
Lemma jbind_run {A B} (m : Json A) (f : A → Json B) v a v1 :
  m v = (Ok (inr a), v1) → jbind m f v = f a v1.
Proof. intros E. unfold jbind. by rewrite (bind_run _ _ _ _ _ E). Qed.
Lemma jbind_err {A B} (m : Json A) (f : A → Json B) v e v1 :
  m v = (Ok (inl e), v1) → jbind m f v = (Ok (inl e), v1).
Proof. intros E. unfold jbind. by rewrite (bind_run _ _ _ _ _ E). Qed.
Lemma internal_run {A} msg (m : M View A) v a v1 :
  m v = (Ok a, v1) → internal msg m v = (Ok (inr a), v1).
Proof. intros E. unfold internal, try, bind. by rewrite E. Qed.

(** *** Requests that cannot panic *)

Definition quiet {A} (m : M View A) : Prop := ∀ v e, (m v).1 ≠ Panic e.
Lemma quiet_ret {A} (a : A) : quiet (ret a).
Proof. done. Qed.
Lemma quiet_fail {A} msg : quiet (A := A) (fail msg).
Proof. done. Qed.
Lemma quiet_observe {A} (f : Moment → A) : quiet (observe f).
Proof. done. Qed.
Lemma quiet_reads {A} (f : BalanceHistoryDB → A) : quiet (query (reads f)).
Proof. done. Qed.
Lemma quiet_bind {A B} (m : M View A) (f : A → M View B) : quiet m → (∀ a, quiet (f a)) → quiet (bind m f).
Proof.
  intros Hm Hf v e. specialize (Hm v). unfold bind. destruct (m v) as [[a|x|x] v1]; [apply Hf|done|].
  by destruct (Hm x).
Qed.
Create HintDb quiet discriminated.
#[local] Hint Resolve quiet_ret quiet_fail quiet_observe : quiet.
#[local] Hint Extern 1 (quiet (query _)) => apply quiet_reads : quiet.
#[local] Hint Extern 1 (quiet (bind _ _)) => apply quiet_bind; [|intros ?] : quiet.
#[local] Hint Extern 2 (quiet (match ?x with _ => _ end)) => destruct x : quiet.
#[local] Hint Extern 2 (quiet ?m) => progress unfold m : quiet.

Lemma readiness_quiet : quiet readiness_info.
Proof.
  unfold readiness_info, script_registry_status, get_snapshot_install_used,
    get_snapshot_install_manifest_verified, get_snapshot_install_provenance, get_btc_block_height,
    get_block_commit, get_u32_meta. eauto 30 with quiet.
Qed.

(** A refusal carries the code; the data are filled in from later accesses. *)
Lemma consensus_error_run {A} code rh expected actual detail v :
  ∃ ready v', consensus_error (A := A) code
      (build_consensus_error_data_for_state rh expected actual detail) v
    = (Ok (inl (ServerError code
         {| er_service := BALANCE_HISTORY_SERVICE_NAME; er_requested_height := rh;
            er_local_synced_height := None; er_upstream_stable_height := rf_stable_height actual;
            er_consensus_ready := ready; er_expected_state := expected; er_actual_state := actual;
            er_detail := detail |})), v').
Proof.
  unfold consensus_error, build_consensus_error_data_for_state, try, bind.
  pose proof (readiness_quiet v) as Hq. destruct (readiness_info v) as [[r|e|e] v1]; cbn in *.
  - by eexists _, _.
  - by eexists _, _.
  - by destruct (Hq e).
Qed.

(** ** A database that moves forward *)

Section Serving.
Context `{BitcoinCrate} {Laws : BitcoinCrateLaws} (network : string) (chain : u32 → BtcBlock).

(** At access [t] the indexer has indexed the chain up to [n t]: it may append any number of batches
    between two accesses, and rolls nothing back. *)
Record serving (n : nat → u32) (ms : nat → Moment) : Prop := {
  sv_valid t : valid_chain chain (n t);
  sv_indexed t : indexed chain (n t) (mo_db (ms t));
  sv_forward t t' : (t <= t')%nat → n t <= n t'
}.

(** *** The abstract service: what it answers is a function of the chain and of the stable height *)

Definition chain_snapshot (h : u32) : SnapshotInfo :=
  {| si_stable_height := h;
     si_stable_block_hash := if 1 <=? h then Some (reversed_hex (block_hash (chain h))) else None;
     si_latest_block_commit := if 1 <=? h then Some (encode_hex (cm_block_commit (chain_commit chain h)))
                               else None;
     si_stable_lag := BALANCE_HISTORY_STABLE_LAG;
     si_balance_history_api_version := BALANCE_HISTORY_API_VERSION;
     si_balance_history_semantics_version := BALANCE_HISTORY_SEMANTICS_VERSION;
     si_commit_protocol_version := COMMIT_PROTOCOL_VERSION;
     si_commit_hash_algo := COMMIT_HASH_ALGO |}.

Inductive Answer (A : Type) := Reply (a : A) | Invalid | Refused (code : ConsensusRpcErrorCode).
Arguments Reply {A} a.
Arguments Invalid {A}.
Arguments Refused {A} code.
Definition answer_of {A} (r : result (JsonError + A)) : option (Answer A) :=
  match r with
  | Ok (inr a) => Some (Reply a)
  | Ok (inl (InvalidParams _)) => Some Invalid
  | Ok (inl (ServerError code _)) => Some (Refused code)
  | _ => None
  end.
(** A request that needs the block [h] when the stable height is [n]. *)
Definition needs {A} (h n : u32) (reply : A) : Answer A :=
  if n =? 0 then Refused SnapshotNotReady
  else if h >? n then Refused HeightNotSynced
  else Reply reply.
(** [n]: the stable height when the request is validated; [n']: when the row is read. *)
Definition balance_service (n n' : u32) (params : GetBalanceParams) : Answer (list AddressBalance) :=
  let a := gb_script_hash params in
  match gb_block_height params, gb_block_range params with
  | Some h, _ => needs h n [address_balance (chain_latest chain a h)]
  | None, Some range =>
      if range_is_empty range then Reply []
      else needs (range_last range - 1) n
             (address_balance <$> chain_rows chain a (range_first range) (range_last range))
  | None, None => needs n n [address_balance (chain_latest chain a n')]
  end.

Definition wf_range (r : BlockRange) : Prop :=
  0 <= range_first r <= U32_MAX ∧ 0 <= range_last r <= U32_MAX.
Record wf_params (params : GetBalanceParams) : Prop := {
  wp_hash : u256 (gb_script_hash params);
  wp_height h : gb_block_height params = Some h → 0 <= h <= U32_MAX;
  wp_range r : gb_block_range params = Some r → wf_range r
}.

Lemma jbind_refused {A B} (m : Json A) (k : A → Json B) v c :
  answer_of (m v).1 = Some (Refused c) → answer_of (jbind m k v).1 = Some (Refused c).
Proof. unfold jbind, bind. destruct (m v) as [[[[]|a]|e|e] v1]; cbn; (done || by intros [= ->]). Qed.

Lemma refused_run {A} code rh snapshot detail v :
  answer_of (A := A) (consensus_error code (build_consensus_error_data network rh snapshot detail) v).1
  = Some (Refused code).
Proof.
  unfold build_consensus_error_data.
  match goal with |- context [build_consensus_error_data_for_state ?a ?b ?c ?d] =>
    destruct (consensus_error_run (A := A) code a b c d v) as (? & ? & E) end. by rewrite E.
Qed.

Section Moments.
Context (n : nat → u32) (v : View) (S : serving n (moments v)).

Lemma sv_at t : 0 <= n t < U32_MAX.
Proof. exact (vc_height _ _ (sv_valid _ _ S t)). Qed.

Lemma snapshot_run : build_snapshot_info v = (Ok (chain_snapshot (n (now v))), later (later v)).
Proof.
  unfold build_snapshot_info, get_btc_block_height, get_block_commit.
  rewrite !(bind_run _ _ _ _ _ (reads_run _ _)).
  unfold moment. cbn [now moments later].
  rewrite (ix_height _ _ _ (sv_indexed _ _ S _)), (ix_commits _ _ _ (sv_indexed _ _ S _)).
  unfold ret, chain_snapshot. pose proof (sv_at (now v)) as H0.
  pose proof (sv_forward _ _ S (now v) (Datatypes.S (now v)) ltac:(lia)) as Hf.
  destruct (Z.leb_spec 1 (n (now v))).
  - by rewrite decide_True by lia.
  - by rewrite decide_False by lia.
Qed.
Lemma resolve_run :
  if n (now v) =? 0
  then answer_of (resolve_queryable_snapshot network v).1 = Some (Refused SnapshotNotReady)
  else resolve_queryable_snapshot network v = (Ok (inr (chain_snapshot (n (now v)))), later (later v)).
Proof.
  pose proof (sv_at (now v)) as H0. unfold resolve_queryable_snapshot.
  rewrite (jbind_run _ _ _ _ _ (internal_run _ _ _ _ _ snapshot_run)).
  assert (is_none (si_stable_block_hash (chain_snapshot (n (now v))))
          || is_none (si_latest_block_commit (chain_snapshot (n (now v)))) = negb (1 <=? n (now v))) as ->
    by (cbn; by destruct (1 <=? n (now v))).
  destruct (Z.eqb_spec (n (now v)) 0) as [E|E].
  - rewrite (proj2 (Z.leb_gt 1 (n (now v)))) by lia. apply refused_run.
  - by rewrite (proj2 (Z.leb_le 1 (n (now v)))) by lia.
Qed.

(** A request behind the validation of its heights. *)
Lemma guarded_run {A} (bad : SnapshotInfo → bool) rh detail (k : SnapshotInfo → Json A) :
  answer_of (jbind (let^ snapshot := resolve_queryable_snapshot network in
                    if bad snapshot
                    then consensus_error HeightNotSynced
                           (build_consensus_error_data network rh (Some snapshot) detail)
                    else jret snapshot) k v).1
  = if n (now v) =? 0 then Some (Refused SnapshotNotReady)
    else if bad (chain_snapshot (n (now v))) then Some (Refused HeightNotSynced)
    else answer_of (k (chain_snapshot (n (now v))) (later (later v))).1.
Proof.
  pose proof resolve_run as Hr. destruct (n (now v) =? 0).
  - by apply jbind_refused, jbind_refused.
  - destruct (bad _) eqn:Eb.
    + apply jbind_refused. rewrite (jbind_run _ _ _ _ _ Hr), Eb.
      apply refused_run.
    + erewrite jbind_run; [done|]. by rewrite (jbind_run _ _ _ _ _ Hr), Eb.
Qed.
Lemma height_guard {A} h (k : SnapshotInfo → Json A) :
  answer_of (jbind (validate_requested_height network h) k v).1
  = if n (now v) =? 0 then Some (Refused SnapshotNotReady)
    else if h >? n (now v) then Some (Refused HeightNotSynced)
    else answer_of (k (chain_snapshot (n (now v))) (later (later v))).1.
Proof. apply (guarded_run (λ s, h >? si_stable_height s)). Qed.
Lemma range_guard {A} r (k : SnapshotInfo → Json A) : wf_range r → range_is_empty r = false →
  answer_of (jbind (validate_requested_range network r) k v).1
  = if n (now v) =? 0 then Some (Refused SnapshotNotReady)
    else if range_last r - 1 >? n (now v) then Some (Refused HeightNotSynced)
    else answer_of (k (chain_snapshot (n (now v))) (later (later v))).1.
Proof.
  intros [Hl _] He. unfold range_is_empty in *.
  assert (u32_saturating_sub (range_last r) 1 = range_last r - 1) as El by (unfold u32_saturating_sub; b2p; lia).
  unfold validate_requested_range, range_is_empty. rewrite He, El. cbn [negb andb].
  apply (guarded_run (λ s, range_last r - 1 >? si_stable_height s)).
Qed.

(** Reading rows. *)
Lemma point_run a h : u256 a → 0 <= h <= n (now v) →
  query (get_balance_at_block_height a h) v = (Ok (chain_latest chain a h), later v).
Proof.
  intros Ha Hh. pose proof (sv_at (now v)). unfold query. 
  assert (latest_at a h (mo_db (moment v)) = chain_latest chain a h) as E.
  { unfold moment. rewrite (latest_served chain _ (sv_valid _ _ S _) _ (sv_indexed _ _ S _)) by (done || lia).
    by replace (Z.min h (n (now v))) with h by lia. }
  unfold get_balance_at_block_height. erewrite bind_run by reflexivity. cbn [db]. rewrite E.
  pose proof (chain_latest_balance chain _ (sv_valid _ _ S (now v)) a h ltac:(lia)) as [_ Hle].
  by rewrite (proj2 (Z.leb_le _ h)) by lia.
Qed.
Lemma latest_run a : u256 a →
  query (get_latest_balance a) v = (Ok (chain_latest chain a (n (now v))), later v).
Proof.
  intros Ha. pose proof (sv_at (now v)). unfold query, get_latest_balance, reads, gets. cbn [fst db]. unfold moment.
  rewrite (latest_served chain _ (sv_valid _ _ S _) _ (sv_indexed _ _ S _)) by (done || unfold U32_MAX in *; lia).
  by rewrite Z.min_r by lia.
Qed.
Lemma range_run a lo hi : u256 a → 0 <= lo < hi → hi - 1 <= n (now v) →
  query (get_balance_in_range a lo hi) v = (Ok (chain_rows chain a lo hi), later v).
Proof.
  intros Ha Hlo Hhi. unfold query, get_balance_in_range. rewrite (proj2 (Z.ltb_lt lo hi)) by lia.
  erewrite bind_run by reflexivity. unfold reads, gets. cbn [fst db]. unfold moment.
  by rewrite (rows_served chain _ (sv_valid _ _ S _) _ (sv_indexed _ _ S _)) by (done || lia).
Qed.
End Moments.


(** Every selector of [get_address_balance]: what the abstract service answers. *)
Lemma get_address_balance_run n v params : serving n (moments v) → wf_params params →
  answer_of (get_address_balance network params v).1
  = Some (balance_service (n (now v)) (n (S (S (now v)))) params).
Proof.
  intros Sv W. pose proof (wp_hash _ W) as Ha. unfold get_address_balance, balance_service, needs.
  pose proof (sv_at n v Sv (now v)) as H0.
  pose proof (sv_forward _ _ Sv (now v) (S (S (now v))) ltac:(lia)) as Hf.
  destruct (gb_block_height params) as [h|] eqn:Eh.
  - pose proof (wp_height _ W h Eh) as Hh. rewrite (height_guard n v Sv).
    destruct (_ =? 0); [done|]. destruct (h >? n (now v)) eqn:Eg; [done|]. b2p.
    erewrite jbind_run by (apply internal_run, (point_run n (later (later v)) Sv); [done|cbn; lia]). done.
  - destruct (gb_block_range params) as [r|] eqn:Er.
    + pose proof (wp_range _ W r Er) as Hr. destruct (range_is_empty r) eqn:Ee; [done|].
      rewrite (range_guard n v Sv) by done. destruct (_ =? 0); [done|].
      destruct (range_last r - 1 >? n (now v)) eqn:Eg; [done|]. unfold range_is_empty in Ee. b2p. destruct Hr.
      erewrite jbind_run
        by (apply internal_run, (range_run n (later (later v)) Sv); [done|lia|cbn; lia]). done.
    + pose proof (resolve_run n v Sv) as Hr. destruct (_ =? 0).
      * by apply jbind_refused.
      * rewrite Z.gtb_ltb, Z.ltb_irrefl. rewrite (jbind_run _ _ _ _ _ Hr).
        erewrite jbind_run by (apply internal_run, (latest_run n (later (later v)) Sv); done). done.
Qed.

(** A point request for an indexed height, and a batch of them. *)
Lemma point_request_run n v a h range : serving n (moments v) → u256 a → 0 < n (now v) → 0 <= h <= n (now v) →
  get_address_balance network {| gb_script_hash := a; gb_block_height := Some h; gb_block_range := range |} v
  = (Ok (inr [address_balance (chain_latest chain a h)]), later (later (later v))).
Proof.
  intros Sv Ha Hn Hh. unfold get_address_balance, validate_requested_height. cbn [gb_block_height gb_script_hash].
  pose proof (resolve_run n v Sv) as Hr. rewrite (proj2 (Z.eqb_neq (n (now v)) 0)) in Hr by lia.
  erewrite jbind_run; [|rewrite (jbind_run _ _ _ _ _ Hr); cbn [si_stable_height chain_snapshot];
                        by rewrite Z.gtb_ltb, (proj2 (Z.ltb_ge _ h)) by lia].
  pose proof (sv_forward _ _ Sv (now v) (S (S (now v))) ltac:(lia)) as Hf.
  by erewrite jbind_run by (apply internal_run, (point_run n (later (later v)) Sv); [done|cbn; lia]).
Qed.
Lemma batch_request_run n h range hashes : ∀ v,
  serving n (moments v) → Forall u256 hashes → 0 < n (now v) → 0 <= h <= n (now v) →
  (get_addresses_balances network
     {| gs_script_hashes := hashes; gs_block_height := Some h; gs_block_range := range |} v).1
  = Ok (inr ((λ a, [address_balance (chain_latest chain a h)]) <$> hashes)).
Proof.
  unfold get_addresses_balances. cbn [gs_script_hashes].
  induction hashes as [|a hashes IH]; intros v Sv Ha Hn Hh; [done|]. apply Forall_cons in Ha as [Ha Hrest].
  cbn [json_collect]. unfold single_params at 1. cbn [gs_block_height gs_block_range].
  rewrite (jbind_run _ _ _ _ _ (point_request_run n v a h range Sv Ha Hn Hh)).
  pose proof (sv_forward _ _ Sv (now v) (S (S (S (now v)))) ltac:(lia)) as Hf.
  specialize (IH (later (later (later v))) Sv Hrest ltac:(cbn; lia) ltac:(cbn; lia)).
  unfold single_params in *. cbn [gs_block_height gs_block_range] in *.
  destruct (json_collect _ hashes _) as [r v1] eqn:E. cbn [fst] in IH. subst r.
  by rewrite (jbind_run _ _ _ _ _ E).
Qed.

Lemma get_addresses_balances_run n v hashes h range :
  serving n (moments v) → Forall u256 hashes → 0 <= h <= U32_MAX →
  answer_of (get_addresses_balances network
      {| gs_script_hashes := hashes; gs_block_height := Some h; gs_block_range := range |} v).1
    = Some (if decide (hashes = []) then Reply []
            else needs h (n (now v)) ((λ a, [address_balance (chain_latest chain a h)]) <$> hashes)).
Proof.
  intros Sv Hs Hh. pose proof (sv_at n v Sv (now v)) as H0.
  destruct (decide (hashes = [])) as [->|Hne]; [done|]. unfold needs.
  destruct (decide (0 < n (now v) ∧ h <= n (now v))) as [[Hn Hle]|Hbad].
  - rewrite batch_request_run with (n := n) by (done || lia).
    rewrite (proj2 (Z.eqb_neq _ 0)), Z.gtb_ltb, (proj2 (Z.ltb_ge _ h)) by lia. done.
  - destruct hashes as [|a hashes]; [done|]. unfold get_addresses_balances. cbn [gs_script_hashes json_collect].
    unfold single_params at 1. cbn [gs_block_height gs_block_range].
    pose proof (height_guard n v Sv h (λ _,
      let^ ret := internal "Failed to get balance at block height" (query (get_balance_at_block_height a h)) in
      jret [address_balance ret])) as E.
    destruct (Z.eqb_spec (n (now v)) 0); [by apply jbind_refused|].
    destruct (h >? n (now v)) eqn:Eg; [by apply jbind_refused|]. b2p. lia.
Qed.

(** ** Theorem *)

(** C9. Whatever batches the indexer appends while a request is served, [get_address_balance] answers as
    the abstract service does, which knows only the chain and the stable height: the row at or below a
    height, the rows of a range in order, or the latest row; a height that is not indexed is refused
    with [HEIGHT_NOT_SYNCED], a database without a commit with [SNAPSHOT_NOT_READY].  Only the latest
    row depends on when it is read; no request panics or fails in another way.  A batch for one height
    gives the answers of its script hashes in their order, or is refused as a whole. *)
Theorem balance_queries_refine_chain n v params hashes h range :
  serving n (moments v) → wf_params params → Forall u256 hashes → 0 <= h <= U32_MAX →
  answer_of (get_address_balance network params v).1
  = Some (balance_service (n (now v)) (n (S (S (now v)))) params)
  ∧ answer_of (get_addresses_balances network
      {| gs_script_hashes := hashes; gs_block_height := Some h; gs_block_range := range |} v).1
    = Some (if decide (hashes = []) then Reply []
            else needs h (n (now v)) ((λ a, [address_balance (chain_latest chain a h)]) <$> hashes)).
Proof.
  intros Sv W Hs Hh. split; [by apply get_address_balance_run|by apply get_addresses_balances_run].
Qed.
End Serving.
Arguments Reply {A} a.
Arguments Invalid {A}.
Arguments Refused {A} code.

(** ** Witness: the second block is indexed while the request is served *)

Section Witness.
#[local] Existing Instances demo_crate demo_lru.
#[local] Instance demo_node : BTCClient := demo_client demo_chain 2.

Definition demo_db (k : u32) : BalanceHistoryDB := db (disk (process_blocks 1 (k + 1) 2 2 demo_store).2).
Lemma demo_db_indexed k : 1 <= k <= 2 → indexed demo_chain k (demo_db k).
Proof.
  intros Hk.
  destruct (process_blocks_done (BL := demo_crate_laws) (LL := demo_lru_laws) demo_chain 1 k 2 2 demo_store)
    as (s' & E & I & _); [lia|apply (valid_chain_le demo_chain k 2 demo_chain_valid); lia| |
      exact (indexed_empty demo_chain)|exact (no_caches_ok demo_chain 0)|done|].
  - intros j Hj. cbn. by rewrite (proj2 (Z.leb_le j 2)) by lia.
  - unfold demo_db. by rewrite E.
Qed.
Definition demo_height (t : nat) : u32 := if (t <? 2)%nat then 1 else 2.
Definition demo_moment (t : nat) : Moment :=
  {| mo_db := demo_db (demo_height t); mo_provenance := None; mo_registry_count := Ok 3;
     mo_manager := set_rpc_alive true (update_phase Synced None (update_current 2 None
                     (update_total 2 None new_status))) |}.
Definition demo_view : View := {| now := 0; moments := demo_moment |}.
Lemma demo_height_range t : 1 <= demo_height t <= 2.
Proof. unfold demo_height. destruct (_ <? _)%nat; lia. Qed.
Lemma demo_serving : serving demo_chain demo_height demo_moment.
Proof.
  split.
  - intros t. apply (valid_chain_le demo_chain _ 2 demo_chain_valid). pose proof (demo_height_range t). lia.
  - intros t. apply demo_db_indexed, demo_height_range.
  - intros t t' Ht. unfold demo_height. destruct (Nat.ltb_spec t 2), (Nat.ltb_spec t' 2); lia.
Qed.
Definition demo_params (h : option u32) : GetBalanceParams :=
  {| gb_script_hash := to_usdb_script_hash [1]; gb_block_height := h; gb_block_range := None |}.

(** At height 1 the script holds 50; the latest row, read after the second block, says 20; height 2
    is refused, because it was not indexed when the request was checked. *)
Lemma balance_queries_refine_chain_witness :
  answer_of (get_address_balance "regtest" (demo_params (Some 1)) demo_view).1
  = Some (Reply [{| ab_block_height := 1; ab_balance := 50; ab_delta := 50 |}])
  ∧ answer_of (get_address_balance "regtest" (demo_params None) demo_view).1
    = Some (Reply [{| ab_block_height := 2; ab_balance := 20; ab_delta := -30 |}])
  ∧ answer_of (get_address_balance "regtest" (demo_params (Some 2)) demo_view).1
    = Some (Refused HeightNotSynced).
Proof.
  pose proof (λ h W, proj1 (balance_queries_refine_chain (Laws := demo_crate_laws) "regtest" demo_chain demo_height
    demo_view (demo_params h) [] 1 None demo_serving W (Forall_nil_2 _) ltac:(done))) as H.
  assert (∀ h, (∀ k, h = Some k → 0 <= k <= U32_MAX) → wf_params (demo_params h)) as W.
  { intros h Hh. split; [by vm_compute|exact Hh|done]. }
  rewrite !H by (apply W; intros k [= <-]; done). by vm_compute.
Defined.
End Witness.
