(* ===== verification/BalanceAggregates.v ===== *)
(** * Aggregates of an address

    What the summary, the time series and the flow buckets of [service/server.rs] say about a range of
    heights: folds over the rows of the range, cut into buckets. *)

From S2P Require Import Prelude Encoding Types Tx BalanceCodec BalanceDb BalanceDbFacts BalanceBlock.
From S2P Require Import BalanceChain BalanceDemo BalanceIndexer StateIds BalanceService BalanceServer.
From S2P Require Import ServedRows BalanceQueries.

(** ** Folds over rows *)

(** A field of an accumulator that does not depend on the others. *)
Lemma foldl_field {A B C} (f : A → B) (step : A → C → A) (g : B → C → B) (l : list C) acc :
  (∀ acc x, f (step acc x) = g (f acc) x) → f (foldl step acc l) = foldl g (f acc) l.
Proof. intros Hf. revert acc. induction l as [|x l IH]; intros acc; [done|]. cbn. by rewrite IH, Hf. Qed.

Definition inflow (rows : list BalanceHistoryData) : Z := total ((λ r, Z.max 0 (bd_delta r)) <$> rows).
Definition outflow (rows : list BalanceHistoryData) : Z := total ((λ r, Z.max 0 (- bd_delta r)) <$> rows).
Definition small_deltas (rows : list BalanceHistoryData) : Prop :=
  Forall (λ r, - I64_MAX <= bd_delta r <= I64_MAX) rows.

Lemma net_fold rows : ∀ z,
  foldl (λ net row, i64_add net (bd_delta row)) (i64_wrap z) rows = i64_wrap (z + total (bd_delta <$> rows)).
Proof.
  induction rows as [|r rows IH]; intros z; [unfold total; cbn; f_equal; lia|]. cbn [foldl fmap list_fmap].
  unfold i64_add at 2. rewrite i64_wrap_add, IH. unfold total. cbn. f_equal. lia.
Qed.
Lemma count_fold (rows : list BalanceHistoryData) : ∀ c,
  0 <= c → c + count rows <= U64_MAX → foldl (λ c _, u64_add c 1) c rows = c + count rows.
Proof.
  induction rows as [|r rows IH]; intros c Hc Hb; unfold count in *; cbn [foldl length] in *; [lia|].
  unfold u64_add at 2. rewrite Z.mod_small by lia. rewrite IH by lia. lia.
Qed.
Lemma inflow_fold rows : small_deltas rows → ∀ z,
  foldl (λ i row, add_inflow (bd_delta row) i) (z mod (U64_MAX + 1)) rows = (z + inflow rows) mod (U64_MAX + 1).
Proof.
  induction 1 as [|r rows Hr _ IH]; intros z; [unfold inflow, total; cbn; f_equal; lia|]. cbn [foldl].
  unfold add_inflow at 2. unfold inflow, total. cbn. destruct (Z.leb_spec 0 (bd_delta r)).
  - unfold u64_add, i64_as_u64. rewrite <-Zplus_mod, IH. unfold inflow, total. f_equal. lia.
  - rewrite IH. unfold inflow, total. f_equal. lia.
Qed.
Lemma outflow_fold rows : small_deltas rows → ∀ z,
  foldl (λ o row, add_outflow (bd_delta row) o) (z mod (U64_MAX + 1)) rows = (z + outflow rows) mod (U64_MAX + 1).
Proof.
  induction 1 as [|r rows Hr _ IH]; intros z; [unfold outflow, total; cbn; f_equal; lia|]. cbn [foldl].
  unfold add_outflow at 2. unfold outflow, total. cbn. destruct (Z.leb_spec 0 (bd_delta r)).
  - rewrite IH. unfold outflow, total. f_equal. lia.
  - unfold u64_add, i64_as_u64, i64_neg. rewrite i64_wrap_id by (unfold I64_MIN, I64_MAX in *; lia).
    rewrite <-Zplus_mod, IH. unfold outflow, total. f_equal. lia.
Qed.
Lemma last_fold {B C} (f : C → B) (l : list C) : ∀ b, foldl (λ _ x, f x) b l = default b (f <$> last l).
Proof.
  induction l as [|x l IH]; intros b; [done|]. cbn [foldl]. rewrite IH. rewrite last_cons.
  by destruct (last l).
Qed.
Lemma last_height_fold (rows : list BalanceHistoryData) o :
  foldl (λ _ r, Some (bd_block_height r)) o rows = default o (Some ∘ bd_block_height <$> last rows).
Proof. apply (last_fold (λ r, Some (bd_block_height r))). Qed.
Lemma first_fold (rows : list BalanceHistoryData) o :
  foldl (λ o r, Some (default (bd_block_height r) o)) o rows
  = match o with Some h => Some h | None => bd_block_height <$> head rows end.
Proof.
  destruct rows as [|r rows]; [by destruct o|]. cbn [foldl head fmap option_fmap option_map].
  assert (∀ h, foldl (λ o r, Some (default (bd_block_height r) o)) (Some h) rows = Some h) as ->.
  { intros h. clear. revert h. induction rows as [|r rows IH]; intros h; [done|]. apply (IH h). }
  by destruct o.
Qed.

(** The extreme value seen so far and the height it was seen at: the greatest for [sign = 1], the least
    for [sign = -1]. *)
Section Extreme.
Context (sign : Z).

Definition extreme_step (p : u64 * u32) (row : BalanceHistoryData) : u64 * u32 :=
  if sign * p.1 <? sign * bd_balance row then (bd_balance row, bd_block_height row) else p.
Lemma extreme_fold rows : ∀ p,
  let out := foldl extreme_step p rows in
  sign * p.1 <= sign * out.1 ∧ Forall (λ r, sign * bd_balance r <= sign * out.1) rows
  ∧ (out = p ∨ ∃ r, r ∈ rows ∧ out = (bd_balance r, bd_block_height r)).
Proof.
  induction rows as [|r rows IH]; intros p; cbn [foldl]; [split_and!; [done|done|by left]|].
  destruct (IH (extreme_step p r)) as (H1 & H2 & H3). unfold extreme_step at 1 in H1.
  assert (sign * p.1 <= sign * (extreme_step p r).1 ∧ sign * bd_balance r <= sign * (extreme_step p r).1) as [? ?].
  { unfold extreme_step. destruct (Z.ltb_spec (sign * p.1) (sign * bd_balance r)); cbn; lia. }
  fold (extreme_step p r) in H1. split_and!; [lia|constructor; [lia|done]|].
  destruct H3 as [->|(s & Hs & ->)]; [|right; exists s; split; [by right|done]].
  unfold extreme_step. destruct (_ <? _); [right; exists r; split; [by left|done]|by left].
Qed.
End Extreme.

(** The fields of a summary, one by one. *)
Lemma summary_fields rows s :
  let out := foldl summary_row s rows in
  (sm_range_start out, sm_range_end out, sm_start_balance out, sm_end_balance out)
    = (sm_range_start s, sm_range_end s, sm_start_balance s, sm_end_balance s)
  ∧ sm_change_count out = foldl (λ c _, u64_add c 1) (sm_change_count s) rows
  ∧ sm_total_inflow out = foldl (λ i row, add_inflow (bd_delta row) i) (sm_total_inflow s) rows
  ∧ sm_total_outflow out = foldl (λ o row, add_outflow (bd_delta row) o) (sm_total_outflow s) rows
  ∧ sm_net_delta out = foldl (λ net row, i64_add net (bd_delta row)) (sm_net_delta s) rows
  ∧ sm_first_movement_height out
    = foldl (λ o r, Some (default (bd_block_height r) o)) (sm_first_movement_height s) rows
  ∧ sm_latest_movement_height out = foldl (λ _ r, Some (bd_block_height r)) (sm_latest_movement_height s) rows
  ∧ (sm_peak_balance out, sm_peak_height out) = foldl (extreme_step 1) (sm_peak_balance s, sm_peak_height s) rows
  ∧ (sm_low_balance out, sm_low_height out) = foldl (extreme_step (-1)) (sm_low_balance s, sm_low_height s) rows.
Proof.
  cbn zeta. split_and!.
  - revert s. induction rows as [|r rows IH]; intros s; [done|]. apply (IH (summary_row s r)).
  - by apply foldl_field.
  - by apply foldl_field.
  - by apply foldl_field.
  - by apply foldl_field.
  - by apply foldl_field.
  - by apply (foldl_field sm_latest_movement_height summary_row (λ _ r, Some (bd_block_height r))).
  - apply (foldl_field (λ s, (sm_peak_balance s, sm_peak_height s))). intros acc r. unfold extreme_step. cbn.
    rewrite !Z.mul_1_l, Z.gtb_ltb. by destruct (_ <? _).
  - apply (foldl_field (λ s, (sm_low_balance s, sm_low_height s))). intros acc r. unfold extreme_step. cbn [sm_low_balance sm_low_height summary_row fst].
    replace (-1 * sm_low_balance acc <? -1 * bd_balance r) with (bd_balance r <? sm_low_balance acc); [by destruct (_ <? _)|].
    destruct (Z.ltb_spec (bd_balance r) (sm_low_balance acc)), (Z.ltb_spec (-1 * sm_low_balance acc) (-1 * bd_balance r)); (done || lia).
Qed.

(** ** The buckets of a range *)

Definition bucket_count (first last size : u32) : Z := (last - first + size - 1) / size.
Definition buckets (first last size : u32) : list (u32 * u32) :=
  (λ i, (first + i * size, Z.min (first + (i + 1) * size) last)) <$> heights 0 (bucket_count first last size - 1).
Lemma buckets_nil first last size : 0 < size → last <= first → buckets first last size = [].
Proof.
  intros Hs Hl. unfold buckets, bucket_count. rewrite heights_nil; [done|].
  assert ((last - first + size - 1) / size < 1); [|lia]. apply Z.div_lt_upper_bound; lia.
Qed.
Lemma buckets_cons first last size : 0 < size → first < last →
  buckets first last size = (first, Z.min (first + size) last) :: buckets (Z.min (first + size) last) last size.
Proof.
  intros Hs Hl. assert (1 <= bucket_count first last size) as H1.
  { unfold bucket_count. apply Z.div_le_lower_bound; lia. }
  unfold buckets at 1. rewrite heights_cons by lia. cbn [fmap list_fmap]. f_equal; [f_equal; lia|].
  destruct (decide (first + size < last)) as [Hlt|Hge].
  - rewrite Z.min_l by lia. unfold buckets.
    assert (bucket_count first last size = bucket_count (first + size) last size + 1) as Ec.
    { unfold bucket_count. rewrite <-Z.div_add by lia. f_equal. lia. }
    rewrite Ec. unfold heights.
    replace (Z.to_nat (bucket_count (first + size) last size + 1 - 1 - (0 + 1) + 1))
      with (Z.to_nat (bucket_count (first + size) last size - 1 - 0 + 1)) by lia.
    rewrite <-!list_fmap_compose. apply list_fmap_ext. intros i j _. cbn. f_equal; [lia|f_equal; lia].
  - rewrite Z.min_r by lia. rewrite buckets_nil by lia.
    assert (bucket_count first last size < 2) by (apply Z.div_lt_upper_bound; lia).
    by rewrite heights_nil by lia.
Qed.

(** ** The loop over the buckets *)

Lemma take_rows_app {A} (step : A → BalanceHistoryData → A) e l1 l2 : ∀ acc,
  Forall (λ r, bd_block_height r < e) l1 → Forall (λ r, e <= bd_block_height r) l2 →
  take_rows step e (l1 ++ l2) acc = (foldl step acc l1, l2).
Proof.
  induction l1 as [|r l1 IH]; intros acc H1 H2; cbn.
  - destruct l2 as [|r l2]; [done|]. cbn. apply Forall_cons in H2 as [Hr _].
    by rewrite (proj2 (Z.ltb_ge _ e)) by done.
  - apply Forall_cons in H1 as [Hr H1]. rewrite (proj2 (Z.ltb_lt _ e)) by done. by apply IH.
Qed.

(** For rows that are cut at the bucket boundaries, and accumulators with an invariant there; [f] is
    what is said of a point. *)
Section Loop.
Context {A P Q : Type} (rows : u32 → u32 → list BalanceHistoryData)
  (reset : A → A) (step : A → BalanceHistoryData → A) (emit : u32 → u32 → A → P)
  (f : P → Q) (spec : u32 * u32 → Q) (Inv : u32 → A → Prop) (last size : u32).
Hypothesis Hsize : 0 < size.
Hypothesis Hlast : last <= U32_MAX.
Hypothesis Hcut : ∀ s e, 0 <= s < e → e <= last →
  rows s last = rows s e ++ rows e last
  ∧ Forall (λ r, bd_block_height r < e) (rows s e) ∧ Forall (λ r, e <= bd_block_height r) (rows e last).
Hypothesis Hstep : ∀ s e acc, 0 <= s < e → e <= last → Inv s acc →
  f (emit s e (foldl step (reset acc) (rows s e))) = spec (s, e) ∧ Inv e (foldl step (reset acc) (rows s e)).

Lemma bucket_loop_over fuel : ∀ s acc, 0 <= s → (Z.to_nat (last - s) <= fuel)%nat → Inv s acc →
  f <$> bucket_loop fuel reset step emit size last s (rows s last) acc = spec <$> buckets s last size.
Proof.
  induction fuel as [|fuel IH]; intros s acc H0 Hf Hi.
  { rewrite buckets_nil by lia. done. }
  cbn [bucket_loop]. destruct (Z.ltb_spec s last) as [Hlt|Hge]; [|by rewrite buckets_nil by lia].
  unfold u32_saturating_add. replace (Z.min (Z.min U32_MAX (s + size)) last) with (Z.min (s + size) last) by lia.
  rewrite buckets_cons by lia. set (e := Z.min (s + size) last). assert (s < e <= last) as He by lia.
  destruct (Hcut s e) as (-> & H1 & H2); [lia..|]. rewrite take_rows_app by done.
  destruct (Hstep s e acc) as [E Hi']; [lia..|done|]. rewrite !fmap_cons, E. f_equal. apply IH; [lia|lia|done].
Qed.
End Loop.

(** ** Aggregates of a chain *)

Section Chain.
Context `{BitcoinCrate} {Laws : BitcoinCrateLaws} (network : string) (chain : u32 → BtcBlock).

(** What a summary of [range] has to say about [a]. *)
Record summarizes (a : USDBScriptHash) (range : BlockRange) (s : AddressBalanceSummary) : Prop := {
  su_range : sm_range_start s = range_first range ∧ sm_range_end s = range_last range;
  su_start : sm_start_balance s = balance_at chain a (range_first range - 1);
  su_end : sm_end_balance s = balance_at chain a (range_last range - 1);
  su_net : sm_net_delta s = sm_end_balance s - sm_start_balance s;
  su_count : sm_change_count s = count (movements chain a (range_first range) (range_last range));
  su_first : sm_first_movement_height s = head (movements chain a (range_first range) (range_last range));
  su_latest : sm_latest_movement_height s = last (movements chain a (range_first range) (range_last range));
  su_inflow : sm_total_inflow s
    = inflow (chain_rows chain a (range_first range) (range_last range)) mod (U64_MAX + 1);
  su_outflow : sm_total_outflow s
    = outflow (chain_rows chain a (range_first range) (range_last range)) mod (U64_MAX + 1);
  su_bounds k : range_first range - 1 <= k <= range_last range - 1 →
    sm_low_balance s <= balance_at chain a k <= sm_peak_balance s;
  su_peak : balance_at chain a (sm_peak_height s) = sm_peak_balance s
    ∨ sm_peak_balance s = sm_start_balance s ∧ sm_peak_height s = range_first range;
  su_low : balance_at chain a (sm_low_height s) = sm_low_balance s
    ∨ sm_low_balance s = sm_start_balance s ∧ sm_low_height s = range_first range
}.

(** What each bucket has to say. *)
Definition chain_point (a : USDBScriptHash) (b : u32 * u32) : AddressBalanceTimeseriesPoint :=
  {| tp_bucket_start := b.1; tp_bucket_end := b.2; tp_balance := balance_at chain a (b.2 - 1);
     tp_net_delta := balance_at chain a (b.2 - 1) - balance_at chain a (b.1 - 1);
     tp_change_count := count (movements chain a b.1 b.2);
     tp_latest_movement_height := last (movements chain a b.1 b.2) |}.
Definition chain_flow (a : USDBScriptHash) (b : u32 * u32) : AddressFlowBucket :=
  {| fb_bucket_start := b.1; fb_bucket_end := b.2;
     fb_inflow := inflow (chain_rows chain a b.1 b.2) mod (U64_MAX + 1);
     fb_outflow := outflow (chain_rows chain a b.1 b.2) mod (U64_MAX + 1);
     fb_net_delta := balance_at chain a (b.2 - 1) - balance_at chain a (b.1 - 1);
     fb_change_count := count (movements chain a b.1 b.2) |}.

Section Valid.
Context (n : u32) (V : valid_chain chain n).

Lemma chain_rows_small a lo hi : hi <= n + 1 → small_deltas (chain_rows chain a lo hi).
Proof.
  intros Hhi. apply Forall_fmap, Forall_forall. intros k (Hk & _)%elem_of_movements. cbn.
  pose proof (balance_range chain n V a k ltac:(lia)). pose proof (balance_range chain n V a (k - 1) ltac:(lia)). lia.
Qed.
Lemma movements_count a lo hi : hi <= n + 1 → 0 + count (chain_rows chain a lo hi) <= U64_MAX.
Proof.
  intros Hhi. pose proof (vc_height _ _ V). unfold count, chain_rows. rewrite length_fmap. unfold movements.
  etrans; [apply Z.add_le_mono_l, Nat2Z.inj_le, length_filter|]. unfold heights. rewrite length_fmap, length_seq.
  unfold U32_MAX, U64_MAX in *. lia.
Qed.
Lemma net_of_range a lo hi : 0 <= lo <= hi → hi <= n + 1 →
  foldl (λ net row, i64_add net (bd_delta row)) 0 (chain_rows chain a lo hi)
  = balance_at chain a (hi - 1) - balance_at chain a (lo - 1).
Proof.
  intros Hlo Hhi. change 0 with (i64_wrap 0) at 1. rewrite net_fold, (movements_total chain n V) by done.
  assert (∀ k, k <= n → 0 <= balance_at chain a k <= I64_MAX) as Hb.
  { intros k Hk. destruct (decide (0 <= k)); [apply (balance_range chain n V); lia|].
    rewrite balance_at_before by lia. done. }
  pose proof (Hb (hi - 1) ltac:(lia)). pose proof (Hb (lo - 1) ltac:(lia)).
  apply i64_wrap_id. unfold I64_MIN, I64_MAX in *. lia.
Qed.
(** Between the movements the balance stands. *)
Lemma balance_in_range a lo hi k : 0 <= lo → hi <= n + 1 → lo - 1 <= k < hi →
  balance_at chain a k = balance_at chain a (lo - 1)
  ∨ ∃ j, j ∈ movements chain a lo hi ∧ balance_at chain a k = balance_at chain a j.
Proof.
  intros Hlo Hhi [Hk Hkh]. revert Hkh.
  apply (Zlt_lower_bound_ind (λ k, k < hi → balance_at chain a k = balance_at chain a (lo - 1)
    ∨ ∃ j, j ∈ movements chain a lo hi ∧ balance_at chain a k = balance_at chain a j) (lo - 1)); [|done].
  clear k Hk. intros k IH Hk Hkh. destruct (decide (k < lo)); [left; f_equal; lia|].
  destruct (decide (k < 1)); [left; by rewrite !balance_at_before by lia|].
  destruct (decide (a ∈ touched chain k)) as [Ht|Ht].
  - right. exists k. split; [|done]. apply elem_of_movements. split; [lia|done].
  - rewrite (balance_untouched chain n V a k) by (done || lia). apply IH; lia.
Qed.

(** A summary folded over the rows of the range. *)
Lemma summary_of_rows a lo hi : 0 <= lo < hi → hi <= n + 1 →
  summarizes a {| range_first := lo; range_last := hi |}
    (foldl summary_row (empty_summary {| range_first := lo; range_last := hi |}
                          (balance_at chain a (lo - 1)) (balance_at chain a (hi - 1)))
       (chain_rows chain a lo hi)).
Proof.
  intros Hf Hl. set (rows := chain_rows chain a lo hi).
  set (s0 := empty_summary _ _ _).
  destruct (summary_fields rows s0) as (Er & Ec & Ei & Eo & En & E1 & E2 & Ep & El).
  generalize dependent (foldl summary_row s0 rows). intros s Er Ec Ei Eo En E1 E2 Ep El.
  injection Er as Er1 Er2 Er3 Er4. cbn [s0 sm_change_count sm_total_inflow sm_total_outflow sm_net_delta
    sm_first_movement_height sm_latest_movement_height sm_peak_balance sm_peak_height sm_low_balance
    sm_low_height empty_summary] in *.
  destruct (extreme_fold 1 rows (balance_at chain a (lo - 1), lo)) as (P1 & P2 & P3).
  destruct (extreme_fold (-1) rows (balance_at chain a (lo - 1), lo)) as (L1 & L2 & L3).
  cbn [range_first] in Ep, El. rewrite <-Ep in P1, P2, P3. rewrite <-El in L1, L2, L3. cbn [fst] in *. rewrite Forall_forall in P2, L2.
  assert (∀ k, k ∈ movements chain a lo hi → row_at chain a k ∈ rows) as Hrow by (intros; by apply list_elem_of_fmap_2).
  assert (∀ r, r ∈ rows → bd_balance r = balance_at chain a (bd_block_height r)) as Hbal
    by (intros r (k & -> & _)%list_elem_of_fmap; done).
  split; cbn [range_first range_last].
  - done.
  - done.
  - done.
  - rewrite En, Er4, Er3. apply net_of_range; lia.
  - rewrite Ec, count_fold by (done || by apply movements_count). unfold rows, count, chain_rows. by rewrite length_fmap.
  - rewrite E1, first_fold. unfold rows, chain_rows. by destruct (movements _ _ _ _).
  - rewrite E2, last_height_fold. unfold rows, chain_rows. rewrite fmap_last. by destruct (last (movements _ _ _ _)).
  - rewrite Ei. apply (inflow_fold rows (chain_rows_small a lo hi Hl) 0).
  - rewrite Eo. apply (outflow_fold rows (chain_rows_small a lo hi Hl) 0).
  - intros k Hk. destruct (balance_in_range a lo hi k) as [->|(j & Hj & ->)]; [lia|lia|lia|lia|].
    specialize (P2 _ (Hrow j Hj)). specialize (L2 _ (Hrow j Hj)). cbn in P2, L2. lia.
  - destruct P3 as [[= -> ->]|(r & Hr & [= -> ->])]; [by right|left; by rewrite Hbal].
  - destruct L3 as [[= -> ->]|(r & Hr & [= -> ->])]; [by right|left; by rewrite Hbal].
Qed.

Lemma chain_rows_cut a last s e : 0 <= s < e → e <= last →
  chain_rows chain a s last = chain_rows chain a s e ++ chain_rows chain a e last
  ∧ Forall (λ r, bd_block_height r < e) (chain_rows chain a s e)
  ∧ Forall (λ r, e <= bd_block_height r) (chain_rows chain a e last).
Proof.
  intros Hse He. split_and!.
  - unfold chain_rows at 1. by rewrite (movements_app chain a s e last), fmap_app by lia.
  - apply Forall_fmap, Forall_forall. intros k (Hk & _)%elem_of_movements. cbn. lia.
  - apply Forall_fmap, Forall_forall. intros k (Hk & _)%elem_of_movements. cbn. lia.
Qed.
Lemma bucket_loop_run {A P} (reset : A → A) step (emit : u32 → u32 → A → P) (spec : u32 * u32 → P)
    (Inv : u32 → A → Prop) a last size :
  0 < size → last <= n + 1 →
  (∀ s e acc, 0 <= s < e → e <= last → Inv s acc →
     emit s e (foldl step (reset acc) (chain_rows chain a s e)) = spec (s, e)
     ∧ Inv e (foldl step (reset acc) (chain_rows chain a s e))) →
  ∀ fuel s acc, 0 <= s → (Z.to_nat (last - s) <= fuel)%nat → Inv s acc →
  bucket_loop fuel reset step emit size last s (chain_rows chain a s last) acc = spec <$> buckets s last size.
Proof.
  intros Hs Hl Hstep fuel s acc H0 Hf Hi. pose proof (vc_height _ _ V) as Hn.
  rewrite <-(list_fmap_id (bucket_loop _ _ _ _ _ _ _ _ _)).
  apply (bucket_loop_over (chain_rows chain a) reset step emit id spec Inv);
    [done|lia|by intros; apply chain_rows_cut|done..].
Qed.

Lemma points_of_rows a lo hi size b0 : 0 < size → 0 <= lo < hi → hi <= n + 1 →
  b0 = balance_at chain a (lo - 1) →
  bucket_loop (bucket_fuel {| range_first := lo; range_last := hi |}) series_reset series_row series_point
    size hi lo (chain_rows chain a lo hi)
    {| ta_current_balance := b0; ta_net_delta := 0; ta_change_count := 0; ta_latest_movement_height := None |}
  = chain_point a <$> buckets lo hi size.
Proof.
  intros Hs Hf Hl ->. apply (bucket_loop_run _ _ _ _ (λ s acc, ta_current_balance acc = balance_at chain a (s - 1)));
    [done|done| |lia|unfold bucket_fuel; cbn; lia|done].
  clear lo Hf. intros s e acc Hse He Hacc. set (rows := chain_rows chain a s e).
  assert (ta_current_balance (foldl series_row (series_reset acc) rows) = balance_at chain a (e - 1)) as Eb.
  { rewrite (foldl_field ta_current_balance series_row (λ _ r, bd_balance r)) by done. rewrite last_fold.
    cbn [series_reset ta_current_balance]. unfold rows, chain_rows. rewrite fmap_last.
    assert (∀ j, j ∈ movements chain a s e → s <= j < e) as Hin by (intros j [? _]%elem_of_movements; lia).
    destruct (last (movements chain a s e)) as [k|] eqn:Ek; cbn.
    - assert (k ∈ movements chain a s e) as [Hk Ht]%elem_of_movements.
      { apply last_Some in Ek as [l' ->]. apply elem_of_app. right. by left. }
      symmetry. apply (balance_constant chain n V); [lia|lia|]. intros j Hj Htj.
      assert (j ∈ movements chain a s e) as Hm by (apply elem_of_movements; split; [lia|done]).
      pose proof (movements_sorted chain a s e) as Hsort. apply last_Some in Ek as [l' Ek]. rewrite Ek in Hm, Hsort.
      apply elem_of_app in Hm as [Hm|Hm%list_elem_of_singleton]; [|lia].
      apply StronglySorted_app in Hsort as (Hcross & _ & _).
      specialize (Hcross j k Hm ltac:(by left)). lia.
    - apply last_None in Ek. rewrite Hacc.
      destruct (balance_in_range a s e (e - 1) ltac:(lia) ltac:(lia) ltac:(lia)) as [->|(j & Hj & _)]; [done|].
      rewrite Ek in Hj. by apply elem_of_nil in Hj. }
  split; [|done]. unfold series_point, chain_point. rewrite Eb. cbn [fst snd]. f_equal.
  - rewrite (foldl_field ta_net_delta series_row (λ net r, i64_add net (bd_delta r))) by done.
    apply net_of_range; lia.
  - rewrite (foldl_field ta_change_count series_row (λ c _, u64_add c 1)) by done.
    cbn [series_reset ta_change_count]. rewrite count_fold by (done || apply movements_count; lia).
    unfold rows, count, chain_rows. by rewrite length_fmap.
  - rewrite (foldl_field ta_latest_movement_height series_row (λ _ r, Some (bd_block_height r))) by done.
    rewrite last_height_fold. unfold rows, chain_rows. rewrite fmap_last. by destruct (last (movements _ _ _ _)).
Qed.
Lemma flows_of_rows a lo hi size : 0 < size → 0 <= lo < hi → hi <= n + 1 →
  bucket_loop (bucket_fuel {| range_first := lo; range_last := hi |}) (λ _, flow_zero) flow_row flow_bucket
    size hi lo (chain_rows chain a lo hi) flow_zero
  = chain_flow a <$> buckets lo hi size.
Proof.
  intros Hs Hf Hl. apply (bucket_loop_run _ _ _ _ (λ _ _, True));
    [done|done| |lia|unfold bucket_fuel; cbn; lia|done].
  clear lo Hf. intros s e acc Hse He _. split; [|done]. unfold flow_bucket, chain_flow. cbn [fst snd]. f_equal.
  - rewrite (foldl_field fa_inflow flow_row (λ i r, add_inflow (bd_delta r) i)) by done.
    by apply (inflow_fold _ (chain_rows_small a s e ltac:(lia)) 0).
  - rewrite (foldl_field fa_outflow flow_row (λ o r, add_outflow (bd_delta r) o)) by done.
    by apply (outflow_fold _ (chain_rows_small a s e ltac:(lia)) 0).
  - rewrite (foldl_field fa_net_delta flow_row (λ net r, i64_add net (bd_delta r))) by done.
    apply net_of_range; lia.
  - rewrite (foldl_field fa_change_count flow_row (λ c _, u64_add c 1)) by done.
    cbn [flow_zero fa_change_count]. rewrite count_fold by (done || apply movements_count; lia).
    unfold count, chain_rows. by rewrite length_fmap.
Qed.
End Valid.

(** ** Requests *)

Definition aggregate {A} (range : BlockRange) (n : u32) (reply : Answer A) : Answer A :=
  if range_is_empty range then Invalid
  else match needs (range_last range - 1) n tt with
       | Refused code => Refused code
       | _ => reply
       end.
Definition bucketed {A} (params : GetAddressBalanceBucketsParams) (f : u32 * u32 → A) : Answer (list A) :=
  let range := bk_block_range params in
  let size := bk_bucket_size params in
  if (size =? 0) || (bucket_count (range_first range) (range_last range) size >? MAX_ADDRESS_AGGREGATE_BUCKETS)
  then Invalid else Reply (f <$> buckets (range_first range) (range_last range) size).

Lemma aggregate_guard {A} n v range (k : SnapshotInfo → Json A) (reply : Answer A) :
  serving chain n (moments v) → wf_range range →
  (range_is_empty range = false → 0 < n (now v) → range_last range - 1 <= n (now v) →
     answer_of (k (chain_snapshot chain (n (now v))) (later (later v))).1 = Some reply) →
  answer_of (jbind (validate_aggregate_range network range) k v).1 = Some (aggregate range (n (now v)) reply).
Proof.
  intros Sv Wr Hk. unfold validate_aggregate_range, aggregate, needs. pose proof (sv_at chain n v Sv (now v)).
  destruct (range_is_empty range) eqn:Ee; [done|]. rewrite (range_guard network chain n v Sv) by done.
  destruct (Z.eqb_spec (n (now v)) 0); [done|]. destruct (_ >? _) eqn:Eg; [done|]. b2p. apply Hk; lia || done.
Qed.
Lemma bucket_guard {A} v range size (k : u64 → Json A) (reply : Answer A) :
  wf_range range → range_is_empty range = false → 0 <= size <= U32_MAX →
  (0 < size → ∀ c, answer_of (k c v).1 = Some reply) →
  answer_of (jbind (validate_bucket_params range size) k v).1
  = Some (if (size =? 0) || (bucket_count (range_first range) (range_last range) size
                             >? MAX_ADDRESS_AGGREGATE_BUCKETS) then Invalid else reply).
Proof.
  intros [Hf Hl] He Hs Hk. unfold range_is_empty in He. b2p. unfold validate_bucket_params.
  destruct (Z.eqb_spec size 0) as [->|Hne]; [done|].
  assert (u32_sub (range_last range) (range_first range) = range_last range - range_first range) as ->
    by (unfold u32_sub; apply Z.mod_small; lia).
  unfold bucket_count. cbn [orb]. destruct (_ >? _); [done|]. apply (Hk ltac:(lia)).
Qed.

Section Request.
Context (n : nat → u32) (a : USDBScriptHash) (Ha : u256 a).

Lemma rows_run v range : serving chain n (moments v) → 0 <= range_first range < range_last range →
  range_last range - 1 <= n (now v) →
  get_range_balance_rows a range v
  = (Ok (inr (chain_rows chain a (range_first range) (range_last range))), later v).
Proof. intros Sv Hr Hl. apply internal_run. by apply (range_run chain n v Sv). Qed.
Lemma balance_before_run v first : serving chain n (moments v) → 0 <= first <= n (now v) + 1 → first <= U32_MAX →
  ∃ row v', get_balance_before_range a first v = (Ok (inr row), v')
    ∧ bd_balance row = balance_at chain a (first - 1) ∧ moments v' = moments v ∧ (now v <= now v')%nat.
Proof.
  intros Sv Hf Hu. unfold get_balance_before_range. destruct (Z.eqb_spec first 0) as [->|Hne].
  { exists no_balance, v. split_and!; [done|by rewrite balance_at_before by lia|done|lia]. }
  assert (u32_sub first 1 = first - 1) as -> by (unfold u32_sub; apply Z.mod_small; lia).
  exists (chain_latest chain a (first - 1)), (later v). split_and!; [|by apply (chain_latest_balance chain _ (sv_valid _ _ _ Sv (now v))); lia|done|cbn; lia].
  apply internal_run, (point_run chain n v Sv); [done|lia].
Qed.
Lemma balance_at_end_run v last : serving chain n (moments v) → 1 <= last <= n (now v) + 1 → last <= U32_MAX →
  ∃ row v', get_balance_at_range_end a last v = (Ok (inr row), v') ∧ bd_balance row = balance_at chain a (last - 1).
Proof.
  intros Sv Hf Hu. unfold get_balance_at_range_end.
  assert (u32_sub last 1 = last - 1) as -> by (unfold u32_sub; apply Z.mod_small; lia).
  exists (chain_latest chain a (last - 1)), (later v). split; [|by apply (chain_latest_balance chain _ (sv_valid _ _ _ Sv (now v))); lia].
  apply internal_run, (point_run chain n v Sv); [done|lia].
Qed.
End Request.

(** ** Theorems *)

(** The summary of a range is the one of the chain, whatever the indexer appends meanwhile: balances
    before and at the end of the range, their difference as net delta (no overflow), the number of
    movements, the first and the latest, inflow and outflow modulo 2^64, and the least and the greatest
    balance of any height from the one before the range to its last.  Empty ranges are invalid,
    ranges that are not indexed are refused. *)
Theorem address_summary_correct n v a range :
  serving chain n (moments v) → u256 a → wf_range range →
  ∃ s, answer_of (get_address_balance_summary network
    {| gm_script_hash := a; gm_block_range := range |} v).1
       = Some (aggregate range (n (now v)) (Reply s))
    ∧ (range_is_empty range = false → range_last range - 1 <= n (now v) → summarizes a range s).
Proof.
  intros Sv Ha Wr. destruct range as [first last].
  set (s := foldl summary_row (empty_summary {| range_first := first; range_last := last |}
              (balance_at chain a (first - 1)) (balance_at chain a (last - 1))) (chain_rows chain a first last)).
  exists s. split.
  - apply (aggregate_guard n v _ _ (Reply s) Sv Wr). intros He Hn Hl. unfold range_is_empty in He. b2p. cbn [range_first range_last] in *.
    destruct Wr as [Wf Wl]. cbn [range_first range_last] in *.
    pose proof (sv_forward _ _ _ Sv (now v) (S (S (now v))) ltac:(lia)) as F1.
    pose proof (sv_forward _ _ _ Sv (now v) (S (S (S (now v)))) ltac:(lia)) as F2.
    erewrite jbind_run by (apply (rows_run n a Ha); [exact Sv|cbn; lia|cbn; lia]). cbn [range_first range_last].
    unfold build_address_balance_summary. cbn [range_first range_last].
    destruct (balance_before_run n a Ha (later (later (later v))) first Sv ltac:(cbn; lia) ltac:(lia))
      as (row & v1 & E1 & Eb & Em & Hnow). rewrite (jbind_run _ _ _ _ _ E1).
    assert (serving chain n (moments v1)) as Sv1 by (by rewrite Em).
    pose proof (sv_forward _ _ _ Sv (now v) (now v1) ltac:(cbn in Hnow; lia)) as F3.
    destruct (balance_at_end_run n a Ha v1 last Sv1 ltac:(lia) ltac:(lia)) as (row2 & v2 & E2 & Eb2).
    rewrite (jbind_run _ _ _ _ _ E2). cbn [jret ret fst answer_of]. by rewrite Eb, Eb2.
  - intros He Hl. unfold range_is_empty in He. b2p. destruct Wr as [Wf Wl]. cbn [range_first range_last] in *.
    apply (summary_of_rows (n (now v)) (sv_valid _ _ _ Sv (now v))); lia.
Qed.

(** The time series and the flow buckets of a range are those of the chain: the range is cut into
    buckets of the requested size, the last one possibly shorter, and each point carries the balance
    at the end of its bucket, the change over the bucket, and its movements.  A size of zero and more
    than [MAX_ADDRESS_AGGREGATE_BUCKETS] buckets are invalid. *)
Theorem address_series_correct n v params :
  serving chain n (moments v) → u256 (bk_script_hash params) → wf_range (bk_block_range params) →
  0 <= bk_bucket_size params <= U32_MAX →
  answer_of (get_address_balance_timeseries network params v).1
  = Some (aggregate (bk_block_range params) (n (now v)) (bucketed params (chain_point (bk_script_hash params))))
  ∧ answer_of (get_address_flow_buckets network params v).1
    = Some (aggregate (bk_block_range params) (n (now v)) (bucketed params (chain_flow (bk_script_hash params)))).
Proof.
  intros Sv Ha Wr Hs. destruct params as [a [lo hi] size]. cbn [bk_script_hash bk_block_range bk_bucket_size] in *.
  pose proof (sv_forward _ _ _ Sv (now v) (S (S (now v))) ltac:(lia)) as F1.
  pose proof (sv_forward _ _ _ Sv (now v) (S (S (S (now v)))) ltac:(lia)) as F2.
  split; (apply (aggregate_guard n v _ _ _ Sv Wr); intros He Hn Hl; apply bucket_guard; [done..|]);
    intros Hpos _; unfold range_is_empty in He; b2p; destruct Wr as [Wf Wl]; cbn [range_first range_last] in *;
    (erewrite jbind_run by (apply (rows_run n a Ha); [exact Sv|cbn; lia|cbn; lia])); cbn [range_first range_last].
  - destruct (balance_before_run n a Ha (later (later (later v))) lo Sv ltac:(cbn; lia) ltac:(lia))
      as (row & v1 & E1 & Eb & _). cbn [bk_script_hash bk_block_range range_first]. rewrite (jbind_run _ _ _ _ _ E1).
    cbn [jret ret fst answer_of bk_bucket_size]. do 2 f_equal.
    apply (points_of_rows (n (now v)) (sv_valid _ _ _ Sv (now v))); cbn in *; (done || lia).
  - cbn [jret ret fst answer_of bk_bucket_size bk_script_hash]. do 2 f_equal.
    apply (flows_of_rows (n (now v)) (sv_valid _ _ _ Sv (now v))); cbn in *; lia.
Qed.
End Chain.

(** ** Bounds, whatever the database holds *)

Lemma jbind_inr {A B} (m : Json A) (f : A → Json B) v b v' :
  jbind m f v = (Ok (inr b), v') → ∃ a v1, m v = (Ok (inr a), v1) ∧ f a v1 = (Ok (inr b), v').
Proof. unfold jbind, bind. destruct (m v) as [[[e|a]|e|e] v1]; [done|eauto|done..]. Qed.

(** Rows in increasing order of heights are determined by which rows they are. *)
Lemma increasing_ext (l k : list BalanceHistoryData) :
  StronglySorted (λ x y, bd_block_height x < bd_block_height y) l →
  StronglySorted (λ x y, bd_block_height x < bd_block_height y) k →
  (∀ x, x ∈ l ↔ x ∈ k) → l = k.
Proof.
  assert (∀ l, StronglySorted (λ x y, bd_block_height x < bd_block_height y) l → NoDup l) as Hnd.
  { induction 1 as [|x l' Hs IH Hx]; constructor; [|done]. intros Hin. rewrite Forall_forall in Hx.
    specialize (Hx x Hin). lia. }
  intros Hl Hk E. eapply StronglySorted_unique_strong; [|exact Hl|exact Hk|].
  - intros x y _ _ H1 H2. cbn in H1, H2. lia.
  - by apply NoDup_Permutation; [apply Hnd|apply Hnd|].
Qed.
(** The rows of a script hash in a database with well-formed keys are cut at any height, and there is at
    most one for each height. *)
Lemma rows_cut a d last s e :
  wf_balance_cf (balance_history_cf d) → u256 a → last <= U32_MAX → 0 <= s < e → e <= last →
  rows_in_range a s last d = rows_in_range a s e d ++ rows_in_range a e last d
  ∧ Forall (λ r, bd_block_height r < e) (rows_in_range a s e d)
  ∧ Forall (λ r, e <= bd_block_height r) (rows_in_range a e last d).
Proof.
  intros W Ha Hl Hse He.
  assert (∀ lo hi x, 0 <= lo <= U32_MAX → x ∈ rows_in_range a lo hi d →
    lo <= bd_block_height x < hi) as Hin.
  { intros lo hi x Hlo Hx. apply elem_of_balance_rows in Hx as (k & v & _ & Hk & ->); [exact Hk|done|by split]. }
  assert (∀ lo hi, 0 <= lo <= U32_MAX →
    StronglySorted (λ x y, bd_block_height x < bd_block_height y) (rows_in_range a lo hi d)) as Hsort
    by (intros lo hi Hlo; by apply rows_in_range_sorted).
  split_and!.
  - apply increasing_ext.
    + apply Hsort. lia.
    + apply StronglySorted_app. split_and!; [|apply Hsort; lia..].
      intros x y Hx Hy. apply Hin in Hx, Hy; lia.
    + intros x. rewrite elem_of_app, !elem_of_balance_rows by (done || (split; [done|cbn; lia])).
      split; [intros (k & v & Hk & Hr & ->); destruct (decide (k < e)); [left|right]
             |intros [(k & v & Hk & Hr & ->)|(k & v & Hk & Hr & ->)]];
        exists k, v; (split_and!; [done|lia|lia|done]).
  - apply Forall_forall. intros x Hx. apply Hin in Hx; lia.
  - apply Forall_forall. intros x Hx. apply Hin in Hx; lia.
Qed.
Lemma increasing_count {A} (f : A → Z) (l : list A) hi : ∀ lo,
  StronglySorted (λ x y, f x < f y) l → (∀ x, x ∈ l → lo <= f x < hi) → lo <= hi → count l <= hi - lo.
Proof.
  unfold count. induction l as [|x l IH]; intros lo Hs Hl Hlo; [cbn; lia|].
  apply StronglySorted_inv in Hs as [Hs Hx]. rewrite Forall_forall in Hx.
  specialize (Hl x ltac:(by left)) as Hlx. cbn [length].
  specialize (IH (f x + 1) Hs). assert (Z.of_nat (length l) <= hi - (f x + 1)); [|lia].
  apply IH; [|lia]. intros y Hy. specialize (Hx y Hy). specialize (Hl y ltac:(by right)). lia.
Qed.
Lemma rows_count a d lo hi :
  wf_balance_cf (balance_history_cf d) → u256 a → 0 <= lo <= U32_MAX → lo <= hi →
  count (rows_in_range a lo hi d) <= hi - lo.
Proof.
  intros W Ha Hlo Hhi. apply (increasing_count bd_block_height); [|..|done].
  - by apply rows_in_range_sorted.
  - intros x Hx. apply elem_of_balance_rows in Hx as (k & v & _ & Hk & ->); [exact Hk|done|by split].
Qed.

(** What the buckets say of the rows: their bounds and how many rows lie in each, which no [u64]
    counter wraps. *)
Lemma bucket_loop_counts {A P} (reset : A → A) step (emit : u32 → u32 → A → P)
    (f : P → u32 * u32 * u64) (counter : A → u64) a d first last size acc :
  wf_balance_cf (balance_history_cf d) → u256 a → 0 < size → 0 <= first → last <= U32_MAX →
  (∀ s e acc, f (emit s e acc) = (s, e, counter acc)) →
  (∀ acc r, counter (step acc r) = u64_add (counter acc) 1) → (∀ acc, counter (reset acc) = 0) →
  f <$> bucket_loop (bucket_fuel {| range_first := first; range_last := last |}) reset step emit size
          last first (rows_in_range a first last d) acc
  = (λ b, (b.1, b.2, count (rows_in_range a b.1 b.2 d))) <$> buckets first last size.
Proof.
  intros W Ha Hs Hf Hl Hemit Hstep Hreset.
  apply (bucket_loop_over (λ s e, rows_in_range a s e d) _ _ _ _ _ (λ _ _, True));
    [done|done|by intros; apply rows_cut| |done|unfold bucket_fuel; cbn; lia|done].
  intros s e acc' Hse He _. split; [|done]. rewrite Hemit. cbn [fst snd]. f_equal.
  rewrite (foldl_field counter step (λ c _, u64_add c 1)) by done. rewrite Hreset.
  pose proof (rows_count a d s e W Ha ltac:(lia) ltac:(lia)) as Hc.
  apply (count_fold _ 0); [done|]. unfold U32_MAX, U64_MAX in *. lia.
Qed.
Lemma elem_of_buckets first last size b : 0 < size →
  b ∈ buckets first last size ↔
  ∃ i, 0 <= i ∧ first + i * size < last ∧ b = (first + i * size, Z.min (first + (i + 1) * size) last).
Proof.
  intros Hs. unfold buckets. rewrite list_elem_of_fmap. unfold bucket_count.
  assert (∀ i, 0 <= i → i <= (last - first + size - 1) / size - 1 ↔ first + i * size < last) as Hi.
  { intros i Hi. assert (i + 1 <= (last - first + size - 1) / size ↔ first + i * size < last); [|lia]. split.
    - intros Hle. pose proof (Z.mul_div_le (last - first + size - 1) size Hs). nia.
    - intros Hlt. apply Z.div_le_lower_bound; nia. }
  split.
  - intros (i & -> & Hin%elem_of_heights). exists i. split; [lia|]. split; [apply Hi; lia|done].
  - intros (i & H0 & Hlt & ->). exists i. split; [done|]. apply elem_of_heights. split; [done|]. by apply Hi.
Qed.
(** A list with a point for each bucket has their number, and each height lies in one bucket. *)
Lemma bucket_points {P Q} (f : P → Q) (g : u32 * u32 → Q) pts first last size :
  0 < bucket_count first last size → f <$> pts = g <$> buckets first last size →
  count pts = bucket_count first last size.
Proof.
  intros Hc E. unfold count. rewrite <-(length_fmap f pts), E. unfold buckets, heights.
  rewrite !length_fmap, length_seq. lia.
Qed.
Lemma in_one_bucket first last size h : 0 < size → first <= h < last →
  ∃ b, (b ∈ buckets first last size ∧ b.1 <= h < b.2)
       ∧ ∀ b', b' ∈ buckets first last size → b'.1 <= h < b'.2 → b' = b.
Proof.
  intros Hpos Hh. set (i := (h - first) / size).
  pose proof (Z.mul_div_le (h - first) size Hpos) as H1.
  pose proof (Z.mul_succ_div_gt (h - first) size Hpos) as H2. fold i in H1, H2.
  assert (0 <= i) by (apply Z.div_pos; lia).
  exists (first + i * size, Z.min (first + (i + 1) * size) last). split.
  - split; [|cbn; nia]. apply elem_of_buckets; [done|]. exists i. split; [done|]. split; [nia|done].
  - intros b (j & Hj & Hlt & ->)%elem_of_buckets Hb; [|done]. cbn in Hb.
    assert (i = j) as <-; [|done].
    assert (j <= i < j + 1); [|lia]. split; [apply Z.div_le_lower_bound; nia|apply Z.div_lt_upper_bound; nia].
Qed.
Section Bounds.
Context `{BitcoinCrate} (network : string).

(** What an accepted request has read. *)
Lemma consensus_error_fails {A} code data v (a : A) v' : consensus_error code data v ≠ (Ok (inr a), v').
Proof. unfold consensus_error, bind. by destruct (data v) as [[?|?|?] ?]. Qed.
Lemma validated_moments range v s v' :
  validate_aggregate_range network range v = (Ok (inr s), v') → moments v' = moments v.
Proof.
  unfold validate_aggregate_range, validate_requested_range. destruct (range_is_empty range); [done|].
  intros (snap & v1 & E1 & E)%jbind_inr. unfold resolve_queryable_snapshot in E1.
  apply jbind_inr in E1 as (snap1 & v2 & E2 & E1). injection E2 as _ <-.
  destruct (_ || _); [by apply consensus_error_fails in E1|]. injection E1 as <- <-.
  destruct (_ && _); [by apply consensus_error_fails in E|]. by injection E as _ <-.
Qed.
Lemma read_rows a range v rows v' :
  get_range_balance_rows a range v = (Ok (inr rows), v') →
  rows = rows_in_range a (range_first range) (range_last range) (mo_db (moment v)).
Proof.
  unfold get_range_balance_rows, internal, query, get_balance_in_range. unfold bind, try, assert.
  destruct (_ <? _); [|done]. by intros [= <- _].
Qed.
Lemma params_same_view range size v c v' : validate_bucket_params range size v = (Ok (inr c), v') → v' = v.
Proof. unfold validate_bucket_params. destruct (_ =? 0); [done|]. destruct (_ >? _); [done|]. by intros [= _ <-]. Qed.
Lemma series_reads v params pts v' :
  get_address_balance_timeseries network params v = (Ok (inr pts), v') →
  ∃ v1 c v2, validate_bucket_params (bk_block_range params) (bk_bucket_size params) v1 = (Ok (inr c), v2)
    ∧ ∃ t b, pts = bucket_loop (bucket_fuel (bk_block_range params)) series_reset series_row series_point
        (bk_bucket_size params) (range_last (bk_block_range params)) (range_first (bk_block_range params))
        (rows_in_range (bk_script_hash params) (range_first (bk_block_range params))
           (range_last (bk_block_range params)) (mo_db (moments v t))) b.
Proof.
  unfold get_address_balance_timeseries. intros (a & v1 & Ea & E)%jbind_inr. apply jbind_inr in E as (c & v2 & Ec & E).
  apply jbind_inr in E as (rows & v3 & Er & E). apply jbind_inr in E as (b & v4 & _ & [= <- _]).
  apply read_rows in Er as ->. apply validated_moments in Ea as <-. exists v1, c, v2. split; [exact Ec|].
  apply params_same_view in Ec as ->. by eexists (now v1), _.
Qed.
Lemma flows_read v params pts v' :
  get_address_flow_buckets network params v = (Ok (inr pts), v') →
  ∃ v1 c v2, validate_bucket_params (bk_block_range params) (bk_bucket_size params) v1 = (Ok (inr c), v2)
    ∧ ∃ t b, pts = bucket_loop (bucket_fuel (bk_block_range params)) (λ _, flow_zero) flow_row flow_bucket
        (bk_bucket_size params) (range_last (bk_block_range params)) (range_first (bk_block_range params))
        (rows_in_range (bk_script_hash params) (range_first (bk_block_range params))
           (range_last (bk_block_range params)) (mo_db (moments v t))) b.
Proof.
  unfold get_address_flow_buckets. intros (a & v1 & Ea & E)%jbind_inr. apply jbind_inr in E as (c & v2 & Ec & E).
  apply jbind_inr in E as (rows & v3 & Er & [= <- _]).
  apply read_rows in Er as ->. apply validated_moments in Ea as <-. exists v1, c, v2. split; [exact Ec|].
  apply params_same_view in Ec as ->. by exists (now v1), flow_zero.
Qed.
Lemma accepted_buckets range size v c v' :
  wf_range range → range_is_empty range = false → 0 <= size <= U32_MAX →
  validate_bucket_params range size v = (Ok (inr c), v') →
  0 < size ∧ c = bucket_count (range_first range) (range_last range) size ∧ 0 < c <= MAX_ADDRESS_AGGREGATE_BUCKETS.
Proof.
  intros [Hf Hl] He Hs. unfold validate_bucket_params, range_is_empty in *. b2p.
  destruct (Z.eqb_spec size 0); [done|].
  assert (u32_sub (range_last range) (range_first range) = range_last range - range_first range) as ->
    by (unfold u32_sub; apply Z.mod_small; lia).
  destruct (_ >? _) eqn:Eg; [done|]. intros [= <- _]. b2p. split; [lia|]. split; [done|].
  split; [apply Z.div_str_pos; lia|]. unfold MAX_ADDRESS_AGGREGATE_BUCKETS in *. lia.
Qed.

(** C27. No reply has more than [MAX_ADDRESS_AGGREGATE_BUCKETS] buckets, whatever rows the database holds,
    and for every range and size: the loops run once per bucket of the requested size, and the buckets
    lie in the range, are not empty, are at most as long as requested, and every height of the range is
    in exactly one.  The change count of each bucket is the number of rows of the script hash with a
    height in the bucket, at most one for each height, so that the counter does not overflow. *)
Theorem bucket_replies_bounded v params :
  u256 (bk_script_hash params) → (∀ t, wf_balance_cf (balance_history_cf (mo_db (moments v t)))) →
  wf_range (bk_block_range params) → range_is_empty (bk_block_range params) = false →
  0 <= bk_bucket_size params <= U32_MAX →
  let bs := buckets (range_first (bk_block_range params)) (range_last (bk_block_range params)) (bk_bucket_size params) in
  let rows t b := rows_in_range (bk_script_hash params) b.1 b.2 (mo_db (moments v t)) in
  (∀ pts v', get_address_balance_timeseries network params v = (Ok (inr pts), v') →
     0 < count pts <= MAX_ADDRESS_AGGREGATE_BUCKETS
     ∧ ∃ t, (λ p, (tp_bucket_start p, tp_bucket_end p, tp_change_count p)) <$> pts
            = (λ b, (b.1, b.2, count (rows t b))) <$> bs)
  ∧ (∀ pts v', get_address_flow_buckets network params v = (Ok (inr pts), v') →
     0 < count pts <= MAX_ADDRESS_AGGREGATE_BUCKETS
     ∧ ∃ t, (λ p, (fb_bucket_start p, fb_bucket_end p, fb_change_count p)) <$> pts
            = (λ b, (b.1, b.2, count (rows t b))) <$> bs)
  ∧ (0 < bk_bucket_size params →
     (∀ b, b ∈ bs → range_first (bk_block_range params) <= b.1 < b.2
                    ∧ b.2 <= range_last (bk_block_range params) ∧ b.2 - b.1 <= bk_bucket_size params
                    ∧ ∀ t, count (rows t b) <= b.2 - b.1)
     ∧ ∀ h, range_first (bk_block_range params) <= h < range_last (bk_block_range params) →
            ∃ b, (b ∈ bs ∧ b.1 <= h < b.2) ∧ ∀ b', b' ∈ bs → b'.1 <= h < b'.2 → b' = b).
Proof.
  destruct params as [a [first last] size]. intros Ha W Wr He Hs bs rows.
  cbn [bk_script_hash bk_block_range bk_bucket_size range_first range_last] in *.
  pose proof Wr as [Wf Wl]. cbn [range_first range_last] in Wf, Wl.
  split_and!.
  - intros pts v' (v1 & c & v2 & Ec & t & b & ->)%series_reads.
    apply accepted_buckets in Ec as (Hpos & -> & Hc); [|done..].
    pose proof (bucket_loop_counts series_reset series_row series_point
      (λ p, (tp_bucket_start p, tp_bucket_end p, tp_change_count p)) ta_change_count a (mo_db (moments v t)) first last
      size b (W t) Ha Hpos ltac:(lia) ltac:(lia) ltac:(done) ltac:(done) ltac:(done)) as E.
    split; [|by exists t]. by rewrite <-(bucket_points _ _ _ _ _ _ (proj1 Hc) E) in Hc.
  - intros pts v' (v1 & c & v2 & Ec & t & b & ->)%flows_read.
    apply accepted_buckets in Ec as (Hpos & -> & Hc); [|done..].
    pose proof (bucket_loop_counts (λ _, flow_zero) flow_row flow_bucket
      (λ p, (fb_bucket_start p, fb_bucket_end p, fb_change_count p)) fa_change_count a (mo_db (moments v t)) first last
      size b (W t) Ha Hpos ltac:(lia) ltac:(lia) ltac:(done) ltac:(done) ltac:(done)) as E.
    split; [|by exists t]. by rewrite <-(bucket_points _ _ _ _ _ _ (proj1 Hc) E) in Hc.
  - intros Hpos. split; [|intros h Hh; by apply in_one_bucket].
    intros b (i & Hi & Hlt & ->)%elem_of_buckets; [|done]. cbn [fst snd]. split_and!; [nia..|].
    intros t. apply rows_count; [done..| |]; nia.
Qed.
End Bounds.

(** ** Witnesses: the first script of the demonstration chain, over both blocks *)

Section Witness.
#[local] Existing Instances demo_crate demo_lru.

Definition demo_late_view : View := {| now := 2; moments := demo_moment |}.
Definition demo_range : BlockRange := {| range_first := 1; range_last := 3 |}.
Definition demo_buckets : GetAddressBalanceBucketsParams :=
  {| bk_script_hash := to_usdb_script_hash [1]; bk_block_range := demo_range; bk_bucket_size := 1 |}.

Lemma demo_range_wf : wf_range demo_range.
Proof. unfold wf_range, demo_range, U32_MAX. cbn. lia. Qed.
Lemma demo_keys t : wf_balance_cf (balance_history_cf (mo_db (moments demo_late_view t))).
Proof.
  pose proof (sv_valid _ _ _ demo_serving t) as V. pose proof (sv_indexed _ _ _ demo_serving t) as I.
  exact (indexed_rows_wf (Laws := demo_crate_laws) demo_chain (demo_height t) V _ I).
Qed.
Lemma demo_hash_range : u256 (to_usdb_script_hash [1]).
Proof. by vm_compute. Qed.

(** It receives 50 and then pays 30: it ends at 20, and its greatest balance was 50. *)
Lemma address_summary_correct_witness :
  ∃ s, answer_of (get_address_balance_summary "regtest"
    {| gm_script_hash := to_usdb_script_hash [1]; gm_block_range := demo_range |} demo_late_view).1
       = Some (Reply s)
    ∧ sm_end_balance s = 20 ∧ sm_net_delta s = 20 ∧ 50 <= sm_peak_balance s.
Proof.
  destruct (address_summary_correct (Laws := demo_crate_laws) "regtest" demo_chain demo_height demo_late_view
    (to_usdb_script_hash [1]) demo_range demo_serving demo_hash_range demo_range_wf) as (s & E & Hs).
  exists s. split; [rewrite E; by vm_compute|]. assert (range_last demo_range - 1 <= demo_height 2) as Hr by by vm_compute.
  specialize (Hs eq_refl Hr).
  pose proof (su_end _ _ _ _ Hs) as He. pose proof (su_start _ _ _ _ Hs) as Hst. pose proof (su_net _ _ _ _ Hs) as Hn.
  assert (range_first demo_range - 1 <= 1 <= range_last demo_range - 1) as Hk by (cbn; lia).
  pose proof (su_bounds _ _ _ _ Hs 1 Hk) as Hb.
  assert (balance_at demo_chain (to_usdb_script_hash [1]) 2 = 20) as E2 by by vm_compute.
  assert (balance_at demo_chain (to_usdb_script_hash [1]) 0 = 0) as E0 by by vm_compute.
  assert (balance_at demo_chain (to_usdb_script_hash [1]) 1 = 50) as E1 by by vm_compute.
  cbn [demo_range range_first range_last] in *. change (3 - 1) with 2 in *. change (1 - 1) with 0 in *.
  rewrite E1 in Hb. rewrite E2 in He. rewrite E0 in Hst. lia.
Defined.

Lemma address_series_correct_witness :
  ∃ pts, answer_of (get_address_balance_timeseries "regtest" demo_buckets demo_late_view).1 = Some (Reply pts)
    ∧ (λ p, (tp_bucket_start p, tp_bucket_end p, tp_balance p, tp_net_delta p)) <$> pts
      = [(1, 2, 50, 50); (2, 3, 20, -30)].
Proof.
  eexists. split.
  - etrans; [exact (proj1 (address_series_correct (Laws := demo_crate_laws) "regtest" demo_chain demo_height
      demo_late_view demo_buckets demo_serving demo_hash_range demo_range_wf ltac:(done)))|].
    by vm_compute.
  - by vm_compute.
Defined.

Lemma bucket_replies_bounded_witness :
  ∃ pts v', get_address_balance_timeseries "regtest" demo_buckets demo_late_view = (Ok (inr pts), v')
    ∧ 0 < count pts <= 2000.
Proof.
  assert (∃ l, answer_of (get_address_balance_timeseries "regtest" demo_buckets demo_late_view).1 = Some (Reply l))
    as [l Hl] by (eexists; by vm_compute).
  destruct (get_address_balance_timeseries "regtest" demo_buckets demo_late_view) as [[[e|pts]|e|e] v'] eqn:E;
    [by destruct e|exists pts, v'; split; [reflexivity|]|discriminate Hl|discriminate Hl].
  assert (0 <= bk_bucket_size demo_buckets <= U32_MAX) as Hs by (clear; done).
  destruct (bucket_replies_bounded "regtest" demo_late_view demo_buckets demo_hash_range demo_keys demo_range_wf
    eq_refl Hs) as (Hb & _).
  destruct (Hb pts v' E) as [Hc _]. exact Hc.
Defined.
End Witness.
