(* ===== verification/BalanceReadiness.v ===== *)
(** * Readiness and pinned state references

    What [readiness_info] of [service/server.rs] promises when it reports readiness for consensus, and
    what [get_state_ref_at_height] answers to a caller that pins the state it expects. *)

From S2P Require Import Prelude Encoding Types Tx BalanceCodec BalanceDb BalanceDbFacts BalanceBlock.
From S2P Require Import BalanceChain BalanceDemo BalanceIndexer StateIds BalanceService BalanceServer.
From S2P Require Import ServedRows BalanceQueries.

(** ** Readiness *)

Lemma when_nil {A} b (x : A) : when b x = [] ↔ b = false.
Proof. by destruct b. Qed.
Lemma phase_blockers_nil p :
  phase_blockers p = [] ↔ match p with Initializing | Loading => true | _ => false end = false.
Proof. by destruct p. Qed.

Lemma bind_inv {S A B} (m : M S A) (f : A → M S B) s b s' :
  bind m f s = (Ok b, s') → ∃ a s1, m s = (Ok a, s1) ∧ f a s1 = (Ok b, s').
Proof. unfold bind. destruct (m s) as [[a|e|e] s1]; [eauto|done..]. Qed.

Lemma jbind_assoc {A B C} (m : Json A) (f : A → Json B) (g : B → Json C) v :
  jbind (jbind m f) g v = jbind m (λ a, jbind (f a) g) v.
Proof. unfold jbind. rewrite bind_assoc. unfold bind. by destruct (m v) as [[[]|?|?] ?]. Qed.

(** What the accesses of a readiness report leave of it. *)
Record reported (v : View) (r : ReadinessInfo) (unverified : bool) : Prop := {
  rp_height : rd_stable_height r = Some (default 0 (meta_cf (mo_db (moments v (2 + now v))) !! META_KEY_BTC_BLOCK_HEIGHT));
  rp_commit : let commit := block_commits_cf (mo_db (moments v (3 + now v)))
                !! default 0 (meta_cf (mo_db (moments v (2 + now v))) !! META_KEY_BTC_BLOCK_HEIGHT) in
    rd_stable_block_hash r = (λ entry, reversed_hex (cm_btc_block_hash entry)) <$> commit
    ∧ rd_latest_block_commit r = (λ entry, encode_hex (cm_block_commit entry)) <$> commit;
  rp_query_ready : rd_query_ready r = rd_rpc_alive r
    && negb (rt_rollback_in_progress (runtime_readiness (mo_manager (moments v (1 + now v)))))
    && negb (rt_shutdown_requested (runtime_readiness (mo_manager (moments v (1 + now v)))))
    && negb (match rd_phase r with Initializing | Loading => true | _ => false end);
  rp_consensus_ready : rd_consensus_ready r = rd_query_ready r && (rd_current r >=? rd_total r)
    && negb (is_none (rd_stable_block_hash r)) && negb (is_none (rd_latest_block_commit r)) && negb unverified;
  rp_blockers : rd_blockers r =
    when (negb (rd_rpc_alive r)) RpcNotListening ++ phase_blockers (rd_phase r)
    ++ when (rt_rollback_in_progress (runtime_readiness (mo_manager (moments v (1 + now v))))) RollbackInProgress
    ++ when (rt_shutdown_requested (runtime_readiness (mo_manager (moments v (1 + now v))))) ShutdownRequested
    ++ when (bool_decide (rd_phase r = Indexing) && (rd_total r >? 0) && (rd_current r <? rd_total r)) CatchingUp
    ++ when (is_none (rd_stable_block_hash r)) StableBlockHashMissing
    ++ when (is_none (rd_latest_block_commit r)) LatestBlockCommitMissing
    ++ when unverified SnapshotInstallUnverified
}.
Lemma readiness_reported v r v' : readiness_info v = (Ok r, v') → ∃ unverified, reported v r unverified.
Proof.
  unfold readiness_info, get_btc_block_height, get_block_commit. intros E.
  apply bind_inv in E as (st & v1 & [= <- <-] & E). apply bind_inv in E as (rt & v2 & [= <- <-] & E).
  rewrite (bind_run _ _ _ _ _ (reads_run _ _)), (bind_run _ _ _ _ _ (reads_run _ _)) in E.
  apply bind_inv in E as (reg & v3 & _ & E). apply bind_inv in E as (prov & v4 & _ & E).
  apply bind_inv in E as (used & v5 & _ & E). apply bind_inv in E as (ver & v6 & _ & E).
  injection E as <- _. by exists (used && bool_decide (ver = Some false)).
Qed.

Section Readiness.
Context `{BitcoinCrate} {Laws : BitcoinCrateLaws} (network : string) (chain : u32 → BtcBlock).

(** The report shows the hash and the commit of one block of the chain. *)
Definition shows_block (r : ReadinessInfo) (h : u32) : Prop :=
  rd_stable_height r = Some h
  ∧ rd_stable_block_hash r = Some (reversed_hex (block_hash (chain h)))
  ∧ rd_latest_block_commit r = Some (encode_hex (cm_block_commit (chain_commit chain h))).

(** A report of readiness for consensus over a database that moves forward: the service is ready
    for queries, it is reported exactly when there is no blocker and the progress has reached its
    total, and the hash and the commit it shows are those of the chain at a height the database had
    reached when it was read. *)
Theorem readiness_correct n v r v' :
  serving chain n (moments v) → readiness_info v = (Ok r, v') →
  (rd_consensus_ready r = true ↔ rd_blockers r = [] ∧ rd_total r <= rd_current r)
  ∧ (rd_query_ready r = false → rd_blockers r ≠ [])
  ∧ (rd_consensus_ready r = true → rd_query_ready r = true ∧ ∃ t, (now v <= t)%nat
      ∧ 1 <= n t ∧ shows_block r (n t)).
Proof.
  intros Sv (u & [Hh [Hb Hc] Hq Hr Hl])%readiness_reported.
  pose proof (sv_forward _ _ _ Sv (now v) (2 + now v) ltac:(lia)) as F1.
  pose proof (sv_forward _ _ _ Sv (2 + now v) (3 + now v) ltac:(lia)) as F2.
  rewrite (ix_height _ _ _ (sv_indexed _ _ _ Sv (2 + now v))) in *.
  rewrite (ix_commits _ _ _ (sv_indexed _ _ _ Sv (3 + now v))) in Hb, Hc.
  split_and!.
  - rewrite Hr, Hl, Hq. rewrite !app_nil, !when_nil, phase_blockers_nil.
    rewrite !andb_true_iff, !negb_true_iff, negb_false_iff, Z.geb_leb, Z.leb_le.
    rewrite !andb_false_iff, Z.ltb_ge. intuition.
  - rewrite Hl, Hq. intros Hf E. rewrite !app_nil, !when_nil, phase_blockers_nil in E.
    destruct E as (E1 & E2 & E3 & E4 & _). apply negb_false_iff in E1. by rewrite E1, E2, E3, E4 in Hf.
  - rewrite Hr. rewrite !andb_true_iff. intros [[[[-> _] Hhash] _] _]. split; [done|].
    exists (2 + now v)%nat. destruct (decide (1 <= n (2 + now v)%nat <= n (3 + now v)%nat)) as [Hd|Hd].
    + split_and!; [lia|lia|]. unfold shows_block. by rewrite Hb, Hc.
    + by rewrite Hb in Hhash.
Qed.

(** ** Pinned state references *)

Definition mismatch {A} `{EqDecision A} (expected : option A) (actual : A) : bool :=
  match expected with Some e => negb (bool_decide (e = actual)) | None => false end.
(** The first selector that does not hold. *)
Definition first_mismatch (e : ConsensusStateReference) (r : HistoricalSnapshotStateRef) :
    option ConsensusRpcErrorCode :=
  let identity := hs_consensus_identity r in
  if mismatch (rf_snapshot_id e) (hs_snapshot_id r) || mismatch (rf_stable_height e) (hs_block_height r)
  then Some SnapshotIdMismatch
  else if mismatch (rf_stable_block_hash e) (hs_stable_block_hash r) then Some BlockHashMismatch
  else if mismatch (rf_balance_history_api_version e) (cs_balance_history_api_version identity)
          || mismatch (rf_balance_history_semantics_version e) (cs_balance_history_semantics_version identity)
          || mismatch (rf_usdb_index_protocol_version e) (cs_usdb_index_protocol_version identity)
  then Some VersionMismatch else None.
(** The state reference of a height of the chain. *)
Definition chain_state_ref (h : u32) : HistoricalSnapshotStateRef := state_ref_of network h (chain_commit chain h).
Definition state_ref_service (n : u32) (params : GetStateRefAtHeightParams) : Answer HistoricalSnapshotStateRef :=
  let h := gr_block_height params in
  let expected := from_option cx_expected_state default_reference (gr_context params) in
  if mismatch (gr_context params ≫= cx_requested_height) h then Invalid
  else match needs h n tt with
       | Refused code => Refused code
       | _ => if h <? 1 then Refused HistoryNotAvailable
              else match first_mismatch expected (chain_state_ref h) with
                   | Some code => Refused code
                   | None => Reply (chain_state_ref h)
                   end
       end.

Lemma error_for_state_run {A} code rh expected actual detail v :
  answer_of (A := A) (consensus_error code
    (build_consensus_error_data_for_state rh expected actual detail) v).1 = Some (Refused code).
Proof. by destruct (consensus_error_run (A := A) code rh expected actual detail v) as (? & ? & ->). Qed.
(** One check, in front of the others. *)
Lemma expect_equal_run {A B} `{EqDecision A} code h expected actual detail (e : option A) x (k : unit → Json B) v :
  answer_of (jbind (expect_equal code h expected actual detail e x) k v).1
  = if mismatch e x then Some (Refused code) else answer_of (k tt v).1.
Proof.
  unfold expect_equal, mismatch. destruct e as [e|]; [|done]. destruct (bool_decide _); [done|].
  apply jbind_refused, error_for_state_run.
Qed.
Lemma expected_state_run {B} h r e (k : unit → Json B) v :
  answer_of (jbind (validate_historical_state_ref_expected_state h r e) k v).1
  = match first_mismatch e r with Some code => Some (Refused code) | None => answer_of (k tt v).1 end.
Proof.
  unfold validate_historical_state_ref_expected_state, first_mismatch. destruct (is_empty e) eqn:Ee.
  - unfold is_empty in Ee. rewrite !andb_true_iff in Ee.
    assert (∀ (A : Type) (o : option A), is_none o = true → o = None) as Hn by (by intros A []).
    destruct Ee as [[[[[[[->%Hn ->%Hn] ->%Hn] ->%Hn] ->%Hn] ->%Hn] _] _]. done.
  - rewrite !jbind_assoc, expect_equal_run. destruct (mismatch (rf_snapshot_id e) _); [done|].
    rewrite !jbind_assoc, expect_equal_run. destruct (mismatch (rf_stable_height e) _); [done|].
    rewrite !jbind_assoc, expect_equal_run. destruct (mismatch (rf_stable_block_hash e) _); [done|].
    rewrite !jbind_assoc, expect_equal_run. destruct (mismatch (rf_balance_history_api_version e) _); [done|].
    rewrite !jbind_assoc, expect_equal_run. destruct (mismatch (rf_balance_history_semantics_version e) _); [done|].
    rewrite expect_equal_run. by destruct (mismatch (rf_usdb_index_protocol_version e) _).
Qed.

(** The state reference of a height is a function of the chain, whenever it is asked for and whatever
    the indexer appends meanwhile; it is returned exactly when every selector that the caller pins
    holds of it, and otherwise the first kind of selector that fails is reported. *)
Theorem state_ref_correct n v params : serving chain n (moments v) →
  answer_of (get_state_ref_at_height network params v).1 = Some (state_ref_service (n (now v)) params).
Proof.
  intros Sv. destruct params as [h context]. unfold get_state_ref_at_height, state_ref_service, needs.
  cbn [gr_block_height gr_context].
  assert (validate_consensus_query_context h context v
    = if mismatch (context ≫= cx_requested_height) h
      then (Ok (inl (InvalidParams "ConsensusQueryContext.requested_height does not match block_height")), v)
      else (Ok (inr (from_option cx_expected_state default_reference context)), v)) as Ec.
  { unfold validate_consensus_query_context, mismatch. destruct context as [[[q|] e]|]; cbn; [|done|done].
    destruct (Z.eqb_spec q h) as [->|Hne]; cbn; [by rewrite bool_decide_true|by rewrite bool_decide_false]. }
  destruct (mismatch _ h); [by rewrite (jbind_err _ _ _ _ _ Ec)|]. rewrite (jbind_run _ _ _ _ _ Ec).
  unfold build_state_ref_at_height.
  rewrite jbind_assoc, (height_guard network chain n v Sv). pose proof (sv_at chain n v Sv (now v)) as H0.
  destruct (Z.eqb_spec (n (now v)) 0) as [|Hn]; [done|]. destruct (h >? n (now v)) eqn:Eg; [done|]. b2p.
  rewrite jbind_assoc. set (w := later (later v)).
  pose proof (sv_forward _ _ _ Sv (now v) (now w) ltac:(cbn; lia)) as Hf.
  assert (build_historical_state_ref_at_height network h w
    = (Ok (if decide (1 <= h) then Some (chain_state_ref h) else None), later w)) as Eb.
  { unfold build_historical_state_ref_at_height, get_block_commit. rewrite (bind_run _ _ _ _ _ (reads_run _ _)).
    unfold moment. change (moments w) with (moments v).
    rewrite (ix_commits _ _ _ (sv_indexed _ _ _ Sv (now w))). unfold w in *. cbn [now later] in *.
    destruct (decide (1 <= h)); [by rewrite decide_True by lia|by rewrite decide_False by lia]. }
  rewrite (jbind_run _ _ _ _ _ (internal_run _ _ _ _ _ Eb)).
  destruct (decide (1 <= h)) as [H1|H1].
  - rewrite (proj2 (Z.ltb_ge h 1)) by lia. unfold jret at 1. erewrite jbind_run by reflexivity.
    rewrite expected_state_run. by destruct (first_mismatch _ _).
  - rewrite (proj2 (Z.ltb_lt h 1)) by lia. apply jbind_refused.
    unfold try, bind at 1. destruct (build_snapshot_info (later w)) as [[s|e|e] w'] eqn:Es.
    + apply refused_run.
    + apply refused_run.
    + by rewrite (snapshot_run chain n (later w) Sv) in Es.
Qed.
End Readiness.

(** ** Witnesses *)

Section Witness.
#[local] Existing Instances demo_crate.

Definition ok_value {A} (r : result A) : option A := match r with Ok a => Some a | _ => None end.
(** The demonstration node is reported ready for consensus at height 2. *)
Definition demo_readiness : result ReadinessInfo * View :=
  readiness_info {| now := 2; moments := moments demo_view |}.
Lemma readiness_correct_witness :
  (λ r, (rd_consensus_ready r, rd_blockers r, rd_stable_height r)) <$> ok_value (demo_readiness.1)
    = Some (true, [], Some 2)
  ∧ ∃ r h, shows_block demo_chain r h.
Proof.
  split; [by vm_compute|].
  assert (rd_consensus_ready <$> ok_value demo_readiness.1 = Some true) as Hr by (by vm_compute).
  destruct demo_readiness as [[r|e|e] v'] eqn:E; [|clear E; discriminate Hr..].
  destruct (readiness_correct demo_chain demo_height
    {| now := 2; moments := moments demo_view |} r v' demo_serving E) as (_ & _ & H).
  injection Hr as Hr. destruct (H Hr) as (_ & t & _ & _ & Hb).
  exact (ex_intro _ r (ex_intro _ (demo_height t) Hb)).
Defined.

Definition demo_ref (h : u32) (height : option u32) : GetStateRefAtHeightParams :=
  {| gr_block_height := h;
     gr_context := Some {| cx_requested_height := Some h;
                           cx_expected_state := {| rf_snapshot_id := None; rf_stable_height := height;
                             rf_stable_block_hash := None; rf_balance_history_api_version := None;
                             rf_balance_history_semantics_version := None;
                             rf_usdb_index_protocol_version := None;
                             rf_local_state_commit := None; rf_system_state_id := None |} |} |}.

(** The reference of height 1 is returned to a caller that expects height 1, and refused to a caller that
    expects height 2; height 0 has no reference. *)
Lemma state_ref_correct_witness :
  answer_of (get_state_ref_at_height "regtest" (demo_ref 1 (Some 1)) demo_view).1
    = Some (Reply (chain_state_ref "regtest" demo_chain 1))
  ∧ answer_of (get_state_ref_at_height "regtest" (demo_ref 1 (Some 2)) demo_view).1
    = Some (Refused SnapshotIdMismatch)
  ∧ answer_of (get_state_ref_at_height "regtest" (demo_ref 0 None) demo_view).1
    = Some (Refused HistoryNotAvailable).
Proof.
  rewrite !(state_ref_correct "regtest" demo_chain demo_height demo_view _ demo_serving).
  by vm_compute.
Defined.
End Witness.
