(* ===== verification/SnapshotDb.v ===== *)
(** * The snapshot file of balance-history

    [balance-history/src/db/snapshot.rs], [SnapshotDB]: an SQLite file with one table per column
    family that a snapshot carries, and its metadata.  A blob is a list of bytes and sorts byte by
    byte; an [INTEGER] is an [i64].  A file of someone else may hold blobs of any length, so reading a
    row can fail; the types of its columns are those of the schema.  The connection, its pragmas and
    the migration of old files are not modelled. *)

From S2P Require Import Prelude Encoding Types BalanceCodec BalanceDb.

Definition SNAPSHOT_DB_VERSION : u32 := 2.
Record SnapshotMeta := {
  sm_block_height : u32;
  sm_balance_history_count : u64;
  sm_utxo_count : u64;
  sm_block_commit_count : u64;
  sm_script_registry_count : u64;
  sm_generated_at : u64;
  sm_version : u32
}.
Definition new_meta (now : u64) (block_height : u32) : SnapshotMeta :=
  {| sm_block_height := block_height; sm_balance_history_count := 0; sm_utxo_count := 0;
     sm_block_commit_count := 0; sm_script_registry_count := 0; sm_generated_at := now;
     sm_version := SNAPSHOT_DB_VERSION |}.
Record UTXOEntry := { ue_outpoint : OutPoint; ue_script_hash : USDBScriptHash; ue_value : u64 }.

Abbreviation blob := (list Z).

(** The rows of the tables by primary key: a balance is its height, balance and delta, an unspent
    output its script hash and value, a commit its three hashes. *)
Record SnapshotDB := {
  t_meta : list SnapshotMeta;
  t_balance_history : gmap blob (i64 * i64 * i64);
  t_utxos : gmap blob (blob * i64);
  t_block_commits : gmap i64 (blob * blob * blob);
  t_script_registry : gmap blob blob
}.
Definition empty_snapshot_db : SnapshotDB :=
  {| t_meta := []; t_balance_history := ∅; t_utxos := ∅; t_block_commits := ∅; t_script_registry := ∅ |}.
Definition set_meta m s :=
  {| t_meta := m; t_balance_history := t_balance_history s; t_utxos := t_utxos s;
     t_block_commits := t_block_commits s; t_script_registry := t_script_registry s |}.
Definition set_balance_history m s :=
  {| t_meta := t_meta s; t_balance_history := m; t_utxos := t_utxos s;
     t_block_commits := t_block_commits s; t_script_registry := t_script_registry s |}.
Definition set_utxos m s :=
  {| t_meta := t_meta s; t_balance_history := t_balance_history s; t_utxos := m;
     t_block_commits := t_block_commits s; t_script_registry := t_script_registry s |}.
Definition set_block_commits m s :=
  {| t_meta := t_meta s; t_balance_history := t_balance_history s; t_utxos := t_utxos s;
     t_block_commits := m; t_script_registry := t_script_registry s |}.
Definition set_script_registry m s :=
  {| t_meta := t_meta s; t_balance_history := t_balance_history s; t_utxos := t_utxos s;
     t_block_commits := t_block_commits s; t_script_registry := m |}.

(** ** Metadata *)

(** The casts to the columns and back. *)
Definition meta_row (m : SnapshotMeta) : SnapshotMeta :=
  {| sm_block_height := sm_block_height m;
     sm_balance_history_count := u64_as_i64 (sm_balance_history_count m);
     sm_utxo_count := u64_as_i64 (sm_utxo_count m);
     sm_block_commit_count := u64_as_i64 (sm_block_commit_count m);
     sm_script_registry_count := u64_as_i64 (sm_script_registry_count m);
     sm_generated_at := u64_as_i64 (sm_generated_at m); sm_version := sm_version m |}.
Definition row_meta (m : SnapshotMeta) : SnapshotMeta :=
  {| sm_block_height := i64_as_u32 (sm_block_height m);
     sm_balance_history_count := i64_as_u64 (sm_balance_history_count m);
     sm_utxo_count := i64_as_u64 (sm_utxo_count m);
     sm_block_commit_count := i64_as_u64 (sm_block_commit_count m);
     sm_script_registry_count := i64_as_u64 (sm_script_registry_count m);
     sm_generated_at := i64_as_u64 (sm_generated_at m); sm_version := i64_as_u32 (sm_version m) |}.
Definition update_meta (meta : SnapshotMeta) : M SnapshotDB unit :=
  modify (λ s, set_meta (t_meta s ++ [meta_row meta]) s).

(** [ORDER BY generated_at DESC LIMIT 1]; of several rows of one second, the first. *)
Definition latest_meta (rows : list SnapshotMeta) : option SnapshotMeta :=
  foldl (λ best m, match best with
                   | Some b => if sm_generated_at b <? sm_generated_at m then Some m else Some b
                   | None => Some m
                   end) None rows.
Definition get_meta (s : SnapshotDB) : result SnapshotMeta :=
  result_map row_meta (ok_or "Failed to query row" (latest_meta (t_meta s))).
Definition current_block_height (s : SnapshotDB) : result (option u64) :=
  result_map (λ m, Some (i64_as_u64 (sm_block_height m)))
    (ok_or "Failed to query row" (latest_meta (t_meta s))).

(** ** Writing *)

(** A transaction that is not committed leaves nothing. *)
Definition in_transaction {S A} (m : M S A) : M S A := λ s,
  match m s with
  | (Ok a, s') => (Ok a, s')
  | (r, _) => (r, s)
  end.
(** [INSERT]: the primary key must be new. *)
Definition insert_row {K V} `{Countable K} (msg : string) (kv : K * V) : M (gmap K V) unit := λ m,
  match m !! kv.1 with
  | Some _ => (Err msg, m)
  | None => (Ok tt, <[kv.1 := kv.2]> m)
  end.
Definition put_rows {K V} `{Countable K} (get : SnapshotDB → gmap K V) (set : gmap K V → SnapshotDB → SnapshotDB)
    (msg : string) (rows : list (K * V)) : M SnapshotDB unit :=
  in_transaction (zoom get set (for_each rows (insert_row msg))).

Definition hash_blob (h : Z) : blob := be_bytes 32 h.
Definition balance_snapshot_row (e : BalanceHistoryEntry) : blob * (i64 * i64 * i64) :=
  (hash_blob (be_script_hash e), (be_block_height e, u64_as_i64 (be_balance e), be_delta e)).
Definition utxo_snapshot_row (e : UTXOEntry) : blob * (blob * i64) :=
  (OutPointCodec_encode (ue_outpoint e), (hash_blob (ue_script_hash e), u64_as_i64 (ue_value e))).
Definition commit_snapshot_row (e : BlockCommitEntry) : i64 * (blob * blob * blob) :=
  (cm_block_height e, (hash_blob (cm_btc_block_hash e), cm_balance_delta_root e, cm_block_commit e)).
Definition script_snapshot_row (e : ScriptRegistryEntry) : blob * blob :=
  (hash_blob (sre_script_hash e), sre_script_pubkey e).

Definition put_balance_history_entries (entries : list BalanceHistoryEntry) : M SnapshotDB unit :=
  put_rows t_balance_history set_balance_history "Failed to insert entry" (balance_snapshot_row <$> entries).
Definition put_utxo_entries (entries : list UTXOEntry) : M SnapshotDB unit :=
  put_rows t_utxos set_utxos "Failed to insert UTXO entry" (utxo_snapshot_row <$> entries).
Definition put_block_commit_entries (entries : list BlockCommitEntry) : M SnapshotDB unit :=
  put_rows t_block_commits set_block_commits "Failed to insert block commit entry"
    (commit_snapshot_row <$> entries).
(** [INSERT OR REPLACE] *)
Definition snapshot_put_script_registry_entries (entries : list ScriptRegistryEntry) : M SnapshotDB unit :=
  modify (λ s, set_script_registry (put_all (script_snapshot_row <$> entries) (t_script_registry s)) s).

(** ** Reading *)

(** [WHERE key > last ORDER BY key ASC LIMIT page_size]; [encode] gives the order of the keys. *)
Definition beyond {K V} (encode : K → list Z) (last : option K) (kv : K * V) : bool :=
  match last with
  | None => true
  | Some k => negb (bytes_le (encode kv.1) (encode k))
  end.
Definition page {K V} `{Countable K} (encode : K → list Z) (page_size : Z) (last : option K)
    (table : gmap K V) : list (K * V) :=
  sql_limit page_size 0 (filter (λ kv, beyond encode last kv = true) (cf_rows encode table)).
(** Signed integers in the order of their values. *)
Definition integer_key (v : i64) : list Z := be_bytes 8 (v - I64_MIN).

Definition hash_from_slice (msg : string) (b : blob) : result Z :=
  if Nat.eqb (length b) 32 then Ok (of_be_bytes b) else Err msg.
Definition array32 (msg : string) (b : blob) : result (list Z) :=
  if Nat.eqb (length b) 32 then Ok b else Err msg.

Definition parse_balance_row (row : blob * (i64 * i64 * i64)) : result BalanceHistoryEntry :=
  let? script_hash := hash_from_slice "Failed to convert script_hash blob" row.1 in
  let '(height, balance, delta) := row.2 in
  Ok {| be_script_hash := script_hash; be_block_height := i64_as_u32 height; be_delta := delta;
        be_balance := i64_as_u64 balance |}.
Definition parse_utxo_row (row : blob * (blob * i64)) : result UTXOEntry :=
  let? outpoint := OutPointCodec_decode row.1 in
  let? script_hash := hash_from_slice "Failed to convert script_hash blob" row.2.1 in
  Ok {| ue_outpoint := outpoint; ue_script_hash := script_hash; ue_value := i64_as_u64 row.2.2 |}.
Definition parse_commit_row (row : i64 * (blob * blob * blob)) : result BlockCommitEntry :=
  let '(hash, root, commit) := row.2 in
  let? btc_block_hash := hash_from_slice "Failed to convert block hash blob" hash in
  let? balance_delta_root := array32 "Invalid balance_delta_root length" root in
  let? block_commit := array32 "Invalid block_commit length" commit in
  Ok {| cm_block_height := i64_as_u32 row.1; cm_btc_block_hash := btc_block_hash;
        cm_balance_delta_root := balance_delta_root; cm_block_commit := block_commit |}.
Definition parse_script_row (row : blob * blob) : result ScriptRegistryEntry :=
  let? script_hash := hash_from_slice "Failed to convert script_hash blob" row.1 in
  Ok {| sre_script_hash := script_hash; sre_script_pubkey := row.2 |}.

Definition snapshot_balance_entries (page_size : u32) (last_script_hash : option USDBScriptHash)
    (s : SnapshotDB) : result (list BalanceHistoryEntry) :=
  collect parse_balance_row (page id page_size (hash_blob <$> last_script_hash) (t_balance_history s)).
Definition get_utxo_entries (page_size : u32) (last_outpoint : option OutPoint) (s : SnapshotDB) :
    result (list UTXOEntry) :=
  collect parse_utxo_row (page id page_size (OutPointCodec_encode <$> last_outpoint) (t_utxos s)).
Definition get_block_commit_entries (page_size : u32) (last_block_height : option u32) (s : SnapshotDB) :
    result (list BlockCommitEntry) :=
  collect parse_commit_row (page integer_key page_size last_block_height (t_block_commits s)).
Definition snapshot_script_entries (page_size : u32) (last_script_hash : option USDBScriptHash)
    (s : SnapshotDB) : result (list ScriptRegistryEntry) :=
  collect parse_script_row (page id page_size (hash_blob <$> last_script_hash) (t_script_registry s)).

(** The queries of the verifier and the counts. *)
Definition get_balance_history_entry (script_hash : USDBScriptHash) (s : SnapshotDB) :
    result (option BalanceHistoryEntry) :=
  match t_balance_history s !! hash_blob script_hash with
  | None => Ok None
  | Some row => result_map Some (parse_balance_row (hash_blob script_hash, row))
  end.
Definition get_balance_history_entries_by_page (page_offset page_size : u32) (s : SnapshotDB) :
    result (list BalanceHistoryEntry) :=
  collect parse_balance_row
    (sql_limit_offset page_size (i64_wrap (page_offset * page_size)) (cf_rows id (t_balance_history s))).
Definition stat_balance_history_entries_count (s : SnapshotDB) : u64 := Z.of_nat (size (t_balance_history s)).
Definition stat_utxo_entries_count (s : SnapshotDB) : u64 := Z.of_nat (size (t_utxos s)).
Definition stat_block_commit_entries_count (s : SnapshotDB) : u64 := Z.of_nat (size (t_block_commits s)).
Definition stat_script_registry_entries_count (s : SnapshotDB) : u64 := Z.of_nat (size (t_script_registry s)).
