(* ===== verification/SnapshotPages.v ===== *)
(** * Reading a snapshot page by page

    The four loops of [SnapshotInstaller] in [balance-history/src/index/snapshot.rs] read a table
    after the last key seen, until a page is not full.  Over a table whose rows can be read, with
    keys that the cursor preserves, the loop hands every row to the writer once, in order, and stops. *)

From S2P Require Import Prelude Encoding Types BalanceCodec BalanceDb BalanceDbFacts SnapshotDb.

(** The rows and the number of them that have been installed. *)
Section Loop.
Context {St E C : Type} (read : option C → result (list E)) (cursor : E → C) (write : list E → M St unit).
Context (page_size : u32).

Fixpoint load_table (fuel : nat) (last_key : option C) (installed_total : u64) : M St u64 :=
  match fuel with
  | O => panic "out of fuel"
  | S fuel =>
      let! entries := lift (read last_key) in
      let! _ := write entries in
      let installed_total := u64_add installed_total (count entries) in
      let last_key := match last entries with Some e => Some (cursor e) | None => last_key end in
      if count entries <? page_size then ret installed_total
      else load_table fuel last_key installed_total
  end.
End Loop.

Section Pages.
Context {K V E C : Type} `{Countable K} (encode : K → list Z) (parse : K * V → result E).
Context (key : C → K) (cursor : E → C) (table : gmap K V).
Context (Hinj : ∀ k k', is_Some (table !! k) → is_Some (table !! k') → encode k = encode k' → k = k').

(** Rows after the last one of a prefix of the sorted table. *)
Lemma beyond_prefix pre kv post :
  cf_rows encode table = pre ++ kv :: post →
  filter (λ r, beyond encode (Some kv.1) r = true) (cf_rows encode table) = post.
Proof.
  intros Er. pose proof (cf_rows_sorted encode table) as Hs. pose proof (cf_rows_NoDup encode table) as Hn.
  rewrite Er in Hs, Hn |- *. rewrite fmap_app, fmap_cons in Hn. apply NoDup_app in Hn as (_ & Hd & Hn).
  apply NoDup_cons in Hn as [Hkv Hn].
  assert (∀ r, r ∈ pre ++ kv :: post → table !! r.1 = Some r.2) as Hin by (intros r; by rewrite <-Er, elem_of_cf_rows).
  rewrite filter_app, (filter_cons_False _ kv) by (cbn; by rewrite bytes_le_refl).
  rewrite (filter_app_none _ [] pre), app_nil_l, filter_all; [done|..].
  - apply Forall_forall. intros r Hr. cbn. apply negb_true_iff, not_true_is_false. intros Hle.
    apply StronglySorted_app_1_r, StronglySorted_inv in Hs as [_ Hs]. rewrite Forall_forall in Hs.
    apply Hkv. replace kv.1 with r.1; [by apply list_elem_of_fmap_2|]. symmetry. apply Hinj.
    + eexists. apply Hin, elem_of_app. right. by left.
    + eexists. apply Hin, elem_of_app. right. by right.
    + apply bytes_le_antisym; [|done]. by apply (Hs r).
  - apply Forall_forall. intros r Hr. cbn.
    rewrite (StronglySorted_app_1_elem_of (row_le encode) pre (kv :: post) r kv); [done..|by left].
Qed.

(** *** The loop *)

Context (Hkey : ∀ kv e, table !! kv.1 = Some kv.2 → parse kv = Ok e → key (cursor e) = kv.1).
Context {St : Type} (read : option C → result (list E)) (write : list E → M St unit) (F : list E → St → St).
Context (page_size : u32) (Hpage : 0 < page_size).
Context (Hread : ∀ last, read last = collect parse (page encode page_size (key <$> last) table)).
Context (P : St → Prop) (Hwrite : ∀ l s, P s → write l s = (Ok tt, F l s) ∧ P (F l s)).
Context (HF : ∀ l k s, F (l ++ k) s = F k (F l s)).

(** The rows after [last_key] are the suffix [rows]. *)
Definition positioned (last_key : option C) (rows : list (K * V)) : Prop :=
  (last_key = None ∧ rows = cf_rows encode table)
  ∨ ∃ pre kv, cf_rows encode table = pre ++ kv :: rows ∧ key <$> last_key = Some kv.1.

Lemma positioned_page last_key rows : positioned last_key rows →
  page encode page_size (key <$> last_key) table = take (Z.to_nat page_size) rows.
Proof.
  unfold page, sql_limit. rewrite drop_0. intros [[-> ->]|(pre & kv & Er & ->)].
  - cbn. by rewrite filter_all by by apply Forall_true.
  - by rewrite (beyond_prefix pre kv rows).
Qed.

Lemma load_table_run (fuel : nat) : ∀ rows entries last_key total s,
  P s → (length rows < fuel)%nat → positioned last_key rows → collect parse rows = Ok entries →
  0 <= total → total + count entries <= U64_MAX →
  load_table read cursor write page_size fuel last_key total s = (Ok (total + count entries), F entries s).
Proof.
  induction fuel as [|fuel IH]; intros rows entries last_key total s HP Hf Hp Hc Ht Hb; [lia|].
  set (n := Z.to_nat page_size). assert (0 < n)%nat as Hn by lia.
  rewrite <-(take_drop n rows) in Hc. apply collect_Ok, Forall2_app_inv_l in Hc as (e1 & e2 & H1 & H2 & ->).
  cbn [load_table]. rewrite Hread, (positioned_page _ rows Hp). fold n.
  apply collect_Ok in H1 as E1. rewrite E1. erewrite bind_run by reflexivity. destruct (Hwrite e1 s HP) as [Ew HP1]. rewrite (bind_run _ _ _ _ _ Ew).
  pose proof (Forall2_length _ _ _ H1) as L1. pose proof (Forall2_length _ _ _ H2) as L2.
  unfold count in Hb |- *. rewrite length_app in Hb |- *. rewrite u64_add_small by lia.
  rewrite length_take in L1. rewrite length_drop in L2. destruct (_ <? page_size) eqn:El; b2p.
  - assert (e2 = []) as -> by (apply nil_length_inv; lia). rewrite app_nil_r. cbn. unfold ret. do 2 f_equal. lia.
  - destruct (last e1) as [e|] eqn:Ele; [|apply last_None in Ele as ->; cbn in *; lia].
    rewrite (IH (drop n rows) e2); [|done|rewrite length_drop; lia| |by apply collect_Ok|lia|unfold count; lia].
    + rewrite HF. unfold count. do 2 f_equal. lia.
    + apply last_Some in Ele as [e1' ->]. apply Forall2_app_inv_r in H1 as (r1 & r2 & Hr1 & Hr2 & Er).
      apply Forall2_cons_inv_r in Hr2 as (kv & r3 & Hkv & Hr3 & ->). apply Forall2_nil_inv_r in Hr3. subst r3.
      right. assert (∃ pre, cf_rows encode table = pre ++ rows) as [pre Epre].
      { destruct Hp as [[_ ->]|(pre & kv' & -> & _)]; [by exists []|]. exists (pre ++ [kv']). by rewrite <-app_assoc. }
      exists (pre ++ r1), kv. split; [rewrite Epre; rewrite <-(take_drop n rows) at 1; by rewrite Er, <-!app_assoc|].
      cbn. rewrite (Hkey kv); [done| |done]. apply elem_of_cf_rows with encode. rewrite Epre. apply elem_of_app. right. rewrite <-(take_drop n rows), Er. set_solver.
Qed.
End Pages.
