(* ===== verification/SnapshotExport.v ===== *)
(** * Exporting a snapshot

    The generators of [balance-history/src/db/db.rs] ([generate_*_snapshot*]), [SnapshotGenerator] and
    [SnapshotIndexer::run] of [balance-history/src/index/snapshot.rs], with the manifest and its
    signature.  The file formats (SQLite, JSON, base64) and the Ed25519 crate are parameters.  Progress
    counters and messages are left out.  The shards of rayon's parallel loops are written one after the
    other, in any order. *)

From stdpp Require Import pretty.
From S2P Require Import Prelude Encoding Types Tx BalanceCodec BalanceDb BalanceBlock StateIds.
From S2P Require Import BalanceService BalanceServer SnapshotDb.

#[export] Instance ConsensusSnapshotIdentity_eq_dec : EqDecision ConsensusSnapshotIdentity.
Proof. solve_decision. Defined.
#[export] Instance HistoricalSnapshotStateRef_eq_dec : EqDecision HistoricalSnapshotStateRef.
Proof. solve_decision. Defined.

(** ** Iterators that may fail *)

(** An iterator yields rows until it ends or until RocksDB reports an error. *)
Definition iterate {A} (fault : option nat) (rows : list A) : list (result A) :=
  match fault with
  | None => Ok <$> rows
  | Some n => (Ok <$> take n rows) ++ [Err "Iterator error"]
  end.
(** [while let Some(Ok(item)) = iter.next()] ends at the first error. *)
Fixpoint while_ok {A} (items : list (result A)) : list A :=
  match items with
  | Ok x :: items => x :: while_ok items
  | _ => []
  end.
(** Where the iterators of an export fail, if they do, and the order in which the shards are done. *)
Class ExportRun := {
  balance_fault : Z → option nat;
  utxo_fault : Z → option nat;
  script_fault : Z → option nat;
  commit_fault : option nat;
  shard_order : list Z
}.
Class ExportRunLaws `{ExportRun} := {
  every_shard_once : shard_order ≡ₚ heights 0 255
}.

(** A loop that hands its items to the callback in batches; the last one may be shorter. *)
Fixpoint batched {S A} (batch_size : Z) (cb : list A → M S unit) (snapshot : list A)
    (items : list (result A)) : M S unit :=
  match items with
  | [] => match snapshot with [] => ret tt | _ => cb snapshot end
  | Ok x :: items =>
      let snapshot := snapshot ++ [x] in
      if batch_size <=? count snapshot
      then let! _ := cb snapshot in batched batch_size cb [] items
      else batched batch_size cb snapshot items
  | r :: _ => let! _ := lift r in ret tt
  end.

Definition BATCH_SIZE : Z := 1024 * 64.
Definition SHARD_COUNT : Z := 255.

(** ** The callback *)

Record SnapshotGenerator := {
  gn_db : SnapshotDB;
  gn_balance_history_count : u64;
  gn_utxo_count : u64;
  gn_block_commit_count : u64;
  gn_script_registry_count : u64
}.
Definition new_generator (s : SnapshotDB) : SnapshotGenerator :=
  {| gn_db := s; gn_balance_history_count := 0; gn_utxo_count := 0; gn_block_commit_count := 0;
     gn_script_registry_count := 0 |}.
Definition set_gn_db s g :=
  {| gn_db := s; gn_balance_history_count := gn_balance_history_count g; gn_utxo_count := gn_utxo_count g;
     gn_block_commit_count := gn_block_commit_count g; gn_script_registry_count := gn_script_registry_count g |}.
(** [fetch_add] on one of the counters. *)
Definition set_counts b u c r g :=
  {| gn_db := gn_db g; gn_balance_history_count := b; gn_utxo_count := u; gn_block_commit_count := c;
     gn_script_registry_count := r |}.
Definition add_balances (n : Z) g :=
  set_counts (u64_add (gn_balance_history_count g) n) (gn_utxo_count g) (gn_block_commit_count g)
    (gn_script_registry_count g) g.
Definition add_utxos (n : Z) g :=
  set_counts (gn_balance_history_count g) (u64_add (gn_utxo_count g) n) (gn_block_commit_count g)
    (gn_script_registry_count g) g.
Definition add_commits (n : Z) g :=
  set_counts (gn_balance_history_count g) (gn_utxo_count g) (u64_add (gn_block_commit_count g) n)
    (gn_script_registry_count g) g.
Definition add_scripts (n : Z) g :=
  set_counts (gn_balance_history_count g) (gn_utxo_count g) (gn_block_commit_count g)
    (u64_add (gn_script_registry_count g) n) g.

Definition on_balance_history_entries (entries : list BalanceHistoryEntry) : M SnapshotGenerator unit :=
  let! _ := zoom gn_db set_gn_db (put_balance_history_entries entries) in
  modify (add_balances (count entries)).
Definition on_utxo_entries (entries : list UTXOEntry) : M SnapshotGenerator unit :=
  let! _ := zoom gn_db set_gn_db (put_utxo_entries entries) in
  modify (add_utxos (count entries)).
Definition on_block_commit_entries (entries : list BlockCommitEntry) : M SnapshotGenerator unit :=
  let! _ := zoom gn_db set_gn_db (put_block_commit_entries entries) in
  modify (add_commits (count entries)).
Definition on_script_registry_entries (entries : list ScriptRegistryEntry) : M SnapshotGenerator unit :=
  let! _ := zoom gn_db set_gn_db (snapshot_put_script_registry_entries entries) in
  modify (add_scripts (count entries)).

(** ** The generators of the database *)

(** The largest key of a shard: its number, then bytes [0xFF]. *)
Definition shard_seek (shard_index : Z) (len : nat) : list Z := shard_index :: replicate (len - 1) U8_MAX.
Definition in_shard (shard_index : Z) (key : list Z) : bool := nth 0 key (-1) =? shard_index.
Definition utxo_entry (kv : OutPoint * UTXOValue) : UTXOEntry :=
  {| ue_outpoint := kv.1; ue_script_hash := uv_script_hash kv.2; ue_value := uv_value kv.2 |}.
Definition script_entry (kv : USDBScriptHash * list Z) : ScriptRegistryEntry :=
  {| sre_script_hash := kv.1; sre_script_pubkey := kv.2 |}.

Section Generators.
Context `{ExportRun} (db : BalanceHistoryDB).

(** The rows of a shard that a reverse iterator yields before it fails, ends or leaves the shard. *)
Definition shard_rows {K V} `{Countable K} (encode : K → list Z) (len : nat) (fault : Z → option nat)
    (shard_index : Z) (cf : gmap K V) : list (K * V) :=
  take_while (λ kv, in_shard shard_index (encode kv.1))
    (while_ok (iterate (fault shard_index) (cf_from_reverse encode (shard_seek shard_index len) cf))).

Definition generate_balance_history_snapshot_sharded (target_block_height : u32) (shard_index : Z) :
    M SnapshotGenerator unit :=
  batched BATCH_SIZE on_balance_history_entries []
    (Ok <$> traverse_rows_at target_block_height None
              (shard_rows balance_key 36 balance_fault shard_index (balance_history_cf db))).
Definition generate_utxo_snapshot_sharded (shard_index : Z) : M SnapshotGenerator unit :=
  batched BATCH_SIZE on_utxo_entries []
    (Ok <$> (utxo_entry <$> shard_rows OutPointCodec_encode 36 utxo_fault shard_index (utxo_cf db))).
Definition generate_script_registry_snapshot_sharded (shard_index : Z) : M SnapshotGenerator unit :=
  batched BATCH_SIZE on_script_registry_entries []
    (Ok <$> (script_entry <$> shard_rows (be_bytes 32) 32 script_fault shard_index (script_registry_cf db))).

Definition generate_balance_history_snapshot_parallel (target_block_height : u32) : M SnapshotGenerator unit :=
  for_each shard_order (generate_balance_history_snapshot_sharded target_block_height).
Definition generate_utxo_snapshot_parallel : M SnapshotGenerator unit :=
  for_each shard_order generate_utxo_snapshot_sharded.
Definition generate_script_registry_snapshot_parallel : M SnapshotGenerator unit :=
  for_each shard_order generate_script_registry_snapshot_sharded.

(** The items up to the first commit above the target; an error is passed on. *)
Fixpoint commit_items (target_block_height : u32) (items : list (result (u32 * BlockCommitEntry))) :
    list (result BlockCommitEntry) :=
  match items with
  | [] => []
  | Ok kv :: items =>
      if kv.1 >? target_block_height then [] else Ok kv.2 :: commit_items target_block_height items
  | Err e :: _ => [Err e]
  | Panic e :: _ => [Panic e]
  end.
Definition generate_block_commit_snapshot (target_block_height : u32) : M SnapshotGenerator unit :=
  batched BATCH_SIZE on_block_commit_entries []
    (commit_items target_block_height
       (iterate commit_fault (cf_rows make_block_commit_key (block_commits_cf db)))).
End Generators.

(** ** Manifests and keys *)

Definition SNAPSHOT_MANIFEST_VERSION : string := "balance-history-snapshot-manifest:v1".
Definition SNAPSHOT_SIGNATURE_SCHEME_ED25519 : string := "ed25519".
Record SnapshotManifest := {
  mf_manifest_version : string;
  mf_file_name : string;
  mf_file_sha256 : string;
  mf_state_ref : HistoricalSnapshotStateRef;
  mf_signature_scheme : option string;
  mf_signing_key_id : option string;
  mf_generated_at : option u64
}.
Record SnapshotSigningKeyFile := { sk_key_id : string; sk_secret_key_base64 : string }.
Record SnapshotTrustedPublicKey := { pk_key_id : string; pk_public_key_base64 : string }.
Record SnapshotTrustedKeySet := { ks_keys : list SnapshotTrustedPublicKey }.

#[export] Instance SnapshotManifest_eq_dec : EqDecision SnapshotManifest.
Proof. solve_decision. Defined.

(** The crates around the files: SQLite's bytes, [serde_json], [base64] (a text is trimmed before it
    is decoded) and [ed25519_dalek].  A key that is not a point of the curve is refused. *)
Class SnapshotCrates := {
  file_bytes : SnapshotDB → list Z;
  canonical_bytes : SnapshotManifest → list Z;
  base64_encode : list Z → string;
  base64_decode : string → option (list Z);
  verifying_key_from_bytes : list Z → option (list Z);
  ed25519_sign : list Z → list Z → list Z;
  ed25519_verify : list Z → list Z → list Z → bool
}.

Section Files.
Context `{BitcoinCrate} `{SnapshotCrates}.

(** [SnapshotHash::calc_hash] *)
Definition calc_hash (s : SnapshotDB) : string := encode_hex (sha256 (file_bytes s)).

Definition manifest_build (now : u64) (file_name file_sha256 : string)
    (state_ref : HistoricalSnapshotStateRef) (signing_key_id : option string) : SnapshotManifest :=
  {| mf_manifest_version := SNAPSHOT_MANIFEST_VERSION; mf_file_name := file_name;
     mf_file_sha256 := file_sha256; mf_state_ref := state_ref;
     mf_signature_scheme := (λ _, SNAPSHOT_SIGNATURE_SCHEME_ED25519) <$> signing_key_id;
     mf_signing_key_id := signing_key_id; mf_generated_at := Some now |}.

(** A base64 text of so many bytes. *)
Definition decode_bytes (invalid_base64 invalid_length : string) (len : nat) (text : string) :
    result (list Z) :=
  let? raw := ok_or invalid_base64 (base64_decode text) in
  if Nat.eqb (length raw) len then Ok raw else Err invalid_length.
Definition to_signing_key (key : SnapshotSigningKeyFile) : result (list Z) :=
  decode_bytes "Failed to decode base64 Ed25519 secret key" "Invalid Ed25519 secret key length" 32
    (sk_secret_key_base64 key).
Definition to_verifying_key (key : SnapshotTrustedPublicKey) : result (list Z) :=
  let? public_key := decode_bytes "Failed to decode base64 Ed25519 public key"
                       "Invalid Ed25519 public key length" 32 (pk_public_key_base64 key) in
  ok_or "Failed to construct Ed25519 verifying key" (verifying_key_from_bytes public_key).
Definition find_verifying_key (keys : SnapshotTrustedKeySet) (key_id : string) : result (option (list Z)) :=
  match List.find (λ entry, String.eqb (pk_key_id entry) key_id) (ks_keys keys) with
  | None => Ok None
  | Some entry => result_map Some (to_verifying_key entry)
  end.

(** *** Names and directories *)

(** [Path::set_extension] on a file name: what follows the last dot is replaced, unless the only dot
    is the first character. *)
Fixpoint last_dot (s : list ascii) : option nat :=
  match s with
  | [] => None
  | c :: s => match last_dot s with
              | Some n => Some (S n)
              | None => if bool_decide (c = "."%char) then Some O else None
              end
  end.
Definition file_stem (s : list ascii) : list ascii :=
  match last_dot s with
  | None | Some O => s
  | Some n => take n s
  end.
Definition set_extension (extension name : string) : string :=
  String.string_of_list_ascii (file_stem (String.list_ascii_of_string name)) +:+ "." +:+ extension.
Definition manifest_path_for_snapshot_file : string → string := set_extension "manifest.json".
Definition signature_path_for_manifest_file : string → string := set_extension "sig".

(** The files of the snapshot directory, by name: SQLite files, JSON files that parse as a manifest,
    and the texts of signatures. *)
Record Files := {
  fs_snapshots : gmap string SnapshotDB;
  fs_manifests : gmap string SnapshotManifest;
  fs_signatures : gmap string string
}.
Definition on_snapshots f fs :=
  {| fs_snapshots := f (fs_snapshots fs); fs_manifests := fs_manifests fs; fs_signatures := fs_signatures fs |}.
Definition on_manifests f fs :=
  {| fs_snapshots := fs_snapshots fs; fs_manifests := f (fs_manifests fs); fs_signatures := fs_signatures fs |}.
Definition on_signatures f fs :=
  {| fs_snapshots := fs_snapshots fs; fs_manifests := fs_manifests fs; fs_signatures := f (fs_signatures fs) |}.

Definition snapshot_name (block_height : u32) : string := "snapshot_" +:+ pretty block_height +:+ ".db".
Definition old_snapshot_name (block_height : u32) (now : u64) : string :=
  "snapshot_" +:+ pretty block_height +:+ "_" +:+ pretty now +:+ ".db".
(** Opens the file of a height; with [create_new] an old file of that name is renamed first. *)
Definition open_by_height (now : u64) (block_height : u32) (create_new : bool) : M Files string :=
  let db_path := snapshot_name block_height in
  let! found := gets (λ fs, fs_snapshots fs !! db_path) in
  match found with
  | Some old =>
      if create_new then
        let! _ := modify (on_snapshots (λ m, <[db_path := empty_snapshot_db]>
                            (<[old_snapshot_name block_height now := old]> (delete db_path m)))) in
        ret db_path
      else ret db_path
  | None =>
      if create_new then
        let! _ := modify (on_snapshots (insert db_path empty_snapshot_db)) in ret db_path
      else fail "Snapshot database does not exist"
  end.
(** A phase of the export: a new generator over the file. *)
Definition generated (db_path : string) (m : M SnapshotGenerator unit) : M Files SnapshotGenerator := λ fs,
  let '(r, g) := m (new_generator (default empty_snapshot_db (fs_snapshots fs !! db_path))) in
  (result_map (λ _, g) r, on_snapshots (insert db_path (gn_db g)) fs).

Definition snapshot_state_ref (network : string) (db : BalanceHistoryDB) (block_height : u32) :
    option HistoricalSnapshotStateRef :=
  state_ref_of network block_height <$> block_commits_cf db !! block_height.

(** ** Exporting *)

Context `{ExportRun} (network : string) (signing_key : option (result SnapshotSigningKeyFile)).

Definition sign_manifest (manifest_path : string) (manifest : SnapshotManifest)
    (key : SnapshotSigningKeyFile) : M Files unit :=
  let signature_path := signature_path_for_manifest_file manifest_path in
  let! secret := lift (to_signing_key key) in
  modify (on_signatures (insert signature_path
    (base64_encode (ed25519_sign secret (canonical_bytes manifest))))).

Definition export_tables (db : BalanceHistoryDB) (target_block_height : u32) (with_utxo : bool)
    (now : u64) (db_path : string) : M Files unit :=
  let! balances := generated db_path (generate_balance_history_snapshot_parallel db target_block_height) in
  let! utxo_count :=
    if with_utxo then
      let! utxos := generated db_path (generate_utxo_snapshot_parallel db) in ret (gn_utxo_count utxos)
    else ret 0 in
  let! commits := generated db_path (generate_block_commit_snapshot db target_block_height) in
  let! scripts := generated db_path (generate_script_registry_snapshot_parallel db) in
  let meta := {| sm_block_height := target_block_height;
                 sm_balance_history_count := gn_balance_history_count balances;
                 sm_utxo_count := utxo_count;
                 sm_block_commit_count := gn_block_commit_count commits;
                 sm_script_registry_count := gn_script_registry_count scripts;
                 sm_generated_at := now; sm_version := SNAPSHOT_DB_VERSION |} in
  modify (on_snapshots (alter (λ s, (update_meta meta s).2) db_path)).

Definition run (now : u64) (db : BalanceHistoryDB) (target_block_height : u32) (with_utxo : bool) :
    M Files unit :=
  let last_synced_height := default 0 (meta_cf db !! META_KEY_BTC_BLOCK_HEIGHT) in
  if target_block_height >? last_synced_height
  then fail "Target block height is greater than last synced BTC block height"
  else if with_utxo && negb (target_block_height =? last_synced_height)
  then fail "Historical UTXO snapshots are not supported"
  else
    let! db_path := open_by_height now target_block_height true in
    let! _ := export_tables db target_block_height with_utxo now db_path in
    let! snapshot := gets (λ fs, default empty_snapshot_db (fs_snapshots fs !! db_path)) in
    let file_hash := calc_hash snapshot in
    let! state_ref := lift (ok_or "Failed to build historical state ref for snapshot height"
                              (snapshot_state_ref network db target_block_height)) in
    let! key := match signing_key with
                | None => ret None
                | Some r => let! k := lift r in ret (Some k)
                end in
    let manifest := manifest_build now db_path file_hash state_ref (sk_key_id <$> key) in
    let manifest_path := manifest_path_for_snapshot_file db_path in
    let! _ := modify (on_manifests (insert manifest_path manifest)) in
    match key with
    | None => ret tt
    | Some key => sign_manifest manifest_path manifest key
    end.
End Files.
