(* ===== verification/SnapshotInstall.v ===== *)
(** * Installing a snapshot

    [SnapshotInstaller] of [balance-history/src/index/snapshot.rs]: the checks of the manifest, its
    signature and the file, the copy of the four tables into a staging database, and the exchange of
    the directories.  Every operation on directories may fail, and a process that stops is one whose
    remaining operations all fail.  Messages are left out. *)

From S2P Require Import Prelude Encoding Types Tx BalanceCodec BalanceDb BalanceBlock StateIds.
From S2P Require Import BalanceService BalanceServer SnapshotDb SnapshotPages SnapshotExport.

(** ** The directories of a node *)

(** A database directory: its column families, and the provenance entry of its metadata, parsed. *)
Record NodeDb := { nd_db : BalanceHistoryDB; nd_provenance : option SnapshotInstallProvenance }.
Definition empty_node_db : NodeDb := {| nd_db := empty_balance_db; nd_provenance := None |}.

(** [h_staging] holds the staging roots by name, each with the database directory in it, if any;
    [h_backups] the backup directories by name.  [h_live_shared] is true while another part of the
    process holds the live database.  The operations on directories that follow fail where
    [h_dir_faults] says so, and [h_writes_left] counts the database writes that succeed. *)
Record Host := {
  h_files : Files;
  h_live : option NodeDb;
  h_backups : gmap u64 NodeDb;
  h_staging : gmap u64 (option NodeDb);
  h_live_shared : bool;
  h_dir_faults : list bool;
  h_writes_left : option nat
}.
Definition set_dirs live backups staging h :=
  {| h_files := h_files h; h_live := live; h_backups := backups; h_staging := staging;
     h_live_shared := h_live_shared h; h_dir_faults := h_dir_faults h; h_writes_left := h_writes_left h |}.
Definition set_staging staging h := set_dirs (h_live h) (h_backups h) staging h.
Definition set_writes_left w h :=
  {| h_files := h_files h; h_live := h_live h; h_backups := h_backups h; h_staging := h_staging h;
     h_live_shared := h_live_shared h; h_dir_faults := h_dir_faults h; h_writes_left := w |}.

(** One operation of the file system. *)
Definition dir_op (msg : string) : M Host unit := λ h,
  match h_dir_faults h with
  | [] => (Ok tt, h)
  | b :: faults =>
      (if b then Err msg else Ok tt,
       {| h_files := h_files h; h_live := h_live h; h_backups := h_backups h; h_staging := h_staging h;
          h_live_shared := h_live_shared h; h_dir_faults := faults; h_writes_left := h_writes_left h |})
  end.

(** A routine of the database, run on the staging database. *)
Definition on_staging {A} (nanos : u64) (m : M Disk A) : M Host A := λ h,
  let nd := default empty_node_db (mjoin (h_staging h !! nanos)) in
  let '(r, d) := m {| db := nd_db nd; writes_left := h_writes_left h |} in
  (r, set_writes_left (writes_left d)
        (set_staging (<[nanos := Some {| nd_db := db d; nd_provenance := nd_provenance nd |}]> (h_staging h)) h)).
(** [put_json_meta] of the provenance. *)
Definition put_provenance (nanos : u64) (p : SnapshotInstallProvenance) : M Host unit := λ h,
  match h_writes_left h with
  | Some O => (Err "Failed to write JSON meta key", h)
  | w =>
      let nd := default empty_node_db (mjoin (h_staging h !! nanos)) in
      (Ok tt, set_writes_left (pred <$> w)
        (set_staging (<[nanos := Some {| nd_db := nd_db nd; nd_provenance := Some p |}]> (h_staging h)) h))
  end.
Definition put_snapshot_install_provenance (nanos : u64) (p : SnapshotInstallProvenance) : M Host unit :=
  let! _ := put_provenance nanos p in
  let! _ := on_staging nanos (put_u32_meta META_KEY_SNAPSHOT_INSTALL_USED 1) in
  on_staging nanos (put_u32_meta META_KEY_SNAPSHOT_INSTALL_MANIFEST_VERIFIED
                      (if legacy_manifest_verified p then 1 else 0)).

(** [BalanceHistoryDB::put_utxos] *)
Definition put_utxos (utxos : list UTXOEntry) : M Disk unit :=
  write "Failed to write UTXO batch to DB" (on_utxo_cf (put_all
    ((λ u, (ue_outpoint u, {| uv_script_hash := ue_script_hash u; uv_value := ue_value u |})) <$> utxos))).

(** ** The copies *)

Definition SNAPSHOT_PAGE_SIZE : u32 := 1024 * 256.
Definition table_fuel {K V} `{Countable K} (m : gmap K V) : nat := S (size m).

(** A table is copied when its count is not zero; the number of rows must be the count. *)
Definition install_table {E C} (read : option C → result (list E)) (cursor : E → C)
    (write : list E → M Disk unit) (fuel : nat) (total : u64) (mismatch : string) : M Disk unit :=
  if total =? 0 then ret tt
  else
    let! installed_total := load_table read cursor write SNAPSHOT_PAGE_SIZE fuel None 0 in
    if installed_total =? total then ret tt else panic mismatch.

Definition install_balance_history_snapshot (s : SnapshotDB) (meta : SnapshotMeta) : M Disk unit :=
  install_table (λ last, snapshot_balance_entries SNAPSHOT_PAGE_SIZE last s) be_script_hash put_address_history_async
    (table_fuel (t_balance_history s)) (sm_balance_history_count meta)
    "Installed total does not match expected total".
Definition install_utxo_snapshot (s : SnapshotDB) (meta : SnapshotMeta) : M Disk unit :=
  install_table (λ last, get_utxo_entries SNAPSHOT_PAGE_SIZE last s) ue_outpoint put_utxos
    (table_fuel (t_utxos s)) (sm_utxo_count meta)
    "Installed UTXOs total does not match expected total".
Definition install_block_commit_snapshot (s : SnapshotDB) (meta : SnapshotMeta) : M Disk unit :=
  install_table (λ last, get_block_commit_entries SNAPSHOT_PAGE_SIZE last s) cm_block_height put_block_commits_async
    (table_fuel (t_block_commits s)) (sm_block_commit_count meta)
    "Installed block commits total does not match expected total".
Definition install_script_registry_snapshot (s : SnapshotDB) (meta : SnapshotMeta) : M Disk unit :=
  install_table (λ last, snapshot_script_entries SNAPSHOT_PAGE_SIZE last s) sre_script_hash put_script_registry_entries
    (table_fuel (t_script_registry s)) (sm_script_registry_count meta)
    "Installed script registry total does not match expected total".

(** Each copy ends with a flush, unless it was skipped. *)
Definition install_and_flush (nanos : u64) (total : u64) (m : M Disk unit) : M Host unit :=
  let! _ := on_staging nanos m in
  if total =? 0 then ret tt else dir_op "Failed to flush database".

(** ** Installing *)

Record SnapshotData := { sd_file : string; sd_manifest_file : option string }.

Section Install.
Context `{BitcoinCrate} `{SnapshotCrates} (network : string) (trust_mode : SnapshotTrustMode).
Context (trusted_keys_file : option (result SnapshotTrustedKeySet)).

(** The file of the manifest must exist and parse; then its version is checked. *)
Definition manifest_load (path : string) : M Host SnapshotManifest :=
  let! found := gets (λ h, fs_manifests (h_files h) !! path) in
  let! manifest := lift (ok_or "Failed to read snapshot manifest" found) in
  if String.eqb (mf_manifest_version manifest) SNAPSHOT_MANIFEST_VERSION then ret manifest
  else fail "Unsupported snapshot manifest version".
Definition load_manifest (data : SnapshotData) : M Host (option SnapshotManifest) :=
  match sd_manifest_file data with
  | None => ret None
  | Some path => let! m := manifest_load path in ret (Some m)
  end.
Definition requires_manifest (mode : SnapshotTrustMode) : bool :=
  match mode with Dev => false | Manifest | Signed => true end.

(** The checks of [Signed] mode. *)
Definition verify_signature (data : SnapshotData) (manifest : option SnapshotManifest) : M Host unit :=
  let! manifest := lift (ok_or "Signed snapshot install requires a manifest" manifest) in
  let! scheme := lift (ok_or "Signed snapshot install requires manifest.signature_scheme"
                         (mf_signature_scheme manifest)) in
  if negb (String.eqb scheme SNAPSHOT_SIGNATURE_SCHEME_ED25519) then fail "Unsupported snapshot signature scheme"
  else
    let! signing_key_id := lift (ok_or "Signed snapshot install requires manifest.signing_key_id"
                                   (mf_signing_key_id manifest)) in
    let! signature_path := lift (ok_or "Signed snapshot install requires a signature sidecar path"
                                   (signature_path_for_manifest_file <$> sd_manifest_file data)) in
    let! signature_text := gets (λ h, fs_signatures (h_files h) !! signature_path) in
    match signature_text with
    | None => fail "Signed snapshot install requires signature sidecar, but it does not exist"
    | Some text =>
        let! trusted := lift (match trusted_keys_file with
                              | None => Err "Signed snapshot install requires snapshot.trusted_keys_file in config"
                              | Some keys => keys
                              end) in
        let! found := lift (find_verifying_key trusted signing_key_id) in
        let! verifying_key := lift (ok_or "Snapshot signer is not trusted" found) in
        let! signature := lift (decode_bytes "Failed to decode base64 snapshot signature"
                                  "Invalid Ed25519 signature length" 64 text) in
        if ed25519_verify verifying_key (canonical_bytes manifest) signature then ret tt
        else fail "Snapshot signature verification failed"
    end.

(** The checks of the manifest against the file: its name and its hash, in any case. *)
Definition lower (s : string) : string :=
  String.string_of_list_ascii ((λ c, let n := nat_of_ascii c in
    if Nat.leb 65 n && Nat.leb n 90 then ascii_of_nat (n + 32) else c) <$> String.list_ascii_of_string s).
Definition check_file (data : SnapshotData) (manifest : option SnapshotManifest) : M Host SnapshotDB :=
  let! found := gets (λ h, fs_snapshots (h_files h) !! sd_file data) in
  let! snapshot_db := lift (ok_or "Snapshot file does not exist" found) in
  match manifest with
  | None => ret snapshot_db
  | Some manifest =>
      if negb (String.eqb (mf_file_name manifest) (sd_file data))
      then fail "Snapshot manifest file_name mismatch"
      else if negb (String.eqb (lower (calc_hash snapshot_db)) (lower (mf_file_sha256 manifest)))
      then fail "Snapshot file hash mismatch"
      else ret snapshot_db
  end.
Definition check_meta (manifest : option SnapshotManifest) (snapshot_db : SnapshotDB) : M Host SnapshotMeta :=
  let! meta := lift (get_meta snapshot_db) in
  match manifest with
  | Some manifest =>
      if hs_block_height (mf_state_ref manifest) =? sm_block_height meta then ret meta
      else fail "Snapshot manifest block height mismatch"
  | None => ret meta
  end.

(** A fresh staging root, and an empty database opened in it. *)
Definition prepare_staging_root (nanos : u64) : M Host unit :=
  let! present := gets (λ h, bool_decide (is_Some (h_staging h !! nanos))) in
  let! _ := if (present : bool) then
              let! _ := dir_op "Failed to clear existing staging root" in
              modify (λ h, set_staging (delete nanos (h_staging h)) h)
            else ret tt in
  let! _ := dir_op "Failed to create staging root" in
  modify (λ h, set_staging (<[nanos := None]> (h_staging h)) h).
Definition open_staging_db (nanos : u64) : M Host unit :=
  let! _ := dir_op "Failed to initialize staging database" in
  modify (λ h, set_staging (<[nanos := Some empty_node_db]> (h_staging h)) h).

Definition validate_staged_manifest (nanos : u64) (meta : SnapshotMeta) (manifest : SnapshotManifest) :
    M Host unit :=
  let! staged := gets (λ h, nd_db (default empty_node_db (mjoin (h_staging h !! nanos)))) in
  let! actual := lift (ok_or "Failed to reconstruct staged historical state ref"
                         (snapshot_state_ref network staged (sm_block_height meta))) in
  if bool_decide (actual = mf_state_ref manifest) then ret tt
  else fail "Installed staged snapshot state ref mismatch".

Definition install_provenance (manifest : option SnapshotManifest) (signature_present signature_verified : bool)
    (meta : SnapshotMeta) : SnapshotInstallProvenance :=
  {| pv_origin := SnapshotInstall; pv_trust_mode := trust_mode;
     pv_verification_state :=
       if signature_verified then SignatureVerified
       else match manifest with Some _ => ManifestVerified | None => ManifestMissing end;
     pv_manifest_present := bool_decide (is_Some manifest);
     pv_manifest_verified := bool_decide (is_Some manifest);
     pv_signature_present := signature_present; pv_signature_verified := signature_verified;
     pv_manifest_version := mf_manifest_version <$> manifest;
     pv_signature_scheme := manifest ≫= mf_signature_scheme;
     pv_signing_key_id := manifest ≫= mf_signing_key_id;
     pv_snapshot_file_sha256 := mf_file_sha256 <$> manifest;
     pv_snapshot_id := (λ m, hs_snapshot_id (mf_state_ref m)) <$> manifest;
     pv_installed_block_height := sm_block_height meta |}.

(** The tables, the height, the check against the manifest and the provenance, in the staging root. *)
Definition stage (nanos : u64) (manifest : option SnapshotManifest) (signature_present signature_verified : bool)
    (snapshot_db : SnapshotDB) (meta : SnapshotMeta) : M Host unit :=
  let! _ := install_and_flush nanos (sm_balance_history_count meta) (install_balance_history_snapshot snapshot_db meta) in
  let! _ := install_and_flush nanos (sm_utxo_count meta) (install_utxo_snapshot snapshot_db meta) in
  let! _ := install_and_flush nanos (sm_block_commit_count meta) (install_block_commit_snapshot snapshot_db meta) in
  let! _ := install_and_flush nanos (sm_script_registry_count meta) (install_script_registry_snapshot snapshot_db meta) in
  let! _ := on_staging nanos (put_btc_block_height (sm_block_height meta)) in
  let! _ := dir_op "Failed to flush staging database" in
  let! _ := match manifest with
            | Some manifest => validate_staged_manifest nanos meta manifest
            | None => ret tt
            end in
  let! _ := put_snapshot_install_provenance nanos
              (install_provenance manifest signature_present signature_verified meta) in
  dir_op "Failed to flush snapshot install provenance metadata".

(** [std::fs::rename] of a directory: the destination must not exist. *)
Definition move_live_to_backup (secs : u64) (live : NodeDb) : M Host unit :=
  let! _ := dir_op "Failed to move live DB directory to backup" in
  let! taken := gets (λ h, bool_decide (is_Some (h_backups h !! secs))) in
  if (taken : bool) then fail "Failed to move live DB directory to backup"
  else modify (λ h, set_dirs None (<[secs := live]> (h_backups h)) (h_staging h) h).
Definition promote_staged (nanos : u64) (staged : NodeDb) : M Host unit :=
  let! _ := dir_op "Failed to promote staged DB to live" in
  modify (λ h, set_dirs (Some staged) (h_backups h) (<[nanos := None]> (h_staging h)) h).
(** [let _ = rename(backup, live)] *)
Definition restore_backup (secs : u64) : M Host unit :=
  let! backup := gets (λ h, h_backups h !! secs) in
  match backup with
  | None => ret tt
  | Some backup =>
      let! _ := try (let! _ := dir_op "rename" in
                     modify (λ h, set_dirs (Some backup) (delete secs (h_backups h)) (h_staging h) h)) in
      ret tt
  end.
Definition swap_staging_db_into_place (nanos secs : u64) : M Host unit :=
  let! staged := gets (λ h, mjoin (h_staging h !! nanos)) in
  match staged with
  | None => fail "Staged DB directory does not exist"
  | Some staged =>
      let! shared := gets h_live_shared in
      if (shared : bool) then fail "Failed to acquire exclusive ownership of live DB before snapshot swap"
      else
        let! live := gets h_live in
        let! _ := match live with
                  | Some live => move_live_to_backup secs live
                  | None => ret tt
                  end in
        let! promoted := try (promote_staged nanos staged) in
        match promoted with
        | inr _ =>
            let! _ := restore_backup secs in
            fail "Failed to promote staged DB to live"
        | inl _ =>
            let! present := gets (λ h, bool_decide (is_Some (h_staging h !! nanos))) in
            if (present : bool) then
              let! _ := dir_op "Failed to remove staging root" in
              modify (λ h, set_staging (delete nanos (h_staging h)) h)
            else ret tt
        end
  end.

(** Everything up to the staging root: the manifest, whether a signature is there and was verified,
    the file and its metadata. *)
Definition install_checks (data : SnapshotData) :
    M Host (option SnapshotManifest * (bool * bool) * (SnapshotDB * SnapshotMeta)) :=
  let! manifest := load_manifest data in
  if bool_decide (manifest = None) && requires_manifest trust_mode
  then fail "Snapshot install requires a manifest"
  else
    let! signature_present := gets (λ h, match sd_manifest_file data with
      | Some path => bool_decide (is_Some (fs_signatures (h_files h) !! signature_path_for_manifest_file path))
      | None => false
      end) in
    let! signature_verified :=
      match trust_mode with
      | Signed => let! _ := verify_signature data manifest in ret true
      | _ => ret false
      end in
    let! snapshot_db := check_file data manifest in
    let! meta := check_meta manifest snapshot_db in
    ret (manifest, (signature_present, signature_verified), (snapshot_db, meta)).
Definition install (nanos secs : u64) (data : SnapshotData) : M Host unit :=
  let! checked := install_checks data in
  let '(manifest, (signature_present, signature_verified), (snapshot_db, meta)) := checked in
  let! _ := prepare_staging_root nanos in
  let! _ := open_staging_db nanos in
  let! _ := stage nanos manifest signature_present signature_verified snapshot_db meta in
  swap_staging_db_into_place nanos secs.
End Install.
