(* ===== verification/SnapshotDemo.v ===== *)
(** * A small artifact

    Concrete crates, a database of one script, the files that its signed export leaves, and a host to
    install them on, for the witnesses of the snapshot theorems. *)

From stdpp Require Import pretty.
From S2P Require Import Prelude Encoding Types Tx BalanceCodec BalanceDb BalanceBlock BalanceChain BalanceDemo StateIds.
From S2P Require Import BalanceService BalanceServer SnapshotDb SnapshotPages SnapshotExport SnapshotInstall.

#[local] Existing Instance demo_crate.

(** Texts stand for bytes, and a signature is what is signed below the secret key. *)
Definition text_bytes (s : string) : list Z := (λ c, Z.of_nat (nat_of_ascii c)) <$> String.list_ascii_of_string s.
Definition bytes_text (l : list Z) : string := String.string_of_list_ascii ((λ b, ascii_of_nat (Z.to_nat b)) <$> l).
Definition demo_signature (secret m : list Z) : list Z :=
  take 64 (((λ b, b mod 256) <$> (secret ++ m)) ++ repeat 0 64).
#[local] Instance demo_snapshot_crates : SnapshotCrates := {|
  file_bytes s := [Z.of_nat (size (t_balance_history s)); Z.of_nat (size (t_utxos s));
                   Z.of_nat (size (t_block_commits s)); Z.of_nat (size (t_script_registry s))];
  canonical_bytes m := text_bytes (mf_file_sha256 m);
  base64_encode := bytes_text;
  base64_decode s := Some (text_bytes s);
  verifying_key_from_bytes := Some;
  ed25519_sign := demo_signature;
  ed25519_verify key m signature := bool_decide (signature = demo_signature key m)
|}.
#[local] Instance demo_export : ExportRun := {|
  balance_fault _ := None; utxo_fault _ := None; script_fault _ := None; commit_fault := None;
  shard_order := heights 0 255
|}.
Lemma demo_export_laws : @ExportRunLaws demo_export.
Proof. by split. Qed.
(** The scan of the shard of the demo's script fails at once. *)
Definition demo_faulty : ExportRun := {|
  balance_fault i := if i =? 5 then Some O else None; utxo_fault _ := None; script_fault _ := None;
  commit_fault := None; shard_order := heights 0 255
|}.
Lemma demo_faulty_laws : @ExportRunLaws demo_faulty.
Proof. by split. Qed.

Definition demo_script : USDBScriptHash := 5 * 2 ^ 248 + 9.
Definition demo_commit : BlockCommitEntry :=
  {| cm_block_height := 1; cm_btc_block_hash := 101; cm_balance_delta_root := repeat 3 32;
     cm_block_commit := repeat 4 32 |}.
Definition demo_out : OutPoint := {| op_txid := 11; vout := 0 |}.
Definition demo_db : BalanceHistoryDB :=
  {| balance_history_cf := {[ (demo_script, 1) := (50, 50) ]};
     utxo_cf := {[ demo_out := {| uv_script_hash := demo_script; uv_value := 50 |} ]};
     script_registry_cf := {[ demo_script := [1; 2] ]}; block_commits_cf := {[ 1 := demo_commit ]};
     block_undo_meta_cf := ∅; block_undo_created_utxos_cf := ∅; block_undo_spent_utxos_cf := ∅;
     block_undo_balance_index_cf := ∅; meta_cf := {[ META_KEY_BTC_BLOCK_HEIGHT := 1 ]} |}.

Definition demo_secret : string := "KKKKKKKKKKKKKKKKKKKKKKKKKKKKKKKK".
Definition demo_key : SnapshotSigningKeyFile := {| sk_key_id := "signer"; sk_secret_key_base64 := demo_secret |}.
Definition demo_keys : SnapshotTrustedKeySet :=
  {| ks_keys := [{| pk_key_id := "signer"; pk_public_key_base64 := demo_secret |}] |}.
Definition no_files : Files := {| fs_snapshots := ∅; fs_manifests := ∅; fs_signatures := ∅ |}.
Definition demo_files : Files := (run "regtest" (Some (Ok demo_key)) 7 demo_db 1 true no_files).2.
Definition demo_data : SnapshotData :=
  {| sd_file := "snapshot_1.db"; sd_manifest_file := Some "snapshot_1.manifest.json" |}.
Definition demo_host (faults : list bool) : Host :=
  {| h_files := demo_files; h_live := Some empty_node_db; h_backups := ∅; h_staging := ∅;
     h_live_shared := false; h_dir_faults := faults; h_writes_left := None |}.
