(* ===== verification/SnapshotSafety.v ===== *)
(** * What an installation can do to a node

    However an installation of [SnapshotInstall] ends, the live database is the old one, or the staged
    one with the old one as a backup, or the old one waits in the backup directory; and a staged
    database that went live matches the manifest, which in [Signed] mode a trusted key has signed. *)

From S2P Require Import Prelude Encoding Types Tx BalanceCodec BalanceDb BalanceBlock StateIds.
From S2P Require Import BalanceService BalanceServer SnapshotDb SnapshotPages SnapshotExport SnapshotInstall.
From S2P Require Import BalanceDemo SnapshotDemo.

Definition is_signed (mode : SnapshotTrustMode) : bool := match mode with Signed => true | _ => false end.

(** ** Before the exchange *)

(** The live database, its backups and the files are as they were; only staging roots change. *)
Definition only_staging (h h' : Host) : Prop :=
  h_live h' = h_live h ∧ h_backups h' = h_backups h ∧ h_files h' = h_files h
  ∧ h_live_shared h' = h_live_shared h.
#[export] Instance only_staging_refl : Reflexive only_staging.
Proof. done. Qed.
#[export] Instance only_staging_trans : Transitive only_staging.
Proof.
  intros h1 h2 h3 (E1 & E2 & E3 & E4) (F1 & F2 & F3 & F4).
  unfold only_staging. by rewrite F1, F2, F3, F4.
Qed.

Definition same_host (h h' : Host) : Prop := h' = h.
#[export] Instance same_host_refl : Reflexive same_host.
Proof. done. Qed.
#[export] Instance same_host_trans : Transitive same_host.
Proof. unfold same_host. by intros h1 h2 h3 -> ->. Qed.

Lemma moves_dir_op msg : moves only_staging (dir_op msg).
Proof. intros h. unfold dir_op. by destruct (h_dir_faults h). Qed.
Lemma moves_on_staging {A} nanos (m : M Disk A) : moves only_staging (on_staging nanos m).
Proof. intros h. unfold on_staging. by destruct (m _) as [r d]. Qed.
Lemma moves_put_provenance nanos p : moves only_staging (put_provenance nanos p).
Proof. intros h. unfold put_provenance. by destruct (h_writes_left h) as [[|w]|]. Qed.
Lemma moves_staging_root (f : Host → gmap u64 (option NodeDb)) :
  moves only_staging (modify (λ h, set_staging (f h) h)).
Proof. done. Qed.
#[export] Hint Resolve moves_dir_op moves_on_staging moves_put_provenance moves_staging_root : moves.

Section Safety.
Context `{BitcoinCrate} `{SnapshotCrates} (network : string) (trust_mode : SnapshotTrustMode).
Context (trusted_keys_file : option (result SnapshotTrustedKeySet)).

Abbreviation install := (install network trust_mode trusted_keys_file).
Abbreviation install_checks := (install_checks trust_mode trusted_keys_file).
Abbreviation stage := (stage network trust_mode).

(** The checks change nothing. *)
Lemma load_read_only data : moves same_host (load_manifest data).
Proof. unfold load_manifest, manifest_load. move_steps. Qed.
Lemma verify_read_only data manifest : moves same_host (verify_signature trusted_keys_file data manifest).
Proof. unfold verify_signature. move_steps. Qed.
Lemma check_file_read_only data manifest : moves same_host (check_file data manifest).
Proof. unfold check_file. move_steps. Qed.
Lemma check_meta_read_only manifest s : moves same_host (check_meta manifest s).
Proof. unfold check_meta. move_steps. Qed.
#[local] Hint Resolve load_read_only verify_read_only check_file_read_only check_meta_read_only : moves.
Lemma checks_read_only data h : (install_checks data h).2 = h.
Proof.
  assert (moves same_host (install_checks data)) as Hm; [|apply Hm].
  unfold SnapshotInstall.install_checks. move_steps.
Qed.
(** The part of a read-only sequence that is left to run. *)
Lemma read_only_bind {A B} (m : M Host A) (f : A → M Host B) h b h' :
  moves same_host m → bind m f h = (Ok b, h') → ∃ a, m h = (Ok a, h) ∧ f a h = (Ok b, h').
Proof.
  intros Hm (a & h1 & E1 & E2)%bind_Ok. specialize (Hm h). rewrite E1 in Hm. unfold same_host in Hm. cbn in Hm. subst. eauto.
Qed.
Lemma prepare_only_staging nanos : moves only_staging (prepare_staging_root nanos).
Proof. unfold prepare_staging_root. move_steps. Qed.
Lemma open_only_staging nanos : moves only_staging (open_staging_db nanos).
Proof. unfold open_staging_db. move_steps. Qed.
Lemma stage_only_staging nanos manifest sp sv s meta : moves only_staging (stage nanos manifest sp sv s meta).
Proof.
  unfold SnapshotInstall.stage, install_and_flush, validate_staged_manifest, put_snapshot_install_provenance.
  move_steps.
Qed.

(** ** The exchange *)

(** Whatever an operation on directories does, the directories are as before it, or it is done. *)
Definition same_dirs (h h' : Host) : Prop :=
  h_files h' = h_files h ∧ h_live h' = h_live h ∧ h_backups h' = h_backups h ∧ h_staging h' = h_staging h
  ∧ h_live_shared h' = h_live_shared h ∧ h_writes_left h' = h_writes_left h.
Lemma same_dirs_only_staging h h' : same_dirs h h' → only_staging h h'.
Proof. by intros (?&?&?&?&?&?). Qed.

(** The staged database is live and the old one is a backup. *)
Definition exchanged (secs : u64) (old staged : NodeDb) (h h' : Host) : Prop :=
  h_live h' = Some staged ∧ h_backups h' = <[secs := old]> (h_backups h).
(** Neither is live: the old one waits in its backup directory. *)
Definition stranded (secs : u64) (old : NodeDb) (h h' : Host) : Prop :=
  h_live h' = None ∧ h_backups h' = <[secs := old]> (h_backups h).

Lemma dir_op_cases msg h : ∃ h1, same_dirs h h1 ∧ (dir_op msg h = (Ok tt, h1) ∨ dir_op msg h = (Err msg, h1)).
Proof.
  unfold dir_op. destruct (h_dir_faults h) as [|[] faults]; eexists; (split; [|by eauto]); done.
Qed.

Lemma swap_outcome nanos secs old staged h r h' :
  h_live h = Some old → mjoin (h_staging h !! nanos) = Some staged →
  swap_staging_db_into_place nanos secs h = (r, h') →
  (r = Ok tt ∧ exchanged secs old staged h h' ∧ h_staging h' !! nanos = None)
  ∨ (r = Err "Failed to remove staging root" ∧ exchanged secs old staged h h')
  ∨ (is_ok r = false ∧ only_staging h h')
  ∨ (r = Err "Failed to promote staged DB to live" ∧ stranded secs old h h').
Proof.
  intros El Es. unfold swap_staging_db_into_place. erewrite bind_run by reflexivity. rewrite Es.
  erewrite bind_run by reflexivity. destruct (h_live_shared h); [intros [= <- <-]; by right; right; left|].
  erewrite bind_run by reflexivity. rewrite El. unfold move_live_to_backup.
  destruct (dir_op_cases "Failed to move live DB directory to backup" h) as (h1 & D1 & [E1|E1]).
  2: { erewrite bind_run_Err by (by rewrite (bind_run_Err _ _ _ _ _ E1)). intros [= <- <-]. right; right; left.
       split; [done|]. by apply same_dirs_only_staging. }
  rewrite bind_assoc, (bind_run _ _ _ _ _ E1), bind_assoc. erewrite bind_run by reflexivity.
  destruct (bool_decide _) eqn:Etaken.
  { intros [= <- <-]. right; right; left. split; [done|]. by apply same_dirs_only_staging. }
  erewrite bind_run by reflexivity. apply bool_decide_eq_false, eq_None_not_Some in Etaken.
  set (h2 := set_dirs None _ _ h1). unfold promote_staged.
  destruct (dir_op_cases "Failed to promote staged DB to live" h2) as (h3 & D3 & [E3|E3]).
  - erewrite bind_run by (unfold try; by rewrite (bind_run _ _ _ _ _ E3)). cbv beta iota.
    erewrite bind_run by reflexivity. cbn [h_staging set_dirs]. rewrite lookup_insert_eq. 
    rewrite bool_decide_true by done. set (h4 := set_dirs (Some staged) _ _ h3).
    destruct D1 as (_ & F1 & G1 & _), D3 as (_ & F3 & G3 & _). cbn in F3, G3.
    assert (exchanged secs old staged h h4) as X by (split; [done|]; cbn; by rewrite G3, G1).
    destruct (dir_op_cases "Failed to remove staging root" h4) as (h5 & (_ & F5 & G5 & _) & [E5|E5]).
    + rewrite (bind_run _ _ _ _ _ E5). intros [= <- <-]. left. split; [done|].
      split; [split; cbn; rewrite ?F5, ?G5; apply X|]. cbn. apply lookup_delete_eq.
    + rewrite (bind_run_Err _ _ _ _ _ E5). intros [= <- <-]. right; left. split; [done|].
      split; rewrite ?F5, ?G5; apply X.
  - erewrite bind_run by (unfold try; by rewrite (bind_run_Err _ _ _ _ _ E3)). cbv beta iota.
    destruct D1 as (A1 & B1 & G1 & S1 & L1 & _), D3 as (A3 & B3 & G3 & S3 & L3 & _). cbn in A3, B3, G3, S3, L3.
    unfold restore_backup. rewrite bind_assoc. erewrite bind_run by reflexivity. rewrite G3, lookup_insert_eq.
    destruct (dir_op_cases "rename" h3) as (h5 & (A5 & B5 & G5 & S5 & L5 & _) & [E5|E5]).
    + rewrite bind_assoc. erewrite bind_run by (unfold try; by rewrite (bind_run _ _ _ _ _ E5)). cbn.
      intros [= <- <-]. right; right; left. split; [done|]. split_and!; cbn; try congruence.
      rewrite G5, G3, delete_insert_id by congruence. congruence.
    + rewrite bind_assoc. erewrite bind_run by (unfold try; by rewrite (bind_run_Err _ _ _ _ _ E5)). cbn.
      intros [= <- <-]. right; right; right. split; [done|]. split; congruence.
Qed.

(** ** What the checks establish *)

Lemma load_manifest_Ok data h m h' :
  load_manifest data h = (Ok m, h') →
  match m with
  | None => sd_manifest_file data = None
  | Some m => ∃ path, sd_manifest_file data = Some path ∧ fs_manifests (h_files h) !! path = Some m
                      ∧ mf_manifest_version m = SNAPSHOT_MANIFEST_VERSION
  end.
Proof.
  unfold load_manifest, manifest_load. destruct (sd_manifest_file data) as [path|]; intros Hm; [|by minv Hm].
  minv Hm. found_some. case_match eqn:Ev; [|done]. apply String.eqb_eq in Ev.
  match goal with Hr : ret _ _ = _ |- _ => minv Hr end. eauto.
Qed.

(** A key of the trusted set verifies the manifest with the signature beside it. *)
Definition signed_by_trusted_key (data : SnapshotData) (fs : Files) (manifest : SnapshotManifest) : Prop :=
  ∃ keys key_id path text verifying_key signature,
    trusted_keys_file = Some (Ok keys)
    ∧ mf_signature_scheme manifest = Some SNAPSHOT_SIGNATURE_SCHEME_ED25519
    ∧ mf_signing_key_id manifest = Some key_id
    ∧ sd_manifest_file data = Some path
    ∧ fs_signatures fs !! signature_path_for_manifest_file path = Some text
    ∧ find_verifying_key keys key_id = Ok (Some verifying_key)
    ∧ base64_decode text = Some signature
    ∧ ed25519_verify verifying_key (canonical_bytes manifest) signature = true.

Lemma verify_signature_Ok data manifest h h' :
  verify_signature trusted_keys_file data manifest h = (Ok tt, h') →
  ∃ m, manifest = Some m ∧ signed_by_trusted_key data (h_files h) m.
Proof.
  unfold verify_signature. intros Hm. minv Hm. found_some.
  case_match eqn:Ev; [done|]. apply negb_false_iff, String.eqb_eq in Ev.
  match goal with Hr : bind _ _ _ = _ |- _ => minv Hr end. found_some.
  match goal with Hp : _ <$> _ = Some _ |- _ => apply fmap_Some in Hp as (path & Epath & ->) end.
  case_match eqn:Etext; [|done]. match goal with Hr : bind _ _ _ = _ |- _ => minv Hr end. found_some.
  case_match eqn:Ever; [|done]. match goal with Hr : ret _ _ = _ |- _ => minv Hr end.
  match goal with Hd : decode_bytes _ _ _ _ = Ok _ |- _ => unfold decode_bytes in Hd; apply result_bind_Ok in Hd as (raw & Hraw & Hd) end.
  found_some. case_match; [|done]. simplify_eq. case_match eqn:Ek; [|done]. subst.
  eexists. split; [done|]. do 6 eexists. split_and!; done.
Qed.

Lemma check_file_Ok data manifest h s h' :
  check_file data manifest h = (Ok s, h') →
  fs_snapshots (h_files h) !! sd_file data = Some s
  ∧ ∀ m, manifest = Some m → mf_file_name m = sd_file data ∧ lower (calc_hash s) = lower (mf_file_sha256 m).
Proof.
  unfold check_file. intros Hm. minv Hm. found_some. destruct manifest as [m|].
  - case_match eqn:En; [done|]. apply negb_false_iff, String.eqb_eq in En.
    case_match eqn:Eh; [done|]. apply negb_false_iff, String.eqb_eq in Eh.
    match goal with Hr : ret _ _ = _ |- _ => minv Hr end. split; [done|]. by intros ? [= <-].
  - match goal with Hr : ret _ _ = _ |- _ => minv Hr end. done.
Qed.
Lemma check_meta_Ok manifest s h meta h' :
  check_meta manifest s h = (Ok meta, h') →
  get_meta s = Ok meta ∧ ∀ m, manifest = Some m → hs_block_height (mf_state_ref m) = sm_block_height meta.
Proof.
  unfold check_meta. intros Hm. minv Hm. destruct manifest as [m|].
  - case_match eqn:Eh; [|done]. apply Z.eqb_eq in Eh. match goal with Hr : ret _ _ = _ |- _ => minv Hr end.
    split; [done|]. by intros ? [= <-].
  - match goal with Hr : ret _ _ = _ |- _ => minv Hr end. done.
Qed.

(** ** What is staged *)

Definition staged_at (nanos : u64) (h : Host) : option NodeDb := mjoin (h_staging h !! nanos).

Lemma on_staging_Ok {A} nanos (m : M Disk A) h a h' :
  on_staging nanos m h = (Ok a, h') →
  ∃ nd d, m {| db := nd_db (default empty_node_db (staged_at nanos h)); writes_left := h_writes_left h |} = (Ok a, d)
    ∧ staged_at nanos h' = Some nd ∧ nd_db nd = db d
    ∧ nd_provenance nd = nd_provenance (default empty_node_db (staged_at nanos h)).
Proof.
  unfold on_staging, staged_at. destruct (m _) as [r d] eqn:E. intros [= -> <-].
  eexists _, d. split; [done|]. cbn. by rewrite lookup_insert_eq.
Qed.
(** A write of a meta value leaves the commits and the provenance. *)
Lemma put_meta_Ok nanos key v h u h' nd :
  on_staging nanos (put_u32_meta key v) h = (Ok u, h') → staged_at nanos h = Some nd →
  ∃ nd', staged_at nanos h' = Some nd' ∧ block_commits_cf (nd_db nd') = block_commits_cf (nd_db nd)
    ∧ nd_provenance nd' = nd_provenance nd.
Proof.
  intros (nd' & d & E & Es & Ed & Ep)%on_staging_Ok Eh. rewrite Eh in E, Ep. exists nd'. split; [done|]. split; [|done].
  rewrite Ed. unfold put_u32_meta, write in E. cbn in E. by destruct (h_writes_left h) as [[|w]|]; simplify_eq.
Qed.
Lemma put_provenance_Ok nanos p h u h' nd :
  put_snapshot_install_provenance nanos p h = (Ok u, h') → staged_at nanos h = Some nd →
  ∃ nd', staged_at nanos h' = Some nd' ∧ block_commits_cf (nd_db nd') = block_commits_cf (nd_db nd)
    ∧ nd_provenance nd' = Some p.
Proof.
  unfold put_snapshot_install_provenance. intros Hm Eh. apply bind_Ok in Hm as (u1 & h1 & E1 & Hm).
  apply bind_Ok in Hm as (u2 & h2 & E2 & E3).
  assert (staged_at nanos h1 = Some {| nd_db := nd_db nd; nd_provenance := Some p |}) as S1.
  { unfold put_provenance in E1. unfold staged_at in Eh. rewrite Eh in E1. unfold staged_at.
    destruct (h_writes_left h) as [[|w]|]; simplify_eq; cbn; by rewrite lookup_insert_eq. }
  destruct (put_meta_Ok _ _ _ _ _ _ _ E2 S1) as (nd2 & S2 & C2 & P2).
  destruct (put_meta_Ok _ _ _ _ _ _ _ E3 S2) as (nd3 & S3 & C3 & P3).
  exists nd3. rewrite C3, P3, C2, P2. done.
Qed.
Lemma dir_op_Ok msg h u h' : dir_op msg h = (Ok u, h') → same_dirs h h'.
Proof. destruct (dir_op_cases msg h) as (h1 & D & [->| ->]); [by intros [= _ <-]|done]. Qed.
Lemma staged_at_dirs nanos h h' : same_dirs h h' → staged_at nanos h' = staged_at nanos h.
Proof. intros (_ & _ & _ & E & _). unfold staged_at. by rewrite E. Qed.

Lemma stage_Ok nanos manifest sp sv s meta h u h' :
  stage nanos manifest sp sv s meta h = (Ok u, h') →
  ∃ staged, staged_at nanos h' = Some staged
    ∧ nd_provenance staged = Some (install_provenance trust_mode manifest sp sv meta)
    ∧ ∀ m, manifest = Some m →
        snapshot_state_ref network (nd_db staged) (sm_block_height meta) = Some (mf_state_ref m).
Proof.
  unfold SnapshotInstall.stage. intros Hm.
  do 4 apply bind_Ok in Hm as (? & ? & _ & Hm).
  apply bind_Ok in Hm as (? & h1 & E1 & Hm). apply bind_Ok in Hm as (? & h2 & E2 & Hm).
  apply bind_Ok in Hm as (? & h3 & E3 & Hm). apply bind_Ok in Hm as (? & h4 & E4 & E5).
  apply on_staging_Ok in E1 as (nd & _ & _ & S1 & _). apply dir_op_Ok in E2 as D2. apply dir_op_Ok in E5 as D5.
  rewrite <-(staged_at_dirs _ _ _ D2) in S1.
  assert (h3 = h2 ∧ ∀ m, manifest = Some m →
            snapshot_state_ref network (nd_db nd) (sm_block_height meta) = Some (mf_state_ref m)) as [-> Href].
  { destruct manifest as [m|]; [|by minv E3]. unfold validate_staged_manifest in E3.
    unfold staged_at in S1. apply bind_Ok in E3 as (nd' & h2' & Eg & E3). unfold gets in Eg. rewrite S1 in Eg.
    simplify_eq. minv E3. found_some. case_bool_decide; [|done].
    match goal with Hr : ret _ _ = _ |- _ => minv Hr end. split; [done|]. intros ? [= <-]. congruence. }
  destruct (put_provenance_Ok _ _ _ _ _ _ E4 S1) as (nd' & S4 & C4 & P4).
  exists nd'. rewrite (staged_at_dirs _ _ _ D5). split_and!; [done..|]. intros m Em. specialize (Href m Em).
  unfold snapshot_state_ref in *. by rewrite C4.
Qed.

(** ** Theorems *)

(** An installation is its checks, the staging, and the exchange. *)
Lemma install_cases nanos secs data h r h' :
  install nanos secs data h = (r, h') →
  (is_ok r = false ∧ h' = h ∧ is_ok (install_checks data h).1 = false)
  ∨ ∃ manifest sp sv s meta,
      install_checks data h = (Ok (manifest, (sp, sv), (s, meta)), h)
      ∧ ((is_ok r = false ∧ only_staging h h')
         ∨ ∃ h1 h2, stage nanos manifest sp sv s meta h1 = (Ok tt, h2) ∧ only_staging h h2
             ∧ swap_staging_db_into_place nanos secs h2 = (r, h')).
Proof.
  unfold SnapshotInstall.install. pose proof (checks_read_only data h) as Hro.
  destruct (install_checks data h) as [rc hc] eqn:Ec. cbn in Hro. subst hc.
  destruct rc as [[[manifest [sp sv]] [s meta]]|e|e].
  2: { rewrite (bind_run_Err _ _ _ _ _ Ec). intros [= <- <-]. by left. }
  2: { rewrite (bind_run_Panic _ _ _ _ _ Ec). intros [= <- <-]. by left. }
  rewrite (bind_run _ _ _ _ _ Ec). intros Hr. right. do 5 eexists. split; [done|].
  pose proof (prepare_only_staging nanos h) as M1. destruct (prepare_staging_root nanos h) as [r1 h1] eqn:E1.
  destruct r1 as [u1|e|e].
  2: { rewrite (bind_run_Err _ _ _ _ _ E1) in Hr. simplify_eq. by left. }
  2: { rewrite (bind_run_Panic _ _ _ _ _ E1) in Hr. simplify_eq. by left. }
  rewrite (bind_run _ _ _ _ _ E1) in Hr. cbn in M1.
  pose proof (open_only_staging nanos h1) as M2. destruct (open_staging_db nanos h1) as [r2 h2] eqn:E2.
  cbn in M2. assert (only_staging h h2) as M12 by by etransitivity.
  destruct r2 as [u2|e|e].
  2: { rewrite (bind_run_Err _ _ _ _ _ E2) in Hr. simplify_eq. by left. }
  2: { rewrite (bind_run_Panic _ _ _ _ _ E2) in Hr. simplify_eq. by left. }
  rewrite (bind_run _ _ _ _ _ E2) in Hr.
  pose proof (stage_only_staging nanos manifest sp sv s meta h2) as M3.
  destruct (stage _ _ _ _ _ _ h2) as [r3 h3] eqn:E3.
  cbn in M3. assert (only_staging h h3) as M13 by by etransitivity.
  destruct r3 as [[]|e|e].
  2: { rewrite (bind_run_Err _ _ _ _ _ E3) in Hr. simplify_eq. by left. }
  2: { rewrite (bind_run_Panic _ _ _ _ _ E3) in Hr. simplify_eq. by left. }
  rewrite (bind_run _ _ _ _ _ E3) in Hr. right. eauto.
Qed.

(** C12. However an installation ends, no database is lost.  A failed check changes nothing at all.
    Otherwise the live database and its backups are as before and an error is reported; or the staged
    database is live and the old one is in the backup directory, reported as a success, or as an error
    when only the removal of the staging root failed; or, when the second rename and the attempt to
    undo the first one both failed, there is no live database and the backup directory holds the old
    one. *)
Theorem install_outcome nanos secs data old h r h' :
  h_live h = Some old → install nanos secs data h = (r, h') →
  (is_ok (install_checks data h).1 = false → is_ok r = false ∧ h' = h)
  ∧ ((is_ok r = false ∧ only_staging h h')
     ∨ (∃ staged, exchanged secs old staged h h'
          ∧ (r = Ok tt ∧ h_staging h' !! nanos = None ∨ r = Err "Failed to remove staging root"))
     ∨ (r = Err "Failed to promote staged DB to live" ∧ stranded secs old h h')).
Proof.
  intros El [(Hr & -> & Ef)|(manifest & sp & sv & s & meta & Ec & Hr)]%install_cases; [by split; [|left]|].
  split; [by rewrite Ec|]. destruct Hr as [Hr|(h1 & h2 & Es & M2 & Hr)]; [by left|].
  apply stage_Ok in Es as (staged & Es & _). pose proof M2 as (L2 & B2 & _). rewrite El in L2.
  assert (∀ h', only_staging h2 h' → only_staging h h') as Htr by (intros ? ?; by etransitivity).
  unfold exchanged, stranded in *.
  destruct (swap_outcome nanos secs old staged h2 r h' L2 Es Hr) as [(-> & X & Hst)|[(-> & X)|[(Hf & X)|(-> & X)]]];
    unfold exchanged, stranded in X; rewrite ?B2 in X; eauto 10.
Qed.

(** The manifest, the file and the staged database belong together. *)
Record manifest_agrees (data : SnapshotData) (fs : Files) (s : SnapshotDB) (meta : SnapshotMeta)
    (staged : NodeDb) (m : SnapshotManifest) : Prop := {
  ma_loaded : ∃ path, sd_manifest_file data = Some path ∧ fs_manifests fs !! path = Some m;
  ma_version : mf_manifest_version m = SNAPSHOT_MANIFEST_VERSION;
  ma_name : mf_file_name m = sd_file data;
  ma_hash : lower (calc_hash s) = lower (mf_file_sha256 m);
  ma_height : hs_block_height (mf_state_ref m) = sm_block_height meta;
  ma_state : snapshot_state_ref network (nd_db staged) (sm_block_height meta) = Some (mf_state_ref m)
}.
Definition checked_by_manifest (data : SnapshotData) (fs : Files) (staged : NodeDb) : Prop :=
  ∃ manifest sp s meta,
    fs_snapshots fs !! sd_file data = Some s ∧ get_meta s = Ok meta
    ∧ nd_provenance staged
      = Some (install_provenance trust_mode manifest sp (is_signed trust_mode) meta)
    ∧ (∀ m, manifest = Some m → manifest_agrees data fs s meta staged m)
    ∧ (manifest = None → trust_mode = Dev ∧ sd_manifest_file data = None)
    ∧ (trust_mode = Signed → ∃ m, manifest = Some m ∧ signed_by_trusted_key data fs m).

Lemma checks_Ok data h manifest sp sv s meta h' :
  install_checks data h = (Ok (manifest, (sp, sv), (s, meta)), h') →
  fs_snapshots (h_files h) !! sd_file data = Some s ∧ get_meta s = Ok meta
  ∧ sv = is_signed trust_mode
  ∧ match manifest with
    | None => trust_mode = Dev ∧ sd_manifest_file data = None
    | Some m => ∀ staged,
        snapshot_state_ref network (nd_db staged) (sm_block_height meta) = Some (mf_state_ref m) →
        manifest_agrees data (h_files h) s meta staged m
    end
  ∧ (trust_mode = Signed → ∃ m, manifest = Some m ∧ signed_by_trusted_key data (h_files h) m).
Proof.
  unfold SnapshotInstall.install_checks. intros Hm.
  apply read_only_bind in Hm as (m & E1 & Hm); [|auto with moves]. apply load_manifest_Ok in E1.
  destruct (_ && _) eqn:Ereq; [done|].
  apply read_only_bind in Hm as (sp' & E2 & Hm); [|by apply moves_pure].
  apply read_only_bind in Hm as (sv' & E3 & Hm); [|destruct trust_mode; move_steps].
  apply read_only_bind in Hm as (s' & E4 & Hm); [|auto with moves]. apply check_file_Ok in E4 as [Es Hfile].
  apply read_only_bind in Hm as (meta' & E5 & Hm); [|auto with moves]. apply check_meta_Ok in E5 as [Em Hmeta].
  unfold ret in Hm. injection Hm as -> -> -> -> -> <-. split; [done|]. split; [done|].
  assert (sv = is_signed trust_mode ∧ (trust_mode = Signed → ∃ m, manifest = Some m ∧ signed_by_trusted_key data (h_files h) m)) as [-> Hsig].
  { destruct trust_mode; [by minv E3|by minv E3|]. apply bind_Ok in E3 as ([] & h1 & E3 & E3'). minv E3'.
    split; [done|]. intros _. by eapply verify_signature_Ok. }
  split; [done|]. split; [|done]. destruct manifest as [m|].
  - intros staged Href. destruct E1 as (path & Ep & Ef & Ev). destruct (Hfile m eq_refl). pose proof (Hmeta m eq_refl).
    split; eauto.
  - split; [|done]. rewrite bool_decide_true in Ereq by done. by destruct trust_mode.
Qed.

(** C16. A database that an installation made live was checked: its provenance says so, and when a
    manifest was required or given, the manifest names the file, has its SHA-256 hash and height, and
    is the state reference of the staged database; in [Signed] mode a key of the trusted set has
    signed that manifest. *)
Theorem installed_database_checked nanos secs data old h r h' staged :
  h_live h = Some old → install nanos secs data h = (r, h') → h_live h' = Some staged → staged ≠ old →
  checked_by_manifest data (h_files h) staged.
Proof.
  intros El [(Hr & -> & Ef)|(manifest & sp & sv & s & meta & Ec & Hr)]%install_cases El' Hne; [congruence|].
  destruct Hr as [(_ & L & _)|(h1 & h2 & Est & (L2 & _) & Hr)]; [congruence|].
  apply stage_Ok in Est as (st & Es & Hp & Href). rewrite El in L2.
  assert (h_live h' = Some st) as Elst.
  { destruct (swap_outcome nanos secs old st h2 r h' L2 Es Hr) as [(_ & X & _)|[(_ & X)|[(_ & X)|(_ & X)]]]; [apply X..| |].
    - destruct X as [X _]. congruence.
    - destruct X as [X _]. congruence. }
  assert (st = staged) as -> by congruence. clear Elst.
  destruct (checks_Ok _ _ _ _ _ _ _ _ Ec) as (Ef & Em & -> & Hm & Hsig).
  exists manifest, sp, s, meta. split_and!; [done..| | |done].
  - intros m ->. apply Hm. by apply Href.
  - intros ->. done.
Qed.
End Safety.

(** ** Witnesses *)

#[local] Existing Instances demo_crate demo_snapshot_crates demo_export.

(** The second rename fails, and so does the attempt to undo the first one. *)
Lemma install_outcome_witness :
  let h := demo_host (repeat false 9 ++ [true; true]) in
  ∃ h', install "regtest" Signed (Some (Ok demo_keys)) 3 4 demo_data h
        = (Err "Failed to promote staged DB to live", h')
    ∧ stranded 4 empty_node_db h h'.
Proof.
  set (h := demo_host _).
  destruct (install "regtest" Signed (Some (Ok demo_keys)) 3 4 demo_data h) as [r h'] eqn:E.
  pose proof (install_outcome "regtest" Signed (Some (Ok demo_keys)) 3 4 demo_data empty_node_db h r h' eq_refl E) as [_ H].
  assert (h_live h' = None) as Hl.
  { change h' with (r, h').2. rewrite <-E. vm_compute. reflexivity. }
  destruct H as [(_ & X & _)|[(staged & (X & _) & _)|(-> & X)]].
  - rewrite Hl in X. discriminate X.
  - rewrite Hl in X. discriminate X.
  - eauto.
Defined.

Lemma installed_database_checked_witness :
  ∃ staged, h_live (install "regtest" Signed (Some (Ok demo_keys)) 3 4 demo_data (demo_host [])).2 = Some staged
    ∧ checked_by_manifest "regtest" Signed (Some (Ok demo_keys)) demo_data demo_files staged.
Proof.
  destruct (install "regtest" Signed (Some (Ok demo_keys)) 3 4 demo_data (demo_host [])) as [r h'] eqn:E.
  assert (size <$> (balance_history_cf <$> (nd_db <$> h_live h')) = Some 1%nat) as Hl.
  { change h' with (r, h').2. rewrite <-E. vm_compute. reflexivity. }
  cbn [snd]. destruct (h_live h') as [staged|] eqn:Es; [|discriminate Hl]. exists staged. split; [done|].
  apply (installed_database_checked "regtest" Signed (Some (Ok demo_keys)) 3 4 demo_data empty_node_db (demo_host []) r h');
    [done|exact E|exact Es|]. intros ->. discriminate Hl.
Defined.
