(* ===== verification/SnapshotShards.v ===== *)
(** * The rows that the shards of an export visit

    The 256 reverse scans of the generators of [SnapshotExport]: the rows each of them reads, that
    together they read every row once, and the one row per script that the scan of the balance history
    keeps.  An iterator that fails cuts its scan short, and nothing else. *)

From stdpp Require Import pretty.
From S2P Require Import Prelude Encoding Types Tx BalanceCodec BalanceDb BalanceDbFacts BalanceBlock.
From S2P Require Import SnapshotDb SnapshotExport.

(** ** Lists *)

(** What a scan with a fault yields before it. *)
Definition before_fault {A} (fault : option nat) (l : list A) : list A :=
  match fault with Some n => take n l | None => l end.
Lemma while_ok_fmap {A} (l : list A) : while_ok (Ok <$> l) = l.
Proof. induction l; cbn; by f_equal. Qed.
Lemma while_ok_app {A} (l : list A) items : while_ok ((Ok <$> l) ++ items) = l ++ while_ok items.
Proof. induction l; cbn; by f_equal. Qed.
Lemma while_ok_iterate {A} fault (l : list A) : while_ok (iterate fault l) = before_fault fault l.
Proof.
  destruct fault; cbn; [by rewrite while_ok_app, app_nil_r|apply while_ok_fmap].
Qed.
Lemma elem_of_before_fault {A} fault (l : list A) x : x ∈ before_fault fault l → x ∈ l.
Proof. destruct fault; cbn; [|done]. intros (i & Hi & _)%elem_of_take. by eapply list_elem_of_lookup_2. Qed.
Lemma StronglySorted_before_fault {A} (R : A → A → Prop) fault l :
  StronglySorted R l → StronglySorted R (before_fault fault l).
Proof.
  destruct fault as [n|]; cbn; [|done]. rewrite <-(take_drop n l) at 1. apply StronglySorted_app_1_l.
Qed.

(** Elements drawn from groups that do not overlap. *)
Lemma NoDup_bind_by {A B C} (f : B → C) (g : A → list B) (l : list A) :
  NoDup l → (∀ i, i ∈ l → NoDup (f <$> g i)) →
  (∀ i j x y, x ∈ g i → y ∈ g j → f x = f y → i = j) → NoDup (f <$> (l ≫= g)).
Proof.
  intros Hl Hg Hd. induction Hl as [|i l Hi Hl IH]; [constructor|]. cbn. rewrite fmap_app. apply NoDup_app.
  split; [by apply Hg, list_elem_of_here|]. split.
  - intros c (x & -> & Hx)%list_elem_of_fmap (y & E & (j & Hy & Hj)%list_elem_of_bind)%list_elem_of_fmap.
    by rewrite (Hd i j x y) in Hi.
  - apply IH. intros j Hj. apply Hg. by right.
Qed.

(** ** One shard *)

Lemma bytes_le_cons x y l k : bytes_le (x :: l) (y :: k) = true → x <= y.
Proof. cbn. destruct (x <? y) eqn:E1; b2p; [lia|]. destruct (y <? x) eqn:E2; b2p; [done|lia]. Qed.
Lemma bytes_le_max l : Forall (λ b, 0 <= b <= U8_MAX) l → bytes_le l (replicate (length l) U8_MAX) = true.
Proof.
  induction 1 as [|b l Hb Hl IH]; [done|]. cbn. destruct (b <? U8_MAX) eqn:E1; [done|]. b2p.
  destruct (U8_MAX <? b) eqn:E2; b2p; [lia|done].
Qed.

(** Keys of a fixed number of bytes, at least one. *)
Definition key_bytes (len : nat) (l : list Z) : Prop :=
  length l = S len ∧ Forall (λ b, 0 <= b <= U8_MAX) l.
Lemma in_shard_le_seek len i l : key_bytes len l → in_shard i l = true → bytes_le l (shard_seek i (S len)) = true.
Proof.
  intros [Hl Hb] Hi. destruct l as [|b l]; [done|]. unfold in_shard in Hi. cbn in Hi, Hl. b2p. subst b.
  injection Hl as Hl. apply Forall_cons in Hb as [_ Hb]. unfold shard_seek. cbn. rewrite Z.ltb_irrefl, Nat.sub_0_r.
  rewrite <-Hl. by apply bytes_le_max.
Qed.
Lemma in_shard_between len i l k :
  key_bytes len l → key_bytes len k → bytes_le k l = true → bytes_le l (shard_seek i (S len)) = true →
  in_shard i k = true → in_shard i l = true.
Proof.
  intros [Hl _] [Hk _] H1 H2 H3. destruct l as [|b l]; [done|]. destruct k as [|c k]; [done|].
  unfold in_shard in *. cbn [nth] in *. apply bytes_le_cons in H1, H2. b2p. apply Z.eqb_eq. lia.
Qed.

Section Shard.
Context {K V : Type} `{Countable K} (encode : K → list Z) (len : nat) (fault : Z → option nat) (cf : gmap K V).
Context (Hkeys : ∀ k, is_Some (cf !! k) → key_bytes len (encode k)).

Abbreviation scan i := (cf_from_reverse encode (shard_seek i (S len)) cf).

Lemma elem_of_scan i kv : kv ∈ scan i ↔ cf !! kv.1 = Some kv.2 ∧ bytes_le (encode kv.1) (shard_seek i (S len)) = true.
Proof. unfold cf_from_reverse. rewrite elem_of_reverse, list_elem_of_filter, elem_of_cf_rows. naive_solver. Qed.
Lemma scan_sorted i : StronglySorted (flip (row_le encode)) (scan i).
Proof. apply StronglySorted_reverse, StronglySorted_filter, cf_rows_sorted. Qed.
Lemma scan_NoDup i : NoDup (scan i).
Proof. unfold cf_from_reverse. rewrite reverse_Permutation. apply NoDup_filter. eapply NoDup_fmap_1, cf_rows_NoDup. Qed.

Lemma shard_rows_filter i :
  shard_rows encode (S len) fault i cf
  = filter (λ kv, in_shard i (encode kv.1) = true) (before_fault (fault i) (scan i)).
Proof.
  unfold shard_rows. rewrite while_ok_iterate. apply (take_while_filter (flip (row_le encode))).
  - apply StronglySorted_before_fault, scan_sorted.
  - intros x y Hx%elem_of_before_fault Hy%elem_of_before_fault Hle. apply elem_of_scan in Hx as [Hx Hs], Hy as [Hy _].
    apply (in_shard_between len); [by apply Hkeys..|done|done].
Qed.
Lemma elem_of_shard i kv :
  kv ∈ shard_rows encode (S len) fault i cf → cf !! kv.1 = Some kv.2 ∧ in_shard i (encode kv.1) = true.
Proof. rewrite shard_rows_filter. intros [Hi Hx%elem_of_before_fault%elem_of_scan]%list_elem_of_filter. by split; [apply Hx|]. Qed.
Lemma elem_of_whole_shard i kv :
  fault i = None → cf !! kv.1 = Some kv.2 → in_shard i (encode kv.1) = true →
  kv ∈ shard_rows encode (S len) fault i cf.
Proof.
  intros Hf Hkv Hi. rewrite shard_rows_filter, Hf. apply list_elem_of_filter. split; [done|].
  apply elem_of_scan. split; [done|]. apply in_shard_le_seek; [by apply Hkeys|done].
Qed.
Lemma shard_rows_sorted i : StronglySorted (flip (row_le encode)) (shard_rows encode (S len) fault i cf).
Proof. rewrite shard_rows_filter. apply StronglySorted_filter, StronglySorted_before_fault, scan_sorted. Qed.
Lemma shard_rows_NoDup i : NoDup (shard_rows encode (S len) fault i cf).*1.
Proof.
  apply NoDup_fmap_2_strong.
  - intros [k v] [k' v'] [Hx _]%elem_of_shard [Hy _]%elem_of_shard E. cbn in *. congruence.
  - rewrite shard_rows_filter. apply NoDup_filter. destruct (fault i) as [n|]; cbn; [|apply scan_NoDup].
    eapply sublist_NoDup; [apply scan_NoDup|apply sublist_take].
Qed.

(** Every key belongs to one of the 256 shards. *)
Lemma some_shard k : is_Some (cf !! k) → ∃ i, i ∈ heights 0 255 ∧ in_shard i (encode k) = true.
Proof.
  intros [Hl Hb]%Hkeys. destruct (encode k) as [|b l]; [done|]. exists b. apply Forall_cons in Hb as [Hb _].
  split; [by apply elem_of_heights|]. unfold in_shard. cbn. apply Z.eqb_refl.
Qed.
End Shard.
Lemma one_shard i j l : in_shard i l = true → in_shard j l = true → i = j.
Proof. unfold in_shard. intros. b2p. lia. Qed.

(** ** The balance rows that are kept *)

Abbreviation balance_kv := ((USDBScriptHash * u32) * (i64 * u64))%type.

(** The order of a reverse scan: by script hash, then by height, both downwards. *)
Definition above (x y : balance_kv) : Prop := y.1.1 < x.1.1 ∨ y.1.1 = x.1.1 ∧ y.1.2 < x.1.2.
Lemma above_sorted rows :
  (∀ x, x ∈ rows → wf_balance_key x.1) → NoDup rows.*1 → StronglySorted (flip (row_le balance_key)) rows →
  StronglySorted above rows.
Proof.
  induction rows as [|x rows IH]; intros Hw Hn Hs; [constructor|]. rewrite fmap_cons in Hn.
  apply NoDup_cons in Hn as [Hx Hn]. apply StronglySorted_inv in Hs as [Hs Hr]. constructor.
  - apply IH; [|done|done]. intros y Hy. apply Hw. by right.
  - rewrite Forall_forall in Hr |- *. intros y Hy. specialize (Hr y Hy). unfold row_le, flip in Hr.
    apply balance_key_le in Hr; [|apply Hw; by right|apply Hw; by left]. unfold above.
    destruct Hr as [|[E1 E2]]; [by left|]. right. split; [done|].
    destruct (decide (y.1.2 = x.1.2)) as [E|]; [|lia]. exfalso. apply Hx. apply list_elem_of_fmap. exists y.
    split; [|done]. destruct x as [[xa xk] xv], y as [[ya yk] yv]. cbn in *. by subst.
Qed.

(** The last row of its script up to a height, with a balance. *)
Definition newest (t : u32) (rows : list balance_kv) (kv : balance_kv) : Prop :=
  kv ∈ rows ∧ kv.1.2 <= t ∧ ∀ x, x ∈ rows → x.1.1 = kv.1.1 → x.1.2 <= t → x.1.2 <= kv.1.2.
Definition skipped (current : option (USDBScriptHash * bool)) (kv : balance_kv) : Prop :=
  match current with Some (h, true) => kv.1.1 = h | _ => False end.

Lemma skipped_iff current x :
  skipped current x ↔ match current with Some (h, f) => bool_decide (h = x.1.1) && f | None => false end = true.
Proof.
  unfold skipped. destruct current as [[h [|]]|]; [|by rewrite andb_false_r|done].
  rewrite andb_true_r, bool_decide_eq_true. by split.
Qed.

Section Head.
Context (t : u32) (x : balance_kv) (rows : list balance_kv) (Hx : ∀ y, y ∈ rows → above x y).

Lemma newest_tail y : y ∈ rows → y.1.1 ≠ x.1.1 ∨ t < x.1.2 → newest t rows y ↔ newest t (x :: rows) y.
Proof.
  intros Hy Hor. split; intros (_ & Ht & Hm); (split; [|split; [done|]]); try done; try (by right).
  - intros z [->|Hz]%elem_of_cons E Hz'; [destruct Hor; [congruence|lia]|by apply Hm].
  - intros z Hz. apply Hm. by right.
Qed.
Lemma newest_head : x.1.2 <= t → newest t (x :: rows) x.
Proof.
  intros Ht. split; [by left|]. split; [done|]. intros y [->|Hy]%elem_of_cons E _; [lia|].
  destruct (Hx y Hy) as [|[]]; lia.
Qed.
(** The head hides the rows of its script. *)
Lemma newest_hidden y : y ∈ rows → x.1.2 <= t → newest t (x :: rows) y → y.1.1 ≠ x.1.1.
Proof.
  intros Hy Ht (_ & _ & Hm) E. specialize (Hm x (list_elem_of_here _ _) ltac:(done) Ht). destruct (Hx y Hy) as [|[]]; lia.
Qed.
Lemma not_skipped_tail current y :
  (∀ h f, current = Some (h, f) → x.1.1 <= h) → ¬ skipped current x → y ∈ rows → ¬ skipped current y.
Proof.
  unfold skipped. intros Hc Hn Hy. destruct current as [[h [|]]|] eqn:E; [|tauto..].
  specialize (Hc h true eq_refl). destruct (Hx y Hy) as [|[]]; lia.
Qed.
Lemma tail_below (f : bool) h (g : bool) : Some (x.1.1, f) = Some (h, g) → ∀ y, y ∈ rows → y.1.1 <= h.
Proof. intros [= <- _] y Hy. destruct (Hx y Hy) as [|[]]; lia. Qed.
End Head.

Lemma elem_of_traverse t rows : ∀ current e,
  StronglySorted above rows → (∀ h f, current = Some (h, f) → ∀ x, x ∈ rows → x.1.1 <= h) →
  e ∈ traverse_rows_at t current rows
  ↔ ∃ kv, newest t rows kv ∧ ¬ skipped current kv ∧ 0 < kv.2.2 ∧ e = traverse_entry kv.
Proof.
  induction rows as [|x rows IH]; intros current e Hs Hc.
  { cbn. split; [by intros ?%elem_of_nil|]. by intros (kv & (?%elem_of_nil & _) & _). }
  apply StronglySorted_inv in Hs as [Hs Hx]. rewrite Forall_forall in Hx.
  assert (∀ h f, current = Some (h, f) → x.1.1 <= h) as Hcx by (intros h f E; apply (Hc h f E); by left).
  pose proof (λ y, not_skipped_tail x rows Hx current y Hcx) as Hbelow.
  cbn [traverse_rows_at]. destruct (match current with Some _ => _ | None => _ end) eqn:Ef; cbn [negb andb].
  - (* rows of a script that is done *)
    assert (current = Some (x.1.1, true)) as ->.
    { destruct current as [[h [|]]|]; [|by rewrite andb_false_r in Ef|done]. rewrite andb_true_r in Ef. b2p. by subst. }
    rewrite IH by (done || apply (tail_below x rows Hx)). split; intros (kv & Hn & Hk & Hr); pose proof (proj1 Hn) as Hin.
    + exists kv. split; [|done]. apply newest_tail; [done|by left|done].
    + apply elem_of_cons in Hin as [->|Hin]; [by destruct Hk|]. exists kv. split; [|done].
      apply (newest_tail t x); [done|by left|done].
  - assert (¬ skipped current x) as Hnx by (rewrite skipped_iff, Ef; done).
    destruct (x.1.2 <=? t) eqn:Et; b2p.
    + (* the row that is kept *)
      rewrite elem_of_app, IH by (done || apply (tail_below x rows Hx)). split.
      * intros [Hin|(kv & Hn & Hk & Hr)].
        -- destruct (x.2.2 >? 0) eqn:Ep; [|by apply elem_of_nil in Hin]. apply list_elem_of_singleton in Hin as ->.
           b2p. exists x. split; [by apply newest_head|]. split; [done|]. split; [lia|done].
        -- pose proof (proj1 Hn) as Hin. exists kv. split; [apply newest_tail; [done|by left|done]|]. split; [by apply Hbelow|done].
      * intros (kv & Hn & Hk & Hp & ->). pose proof (proj1 Hn) as [->|Hin]%elem_of_cons.
        -- left. rewrite (proj2 (Z.gtb_lt _ _)) by done. by left.
        -- right. pose proof (newest_hidden t x rows Hx kv Hin Et Hn). exists kv.
           split; [by apply (newest_tail t x); [|left|]|done].
    + (* a row above the height *)
      rewrite IH by (done || apply (tail_below x rows Hx)). split; intros (kv & Hn & Hk & Hr); pose proof (proj1 Hn) as Hin.
      * exists kv. split; [by apply newest_tail; [|right|]|]. split; [by apply Hbelow|done].
      * apply elem_of_cons in Hin as [->|Hin]; [destruct Hn as (_ & ? & _); lia|]. exists kv.
        split; [by apply (newest_tail t x); [|right|]|]. split; [by intros []|done].
Qed.

(** One entry per script. *)
Lemma traverse_NoDup t rows : ∀ current,
  StronglySorted above rows → (∀ h f, current = Some (h, f) → ∀ x, x ∈ rows → x.1.1 <= h) →
  NoDup (be_script_hash <$> traverse_rows_at t current rows).
Proof.
  induction rows as [|x rows IH]; intros current Hs Hc; [constructor|].
  apply StronglySorted_inv in Hs as [Hs Hx]. rewrite Forall_forall in Hx. cbn [traverse_rows_at].
  assert (∀ (f : bool) (h : Z) (g : bool), Some (x.1.1, f) = Some (h, g) → ∀ y, y ∈ rows → y.1.1 <= h) as Hc'.
  { intros f h g [= <- _] y Hy. destruct (Hx y Hy) as [|[]]; lia. }
  destruct (negb _ && _); [|by apply IH; [|apply Hc']].
  destruct (x.2.2 >? 0); [|by apply IH; [|apply Hc']]. cbn. constructor; [|by apply IH; [|apply Hc']].
  intros (e & E & (kv & _ & Hk & _ & ->)%elem_of_traverse)%list_elem_of_fmap; [|done|apply Hc']. by apply Hk.
Qed.
