(* ===== verification/SnapshotTables.v ===== *)
(** * What an export writes

    The batches of [SnapshotExport] fill a table with the entries they are given, in any grouping and
    order, and count them; from it, the file that [SnapshotIndexer::run] leaves. *)

From stdpp Require Import pretty.
From S2P Require Import Prelude Encoding Types Tx BalanceCodec BalanceDb BalanceDbFacts BalanceBlock StateIds.
From S2P Require Import BalanceService BalanceServer SnapshotDb SnapshotExport SnapshotShards.

(** ** Batches *)

Section Batched.
Context {St A : Type} (cb : list A → M St unit) (F : list A → St → St) (good : list A → St → Prop).
Context (Hcb : ∀ l s, good l s → cb l s = (Ok tt, F l s)).
Context (Hgood : ∀ l k s, good (l ++ k) s → good l s ∧ good k (F l s)).
Context (HF : ∀ l k s, F (l ++ k) s = F k (F l s)) (HF0 : ∀ s, F [] s = s).

Lemma batched_run batch_size xs : ∀ acc s, good (acc ++ xs) s →
  batched batch_size cb acc (Ok <$> xs) s = (Ok tt, F (acc ++ xs) s).
Proof.
  induction xs as [|x xs IH]; intros acc s Hg; cbn [fmap list_fmap batched].
  - rewrite app_nil_r in *. destruct acc as [|a acc]; [by rewrite HF0|by apply Hcb].
  - replace (acc ++ x :: xs) with ((acc ++ [x]) ++ xs) in * by by rewrite <-app_assoc.
    destruct (batch_size <=? _); [|by apply IH]. destruct (Hgood _ _ _ Hg) as [H1 H2].
    rewrite (bind_run _ _ _ _ _ (Hcb _ _ H1)), (HF (acc ++ [x])). by apply (IH []).
Qed.
Lemma shards_run {I} batch_size (order : list I) (g : I → list A) : ∀ s, good (order ≫= g) s →
  for_each order (λ i, batched batch_size cb [] (Ok <$> g i)) s = (Ok tt, F (order ≫= g) s).
Proof.
  induction order as [|i order IH]; intros s Hg; [cbn; by rewrite HF0|].
  rewrite bind_cons in Hg |- *. destruct (Hgood (g i) _ _ Hg) as [H1 H2]. cbn [for_each].
  erewrite bind_run by by apply (batched_run _ _ []). rewrite (HF (g i)). by apply IH.
Qed.
End Batched.

(** ** Tables *)

(** Rows with new keys are all inserted. *)
Definition new_rows {K V} `{Countable K} (rows : list (K * V)) (m : gmap K V) : Prop :=
  NoDup rows.*1 ∧ ∀ k, k ∈ rows.*1 → m !! k = None.
Lemma insert_rows_run {K V} `{Countable K} msg (rows : list (K * V)) : ∀ m,
  new_rows rows m → for_each rows (insert_row msg) m = (Ok tt, put_all rows m).
Proof.
  induction rows as [|[k v] rows IH]; intros m [Hn Hf]; [done|]. cbn in Hn, Hf. apply NoDup_cons in Hn as [Hk Hn].
  cbn. erewrite bind_run. 2: { unfold insert_row. cbn. by rewrite (Hf k) by by left. }
  apply IH. split; [done|]. intros j Hj. rewrite lookup_insert_ne; [apply Hf; by right|]. by intros ->.
Qed.
Lemma put_all_app {K V} `{Countable K} (l k : list (K * V)) m : put_all (l ++ k) m = put_all k (put_all l m).
Proof. apply foldl_app. Qed.
Lemma new_rows_app {K V} `{Countable K} (l k : list (K * V)) m :
  new_rows (l ++ k) m → new_rows l m ∧ new_rows k (put_all l m).
Proof.
  intros [Hn Hf]. rewrite fmap_app in Hn, Hf. apply NoDup_app in Hn as (Hl & Hd & Hk). split; (split; [done|]).
  - intros j Hj. apply Hf, elem_of_app. by left.
  - intros j Hj. rewrite put_all_out; [apply Hf, elem_of_app; by right|]. intros Hjl. by apply (Hd j).
Qed.

(** A counter and a table of the generator, and the entries that become its rows. *)
Section Table.
Context {E K V : Type} `{Countable K} (row : E → K * V).
Context (table : SnapshotGenerator → gmap K V) (counter : SnapshotGenerator → u64).
Context (update : gmap K V → u64 → SnapshotGenerator → SnapshotGenerator).
Context (Htable : ∀ m c g, table (update m c g) = m) (Hcounter : ∀ m c g, counter (update m c g) = c).
Context (Hupdate : ∀ m c m' c' g, update m c (update m' c' g) = update m c g).
Context (Hid : ∀ g, update (table g) (counter g) g = g).

Definition filled_with (l : list E) (g : SnapshotGenerator) : SnapshotGenerator :=
  update (put_all (row <$> l) (table g)) (counter g + count l) g.
Definition fillable (l : list E) (g : SnapshotGenerator) : Prop :=
  new_rows (row <$> l) (table g) ∧ 0 <= counter g ∧ counter g + count l <= U64_MAX.

Lemma filled_app l k g : filled_with (l ++ k) g = filled_with k (filled_with l g).
Proof.
  unfold filled_with. rewrite Htable, Hcounter, Hupdate, fmap_app, put_all_app. f_equal. unfold count.
  rewrite length_app. lia.
Qed.
Lemma filled_nil g : filled_with [] g = g.
Proof. unfold filled_with, count. cbn. by rewrite Z.add_0_r, Hid. Qed.
Lemma fillable_app l k g : fillable (l ++ k) g → fillable l g ∧ fillable k (filled_with l g).
Proof.
  unfold fillable, filled_with, count. rewrite Htable, Hcounter, fmap_app, length_app. intros (Hn & H0 & Hc).
  apply new_rows_app in Hn as [H1 H2]. split; (split; [done|lia]).
Qed.

Context (cb : list E → M SnapshotGenerator unit) (Hcb : ∀ l g, fillable l g → cb l g = (Ok tt, filled_with l g)).
Lemma fill_shards {I} batch_size (order : list I) (g : I → list E) s : fillable (order ≫= g) s →
  for_each order (λ i, batched batch_size cb [] (Ok <$> g i)) s = (Ok tt, filled_with (order ≫= g) s).
Proof. apply (shards_run cb filled_with fillable Hcb fillable_app filled_app filled_nil). Qed.
Lemma fill_batches batch_size l s : fillable l s →
  batched batch_size cb [] (Ok <$> l) s = (Ok tt, filled_with l s).
Proof. apply (batched_run cb filled_with fillable Hcb fillable_app filled_app filled_nil batch_size l []). Qed.
End Table.

Definition update_balances m c g := set_counts c (gn_utxo_count g) (gn_block_commit_count g)
  (gn_script_registry_count g) (set_gn_db (set_balance_history m (gn_db g)) g).
Definition update_utxos m c g := set_counts (gn_balance_history_count g) c (gn_block_commit_count g)
  (gn_script_registry_count g) (set_gn_db (set_utxos m (gn_db g)) g).
Definition update_commits m c g := set_counts (gn_balance_history_count g) (gn_utxo_count g) c
  (gn_script_registry_count g) (set_gn_db (set_block_commits m (gn_db g)) g).
Definition update_scripts m c g := set_counts (gn_balance_history_count g) (gn_utxo_count g)
  (gn_block_commit_count g) c (set_gn_db (set_script_registry m (gn_db g)) g).

Abbreviation fill_balances := (filled_with balance_snapshot_row (λ g, t_balance_history (gn_db g)) gn_balance_history_count update_balances).
Abbreviation fill_utxos := (filled_with utxo_snapshot_row (λ g, t_utxos (gn_db g)) gn_utxo_count update_utxos).
Abbreviation fill_commits := (filled_with commit_snapshot_row (λ g, t_block_commits (gn_db g)) gn_block_commit_count update_commits).
Abbreviation fill_scripts := (filled_with script_snapshot_row (λ g, t_script_registry (gn_db g)) gn_script_registry_count update_scripts).

(** Inserting entries through a callback. *)
Ltac callback_run :=
  unfold on_balance_history_entries, on_utxo_entries, on_block_commit_entries, on_script_registry_entries;
  intros (Hn & H0 & Hc); erewrite bind_run;
  [|unfold zoom, put_balance_history_entries, put_utxo_entries, put_block_commit_entries, put_rows, in_transaction, zoom;
    cbn; rewrite insert_rows_run by done; cbn; reflexivity];
  unfold modify, filled_with; do 2 f_equal;
  unfold add_balances, add_utxos, add_commits, add_scripts, set_counts; cbn; rewrite u64_add_small by (unfold count in *; lia); done.

Lemma on_balances_run l g :
  fillable balance_snapshot_row (λ g, t_balance_history (gn_db g)) gn_balance_history_count l g →
  on_balance_history_entries l g = (Ok tt, fill_balances l g).
Proof. callback_run. Qed.
Lemma on_utxos_run l g :
  fillable utxo_snapshot_row (λ g, t_utxos (gn_db g)) gn_utxo_count l g →
  on_utxo_entries l g = (Ok tt, fill_utxos l g).
Proof. callback_run. Qed.
Lemma on_commits_run l g :
  fillable commit_snapshot_row (λ g, t_block_commits (gn_db g)) gn_block_commit_count l g →
  on_block_commit_entries l g = (Ok tt, fill_commits l g).
Proof. callback_run. Qed.
Lemma on_scripts_run l g :
  fillable script_snapshot_row (λ g, t_script_registry (gn_db g)) gn_script_registry_count l g →
  on_script_registry_entries l g = (Ok tt, fill_scripts l g).
Proof.
  unfold on_script_registry_entries. intros (Hn & H0 & Hc). erewrite bind_run by reflexivity.
  unfold modify, filled_with. do 2 f_equal.
  unfold add_scripts, set_counts. cbn. rewrite u64_add_small by (unfold count in *; lia). done.
Qed.
