(* ===== verification/SnapshotEntries.v ===== *)
(** * The entries of an export

    What the four generators of [SnapshotExport] hand to the snapshot, as lists of entries: which rows
    of the database they are, that no key appears twice, and how many there are. *)

From stdpp Require Import pretty.
From S2P Require Import Prelude Encoding Types Tx BalanceCodec BalanceDb BalanceDbFacts BalanceBlock.
From S2P Require Import SnapshotDb SnapshotExport SnapshotShards SnapshotTables.

(** A database whose keys and values fit their encodings, as those of the program do by their types. *)
Record storable (d : BalanceHistoryDB) : Prop := {
  st_rows a k v : balance_history_cf d !! (a, k) = Some v → u256 a ∧ 0 <= k <= U32_MAX ∧ 0 <= v.2 <= U64_MAX;
  st_utxos o v : utxo_cf d !! o = Some v → wf_outpoint o ∧ wf_utxo_value v;
  st_scripts a s : script_registry_cf d !! a = Some s → u256 a;
  st_commits k c : block_commits_cf d !! k = Some c →
    0 <= k <= U32_MAX ∧ cm_block_height c = k ∧ u256 (cm_btc_block_hash c)
    ∧ bytes32 (cm_balance_delta_root c) ∧ bytes32 (cm_block_commit c);
  st_sizes : Z.of_nat (size (balance_history_cf d)) <= U64_MAX ∧ Z.of_nat (size (utxo_cf d)) <= U64_MAX
    ∧ Z.of_nat (size (script_registry_cf d)) <= U64_MAX ∧ Z.of_nat (size (block_commits_cf d)) <= U64_MAX
}.

Lemma be_bytes_key w n z : w = S n → key_bytes n (be_bytes w z).
Proof.
  intros ->. split; [apply length_be_bytes|]. eapply Forall_impl; [apply be_bytes_range|]. unfold U8_MAX. lia.
Qed.
Lemma key_bytes_app n m l k : key_bytes n l → length k = m → Forall (λ b, 0 <= b <= U8_MAX) k → key_bytes (n + m) (l ++ k).
Proof. intros [Hl Hf] Hk Hf'. split; [rewrite length_app; lia|by apply Forall_app]. Qed.
Lemma pair_key z v : key_bytes 35 (be_bytes 32 z ++ be_bytes 4 v).
Proof.
  apply (key_bytes_app 31 4); [by apply be_bytes_key|apply length_be_bytes|].
  eapply Forall_impl; [apply be_bytes_range|]. unfold U8_MAX. lia.
Qed.

Section Entries.
Context `{ExportRun} `{!ExportRunLaws} (d : BalanceHistoryDB) (D : storable d) (t : u32).

Lemma shard_order_NoDup : NoDup shard_order.
Proof. rewrite every_shard_once. apply heights_NoDup. Qed.
Lemma elem_of_shard_order i : i ∈ shard_order ↔ 0 <= i <= 255.
Proof. rewrite every_shard_once. apply elem_of_heights. Qed.

(** ** Balances *)

Abbreviation balance_shard i := (shard_rows balance_key 36 balance_fault i (balance_history_cf d)).
Definition shard_balances (i : Z) : list BalanceHistoryEntry := traverse_rows_at t None (balance_shard i).
Definition exported_balances : list BalanceHistoryEntry := shard_order ≫= shard_balances.

Lemma balance_keys k : is_Some (balance_history_cf d !! k) → key_bytes 35 (balance_key k).
Proof. intros _. unfold balance_key, make_balance_history_key. apply pair_key. Qed.
Lemma balance_shard_above i : StronglySorted above (balance_shard i).
Proof.
  apply above_sorted.
  - intros [[a k] v] [Hx _]%(elem_of_shard _ 35 _ _ balance_keys). cbn in *. destruct (st_rows _ D _ _ _ Hx) as (? & ? & _). by split.
  - apply (shard_rows_NoDup _ 35 _ _ balance_keys).
  - apply (shard_rows_sorted _ 35 _ _ balance_keys).
Qed.
Lemma elem_of_shard_balances i e :
  e ∈ shard_balances i ↔ ∃ kv, newest t (balance_shard i) kv ∧ 0 < kv.2.2 ∧ e = traverse_entry kv.
Proof.
  unfold shard_balances. rewrite elem_of_traverse; [|apply balance_shard_above|done]. cbn. naive_solver.
Qed.
(** An entry is a row of the database. *)
Lemma shard_balance_row i e : e ∈ shard_balances i →
  balance_history_cf d !! (be_script_hash e, be_block_height e) = Some (be_delta e, be_balance e)
  ∧ in_shard i (be_bytes 32 (be_script_hash e)) = true.
Proof.
  intros ([[a k] [dl b]] & (Hin & _) & _ & ->)%elem_of_shard_balances.
  apply (elem_of_shard _ 35 _ _ balance_keys) in Hin as [Hr Hs]. cbn in *. split; [done|].
  unfold in_shard, balance_key, make_balance_history_key in *. cbn [fst snd] in Hs.
  by rewrite app_nth1 in Hs by (rewrite length_be_bytes; lia).
Qed.
Lemma exported_balances_NoDup : NoDup (be_script_hash <$> exported_balances).
Proof.
  apply NoDup_bind_by; [apply shard_order_NoDup|..].
  - intros i _. apply traverse_NoDup; [apply balance_shard_above|done].
  - intros i j x y [_ Hx]%shard_balance_row [_ Hy]%shard_balance_row E. rewrite E in Hx. by eapply one_shard.
Qed.
Lemma exported_balance_row e : e ∈ exported_balances →
  balance_history_cf d !! (be_script_hash e, be_block_height e) = Some (be_delta e, be_balance e).
Proof. intros (i & He & _)%list_elem_of_bind. by eapply shard_balance_row. Qed.

(** The row of a script that a snapshot at [t] keeps. *)
Definition kept_row (a : USDBScriptHash) (k : u32) (v : i64 * u64) : Prop :=
  balance_history_cf d !! (a, k) = Some v ∧ k <= t ∧ 0 < v.2
  ∧ ∀ j w, balance_history_cf d !! (a, j) = Some w → j <= t → j <= k.
Lemma elem_of_exported_balances a k v : (∀ i, balance_fault i = None) →
  {| be_script_hash := a; be_block_height := k; be_delta := v.1; be_balance := v.2 |} ∈ exported_balances
  ↔ kept_row a k v.
Proof.
  intros Hf. unfold exported_balances. rewrite list_elem_of_bind.
  assert (∀ i b j w, (b, j, w) ∈ balance_shard i ↔ balance_history_cf d !! (b, j) = Some w ∧ in_shard i (balance_key (b, j)) = true) as Hin.
  { intros i b j w. split; [intros Hx; by apply (elem_of_shard _ 35 _ _ balance_keys) in Hx|].
    intros [Hb Hs]. by apply (elem_of_whole_shard _ 35 _ _ balance_keys). }
  assert (∀ i b j j', in_shard i (balance_key (b, j)) = in_shard i (balance_key (b, j'))) as Hsame.
  { intros i b j j'. unfold in_shard, balance_key, make_balance_history_key. cbn [fst snd].
    by rewrite !app_nth1 by (rewrite length_be_bytes; lia). }
  split.
  - intros (i & ([[b j] w] & (Hr & Ht & Hm) & Hp & E)%elem_of_shard_balances & _). unfold traverse_entry in E. cbn in *.
    injection E as -> -> E1 E2. replace v with w by (destruct v, w; cbn in *; congruence).
    apply Hin in Hr as [Hr Hs]. split_and!; [done..|]. intros j' w' Hj Hle. apply (Hm (b, j', w')); [|done|done].
    apply Hin. by rewrite (Hsame i b j' j).
  - intros (Hr & Ht & Hp & Hm).
    destruct (some_shard balance_key 35 (balance_history_cf d) balance_keys (a, k)) as (i & Hi & Hs); [by eexists|].
    exists i. split; [|rewrite elem_of_shard_order; by apply elem_of_heights in Hi].
    apply elem_of_shard_balances. exists (a, k, v). split; [|by destruct v].
    split; [by apply Hin|]. split; [done|]. intros [[b j] w] Hx E Hle. cbn in *. subst.
    apply Hin in Hx as [Hx _]. by eapply Hm.
Qed.
Lemma exported_balances_count : count exported_balances <= U64_MAX.
Proof.
  destruct (st_sizes _ D) as (Hs & _). etrans; [|exact Hs]. apply (rows_length (λ e, (be_script_hash e, be_block_height e))).
  - apply (NoDup_fmap_1 fst). rewrite <-list_fmap_compose. apply exported_balances_NoDup.
  - intros e He. eexists. by apply exported_balance_row.
Qed.

(** ** Unspent outputs and scripts: whole column families *)

Section Whole.
Context {E K V : Type} `{Countable K} (encode : K → list Z) (len : nat) (fault : Z → option nat) (cf : gmap K V).
Context (Hkeys : ∀ k, is_Some (cf !! k) → key_bytes len (encode k)) (entry : K * V → E) (key : E → K).
Context (Hentry : ∀ kv, key (entry kv) = kv.1).

Definition exported_rows : list E := shard_order ≫= λ i, entry <$> shard_rows encode (S len) fault i cf.

Lemma exported_row x : x ∈ exported_rows → ∃ kv, x = entry kv ∧ cf !! kv.1 = Some kv.2.
Proof.
  intros (i & (kv & -> & Hkv)%list_elem_of_fmap & _)%list_elem_of_bind. exists kv. split; [done|].
  by apply (elem_of_shard encode len fault cf Hkeys) in Hkv as [? _].
Qed.
Lemma exported_rows_NoDup : NoDup (key <$> exported_rows).
Proof.
  apply NoDup_bind_by; [apply shard_order_NoDup|..].
  - intros i _. rewrite <-list_fmap_compose.
    rewrite (list_fmap_ext (key ∘ entry) fst); [apply (shard_rows_NoDup encode len fault cf Hkeys)|]. intros ? kv _. apply Hentry.
  - intros i j x y (kv & -> & Hx)%list_elem_of_fmap (kw & -> & Hy)%list_elem_of_fmap. rewrite !Hentry. intros E1.
    apply (elem_of_shard encode len fault cf Hkeys) in Hx as [_ Hx], Hy as [_ Hy]. rewrite E1 in Hx. by eapply one_shard.
Qed.
Lemma exported_rows_all kv : (∀ i, fault i = None) → cf !! kv.1 = Some kv.2 → entry kv ∈ exported_rows.
Proof.
  intros Hf Hkv. destruct (some_shard encode len cf Hkeys kv.1) as (i & Hi & Hs); [by eexists|].
  apply list_elem_of_bind. exists i. split; [|rewrite elem_of_shard_order; by apply elem_of_heights in Hi].
  apply list_elem_of_fmap_2. by apply (elem_of_whole_shard encode len fault cf Hkeys).
Qed.
Lemma exported_rows_count : count exported_rows <= Z.of_nat (size cf).
Proof.
  apply (rows_length key); [apply exported_rows_NoDup|]. intros x (kv & -> & Hkv)%exported_row. rewrite Hentry. by eexists.
Qed.
End Whole.

Abbreviation exported_utxos := (exported_rows OutPointCodec_encode 35 utxo_fault (utxo_cf d) utxo_entry).
Abbreviation exported_scripts := (exported_rows (be_bytes 32) 31 script_fault (script_registry_cf d) script_entry).
Lemma utxo_keys o : is_Some (utxo_cf d !! o) → key_bytes 35 (OutPointCodec_encode o).
Proof. intros _. unfold OutPointCodec_encode. apply pair_key. Qed.
Lemma script_keys a : is_Some (script_registry_cf d !! a) → key_bytes 31 (be_bytes 32 a).
Proof. intros _. by apply be_bytes_key. Qed.

(** ** Block commits *)

Definition exported_commits : list BlockCommitEntry :=
  (take_while (λ kv, kv.1 <=? t) (cf_rows make_block_commit_key (block_commits_cf d))).*2.
Lemma commit_items_run rows : commit_items t (Ok <$> rows) = Ok <$> (take_while (λ kv, kv.1 <=? t) rows).*2.
Proof.
  induction rows as [|kv rows IH]; [done|]. cbn. rewrite Z.gtb_ltb. destruct (kv.1 <=? t) eqn:E; b2p.
  - rewrite (proj2 (Z.ltb_ge _ _)) by done. cbn. by rewrite IH.
  - by rewrite (proj2 (Z.ltb_lt _ _)) by lia.
Qed.
Lemma commit_rows_filter :
  take_while (λ kv, kv.1 <=? t) (cf_rows make_block_commit_key (block_commits_cf d))
  = filter (λ kv, (kv.1 <=? t) = true) (cf_rows make_block_commit_key (block_commits_cf d)).
Proof.
  apply (take_while_filter (row_le make_block_commit_key)); [apply cf_rows_sorted|].
  intros [k1 c1] [k2 c2] [H1 _]%elem_of_cf_rows%(st_commits _ D) [H2 _]%elem_of_cf_rows%(st_commits _ D) Hle.
  unfold row_le, make_block_commit_key in Hle. cbn in *. rewrite bytes_le_be_bytes in Hle by by apply pow_u32.
  b2p. rewrite !Z.leb_le. lia.
Qed.
Lemma elem_of_commit_rows k c :
  (k, c) ∈ take_while (λ kv, kv.1 <=? t) (cf_rows make_block_commit_key (block_commits_cf d))
  ↔ block_commits_cf d !! k = Some c ∧ k <= t.
Proof. rewrite commit_rows_filter, list_elem_of_filter, elem_of_cf_rows. cbn. rewrite Z.leb_le. naive_solver. Qed.
Lemma elem_of_exported_commits c : c ∈ exported_commits ↔ block_commits_cf d !! cm_block_height c = Some c ∧ cm_block_height c <= t.
Proof.
  unfold exported_commits. rewrite list_elem_of_fmap. split.
  - intros ([k c'] & -> & [Hk Ht]%elem_of_commit_rows). cbn. destruct (st_commits _ D _ _ Hk) as (_ & -> & _). done.
  - intros [Hc Ht]. exists (cm_block_height c, c). split; [done|]. by apply elem_of_commit_rows.
Qed.
Lemma exported_commits_NoDup : NoDup (cm_block_height <$> exported_commits).
Proof.
  unfold exported_commits. rewrite <-list_fmap_compose. apply NoDup_fmap_2_strong.
  - intros [k c] [k' c'] [H1 _]%elem_of_commit_rows [H2 _]%elem_of_commit_rows E. cbn in E.
    destruct (st_commits _ D _ _ H1) as (_ & <- & _), (st_commits _ D _ _ H2) as (_ & <- & _). rewrite E in H1. congruence.
  - rewrite commit_rows_filter. apply NoDup_filter. eapply NoDup_fmap_1, cf_rows_NoDup.
Qed.
Lemma exported_commits_count : count exported_commits <= U64_MAX.
Proof.
  destruct (st_sizes _ D) as (_ & _ & _ & Hs). etrans; [|exact Hs]. apply (rows_length cm_block_height).
  - apply exported_commits_NoDup.
  - intros c [Hc _]%elem_of_exported_commits. by eexists.
Qed.
End Entries.
