(* ===== verification/SnapshotFile.v ===== *)
(** * The file that an export leaves

    [SnapshotIndexer::run] over a database whose keys fit their encodings: the tables, the metadata,
    the manifest and the signature, whatever the iterators of the balances, the unspent outputs and the
    scripts report.  Only the scan of the block commits passes an error on. *)

From stdpp Require Import pretty.
From S2P Require Import Prelude Encoding Types Tx BalanceCodec BalanceDb BalanceDbFacts BalanceBlock StateIds.
From S2P Require Import BalanceService BalanceServer SnapshotDb SnapshotExport SnapshotShards SnapshotTables.
From S2P Require Import SnapshotEntries.

Section File.
Context `{BC : BitcoinCrate} `{SC : SnapshotCrates} `{ER : ExportRun} `{EL : !ExportRunLaws} (network : string).
Context (d : BalanceHistoryDB) (D : storable d) (t : u32) (with_utxo : bool) (now : u64).

Abbreviation LB := (exported_balances d t).
Abbreviation LU := (exported_rows OutPointCodec_encode 35 utxo_fault (utxo_cf d) utxo_entry).
Abbreviation LC := (exported_commits d t).
Abbreviation LS := (exported_rows (be_bytes 32) 31 script_fault (script_registry_cf d) script_entry).

Definition exported_meta : SnapshotMeta :=
  {| sm_block_height := t; sm_balance_history_count := count LB;
     sm_utxo_count := if with_utxo then count LU else 0; sm_block_commit_count := count LC;
     sm_script_registry_count := count LS; sm_generated_at := now; sm_version := SNAPSHOT_DB_VERSION |}.
Definition exported_db : SnapshotDB :=
  {| t_meta := [meta_row exported_meta];
     t_balance_history := put_all (balance_snapshot_row <$> LB) ∅;
     t_utxos := if with_utxo then put_all (utxo_snapshot_row <$> LU) ∅ else ∅;
     t_block_commits := put_all (commit_snapshot_row <$> LC) ∅;
     t_script_registry := put_all (script_snapshot_row <$> LS) ∅ |}.

(** ** Rows with distinct keys *)

Lemma hash_blob_inj a b : u256 a → u256 b → hash_blob a = hash_blob b → a = b.
Proof. intros Ha%pow_u256 Hb%pow_u256. by apply be_bytes_inj. Qed.
Lemma outpoint_inj o1 o2 : wf_outpoint o1 → wf_outpoint o2 → OutPointCodec_encode o1 = OutPointCodec_encode o2 → o1 = o2.
Proof.
  intros W1 W2 E. pose proof (OutPointCodec_roundtrip o1 W1) as E1. rewrite E, (OutPointCodec_roundtrip o2 W2) in E1.
  by injection E1.
Qed.

Lemma LB_rows : NoDup (balance_snapshot_row <$> LB).*1.
Proof.
  rewrite <-list_fmap_compose. change (NoDup ((λ e, hash_blob (be_script_hash e)) <$> LB)).
  apply NoDup_fmap_2_strong; [|eapply NoDup_fmap_1, exported_balances_NoDup, D].
  intros x y Hx Hy E. pose proof (exported_balances_NoDup d D t) as Hn.
  pose proof (exported_balance_row d D t _ Hx) as [Rx _]%(st_rows _ D). pose proof (exported_balance_row d D t _ Hy) as [Ry _]%(st_rows _ D).
  apply hash_blob_inj in E; [|done|done].
  apply list_elem_of_lookup in Hx as [i Hi], Hy as [j Hj].
  assert (i = j) as ->; [|congruence]. eapply NoDup_lookup; [exact Hn|..]; rewrite list_lookup_fmap; [by rewrite Hi|by rewrite Hj, E].
Qed.
Lemma LU_rows : NoDup (utxo_snapshot_row <$> LU).*1.
Proof.
  rewrite <-list_fmap_compose. change (NoDup ((λ e, OutPointCodec_encode (ue_outpoint e)) <$> LU)).
  rewrite (list_fmap_compose ue_outpoint OutPointCodec_encode). apply NoDup_fmap_2_strong.
  - intros x y (ex & -> & (kx & -> & Hx)%(exported_row _ _ _ _ (utxo_keys d)))%list_elem_of_fmap
      (ey & -> & (ky & -> & Hy)%(exported_row _ _ _ _ (utxo_keys d)))%list_elem_of_fmap.
    apply (st_utxos _ D) in Hx as [Hx _], Hy as [Hy _]. by apply outpoint_inj.
  - by apply (exported_rows_NoDup _ _ _ _ (utxo_keys d)).
Qed.
Lemma LS_rows : NoDup (script_snapshot_row <$> LS).*1.
Proof.
  rewrite <-list_fmap_compose. change (NoDup ((λ e, hash_blob (sre_script_hash e)) <$> LS)).
  rewrite (list_fmap_compose sre_script_hash hash_blob). apply NoDup_fmap_2_strong.
  - intros x y (ex & -> & (kx & -> & Hx)%(exported_row _ _ _ _ (script_keys d)))%list_elem_of_fmap
      (ey & -> & (ky & -> & Hy)%(exported_row _ _ _ _ (script_keys d)))%list_elem_of_fmap.
    apply (st_scripts _ D) in Hx, Hy. by apply hash_blob_inj.
  - by apply (exported_rows_NoDup _ _ _ _ (script_keys d)).
Qed.
Lemma LC_rows : NoDup (commit_snapshot_row <$> LC).*1.
Proof. rewrite <-list_fmap_compose. by apply exported_commits_NoDup. Qed.

(** ** The phases *)

Lemma fillable_new {E K V} `{Countable K} (row : E → K * V) table counter l s :
  table (new_generator s) = ∅ → counter (new_generator s) = 0 → NoDup (row <$> l).*1 → count l <= U64_MAX →
  fillable row table counter l (new_generator s).
Proof. unfold fillable. intros -> -> Hn Hc. split; [split; [done|intros; apply lookup_empty]|lia]. Qed.

Lemma balances_phase s : t_balance_history s = ∅ →
  generate_balance_history_snapshot_parallel d t (new_generator s) = (Ok tt, fill_balances LB (new_generator s)).
Proof.
  intros Hs. unfold generate_balance_history_snapshot_parallel, generate_balance_history_snapshot_sharded.
  apply (fill_shards balance_snapshot_row (λ g, t_balance_history (gn_db g)) gn_balance_history_count update_balances);
    [done|done|done|by intros [[] ????]|apply on_balances_run|].
  apply fillable_new; [done|done|apply LB_rows|by apply exported_balances_count].
Qed.
Lemma utxos_phase s : t_utxos s = ∅ →
  generate_utxo_snapshot_parallel d (new_generator s) = (Ok tt, fill_utxos LU (new_generator s)).
Proof.
  intros Hs. unfold generate_utxo_snapshot_parallel, generate_utxo_snapshot_sharded.
  apply (fill_shards utxo_snapshot_row (λ g, t_utxos (gn_db g)) gn_utxo_count update_utxos);
    [done|done|done|by intros [[] ????]|apply on_utxos_run|].
  apply fillable_new; [done|done|apply LU_rows|]. etrans; [by apply (exported_rows_count _ _ _ _ (utxo_keys d) _ ue_outpoint)|apply (st_sizes _ D)].
Qed.
Lemma scripts_phase s : t_script_registry s = ∅ →
  generate_script_registry_snapshot_parallel d (new_generator s) = (Ok tt, fill_scripts LS (new_generator s)).
Proof.
  intros Hs. unfold generate_script_registry_snapshot_parallel, generate_script_registry_snapshot_sharded.
  apply (fill_shards script_snapshot_row (λ g, t_script_registry (gn_db g)) gn_script_registry_count update_scripts);
    [done|done|done|by intros [[] ????]|apply on_scripts_run|].
  apply fillable_new; [done|done|apply LS_rows|]. etrans; [by apply (exported_rows_count _ _ _ _ (script_keys d) _ sre_script_hash)|apply (st_sizes _ D)].
Qed.
Lemma commits_phase s : t_block_commits s = ∅ → commit_fault = None →
  generate_block_commit_snapshot d t (new_generator s) = (Ok tt, fill_commits LC (new_generator s)).
Proof.
  intros Hs Hf. unfold generate_block_commit_snapshot. rewrite Hf. cbn [iterate]. rewrite commit_items_run.
  apply (fill_batches commit_snapshot_row (λ g, t_block_commits (gn_db g)) gn_block_commit_count update_commits);
    [done|done|done|by intros [[] ????]|apply on_commits_run|].
  apply fillable_new; [done|done|apply LC_rows|by apply exported_commits_count].
Qed.

Lemma generated_run path m g fs s :
  fs_snapshots fs !! path = Some s → m (new_generator s) = (Ok tt, g) →
  generated path m fs = (Ok g, on_snapshots (insert path (gn_db g)) fs).
Proof. intros Es Em. unfold generated. rewrite Es. cbn. by rewrite Em. Qed.
Lemma written path s fs : fs_snapshots (on_snapshots (insert path s) fs) !! path = Some s.
Proof. cbn. apply lookup_insert_eq. Qed.
Lemma on_snapshots_twice path s1 s2 fs :
  on_snapshots (insert path s2) (on_snapshots (insert path s1) fs) = on_snapshots (insert path s2) fs.
Proof. unfold on_snapshots. cbn. by rewrite insert_insert_eq. Qed.

Lemma export_tables_run path fs : commit_fault = None → fs_snapshots fs !! path = Some empty_snapshot_db →
  export_tables d t with_utxo now path fs = (Ok tt, on_snapshots (insert path exported_db) fs).
Proof.
  intros Hf E0. unfold export_tables.
  erewrite bind_run by (eapply generated_run; [done|by apply balances_phase]).
  set (fs1 := on_snapshots _ fs).
  assert (∃ s2, t_balance_history s2 = put_all (balance_snapshot_row <$> LB) ∅ ∧ t_meta s2 = []
    ∧ t_utxos s2 = (if with_utxo then put_all (utxo_snapshot_row <$> LU) ∅ else ∅)
    ∧ t_block_commits s2 = ∅ ∧ t_script_registry s2 = ∅
    ∧ (if with_utxo then let! utxos := generated path (generate_utxo_snapshot_parallel d) in ret (gn_utxo_count utxos)
       else ret 0) fs1 = (Ok (if with_utxo then count LU else 0), on_snapshots (insert path s2) fs))
    as (s2 & B2 & M2 & U2 & C2 & R2 & E2).
  { destruct with_utxo.
    - eexists. split_and!; [..|erewrite bind_run by (eapply generated_run; [apply written|by apply utxos_phase]);
        unfold fs1; rewrite on_snapshots_twice; reflexivity]; done.
    - eexists. split_and!; [..|unfold fs1; reflexivity]; done. }
  rewrite (bind_run _ _ _ _ _ E2).
  erewrite bind_run by (eapply generated_run; [apply written|by apply commits_phase]). rewrite on_snapshots_twice.
  erewrite bind_run by (eapply generated_run; [apply written|by apply scripts_phase]). rewrite on_snapshots_twice.
  unfold modify. f_equal. unfold on_snapshots. cbn -[filled_with]. f_equal. apply map_eq. intros p.
  destruct (decide (p = path)) as [->|Hp].
  - rewrite lookup_alter_eq, !lookup_insert_eq. cbn -[meta_row]. f_equal. unfold exported_db, set_meta. cbn -[meta_row].
    rewrite M2, B2, U2, C2, R2. reflexivity.
  - by rewrite lookup_alter_ne, !lookup_insert_ne by done.
Qed.

(** ** The whole export *)

Context (key : option SnapshotSigningKeyFile).
Definition artifact_name : string := snapshot_name t.
Definition artifact_manifest (c : BlockCommitEntry) : SnapshotManifest :=
  manifest_build now artifact_name (calc_hash exported_db) (state_ref_of network t c) (sk_key_id <$> key).

Lemma open_run fs : ∃ fs', open_by_height now t true fs = (Ok artifact_name, fs')
  ∧ fs_snapshots fs' !! artifact_name = Some empty_snapshot_db
  ∧ fs_manifests fs' = fs_manifests fs ∧ fs_signatures fs' = fs_signatures fs.
Proof.
  unfold open_by_height. erewrite bind_run by reflexivity. destruct (fs_snapshots fs !! snapshot_name t) as [old|] eqn:E.
  - erewrite bind_run by reflexivity. eexists. split; [done|]. split_and!; [cbn; apply lookup_insert_eq|done|done].
  - erewrite bind_run by reflexivity. eexists. split; [done|]. split_and!; [cbn; apply lookup_insert_eq|done|done].
Qed.

Lemma run_exports fs c secret :
  commit_fault = None → t <= default 0 (meta_cf d !! META_KEY_BTC_BLOCK_HEIGHT) →
  (with_utxo = true → t = default 0 (meta_cf d !! META_KEY_BTC_BLOCK_HEIGHT)) →
  block_commits_cf d !! t = Some c → (∀ k, key = Some k → to_signing_key k = Ok secret) →
  ∃ fs', run network (Ok <$> key) now d t with_utxo fs = (Ok tt, fs')
    ∧ fs_snapshots fs' !! artifact_name = Some exported_db
    ∧ fs_manifests fs' !! manifest_path_for_snapshot_file artifact_name = Some (artifact_manifest c)
    ∧ (key ≠ None →
       fs_signatures fs' !! signature_path_for_manifest_file (manifest_path_for_snapshot_file artifact_name)
       = Some (base64_encode (ed25519_sign secret (canonical_bytes (artifact_manifest c))))).
Proof.
  intros Hf Ht Hu Hc Hk. unfold run. rewrite Z.gtb_ltb, (proj2 (Z.ltb_ge _ _)) by done.
  assert (with_utxo && negb (t =? default 0 (meta_cf d !! META_KEY_BTC_BLOCK_HEIGHT)) = false) as ->.
  { destruct with_utxo; [|done]. cbn. by rewrite (proj2 (Z.eqb_eq _ _)) by by apply Hu. }
  destruct (open_run fs) as (fs1 & E1 & S1 & _). rewrite (bind_run _ _ _ _ _ E1).
  rewrite (bind_run _ _ _ _ _ (export_tables_run _ _ Hf S1)). erewrite bind_run by reflexivity.
  rewrite written. cbn [default from_option id]. unfold snapshot_state_ref. rewrite Hc. cbn [fmap option_fmap option_map ok_or].
  erewrite bind_run by reflexivity.
  unfold artifact_manifest. destruct key as [k|]; cbn [fmap option_fmap option_map].
  - erewrite bind_run by reflexivity. erewrite bind_run by reflexivity. unfold sign_manifest. rewrite (Hk k eq_refl).
    erewrite bind_run by reflexivity. eexists. split; [done|]. split; [apply written|].
    split; [cbn; apply lookup_insert_eq|]. intros _. cbn. apply lookup_insert_eq.
  - erewrite bind_run by reflexivity. erewrite bind_run by reflexivity. eexists. split; [done|]. split; [apply written|].
    split; [cbn; apply lookup_insert_eq|done].
Qed.
End File.
