(* ===== verification/SnapshotCopy.v ===== *)
(** * Copying the tables of an export

    The four loops of an installation over the file of an export: each reads every entry that was
    written, once, and the staging database holds them all. *)

From stdpp Require Import pretty.
From S2P Require Import Prelude Encoding Types Tx BalanceCodec BalanceDb BalanceDbFacts BalanceBlock StateIds.
From S2P Require Import BalanceService BalanceServer SnapshotDb SnapshotPages SnapshotExport SnapshotShards.
From S2P Require Import SnapshotTables SnapshotEntries SnapshotFile SnapshotInstall.

(** ** Rows are read as they were written *)

Lemma hash_from_blob msg h : u256 h → hash_from_slice msg (hash_blob h) = Ok h.
Proof.
  intros Hh. unfold hash_from_slice, hash_blob. rewrite length_be_bytes. cbn [Nat.eqb].
  by rewrite of_be_bytes_be_bytes by by apply pow_u256.
Qed.
Lemma array32_id msg l : bytes32 l → array32 msg l = Ok l.
Proof. unfold array32, bytes32. by intros ->. Qed.
Lemma parse_balance_written e :
  u256 (be_script_hash e) → 0 <= be_block_height e <= U32_MAX → 0 <= be_balance e <= U64_MAX →
  parse_balance_row (balance_snapshot_row e) = Ok e.
Proof.
  intros Hh Hk Hb. unfold parse_balance_row, balance_snapshot_row. cbn [fst snd]. rewrite hash_from_blob by done.
  cbn [result_bind]. rewrite i64_as_u32_id, i64_as_u64_as_i64 by done. by destruct e.
Qed.
Lemma parse_utxo_written e :
  wf_outpoint (ue_outpoint e) → u256 (ue_script_hash e) → 0 <= ue_value e <= U64_MAX →
  parse_utxo_row (utxo_snapshot_row e) = Ok e.
Proof.
  intros Ho Hh Hv. unfold parse_utxo_row, utxo_snapshot_row. cbn [fst snd]. rewrite OutPointCodec_roundtrip by done.
  cbn [result_bind]. rewrite hash_from_blob by done. cbn [result_bind]. rewrite i64_as_u64_as_i64 by done. by destruct e.
Qed.
Lemma parse_commit_written e :
  0 <= cm_block_height e <= U32_MAX → u256 (cm_btc_block_hash e) → bytes32 (cm_balance_delta_root e) →
  bytes32 (cm_block_commit e) → parse_commit_row (commit_snapshot_row e) = Ok e.
Proof.
  intros Hk Hh Hr Hc. unfold parse_commit_row, commit_snapshot_row. cbn [fst snd]. rewrite hash_from_blob by done.
  cbn [result_bind]. rewrite !array32_id by done. cbn [result_bind]. rewrite i64_as_u32_id by done. by destruct e.
Qed.
Lemma parse_script_written e : u256 (sre_script_hash e) → parse_script_row (script_snapshot_row e) = Ok e.
Proof.
  intros Hh. unfold parse_script_row, script_snapshot_row. cbn [fst snd]. rewrite hash_from_blob by done. by destruct e.
Qed.

(** ** A table is copied *)

Section Table.
Context {E K V C : Type} `{Countable K} (encode : K → list Z) (parse : K * V → result E) (row : E → K * V).
Context (key : C → K) (cursor : E → C) (l : list E) (Hl : NoDup (row <$> l).*1).
Context (Hparse : ∀ e, e ∈ l → parse (row e) = Ok e) (Hcursor : ∀ e, key (cursor e) = (row e).1).
Context (Hencode : ∀ e e', e ∈ l → e' ∈ l → encode (row e).1 = encode (row e').1 → (row e).1 = (row e').1).

Abbreviation table := (put_all (row <$> l) ∅).

Lemma table_rows : map_to_list table ≡ₚ row <$> l.
Proof.
  assert (table = list_to_map (row <$> l)) as ->; [|by apply map_to_list_to_map].
  apply map_eq. intros k. rewrite put_all_lookup by done. by rewrite (right_id_L ∅ (∪)).
Qed.
Lemma table_lookup k v : table !! k = Some v ↔ ∃ e, e ∈ l ∧ row e = (k, v).
Proof.
  rewrite <-elem_of_map_to_list, table_rows, list_elem_of_fmap. naive_solver.
Qed.
Lemma table_size : size table = length l.
Proof. by rewrite <-length_map_to_list, table_rows, length_fmap. Qed.
Lemma table_entries : ∃ es, collect parse (cf_rows encode table) = Ok es ∧ es ≡ₚ l.
Proof.
  destruct (collect_Permutation parse (row <$> l) (cf_rows encode table) l) as (es & E1 & P).
  - apply collect_Ok, Forall2_fmap_l, Forall_Forall2_diag, Forall_forall. auto.
  - unfold cf_rows. by rewrite order_by_Permutation, table_rows.
  - exists es. by split.
Qed.

Context (read : option C → result (list E)) (write : list E → M Disk unit) (f : list E → BalanceHistoryDB → BalanceHistoryDB).
Context (Hread : ∀ last, read last = collect parse (page encode SNAPSHOT_PAGE_SIZE (key <$> last) table)).
Context (Hwrite : ∀ es x, write es {| db := x; writes_left := None |} = (Ok tt, {| db := f es x; writes_left := None |})).
Context (Hf : ∀ a b x, f (a ++ b) x = f b (f a x)) (Hf0 : ∀ x, f [] x = x).

Lemma install_table_run mismatch x : count l <= U64_MAX → ∃ es, es ≡ₚ l
  ∧ install_table read cursor write (table_fuel table) (count l) mismatch {| db := x; writes_left := None |}
    = (Ok tt, {| db := f es x; writes_left := None |}).
Proof.
  intros Hc. destruct table_entries as (es & E1 & P). exists es. split; [done|].
  assert (count es = count l) as Ec by (unfold count; by rewrite P).
  unfold install_table. destruct (count l =? 0) eqn:E0; b2p.
  - assert (es = []) as -> by (apply nil_length_inv; unfold count in *; lia). by rewrite Hf0.
  - erewrite bind_run.
    2: { eapply (load_table_run encode parse key cursor table) with (rows := cf_rows encode table) (entries := es)
           (F := λ es dk, {| db := f es (db dk); writes_left := None |}) (P := λ dk, writes_left dk = None).
         - intros k k' [v (e & He & Ee)%table_lookup] [v' (e' & He' & Ee')%table_lookup] Ek.
           replace k with (row e).1 in * by by rewrite Ee. replace k' with (row e').1 in * by by rewrite Ee'. by apply Hencode.
         - intros [k v] e (e' & He' & Ee')%table_lookup Hp. cbn [fst snd] in Ee'. rewrite <-Ee', Hparse in Hp by done.
           injection Hp as <-. rewrite Hcursor. by rewrite Ee'.
         - done.
         - exact Hread.
         - intros b [y w] Ew. cbn in Ew. subst w. by rewrite Hwrite.
         - intros a b [y w]. cbn. by rewrite Hf.
         - done.
         - unfold table_fuel. rewrite table_size. unfold cf_rows. rewrite order_by_Permutation, length_map_to_list, table_size. lia.
         - by left.
         - done.
         - done.
         - lia. }
    cbn [db]. rewrite Z.add_0_l, Ec, Z.eqb_refl. done.
Qed.
End Table.

(** ** The four tables *)

Definition put_utxo_rows (utxos : list UTXOEntry) : BalanceHistoryDB → BalanceHistoryDB :=
  on_utxo_cf (put_all ((λ u, (ue_outpoint u, {| uv_script_hash := ue_script_hash u; uv_value := ue_value u |})) <$> utxos)).

Section Copies.
Context `{ER : ExportRun} `{EL : !ExportRunLaws}.
Context (d : BalanceHistoryDB) (D : storable d) (t : u32) (with_utxo : bool) (now : u64).

Abbreviation LB := (exported_balances d t).
Abbreviation LU := (exported_rows OutPointCodec_encode 35 utxo_fault (utxo_cf d) utxo_entry).
Abbreviation LC := (exported_commits d t).
Abbreviation LS := (exported_rows (be_bytes 32) 31 script_fault (script_registry_cf d) script_entry).
Abbreviation file := (exported_db d t with_utxo now).
Abbreviation meta := (exported_meta d t with_utxo now).
Abbreviation clean x := {| db := x; writes_left := None |}.

Lemma copy_balances x : ∃ es, es ≡ₚ LB
  ∧ install_balance_history_snapshot file meta (clean x) = (Ok tt, clean (put_balance_entries es x)).
Proof.
  apply (install_table_run id parse_balance_row balance_snapshot_row hash_blob).
  - by apply LB_rows.
  - intros e (? & ? & ?)%(exported_balance_row d D)%(st_rows _ D). by apply parse_balance_written.
  - done.
  - done.
  - done.
  - done.
  - intros a b y. unfold put_balance_entries, on_balance_history_cf. cbn. by rewrite fmap_app, put_all_app.
  - by intros [].
  - by apply exported_balances_count.
Qed.
Lemma copy_utxos x : ∃ es, es ≡ₚ (if with_utxo then LU else [])
  ∧ install_utxo_snapshot file meta (clean x) = (Ok tt, clean (put_utxo_rows es x)).
Proof.
  assert (NoDup (utxo_snapshot_row <$> if with_utxo then LU else []).*1) as Hn
    by (destruct with_utxo; [by apply LU_rows|constructor]).
  assert (∀ e, e ∈ (if with_utxo then LU else []) →
            wf_outpoint (ue_outpoint e) ∧ u256 (ue_script_hash e) ∧ 0 <= ue_value e <= U64_MAX) as Hw.
  { intros e He. destruct with_utxo; [|by apply elem_of_nil in He].
    apply (exported_row _ _ _ _ (utxo_keys d)) in He as ([o v] & -> & Hv).
    destruct (st_utxos _ D _ _ Hv) as (? & ? & ?). done. }
  unfold install_utxo_snapshot.
  assert (t_utxos file = put_all (utxo_snapshot_row <$> if with_utxo then LU else []) ∅) as Et
    by (by destruct with_utxo).
  assert (sm_utxo_count meta = count (if with_utxo then LU else [])) as Ec by (by destruct with_utxo).
  rewrite Et, Ec.
  apply (install_table_run id parse_utxo_row utxo_snapshot_row OutPointCodec_encode).
  - done.
  - intros e (? & ? & ?)%Hw. by apply parse_utxo_written.
  - done.
  - done.
  - intros last. unfold get_utxo_entries. by rewrite Et.
  - done.
  - intros a b y. unfold put_utxo_rows, on_utxo_cf. cbn. by rewrite fmap_app, put_all_app.
  - by intros [].
  - destruct with_utxo; [|done]. etrans; [by apply (exported_rows_count _ _ _ _ (utxo_keys d) _ ue_outpoint)|apply (st_sizes _ D)].
Qed.
Lemma copy_commits x : ∃ es, es ≡ₚ LC
  ∧ install_block_commit_snapshot file meta (clean x) = (Ok tt, clean (put_block_commits es x)).
Proof.
  apply (install_table_run integer_key parse_commit_row commit_snapshot_row id).
  - by apply LC_rows.
  - intros e [He _]%(elem_of_exported_commits d D). destruct (st_commits _ D _ _ He) as (? & _ & ? & ? & ?).
    by apply parse_commit_written.
  - done.
  - intros e e' [He _]%(elem_of_exported_commits d D) [He' _]%(elem_of_exported_commits d D) E. cbn in *.
    destruct (st_commits _ D _ _ He) as (? & _), (st_commits _ D _ _ He') as (? & _).
    unfold integer_key in E. apply be_bytes_inj in E; unfold I64_MIN, U32_MAX in *; lia.
  - intros last. unfold get_block_commit_entries. by rewrite option_fmap_id.
  - done.
  - intros a b y. unfold put_block_commits, on_block_commits_cf. cbn. by rewrite fmap_app, put_all_app.
  - by intros [].
  - by apply exported_commits_count.
Qed.
Lemma copy_scripts x : ∃ es, es ≡ₚ LS
  ∧ install_script_registry_snapshot file meta (clean x)
    = (Ok tt, clean (append_script_registry_entries_to_batch es x)).
Proof.
  apply (install_table_run id parse_script_row script_snapshot_row hash_blob).
  - by apply LS_rows.
  - intros e (kv & -> & Hkv)%(exported_row _ _ _ _ (script_keys d)). apply parse_script_written. by apply (st_scripts _ D) in Hkv.
  - done.
  - done.
  - done.
  - done.
  - intros a b y. unfold append_script_registry_entries_to_batch, on_script_registry_cf. cbn. by rewrite fmap_app, put_all_app.
  - by intros [].
  - etrans; [by apply (exported_rows_count _ _ _ _ (script_keys d) _ sre_script_hash)|apply (st_sizes _ D)].
Qed.

(** The metadata is read as it was written. *)
Lemma exported_meta_read : 0 <= t <= U32_MAX → 0 <= now <= U64_MAX → get_meta file = Ok meta.
Proof.
  intros Ht Hn. unfold get_meta. cbn [t_meta exported_db latest_meta foldl ok_or result_map].
  assert (0 <= count LB <= U64_MAX ∧ 0 <= count LC <= U64_MAX ∧ 0 <= count LS <= U64_MAX
          ∧ 0 <= (if with_utxo then count LU else 0) <= U64_MAX) as (H1 & H2 & H3 & H4).
  { pose proof (exported_balances_count d D t). pose proof (exported_commits_count d D t).
    pose proof (exported_rows_count _ _ script_fault (script_registry_cf d) (script_keys d) script_entry sre_script_hash ltac:(done)).
    pose proof (exported_rows_count _ _ utxo_fault (utxo_cf d) (utxo_keys d) utxo_entry ue_outpoint ltac:(done)).
    pose proof (st_sizes _ D) as (_ & ? & ? & _). unfold count in *. destruct with_utxo; repeat split; unfold U64_MAX in *; lia. }
  f_equal. unfold row_meta, meta_row, exported_meta. cbn -[i64_as_u32 i64_as_u64 u64_as_i64].
  rewrite !i64_as_u64_as_i64, !i64_as_u32_id by done. done.
Qed.
End Copies.
