(* ===== verification/SnapshotRestore.v ===== *)
(** * A snapshot restores the state it was taken from

    The export of [SnapshotFile] and the installation of [SnapshotInstall], end to end, and the node
    that starts from the restored database. *)

From stdpp Require Import pretty.
From S2P Require Import Prelude Encoding Types Tx BalanceCodec BalanceDb BalanceDbFacts BalanceBlock StateIds.
From S2P Require Import BalanceService BalanceServer SnapshotDb SnapshotPages SnapshotExport SnapshotShards.
From S2P Require Import SnapshotTables SnapshotEntries SnapshotFile SnapshotInstall SnapshotCopy SnapshotSafety.

(** What an Ed25519 signature in base64 is read back as. *)
Class SnapshotCratesLaws `{SnapshotCrates} := {
  signature_length secret m : length (ed25519_sign secret m) = 64%nat;
  signature_base64 secret m : base64_decode (base64_encode (ed25519_sign secret m)) = Some (ed25519_sign secret m)
}.

Section Restore.
Context `{BC : BitcoinCrate} `{SC : SnapshotCrates} `{SL : !SnapshotCratesLaws}.
Context `{ER : ExportRun} `{EL : !ExportRunLaws} (network : string).
Context (d : BalanceHistoryDB) (D : storable d) (t : u32) (with_utxo : bool) (now : u64).

Abbreviation LB := (exported_balances d t).
Abbreviation LU := (exported_rows OutPointCodec_encode 35 utxo_fault (utxo_cf d) utxo_entry).
Abbreviation LC := (exported_commits d t).
Abbreviation LS := (exported_rows (be_bytes 32) 31 script_fault (script_registry_cf d) script_entry).
Abbreviation file := (exported_db d t with_utxo now).
Abbreviation meta := (exported_meta d t with_utxo now).

(** ** The staging database *)

Definition put_meta (verified : bool) (x : BalanceHistoryDB) : BalanceHistoryDB :=
  on_meta_cf (insert META_KEY_SNAPSHOT_INSTALL_MANIFEST_VERIFIED (if verified then 1 else 0))
    (on_meta_cf (insert META_KEY_SNAPSHOT_INSTALL_USED 1) (on_meta_cf (insert META_KEY_BTC_BLOCK_HEIGHT t) x)).
(** The copied entries, in the order of the pages. *)
Definition copied (eb : list BalanceHistoryEntry) (eu : list UTXOEntry) (ec : list BlockCommitEntry)
    (es : list ScriptRegistryEntry) : BalanceHistoryDB :=
  append_script_registry_entries_to_batch es (put_block_commits ec (put_utxo_rows eu
    (put_balance_entries eb empty_balance_db))).
Definition is_copy (eb : list BalanceHistoryEntry) (eu : list UTXOEntry) (ec : list BlockCommitEntry)
    (es : list ScriptRegistryEntry) : Prop :=
  eb ≡ₚ LB ∧ eu ≡ₚ (if with_utxo then LU else []) ∧ ec ≡ₚ LC ∧ es ≡ₚ LS.

(** A host on which nothing fails. *)
Definition sound_host (h : Host) : Prop := h_dir_faults h = [] ∧ h_writes_left h = None ∧ h_live_shared h = false.
Definition with_staged (nanos : u64) (nd : NodeDb) (h : Host) : Host :=
  set_staging (<[nanos := Some nd]> (h_staging h)) h.

Lemma dir_op_run msg h : h_dir_faults h = [] → dir_op msg h = (Ok tt, h).
Proof. unfold dir_op. by intros ->. Qed.
Lemma with_staged_twice nanos a b h : with_staged nanos b (with_staged nanos a h) = with_staged nanos b h.
Proof. unfold with_staged, set_staging, set_dirs. cbn. by rewrite insert_insert_eq. Qed.
Lemma with_staged_sound nanos nd h : sound_host h → sound_host (with_staged nanos nd h).
Proof. done. Qed.
Lemma on_staging_run {A} nanos (m : M Disk A) nd h a x :
  sound_host h → m {| db := nd_db nd; writes_left := None |} = (Ok a, {| db := x; writes_left := None |}) →
  on_staging nanos m (with_staged nanos nd h)
  = (Ok a, with_staged nanos {| nd_db := x; nd_provenance := nd_provenance nd |} h).
Proof.
  intros (_ & Hw & _) Em. unfold on_staging. cbn [h_staging with_staged set_staging set_dirs h_writes_left].
  rewrite lookup_insert_eq, Hw. cbn [mjoin option_join default from_option id]. rewrite Em. cbn [writes_left db].
  rewrite insert_insert_eq. unfold set_writes_left, with_staged, set_staging, set_dirs. cbn. by rewrite Hw.
Qed.
Lemma copy_run nanos nd h total (m : M Disk unit) x :
  sound_host h → m {| db := nd_db nd; writes_left := None |} = (Ok tt, {| db := x; writes_left := None |}) →
  install_and_flush nanos total m (with_staged nanos nd h)
  = (Ok tt, with_staged nanos {| nd_db := x; nd_provenance := nd_provenance nd |} h).
Proof.
  intros Hh Em. unfold install_and_flush. rewrite (bind_run _ _ _ _ _ (on_staging_run _ _ _ _ _ _ Hh Em)).
  destruct (total =? 0); [done|]. apply dir_op_run. apply Hh.
Qed.
Lemma put_provenance_run nanos p nd h :
  sound_host h →
  put_snapshot_install_provenance nanos p (with_staged nanos nd h)
  = (Ok tt, with_staged nanos
      {| nd_db := on_meta_cf (insert META_KEY_SNAPSHOT_INSTALL_MANIFEST_VERIFIED (if legacy_manifest_verified p then 1 else 0))
                    (on_meta_cf (insert META_KEY_SNAPSHOT_INSTALL_USED 1) (nd_db nd)); nd_provenance := Some p |} h).
Proof.
  intros Hh. unfold put_snapshot_install_provenance.
  assert (put_provenance nanos p (with_staged nanos nd h)
          = (Ok tt, with_staged nanos {| nd_db := nd_db nd; nd_provenance := Some p |} h)) as E1.
  { destruct Hh as (_ & Hw & _). unfold put_provenance. cbn [h_writes_left with_staged set_staging set_dirs h_staging].
    rewrite Hw, lookup_insert_eq, insert_insert_eq. unfold set_writes_left, with_staged, set_staging, set_dirs. cbn. by rewrite Hw. }
  rewrite (bind_run _ _ _ _ _ E1). erewrite bind_run by by apply on_staging_run. by apply on_staging_run.
Qed.

Definition manifest_fits (c : BlockCommitEntry) (manifest : option SnapshotManifest) : Prop :=
  ∀ m, manifest = Some m → mf_state_ref m = state_ref_of network t c.

(** The commits of the copy. *)
Lemma copied_commit eb eu ec es k c : is_copy eb eu ec es → block_commits_cf d !! k = Some c → k <= t →
  block_commits_cf (copied eb eu ec es) !! k = Some c.
Proof.
  intros (_ & _ & P & _) Hc Hk. cbn. apply put_all_in.
  - rewrite <-list_fmap_compose. change (NoDup (cm_block_height <$> ec)). rewrite P. by apply exported_commits_NoDup.
  - apply list_elem_of_fmap. exists c. destruct (st_commits _ D _ _ Hc) as (_ & E & _). rewrite E. split; [done|].
    rewrite P. apply elem_of_exported_commits; [done|]. by rewrite E.
Qed.

Lemma stage_run trust_mode nanos manifest sp sv h c :
  sound_host h → block_commits_cf d !! t = Some c → manifest_fits c manifest →
  ∃ eb eu ec es, is_copy eb eu ec es
  ∧ stage network trust_mode nanos manifest sp sv file meta (with_staged nanos empty_node_db h)
    = (Ok tt, with_staged nanos
        {| nd_db := put_meta (bool_decide (is_Some manifest)) (copied eb eu ec es);
           nd_provenance := Some (install_provenance trust_mode manifest sp sv meta) |} h).
Proof.
  intros Hh Hc Hm.
  destruct (copy_balances d D t with_utxo now empty_balance_db) as (eb & Pb & Eb).
  destruct (copy_utxos d D t with_utxo now (put_balance_entries eb empty_balance_db)) as (eu & Pu & Eu).
  destruct (copy_commits d D t with_utxo now (put_utxo_rows eu (put_balance_entries eb empty_balance_db))) as (ec & Pc & Ec).
  destruct (copy_scripts d D t with_utxo now (put_block_commits ec (put_utxo_rows eu (put_balance_entries eb empty_balance_db))))
    as (es & Ps & Es).
  exists eb, eu, ec, es. assert (is_copy eb eu ec es) as Hcopy by done. split; [done|]. unfold SnapshotInstall.stage.
  erewrite bind_run by by apply (copy_run nanos _ h).
  erewrite bind_run by by apply (copy_run nanos _ h).
  erewrite bind_run by by apply (copy_run nanos _ h).
  erewrite bind_run by by apply (copy_run nanos _ h).
  erewrite bind_run by by apply (on_staging_run nanos _ _ h).
  erewrite bind_run by by apply dir_op_run, Hh. cbn [nd_provenance empty_node_db].
  set (nd := {| nd_db := _; nd_provenance := None |}).
  assert (match manifest with Some m => validate_staged_manifest network nanos meta m | None => ret tt end
            (with_staged nanos nd h) = (Ok tt, with_staged nanos nd h)) as Ev.
  { destruct manifest as [m|]; [|done]. unfold validate_staged_manifest. erewrite bind_run by reflexivity.
    cbn [with_staged set_staging set_dirs h_staging]. rewrite lookup_insert_eq. cbn [mjoin option_join default from_option id].
    unfold snapshot_state_ref. cbn [sm_block_height exported_meta].
    assert (block_commits_cf (nd_db nd) !! t = Some c) as -> by (by apply (copied_commit eb eu ec es)).
    erewrite bind_run by reflexivity. by rewrite bool_decide_true by (symmetry; by apply Hm). }
  rewrite (bind_run _ _ _ _ _ Ev). rewrite (bind_run _ _ _ _ _ (put_provenance_run nanos _ nd h Hh)).
  apply dir_op_run, Hh.
Qed.

(** ** The installation *)

Lemma prepare_run nanos h : sound_host h →
  (let! _ := prepare_staging_root nanos in open_staging_db nanos) h = (Ok tt, with_staged nanos empty_node_db h).
Proof.
  intros (Hd & _). destruct h as [fs live backups staging shared faults w]. cbn in Hd. subst faults.
  unfold prepare_staging_root, open_staging_db, with_staged, bind, gets, modify, ret, dir_op. cbn.
  case_bool_decide; cbn; unfold set_staging, set_dirs; cbn; do 2 f_equal.
  - by rewrite insert_insert_eq, insert_delete_eq.
  - by rewrite insert_insert_eq.
Qed.
Lemma swap_run nanos secs old st h : sound_host h → h_live h = Some old → h_backups h !! secs = None →
  ∃ h', swap_staging_db_into_place nanos secs (with_staged nanos st h) = (Ok tt, h')
    ∧ exchanged secs old st h h' ∧ h_staging h' !! nanos = None.
Proof.
  intros (Hd & Hw & Hs) Hl Hb. destruct h as [fs live backups staging shared faults w]. cbn in *. subst.
  eexists. split.
  - unfold swap_staging_db_into_place, move_live_to_backup, promote_staged, bind, gets, dir_op, try, modify, ret. cbn.
    rewrite lookup_insert_eq. cbn. unfold bind. cbn. rewrite bool_decide_false by (rewrite Hb; by intros []). cbn.
    rewrite lookup_insert_eq, bool_decide_true by done. cbn. reflexivity.
  - split; [done|]. cbn. apply lookup_delete_eq.
Qed.

(** The files of the artifact, as an installation names them. *)
Definition artifact_data : SnapshotData :=
  {| sd_file := artifact_name t;
     sd_manifest_file := Some (manifest_path_for_snapshot_file (artifact_name t)) |}.
(** The signer is trusted, when signatures are asked for. *)
Definition signer_trusted (trust_mode : SnapshotTrustMode) (trusted_keys_file : option (result SnapshotTrustedKeySet))
    (key : option SnapshotSigningKeyFile) (secret : list Z) : Prop :=
  trust_mode = Signed → ∃ k keys vk, key = Some k ∧ trusted_keys_file = Some (Ok keys)
    ∧ find_verifying_key keys (sk_key_id k) = Ok (Some vk)
    ∧ ∀ m, ed25519_verify vk m (ed25519_sign secret m) = true.
Abbreviation manifest := (artifact_manifest network d t with_utxo now).

Lemma checks_run trust_mode trusted_keys_file key secret c fs h :
  0 <= now <= U64_MAX → block_commits_cf d !! t = Some c → h_files h = fs →
  fs_snapshots fs !! artifact_name t = Some file →
  fs_manifests fs !! manifest_path_for_snapshot_file (artifact_name t) = Some (manifest key c) →
  (key ≠ None → fs_signatures fs !! signature_path_for_manifest_file (manifest_path_for_snapshot_file (artifact_name t))
     = Some (base64_encode (ed25519_sign secret (canonical_bytes (manifest key c))))) →
  signer_trusted trust_mode trusted_keys_file key secret →
  ∃ sp, install_checks trust_mode trusted_keys_file artifact_data h
        = (Ok (Some (manifest key c), (sp, is_signed trust_mode), (file, meta)), h).
Proof.
  intros Hnow Hc <- Hs Hm Hsig Htr. eexists. unfold install_checks.
  assert (load_manifest artifact_data h = (Ok (Some (manifest key c)), h)) as E1.
  { unfold load_manifest, manifest_load. cbn [sd_manifest_file artifact_data]. erewrite bind_run; [reflexivity|].
    erewrite bind_run by reflexivity. rewrite Hm. erewrite bind_run by reflexivity. by rewrite String.eqb_refl. }
  rewrite (bind_run _ _ _ _ _ E1). rewrite bool_decide_false by done. cbn [andb].
  erewrite bind_run by reflexivity.
  assert (match trust_mode with
          | Signed => let! _ := verify_signature trusted_keys_file artifact_data (Some (manifest key c)) in ret true
          | _ => ret false
          end h = (Ok (is_signed trust_mode), h)) as E2.
  { destruct trust_mode; [done|done|]. destruct (Htr eq_refl) as (k & keys & vk & -> & -> & Hfind & Hver).
    erewrite bind_run; [reflexivity|]. unfold verify_signature. erewrite bind_run by reflexivity.
    erewrite bind_run by reflexivity. cbn [String.eqb negb]. rewrite String.eqb_refl. cbn [negb].
    erewrite bind_run by reflexivity. erewrite bind_run by reflexivity. erewrite bind_run by reflexivity.
    cbn [sd_manifest_file artifact_data fmap option_fmap option_map]. rewrite Hsig by done.
    erewrite bind_run by reflexivity. cbn [sk_key_id]. rewrite Hfind. erewrite bind_run by reflexivity.
    erewrite bind_run by reflexivity. unfold decode_bytes. rewrite signature_base64. cbn [ok_or result_bind].
    rewrite signature_length. cbn [Nat.eqb]. erewrite bind_run by reflexivity. by rewrite Hver. }
  rewrite (bind_run _ _ _ _ _ E2).
  assert (check_file artifact_data (Some (manifest key c)) h = (Ok file, h)) as E3.
  { unfold check_file. erewrite bind_run by reflexivity. cbn [sd_file artifact_data]. rewrite Hs.
    erewrite bind_run by reflexivity. cbn [mf_file_name mf_file_sha256 artifact_manifest manifest_build].
    by rewrite !String.eqb_refl. }
  rewrite (bind_run _ _ _ _ _ E3).
  assert (check_meta (Some (manifest key c)) file h = (Ok meta, h)) as E4.
  { unfold check_meta. destruct (st_commits _ D _ _ Hc) as (Ht & _).
    rewrite (exported_meta_read d D t with_utxo now Ht Hnow). erewrite bind_run by reflexivity. cbn. by rewrite Z.eqb_refl. }
  by rewrite (bind_run _ _ _ _ _ E4).
Qed.

(** Whatever its iterators of balances, unspent outputs and scripts report, the export is installed. *)
Lemma export_installs trust_mode trusted_keys_file key secret c fs nanos secs :
  commit_fault = None → 0 <= now <= U64_MAX → t <= default 0 (meta_cf d !! META_KEY_BTC_BLOCK_HEIGHT) →
  (with_utxo = true → t = default 0 (meta_cf d !! META_KEY_BTC_BLOCK_HEIGHT)) →
  block_commits_cf d !! t = Some c → (∀ k, key = Some k → to_signing_key k = Ok secret) →
  signer_trusted trust_mode trusted_keys_file key secret →
  ∃ fs', run network (Ok <$> key) now d t with_utxo fs = (Ok tt, fs')
    ∧ ∀ h old, h_files h = fs' → sound_host h → h_live h = Some old → h_backups h !! secs = None →
      ∃ eb eu ec es sp h', is_copy eb eu ec es
        ∧ install network trust_mode trusted_keys_file nanos secs artifact_data h = (Ok tt, h')
        ∧ exchanged secs old {| nd_db := put_meta true (copied eb eu ec es);
            nd_provenance := Some (install_provenance trust_mode (Some (manifest key c)) sp (is_signed trust_mode) meta) |} h h'
        ∧ h_staging h' !! nanos = None.
Proof.
  intros Hf Hnow Ht Hu Hc Hk Htr.
  destruct (run_exports network d D t with_utxo now key fs c secret Hf Ht Hu Hc Hk) as (fs' & E1 & Fs & Fm & Fsig).
  exists fs'. split; [done|]. intros h old Hfs Hh Hl Hb.
  destruct (checks_run trust_mode trusted_keys_file key secret c fs' h Hnow Hc Hfs Fs Fm Fsig Htr) as (sp & E2).
  destruct (stage_run trust_mode nanos (Some (manifest key c)) sp (is_signed trust_mode) h c Hh Hc) as (eb & eu & ec & es & Hcopy & E3).
  { by intros m [= <-]. }
  destruct (swap_run nanos secs old {| nd_db := put_meta true (copied eb eu ec es);
     nd_provenance := Some (install_provenance trust_mode (Some (manifest key c)) sp (is_signed trust_mode) meta) |} h Hh Hl Hb)
    as (h' & E4 & X & Hst).
  exists eb, eu, ec, es, sp, h'. split; [done|]. split; [|done]. unfold install. rewrite (bind_run _ _ _ _ _ E2).
  pose proof (prepare_run nanos h Hh) as E5. apply bind_Ok in E5 as (u & h1 & E5 & E6).
  rewrite (bind_run _ _ _ _ _ E5), (bind_run _ _ _ _ _ E6), (bind_run _ _ _ _ _ E3). exact E4.
Qed.
End Restore.
