(* ===== verification/SnapshotFollow.v ===== *)
(** * What a restored database holds, and where it leads

    An export that is installed elsewhere restores the rows, outputs, commits and scripts of its height;
    a node that starts from it follows the chain as one that indexed every block; and an iterator error
    of the export goes unnoticed on both sides. *)

From stdpp Require Import pretty.
From S2P Require Import Prelude Encoding Types Tx BalanceCodec BalanceDb BalanceDbFacts BalanceBlock BalanceProcess.
From S2P Require Import BalanceUndo BalanceChain BalanceFlush StateIds BalanceService BalanceServer SnapshotDb.
From S2P Require Import SnapshotPages.
From S2P Require Import SnapshotExport SnapshotShards SnapshotTables SnapshotEntries SnapshotFile SnapshotInstall.
From S2P Require Import SnapshotCopy SnapshotSafety SnapshotRestore.
From S2P Require Import BalanceDemo SnapshotDemo.

(** A map is rebuilt from entries that name each of its rows once. *)
Lemma put_all_rebuilds {E K V} `{Countable K} (row : E → K * V) (entry : K * V → E) (l : list E) (m : gmap K V) :
  NoDup (row <$> l).*1 → (∀ kv, row (entry kv) = kv) → (∀ e, e ∈ l ↔ ∃ kv, e = entry kv ∧ m !! kv.1 = Some kv.2) →
  put_all (row <$> l) ∅ = m.
Proof.
  intros Hn Hr Hl. apply map_eq. intros k. apply option_eq. intros v. rewrite put_all_new by done.
  rewrite list_elem_of_fmap. split.
  - intros (e & Ee & (kv & -> & Hkv)%Hl). rewrite Hr in Ee. by subst kv.
  - intros Hkv. exists (entry (k, v)). rewrite Hr. split; [done|]. apply Hl. eauto.
Qed.

(** The state of [d] at height [t], as a snapshot carries it: of each script the last row up to [t]
    unless it is empty, the unspent outputs if they were asked for, the commits up to [t], every script,
    and neither undo bundles nor a rollback. *)
Record restores (d : BalanceHistoryDB) (t : u32) (with_utxo : bool) (x : BalanceHistoryDB) : Prop := {
  rs_height : default 0 (meta_cf x !! META_KEY_BTC_BLOCK_HEIGHT) = t;
  rs_rows a k v : balance_history_cf x !! (a, k) = Some v ↔ kept_row d t a k v;
  rs_utxos : utxo_cf x = if with_utxo then utxo_cf d else ∅;
  rs_commits k : block_commits_cf x !! k = if decide (k <= t) then block_commits_cf d !! k else None;
  rs_scripts : script_registry_cf x = script_registry_cf d;
  rs_undo : block_undo_meta_cf x = ∅ ∧ block_undo_created_utxos_cf x = ∅
    ∧ block_undo_spent_utxos_cf x = ∅ ∧ block_undo_balance_index_cf x = ∅;
  rs_rollback key : key ∈ rollback_keys → meta_cf x !! key = None
}.
(** No iterator of the export fails. *)
Definition faultless `{ExportRun} : Prop :=
  (∀ i, balance_fault i = None ∧ utxo_fault i = None ∧ script_fault i = None) ∧ commit_fault = None.

Section Restored.
Context `{BC : BitcoinCrate} `{SC : SnapshotCrates} `{SL : !SnapshotCratesLaws}.
Context `{ER : ExportRun} `{EL : !ExportRunLaws} (network : string).
Context (d : BalanceHistoryDB) (D : storable d) (t : u32) (with_utxo : bool) (now : u64).

Lemma copied_rows eb eu ec es a k v : is_copy d t with_utxo eb eu ec es →
  balance_history_cf (copied eb eu ec es) !! (a, k) = Some v ↔
  {| be_script_hash := a; be_block_height := k; be_delta := v.1; be_balance := v.2 |} ∈ exported_balances d t.
Proof.
  intros (P & _). cbn. rewrite put_all_new.
  - rewrite list_elem_of_fmap, <-P. split; [intros ([] & [= -> -> ->] & He); exact He|].
    intros He. eexists. split; [|exact He]. by destruct v.
  - rewrite <-list_fmap_compose. apply (NoDup_fmap_1 fst). rewrite <-list_fmap_compose.
    change (NoDup (be_script_hash <$> eb)). rewrite P. by apply exported_balances_NoDup.
Qed.
Lemma copied_utxos eb eu ec es : is_copy d t with_utxo eb eu ec es → (∀ i, utxo_fault i = None) →
  utxo_cf (copied eb eu ec es) = if with_utxo then utxo_cf d else ∅.
Proof.
  intros (_ & P & _) Hf. cbn. destruct with_utxo; [|apply Permutation_nil_r in P; by subst].
  apply (put_all_rebuilds _ utxo_entry).
  - rewrite <-list_fmap_compose. change (NoDup (ue_outpoint <$> eu)). rewrite P.
    by apply (exported_rows_NoDup _ _ _ _ (utxo_keys d)).
  - by intros [o []].
  - intros e. rewrite P. split; [apply (exported_row _ _ _ _ (utxo_keys d))|].
    intros (kv & -> & Hkv). by apply (exported_rows_all _ _ _ _ (utxo_keys d)).
Qed.
Lemma copied_scripts eb eu ec es : is_copy d t with_utxo eb eu ec es → (∀ i, script_fault i = None) →
  script_registry_cf (copied eb eu ec es) = script_registry_cf d.
Proof.
  intros (_ & _ & _ & P) Hf. apply (put_all_rebuilds _ script_entry).
  - rewrite <-list_fmap_compose. change (NoDup (sre_script_hash <$> es)). rewrite P.
    by apply (exported_rows_NoDup _ _ _ _ (script_keys d)).
  - by intros [].
  - intros e. rewrite P. split; [apply (exported_row _ _ _ _ (script_keys d))|].
    intros (kv & -> & Hkv). by apply (exported_rows_all _ _ _ _ (script_keys d)).
Qed.
Lemma copied_commits eb eu ec es k : is_copy d t with_utxo eb eu ec es →
  block_commits_cf (copied eb eu ec es) !! k = if decide (k <= t) then block_commits_cf d !! k else None.
Proof.
  intros (_ & _ & P & _). apply option_eq. intros c. cbn. rewrite put_all_new.
  - rewrite list_elem_of_fmap. split.
    + intros (c' & [= -> ->] & [Hc Ht]%(elem_of_Permutation_proper _ _ _ P)%(elem_of_exported_commits d D)). by rewrite decide_True.
    + destruct (decide _) as [Ht|]; [|done]. intros Hc. destruct (st_commits _ D _ _ Hc) as (_ & Ek & _).
      exists c. rewrite Ek. split; [done|]. rewrite P. apply (elem_of_exported_commits d D). by rewrite Ek.
  - rewrite <-list_fmap_compose. change (NoDup (cm_block_height <$> ec)). rewrite P. by apply exported_commits_NoDup.
Qed.

Lemma copied_restores verified eb eu ec es : faultless → is_copy d t with_utxo eb eu ec es →
  restores d t with_utxo (put_meta t verified (copied eb eu ec es)).
Proof.
  intros [Hf _] C. split.
  - cbn. rewrite !lookup_insert_ne by done. by rewrite lookup_insert_eq.
  - intros a k v. etrans; [by apply copied_rows|]. apply elem_of_exported_balances; [done|]. apply Hf.
  - apply copied_utxos; [done|]. apply Hf.
  - intros k. by apply copied_commits.
  - apply copied_scripts; [done|]. apply Hf.
  - done.
  - intros key Hkey. cbn. rewrite !lookup_insert_ne; [done|..]; intros <-; revert Hkey; apply (bool_decide_unpack _); by vm_compute.
Qed.
End Restored.

(** ** From one node to another *)

Section Transfer.
Context `{BC : BitcoinCrate} `{SC : SnapshotCrates} `{SL : !SnapshotCratesLaws}.
Context `{ER : ExportRun} `{EL : !ExportRunLaws} (network : string).
Context (d : BalanceHistoryDB) (t : u32) (with_utxo : bool) (now : u64) (c : BlockCommitEntry).
Context (key : option SnapshotSigningKeyFile) (secret : list Z).
Context (trust_mode : SnapshotTrustMode) (trusted_keys_file : option (result SnapshotTrustedKeySet)).

(** A snapshot of [d] can be asked for at [t], and the installing node trusts its signer. *)
Record exportable : Prop := {
  ep_storable : storable d;
  ep_now : 0 <= now <= U64_MAX;
  ep_synced : t <= default 0 (meta_cf d !! META_KEY_BTC_BLOCK_HEIGHT);
  ep_utxo : with_utxo = true → t = default 0 (meta_cf d !! META_KEY_BTC_BLOCK_HEIGHT);
  ep_commit : block_commits_cf d !! t = Some c;
  ep_key k : key = Some k → to_signing_key k = Ok secret;
  ep_trusted : signer_trusted trust_mode trusted_keys_file key secret
}.
(** What the provenance of a database says that was checked against the state of height [t]. *)
Definition proven (nd : NodeDb) : Prop :=
  ∃ p, nd_provenance nd = Some p ∧ pv_manifest_verified p = true
    ∧ pv_signature_verified p = is_signed trust_mode ∧ pv_installed_block_height p = t
    ∧ pv_snapshot_id p = Some (hs_snapshot_id (state_ref_of network t c)).
(** An installation of the exported files succeeds, on a host where nothing fails. *)
Definition installs_to (P : NodeDb → Prop) (fs : Files) : Prop :=
  ∀ h old nanos secs, h_files h = fs → sound_host h → h_live h = Some old → h_backups h !! secs = None →
  ∃ staged h', install network trust_mode trusted_keys_file nanos secs (artifact_data t) h = (Ok tt, h')
    ∧ exchanged secs old staged h h' ∧ h_staging h' !! nanos = None ∧ P staged.

Lemma transfer (P : NodeDb → Prop) fs : exportable → commit_fault = None →
  (∀ eb eu ec es nd, is_copy d t with_utxo eb eu ec es → proven nd → nd_db nd = put_meta t true (copied eb eu ec es) → P nd) →
  ∃ fs', run network (Ok <$> key) now d t with_utxo fs = (Ok tt, fs') ∧ installs_to P fs'.
Proof.
  intros [D Hnow Ht Hu Hc Hk Htr] Hf HP.
  destruct (run_exports network d D t with_utxo now key fs c secret Hf Ht Hu Hc Hk) as (fs' & E1 & _).
  exists fs'. split; [done|]. intros h old nanos secs Hfs Hh Hl Hb.
  destruct (export_installs network d D t with_utxo now trust_mode trusted_keys_file key secret c fs nanos secs Hf Hnow Ht Hu Hc Hk Htr)
    as (fs'' & E2 & HI).
  rewrite E1 in E2. injection E2 as <-. destruct (HI h old Hfs Hh Hl Hb) as (eb & eu & ec & es & sp & h' & C & E & X & S).
  eexists _, h'. split; [exact E|]. split; [exact X|]. split; [exact S|]. apply (HP eb eu ec es); [done| |done].
  eexists. split; [done|]. by destruct trust_mode.
Qed.

(** C11. A snapshot restores the state it was taken from.  If no iterator fails, an export at a height
    the node has synchronised succeeds, in every trust mode whose key the other node trusts; and an
    installation of its files on a host where nothing fails succeeds, leaves the old database as a
    backup and no staging root, and makes live a database with the rows, unspent outputs, commits and
    scripts of that height, whose provenance names the state reference of the exporting node. *)
Theorem export_install_restores fs : exportable → faultless →
  ∃ fs', run network (Ok <$> key) now d t with_utxo fs = (Ok tt, fs')
    ∧ installs_to (λ staged, restores d t with_utxo (nd_db staged) ∧ proven staged) fs'.
Proof.
  intros HE HF. apply transfer; [done|apply HF|]. intros eb eu ec es nd C Hp ->. split; [|done].
  apply copied_restores; [apply HE|done|done].
Qed.

(** The script hashes whose first byte is the number of the shard have no balance row. *)
Definition shard_lost (i : Z) (x : BalanceHistoryDB) : Prop :=
  ∀ a k, in_shard i (be_bytes 32 a) = true → balance_history_cf x !! (a, k) = None.

(** C34. An iterator error is not noticed.  When the scan of a shard of the balance history fails at its
    first row, the export still succeeds, and so does the installation, whose provenance says that the
    manifest was verified (and the signature, in [Signed] mode): the state reference covers the commits
    only.  Yet no script hash of the shard has a balance row. *)
Theorem iterator_errors_pass i fs : exportable → commit_fault = None → balance_fault i = Some O →
  ∃ fs', run network (Ok <$> key) now d t with_utxo fs = (Ok tt, fs')
    ∧ installs_to (λ staged, shard_lost i (nd_db staged) ∧ proven staged) fs'.
Proof.
  intros HE HF Hi. apply transfer; [done|done|]. intros eb eu ec es nd C Hp ->. split; [|done].
  intros a k Ha. apply eq_None_not_Some. intros [v Hv].
  pose proof (proj1 (copied_rows d (ep_storable HE) t with_utxo eb eu ec es a k v C) Hv) as (j & Hj & _)%list_elem_of_bind.
  assert (j = i) as ->.
  { pose proof (shard_balance_row d (ep_storable HE) t j _ Hj) as [_ Hs]. by eapply one_shard. }
  apply (elem_of_shard_balances d (ep_storable HE) t) in Hj as (kv & (Hin & _) & _).
  revert Hin. rewrite (shard_rows_filter balance_key 35 balance_fault (balance_history_cf d) (balance_keys d)), Hi.
  cbn. by intros ?%elem_of_nil.
Qed.
End Transfer.

(** ** The node that starts from a restored database *)

Section Follow.
Context `{BC : BitcoinCrate} `{BL : !BitcoinCrateLaws} `{LC : LruCrate} `{LL : !LruCrateLaws} `{CL : BTCClient}.
Context (chain : u32 → BtcBlock) (n e : u32) (V : valid_chain chain e) (Hn : 0 <= n <= e).

Lemma kept_row_indexed d a k v : indexed chain n d → kept_row d n a k v ↔ seed_row chain n a k = Some v.
Proof.
  intros I. unfold kept_row, seed_row. setoid_rewrite (ix_rows _ _ _ I). split.
  - intros (Hr & Hk & Hp & Hj). destruct (decide (1 <= k <= n ∧ _)) as [[Hk1 Ha]|]; [|done]. injection Hr as <-.
    rewrite decide_True; [done|]. split_and!; [lia|lia|done|done|]. apply Forall_forall. intros j Hkj%elem_of_heights Hta.
    specialize (Hj j). rewrite decide_True in Hj by (split; [lia|done]). specialize (Hj _ eq_refl). lia.
  - destruct (decide _) as [(Hk & Ha & Hp & Hj)|]; [|done]. intros [= <-]. rewrite decide_True by done.
    split_and!; [done|lia|done|]. intros j w Hw Hle. destruct (decide (1 <= j <= n ∧ _)) as [[Hj1 Hta]|]; [|done].
    destruct (decide (j <= k)) as [|]; [done|]. exfalso. rewrite Forall_forall in Hj.
    by apply (Hj j); [apply elem_of_heights; lia|].
Qed.
Lemma restored_seeded d x : indexed chain n d → restores d n true x → seeded chain n n x.
Proof.
  intros I R. split.
  - lia.
  - apply R.
  - rewrite (rs_utxos _ _ _ _ R). apply I.
  - intros a k. rewrite decide_False by (intros [? _]; lia). apply option_eq. intros v.
    rewrite (rs_rows _ _ _ _ R). by apply kept_row_indexed.
  - intros k. rewrite (rs_commits _ _ _ _ R), (ix_commits _ _ _ I).
    destruct (decide (k <= n)); [done|]. by rewrite decide_False by lia.
  - rewrite (rs_scripts _ _ _ _ R). apply I.
  - destruct (rs_undo _ _ _ _ R) as (E1 & E2 & E3 & E4). split.
    + intros k m. by rewrite E1, lookup_empty.
    + intros k _ i. by rewrite E2, E3, E4, !lookup_empty.
Qed.

Lemma follow_run b latest keep s : n < e → (∀ k, n < k <= e → btc_get_block_by_height k = Ok (chain k)) →
  seeded chain b n (db (disk s)) → caches_ok chain n (caches s) → writes_left (disk s) = None →
  ∃ s', process_blocks (n + 1) (e + 1) latest keep s = (Ok tt, s') ∧ seeded chain b e (db (disk s')).
Proof.
  intros Hne Hcl I Hc Hw.
  pose proof (process_blocks_seeded chain b (n + 1) e latest keep s ltac:(lia) V ltac:(intros; apply Hcl; lia)) as H.
  replace (n + 1 - 1) with n in H by lia. specialize (H I Hc).
  destruct (process_blocks _ _ _ _ _) as [[[]|er|er] s']; [|..|done].
  - exists s'. split; [done|]. apply H.
  - destruct H as [_ H]. congruence.
Qed.

(** C6. A restored node follows the chain.  It starts from a snapshot of height [n] of a node that
    indexed every block, and both index the blocks up to [e], each over caches that hold nothing
    false and with its own retention.  Afterwards their unspent outputs and their commits are the same,
    so are the balance rows above [n], and both answer the same balance of every script hash, that of
    the chain, at every height from [n] on. *)
Theorem restored_node_follows latest1 keep1 latest2 keep2 s1 s2 :
  n < e → (∀ k, n < k <= e → btc_get_block_by_height k = Ok (chain k)) →
  indexed chain n (db (disk s1)) → caches_ok chain n (caches s1) → writes_left (disk s1) = None →
  restores (db (disk s1)) n true (db (disk s2)) → caches_ok chain n (caches s2) → writes_left (disk s2) = None →
  ∃ s1' s2', process_blocks (n + 1) (e + 1) latest1 keep1 s1 = (Ok tt, s1')
    ∧ process_blocks (n + 1) (e + 1) latest2 keep2 s2 = (Ok tt, s2')
    ∧ let d1 := db (disk s1') in let d2 := db (disk s2') in
      utxo_cf d1 = utxo_cf d2 ∧ block_commits_cf d1 = block_commits_cf d2
      ∧ (∀ a k, n < k → balance_history_cf d1 !! (a, k) = balance_history_cf d2 !! (a, k))
      ∧ ∀ a h, u256 a → n <= h <= e →
          bd_balance (latest_at a h d1) = balance_at chain a h ∧ bd_balance (latest_at a h d2) = balance_at chain a h.
Proof.
  intros Hne Hcl I1 C1 W1 R C2 W2. pose proof (restored_seeded _ _ I1 R) as I2. apply seeded_0 in I1; [|lia].
  destruct (follow_run 0 latest1 keep1 s1 Hne Hcl I1 C1 W1) as (s1' & E1 & J1).
  destruct (follow_run n latest2 keep2 s2 Hne Hcl I2 C2 W2) as (s2' & E2 & J2).
  exists s1', s2'. split; [done|]. split; [done|]. cbn. split_and!.
  - by rewrite (sd_utxos _ _ _ _ J1), (sd_utxos _ _ _ _ J2).
  - apply map_eq. intros k. by rewrite (sd_commits _ _ _ _ J1), (sd_commits _ _ _ _ J2).
  - intros a k Hk. rewrite (sd_rows _ _ _ _ J1), (sd_rows _ _ _ _ J2), seed_row_0.
    assert (seed_row chain n a k = None) as -> by (unfold seed_row; rewrite decide_False; [done|lia]).
    apply decide_ext. split; intros [? ?]; (split; [lia|done]).
  - intros a h Ha Hh.
    split; [apply (seeded_latest chain e V 0 _ J1)|apply (seeded_latest chain e V n _ J2)]; (done || lia).
Qed.
End Follow.

(** ** Witnesses *)

#[local] Existing Instances demo_crate demo_lru demo_snapshot_crates.
#[local] Instance follow_node : BTCClient := demo_client demo_chain 2.

Lemma bytes_text_roundtrip l : Forall (λ b, 0 <= b < 256) l → text_bytes (bytes_text l) = l.
Proof.
  unfold text_bytes, bytes_text. rewrite list_ascii_of_string_of_list_ascii. intros Hl. rewrite <-list_fmap_compose.
  induction Hl as [|b l Hb Hl IH]; [done|]. cbn. rewrite IH. f_equal. rewrite nat_ascii_embedding; lia.
Qed.
Lemma demo_signature_length secret m : length (demo_signature secret m) = 64%nat.
Proof. unfold demo_signature. rewrite length_take, length_app, repeat_length. lia. Qed.
Lemma demo_snapshot_laws : SnapshotCratesLaws.
Proof.
  split; intros secret m; cbn; [apply demo_signature_length|]. f_equal. apply bytes_text_roundtrip. apply Forall_take, Forall_app.
  split; [|by apply (bool_decide_unpack _)]. apply Forall_fmap, Forall_true. intros b. cbn.
  pose proof (Z.mod_pos_bound b 256). lia.
Qed.
Lemma demo_storable : storable demo_db.
Proof.
  split.
  - intros a k v. cbn. intros [[= <- <-] <-]%lookup_singleton_Some. by split_and!.
  - intros o v. cbn. intros [<- <-]%lookup_singleton_Some. by repeat split.
  - intros a s. cbn. by intros [<- _]%lookup_singleton_Some.
  - intros k c. cbn. intros [<- <-]%lookup_singleton_Some. by split_and!.
  - split_and!; by vm_compute.
Qed.
Lemma demo_exportable : exportable demo_db 1 true 7 demo_commit (Some demo_key) (repeat 75 32) Signed (Some (Ok demo_keys)).
Proof.
  split; [apply demo_storable|done|done|done|done|..].
  - intros k [= <-]. by vm_compute.
  - intros _. eexists _, _, _. split; [done|]. split; [done|]. split; [by vm_compute|]. intros m. by apply bool_decide_eq_true_2.
Qed.

Lemma export_install_restores_witness :
  ∃ fs', run (H1 := demo_export) "regtest" (Some (Ok demo_key)) 7 demo_db 1 true no_files = (Ok tt, fs')
    ∧ ∃ staged h', install "regtest" Signed (Some (Ok demo_keys)) 3 4 (artifact_data 1)
                     {| h_files := fs'; h_live := Some empty_node_db; h_backups := ∅; h_staging := ∅;
                        h_live_shared := false; h_dir_faults := []; h_writes_left := None |} = (Ok tt, h')
        ∧ h_live h' = Some staged ∧ utxo_cf (nd_db staged) = utxo_cf demo_db.
Proof.
  destruct (export_install_restores (SL := demo_snapshot_laws) (EL := demo_export_laws) "regtest" demo_db 1 true 7 demo_commit
    (Some demo_key) (repeat 75 32) Signed (Some (Ok demo_keys)) no_files demo_exportable) as (fs' & E & HI); [by split|].
  exists fs'. split; [exact E|].
  destruct (HI {| h_files := fs'; h_live := Some empty_node_db; h_backups := ∅; h_staging := ∅;
                  h_live_shared := false; h_dir_faults := []; h_writes_left := None |} empty_node_db 3 4)
    as (staged & h' & E2 & (L & _) & _ & R & _); [done|by split_and!|done|done|].
  exists staged, h'. split; [exact E2|]. split; [exact L|]. apply R.
Defined.

Lemma iterator_errors_pass_witness :
  ∃ fs', run (H1 := demo_faulty) "regtest" (Some (Ok demo_key)) 7 demo_db 1 true no_files = (Ok tt, fs')
    ∧ ∃ staged h', install "regtest" Signed (Some (Ok demo_keys)) 3 4 (artifact_data 1)
                     {| h_files := fs'; h_live := Some empty_node_db; h_backups := ∅; h_staging := ∅;
                        h_live_shared := false; h_dir_faults := []; h_writes_left := None |} = (Ok tt, h')
        ∧ h_live h' = Some staged ∧ balance_history_cf demo_db !! (demo_script, 1) = Some (50, 50)
        ∧ balance_history_cf (nd_db staged) !! (demo_script, 1) = None.
Proof.
  destruct (iterator_errors_pass (SL := demo_snapshot_laws) (ER := demo_faulty) (EL := demo_faulty_laws) "regtest" demo_db 1 true 7
    demo_commit (Some demo_key) (repeat 75 32) Signed (Some (Ok demo_keys)) 5 no_files demo_exportable) as (fs' & E & HI); [done|done|].
  exists fs'. split; [exact E|].
  destruct (HI {| h_files := fs'; h_live := Some empty_node_db; h_backups := ∅; h_staging := ∅;
                  h_live_shared := false; h_dir_faults := []; h_writes_left := None |} empty_node_db 3 4)
    as (staged & h' & E2 & (L & _) & _ & R & _); [done|by split_and!|done|done|].
  exists staged, h'. split; [exact E2|]. split; [exact L|]. split; [done|]. apply R. by vm_compute.
Defined.

(** The first block of the demo's chain is indexed, and the state restored elsewhere. *)
Definition first_store : Store := (process_blocks 1 2 2 0 demo_store).2.
Definition restored_store : Store :=
  {| disk := {| db := {| balance_history_cf := balance_history_cf (db (disk first_store));
                         utxo_cf := utxo_cf (db (disk first_store));
                         script_registry_cf := script_registry_cf (db (disk first_store));
                         block_commits_cf := block_commits_cf (db (disk first_store));
                         block_undo_meta_cf := ∅; block_undo_created_utxos_cf := ∅;
                         block_undo_spent_utxos_cf := ∅; block_undo_balance_index_cf := ∅;
                         meta_cf := {[ META_KEY_BTC_BLOCK_HEIGHT := 1 ]} |};
                writes_left := None |};
     caches := no_caches |}.
Lemma first_run : process_blocks 1 2 2 0 demo_store = (Ok tt, first_store)
  ∧ indexed demo_chain 1 (db (disk first_store)) ∧ caches_ok demo_chain 1 (caches first_store)
  ∧ writes_left (disk first_store) = None.
Proof.
  destruct (process_blocks_done (BL := demo_crate_laws) (LL := demo_lru_laws) demo_chain 1 1 2 0 demo_store) as (s' & E & I & C & W).
  - lia.
  - apply (valid_chain_le demo_chain 1 2 demo_chain_valid). lia.
  - intros k Hk. cbn. by rewrite (proj2 (Z.leb_le k 2)) by lia.
  - exact (indexed_empty demo_chain).
  - exact (no_caches_ok demo_chain 0).
  - done.
  - change (1 + 1) with 2 in E. assert (first_store = s') as -> by (unfold first_store; by rewrite E). done.
Qed.
Lemma restored_store_ok : restores (db (disk first_store)) 1 true (db (disk restored_store)).
Proof.
  destruct first_run as (_ & I & _).
  assert (balance_history_cf (db (disk first_store)) = {[ (to_usdb_script_hash [1], 1) := (50, 50) ]}) as Eb
    by (vm_compute; reflexivity).
  split; [by vm_compute|..].
  - intros a k v. unfold kept_row. cbn [restored_store disk db balance_history_cf]. rewrite Eb. split.
    + intros Hr. split; [done|]. apply lookup_singleton_Some in Hr as [[= <- <-] <-]. split; [lia|]. split; [done|].
      intros j w [[= <-] _]%lookup_singleton_Some. lia.
    + by intros [? _].
  - done.
  - intros k. cbn [restored_store disk db block_commits_cf]. rewrite (ix_commits _ _ _ I).
    destruct (decide (k <= 1)); [done|]. by rewrite decide_False by lia.
  - done.
  - done.
  - intros key Hkey. cbn [restored_store disk db meta_cf]. apply lookup_singleton_None. intros <-. revert Hkey. apply (bool_decide_unpack _). by vm_compute.
Qed.
Lemma restored_node_follows_witness :
  ∃ s1' s2', process_blocks 2 3 2 5 first_store = (Ok tt, s1') ∧ process_blocks 2 3 2 0 restored_store = (Ok tt, s2')
    ∧ utxo_cf (db (disk s1')) = utxo_cf (db (disk s2'))
    ∧ bd_balance (latest_at (to_usdb_script_hash [1]) 2 (db (disk s2'))) = 20.
Proof.
  destruct first_run as (_ & I & C & W).
  destruct (restored_node_follows (BL := demo_crate_laws) (LL := demo_lru_laws) demo_chain 1 2 demo_chain_valid ltac:(lia)
              2 5 2 0 first_store restored_store) as (s1' & s2' & E1 & E2 & Eu & _ & _ & Eb);
    [lia| |exact I|exact C|exact W|exact restored_store_ok|exact (no_caches_ok demo_chain 1)|done|].
  - intros k Hk. cbn. by rewrite (proj2 (Z.leb_le k 2)) by lia.
  - exists s1', s2'. split; [exact E1|]. split; [exact E2|]. split; [exact Eu|].
    destruct (Eb (to_usdb_script_hash [1]) 2) as [_ E3]; [exact (to_usdb_script_hash_range (Laws := demo_crate_laws) [1])|lia|].
    etrans; [exact E3|]. vm_compute. reflexivity.
Defined.
