(* ===== verification/RecordBalances.v ===== *)
(** * The balances in the energy records

    A record of an active pass holds the balance that its owner has at the height of the record.
    Every routine of the pass indexer keeps this, however it ends: the balances it writes are those
    that balance-history answers. *)

From S2P Require Import Prelude Types EnergyFormula EnergyStorage Energy PassStorage PassLedger.
From S2P Require Import PassCommit Pass Tx Transfer Content BlockEvents BalanceLoader BalanceMonitor.
From S2P Require Import InscriptionSource BlockFrame BlockSync.

(** What both clients of balance-history report: [truth o h] is the balance of the script [o] after
    block [h]. *)
Class BalanceTruth `{BalanceProvider} `{BalanceRpcLoader} := {
  truth : USDBScriptHash → u32 → u64;
  point_truth o h l : provider_balance_at_height o h = Ok l → ∃ ab, l = [ab] ∧ ab_balance ab = truth o h;
  range_truth o lo hi l : provider_balance_at_range o lo hi = Ok l →
    Forall (λ ab, ab_balance ab = truth o (ab_block_height ab)) l;
  load_truth owners h reply : load_balances owners h = Ok reply →
    Forall (λ e, ab_balance e.2 = truth e.1 h) reply
}.

Create HintDb records discriminated.

Section Records.
Context {BP : BalanceProvider} {LD : BalanceRpcLoader} {BT : BalanceTruth}.

Definition true_value (h : u32) (v : PassEnergyValue) : Prop :=
  ev_state v = Active → ev_owner_balance v = truth (ev_owner_address v) h.
Definition true_records (db : EnergyDb) : Prop :=
  ∀ k v, pass_energy_cf db !! k = Some v → true_value k.2 v.

(** ** The energy manager *)

Lemma tr_same {A} (m : M EnergyDb A) :
  (∀ db, pass_energy_cf (m db).2 = pass_energy_cf db) → preserves true_records m.
Proof. intros Hm db T k v. rewrite Hm. apply T. Qed.
Lemma tr_insert r : true_value (er_block_height r) (record_value r) →
  preserves true_records (insert_pass_energy_record r).
Proof. intros Hr db T k v. cbn. rewrite lookup_insert_Some. intros [[<- <-]|[_ Hk]]; [done|by apply T]. Qed.
Lemma tr_clear h : preserves true_records (clear_records_from_height h).
Proof. intros db T k v [Hk _]%clear_from_lookup. by apply T. Qed.
Lemma tr_clear_pending : preserves true_records clear_pending_block_height.
Proof. by apply tr_same. Qed.
Lemma tr_set_synced h : preserves true_records (set_synced_block_height h).
Proof. by apply tr_same. Qed.
Lemma tr_set_pending h : preserves true_records (set_pending_block_height h).
Proof. by apply tr_same. Qed.
Lemma tr_store_finalize h : preserves true_records (storage_finalize_block_sync h).
Proof. by apply tr_same. Qed.
Lemma tr_max : preserves true_records get_max_record_block_height.
Proof.
  apply tr_same. intros db. unfold get_max_record_block_height, bind, gets.
  destruct (meta_max_record_block_height db); [done|]. by destruct (scan_max_record_block_height db).
Qed.
#[local] Hint Resolve tr_insert tr_clear tr_clear_pending tr_set_synced tr_set_pending tr_store_finalize
  tr_max : preserves.

Ltac routine :=
  repeat first
    [ solve [eauto 4 with preserves]
    | apply preserves_bind; [|intros ?]
    | apply preserves_if | case_match ].

Lemma tr_begin h : preserves true_records (begin_block_sync h).
Proof. unfold begin_block_sync, get_pending_block_height. routine. Qed.
Lemma tr_finalize h : preserves true_records (finalize_block_sync h).
Proof. unfold finalize_block_sync, get_pending_block_height. routine. Qed.
Lemma tr_abort h : preserves true_records (abort_pending_block_sync h).
Proof. unfold abort_pending_block_sync, get_pending_block_height. routine. Qed.
Lemma tr_reconcile h : preserves true_records (reconcile_with_pass_synced_height h).
Proof.
  unfold reconcile_with_pass_synced_height, reconcile_pending, reconcile_records, reconcile_synced,
    get_pending_block_height, get_synced_block_height. routine.
Qed.

Lemma tr_fold i l : ∀ r, Forall (λ ab, ab_balance ab = truth (er_owner_address r) (ab_block_height ab)) l →
  preserves true_records (fold_m l r (update_round i)).
Proof.
  induction l as [|ab l IH]; intros r Hl; [apply preserves_ret|]. apply Forall_cons in Hl as [Hab Hl].
  cbn [fold_m]. unfold update_round at 1. intros db T. rewrite bind_assoc. erewrite !bind_run by reflexivity.
  apply IH; [exact Hl|]. refine (tr_insert _ _ db T). by intros _.
Qed.
Lemma tr_update i h : preserves true_records (update_pass_energy i h).
Proof.
  unfold update_pass_energy. apply preserves_bind; [by apply tr_same|intros o].
  apply preserves_bind; [apply preserves_lift|intros r]. apply preserves_bind; [apply preserves_assert|intros _].
  apply preserves_if; [apply preserves_ret|]. unfold get_balance_at_range. intros db T. unfold bind at 1, lift.
  destruct (provider_balance_at_range _ _ _) as [l|?|?] eqn:Ep; [|done..].
  refine (preserves_bind _ _ _ _ _ db T); [apply tr_fold; exact (range_truth _ _ _ _ Ep)|intros r']. routine.
Qed.
Lemma tr_dormant i h : preserves true_records (on_pass_dormant i h).
Proof.
  unfold on_pass_dormant. apply preserves_bind; [apply tr_update|intros e].
  apply preserves_bind; [by apply tr_same|intros o]. apply preserves_bind; [apply preserves_lift|intros r].
  apply preserves_bind; [by apply tr_insert|intros _]. apply preserves_bind; [by apply tr_same|intros v]. routine.
Qed.
Lemma tr_consumed i o h : preserves true_records (on_pass_consumed i o h).
Proof. by apply tr_insert. Qed.
Lemma tr_new_pass i o h e : preserves true_records (on_new_pass i o h e).
Proof.
  unfold on_new_pass, get_balance_at_height. intros db T. rewrite bind_assoc. unfold bind at 1, lift.
  destruct (provider_balance_at_height o h) as [l|?|?] eqn:Ep; [|done..].
  apply point_truth in Ep as (ab & -> & Eb). refine (tr_insert _ _ db T). by intros _.
Qed.
Lemma tr_apply i o h b d : b = truth o h → preserves true_records (apply_active_balance_change i o h b d).
Proof.
  intros Hb. unfold apply_active_balance_change, apply_active_balance_change_internal.
  apply preserves_if; [apply preserves_ret|]. apply preserves_bind; [by apply tr_same|intros f].
  apply preserves_bind; [apply preserves_lift|intros r].
  repeat (apply preserves_if; [routine|]). apply preserves_bind; [apply tr_insert; by intros _|intros _; apply preserves_ret].
Qed.
Lemma tr_get_energy i h : preserves true_records (get_pass_energy i h).
Proof. by apply tr_same. Qed.

(** ** The pass manager *)

Section Handlers.
Context {IT : IdText}.

Definition manager_true (m : MinerPassManager) : Prop := true_records (pm_energy m).

Lemma mt_store {A} (m : M Tables A) : preserves manager_true (store m).
Proof. by intros s T. Qed.
Lemma mt_energy {A} (m : M EnergyDb A) : preserves true_records m → preserves manager_true (on_energy m).
Proof. intros Hm s T. by apply Hm. Qed.
Lemma mt_push m : preserves manager_true (push_block_mutation m).
Proof. by intros s T. Qed.
#[local] Hint Resolve mt_store mt_push : preserves.
#[local] Hint Resolve tr_update tr_dormant tr_consumed tr_new_pass tr_get_energy : records.
#[local] Hint Extern 1 (preserves manager_true (on_energy _)) => apply mt_energy; eauto with records : preserves.

Lemma mt_dormant_last info : preserves manager_true (dormant_last_pass info).
Proof. unfold dormant_last_pass. routine. Qed.
Lemma mt_consume i h : preserves manager_true (consume_pass i h).
Proof. unfold consume_pass. routine. Qed.
Lemma mt_inherit info acc i : preserves manager_true (inherit_round info acc i).
Proof. unfold inherit_round. pose proof mt_consume. routine. Qed.
Lemma mt_mint info : preserves manager_true (on_mint_pass info).
Proof. unfold on_mint_pass. pose proof mt_dormant_last. pose proof mt_inherit. routine. Qed.
Lemma mt_invalid info : preserves manager_true (on_invalid_mint_pass info).
Proof. unfold on_invalid_mint_pass. routine. Qed.
Lemma mt_transfer i o sp h : preserves manager_true (on_pass_transfer i o sp h).
Proof. unfold on_pass_transfer. routine. Qed.
Lemma mt_burned i h : preserves manager_true (on_pass_burned i h).
Proof. unfold on_pass_burned. routine. Qed.

Context {CE : ContentEnv}.
Lemma mt_execute evs : preserves manager_true (execute evs).
Proof.
  apply preserves_fold_m. intros counts [item|item]; unfold execute_event, on_new_inscription.
  - pose proof mt_mint. routine.
  - pose proof mt_transfer. pose proof mt_burned. routine.
Qed.
Lemma mt_process_invalid items : preserves manager_true (process_invalid_mints items).
Proof. pose proof mt_invalid. apply preserves_fold_m. intros. routine. Qed.

(** *** The settlement *)

Definition true_row (row : ActivePassBalance) : Prop :=
  apb_balance row = truth (apb_owner row) (apb_block_height row).
Definition true_entries (h : u32) (m : gmap USDBScriptHash AddressBalance) : Prop :=
  ∀ o ab, m !! o = Some ab → ab_balance ab = truth o h.

Lemma insert_true msg h l : ∀ m m', insert_unique msg l m = Ok m' →
  Forall (λ e, ab_balance e.2 = truth e.1 h) l → true_entries h m → true_entries h m'.
Proof.
  induction l as [|[o ab] l IH]; intros m m' E Hl Hm; cbn in E; [by injection E as <-|].
  apply Forall_cons in Hl as [Hab Hl]. destruct (m !! o); [done|]. apply (IH _ _ E Hl).
  intros o' ab'. rewrite lookup_insert_Some. intros [[<- <-]|[_ Hm']]; [done|by apply Hm].
Qed.
Lemma settle_true h ps : ∀ m tot rows m' tot' rows',
  settle_passes h ps (m, tot, rows) = Ok (m', tot', rows') →
  true_entries h m → Forall true_row rows → Forall true_row rows'.
Proof.
  induction ps as [|p ps IH]; intros m tot rows m' tot' rows' E Hm Hr; cbn [settle_passes] in E.
  { by injection E as <- <- <-. }
  unfold settle_pass in E. destruct (m !! ap_owner p) as [ab|] eqn:Ep; [|done]. cbn in E.
  destruct (_ >? h); [done|]. cbn in E. apply (IH _ _ _ _ _ _ E).
  - intros o ab' [_ Ho]%lookup_delete_Some. by apply Hm.
  - apply Forall_app_2; [done|]. apply Forall_singleton, (Hm _ _ Ep).
Qed.
Lemma settlement_true h t st t' :
  settle_active_balance_with_details h t = (Ok st, t') → Forall true_row (active_pass_balances st).
Proof.
  unfold settle_active_balance_with_details. intros E. apply bind_Ok in E as ([] & t1 & _ & E).
  apply bind_Ok in E as (ps & t2 & _ & E). apply bind_Ok in E as (n & t3 & _ & E).
  apply bind_Ok in E as (reply & ? & [= E1 <-] & E). apply bind_Ok in E as (m & ? & [= E2 <-] & E).
  apply bind_Ok in E as ([[m' tot] rows] & ? & [= E3 <-] & E). destruct (negb _); [done|].
  apply bind_Ok in E as ([] & t4 & _ & [= <- _]). apply (settle_true _ _ _ _ _ _ _ _ E3); [|constructor].
  apply (insert_true _ _ _ _ _ E2); [by eapply load_truth|]. intros o ab. by rewrite lookup_empty.
Qed.
End Handlers.

(** ** The indexer *)

Section Indexer.
Context {IT : IdText} {CE : ContentEnv} {BN : BitcoinNode} {CH : CommitHash} {SRC : InscriptionSource}
  {SE : SyncEnv}.

Definition indexer_true (s : InscriptionIndexer) : Prop := manager_true (miner_pass_manager s).

Lemma it_manager {A} (m : M MinerPassManager A) : preserves manager_true m → preserves indexer_true (manager m).
Proof. intros Hm s T. by apply Hm. Qed.
Lemma it_energy {A} (m : M EnergyDb A) : preserves true_records m → preserves indexer_true (energy_manager m).
Proof. intros Hm. by apply it_manager, mt_energy. Qed.
Lemma it_tables {A} (m : M Tables A) : preserves indexer_true (pass_tables m).
Proof. by apply it_manager, mt_store. Qed.
Lemma it_storage {A} (m : M PassDb A) : preserves indexer_true (storage m).
Proof. by intros s T. Qed.
Lemma it_tracker {A} (m : M InscriptionTransferTracker A) : preserves indexer_true (tracker m).
Proof. by intros s T. Qed.
Lemma it_collector {A} (m : M MinerPassManager A) : (∀ s, pm_energy (m s).2 = pm_energy s) →
  preserves indexer_true (manager m).
Proof. intros Hm. apply it_manager. intros s T. unfold manager_true. by rewrite Hm. Qed.
#[local] Hint Resolve it_tables it_storage it_tracker : preserves.
#[local] Hint Resolve tr_begin tr_finalize tr_abort tr_reconcile : records.
#[local] Hint Extern 1 (preserves indexer_true (energy_manager _)) =>
  apply it_energy; eauto with records : preserves.

Lemma it_recover_energy h fin : preserves indexer_true (recover_energy h fin).
Proof. unfold recover_energy, rollback_to_pass_synced_height. destruct fin; routine. Qed.
Lemma it_or_recover {A} h fin (m : M InscriptionIndexer A) :
  preserves indexer_true m → preserves indexer_true (or_recover h fin m).
Proof.
  intros Hm s T. specialize (Hm s T). unfold or_recover. destruct (m s) as [[a|e|e] s1]; cbn in *; [done| |done].
  unfold recover_failed_block_sync. pose proof (it_recover_energy h fin s1 Hm) as T1.
  destruct (recover_energy h fin s1) as [r s2]. cbn in *.
  pose proof (it_tracker (rollback_staged_block h) s2 T1) as T2. by destruct (tracker _ s2) as [r2 s3].
Qed.
#[local] Hint Resolve it_or_recover : preserves.

Lemma it_apply_row h row : true_row row → preserves indexer_true (apply_balance_row h row).
Proof.
  intros Hr. unfold apply_balance_row. apply preserves_if; [apply preserves_ret|].
  apply preserves_bind; [|intros _; apply preserves_ret]. by apply it_or_recover, it_energy, tr_apply.
Qed.
Lemma it_apply_rows h rows : Forall true_row rows → preserves indexer_true (for_each rows (apply_balance_row h)).
Proof.
  induction 1 as [|row rows Hr _ IH]; cbn [for_each]; [apply preserves_ret|].
  apply preserves_bind; [by apply it_apply_row|intros _; exact IH].
Qed.

Lemma it_body h : preserves indexer_true (sync_block_body h).
Proof.
  unfold sync_block_body. do 6 (apply preserves_bind; [try solve [routine]|intros ?]).
  { apply it_or_recover, it_manager, mt_execute. }
  apply preserves_bind; [apply it_or_recover, it_manager, mt_process_invalid|intros ?].
  apply preserves_bind_val; [routine|intros s st s1 _ E].
  assert (∃ t t', settle_active_balance_with_details h t = (Ok st, t')) as (t & t' & Est).
  { unfold or_recover in E. destruct (pass_tables _ s) as [[?|e|?] s2] eqn:E1;
      [injection E as -> _| |done].
    - apply zoom_Ok in E1 as (m & E1 & _). apply zoom_Ok in E1 as (t & E1 & _). eauto.
    - by destruct (recover_failed_block_sync h true false e s2). }
  apply preserves_bind; [by eapply it_apply_rows, settlement_true|intros ?].
  apply preserves_bind; [routine|intros ?]. apply it_or_recover, it_collector. intros m.
  unfold take_block_mutation_collector, bind, gets, modify, lift. destruct (pm_collector m); cbn; [|done].
  by destruct (negb _).
Qed.

Lemma it_sync_block h : preserves indexer_true (sync_block h).
Proof.
  unfold sync_block. apply preserves_bind; [routine|intros _]. apply preserves_bind; [|intros _].
  { apply it_collector. intros m. unfold begin_block_mutation_collection, bind, gets. by destruct (pm_collector m). }
  apply preserves_bind; [|intros c].
  { intros s T. unfold with_collection_guard. pose proof (it_body h s T) as Tb.
    by destruct (sync_block_body h s) as [[?|?|?] s1]. }
  apply preserves_bind; [|intros _; routine]. apply it_or_recover. unfold persist_pass_block_commit. routine.
Qed.
Lemma it_closing d ctx err m : preserves indexer_true m → preserves indexer_true (closing_statement d ctx err m).
Proof.
  intros Hm s T. unfold closing_statement. destruct err as [e|]; [|by apply Hm].
  pose proof (it_energy _ (tr_reconcile d) s T) as T1. unfold rollback_to_pass_synced_height.
  by destruct (energy_manager _ s) as [r s1].
Qed.
Lemma it_sync_height h : preserves indexer_true (sync_height h).
Proof.
  unfold sync_height. apply preserves_bind; [routine|intros o]. apply preserves_bind; [routine|intros _].
  intros s T. unfold with_savepoint.
  match goal with |- context [match ?m s with _ => _ end] => assert (preserves indexer_true m) as Hm end.
  { apply preserves_bind; [apply it_sync_block|intros _].
    apply preserves_bind; [apply it_closing; routine|intros _]. apply it_closing. routine. }
  specialize (Hm s T). match goal with |- context [match ?m s with _ => _ end] => by destruct (m s) as [[?|?|?] s1] end.
Qed.

Lemma it_sync_blocks lo hi : preserves indexer_true (sync_blocks lo hi).
Proof.
  unfold sync_blocks. apply preserves_bind; [apply preserves_assert|intros _]. apply preserves_fold_m.
  intros _ h. apply preserves_bind; [apply it_sync_height|intros _; apply preserves_ret].
Qed.
End Indexer.
End Records.
