(* ===== verification/ServiceClient.v ===== *)
(** * The client of the query service

    [balance-history/src/service/client.rs], [RpcClient]: what the pass indexer receives.  A reply
    travels as a JSON-RPC envelope whose [result] field is optional; a result that is serialised as
    [null] is read back as an absent field. *)

From S2P Require Import Prelude Encoding Types Tx BalanceCodec BalanceDb BalanceBlock BalanceIndexer.
From S2P Require Import StateIds BalanceService BalanceServer.

(** ** Envelopes *)

Record RpcErrorPayload := { pe_code : i64; pe_message : string; pe_data : option ConsensusRpcErrorData }.
Record RpcEnvelope (A : Type) := { env_result : option A; env_error : option RpcErrorPayload }.
Arguments env_result {A} _.
Arguments env_error {A} _.

Definition error_payload (e : JsonError) : RpcErrorPayload :=
  match e with
  | InternalError message => {| pe_code := -32603; pe_message := message; pe_data := None |}
  | InvalidParams message => {| pe_code := -32602; pe_message := message; pe_data := None |}
  | ServerError code data =>
      {| pe_code := error_code code; pe_message := error_name code; pe_data := Some data |}
  end.

(** How serde writes a value of a result type: as [null] or not. *)
Class JsonValue (A : Type) := is_null : A → bool.
#[export] Instance json_unit : JsonValue () := λ _, true.
#[export] Instance json_option {A} : JsonValue (option A) := is_none.
#[export] Instance json_other {A} : JsonValue A | 100 := λ _, false.

(** What arrives: [Option<T>] reads [null] as [None]. *)
Definition envelope {A} `{JsonValue A} (r : JsonError + A) : RpcEnvelope A :=
  match r with
  | inl e => {| env_result := None; env_error := Some (error_payload e) |}
  | inr a => {| env_result := if is_null a then None else Some a; env_error := None |}
  end.

Definition format_rpc_error (method : string) (err : RpcErrorPayload) : string :=
  ("RPC Error: method=" ++ method ++ ", message=" ++ pe_message err
   ++ match pe_data err with Some data => ", service=" ++ er_service data | None => "" end)%string.

(** [rpc_call]: [sent] tells whether the transport delivers the request and its reply. *)
Definition rpc_call {A} `{JsonValue A} (method : string) (sent : bool) (handler : Json A) (v : View) : result A :=
  if negb sent then Err "Failed to send RPC request"
  else match (handler v).1 with
       | Ok r =>
           let resp := envelope r in
           match env_error resp with
           | Some err => Err (format_rpc_error method err)
           | None => ok_or "RPC response missing both result and error" (env_result resp)
           end
       | Err _ | Panic _ => Err "Failed to parse RPC response"
       end.

(** ** Calls *)

(** The calls that the pass indexer makes, and those of the command line and the control plane
    ([ReadRequest], numbered). *)
Inductive Request :=
  | AddressBalanceRequest (params : GetBalanceParams)
  | AddressesBalancesRequest (params : GetBalancesParams) (attempt : Z)
  | BlockCommitRequest (block_height : u32)
  | StateRefRequest (params : GetStateRefAtHeightParams)
  | ReadRequest (method : string) (poll : Z)
  | StopRequest.

(** Each call is answered at a time of its own, or lost. *)
Class Upstream := { up_view : Request → View; up_sent : Request → bool }.

Section Client.
Context `{BitcoinCrate} `{ScriptCrate} (network : string) `{Upstream}.

Definition call {A} `{JsonValue A} (method : string) (q : Request) (handler : Json A) : result A :=
  rpc_call method (up_sent q) handler (up_view q).

Definition read {A} `{JsonValue A} (method : string) (poll : Z) (handler : Json A) : result A :=
  call method (ReadRequest method poll) handler.

Definition client_get_address_balance (script_hash : USDBScriptHash) (block_height : option u32)
    (block_range : option BlockRange) : result (list AddressBalance) :=
  let params := {| gb_script_hash := script_hash; gb_block_height := block_height;
                   gb_block_range := block_range |} in
  call "get_address_balance" (AddressBalanceRequest params) (get_address_balance network params).
Definition client_get_addresses_balances (script_hashes : list USDBScriptHash) (block_height : option u32)
    (block_range : option BlockRange) (attempt : Z) : result (list (list AddressBalance)) :=
  let params := {| gs_script_hashes := script_hashes; gs_block_height := block_height;
                   gs_block_range := block_range |} in
  call "get_addresses_balances" (AddressesBalancesRequest params attempt)
    (get_addresses_balances network params).
Definition client_get_snapshot_info (poll : Z) : result SnapshotInfo :=
  read "get_snapshot_info" poll (get_snapshot_info network).
Definition client_get_block_commit (block_height : u32) : result (option BlockCommitInfo) :=
  call "get_block_commit" (BlockCommitRequest block_height) (get_block_commit_info block_height).
Definition get_state_ref_at_height_with_context (block_height : u32)
    (context : option ConsensusQueryContext) : result HistoricalSnapshotStateRef :=
  let params := {| gr_block_height := block_height; gr_context := context |} in
  call "get_state_ref_at_height" (StateRefRequest params) (get_state_ref_at_height network params).
Definition client_get_state_ref_at_height (block_height : u32) : result HistoricalSnapshotStateRef :=
  get_state_ref_at_height_with_context block_height None.

Section Reads.
Context (poll : Z).
Definition client_get_network_type : result string := read "get_network_type" poll (get_network_type network).
Definition client_get_block_height : result u64 := read "get_block_height" poll get_block_height.
Definition client_get_sync_status : result SyncStatus := read "get_sync_status" poll get_sync_status.
Definition client_get_readiness : result ReadinessInfo := read "get_readiness" poll get_readiness.
Definition client_get_snapshot_provenance : result (option SnapshotInstallProvenance) :=
  read "get_snapshot_provenance" poll get_snapshot_provenance.
Definition client_get_live_utxo (o : OutPoint) : result (option UtxoInfo) :=
  read "get_live_utxo" poll (get_live_utxo o).
Definition client_get_address_balance_delta (script_hash : USDBScriptHash) (block_height : option u32)
    (block_range : option BlockRange) : result (list (option AddressBalance)) :=
  read "get_address_balance_delta" poll
    (get_address_balance_delta {| gb_script_hash := script_hash; gb_block_height := block_height;
                                  gb_block_range := block_range |}).
Definition client_get_addresses_balances_delta (script_hashes : list USDBScriptHash)
    (block_height : option u32) (block_range : option BlockRange) :
    result (list (list (option AddressBalance))) :=
  read "get_addresses_balances_delta" poll
    (get_addresses_balances_delta {| gs_script_hashes := script_hashes; gs_block_height := block_height;
                                     gs_block_range := block_range |}).
Definition client_get_address_balance_summary (script_hash : USDBScriptHash) (block_range : BlockRange) :
    result AddressBalanceSummary :=
  read "get_address_balance_summary" poll
    (get_address_balance_summary network {| gm_script_hash := script_hash; gm_block_range := block_range |}).
Definition client_get_address_balance_timeseries (script_hash : USDBScriptHash) (block_range : BlockRange)
    (bucket_size : u32) : result (list AddressBalanceTimeseriesPoint) :=
  read "get_address_balance_timeseries" poll
    (get_address_balance_timeseries network
       {| bk_script_hash := script_hash; bk_block_range := block_range; bk_bucket_size := bucket_size |}).
Definition client_get_address_flow_buckets (script_hash : USDBScriptHash) (block_range : BlockRange)
    (bucket_size : u32) : result (list AddressFlowBucket) :=
  read "get_address_flow_buckets" poll
    (get_address_flow_buckets network
       {| bk_script_hash := script_hash; bk_block_range := block_range; bk_bucket_size := bucket_size |}).
Definition client_resolve_script_hashes (script_hashes : list USDBScriptHash) (include_script_pubkey : bool) :
    result ScriptHashResolutionResponse :=
  read "resolve_script_hashes" poll
    (resolve_script_hashes network
       {| rs_script_hashes := script_hashes; rs_include_script_pubkey := Some include_script_pubkey |}).
End Reads.

(** The reply of the handler of [stop]; [signal_sent] is the outcome of sending the shutdown signal.
    The flag it raises in the status and the closing of the listener do not reach the caller. *)
Definition stop (signal_sent : bool) : Json () :=
  if signal_sent then jret tt else jerr (InternalError "Failed to send shutdown signal").
Definition client_stop (signal_sent : bool) : result () := call "stop" StopRequest (stop signal_sent).
End Client.
