(* ===== verification/ServiceContract.v ===== *)
(** * The contract between the two services

    The pass indexer is proved against interfaces: the provider of the energy manager, the loader of
    the balance monitor, the balances they agree on, the history of the reorganisation search.  Here
    the client of the balance-history service implements them, while balance-history indexes a chain
    and every call is answered at a time of its own. *)

From S2P Require Import Prelude Encoding Types Tx BalanceCodec BalanceDb BalanceDbFacts BalanceBlock.
From S2P Require Import BalanceChain BalanceIndexer StateIds BalanceService BalanceServer ServedRows.
From S2P Require Import BalanceQueries ServiceClient EnergyStorage Energy PassStorage PassCommit Pass.
From S2P Require Import BalanceLoader BalanceMonitor BlockEvents InscriptionSource BlockSync.
From S2P Require Import SyncInvariant RecordBalances Reorg.

Section Contract.
Context `{BitcoinCrate} {Laws : BitcoinCrateLaws} (network : string) (chain : u32 → BtcBlock) `{Upstream}.

(** ** The instances *)

(** The values that the types of the parameters hold. *)
Definition typed_hash (a : USDBScriptHash) : bool := (0 <=? a) && (a <? 256 ^ 32).
Definition typed_height (h : u32) : bool := (0 <=? h) && (h <=? U32_MAX).
Definition typed {A} (b : bool) (r : result A) : result A :=
  if b then r else Err "not a value of the type of the parameter".

(** [RpcBalanceProvider] *)
#[local] Instance service_provider : BalanceProvider := {|
  provider_balance_at_height a h :=
    typed (typed_hash a && typed_height h) (client_get_address_balance network a (Some h) None);
  provider_balance_at_range a lo hi :=
    typed (typed_hash a && typed_height lo && typed_height hi)
      (client_get_address_balance network a None (Some {| range_first := lo; range_last := hi |}))
|}.
(** [BalanceHistoryBackend] *)
#[local] Instance service_backend (expires : list USDBScriptHash → u32 → Z → bool) : BalanceRpcBackend := {|
  BalanceLoader.get_addresses_balances owners h attempt :=
    typed (forallb typed_hash owners && typed_height h)
      (client_get_addresses_balances network owners (Some h) None attempt);
  times_out := expires
|}.

(** A loader over the backend, serial or concurrent with any schedule of its tasks. *)
Record loader := {
  ld_batch_size : nat;
  ld_concurrency : nat;
  ld_max_retries : u32;
  ld_expires : list USDBScriptHash → u32 → Z → bool;
  ld_load : list USDBScriptHash → u32 → result (list (USDBScriptHash * AddressBalance));
  ld_page_size : Z;
  ld_runs owners h :
    ld_load owners h = @serial_load_balances (service_backend ld_expires) ld_batch_size h owners
    ∨ @concurrent_load_balances (service_backend ld_expires) ld_batch_size h ld_concurrency ld_max_retries
        owners (ld_load owners h)
}.
#[local] Instance service_loader (L : loader) : BalanceRpcLoader :=
  {| load_balances := ld_load L; active_address_page_size := ld_page_size L |}.

(** ** What a call receives *)

(** Balance-history has indexed the chain up to [ns q t] at access [t] of call [q], and nowhere more
    than up to [top]. *)
Record upstream_follows (ns : Request → nat → u32) (top : u32) : Prop := {
  uf_valid : valid_chain chain top;
  uf_serving q : serving chain (ns q) (moments (up_view q));
  uf_top q t : ns q t <= top
}.
Context (ns : Request → nat → u32) (top : u32) (U : upstream_follows ns top).

Lemma typed_Ok {A} b (r : result A) a : typed b r = Ok a → b = true ∧ r = Ok a.
Proof. by destruct b. Qed.
Lemma typed_hash_spec a : typed_hash a = true → u256 a.
Proof. unfold typed_hash, u256. intros. b2p. lia. Qed.
Lemma typed_height_spec h : typed_height h = true → 0 <= h <= U32_MAX.
Proof. unfold typed_height. intros. b2p. lia. Qed.
Lemma call_Ok {A} `{JsonValue A} method q (handler : Json A) a :
  call method q handler = Ok a → answer_of (handler (up_view q)).1 = Some (Reply a).
Proof.
  unfold call, rpc_call. destruct (up_sent q); [|done]. cbn [negb].
  destruct (handler (up_view q)).1 as [[e|b]|?|?]; [by destruct e| |done..]. cbn.
  destruct (is_null b); [done|]. by intros [= ->].
Qed.
Lemma needs_Reply {A} h n (a b : A) : needs h n a = Reply b → b = a ∧ n ≠ 0 ∧ h <= n.
Proof. unfold needs. destruct (n =? 0) eqn:E; [done|]. destruct (h >? n) eqn:E1; [done|]. intros [= <-]. b2p. split_and!; [done|lia|lia]. Qed.

Lemma point_reply a h l : provider_balance_at_height a h = Ok l →
  u256 a ∧ 0 <= h <= top ∧ l = [address_balance (chain_latest chain a h)].
Proof.
  intros [Ht E]%typed_Ok. apply andb_true_iff in Ht as [Ha%typed_hash_spec Hh%typed_height_spec].
  apply call_Ok in E. rewrite (get_address_balance_run network chain (ns _) _ _ (uf_serving _ _ U _)) in E.
  - injection E as E. apply needs_Reply in E as (-> & _ & Hle). split_and!; [done|lia|by etrans; [|apply (uf_top _ _ U)]|done].
  - split; cbn; [done|by intros ? [= <-]|done].
Qed.
Lemma range_reply a lo hi l : provider_balance_at_range a lo hi = Ok l →
  u256 a ∧ 0 <= lo ∧ (hi <= lo ∨ hi <= top + 1) ∧ l = address_balance <$> chain_rows chain a lo hi.
Proof.
  intros [Ht E]%typed_Ok. rewrite !andb_true_iff in Ht.
  destruct Ht as [[Ha%typed_hash_spec Hlo%typed_height_spec] Hhi%typed_height_spec].
  apply call_Ok in E. rewrite (get_address_balance_run network chain (ns _) _ _ (uf_serving _ _ U _)) in E.
  - injection E as E. unfold balance_service in E. cbn in E. unfold range_is_empty in E. cbn in E.
    destruct (hi <=? lo) eqn:Ee; b2p.
    + injection E as <-. split_and!; [done|lia|by left|].
      unfold chain_rows, movements. by rewrite heights_nil by lia.
    + apply needs_Reply in E as (-> & _ & Hle). split_and!; [done|lia|right|done].
      assert (hi - 1 <= top) by (etrans; [exact Hle|apply (uf_top _ _ U)]). lia.
  - split; cbn; [done|done|]. intros ? [= <-]. by split.
Qed.
Lemma batch_reply expires owners h k l :
  @BalanceLoader.get_addresses_balances (service_backend expires) owners h k = Ok l →
  l = (λ a, [address_balance (chain_latest chain a h)]) <$> owners
  ∧ (owners ≠ [] → Forall u256 owners ∧ 0 <= h <= top).
Proof.
  intros [Ht E]%typed_Ok. apply andb_true_iff in Ht as [Ha Hh%typed_height_spec].
  assert (Forall u256 owners) as Hu.
  { apply Forall_forall. intros a Hin. apply typed_hash_spec. rewrite forallb_forall in Ha.
    by apply Ha, list_elem_of_In. }
  apply call_Ok in E. rewrite (get_addresses_balances_run network chain (ns _) _ _ _ _ (uf_serving _ _ U _)) in E by done.
  injection E as E. destruct (decide (owners = [])) as [->|Hne]; [by injection E as <-|].
  apply needs_Reply in E as (-> & _ & Hle). split; [done|]. intros _. split_and!; [done|lia|].
  etrans; [exact Hle|apply (uf_top _ _ U)].
Qed.

(** *** Loads *)

Lemma entries_of expires owners h k l es :
  @BalanceLoader.get_addresses_balances (service_backend expires) owners h k = Ok l →
  collect_batch_balances owners l = Ok es →
  Forall (λ e, u256 e.1 ∧ 0 <= h <= top ∧ e.2 = address_balance (chain_latest chain e.1 h)) es.
Proof.
  intros [-> Hok]%batch_reply E. unfold collect_batch_balances in E. destruct (negb _); [done|].
  apply collect_Ok in E. assert (owners ≠ [] → Forall u256 owners ∧ 0 <= h <= top) as Hk by done. clear Hok.
  revert es E. induction owners as [|a owners IH]; intros es E; cbn in E; inversion E as [|? e ? es' Eh Et]; [constructor|].
  subst. destruct (Hk ltac:(done)) as [[Ha Ho]%Forall_cons Hh]. constructor.
  - cbn in Eh. by injection Eh as <-.
  - apply IH; [|done]. done.
Qed.
Definition true_entry (h : u32) (e : USDBScriptHash * AddressBalance) : Prop :=
  u256 e.1 ∧ 0 <= h <= top ∧ e.2 = address_balance (chain_latest chain e.1 h).

Lemma parts_of (f : list USDBScriptHash → result (list (USDBScriptHash * AddressBalance))) h batches parts :
  (∀ b es, f b = Ok es → Forall (true_entry h) es) → collect f batches = Ok parts →
  Forall (true_entry h) (mjoin parts).
Proof.
  intros Hf E%collect_Ok. induction E as [|b es batches parts E _ IH]; [constructor|].
  cbn. apply Forall_app_2; [by eapply Hf|exact IH].
Qed.
Lemma retry_entries expires h retries n owners l : ∀ k,
  @retry_loop (service_backend expires) h retries n k owners = Ok l →
  ∃ k', @BalanceLoader.get_addresses_balances (service_backend expires) owners h k' = Ok l.
Proof.
  induction n as [|n IH]; intros k E; [done|]. cbn [retry_loop] in E.
  destruct (times_out owners h k); [destruct (_ >=? _); [done|by eapply IH]|].
  destruct (BalanceLoader.get_addresses_balances owners h k) eqn:Eb; [|by destruct (_ >=? _); [|eapply IH]|done].
  injection E as ->. by exists k.
Qed.
Lemma load_entries L owners h reply : ld_load L owners h = Ok reply → Forall (true_entry h) reply.
Proof.
  intros E. destruct (ld_runs L owners h) as [Er|Er]; rewrite E in Er.
  - symmetry in Er. unfold serial_load_balances in Er.
    destruct (collect _ _) as [parts|?|?] eqn:Ec; [|done..]. injection Er as <-. eapply parts_of; [|exact Ec].
    intros b es Eb. unfold serial_batch in Eb. apply result_bind_Ok in Eb as (l & El & Eb). by eapply entries_of.
  - apply loader_run_outcome in Er as (parts & Ec & ->); [|apply busy_start]. cbn [all_entries start app].
    eapply parts_of; [|exact Ec]. intros b es Eb. unfold task_result in Eb.
    apply result_bind_Ok in Eb as (l & El & Eb). apply retry_entries in El as [k El]. by eapply entries_of.
Qed.

(** ** The promises *)

Lemma row_wf a k : 1 <= k <= top → wf_balance (address_balance (row_at chain a k)).
Proof.
  intros Hk. pose proof (vc_height _ _ (uf_valid _ _ U)) as Hn.
  pose proof (balance_range chain top (uf_valid _ _ U) a k ltac:(lia)).
  pose proof (balance_range chain top (uf_valid _ _ U) a (k - 1) ltac:(lia)).
  unfold wf_balance. cbn. unfold I64_MAX, I64_MIN, U64_MAX in *. lia.
Qed.
Lemma latest_wf a h : 0 <= h <= top →
  wf_balance (address_balance (chain_latest chain a h))
  ∧ ab_block_height (address_balance (chain_latest chain a h)) <= h.
Proof.
  intros Hh. destruct (chain_latest_cases chain top a h Hh) as [(k & (Hk & _)%elem_of_movements & -> & _)|[_ ->]].
  - split; [apply row_wf; lia|cbn; lia].
  - split; [|cbn; lia]. unfold wf_balance. cbn. unfold I64_MAX, I64_MIN, U64_MAX, U32_MAX. lia.
Qed.

Lemma chain_latest_touched a h : 1 <= h <= top → a ∈ touched chain h → chain_latest chain a h = row_at chain a h.
Proof.
  intros Hh Ht. destruct (chain_latest_cases chain top a h ltac:(lia)) as [(k & (Hk & _)%elem_of_movements & -> & Hno)|[Hno _]].
  - destruct (decide (k = h)) as [->|Hne]; [done|]. by destruct (Hno h ltac:(lia)).
  - by destruct (Hno h ltac:(lia)).
Qed.

#[local] Instance service_provider_laws : BalanceProviderLaws.
Proof.
  split.
  - intros a h l (_ & Hh & ->)%point_reply. split; [done|]. apply Forall_singleton, latest_wf, Hh.
  - intros a lo hi l (_ & Hlo & Hhi & ->)%range_reply. split.
    + apply Forall_forall. intros x (y & -> & Hy)%list_elem_of_fmap.
      apply list_elem_of_fmap in Hy as (k & -> & (Hk & _)%elem_of_movements). split; [apply row_wf; lia|cbn; lia].
    + pose proof (chain_rows_sorted chain a lo hi) as Hsort. induction Hsort as [|y l _ IH Hy]; [constructor|].
      cbn. constructor; [exact IH|]. by apply Forall_fmap.
Qed.

#[local] Instance service_truth L : @BalanceTruth service_provider (service_loader L).
Proof.
  refine {| truth := balance_at chain |}.
  - intros a h l (_ & Hh & ->)%point_reply. eexists. split; [done|]. cbn.
    by apply (chain_latest_balance chain top (uf_valid _ _ U)).
  - intros a lo hi l (_ & _ & _ & ->)%range_reply. apply Forall_forall.
    intros x (y & -> & (k & -> & _)%list_elem_of_fmap)%list_elem_of_fmap. done.
  - intros owners h reply E%load_entries. eapply Forall_impl; [exact E|].
    intros e (_ & Hh & ->). by apply (chain_latest_balance chain top (uf_valid _ _ U)).
Defined.

#[local] Instance service_rows L : @BalanceRows service_provider (service_loader L).
Proof.
  refine {| balance_rows := λ o, address_balance <$> chain_rows chain o 0 (top + 1) |}.
  - intros o lo hi l x (_ & Hlo & Hhi & ->)%range_reply. rewrite !list_elem_of_fmap. split.
    + intros (y & -> & (k & -> & (Hk & Ht)%elem_of_movements)%list_elem_of_fmap). split; [|cbn; lia].
      eexists. split; [done|]. apply list_elem_of_fmap. exists k. split; [done|]. apply elem_of_movements. split; [lia|done].
    + intros ((y & -> & (k & -> & (Hk & Ht)%elem_of_movements)%list_elem_of_fmap) & Hx). cbn in Hx.
      eexists. split; [done|]. apply list_elem_of_fmap. exists k. split; [done|]. apply elem_of_movements.
      split; [lia|done].
  - intros owners h reply o ab x E%load_entries Hin Hx Hh. rewrite Forall_forall in E.
    destruct (E _ Hin) as (_ & Htop' & Eab). cbn in Eab. subst ab.
    apply list_elem_of_fmap in Hx as (y & -> & (k & -> & (Hk & Ht)%elem_of_movements)%list_elem_of_fmap).
    cbn in Hh. subst k. f_equal. apply chain_latest_touched; [lia|done].
Defined.
End Contract.
