(* ===== verification/EndToEnd.v ===== *)
(** * From the chain to the energy records

    The pass indexer running against the client of the balance-history service: the energy record of
    an active pass holds the balance that the unspent outputs of the chain give to its owner; and what
    the client makes of a reply without a value. *)

From S2P Require Import Prelude Encoding Types EnergyFormula EnergyStorage Energy PassStorage PassLedger.
From S2P Require Import PassCommit Pass Tx Transfer Content BlockEvents BalanceLoader BalanceMonitor.
From S2P Require Import InscriptionSource BlockFrame BlockSync BlockAtomicity StoreAgreement.
From S2P Require Import SyncInvariant RecordBalances Reorg BalanceCodec BalanceDb BalanceDbFacts.
From S2P Require Import BalanceBlock BalanceChain BalanceDemo BalanceIndexer StateIds BalanceService.
From S2P Require Import BalanceServer ServedRows BalanceQueries ServiceClient ServiceContract.

Section Composition.
Context `{BitcoinCrate} {Laws : BitcoinCrateLaws} (network : string) (chain : u32 → BtcBlock) `{Upstream}.
Context {IT : IdText} {CE : ContentEnv} {BN : BitcoinNode} {CH : CommitHash} {SRC : InscriptionSource}
  {SL : InscriptionSourceLaws} (L : loader network).

(** The environment of a sync: the blocks of the node and the outcomes of SQLite are parameters, the
    commits come from the service. *)
Record surroundings := {
  su_block : u32 → result (option Block);
  su_synced_error : u32 → option string;
  su_savepoint_error : u32 → option string
}.
Definition commit_of (c : BlockCommitInfo) : BalanceHistoryBlockCommitInfo :=
  {| bc_block_height := ci_block_height c; bc_block_commit := ci_block_commit c;
     bc_commit_protocol_version := ci_commit_protocol_version c;
     bc_commit_hash_algo := ci_commit_hash_algo c |}.
Definition service_env (env : surroundings) : SyncEnv :=
  {| load_block_hint := su_block env;
     BlockSync.get_block_commit h := result_map (fmap commit_of) (client_get_block_commit h);
     synced_height_error := su_synced_error env; savepoint_commit_error := su_savepoint_error env |}.
(** The historical state references come from the service too. *)
Definition state_ref (r : BalanceService.HistoricalSnapshotStateRef) : Reorg.HistoricalSnapshotStateRef :=
  {| sr_block_height := hs_block_height r; sr_stable_block_hash := hs_stable_block_hash r;
     sr_latest_block_commit := hs_latest_block_commit r;
     sr_stable_lag := cs_stable_lag (hs_consensus_identity r);
     sr_commit_protocol_version := hs_commit_protocol_version r;
     sr_commit_hash_algo := hs_commit_hash_algo r |}.
Definition service_history : HistoryEnv :=
  {| Reorg.get_state_ref_at_height h := result_map state_ref (client_get_state_ref_at_height network h) |}.

Context (ns : Request → nat → u32) (top : u32) (U : upstream_follows chain ns top).
Context (env : surroundings).

#[local] Instance provider : BalanceProvider := service_provider network.
#[local] Instance provider_laws : BalanceProviderLaws := service_provider_laws network chain ns top U.
#[local] Instance monitor_loader : BalanceRpcLoader := service_loader network L.
#[local] Instance sync_env : SyncEnv := service_env env.
#[local] Instance history : HistoryEnv := service_history.
#[local] Instance rows : BalanceRows := service_rows network chain ns top U L.
#[local] Instance balances : BalanceTruth := service_truth network chain ns top U L.

(** The latest energy record of an active pass is its owner's, with the owner's balance on the chain. *)
Definition energy_follows_chain (n : u32) (s : InscriptionIndexer) : Prop :=
  ∀ i p, t_passes (pm_tables (miner_pass_manager s)) !! i = Some p → state p = Active →
    ∃ r, is_latest i n (pm_energy (miner_pass_manager s)) r ∧ er_state r = Active
      ∧ er_owner_address r = owner p ∧ er_owner_balance r = balance_at chain (owner p) n.

Lemma synced_follows n s : synced n s → indexer_true s → n <= top → energy_follows_chain n s.
Proof.
  intros [R A Hrows] T Hn i p Hp Ha. destruct (ag_active _ _ _ _ A i p ltac:(done) Hp Ha) as (r & Hl & Es & Eo).
  exists r. split_and!; [done..|]. pose proof Hl as (Ei & Hle & Hv & _).
  pose proof (T _ _ Hv Es) as Eb. cbn in Eb. rewrite Eb, Eo.
  pose proof (wf_key_height _ (proj1 (rd_energy _ _ R) _ _ Hv)) as Hr. cbn in Hr.
  symmetry. apply (balance_constant chain top (uf_valid _ _ _ U)); [lia|lia|]. intros k Hk Ht.
  assert (n < k); [|lia].
  refine (Hrows i p r (address_balance (ServedRows.row_at chain (owner p) k)) Hp Ha Hl _ _); [|cbn; lia].
  apply list_elem_of_fmap. eexists. split; [done|]. apply list_elem_of_fmap. exists k. split; [done|].
  apply elem_of_movements. split; [lia|done].
Qed.

(** C1. The pass indexer runs against balance-history while that indexes a chain, each call being answered
    at a time of its own or lost, and SQLite refuses what it likes.  The condition of [range_env] on the
    range is that the event log fits the paged queries and that no block skips a zero-delta row: a
    block that touches the script of an active pass's owner and leaves its balance as it was also
    writes a record of the pass (it mints or moves the pass).  If the stores are at the height before
    the range, then after the range the energy record of every active pass holds the balance that the
    unspent outputs of the chain give to its owner at the last height; and when the range stops after a
    block [n], with an error or a panic, the same holds at [n] once the next start has reconciled the
    energy store. *)
Theorem indexer_follows_chain first last s r s' :
  last <= top → synced (first - 1) s → indexer_true s → range_env first last s →
  sync_blocks first last s = (r, s') →
  match r with
  | Ok n => n = last ∧ synced last s' ∧ energy_follows_chain last s'
  | Err _ | Panic _ => last < first ∧ s' = s ∨ ∃ n db, first - 1 <= n < last
      ∧ reconcile_with_pass_synced_height n (pm_energy (miner_pass_manager s')) = (Ok tt, db)
      ∧ energy_follows_chain n (set_manager (set_pm_energy db (miner_pass_manager s')) s')
  end.
Proof.
  intros Hl Y T En E. pose proof (preserves_run _ _ _ _ _ (it_sync_blocks first last) T E) as T'.
  unfold sync_blocks, assert in E.
  destruct (first <=? last) eqn:Hle; b2p; [|injection E as <- <-; left; by split; [lia|]].
  apply sync_loop_run in E; [|done|done|lia]. destruct r as [n|e|e].
  - destruct E as (Y' & _ & Hn). split_and!; [by apply Hn|done|by apply synced_follows].
  - right. destruct E as (n & Hn & db & Er & Y'). exists n, db. split_and!; [lia|lia|done|].
    apply synced_follows; [done| |lia]. exact (preserves_run _ _ _ _ _ (tr_reconcile n) T' Er).
  - right. destruct E as (n & Hn & db & Er & Y'). exists n, db. split_and!; [lia|lia|exact Er|].
    apply (synced_follows n _ Y'); [|lia]. exact (preserves_run _ _ _ _ _ (tr_reconcile n) T' Er).
Qed.

(** ** Replies without a value *)

(** The handler of [get_block_commit] for a height that is not indexed answers with no commit. *)
Lemma commit_unindexed h v n : serving chain n (moments v) → n (now v) < h →
  get_block_commit_info h v = (Ok (inr None), later v).
Proof.
  intros Sv Hh. unfold get_block_commit_info, BalanceDb.get_block_commit.
  erewrite jbind_run by apply internal_run, reads_run. unfold moment.
  by rewrite (ix_commits _ _ _ (sv_indexed _ _ _ Sv _)), decide_False by lia.
Qed.
Lemma absent_is_error {A} method q (handler : Json (option A)) v :
  handler (up_view q) = (Ok (inr None), v) → ∃ e, call method q handler = Err e.
Proof. unfold call, rpc_call. intros ->. destruct (up_sent q); by eexists. Qed.

(** The height regressed upstream: a commit that was recorded locally is above the stable height. *)
Definition regressed (current latest g : u32) (t : Tables) : Prop :=
  latest < current ∧ g <= current ∧ is_Some (t_commits t !! current)
  ∧ ns (BlockCommitRequest current) (now (up_view (BlockCommitRequest current))) < current.

(** C35. A result that serde writes as [null] reaches the caller of the client as an error, although the
    handler answered: [stop] fails whenever it succeeds, an absent block commit is never reported as
    absent; and so, while the stable height of balance-history is below the local height, the search
    for a reorganisation of the pass indexer fails, instead of reporting the regressed height. *)
Theorem null_replies_are_errors :
  (∀ signal_sent, ∃ e, client_stop signal_sent = Err e)
  ∧ (∀ h, client_get_block_commit h ≠ Ok None)
  ∧ ∀ current latest snapshot g t, regressed current latest g t →
      ∃ e, detect_upstream_reorg_target current latest snapshot g t = (Err e, t).
Proof.
  split_and!.
  - intros b. unfold client_stop, call, rpc_call. destruct (up_sent _), b; by eexists.
  - intros h E. unfold client_get_block_commit, call, rpc_call in E. destruct (up_sent _); [|done].
    cbn [negb] in E. destruct (get_block_commit_info h _).1 as [[e|o]|e|e]; [by destruct e|by destruct o|done..].
  - intros current latest snapshot g t (Hl & Hg & [c Hc] & Hn).
    pose proof (commit_unindexed current _ _ (uf_serving _ _ _ U (BlockCommitRequest current)) Hn) as E.
    apply (absent_is_error "get_block_commit") in E as [e E]. exists e. unfold detect_upstream_reorg_target.
    assert (anchor_drift current latest snapshot t = (Ok [], t)) as Ea.
    { unfold anchor_drift. by rewrite (proj2 (Z.eqb_neq current latest)) by lia. }
    rewrite (bind_run _ _ _ _ _ Ea). apply bind_run_Err. unfold commit_drift.
    rewrite Z.geb_leb, (proj2 (Z.leb_le g current)) by lia. unfold get_pass_block_commit.
    erewrite bind_run by reflexivity. rewrite Hc. unfold bind, lift. cbn [BlockSync.get_block_commit sync_env service_env].
    unfold client_get_block_commit. by rewrite E.
Qed.
End Composition.

(** ** Witnesses

    The demonstration node at height 2; block 2 reveals a mint in its last transaction. *)

Definition check_moving `{BitcoinCrate} (chain : u32 → BtcBlock) (top : u32) : bool :=
  forallb (λ k, forallb (λ a, negb (balance_at chain a k =? balance_at chain a (k - 1)))
                  (elements (touched chain k))) (heights 1 top).
Lemma check_moving_sound `{BitcoinCrate} chain top : check_moving chain top = true →
  ∀ a k, 1 <= k <= top → a ∈ touched chain k → balance_at chain a k ≠ balance_at chain a (k - 1).
Proof.
  intros E a k Hk Ha. assert (k ∈ heights 1 top) as Hin by by apply elem_of_heights.
  apply (forallb_elem _ _ _ E) in Hin. apply elem_of_elements in Ha. apply (forallb_elem _ _ _ Hin) in Ha.
  b2p. done.
Qed.

Section Witness.
#[local] Existing Instances demo_crate demo_crate_laws demo_text sync_content sync_hash.
#[local] Instance demo_upstream_service : Upstream :=
  {| up_view _ := {| now := 2; moments := demo_moment |}; up_sent _ := true |}.
Lemma demo_upstream_follows : upstream_follows demo_chain (λ _, demo_height) 2.
Proof. split; [exact demo_chain_valid|intros; apply demo_serving|intros _ t; apply demo_height_range]. Qed.
Definition demo_loader : loader "regtest".
Proof.
  by refine {| ld_batch_size := 2; ld_concurrency := 1; ld_max_retries := 0; ld_expires := λ _ _ _, false;
            ld_load owners h := _; ld_page_size := 16; ld_runs := λ owners h, or_introl eq_refl |}.
Defined.
(** Every block of the demonstration chain changes the balances that it touches. *)
Lemma demo_moving : ∀ a k, 1 <= k <= 2 → a ∈ touched demo_chain k →
  balance_at demo_chain a k ≠ balance_at demo_chain a (k - 1).
Proof. apply check_moving_sound. by vm_compute. Qed.
Definition demo_balance_rows : @BalanceRows (service_provider "regtest") (service_loader "regtest" demo_loader) :=
  service_rows "regtest" demo_chain _ 2 demo_upstream_follows demo_loader.
Lemma demo_no_skipped_row k s : @no_skipped_row _ _ demo_balance_rows k s.
Proof.
  intros i p x _ _ (y & -> & (j & -> & (Hj & Ht)%elem_of_movements)%list_elem_of_fmap)%list_elem_of_fmap _ _.
  cbn. pose proof (demo_moving (owner p) j ltac:(lia) Ht). lia.
Qed.

(** The blocks as the pass indexer sees them, with the reveal in transaction 14. *)
Definition seen (tx : Transaction) : Transaction :=
  {| compute_txid := compute_txid tx; input := input tx; output := output tx; envelopes := [0] |}.
Definition seen_block (h : u32) : Block := seen <$> block_txdata (demo_chain h).
#[local] Instance demo_bitcoin_node : BitcoinNode :=
  {| node_get_utxo _ := Ok 30; node_get_transaction _ := Ok (seen (pay 14 [first_out 13] [(30, [3])]));
     node_get_block h := Ok (seen_block h); Tx.to_usdb_script_hash := BalanceBlock.to_usdb_script_hash |}.
Definition reveal : DiscoveredMint :=
  {| dm_inscription_id := {| txid := 14; index := 0 |}; dm_inscription_number := 1;
     dm_block_height := 2; dm_timestamp := 0; dm_satpoint := None; dm_content_string := "";
     dm_content := MintContent {| um_eth_main := "0x"; um_eth_collab := None; um_prev := [] |} |}.
#[local] Instance reveal_source : InscriptionSource :=
  {| load_block_inscriptions _ _ := Ok [];
     load_block_mint_batch h _ := Ok {| valid_mints := if h =? 2 then [reveal] else []; invalid_mints := [] |} |}.
#[local] Instance reveal_source_laws : InscriptionSourceLaws.
Proof.
  split. intros h hint batch [= <-]. cbn. split; [|constructor].
  destruct (h =? 2) eqn:E; b2p; [|constructor]. constructor; [|constructor]. split; [done|].
  unfold wf_id, TXID_BOUND, U32_MAX. cbn. lia.
Qed.
Definition demo_surroundings : surroundings :=
  {| su_block h := Ok (Some (seen_block h)); su_synced_error _ := None; su_savepoint_error _ := None |}.
Definition fresh : InscriptionIndexer :=
  {| miner_pass_manager :=
       {| pm_storage := {| tables := (update_synced_btc_block_height 0 empty_tables).2; savepoints := [] |};
          pm_energy := (set_synced_block_height 0 empty_energy_db).2; pm_collector := None |};
     transfer_tracker := {| inscriptions := ∅; staged_blocks := ∅; utxo_manager := ∅ |} |}.
Definition demo_sync : result u32 * InscriptionIndexer :=
  @sync_blocks (service_provider "regtest") _ _ _ _ _ (service_loader "regtest" demo_loader)
    (service_env demo_surroundings) 1 2 fresh.

Lemma fresh_synced : @synced (service_provider "regtest") _ demo_balance_rows 0 fresh.
Proof.
  assert (∀ i p, t_passes (pm_tables (miner_pass_manager fresh)) !! i = Some p → False) as Hp.
  { intros i p. change ((∅ : gmap InscriptionId MinerPassInfo) !! i = Some p → False). by rewrite lookup_empty. }
  assert (∀ k v, pass_energy_cf (pm_energy (miner_pass_manager fresh)) !! k = Some v → False) as Hr.
  { apply no_records. }
  split; [split; try done; cbn|split|].
  - apply (ledger_ok_same 0 empty_tables); [done..|apply ledger_ok_empty].
  - intros i [p Hi]. by destruct (Hp i p).
  - intros i _ r l (_ & _ & Hl & _). by destruct (Hr _ _ Hl).
  - intros k v Hk. by destruct (Hr k v).
  - intros i p _ Hi. by destruct (Hp i p).
  - intros i p r x Hi. by destruct (Hp i p).
Qed.
Lemma demo_range_env : @range_env (service_provider "regtest") _ _ _ _ _ (service_loader "regtest" demo_loader)
  (service_env demo_surroundings) demo_balance_rows 1 2 fresh.
Proof.
  split; [done..| |intros; apply demo_no_skipped_row]. intros k n s' Hk E.
  assert (k = 1 ∨ k = 2) as [->| ->] by lia; vm_compute in E; injection E as _ <-; by vm_compute.
Qed.

(** The pass is minted in block 2 by a script that receives its only output, 30, in that block. *)
Lemma indexer_follows_chain_witness :
  demo_sync.1 = Ok 2
  ∧ ∃ r, is_latest {| txid := 14; index := 0 |} 2 (pm_energy (miner_pass_manager demo_sync.2)) r
      ∧ er_owner_address r = BalanceBlock.to_usdb_script_hash [3] ∧ er_owner_balance r = 30.
Proof.
  split; [by vm_compute|].
  destruct (indexer_follows_chain "regtest" demo_chain demo_loader _ 2
    demo_upstream_follows demo_surroundings 1 2 fresh (Ok 2) demo_sync.2) as (_ & _ & F).
  - done.
  - exact fresh_synced.
  - intros k v Hk. by destruct (no_records k v).
  - exact demo_range_env.
  - by vm_compute.
  - destruct (F {| txid := 14; index := 0 |} _ ltac:(vm_compute; reflexivity) eq_refl) as (r & Hl & _ & Ho & Hb).
    exists r. split; [exact Hl|]. rewrite Ho, Hb. by vm_compute.
Defined.

(** A commit that was recorded for height 3, and balance-history back at height 2. *)
Definition ahead : Tables :=
  (upsert_pass_block_commit
     {| pc_block_height := 3; pc_balance_history_block_height := 3; pc_balance_history_block_commit := "";
        pc_mutation_root := ""; pc_block_commit := ""; pc_commit_protocol_version := "";
        pc_commit_hash_algo := "" |} empty_tables).2.
Lemma null_replies_are_errors_witness :
  client_stop true = Err "RPC response missing both result and error"
  ∧ regressed (λ _, demo_height) 3 2 1 ahead
  ∧ ∃ e, @detect_upstream_reorg_target (service_env demo_surroundings) (service_history "regtest") 3 2
      {| bs_stable_height := 2; bs_stable_block_hash := None; bs_latest_block_commit := None;
         bs_stable_lag := 0; bs_commit_protocol_version := ""; bs_commit_hash_algo := "" |} 1 ahead = (Err e, ahead).
Proof.
  assert (regressed (λ _, demo_height) 3 2 1 ahead) as R by (split_and!; [done..|by eexists|done]).
  split_and!; [by vm_compute|exact R|].
  by apply (null_replies_are_errors "regtest" demo_chain _ 2 demo_upstream_follows).
Defined.
End Witness.
