(* ===== verification/PassService.v ===== *)
(** * The pass query service: status, data and access to the stores

    [usdb-indexer/src/service/rpc.rs], the requests and replies of the JSON-RPC interface with the
    conversions that derive the snapshot id, the local state commit and the system state id;
    [usdb-indexer/src/status.rs], the status that the indexer and its monitor write and the service
    reads; and the accesses of a request of [service/server.rs] to the stores.

    The service runs beside the indexer and shares its connection: a request makes one access after
    the other, and each sees the stores of its own [PassMoment], which may lie inside a block.  The
    leaderboard cache is the only state of the service itself. *)

From S2P Require Import Prelude Encoding Types EnergyStorage Energy PassStorage Pass Tx.
From S2P Require Import BalanceBlock StateIds BalanceService BalanceServer.

(** ** The status of the indexer *)

Record USDBInscriptionIndexStatus := {
  us_genesis_block_height : u32;
  us_current : u32;
  us_total : u32;
  us_message : option string
}.
(** [RuntimeReadinessStatus] of [usdb-indexer]. *)
Record PassRuntimeReadinessStatus := {
  pr_rpc_alive : bool;
  pr_upstream_reorg_recovery_pending : bool;
  pr_shutdown_requested : bool
}.
Record StatusManager := {
  usdb_status : USDBInscriptionIndexStatus;
  latest_balance_history_snapshot : option SnapshotInfo;
  latest_balance_history_readiness : option ReadinessInfo;
  sm_runtime_readiness : PassRuntimeReadinessStatus
}.
Record IndexerSyncStatusSnapshot := {
  sy_genesis_block_height : u32;
  sy_current : u32;
  sy_total : u32;
  sy_message : option string;
  sy_balance_history_stable_height : option u32
}.

Definition new_status_manager (genesis_block_height : u32) : StatusManager :=
  {| usdb_status := {| us_genesis_block_height := genesis_block_height; us_current := 0; us_total := 0;
                       us_message := None |};
     latest_balance_history_snapshot := None; latest_balance_history_readiness := None;
     sm_runtime_readiness := {| pr_rpc_alive := false; pr_upstream_reorg_recovery_pending := false;
                                pr_shutdown_requested := false |} |}.
Definition balance_history_stable_height (m : StatusManager) : option u32 :=
  si_stable_height <$> latest_balance_history_snapshot m.
Definition set_balance_history_snapshot (snapshot : option SnapshotInfo) (m : StatusManager) : StatusManager :=
  {| usdb_status := usdb_status m; latest_balance_history_snapshot := snapshot;
     latest_balance_history_readiness := latest_balance_history_readiness m;
     sm_runtime_readiness := sm_runtime_readiness m |}.
Definition set_balance_history_readiness (readiness : option ReadinessInfo) (m : StatusManager) :
    StatusManager :=
  {| usdb_status := usdb_status m; latest_balance_history_snapshot := latest_balance_history_snapshot m;
     latest_balance_history_readiness := readiness; sm_runtime_readiness := sm_runtime_readiness m |}.
Definition on_pass_runtime (f : PassRuntimeReadinessStatus → PassRuntimeReadinessStatus) (m : StatusManager) :
    StatusManager :=
  {| usdb_status := usdb_status m; latest_balance_history_snapshot := latest_balance_history_snapshot m;
     latest_balance_history_readiness := latest_balance_history_readiness m;
     sm_runtime_readiness := f (sm_runtime_readiness m) |}.
Definition set_pass_rpc_alive (b : bool) : StatusManager → StatusManager :=
  on_pass_runtime (λ r, {| pr_rpc_alive := b;
    pr_upstream_reorg_recovery_pending := pr_upstream_reorg_recovery_pending r;
    pr_shutdown_requested := pr_shutdown_requested r |}).
Definition set_upstream_reorg_recovery_pending (b : bool) : StatusManager → StatusManager :=
  on_pass_runtime (λ r, {| pr_rpc_alive := pr_rpc_alive r; pr_upstream_reorg_recovery_pending := b;
    pr_shutdown_requested := pr_shutdown_requested r |}).
Definition set_pass_shutdown_requested (b : bool) : StatusManager → StatusManager :=
  on_pass_runtime (λ r, {| pr_rpc_alive := pr_rpc_alive r;
    pr_upstream_reorg_recovery_pending := pr_upstream_reorg_recovery_pending r;
    pr_shutdown_requested := b |}).
Definition update_index_status (current total : option u32) (message : option string) (m : StatusManager) :
    StatusManager :=
  let s := usdb_status m in
  {| usdb_status := {| us_genesis_block_height := us_genesis_block_height s;
                       us_current := default (us_current s) current; us_total := default (us_total s) total;
                       us_message := keep_message message (us_message s) |};
     latest_balance_history_snapshot := latest_balance_history_snapshot m;
     latest_balance_history_readiness := latest_balance_history_readiness m;
     sm_runtime_readiness := sm_runtime_readiness m |}.
Definition get_index_status_snapshot (m : StatusManager) : IndexerSyncStatusSnapshot :=
  let s := usdb_status m in
  {| sy_genesis_block_height := us_genesis_block_height s; sy_current := us_current s;
     sy_total := us_total s; sy_message := us_message s;
     sy_balance_history_stable_height := balance_history_stable_height m |}.

(** One round of the monitor, from the replies of the node and of balance-history; the progress bars
    are not modelled. *)
Definition monitor_update (btc_height : result u32) (sync_status : result SyncStatus)
    (snapshot : result SnapshotInfo) (readiness : result ReadinessInfo) : M StatusManager unit :=
  let! _ := lift btc_height in
  let forget := λ m, set_balance_history_readiness None (set_balance_history_snapshot None m) in
  let! status := try (lift sync_status) in
  match status with
  | inr e => let! _ := modify forget in fail e
  | inl _ =>
      let! snapshot := try (lift snapshot) in
      match snapshot with
      | inr e => let! _ := modify forget in fail e
      | inl snapshot =>
          let! _ := modify (set_balance_history_snapshot (Some snapshot)) in
          let! readiness := try (lift readiness) in
          match readiness with
          | inr e => let! _ := modify (set_balance_history_readiness None) in fail e
          | inl readiness => modify (set_balance_history_readiness (Some readiness))
          end
      end
  end.

(** ** State references *)

Definition USDB_INDEXER_SERVICE_NAME : string := "usdb-indexer".
Definition LOCAL_STATE_COMMIT_HASH_ALGO : string := "sha256".
Definition SYSTEM_STATE_ID_HASH_ALGO : string := "sha256".

Record IndexerSnapshotInfo := {
  is_local_synced_block_height : u32;
  is_balance_history_stable_height : u32;
  is_stable_block_hash : string;
  is_latest_block_commit : string;
  is_consensus_identity : ConsensusSnapshotIdentity;
  is_commit_protocol_version : string;
  is_commit_hash_algo : string;
  is_snapshot_id : string;
  is_snapshot_id_hash_algo : string;
  is_snapshot_id_version : string
}.
Record LocalStateCommitInfo := {
  li_local_synced_block_height : u32;
  li_upstream_snapshot_id : string;
  li_latest_pass_block_commit : option LocalStatePassCommitIdentity;
  li_latest_active_balance_snapshot : option LocalStateActiveBalanceSnapshot;
  li_local_state_identity : LocalStateCommitIdentity;
  li_local_state_commit : string;
  li_local_state_commit_hash_algo : string;
  li_local_state_commit_version : string
}.
Record SystemStateInfo := {
  st_local_synced_block_height : u32;
  st_upstream_snapshot_id : string;
  st_local_state_commit : string;
  st_system_state_identity : SystemStateIdentity;
  st_system_state_id : string;
  st_system_state_id_hash_algo : string;
  st_system_state_id_version : string
}.
Record HistoricalStateRefInfo := {
  hr_block_height : u32;
  hr_snapshot_info : IndexerSnapshotInfo;
  hr_local_state_commit_info : LocalStateCommitInfo;
  hr_system_state_info : SystemStateInfo
}.

Section Conversions.
Context `{BitcoinCrate} (network : string).

(** [From<IndexerSnapshotInfoSeed> for IndexerSnapshotInfo], of an anchor. *)
Definition indexer_snapshot_identity (anchor : BalanceHistorySnapshotAnchor) : ConsensusSnapshotIdentity :=
  {| cs_source_chain := CONSENSUS_SOURCE_CHAIN_BTC; cs_network := network;
     cs_stable_height := stable_height anchor; cs_stable_block_hash := stable_block_hash anchor;
     cs_stable_lag := stable_lag anchor;
     cs_balance_history_api_version := BALANCE_HISTORY_API_VERSION;
     cs_balance_history_semantics_version := BALANCE_HISTORY_SEMANTICS_VERSION;
     cs_usdb_index_formula_version := USDB_INDEX_FORMULA_VERSION;
     cs_usdb_index_protocol_version := USDB_INDEX_PROTOCOL_VERSION |}.
Definition indexer_snapshot_info (local_synced_block_height : u32) (anchor : BalanceHistorySnapshotAnchor) :
    IndexerSnapshotInfo :=
  let consensus_identity := indexer_snapshot_identity anchor in
  {| is_local_synced_block_height := local_synced_block_height;
     is_balance_history_stable_height := stable_height anchor;
     is_stable_block_hash := stable_block_hash anchor; is_latest_block_commit := latest_block_commit anchor;
     is_consensus_identity := consensus_identity;
     is_commit_protocol_version := commit_protocol_version anchor;
     is_commit_hash_algo := commit_hash_algo anchor;
     is_snapshot_id := build_consensus_snapshot_id consensus_identity;
     is_snapshot_id_hash_algo := CONSENSUS_SNAPSHOT_ID_HASH_ALGO;
     is_snapshot_id_version := CONSENSUS_SNAPSHOT_ID_VERSION |}.

(** [From<LocalStateCommitInfoSeed> for LocalStateCommitInfo] *)
Definition local_state_commit_info_of (local_synced_block_height : u32) (upstream_snapshot_id : string)
    (latest_pass_block_commit : option LocalStatePassCommitIdentity)
    (latest_active_balance_snapshot : option LocalStateActiveBalanceSnapshot) : LocalStateCommitInfo :=
  let local_state_identity :=
    {| lc_upstream_snapshot_id := upstream_snapshot_id;
       lc_local_synced_block_height := local_synced_block_height;
       lc_latest_pass_block_commit := latest_pass_block_commit;
       lc_latest_active_balance_snapshot := latest_active_balance_snapshot;
       lc_usdb_index_protocol_version := USDB_INDEX_PROTOCOL_VERSION |} in
  {| li_local_synced_block_height := local_synced_block_height;
     li_upstream_snapshot_id := upstream_snapshot_id;
     li_latest_pass_block_commit := latest_pass_block_commit;
     li_latest_active_balance_snapshot := latest_active_balance_snapshot;
     li_local_state_identity := local_state_identity;
     li_local_state_commit := build_local_state_commit local_state_identity;
     li_local_state_commit_hash_algo := LOCAL_STATE_COMMIT_HASH_ALGO;
     li_local_state_commit_version := LOCAL_STATE_COMMIT_VERSION |}.

(** [From<&LocalStateCommitInfo> for SystemStateInfo] *)
Definition build_system_state_info_from_local_state (local_state : LocalStateCommitInfo) : SystemStateInfo :=
  let system_state_identity :=
    {| ss_upstream_snapshot_id := li_upstream_snapshot_id local_state;
       ss_local_state_commit := li_local_state_commit local_state |} in
  {| st_local_synced_block_height := li_local_synced_block_height local_state;
     st_upstream_snapshot_id := li_upstream_snapshot_id local_state;
     st_local_state_commit := li_local_state_commit local_state;
     st_system_state_identity := system_state_identity;
     st_system_state_id := build_system_state_id system_state_identity;
     st_system_state_id_hash_algo := SYSTEM_STATE_ID_HASH_ALGO;
     st_system_state_id_version := SYSTEM_STATE_ID_VERSION |}.
End Conversions.

(** [From<&IndexerSnapshotInfo>] and [From<&HistoricalStateRefInfo> for ConsensusStateReference] *)
Definition reference_of_indexer_snapshot (snapshot : IndexerSnapshotInfo) : ConsensusStateReference :=
  let identity := is_consensus_identity snapshot in
  {| rf_snapshot_id := Some (is_snapshot_id snapshot);
     rf_stable_height := Some (is_balance_history_stable_height snapshot);
     rf_stable_block_hash := Some (is_stable_block_hash snapshot);
     rf_balance_history_api_version := Some (cs_balance_history_api_version identity);
     rf_balance_history_semantics_version := Some (cs_balance_history_semantics_version identity);
     rf_usdb_index_protocol_version := Some (cs_usdb_index_protocol_version identity);
     rf_local_state_commit := None; rf_system_state_id := None |}.
Definition with_local_state (commit id : option string) (r : ConsensusStateReference) : ConsensusStateReference :=
  {| rf_snapshot_id := rf_snapshot_id r; rf_stable_height := rf_stable_height r;
     rf_stable_block_hash := rf_stable_block_hash r;
     rf_balance_history_api_version := rf_balance_history_api_version r;
     rf_balance_history_semantics_version := rf_balance_history_semantics_version r;
     rf_usdb_index_protocol_version := rf_usdb_index_protocol_version r;
     rf_local_state_commit := commit; rf_system_state_id := id |}.
Definition reference_of_historical_state_ref (state_ref : HistoricalStateRefInfo) : ConsensusStateReference :=
  with_local_state (Some (li_local_state_commit (hr_local_state_commit_info state_ref)))
    (Some (st_system_state_id (hr_system_state_info state_ref)))
    (reference_of_indexer_snapshot (hr_snapshot_info state_ref)).

(** ** Requests *)

Definition ERR_HEIGHT_NOT_SYNCED : i64 := -32010.
Definition ERR_ENERGY_NOT_FOUND : i64 := -32012.
Definition ERR_DUPLICATE_ACTIVE_OWNER : i64 := -32014.
Definition ERR_INVALID_PAGINATION : i64 := -32015.
Definition ERR_INVALID_HEIGHT_RANGE : i64 := -32016.
Definition ERR_INTERNAL_INVARIANT_BROKEN : i64 := -32017.
Definition MAX_RPC_PAGE_SIZE : Z := 1000.

Record PageParams := { pp_page : Z; pp_page_size : Z }.
Record PassStateRefParams := { ps_block_height : u32; ps_context : option ConsensusQueryContext }.
Record GetPassSnapshotParams := {
  gs_inscription_id : string;
  gs_at_height : option u32;
  gs_context : option ConsensusQueryContext
}.
Record GetActivePassesAtHeightParams := { ga_at_height : option u32; ga_page : PageParams }.
Record GetPassHistoryParams := {
  gh_inscription_id : string;
  gh_from_height : u32;
  gh_to_height : u32;
  gh_order : option string;
  gh_page : PageParams
}.
Record GetOwnerActivePassAtHeightParams := { go_owner : string; go_at_height : option u32 }.
Record GetOwnerPassesAtHeightParams := {
  gw_owner : string;
  gw_at_height : option u32;
  gw_states : option (list string);
  gw_order : option string;
  gw_page : PageParams
}.
Record GetRecentPassesParams := {
  gc_at_height : option u32;
  gc_states : option (list string);
  gc_order : option string;
  gc_page : PageParams
}.
Record GetPassEnergyParams := {
  ge_inscription_id : string;
  ge_block_height : option u32;
  ge_context : option ConsensusQueryContext;
  ge_mode : option string
}.
Record GetPassEnergyRangeParams := {
  gn_inscription_id : string;
  gn_from_height : u32;
  gn_to_height : u32;
  gn_order : option string;
  gn_page : PageParams
}.
Record GetPassEnergyLeaderboardParams := {
  gl_at_height : option u32;
  gl_scope : option string;
  gl_page : PageParams
}.
Record GetInvalidPassesParams := {
  gi_error_code : option string;
  gi_from_height : u32;
  gi_to_height : u32;
  gi_page : PageParams
}.

(** ** Replies *)

Record RpcInfo := { ri_service : string; ri_api_version : string; ri_network : string; ri_features : list string }.
Record IndexerSyncStatus := {
  iy_genesis_block_height : u32;
  iy_synced_block_height : option u32;
  iy_balance_history_stable_height : option u32;
  iy_current : u32;
  iy_total : u32;
  iy_message : option string
}.
Inductive PassReadinessBlocker :=
  | PassRpcNotListening | PassShutdownRequested | SyncedHeightMissing | PassCatchingUp
  | UpstreamReadinessUnknown | UpstreamConsensusNotReady | UpstreamSnapshotMissing
  | UpstreamSnapshotHeightMismatch | ReorgRecoveryPending | LocalStateCommitMissing | SystemStateMissing.
Record PassReadinessInfo := {
  pi_service : string;
  pi_rpc_alive : bool;
  pi_query_ready : bool;
  pi_consensus_ready : bool;
  pi_synced_block_height : option u32;
  pi_balance_history_stable_height : option u32;
  pi_upstream_snapshot_id : option string;
  pi_local_state_commit : option string;
  pi_system_state_id : option string;
  pi_current : u32;
  pi_total : u32;
  pi_message : option string;
  pi_blockers : list PassReadinessBlocker
}.
Record PassSnapshot := {
  px_inscription_id : string;
  px_inscription_number : Z;
  px_mint_txid : string;
  px_mint_block_height : u32;
  px_mint_owner : string;
  px_eth_main : string;
  px_eth_collab : option string;
  px_prev : list string;
  px_invalid_code : option string;
  px_invalid_reason : option string;
  px_owner : string;
  px_state : string;
  px_satpoint : string;
  px_last_event_id : i64;
  px_last_event_type : string;
  px_resolved_height : u32
}.
(** [ActivePassesAtHeight], [PassHistoryPage], [OwnerPassesAtHeight], [RecentPassesPage],
    [PassEnergyRangePage], [PassEnergyLeaderboardPage] and [InvalidPassesPage]: a page of items. *)
Record Page (A : Type) := { pg_resolved_height : u32; pg_total : u64; pg_items : list A }.
Arguments Build_Page {A}.
Arguments pg_resolved_height {A}. Arguments pg_total {A}. Arguments pg_items {A}.
Record ActivePassItem := { ai_inscription_id : string; ai_owner : string }.
Record PassStatsAtHeight := { pt_resolved_height : u32; pt_stats : MinerPassStateStats }.
Record PassHistoryEvent := {
  pe_event_id : i64;
  pe_inscription_id : string;
  pe_block_height : u32;
  pe_event_type : string;
  pe_state : string;
  pe_owner : string;
  pe_satpoint : string
}.
(** [OwnerPassItem] and [RecentPassItem] have the same fields. *)
Record OwnerPassItem := {
  oi_inscription_id : string;
  oi_inscription_number : Z;
  oi_mint_block_height : u32;
  oi_owner : string;
  oi_state : string;
  oi_latest_event_height : u32;
  oi_eth_main : string;
  oi_eth_collab : option string;
  oi_satpoint : string
}.
Record PassEnergySnapshot := {
  ph_inscription_id : string;
  ph_query_block_height : u32;
  ph_record_block_height : u32;
  ph_state : string;
  ph_active_block_height : u32;
  ph_owner_address : string;
  ph_owner_balance : u64;
  ph_owner_delta : i64;
  ph_energy : u64
}.
Record PassEnergyRangeItem := {
  gr_inscription_id : string;
  gr_record_block_height : u32;
  gr_state : string;
  gr_active_block_height : u32;
  gr_owner_address : string;
  gr_owner_balance : u64;
  gr_owner_delta : i64;
  gr_energy : u64
}.
Record PassEnergyLeaderboardItem := {
  lb_inscription_id : string;
  lb_owner : string;
  lb_record_block_height : u32;
  lb_state : string;
  lb_energy : u64
}.
Record InvalidPassItem := {
  iv_inscription_id : string;
  iv_inscription_number : Z;
  iv_mint_txid : string;
  iv_mint_block_height : u32;
  iv_mint_owner : string;
  iv_eth_main : string;
  iv_eth_collab : option string;
  iv_prev : list string;
  iv_invalid_code : option string;
  iv_invalid_reason : option string;
  iv_owner : string;
  iv_state : string;
  iv_satpoint : string
}.

(** ** What a request sees *)

Record PassMoment := { mo_tables : Tables; mo_energy_db : EnergyDb; mo_status : StatusManager }.
Record PassEnergyLeaderboardCacheEntry := {
  ce_resolved_height : u32;
  ce_scope : string;
  ce_top_k : Z;
  ce_total : u64;
  ce_items : list PassEnergyLeaderboardItem
}.
(** The moments of the accesses, the number of the next one, and the cache of the service. *)
Record PassServer := {
  sv_now : nat;
  sv_moments : nat → PassMoment;
  sv_leaderboard_cache : option PassEnergyLeaderboardCacheEntry
}.
Definition here (s : PassServer) : PassMoment := sv_moments s (sv_now s).
Definition tick (s : PassServer) : PassServer :=
  {| sv_now := S (sv_now s); sv_moments := sv_moments s; sv_leaderboard_cache := sv_leaderboard_cache s |}.

(** ** JSON-RPC results *)

Inductive JsonScalar := JsonNull | JsonNumber (n : Z) | JsonText (s : string).
Definition json_option (o : option Z) : JsonScalar := from_option JsonNumber JsonNull o.
(** [JsonError] by its constructors [to_internal_error], [to_invalid_params], [to_business_error]
    and [to_consensus_error]. *)
Inductive RpcError :=
  | Internal (message : string)
  | BadParams (message : string)
  | Business (code : i64) (message : string) (data : list (string * JsonScalar))
  | Consensus (code : ConsensusRpcErrorCode) (data : ConsensusRpcErrorData).

Definition Rpc (A : Type) : Type := M PassServer (RpcError + A).
Definition rret {A} (a : A) : Rpc A := ret (inr a).
Definition rerr {A} (e : RpcError) : Rpc A := ret (inl e).
Definition rbind {A B} (m : Rpc A) (f : A → Rpc B) : Rpc B :=
  let! r := m in match r with inl e => ret (inl e) | inr a => f a end.
Notation "'let&' x := m 'in' k" := (rbind m (λ x, k))
  (at level 10, x pattern, m at level 100, k at level 200) : usdb_scope.
(** [.ok()], and [unwrap_or] of a result. *)
Definition attempt {A} (m : Rpc A) : M PassServer (option A) :=
  let! r := m in ret (match r with inr a => Some a | inl _ => None end).
(** A value that the request computes without an error of its own. *)
Definition pure {A} (m : M PassServer A) : Rpc A := let! a := m in rret a.

(** One access: to the status, to the pass store or to the energy store, whose errors become
    internal errors. *)
Definition watch {A} (f : PassMoment → A) : Rpc A := λ s, (Ok (inr (f (here s))), tick s).
Definition reply_of {A} (r : result A) : result (RpcError + A) :=
  match r with Ok a => Ok (inr a) | Err e => Ok (inl (Internal e)) | Panic e => Panic e end.
Definition storage {A} (m : M Tables A) : Rpc A := λ s, (reply_of (m (mo_tables (here s))).1, tick s).
Definition energy_manager {A} (m : M EnergyDb A) : Rpc A :=
  λ s, (reply_of (m (mo_energy_db (here s))).1, tick s).
(** [Result] without a store. *)
Definition checked {A} (r : result A) : Rpc A := λ s, (reply_of r, s).

(** A write of the service to the status; every later access sees it. *)
Definition write_status (f : StatusManager → StatusManager) : M PassServer unit :=
  λ s, (Ok tt, {| sv_now := sv_now s;
                  sv_moments := λ n, if (n <? sv_now s)%nat then sv_moments s n
                                     else {| mo_tables := mo_tables (sv_moments s n);
                                             mo_energy_db := mo_energy_db (sv_moments s n);
                                             mo_status := f (mo_status (sv_moments s n)) |};
                  sv_leaderboard_cache := sv_leaderboard_cache s |}).
Definition cached_entry : M PassServer (option PassEnergyLeaderboardCacheEntry) := gets sv_leaderboard_cache.
Definition set_cached_entry (e : PassEnergyLeaderboardCacheEntry) : M PassServer unit :=
  modify (λ s, {| sv_now := sv_now s; sv_moments := sv_moments s; sv_leaderboard_cache := Some e |}).

(** ** Texts *)

(** [str::trim] on UTF-8: the white space of Unicode, and its removal from both ends. *)
Definition WHITE_SPACE : list (list Z) :=
  [[9]; [10]; [11]; [12]; [13]; [32]; [194; 133]; [194; 160]; [225; 154; 128]]
  ++ ((λ c, [226; 128; c]) <$> [128; 129; 130; 131; 132; 133; 134; 135; 136; 137; 138; 168; 169; 175])
  ++ [[226; 129; 159]; [227; 128; 128]].
Definition without_prefix (p l : list Z) : option (list Z) :=
  if decide (take (length p) l = p) then Some (drop (length p) l) else None.
Fixpoint strip_white (white : list (list Z)) (fuel : nat) (l : list Z) : list Z :=
  match fuel with
  | O => l
  | S fuel => match omap (λ w, without_prefix w l) white with
              | [] => l
              | l' :: _ => strip_white white fuel l'
              end
  end.
Definition trim (s : string) : string :=
  let l := as_bytes s in
  let l := strip_white WHITE_SPACE (length l) l in
  let l := rev (strip_white (@rev Z <$> WHITE_SPACE) (length l) (rev l)) in
  string_of_list_ascii ((λ b, ascii_of_N (Z.to_N b)) <$> l).

(** Parsers of the ord and bitcoin crates: inscription ids, script hashes, and the script of an
    address on the network of the node. *)
Class RpcTexts := {
  rpc_inscription_id_from_str : string → option InscriptionId;
  script_hash_from_str : string → option USDBScriptHash;
  address_script : string → option ScriptBuf
}.
Section Texts.
Context `{BitcoinCrate} `{RpcTexts}.
Definition address_string_to_script_hash (address : string) : result USDBScriptHash :=
  let? script := ok_or "Invalid address" (address_script address) in Ok (to_usdb_script_hash script).
Definition parse_script_hash_any (s : string) : result USDBScriptHash :=
  match script_hash_from_str s with Some sh => Ok sh | None => address_string_to_script_hash s end.
End Texts.
