(* ===== verification/PassServer.v ===== *)
(** * The pass query service: handlers

    [usdb-indexer/src/service/server.rs], [UsdbIndexerRpcServer]: validation, state references,
    readiness, the queries at a height and the leaderboard with its cache.  Opening and closing the
    HTTP listener and log lines are not modelled; the texts of errors are kept without the values
    printed into them, except where an error is a business error with its data.  Every access of a
    handler to the status, the stores or the cache is a step of its own, and the anchor is read
    column by column, as [get_balance_history_snapshot_anchor] locks the connection for each. *)

From S2P Require Import Prelude Encoding Types EnergyStorage Energy PassStorage Pass Tx.
From S2P Require Import BalanceBlock StateIds BalanceService BalanceServer PassService.

(** [PassEnergyLeaderboardScope] *)
Inductive PassEnergyLeaderboardScope := ScopeActive | ScopeActiveDormant | ScopeAll.
Definition scope_as_str (s : PassEnergyLeaderboardScope) : string :=
  match s with ScopeActive => "active" | ScopeActiveDormant => "active_dormant" | ScopeAll => "all" end.
Definition scope_states (s : PassEnergyLeaderboardScope) : list MinerPassState :=
  match s with
  | ScopeActive => [Active]
  | ScopeActiveDormant => [Active; Dormant]
  | ScopeAll => [Active; Dormant; Consumed; Burned; Invalid]
  end.

(** The configuration the handlers read. *)
Class PassConfig := {
  cfg_network : string;
  cfg_genesis_block_height : u32;
  cfg_active_address_page_size : Z;
  cfg_leaderboard_cache_enabled : bool;
  cfg_leaderboard_cache_top_k : Z
}.

Section PassServer.
Context `{BitcoinCrate} `{IdText} `{RpcTexts} `{PassConfig}.

(** ** The adopted snapshot *)

Definition synced_height : Rpc (option u32) := storage get_synced_btc_block_height.

Definition read_anchor : Rpc (option BalanceHistorySnapshotAnchor) :=
  let& height := storage (get_numeric_state BALANCE_HISTORY_SNAPSHOT_HEIGHT_KEY) in
  match height with
  | None => rret None
  | Some height =>
      if height <? 0 then rerr (Internal "Invalid negative balance-history snapshot height")
      else
        let& o := storage (get_text_state BALANCE_HISTORY_SNAPSHOT_BLOCK_HASH_KEY) in
        let& block_hash := checked (ok_or "Missing balance-history snapshot block hash" o) in
        let& o := storage (get_text_state BALANCE_HISTORY_SNAPSHOT_BLOCK_COMMIT_KEY) in
        let& block_commit := checked (ok_or "Missing balance-history snapshot block commit" o) in
        let& o := storage (get_numeric_state BALANCE_HISTORY_SNAPSHOT_STABLE_LAG_KEY) in
        let& lag := checked (ok_or "Missing balance-history snapshot stable lag" o) in
        if lag <? 0 then rerr (Internal "Invalid negative balance-history snapshot stable lag")
        else
          let& o := storage (get_text_state BALANCE_HISTORY_SNAPSHOT_COMMIT_PROTOCOL_VERSION_KEY) in
          let& version := checked (ok_or "Missing balance-history snapshot commit protocol version" o) in
          let& o := storage (get_text_state BALANCE_HISTORY_SNAPSHOT_COMMIT_HASH_ALGO_KEY) in
          let& algo := checked (ok_or "Missing balance-history snapshot commit hash algorithm" o) in
          rret (Some {| stable_height := i64_as_u32 height; stable_block_hash := block_hash;
                        latest_block_commit := block_commit; stable_lag := i64_as_u32 lag;
                        commit_protocol_version := version; commit_hash_algo := algo |})
  end.

Definition upstream_snapshot_info : Rpc (option IndexerSnapshotInfo) :=
  let& anchor := read_anchor in
  match anchor with
  | None => rret None
  | Some anchor =>
      let& synced := storage get_synced_btc_block_height in
      rret (Some (indexer_snapshot_info cfg_network (default (stable_height anchor) synced) anchor))
  end.

(** ** The local state at a height *)

Definition pass_commit_identity (entry : StoredPassBlockCommitEntry) : LocalStatePassCommitIdentity :=
  {| lp_block_height := pc_block_height entry; lp_block_commit := pc_block_commit entry;
     lp_commit_protocol_version := pc_commit_protocol_version entry;
     lp_commit_hash_algo := pc_commit_hash_algo entry |}.
Definition active_balance_identity (s : ActiveBalanceSnapshot) : LocalStateActiveBalanceSnapshot :=
  {| ls_block_height := abs_block_height s; ls_total_balance := total_balance s;
     ls_active_address_count := active_address_count s |}.

(** [build_local_state_commit_info_from_snapshot], of the current state. *)
Definition build_local_state_commit_info_from_snapshot (snapshot : IndexerSnapshotInfo) :
    Rpc LocalStateCommitInfo :=
  let synced_height := is_local_synced_block_height snapshot in
  let& commit := storage (get_latest_pass_block_commit_at_or_before synced_height) in
  let& balance :=
    if synced_height <? cfg_genesis_block_height then rret None
    else
      let& _ := storage (assert_balance_snapshot_consistency synced_height cfg_genesis_block_height) in
      let& o := storage (get_active_balance_snapshot synced_height) in
      match o with
      | Some balance => rret (Some (active_balance_identity balance))
      | None => rerr (Internal "Missing active balance snapshot while building local state commit")
      end in
  rret (local_state_commit_info_of synced_height (is_snapshot_id snapshot)
          (pass_commit_identity <$> commit) balance).

(** ** Readiness *)

Definition readiness_info : Rpc PassReadinessInfo :=
  let& sync_status := watch (λ m, get_index_status_snapshot (mo_status m)) in
  let& runtime := watch (λ m, sm_runtime_readiness (mo_status m)) in
  let& synced_height := synced_height in
  let& pending_height := storage get_upstream_reorg_recovery_pending_height in
  let reorg_recovery_pending :=
    pr_upstream_reorg_recovery_pending runtime || negb (is_none pending_height) in
  let& upstream_readiness := watch (λ m, latest_balance_history_readiness (mo_status m)) in
  let& upstream_snapshot := pure (attempt upstream_snapshot_info) in
  let upstream_snapshot := mjoin upstream_snapshot in
  let& local_state :=
    match upstream_snapshot with
    | Some snapshot => pure (attempt (build_local_state_commit_info_from_snapshot snapshot))
    | None => rret None
    end in
  let system_state := build_system_state_info_from_local_state <$> local_state in
  let observed_upstream_height :=
    match sy_balance_history_stable_height sync_status with
    | Some h => Some h
    | None => is_balance_history_stable_height <$> upstream_snapshot
    end in
  let catching_up :=
    match synced_height, observed_upstream_height with
    | Some local_height, Some upstream_height => local_height <? upstream_height
    | _, _ => false
    end in
  let blockers :=
    when (negb (pr_rpc_alive runtime)) PassRpcNotListening
    ++ when (pr_shutdown_requested runtime) PassShutdownRequested
    ++ when (is_none synced_height) SyncedHeightMissing
    ++ when catching_up PassCatchingUp
    ++ match upstream_readiness with
       | Some readiness => when (negb (rd_consensus_ready readiness)) UpstreamConsensusNotReady
       | None => [UpstreamReadinessUnknown]
       end
    ++ match upstream_snapshot, synced_height with
       | None, _ => [UpstreamSnapshotMissing]
       | Some snapshot, Some local_height =>
           when (negb (is_balance_history_stable_height snapshot =? local_height))
             UpstreamSnapshotHeightMismatch
       | Some _, None => []
       end
    ++ when reorg_recovery_pending ReorgRecoveryPending
    ++ when (negb (is_none upstream_snapshot) && is_none local_state) LocalStateCommitMissing
    ++ when (negb (is_none local_state) && is_none system_state) SystemStateMissing in
  let query_ready :=
    pr_rpc_alive runtime && negb (pr_shutdown_requested runtime) && negb reorg_recovery_pending
    && negb (is_none synced_height) in
  let consensus_ready :=
    query_ready && from_option rd_consensus_ready false upstream_readiness && negb catching_up
    && negb (is_none upstream_snapshot) && negb (is_none local_state) && negb (is_none system_state)
    && match blockers with [] => true | _ => false end in
  rret {| pi_service := USDB_INDEXER_SERVICE_NAME; pi_rpc_alive := pr_rpc_alive runtime;
          pi_query_ready := query_ready; pi_consensus_ready := consensus_ready;
          pi_synced_block_height := synced_height;
          pi_balance_history_stable_height := observed_upstream_height;
          pi_upstream_snapshot_id := is_snapshot_id <$> upstream_snapshot;
          pi_local_state_commit := li_local_state_commit <$> local_state;
          pi_system_state_id := st_system_state_id <$> system_state;
          pi_current := sy_current sync_status; pi_total := sy_total sync_status;
          pi_message := sy_message sync_status; pi_blockers := blockers |}.

(** ** Consensus errors *)

(** [build_consensus_state_reference] *)
Definition current_state_reference (snapshot : option IndexerSnapshotInfo)
    (local_state : option LocalStateCommitInfo) (system_state : option SystemStateInfo) :
    ConsensusStateReference :=
  let reference := from_option reference_of_indexer_snapshot default_reference snapshot in
  let present := negb (is_none snapshot && is_none local_state && is_none system_state) in
  {| rf_snapshot_id := rf_snapshot_id reference; rf_stable_height := rf_stable_height reference;
     rf_stable_block_hash := rf_stable_block_hash reference;
     rf_balance_history_api_version := rf_balance_history_api_version reference;
     rf_balance_history_semantics_version := rf_balance_history_semantics_version reference;
     rf_usdb_index_protocol_version :=
       if present then Some USDB_INDEX_PROTOCOL_VERSION else rf_usdb_index_protocol_version reference;
     rf_local_state_commit :=
       match system_state with
       | Some system_state => Some (st_local_state_commit system_state)
       | None => match local_state with
                 | Some local_state => Some (li_local_state_commit local_state)
                 | None => rf_local_state_commit reference
                 end
       end;
     rf_system_state_id :=
       match system_state with
       | Some system_state => Some (st_system_state_id system_state)
       | None => rf_system_state_id reference
       end |}.

(** The snapshot, local state and system state that error payloads describe. *)
Abbreviation CurrentState :=
  (option IndexerSnapshotInfo * option LocalStateCommitInfo * option SystemStateInfo)%type (only parsing).
Definition current_state_of (current_snapshot : option IndexerSnapshotInfo) : Rpc CurrentState :=
  let& current_local_state :=
    match current_snapshot with
    | Some snapshot => pure (attempt (build_local_state_commit_info_from_snapshot snapshot))
    | None => rret None
    end in
  rret (current_snapshot, current_local_state,
        build_system_state_info_from_local_state <$> current_local_state).
Definition current_state_for_error_payload : Rpc CurrentState :=
  let& current_snapshot := upstream_snapshot_info in current_state_of current_snapshot.
(** [.unwrap_or((None, None, None))] *)
Definition current_state_or_none : Rpc CurrentState :=
  let& o := pure (attempt current_state_for_error_payload) in rret (default (None, None, None) o).

Definition pass_error_data (requested_height : option u32) (current : CurrentState)
    (detail : option string) : Rpc ConsensusRpcErrorData :=
  let& readiness := pure (attempt readiness_info) in
  rret {| er_service := USDB_INDEXER_SERVICE_NAME; er_requested_height := requested_height;
          er_local_synced_height := readiness ≫= pi_synced_block_height;
          er_upstream_stable_height := readiness ≫= pi_balance_history_stable_height;
          er_consensus_ready := pi_consensus_ready <$> readiness;
          er_expected_state := default_reference;
          er_actual_state := current_state_reference current.1.1 current.1.2 current.2;
          er_detail := detail |}.
Definition pass_error_data_for_state (requested_height : option u32)
    (expected_state actual_state : ConsensusStateReference) (detail : option string) :
    Rpc ConsensusRpcErrorData :=
  let& readiness := pure (attempt readiness_info) in
  rret {| er_service := USDB_INDEXER_SERVICE_NAME; er_requested_height := requested_height;
          er_local_synced_height := readiness ≫= pi_synced_block_height;
          er_upstream_stable_height := rf_stable_height actual_state;
          er_consensus_ready := pi_consensus_ready <$> readiness;
          er_expected_state := expected_state; er_actual_state := actual_state; er_detail := detail |}.
Definition refuse {A} (code : ConsensusRpcErrorCode) (data : Rpc ConsensusRpcErrorData) : Rpc A :=
  let& data := data in rerr (Consensus code data).

(** ** Heights *)

Definition ensure_history_height_retained (requested_height : u32) : Rpc unit :=
  if requested_height >=? cfg_genesis_block_height then rret tt
  else
    let& current := current_state_or_none in
    refuse StateNotRetained
      (pass_error_data (Some requested_height) current (Some "Requested height is below retention floor")).

Definition resolve_height (requested : option u32) : Rpc u32 :=
  let& synced := synced_height in
  match synced with
  | None => rerr (Business ERR_HEIGHT_NOT_SYNCED "HEIGHT_NOT_SYNCED"
                    [("requested_height", json_option requested); ("synced_height", JsonNull)])
  | Some synced_height =>
      let resolved := default synced_height requested in
      if resolved >? synced_height
      then rerr (Business ERR_HEIGHT_NOT_SYNCED "HEIGHT_NOT_SYNCED"
                   [("requested_height", JsonNumber resolved); ("synced_height", JsonNumber synced_height)])
      else rret resolved
  end.

Definition resolve_height_with_consensus_error (requested : option u32) : Rpc u32 :=
  let& snapshot := upstream_snapshot_info in
  let& current := current_state_of snapshot in
  let& synced := synced_height in
  match synced with
  | None => refuse HeightNotSynced
              (pass_error_data requested current (Some "No durable synced height available"))
  | Some synced_height =>
      let resolved := default synced_height requested in
      if resolved >? synced_height
      then refuse HeightNotSynced
             (pass_error_data (Some resolved) current (Some "Requested height is above current synced height"))
      else rret resolved
  end.

Definition resolve_height_range (from_height to_height : u32) : Rpc u32 :=
  let& resolved_to := resolve_height (Some to_height) in
  if from_height >? resolved_to
  then rerr (Business ERR_INVALID_HEIGHT_RANGE "INVALID_HEIGHT_RANGE"
               [("from_height", JsonNumber from_height); ("to_height", JsonNumber to_height);
                ("resolved_to_height", JsonNumber resolved_to)])
  else rret resolved_to.

(** ** Current state *)

Definition require_upstream_snapshot_info : Rpc IndexerSnapshotInfo :=
  let& snapshot := upstream_snapshot_info in
  match snapshot with
  | Some snapshot => rret snapshot
  | None => refuse SnapshotNotReady
              (pass_error_data None (None, None, None)
                 (Some "No adopted upstream snapshot anchor available"))
  end.
Definition require_local_state_commit_info : Rpc LocalStateCommitInfo :=
  let& snapshot := require_upstream_snapshot_info in build_local_state_commit_info_from_snapshot snapshot.
Definition require_system_state_info : Rpc SystemStateInfo :=
  let& local_state := require_local_state_commit_info in
  rret (build_system_state_info_from_local_state local_state).

(** ** Historical state references *)

Definition upstream_snapshot_info_at_height (block_height : u32) : Rpc IndexerSnapshotInfo :=
  let& _ := ensure_history_height_retained block_height in
  let& anchor := storage (get_balance_history_snapshot_anchor_at_height block_height) in
  match anchor with
  | Some anchor => rret (indexer_snapshot_info cfg_network block_height anchor)
  | None =>
      let& current := current_state_or_none in
      refuse HistoryNotAvailable
        (pass_error_data (Some block_height) current
           (Some "Missing balance-history snapshot history while building historical state ref"))
  end.

(** [build_local_state_commit_info_at_height] without the consistency check of the current state. *)
Definition build_local_state_commit_info_at_height (snapshot : IndexerSnapshotInfo) :
    Rpc LocalStateCommitInfo :=
  let synced_height := is_local_synced_block_height snapshot in
  let& commit := storage (get_latest_pass_block_commit_at_or_before synced_height) in
  let& balance :=
    if synced_height <? cfg_genesis_block_height then rret None
    else
      let& _ := ensure_history_height_retained synced_height in
      let& o := storage (get_active_balance_snapshot synced_height) in
      match o with
      | Some balance => rret (Some (active_balance_identity balance))
      | None =>
          let& current_snapshot := pure (attempt upstream_snapshot_info) in
          let& current := current_state_of (mjoin current_snapshot) in
          refuse HistoryNotAvailable
            (pass_error_data (Some synced_height) current
               (Some "Missing active balance snapshot while building historical local state commit"))
      end in
  rret (local_state_commit_info_of synced_height (is_snapshot_id snapshot)
          (pass_commit_identity <$> commit) balance).

Definition historical_state_ref (block_height : u32) (snapshot_info : IndexerSnapshotInfo)
    (local_state : LocalStateCommitInfo) : HistoricalStateRefInfo :=
  {| hr_block_height := block_height; hr_snapshot_info := snapshot_info;
     hr_local_state_commit_info := local_state;
     hr_system_state_info := build_system_state_info_from_local_state local_state |}.
Definition build_historical_state_ref_info (block_height : u32) : Rpc HistoricalStateRefInfo :=
  let& snapshot_info := upstream_snapshot_info_at_height block_height in
  let& local_state := build_local_state_commit_info_at_height snapshot_info in
  rret (historical_state_ref block_height snapshot_info local_state).

(** One pinned selector against the value of the state reference. *)
Definition expect_selector {A} `{EqDecision A} (code : ConsensusRpcErrorCode) (block_height : u32)
    (expected_state actual_state : ConsensusStateReference) (detail : string) (expected : option A)
    (actual : A) : Rpc unit :=
  match expected with
  | Some expected =>
      if bool_decide (expected = actual) then rret tt
      else refuse code
             (pass_error_data_for_state (Some block_height) expected_state actual_state (Some detail))
  | None => rret tt
  end.
Definition validate_pass_state_ref (block_height : u32) (state_ref : HistoricalStateRefInfo)
    (expected_state : ConsensusStateReference) : Rpc unit :=
  if is_empty expected_state then rret tt
  else
    let actual_state := reference_of_historical_state_ref state_ref in
    let snapshot := hr_snapshot_info state_ref in
    let expect {A} `{EqDecision A} code detail (expected : option A) actual :=
      expect_selector code block_height expected_state actual_state detail expected actual in
    let& _ := expect SnapshotIdMismatch "Expected historical snapshot_id"
                (rf_snapshot_id expected_state) (is_snapshot_id snapshot) in
    let& _ := expect SnapshotIdMismatch "Expected historical stable height"
                (rf_stable_height expected_state) (is_balance_history_stable_height snapshot) in
    let& _ := expect BlockHashMismatch "Expected historical stable block hash"
                (rf_stable_block_hash expected_state) (is_stable_block_hash snapshot) in
    let& _ := expect VersionMismatch "Expected balance-history API version"
                (rf_balance_history_api_version expected_state)
                (cs_balance_history_api_version (is_consensus_identity snapshot)) in
    let& _ := expect VersionMismatch "Expected balance-history semantics version"
                (rf_balance_history_semantics_version expected_state)
                (cs_balance_history_semantics_version (is_consensus_identity snapshot)) in
    let& _ := expect VersionMismatch "Expected usdb-index protocol version"
                (rf_usdb_index_protocol_version expected_state) USDB_INDEX_PROTOCOL_VERSION in
    let& _ := expect LocalStateCommitMismatch "Expected local_state_commit"
                (rf_local_state_commit expected_state)
                (li_local_state_commit (hr_local_state_commit_info state_ref)) in
    expect SystemStateIdMismatch "Expected system_state_id"
      (rf_system_state_id expected_state) (st_system_state_id (hr_system_state_info state_ref)).

(** ** Contextual queries *)

Definition validate_pass_query_context (block_height : u32) (context : option ConsensusQueryContext) :
    Rpc ConsensusStateReference :=
  match context with
  | None => rret default_reference
  | Some context =>
      if match cx_requested_height context with
         | Some requested_height => negb (requested_height =? block_height)
         | None => false
         end
      then rerr (BadParams "ConsensusQueryContext.requested_height does not match block_height")
      else rret (cx_expected_state context)
  end.

Definition ensure_consensus_query_ready (requested_height : option u32) : Rpc unit :=
  let& readiness := readiness_info in
  if negb (pi_rpc_alive readiness) || pi_consensus_ready readiness then rret tt
  else
    let& current := current_state_or_none in
    refuse SnapshotNotReady
      (pass_error_data requested_height current (Some "requires consensus_ready=true")).

Definition context_height (context : option ConsensusQueryContext) : option u32 :=
  context ≫= cx_requested_height.
Definition or_height (a b : option u32) : option u32 := match a with Some _ => a | None => b end.
Definition resolve_height_for_contextual_query (requested_height : option u32)
    (context : option ConsensusQueryContext) : Rpc u32 :=
  if match context_height context, requested_height with
     | Some context_requested_height, Some explicit_height =>
         negb (explicit_height =? context_requested_height)
     | _, _ => false
     end
  then rerr (BadParams "Query height does not match ConsensusQueryContext.requested_height")
  else
    let effective := or_height requested_height (context_height context) in
    match context with
    | None => resolve_height effective
    | Some context =>
        let& _ := ensure_consensus_query_ready effective in
        let& resolved_height := resolve_height_with_consensus_error effective in
        if is_empty (cx_expected_state context) then rret resolved_height
        else
          let& state_ref := build_historical_state_ref_info resolved_height in
          let& _ := validate_pass_state_ref resolved_height state_ref (cx_expected_state context) in
          rret resolved_height
    end.

(** ** Parameters *)

Definition parse_inscription_id (value : string) : Rpc InscriptionId :=
  match rpc_inscription_id_from_str value with
  | Some i => rret i
  | None => rerr (BadParams "Invalid inscription_id")
  end.
Definition parse_owner (value : string) : Rpc USDBScriptHash :=
  match parse_script_hash_any value with
  | Ok o => rret o
  | _ => rerr (BadParams "Invalid owner")
  end.
Definition pagination_error (p : PageParams) (more : list (string * JsonScalar)) : RpcError :=
  Business ERR_INVALID_PAGINATION "INVALID_PAGINATION"
    ([("page", JsonNumber (pp_page p)); ("page_size", JsonNumber (pp_page_size p))] ++ more).
Definition validate_pagination (p : PageParams) : Rpc unit :=
  if (pp_page_size p =? 0) || (pp_page_size p >? MAX_RPC_PAGE_SIZE)
     || is_none (usize_checked_mul (pp_page p) (pp_page_size p))
  then rerr (pagination_error p [("max_page_size", JsonNumber MAX_RPC_PAGE_SIZE)])
  else rret tt.
Definition pagination_offset (p : PageParams) : Rpc Z :=
  match usize_checked_mul (pp_page p) (pp_page_size p) with
  | Some offset => rret offset
  | None => rerr (pagination_error p [])
  end.
Definition parse_leaderboard_scope (value : option string) : Rpc PassEnergyLeaderboardScope :=
  let normalized := to_lowercase (trim (default "active" value)) in
  if String.eqb normalized "active" then rret ScopeActive
  else if String.eqb normalized "active_dormant" then rret ScopeActiveDormant
  else if String.eqb normalized "all" then rret ScopeAll
  else rerr (BadParams "Invalid leaderboard scope, expected active, active_dormant, or all").
Definition parse_pass_state (states : list MinerPassState) (value : string) : Rpc (list MinerPassState) :=
  let normalized := trim value in
  if String.eqb normalized "" then rret states
  else match MinerPassState_from_str normalized with
       | Ok state => rret (if bool_decide (state ∈ states) then states else states ++ [state])
       | _ => rerr (BadParams "Invalid pass state")
       end.
Fixpoint parse_pass_states (states : list MinerPassState) (values : list string) : Rpc (list MinerPassState) :=
  match values with
  | [] => rret states
  | value :: values => let& states := parse_pass_state states value in parse_pass_states states values
  end.
Definition parse_optional_pass_states (values : option (list string)) : Rpc (list MinerPassState) :=
  match values with None => rret [] | Some values => parse_pass_states [] values end.
Definition parse_order_desc (value : option string) : Rpc bool :=
  let normalized := to_lowercase (trim (default "desc" value)) in
  if String.eqb normalized "desc" then rret true
  else if String.eqb normalized "asc" then rret false
  else rerr (BadParams "Invalid order, expected asc or desc").
(** The order of a history or an energy range, compared as it is written. *)
Definition parse_range_order (value : option string) : Rpc bool :=
  let order := default "asc" value in
  if String.eqb order "asc" then rret false
  else if String.eqb order "desc" then rret true
  else rerr (BadParams "Invalid order, expected asc or desc").

(** ** Snapshots of a pass *)

Definition pass_snapshot (pass : MinerPassInfo) (history : MinerPassHistoryInfo) (resolved_height : u32) :
    PassSnapshot :=
  {| px_inscription_id := inscription_id_to_string (inscription_id pass);
     px_inscription_number := inscription_number pass; px_mint_txid := reversed_hex (mint_txid pass);
     px_mint_block_height := mint_block_height pass;
     px_mint_owner := Pass.script_hash_to_string (mint_owner pass); px_eth_main := eth_main pass;
     px_eth_collab := eth_collab pass; px_prev := inscription_id_to_string <$> prev pass;
     px_invalid_code := invalid_code pass; px_invalid_reason := invalid_reason pass;
     px_owner := Pass.script_hash_to_string (mh_owner history); px_state := as_str (mh_state history);
     px_satpoint := satpoint_to_string (mh_satpoint history); px_last_event_id := mh_event_id history;
     px_last_event_type := mh_event_type history; px_resolved_height := resolved_height |}.
Definition build_pass_snapshot (i : InscriptionId) (resolved_height : u32) : Rpc (option PassSnapshot) :=
  let& pass := storage (get_pass_by_inscription_id i) in
  match pass with
  | None => rret None
  | Some pass =>
      let& history := storage (get_last_pass_history_at_or_before_height i resolved_height) in
      rret ((λ history, pass_snapshot pass history resolved_height) <$> history)
  end.

(** ** The leaderboard *)

Fixpoint load_dataset_pages (resolved_height : u32) (states : list MinerPassState) (pages : list Z) :
    Rpc (list ActiveMinerPassInfo) :=
  match pages with
  | [] => rret []
  | page :: pages =>
      let& page_rows :=
        storage (get_passes_by_page_from_history_at_height_by_states page
                   (Z.max 1 cfg_active_address_page_size) resolved_height states) in
      match page_rows with
      | [] => rret []
      | _ => let& rows := load_dataset_pages resolved_height states pages in rret (page_rows ++ rows)
      end
  end.

Definition leaderboard_item (row : ActiveMinerPassInfo) (record : PassEnergyRecord) (resolved_height : u32) :
    PassEnergyLeaderboardItem :=
  let projected := project_energy_record_no_balance_change record resolved_height in
  {| lb_inscription_id := inscription_id_to_string (ap_inscription_id row);
     lb_owner := Pass.script_hash_to_string (ap_owner row); lb_record_block_height := er_block_height record;
     lb_state := as_str (res_state projected); lb_energy := energy projected |}.
Fixpoint rank_rows (resolved_height : u32) (rows : list ActiveMinerPassInfo) :
    Rpc (list PassEnergyLeaderboardItem) :=
  match rows with
  | [] => rret []
  | row :: rows =>
      let& record := energy_manager
        (get_pass_energy_record_at_or_before (ap_inscription_id row) resolved_height) in
      let& ranked := rank_rows resolved_height rows in
      rret (match record with
            | Some record => leaderboard_item row record resolved_height :: ranked
            | None => ranked
            end)
  end.

(** The order of [sort_by]: energy and record height descending, then the text of the id. *)
Definition rank_before (a b : PassEnergyLeaderboardItem) : bool :=
  match Z.compare (lb_energy b) (lb_energy a) with
  | Lt => true
  | Gt => false
  | Eq => match Z.compare (lb_record_block_height b) (lb_record_block_height a) with
          | Lt => true
          | Gt => false
          | Eq => bytes_le (as_bytes (lb_inscription_id a)) (as_bytes (lb_inscription_id b))
          end
  end.
Definition ranks_before (a b : PassEnergyLeaderboardItem) : Prop := rank_before a b = true.
Definition ranks_before_dec a b : Decision (ranks_before a b) := bool_eq_dec (rank_before a b) true.
Definition sort_leaderboard (items : list PassEnergyLeaderboardItem) : list PassEnergyLeaderboardItem :=
  @merge_sort _ ranks_before ranks_before_dec items.

Definition build_pass_energy_leaderboard_dataset (resolved_height : u32) (scope : PassEnergyLeaderboardScope) :
    Rpc (u64 * list PassEnergyLeaderboardItem) :=
  let states := scope_states scope in
  let& total_passes := storage (get_pass_count_from_history_at_height_by_states resolved_height states) in
  if total_passes =? 0 then rret (0, [])
  else
    let load_page_size := Z.max 1 cfg_active_address_page_size in
    let total_pages := u64_add (total_passes + load_page_size) (-1) / load_page_size in
    let& rows := load_dataset_pages resolved_height states (seqZ 0 total_pages) in
    let& ranked := rank_rows resolved_height rows in
    let ranked := sort_leaderboard ranked in
    rret (count ranked, ranked).

Definition top_k : Z := Z.max 1 cfg_leaderboard_cache_top_k.
Definition leaderboard_page (resolved_height : u32) (total : u64) (items : list PassEnergyLeaderboardItem) :
    Page PassEnergyLeaderboardItem :=
  {| pg_resolved_height := resolved_height; pg_total := total; pg_items := items |}.
Definition paginate_leaderboard_items (items : list PassEnergyLeaderboardItem) (total : u64) (p : PageParams) :
    Rpc (list PassEnergyLeaderboardItem) :=
  let& offset := pagination_offset p in
  if (offset >=? total) || (offset >=? count items) then rret []
  else
    let last := Z.min (Z.min U64_MAX (offset + pp_page_size p)) (count items) in
    rret (take (Z.to_nat (last - offset)) (drop (Z.to_nat offset) items)).

Definition try_get_cached_leaderboard_page (resolved_height : u32) (scope : PassEnergyLeaderboardScope)
    (p : PageParams) : Rpc (option (Page PassEnergyLeaderboardItem)) :=
  let& offset := pagination_offset p in
  let& entry := pure cached_entry in
  match entry with
  | None => rret None
  | Some entry =>
      if negb (ce_resolved_height entry =? resolved_height)
         || negb (String.eqb (ce_scope entry) (scope_as_str scope)) || negb (ce_top_k entry =? top_k)
      then rret None
      else if (offset >=? top_k) || (offset >=? ce_total entry) || (offset >=? count (ce_items entry))
      then rret (Some (leaderboard_page resolved_height (ce_total entry) []))
      else
        let& items := paginate_leaderboard_items (ce_items entry) (ce_total entry) p in
        rret (Some (leaderboard_page resolved_height (ce_total entry) items))
  end.
Definition update_leaderboard_cache (resolved_height : u32) (scope : PassEnergyLeaderboardScope) (total : u64)
    (ranked : list PassEnergyLeaderboardItem) : Rpc unit :=
  pure (set_cached_entry {| ce_resolved_height := resolved_height; ce_scope := scope_as_str scope;
                            ce_top_k := top_k; ce_total := total;
                            ce_items := take (Z.to_nat top_k) ranked |}).

Definition get_pass_energy_leaderboard (params : GetPassEnergyLeaderboardParams) :
    Rpc (Page PassEnergyLeaderboardItem) :=
  let p := gl_page params in
  let& _ := validate_pagination p in
  let& resolved_height := resolve_height (gl_at_height params) in
  let& scope := parse_leaderboard_scope (gl_scope params) in
  let& offset := pagination_offset p in
  let should_use_cache := cfg_leaderboard_cache_enabled && is_none (gl_at_height params) in
  let& cached := if should_use_cache then try_get_cached_leaderboard_page resolved_height scope p
                 else rret None in
  match cached with
  | Some page => rret page
  | None =>
      if offset >=? top_k then rret (leaderboard_page resolved_height top_k [])
      else
        let& (raw_total, ranked) := build_pass_energy_leaderboard_dataset resolved_height scope in
        let capped_total := Z.min raw_total top_k in
        let capped_ranked := take (Z.to_nat capped_total) ranked in
        let& items := paginate_leaderboard_items capped_ranked capped_total p in
        let& _ := if should_use_cache
                  then update_leaderboard_cache resolved_height scope capped_total capped_ranked
                  else rret tt in
        rret (leaderboard_page resolved_height capped_total items)
  end.

(** ** Handlers *)

Definition get_rpc_info : Rpc RpcInfo :=
  rret {| ri_service := "usdb-indexer"; ri_api_version := "1.0.0"; ri_network := cfg_network;
          ri_features := ["snapshot_info"; "pass_block_commit"; "local_state_commit_info";
            "system_state_info"; "readiness"; "pass_snapshot"; "pass_history"; "active_passes_at_height";
            "pass_stats_at_height"; "owner_active_pass_at_height"; "owner_passes_at_height";
            "recent_passes"; "energy_snapshot"; "energy_range"; "pass_energy_leaderboard";
            "invalid_passes"; "active_balance_snapshot"; "latest_active_balance_snapshot"; "stop"] |}.
Definition get_network_type : Rpc string := rret cfg_network.
Definition get_sync_status : Rpc IndexerSyncStatus :=
  let& status := watch (λ m, get_index_status_snapshot (mo_status m)) in
  let& synced_block_height := synced_height in
  rret {| iy_genesis_block_height := sy_genesis_block_height status;
          iy_synced_block_height := synced_block_height;
          iy_balance_history_stable_height := sy_balance_history_stable_height status;
          iy_current := sy_current status; iy_total := sy_total status; iy_message := sy_message status |}.
Definition get_synced_block_height : Rpc (option u64) := synced_height.
Definition get_snapshot_info : Rpc (option IndexerSnapshotInfo) :=
  let& snapshot := require_upstream_snapshot_info in rret (Some snapshot).
(** [PassBlockCommitInfo] has the fields of the stored entry. *)
Definition get_pass_block_commit_info (block_height : option u32) : Rpc (option StoredPassBlockCommitEntry) :=
  let& resolved_height := resolve_height block_height in
  storage (get_pass_block_commit resolved_height).
Definition get_local_state_commit_info : Rpc (option LocalStateCommitInfo) :=
  let& local_state := require_local_state_commit_info in rret (Some local_state).
Definition get_system_state_info : Rpc (option SystemStateInfo) :=
  let& system_state := require_system_state_info in rret (Some system_state).
Definition get_state_ref_at_height (params : PassStateRefParams) : Rpc HistoricalStateRefInfo :=
  let& expected_state := validate_pass_query_context (ps_block_height params) (ps_context params) in
  let& _ := ensure_consensus_query_ready (Some (ps_block_height params)) in
  let& requested_height := resolve_height_with_consensus_error (Some (ps_block_height params)) in
  let& state_ref := build_historical_state_ref_info requested_height in
  let& _ := validate_pass_state_ref requested_height state_ref expected_state in
  rret state_ref.
Definition get_readiness : Rpc PassReadinessInfo := readiness_info.
Definition get_pass_snapshot (params : GetPassSnapshotParams) : Rpc (option PassSnapshot) :=
  let& i := parse_inscription_id (gs_inscription_id params) in
  let& resolved_height := resolve_height_for_contextual_query (gs_at_height params) (gs_context params) in
  let& _ := ensure_history_height_retained resolved_height in
  build_pass_snapshot i resolved_height.

Definition page_of {A B} (f : A → B) (resolved_height : u32) (total : u64) (rows : list A) : Page B :=
  {| pg_resolved_height := resolved_height; pg_total := total; pg_items := f <$> rows |}.
Definition active_pass_item (row : ActiveMinerPassInfo) : ActivePassItem :=
  {| ai_inscription_id := inscription_id_to_string (ap_inscription_id row);
     ai_owner := Pass.script_hash_to_string (ap_owner row) |}.
Definition get_active_passes_at_height (params : GetActivePassesAtHeightParams) : Rpc (Page ActivePassItem) :=
  let p := ga_page params in
  let& _ := validate_pagination p in
  let& resolved_height := resolve_height (ga_at_height params) in
  let& total := storage (get_active_pass_count_from_history_at_height resolved_height) in
  let& rows := storage (get_all_active_pass_by_page_from_history_at_height (pp_page p) (pp_page_size p)
                          resolved_height) in
  rret (page_of active_pass_item resolved_height total rows).
Definition get_pass_stats_at_height (at_height : option u32) : Rpc PassStatsAtHeight :=
  let& resolved_height := resolve_height at_height in
  let& stats := storage (get_pass_state_stats_from_history_at_height resolved_height) in
  rret {| pt_resolved_height := resolved_height; pt_stats := stats |}.

Definition pass_history_event (e : MinerPassHistoryInfo) : PassHistoryEvent :=
  {| pe_event_id := mh_event_id e; pe_inscription_id := inscription_id_to_string (mh_inscription_id e);
     pe_block_height := mh_block_height e; pe_event_type := mh_event_type e; pe_state := as_str (mh_state e);
     pe_owner := Pass.script_hash_to_string (mh_owner e); pe_satpoint := satpoint_to_string (mh_satpoint e) |}.
Definition get_pass_history (params : GetPassHistoryParams) : Rpc (Page PassHistoryEvent) :=
  let p := gh_page params in
  let& _ := validate_pagination p in
  let& i := parse_inscription_id (gh_inscription_id params) in
  let& to_height := resolve_height_range (gh_from_height params) (gh_to_height params) in
  let& total := storage (get_pass_history_count_in_height_range i (gh_from_height params) to_height) in
  let& desc := parse_range_order (gh_order params) in
  let& items := storage (get_pass_history_by_page_in_height_range i (gh_from_height params) to_height
                           (pp_page p) (pp_page_size p) desc) in
  rret (page_of pass_history_event to_height total items).

(** [.map_err(|e| ..)] of an access. *)
Definition map_internal {A} (f : string → RpcError) (m : Rpc A) : Rpc A :=
  let! r := m in ret (match r with inl (Internal e) => inl (f e) | _ => r end).
Definition get_owner_active_pass_at_height (params : GetOwnerActivePassAtHeightParams) :
    Rpc (option PassSnapshot) :=
  let& o := parse_owner (go_owner params) in
  let& resolved_height := resolve_height (go_at_height params) in
  let& active_pass :=
    map_internal (λ e,
      match String.index 0 "Duplicate active owner detected" e with
      | Some _ => Business ERR_DUPLICATE_ACTIVE_OWNER "DUPLICATE_ACTIVE_OWNER"
                    [("owner", JsonText (go_owner params)); ("resolved_height", JsonNumber resolved_height)]
      | None => Internal e
      end) (storage (get_owner_active_pass_from_history_at_height o resolved_height)) in
  match active_pass with
  | None => rret None
  | Some active_pass =>
      let& snapshot := build_pass_snapshot (ap_inscription_id active_pass) resolved_height in
      match snapshot with
      | Some snapshot => rret (Some snapshot)
      | None => rerr (Business ERR_INTERNAL_INVARIANT_BROKEN "INTERNAL_INVARIANT_BROKEN"
                        [("owner", JsonText (go_owner params));
                         ("resolved_height", JsonNumber resolved_height);
                         ("inscription_id",
                          JsonText (inscription_id_to_string (ap_inscription_id active_pass)))])
      end
  end.

Definition owner_pass_item (row : MinerPassSnapshotInfo) : OwnerPassItem :=
  let pass := sn_pass row in
  {| oi_inscription_id := inscription_id_to_string (inscription_id pass);
     oi_inscription_number := inscription_number pass; oi_mint_block_height := mint_block_height pass;
     oi_owner := Pass.script_hash_to_string (owner pass); oi_state := as_str (state pass);
     oi_latest_event_height := sn_latest_event_height row; oi_eth_main := eth_main pass;
     oi_eth_collab := eth_collab pass; oi_satpoint := satpoint_to_string (satpoint pass) |}.
(** [OwnerPassesAtHeight], with its owner. *)
Definition get_owner_passes_at_height (params : GetOwnerPassesAtHeightParams) :
    Rpc (string * Page OwnerPassItem) :=
  let p := gw_page params in
  let& _ := validate_pagination p in
  let& o := parse_owner (gw_owner params) in
  let& resolved_height := resolve_height (gw_at_height params) in
  let& states := parse_optional_pass_states (gw_states params) in
  let& desc := parse_order_desc (gw_order params) in
  let& total := storage (get_owner_pass_count_from_history_at_height_by_states o resolved_height states) in
  let& rows := storage (get_owner_passes_by_page_from_history_at_height_by_states o resolved_height states
                          (pp_page p) (pp_page_size p) desc) in
  rret (Pass.script_hash_to_string o, page_of owner_pass_item resolved_height total rows).
Definition get_recent_passes (params : GetRecentPassesParams) : Rpc (Page OwnerPassItem) :=
  let p := gc_page params in
  let& _ := validate_pagination p in
  let& resolved_height := resolve_height (gc_at_height params) in
  let& states := parse_optional_pass_states (gc_states params) in
  let& desc := parse_order_desc (gc_order params) in
  let& total := storage (get_recent_pass_count_from_history_at_height_by_states resolved_height states) in
  let& rows := storage (get_recent_passes_by_page_from_history_at_height_by_states resolved_height states
                          (pp_page p) (pp_page_size p) desc) in
  rret (page_of owner_pass_item resolved_height total rows).

Definition energy_snapshot (record : PassEnergyRecord) (query_height : u32) (effective : PassEnergyResult) :
    PassEnergySnapshot :=
  {| ph_inscription_id := inscription_id_to_string (er_inscription_id record);
     ph_query_block_height := query_height; ph_record_block_height := er_block_height record;
     ph_state := as_str (res_state effective); ph_active_block_height := er_active_block_height record;
     ph_owner_address := Pass.script_hash_to_string (er_owner_address record);
     ph_owner_balance := er_owner_balance record; ph_owner_delta := er_owner_delta record;
     ph_energy := energy effective |}.
Definition rpc_get_pass_energy (params : GetPassEnergyParams) : Rpc PassEnergySnapshot :=
  let& i := parse_inscription_id (ge_inscription_id params) in
  let& query_height := resolve_height_for_contextual_query (ge_block_height params) (ge_context params) in
  let& _ := ensure_history_height_retained query_height in
  let mode := default "at_or_before" (ge_mode params) in
  let& record :=
    if String.eqb mode "exact" then energy_manager (get_pass_energy_record_exact i query_height)
    else if String.eqb mode "at_or_before"
    then energy_manager (get_pass_energy_record_at_or_before i query_height)
    else rerr (BadParams "Invalid energy mode, expected exact or at_or_before") in
  match record with
  | None => rerr (Business ERR_ENERGY_NOT_FOUND "ENERGY_NOT_FOUND"
                    [("inscription_id", JsonText (ge_inscription_id params));
                     ("query_block_height", JsonNumber query_height); ("mode", JsonText mode)])
  | Some record =>
      let effective :=
        if String.eqb mode "exact" then {| energy := er_energy record; res_state := er_state record |}
        else project_energy_record_no_balance_change record query_height in
      rret (energy_snapshot record query_height effective)
  end.

Definition energy_range_item (record : PassEnergyRecord) : PassEnergyRangeItem :=
  {| gr_inscription_id := inscription_id_to_string (er_inscription_id record);
     gr_record_block_height := er_block_height record; gr_state := as_str (er_state record);
     gr_active_block_height := er_active_block_height record;
     gr_owner_address := Pass.script_hash_to_string (er_owner_address record);
     gr_owner_balance := er_owner_balance record; gr_owner_delta := er_owner_delta record;
     gr_energy := er_energy record |}.
Definition get_pass_energy_range (params : GetPassEnergyRangeParams) : Rpc (Page PassEnergyRangeItem) :=
  let p := gn_page params in
  let& _ := validate_pagination p in
  let& i := parse_inscription_id (gn_inscription_id params) in
  let& to_height := resolve_height_range (gn_from_height params) (gn_to_height params) in
  let& total := energy_manager (λ db,
    (count_pass_energy_records_in_height_range i (gn_from_height params) to_height db, db)) in
  let& desc := parse_range_order (gn_order params) in
  let& records := energy_manager (λ db,
    (get_pass_energy_records_with_order i (gn_from_height params) to_height (pp_page p) (pp_page_size p)
       desc db, db)) in
  rret (page_of energy_range_item to_height total records).

Definition invalid_pass_item (item : MinerPassInfo) : InvalidPassItem :=
  {| iv_inscription_id := inscription_id_to_string (inscription_id item);
     iv_inscription_number := inscription_number item; iv_mint_txid := reversed_hex (mint_txid item);
     iv_mint_block_height := mint_block_height item;
     iv_mint_owner := Pass.script_hash_to_string (mint_owner item); iv_eth_main := eth_main item;
     iv_eth_collab := eth_collab item; iv_prev := inscription_id_to_string <$> prev item;
     iv_invalid_code := invalid_code item; iv_invalid_reason := invalid_reason item;
     iv_owner := Pass.script_hash_to_string (owner item); iv_state := as_str (state item);
     iv_satpoint := satpoint_to_string (satpoint item) |}.
Definition get_invalid_passes (params : GetInvalidPassesParams) : Rpc (Page InvalidPassItem) :=
  let p := gi_page params in
  let& _ := validate_pagination p in
  let& to_height := resolve_height_range (gi_from_height params) (gi_to_height params) in
  let& total := storage (get_invalid_pass_count_in_height_range (gi_from_height params) to_height
                           (gi_error_code params)) in
  let& rows := storage (get_invalid_passes_by_page_in_height_range (gi_from_height params) to_height
                          (gi_error_code params) (pp_page p) (pp_page_size p)) in
  rret (page_of invalid_pass_item to_height total rows).

(** [RpcActiveBalanceSnapshot] has the fields of the stored snapshot. *)
Definition rpc_get_active_balance_snapshot (block_height : u32) : Rpc ActiveBalanceSnapshot :=
  let& upstream_snapshot := upstream_snapshot_info in
  let& current := current_state_of upstream_snapshot in
  let& requested_height := resolve_height_with_consensus_error (Some block_height) in
  let& snapshot := storage (get_active_balance_snapshot requested_height) in
  match snapshot with
  | Some snapshot => rret snapshot
  | None => refuse NoRecord
              (pass_error_data (Some requested_height) current
                 (Some "No active balance snapshot recorded at exact height"))
  end.
Definition rpc_get_latest_active_balance_snapshot : Rpc (option ActiveBalanceSnapshot) :=
  storage get_latest_active_balance_snapshot.

(** [stop]; [receiver] tells whether the shutdown channel has a receiver, the server handle is not
    modelled. *)
Definition stop_service (receiver : bool) : Rpc unit :=
  let& _ := pure (write_status (set_pass_shutdown_requested true)) in
  if receiver then rret tt else rerr (Internal "Failed to send shutdown signal").
End PassServer.
