(* ===== verification/PassAsOf.v ===== *)
(** * Answers at a height

    A request about a height that the indexer has passed reads the stores several times while the
    indexer goes on.  Here: whatever it adds meanwhile, the answer is the one that the stores gave when
    that height was the last, because every handler reads only what later blocks leave untouched
    ([undoable] of the pass ledger, and the energy records at or below the height). *)

From S2P Require Import Prelude Encoding Types EnergyFormula EnergyStorage Energy PassStorage PassLedger.
From S2P Require Import Pass Tx BalanceBlock StateIds BalanceService BalanceServer PassService PassServer.

(** ** Sorting related lists *)

Section Related.
Context {A B} (R : A → B → Prop) (le1 : A → A → Prop) (le2 : B → B → Prop).
Context `{D1 : ∀ x y, Decision (le1 x y)} `{D2 : ∀ x y, Decision (le2 x y)}.
Context (Hle : ∀ a b x y, R a x → R b y → le1 a b ↔ le2 x y).

Lemma list_merge_related l1 k1 : Forall2 R l1 k1 → ∀ l2 k2, Forall2 R l2 k2 →
  Forall2 R (list_merge le1 l1 l2) (list_merge le2 k1 k2).
Proof.
  induction 1 as [|a x l1 k1 Ha Hl IH]; intros l2 k2 H2; [by rewrite !list_merge_nil_l|].
  induction H2 as [|b y l2 k2 Hb Hl2 IH2]; [rewrite !list_merge_nil_r; by constructor|].
  rewrite !list_merge_cons. pose proof (Hle _ _ _ _ Ha Hb).
  repeat case_decide; try tauto; constructor; auto.
Qed.
Lemma merge_sort_related l k : Forall2 R l k → Forall2 R (merge_sort le1 l) (merge_sort le2 k).
Proof.
  assert (∀ st1 st2 l k, Forall2 (option_Forall2 (Forall2 R)) st1 st2 → Forall2 R l k →
    Forall2 (option_Forall2 (Forall2 R)) (merge_list_to_stack le1 st1 l) (merge_list_to_stack le2 st2 k)) as Hpush.
  { intros st1 st2 l' k' Hst. revert l' k'. induction Hst as [|? ? st1 st2 Ho Hst IH]; intros l' k' Hl; cbn.
    - constructor; [by constructor|constructor].
    - destruct Ho as [m n Hm|].
      + constructor; [constructor|]. apply IH. by apply list_merge_related.
      + constructor; [by constructor|done]. }
  assert (∀ st1 st2, Forall2 (option_Forall2 (Forall2 R)) st1 st2 →
    Forall2 R (merge_stack le1 st1) (merge_stack le2 st2)) as Hpop.
  { induction 1 as [|? ? st1 st2 Ho Hst IH]; cbn; [constructor|]. destruct Ho; [by apply list_merge_related|done]. }
  intros Hl. unfold merge_sort.
  assert (Forall2 (option_Forall2 (Forall2 R)) [] []) as Hst by constructor.
  revert Hst. generalize (@nil (option (list A))) (@nil (option (list B))). induction Hl as [|a x l k Ha Hl IH]; intros st1 st2 Hst; cbn.
  - by apply Hpop.
  - apply IH, Hpush; [done|]. by repeat constructor.
Qed.
End Related.

Lemma order_by_related {A B} (R : A → B → Prop) (key1 : A → list Z) (key2 : B → list Z) desc l k :
  (∀ a x, R a x → key1 a = key2 x) → Forall2 R l k → Forall2 R (order_by key1 desc l) (order_by key2 desc k).
Proof.
  intros Hk Hl. unfold order_by. destruct desc; apply merge_sort_related; try done;
    intros a b x y Hax Hby; unfold key_le, flip; by rewrite (Hk _ _ Hax), (Hk _ _ Hby).
Qed.
Lemma order_by_desc_unique {A} (key : A → list Z) l k :
  l ≡ₚ k → (∀ x y, x ∈ l → y ∈ l → key x = key y → x = y) → order_by key true l = order_by key true k.
Proof.
  intros P Hinj. apply (StronglySorted_unique_strong (flip (key_le key))); [|apply order_by_desc_sorted..|].
  - intros x y Hx Hy L1 L2. rewrite elem_of_order_by in Hx. rewrite elem_of_order_by, <-P in Hy.
    apply Hinj; [done..|]. by apply bytes_le_antisym.
  - by rewrite !order_by_Permutation.
Qed.
Lemma sql_page_related {A B} (R : A → B → Prop) page size l k :
  Forall2 R l k → Forall2 R (sql_page page size l) (sql_page page size k).
Proof.
  intros H. unfold sql_page, sql_limit_offset. destruct (_ <? 0); [by apply Forall2_drop|].
  by apply Forall2_take, Forall2_drop.
Qed.

(** ** What later blocks leave of the tables *)

Section Tables.
Context (T : u32) (t0 t : Tables) (L : ledger_ok T t0) (U : undoable T t0 t).

Lemma filter_below (P : PassHistoryRow → Prop) `{∀ r, Decision (P r)} :
  (∀ r, P r → h_block_height r <= T) → filter P (t_history t) = filter P (t_history t0).
Proof.
  intros HP. rewrite <-(ud_history _ _ _ U), list_filter_filter.
  apply filter_ext_in. intros r _. split; [intros Hr; split; [done|by apply HP]|tauto].
Qed.
Lemma latest_rows_below h : h <= T → latest_rows t h = latest_rows t0 h.
Proof.
  intros Hh. unfold latest_rows, max_id. rewrite <-filter_below by (intros r []; lia).
  apply filter_ext_in. intros r _. rewrite filter_below; [done|]. intros r' []. lia.
Qed.
(** The pass of a row of the log at [T]. *)
Lemma row_pass r : r ∈ t_history t0 →
  ∃ p p0, t_passes t !! h_inscription_id r = Some p ∧ t_passes t0 !! h_inscription_id r = Some p0
    ∧ static p = static p0.
Proof.
  intros Hr. destruct (lk_event _ _ L r Hr) as (p0 & Hp0 & _).
  destruct (ud_kept _ _ _ U _ _ Hp0) as (p & Hp & Hs). by exists p, p0.
Qed.
Definition same_row (a b : PassHistoryRow * MinerPassInfo) : Prop := a.1 = b.1 ∧ static a.2 = static b.2.
Lemma join_passes_below rows :
  (∀ r, r ∈ rows → r ∈ t_history t0) → Forall2 same_row (join_passes t rows) (join_passes t0 rows).
Proof.
  intros Hin. unfold join_passes. induction rows as [|r rows IH]; cbn; [constructor|].
  destruct (row_pass r) as (p & p0 & -> & -> & Hs); [apply Hin; by constructor|]. cbn.
  constructor; [done|]. apply IH. intros r' Hr'. apply Hin. by constructor.
Qed.
Lemma snapshot_info_below l k : Forall2 same_row l k → snapshot_info <$> l = snapshot_info <$> k.
Proof.
  induction 1 as [|a b l k [E1 E2] _ IH]; [done|]. rewrite !fmap_cons, IH. f_equal.
  unfold snapshot_info. rewrite E1. by rewrite (pass_at_row_static _ _ _ E2).
Qed.
Lemma opt_states_subseteq states rows r : r ∈ opt_states states rows → r ∈ rows.
Proof.
  unfold opt_states, rows_with_states. destruct (bool_decide _); [done|]. rewrite list_elem_of_filter. tauto.
Qed.
Lemma latest_rows_log h r : r ∈ latest_rows t0 h → r ∈ t_history t0.
Proof. unfold latest_rows. rewrite list_elem_of_filter. tauto. Qed.
End Tables.

(** ** The queries read the tables as they were at the height *)

Section Queries.
Context (T : u32) (t0 t : Tables) (L : ledger_ok T t0) (U : undoable T t0 t).

(** Closes a query that reads the rows of the log at a height at or below [T]. *)
Ltac by_rows H := unfold gets; cbn [fst]; by rewrite ?(latest_rows_below T t0 t U) by exact H.

Lemma count_by_states_below h states : h <= T →
  (get_pass_count_from_history_at_height_by_states h states t).1
  = (get_pass_count_from_history_at_height_by_states h states t0).1.
Proof.
  intros Hh. unfold get_pass_count_from_history_at_height_by_states. destruct (bool_decide _); [done|by_rows Hh].
Qed.
Lemma page_by_states_below page size h states : h <= T →
  (get_passes_by_page_from_history_at_height_by_states page size h states t).1
  = (get_passes_by_page_from_history_at_height_by_states page size h states t0).1.
Proof.
  intros Hh. unfold get_passes_by_page_from_history_at_height_by_states.
  destruct (bool_decide _); [done|by_rows Hh].
Qed.
Lemma stats_below h : h <= T →
  (get_pass_state_stats_from_history_at_height h t).1 = (get_pass_state_stats_from_history_at_height h t0).1.
Proof.
  intros Hh. unfold get_pass_state_stats_from_history_at_height, add_state_group. cbn [fst].
  by rewrite (latest_rows_below T t0 t U) by exact Hh.
Qed.
Lemma owner_active_below o h : h <= T →
  (get_owner_active_pass_from_history_at_height o h t).1
  = (get_owner_active_pass_from_history_at_height o h t0).1.
Proof.
  intros Hh. unfold get_owner_active_pass_from_history_at_height, gets, bind.
  rewrite (latest_rows_below T t0 t U) by exact Hh. by destruct (_ <? _)%nat.
Qed.
Lemma owner_count_below o h states : h <= T →
  (get_owner_pass_count_from_history_at_height_by_states o h states t).1
  = (get_owner_pass_count_from_history_at_height_by_states o h states t0).1.
Proof. intros Hh. unfold get_owner_pass_count_from_history_at_height_by_states. by_rows Hh. Qed.
Lemma row_key_below a b : same_row a b → row_order a.1 = row_order b.1.
Proof. by intros [-> _]. Qed.
Lemma owner_page_below o h states page size desc : h <= T →
  (get_owner_passes_by_page_from_history_at_height_by_states o h states page size desc t).1
  = (get_owner_passes_by_page_from_history_at_height_by_states o h states page size desc t0).1.
Proof.
  intros Hh. unfold get_owner_passes_by_page_from_history_at_height_by_states, gets. cbn [fst]. f_equal.
  rewrite (latest_rows_below T t0 t U) by exact Hh. apply snapshot_info_below, sql_page_related.
  apply (order_by_related same_row); [apply row_key_below|]. apply (join_passes_below T t0 t L U).
  intros r Hr%opt_states_subseteq. apply list_elem_of_filter in Hr as [_ Hr]. by eapply latest_rows_log.
Qed.
Lemma recent_join_below h states : h <= T →
  Forall2 same_row (join_passes t (opt_states states (latest_rows t h)))
    (join_passes t0 (opt_states states (latest_rows t0 h))).
Proof.
  intros Hh. rewrite (latest_rows_below T t0 t U) by exact Hh. apply (join_passes_below T t0 t L U).
  intros r Hr%opt_states_subseteq. by eapply latest_rows_log.
Qed.
Lemma recent_count_below h states : h <= T →
  (get_recent_pass_count_from_history_at_height_by_states h states t).1
  = (get_recent_pass_count_from_history_at_height_by_states h states t0).1.
Proof.
  intros Hh. unfold get_recent_pass_count_from_history_at_height_by_states, gets, count. cbn [fst].
  by rewrite (Forall2_length _ _ _ (recent_join_below h states Hh)).
Qed.
Lemma recent_page_below h states page size desc : h <= T →
  (get_recent_passes_by_page_from_history_at_height_by_states h states page size desc t).1
  = (get_recent_passes_by_page_from_history_at_height_by_states h states page size desc t0).1.
Proof.
  intros Hh. unfold get_recent_passes_by_page_from_history_at_height_by_states, gets. cbn [fst]. f_equal.
  apply snapshot_info_below, sql_page_related. apply (order_by_related same_row); [|by apply recent_join_below].
  intros a b [-> Hs]. pose proof (static_mint _ _ Hs) as ->.
  assert (inscription_number a.2 = inscription_number b.2) as -> by exact (f_equal inscription_number Hs). done.
Qed.
Lemma history_below i lo hi : hi <= T → history_in_range i lo hi t = history_in_range i lo hi t0.
Proof. intros Hh. apply (filter_below T t0 t U). intros r [_ ?]. lia. Qed.
Lemma history_page_below i lo hi page size desc : hi <= T →
  (get_pass_history_by_page_in_height_range i lo hi page size desc t).1
  = (get_pass_history_by_page_in_height_range i lo hi page size desc t0).1.
Proof.
  intros Hh. unfold get_pass_history_by_page_in_height_range. destruct (_ >? _); [done|].
  unfold gets. cbn [fst]. by rewrite history_below.
Qed.
Lemma history_count_below i lo hi : hi <= T →
  (get_pass_history_count_in_height_range i lo hi t).1
  = (get_pass_history_count_in_height_range i lo hi t0).1.
Proof.
  intros Hh. unfold get_pass_history_count_in_height_range. destruct (_ >? _); [done|].
  unfold gets. cbn [fst]. by rewrite history_below.
Qed.
Lemma last_history_below i h : h <= T →
  (get_last_pass_history_at_or_before_height i h t).1
  = (get_last_pass_history_at_or_before_height i h t0).1.
Proof.
  intros Hh. unfold get_last_pass_history_at_or_before_height, gets. cbn [fst].
  rewrite (filter_below T t0 t U); [done|]. intros r [_ ?]. lia.
Qed.
Lemma commit_at_below h : h <= T → (get_pass_block_commit h t).1 = (get_pass_block_commit h t0).1.
Proof. intros Hh. cbn. by rewrite (ud_commits _ _ _ U). Qed.
Lemma balance_at_below h : h <= T → (get_active_balance_snapshot h t).1 = (get_active_balance_snapshot h t0).1.
Proof.
  intros Hh. unfold get_active_balance_snapshot, gets, bind. rewrite (ud_balances _ _ _ U) by done.
  destruct (t_balances t0 !! h); [|done]. unfold lift. by destruct (row_to_active_balance_snapshot _).
Qed.
Lemma latest_commit_below h : h <= T →
  (get_latest_pass_block_commit_at_or_before h t).1 = (get_latest_pass_block_commit_at_or_before h t0).1.
Proof.
  intros Hh. cbn. do 3 f_equal. apply order_by_desc_unique.
  - apply NoDup_Permutation; [by apply NoDup_filter, NoDup_map_to_list..|].
    intros [k e]. rewrite !list_elem_of_filter, !elem_of_map_to_list. cbn. split; intros [Hk He];
      (split; [done|]); [rewrite <-(ud_commits _ _ _ U) by lia|rewrite (ud_commits _ _ _ U) by lia]; done.
  - intros [k1 e1] [k2 e2] [_ H1]%list_elem_of_filter [_ H2]%list_elem_of_filter E.
    apply elem_of_map_to_list in H1, H2. cbn in E. injection E as ->. congruence.
Qed.
Lemma anchor_at_below h : h <= T →
  (get_balance_history_snapshot_anchor_at_height h t).1 = (get_balance_history_snapshot_anchor_at_height h t0).1.
Proof. intros Hh. cbn. by rewrite (ud_anchors _ _ _ U). Qed.
End Queries.

(** ** The energy records at or below the height *)

Lemma sorted_NoDup {A} (R : A → A → Prop) l : StronglySorted R l → (∀ x, ¬ R x x) → NoDup l.
Proof.
  intros Hs Hirr. induction Hs as [|x l Hs IH Hx]; constructor; [|done].
  intros Hin. rewrite Forall_forall in Hx. by apply (Hirr x), Hx.
Qed.

Section EnergyBelow.
Context (T : u32) (e0 e : EnergyDb).
Context (Hcf : ∀ k, k.2 <= T → pass_energy_cf e !! k = pass_energy_cf e0 !! k) (W : wf_db e) (W0 : wf_db e0).

Lemma records_below i lo hi : hi <= T → records_in_range i lo hi e = records_in_range i lo hi e0.
Proof.
  intros Hh. apply (StronglySorted_unique_strong (λ a b, er_block_height a < er_block_height b)).
  - intros x y _ _ ? ?. lia.
  - by apply records_in_range_sorted.
  - by apply records_in_range_sorted.
  - apply NoDup_Permutation.
    1,2: eapply sorted_NoDup; [by apply records_in_range_sorted|]; cbn; intros x; lia.
    intros r. rewrite !elem_of_records_in_range. split; intros (Hi & [? ?] & Hl); (split; [done|split; [done|]]);
      [rewrite <-Hcf|rewrite Hcf]; cbn; try done; lia.
Qed.
Lemma find_last_below i h : h <= T → wf_key (i, h) → find_last i h e = find_last i h e0.
Proof. intros Hh Wk. rewrite !find_last_spec by assumption. by rewrite records_below. Qed.
Lemma rows_count_below i lo hi : hi <= T →
  length (rows_in_range i lo hi e) = length (rows_in_range i lo hi e0).
Proof. intros Hh. pose proof (f_equal length (records_below i lo hi Hh)) as E. unfold records_in_range in E. by rewrite !length_fmap in E. Qed.
Lemma energy_count_below i lo hi : hi <= T → wf_key (i, lo) →
  count_pass_energy_records_in_height_range i lo hi e = count_pass_energy_records_in_height_range i lo hi e0.
Proof.
  intros Hh Wk. unfold count_pass_energy_records_in_height_range. destruct (_ >? _); [done|].
  rewrite !count_scan_spec by done. rewrite !scan_forward by done. by rewrite rows_count_below.
Qed.
Lemma energy_page_below i lo hi page size desc : hi <= T → wf_key (i, lo) → wf_key (i, hi) →
  0 <= page → 1 <= size → page * size <= U64_MAX →
  get_pass_energy_records_with_order i lo hi page size desc e
  = get_pass_energy_records_with_order i lo hi page size desc e0.
Proof.
  intros Hh Wl Wh Hp Hs Ho. unfold get_pass_energy_records_with_order,
    get_pass_energy_records_by_page_in_height_range_desc, get_pass_energy_records_by_page_in_height_range.
  destruct desc; (destruct (_ >? _); [done|]); unfold usize_checked_mul; (rewrite (proj2 (Z.leb_le _ _)) by lia);
    cbn; rewrite !page_scan_spec by (cbn; lia); rewrite ?scan_backward, ?scan_forward by done.
  - rewrite !fmap_reverse. fold (records_in_range i lo hi e) (records_in_range i lo hi e0). by rewrite records_below.
  - fold (records_in_range i lo hi e) (records_in_range i lo hi e0). by rewrite records_below.
Qed.
End EnergyBelow.

(** ** The last event of a pass *)

(** The newest row that the query finds is the last one of the log. *)
Lemma last_history_row_at t h i hmax : ledger_ok hmax t →
  (get_last_pass_history_at_or_before_height i h t).1 = Ok (row_to_pass_history_item <$> row_at t h i).
Proof.
  intros L. unfold get_last_pass_history_at_or_before_height, gets, row_at, rows_of. cbn [fst]. do 2 f_equal.
  pose proof (StronglySorted_filter _ (λ r, h_inscription_id r = i ∧ h_block_height r <= h) _ (lk_sorted _ _ L)) as Hs.
  set (l := filter _ (t_history t)) in *.
  rewrite (StronglySorted_unique_strong (flip (key_le row_order)) _ (reverse l)), head_reverse; [done| | | |].
  - intros x y Hx Hy Hxy Hyx. rewrite elem_of_order_by in Hx. rewrite elem_of_reverse in Hy.
    apply list_elem_of_filter in Hx as [_ Hx], Hy as [_ Hy]. pose proof (bytes_le_antisym _ _ Hxy Hyx) as E.
    injection E as _ E. by eapply (log_id_inj (t_history t)); [apply (lk_sorted _ _ L)|..].
  - apply order_by_desc_sorted.
  - apply StronglySorted_reverse. eapply StronglySorted_impl; [|exact Hs].
    intros a b [Hid Hb]. unfold key_le, row_order. cbn.
    destruct (Z.ltb_spec (h_block_height a) (h_block_height b)); [done|].
    rewrite (proj2 (Z.ltb_ge _ _)) by lia. by rewrite (proj2 (Z.ltb_lt _ _) Hid).
  - by rewrite order_by_Permutation, reverse_Permutation.
Qed.
