(* ===== verification/PassAnswers.v ===== *)
(** * Answers that do not change

    [steady]: a handler that gives one answer at every moment after a height, through whatever moments
    its accesses fall on.  [quiet]: a computation that only reads, such as the diagnostics of a refusal.
    Both are closed under the composition of handlers, and the queries at a height are steady. *)

From S2P Require Import Prelude Encoding Types EnergyFormula EnergyStorage Energy PassStorage PassLedger.
From S2P Require Import Pass Tx BalanceBlock StateIds BalanceService BalanceServer PassService PassServer.
From S2P Require Import PassAsOf.

(** ** What a caller acts on *)

Definition no_data : ConsensusRpcErrorData :=
  {| er_service := USDB_INDEXER_SERVICE_NAME; er_requested_height := None; er_local_synced_height := None;
     er_upstream_stable_height := None; er_consensus_ready := None; er_expected_state := default_reference;
     er_actual_state := default_reference; er_detail := None |}.
(** An answer without the diagnostics of a consensus refusal. *)
Definition kind_of (e : RpcError) : RpcError :=
  match e with Consensus code _ => Consensus code no_data | _ => e end.
Definition kinds {A} (r : RpcError + A) : RpcError + A := match r with inl e => inl (kind_of e) | _ => r end.
Definition answer {A} (r : result (RpcError + A)) : result (RpcError + A) := result_map kinds r.

(** One step of a handler. *)
Lemma rbind_run {A B} (m : Rpc A) (f : A → Rpc B) s a s1 : m s = (Ok (inr a), s1) → rbind m f s = f a s1.
Proof. unfold rbind, bind. by intros ->. Qed.
Lemma rbind_err {A B} (m : Rpc A) (f : A → Rpc B) s e s1 :
  m s = (Ok (inl e), s1) → rbind m f s = (Ok (inl e), s1).
Proof. unfold rbind, bind. by intros ->. Qed.
Lemma storage_run {A} (m : M Tables A) s r :
  (m (mo_tables (here s))).1 = r → storage m s = (reply_of r, tick s).
Proof. unfold storage. by intros ->. Qed.

(** ** Reading *)

Definition quiet {A} (m : Rpc A) : Prop := ∀ s, ∃ r, (m s).1 = Ok r
  ∧ sv_moments (m s).2 = sv_moments s ∧ (sv_now s <= sv_now (m s).2)%nat
  ∧ sv_leaderboard_cache (m s).2 = sv_leaderboard_cache s.
Definition no_panic {A} (r : result A) : Prop := ∀ e, r ≠ Panic e.

Lemma quiet_rret {A} (a : A) : quiet (rret a).
Proof. intros s. by eexists. Qed.
Lemma quiet_err {A} e : quiet (A := A) (rerr e).
Proof. intros s. by eexists. Qed.
Lemma quiet_rbind {A B} (m : Rpc A) (f : A → Rpc B) : quiet m → (∀ a, quiet (f a)) → quiet (rbind m f).
Proof.
  intros Hm Hf s. destruct (Hm s) as (r & E & Em & En & Ec). unfold rbind, bind.
  destruct (m s) as [r' s1]. cbn in *. subst r'. destruct r as [e|a]; [by eexists|].
  destruct (Hf a s1) as (r & E' & Em' & En' & Ec'). exists r. split_and!; [done|congruence|lia|congruence].
Qed.
Lemma quiet_attempt {A} (m : Rpc A) : quiet m → quiet (pure (attempt m)).
Proof.
  intros Hm s. destruct (Hm s) as (r & E & Em & En & Ec). unfold pure, attempt, bind.
  destruct (m s) as [r' s1]. cbn in *. subst r'. by eexists.
Qed.
Lemma quiet_watch {A} (f : PassMoment → A) : quiet (watch f).
Proof. intros s. eexists. split_and!; [done..|cbn; lia|done]. Qed.
Lemma quiet_storage {A} (m : M Tables A) : (∀ t, no_panic (m t).1) → quiet (storage m).
Proof.
  intros Hm s. unfold storage. cbn. specialize (Hm (mo_tables (here s))).
  destruct (m _).1 as [a|e|e]; cbn; [eexists; split_and!; [done..|lia|done]..|by destruct (Hm e)].
Qed.
Lemma quiet_checked {A} (r : result A) : no_panic r → quiet (checked r).
Proof. intros Hr s. destruct r as [a|e|e]; [by eexists..|by destruct (Hr e)]. Qed.
Lemma quiet_if {A} (b : bool) (m1 m2 : Rpc A) : quiet m1 → quiet m2 → quiet (if b then m1 else m2).
Proof. by destruct b. Qed.
Lemma quiet_option {A B} (o : option B) (f : B → Rpc A) (m : Rpc A) :
  (∀ b, quiet (f b)) → quiet m → quiet (match o with Some b => f b | None => m end).
Proof. by destruct o. Qed.

Lemma no_panic_ok_or {A} e (o : option A) : no_panic (ok_or e o).
Proof. by destruct o. Qed.

Create HintDb quiet discriminated.
#[export] Hint Resolve quiet_rret quiet_err quiet_watch no_panic_ok_or : quiet.
Ltac quiet_step :=
  first [ solve [eauto 2 with quiet] | apply quiet_attempt | apply quiet_storage; intros ? | apply quiet_checked
        | apply quiet_rbind; [|intros ?] | apply quiet_if | apply quiet_option; [intros ?|] ].
Ltac quiet_steps := repeat quiet_step.

Section Quiet.
Context `{BitcoinCrate} `{IdText} `{RpcTexts} `{PassConfig}.

Lemma get_balance_no_panic h t : no_panic (get_active_balance_snapshot h t).1.
Proof.
  unfold get_active_balance_snapshot, gets, bind, lift. destruct (_ !! _); [|done].
  unfold row_to_active_balance_snapshot. by destruct (_ || _).
Qed.
Lemma consistency_no_panic h g t : no_panic (assert_balance_snapshot_consistency h g t).1.
Proof.
  unfold assert_balance_snapshot_consistency, get_latest_active_balance_snapshot, gets, bind, lift.
  destruct (head _) as [row|]; cbn; [unfold row_to_active_balance_snapshot; destruct (_ || _); cbn; [done|]|];
    destruct (h <? g); cbn; try done. by destruct (negb _).
Qed.
Lemma pending_no_panic t : no_panic (get_upstream_reorg_recovery_pending_height t).1.
Proof.
  unfold get_upstream_reorg_recovery_pending_height, get_numeric_state, gets, bind.
  destruct (_ !! _) as [v|]; [|done]. by destruct (v <? 0).
Qed.
Hint Resolve get_balance_no_panic consistency_no_panic pending_no_panic : quiet.

Lemma quiet_anchor : quiet read_anchor.
Proof. unfold read_anchor. quiet_steps; try done. Qed.
Hint Resolve quiet_anchor : quiet.
Lemma quiet_snapshot : quiet upstream_snapshot_info.
Proof. unfold upstream_snapshot_info. quiet_steps; done. Qed.
Hint Resolve quiet_snapshot : quiet.
Lemma quiet_local_state snapshot : quiet (build_local_state_commit_info_from_snapshot snapshot).
Proof. unfold build_local_state_commit_info_from_snapshot. quiet_steps; done. Qed.
Hint Resolve quiet_local_state : quiet.
Lemma quiet_readiness : quiet readiness_info.
Proof. unfold readiness_info, synced_height. quiet_steps; done. Qed.
Hint Resolve quiet_readiness : quiet.
Lemma quiet_current o : quiet (current_state_of o).
Proof. unfold current_state_of. quiet_steps; done. Qed.
Hint Resolve quiet_current : quiet.
Lemma quiet_current_or_none : quiet current_state_or_none.
Proof. unfold current_state_or_none, current_state_for_error_payload. quiet_steps; done. Qed.
End Quiet.
#[export] Hint Resolve quiet_anchor quiet_snapshot quiet_local_state quiet_readiness quiet_current
  quiet_current_or_none : quiet.

(** A reading that always has a value, and one that always refuses. *)
Definition sound {A} (m : Rpc A) : Prop := quiet m ∧ ∀ s, ∃ a, (m s).1 = Ok (inr a).
Definition refuses {A} (code : ConsensusRpcErrorCode) (m : Rpc A) : Prop :=
  quiet m ∧ ∀ s, ∃ d, (m s).1 = Ok (inl (Consensus code d)).
Lemma sound_ret {A} (a : A) : sound (rret a).
Proof. split; [apply quiet_rret|]. intros s. by eexists. Qed.
Lemma sound_attempt {A} (m : Rpc A) : quiet m → sound (pure (attempt m)).
Proof.
  intros Q. split; [by apply quiet_attempt|]. intros s. destruct (Q s) as (r & E & _).
  unfold pure, attempt, bind. destruct (m s) as [r' s1]. cbn in *. subst r'. by eexists.
Qed.
Lemma sound_bind {A B} (m : Rpc A) (f : A → Rpc B) : sound m → (∀ a, sound (f a)) → sound (rbind m f).
Proof.
  intros [Qm Hm] Hf. split; [apply quiet_rbind; [done|intros a; apply Hf]|]. intros s. destruct (Hm s) as [a E].
  unfold rbind, bind. destruct (m s) as [r s1]. cbn in *. subst r. apply Hf.
Qed.
Lemma refuses_bind {A B} code (m : Rpc A) (f : A → Rpc B) :
  sound m → (∀ a, refuses code (f a)) → refuses code (rbind m f).
Proof.
  intros [Qm Hm] Hf. split; [apply quiet_rbind; [done|intros a; apply Hf]|]. intros s. destruct (Hm s) as [a E].
  unfold rbind, bind. destruct (m s) as [r s1]. cbn in *. subst r. apply Hf.
Qed.
Lemma refuses_refuse {A} code (data : Rpc ConsensusRpcErrorData) :
  sound data → refuses (A := A) code (refuse code data).
Proof.
  intros D. apply refuses_bind; [done|]. intros d. split; [apply quiet_err|]. intros s. by eexists.
Qed.
Section Sound.
Context `{BitcoinCrate} `{IdText} `{RpcTexts} `{PassConfig}.
Lemma sound_error_data rh current d : sound (pass_error_data rh current d).
Proof.
  apply sound_bind; [apply sound_attempt; auto with quiet|]. intros r. apply sound_ret.
Qed.
Lemma sound_current_or_none : sound current_state_or_none.
Proof.
  apply sound_bind; [|intros; apply sound_ret]. apply sound_attempt.
  unfold current_state_for_error_payload. quiet_steps; done.
Qed.
End Sound.

(** ** Steadiness *)

(** A moment after the stores [t0] and [e0] of height [T]: blocks above [T] may have been added, and
    one may be under way. *)
Record seen (T : u32) (t0 : Tables) (e0 : EnergyDb) (m : PassMoment) : Prop := {
  se_tables : undoable T t0 (mo_tables m);
  se_energy : ∀ k, k.2 <= T → pass_energy_cf (mo_energy_db m) !! k = pass_energy_cf e0 !! k;
  se_wf : wf_db (mo_energy_db m);
  se_synced : ∃ h, (get_synced_btc_block_height (mo_tables m)).1 = Ok (Some h) ∧ T <= h
}.
Definition settled (T : u32) (t0 : Tables) (e0 : EnergyDb) (s : PassServer) : Prop :=
  ∀ n, (sv_now s <= n)%nat → seen T t0 e0 (sv_moments s n).
(** The stores at [T] themselves. *)
Record height_stores (T : u32) (t0 : Tables) (e0 : EnergyDb) : Prop := {
  hs_ledger : ledger_ok T t0;
  hs_height : 0 <= T <= U32_MAX;
  hs_ids : ∀ r, r ∈ t_history t0 → wf_id (h_inscription_id r);
  hs_energy : wf_db e0
}.

Lemma settled_moves {A} (m : M PassServer A) T t0 e0 s :
  settled T t0 e0 s → sv_moments (m s).2 = sv_moments s → (sv_now s <= sv_now (m s).2)%nat →
  settled T t0 e0 (m s).2.
Proof. intros St Em En n Hn. rewrite Em. apply St. lia. Qed.

Section Steady.
Context (T : u32) (t0 : Tables) (e0 : EnergyDb).

(** [gives m v]: [m] answers [v]; [steady P m]: it has one answer, and a value satisfies [P]. *)
Definition gives {A} (m : Rpc A) (v : RpcError + A) : Prop :=
  ∀ s, settled T t0 e0 s → answer (m s).1 = Ok v ∧ settled T t0 e0 (m s).2.
Definition steady {A} (P : A → Prop) (m : Rpc A) : Prop := ∃ v, (∀ a, v = inr a → P a) ∧ gives m v.

Lemma gives_bind {A B} (m : Rpc A) (f : A → Rpc B) a v : gives m (inr a) → gives (f a) v → gives (rbind m f) v.
Proof.
  intros Hm Hf s St. destruct (Hm s St) as [E S1]. unfold rbind, bind.
  destruct (m s) as [[[e|a']|?|?] s1]; cbn in *; simplify_eq. by apply Hf.
Qed.
Lemma gives_bind_err {A B} (m : Rpc A) (f : A → Rpc B) e : gives m (inl e) → gives (rbind m f) (inl e).
Proof.
  intros Hm s St. destruct (Hm s St) as [E S1]. unfold rbind, bind.
  destruct (m s) as [[[e'|a]|?|?] s1]; cbn in *; simplify_eq. done.
Qed.
Lemma steady_same {A} (P : A → Prop) (m : Rpc A) (r : RpcError + A) :
  gives m (kinds r) → (∀ a, r = inr a → P a) → steady P m.
Proof. intros Hm HP. exists (kinds r). split; [|done]. intros a E. apply HP. by destruct r; cbn in *; simplify_eq. Qed.
Lemma steady_ret {A} (P : A → Prop) (a : A) : P a → steady P (rret a).
Proof. intros Ha. apply (steady_same _ _ (inr a)); [done|]. by intros ? [= <-]. Qed.
Lemma steady_err {A} (P : A → Prop) e : steady P (rerr e).
Proof. by apply (steady_same _ _ (inl e)). Qed.
Lemma steady_bind {A B} (P : A → Prop) (Q : B → Prop) (m : Rpc A) (f : A → Rpc B) :
  steady P m → (∀ a, P a → steady Q (f a)) → steady Q (rbind m f).
Proof.
  intros ([e|a] & HP & Hm) Hf.
  - exists (inl e). split; [done|]. by apply gives_bind_err.
  - destruct (Hf a (HP a eq_refl)) as (v & HQ & Hv). exists v. split; [done|]. by apply (gives_bind m f a).
Qed.
Lemma steady_map_internal {A} (P : A → Prop) f (m : Rpc A) : steady P m → steady P (map_internal f m).
Proof.
  intros (v & HP & Hm). exists (match v with inl (Internal e) => inl (kind_of (f e)) | _ => v end). split.
  - destruct v as [[]|]; try done. 
  - intros s St. destruct (Hm s St) as [E S1]. unfold map_internal, bind.
    destruct (m s) as [[[e|a]|?|?] s1]; cbn in *; simplify_eq; [|done]. by destruct e.
Qed.
Lemma steady_if {A} (P : A → Prop) (b : bool) (m1 m2 : Rpc A) :
  (b = true → steady P m1) → (b = false → steady P m2) → steady P (if b then m1 else m2).
Proof. destruct b; auto. Qed.
Lemma steady_option {A B} (P : A → Prop) (o : option B) (f : B → Rpc A) (m : Rpc A) :
  (∀ b, o = Some b → steady P (f b)) → (o = None → steady P m) →
  steady P (match o with Some b => f b | None => m end).
Proof. destruct o; auto. Qed.
Lemma gives_refusal {A} code (m : Rpc A) : refuses code m → gives m (inl (Consensus code no_data)).
Proof.
  intros [Q Hm] s St.
  destruct (Q s) as (r & E & Em & En & _). destruct (Hm s) as [d Ed]. rewrite Ed. split; [done|].
  by apply settled_moves.
Qed.
(** An access to the tables whose result later blocks do not change. *)
Lemma steady_storage {A} (P : A → Prop) (m : M Tables A) (L : ledger_ok T t0) :
  (∀ t, undoable T t0 t → (m t).1 = (m t0).1) → no_panic (m t0).1 → (∀ a, (m t0).1 = Ok a → P a) →
  steady P (storage m).
Proof.
  intros Hm Hn HP. destruct (m t0).1 as [a|e|e] eqn:E; [| |by destruct (Hn e)].
  - apply (steady_same _ _ (inr a)); [|intros ? [= <-]; by apply HP]. intros s St.
    pose proof (se_tables _ _ _ _ (St (sv_now s) ltac:(done))) as U. unfold storage, here. cbn [fst snd].
    rewrite (Hm _ U). split; [done|]. intros n Hn'. apply St. cbn in Hn'. lia.
  - apply (steady_same _ _ (inl (Internal e))); [|done]. intros s St.
    pose proof (se_tables _ _ _ _ (St (sv_now s) ltac:(done))) as U. unfold storage, here. cbn [fst snd].
    rewrite (Hm _ U). split; [done|]. intros n Hn'. apply St. cbn in Hn'. lia.
Qed.
Lemma steady_energy {A} (P : A → Prop) (m : M EnergyDb A) :
  (∀ e, (∀ k, k.2 <= T → pass_energy_cf e !! k = pass_energy_cf e0 !! k) → wf_db e → (m e).1 = (m e0).1) →
  no_panic (m e0).1 → (∀ a, (m e0).1 = Ok a → P a) → steady P (energy_manager m).
Proof.
  intros Hm Hn HP.
  assert (∀ s, settled T t0 e0 s → (m (mo_energy_db (here s))).1 = (m e0).1 ∧ settled T t0 e0 (tick s)) as He.
  { intros s St. destruct (St (sv_now s) ltac:(done)) as [_ Ee We _]. split; [by apply Hm|].
    intros n Hn'. apply St. cbn in Hn'. lia. }
  destruct (m e0).1 as [a|e|e] eqn:E; [| |by destruct (Hn e)].
  - apply (steady_same _ _ (inr a)); [|intros ? [= <-]; by apply HP]. intros s St. destruct (He s St) as [E' S'].
    unfold energy_manager. cbn [fst snd]. by rewrite E'.
  - apply (steady_same _ _ (inl (Internal e))); [|done]. intros s St. destruct (He s St) as [E' S'].
    unfold energy_manager. cbn [fst snd]. by rewrite E'.
Qed.
End Steady.

(** ** Handlers *)

Class RpcTextsLaws `{RpcTexts} := {
  parsed_id_wf v i : rpc_inscription_id_from_str v = Some i → wf_id i
}.

Section Handlers.
Context `{BitcoinCrate} `{IdText} `{RpcTexts} {TL : RpcTextsLaws} `{PassConfig}.
Context (T : u32) (t0 : Tables) (e0 : EnergyDb) (HS : height_stores T t0 e0).
Abbreviation steady := (steady T t0 e0) (only parsing).
Abbreviation any := (λ _, True) (only parsing).

Lemma not_retained_refuses h :
  h < cfg_genesis_block_height → refuses StateNotRetained (ensure_history_height_retained h).
Proof.
  intros Hh. unfold ensure_history_height_retained. rewrite Z.geb_leb, (proj2 (Z.leb_gt _ _)) by done.
  apply refuses_bind; [apply sound_current_or_none|]. intros current. apply refuses_refuse, sound_error_data.
Qed.
Lemma retained_run h s :
  cfg_genesis_block_height <= h → ensure_history_height_retained h s = (Ok (inr tt), s).
Proof. intros Hh. unfold ensure_history_height_retained. by rewrite Z.geb_leb, (proj2 (Z.leb_le _ _)). Qed.
Lemma steady_retained h : steady any (ensure_history_height_retained h).
Proof.
  destruct (Z_lt_ge_dec h cfg_genesis_block_height) as [Hh|Hh].
  - exists (inl (Consensus StateNotRetained no_data)). split; [done|]. by apply gives_refusal, not_retained_refuses.
  - apply (steady_same _ _ _ _ _ (inr tt)); [|done]. intros s St. by rewrite retained_run by lia.
Qed.
Lemma steady_checked {A} (P : A → Prop) (m : Rpc A) v :
  (∀ s, m s = (Ok v, s)) → (∀ a, v = inr a → P a) → steady P m.
Proof. intros Hm HP. apply (steady_same _ _ _ _ _ v); [|done]. intros s St. rewrite Hm. by destruct v. Qed.

Lemma synced_height_run x s :
  (get_synced_btc_block_height (mo_tables (here s))).1 = Ok (Some x) → synced_height s = (Ok (inr (Some x)), tick s).
Proof. intros E. exact (storage_run _ s (Ok _) E). Qed.
(** A height that the indexer has passed is resolved to itself. *)
Lemma gives_resolve h : h <= T → gives T t0 e0 (resolve_height (Some h)) (inr h).
Proof.
  intros Hh s St.
  destruct (se_synced _ _ _ _ (St (sv_now s) ltac:(done))) as (x & Hx & HT).
  unfold resolve_height. rewrite (rbind_run _ _ _ _ _ (synced_height_run x s Hx)). cbv iota zeta.
  cbn. rewrite Z.gtb_ltb, (proj2 (Z.ltb_ge x h)) by lia.
  split; [done|]. intros n Hn. apply St. cbn in Hn. lia.
Qed.
Lemma steady_resolve h : h <= T → steady (λ h', h' = h) (resolve_height (Some h)).
Proof. intros Hh. exists (inr h). split; [by intros ? [= <-]|by apply gives_resolve]. Qed.
Lemma steady_range lo hi : hi <= T → steady (λ h', h' = hi ∧ lo <= hi) (resolve_height_range lo hi).
Proof.
  intros Hh. unfold resolve_height_range. eapply steady_bind; [by apply steady_resolve|].
  intros ? ->. apply steady_if; intros E; [apply steady_err|apply steady_ret]. split; [done|]. b2p. lia.
Qed.
Lemma steady_contextual h : h <= T → steady (λ h', h' = h) (resolve_height_for_contextual_query (Some h) None).
Proof. apply steady_resolve. Qed.

(** What [validate_pagination] leaves. *)
Definition page_ok (p : PageParams) : Prop := 1 <= pp_page_size p ∧ pp_page p * pp_page_size p <= U64_MAX.
Lemma steady_pagination p : 0 <= pp_page_size p → steady (λ _, page_ok p) (validate_pagination p).
Proof.
  intros Hs. unfold validate_pagination. apply steady_if; intros E; [apply steady_err|apply steady_ret].
  rewrite !orb_false_iff, Z.eqb_neq, Z.gtb_ltb, Z.ltb_ge in E. destruct E as [[? _] E].
  unfold usize_checked_mul in E. destruct (_ <=? _) eqn:El; [|done]. b2p. split; lia.
Qed.
Lemma steady_id v : steady wf_id (parse_inscription_id v).
Proof.
  unfold parse_inscription_id. apply steady_option; [|intros; apply steady_err].
  intros i E. by apply steady_ret, (parsed_id_wf v).
Qed.
Lemma steady_owner v : steady any (parse_owner v).
Proof. unfold parse_owner. destruct (parse_script_hash_any v); [by apply steady_ret|apply steady_err..]. Qed.
Lemma steady_states states vs : steady any (parse_pass_states states vs).
Proof.
  revert states. induction vs as [|v vs IH]; intros states; cbn; [by apply steady_ret|].
  eapply (steady_bind _ _ _ any); [|by intros ? _]. unfold parse_pass_state.
  apply steady_if; intros _; [by apply steady_ret|].
  destruct (MinerPassState_from_str _); [by apply steady_ret|apply steady_err..].
Qed.
Lemma steady_optional_states o : steady any (parse_optional_pass_states o).
Proof. unfold parse_optional_pass_states. destruct o; [apply steady_states|by apply steady_ret]. Qed.
Lemma steady_order o : steady any (parse_order_desc o).
Proof.
  unfold parse_order_desc. repeat (apply steady_if; intros _; [by apply steady_ret|]). apply steady_err.
Qed.
Lemma steady_range_order o : steady any (parse_range_order o).
Proof.
  unfold parse_range_order. repeat (apply steady_if; intros _; [by apply steady_ret|]). apply steady_err.
Qed.
Lemma steady_scope o : steady any (parse_leaderboard_scope o).
Proof.
  unfold parse_leaderboard_scope. repeat (apply steady_if; intros _; [by apply steady_ret|]). apply steady_err.
Qed.
Lemma steady_offset p : page_ok p → steady any (pagination_offset p).
Proof. unfold pagination_offset. intros _. apply steady_option; intros; [by apply steady_ret|apply steady_err]. Qed.

(** A query of the pass store that is the same at every later moment. *)
Lemma steady_query {A} (m : M Tables A) :
  (∀ t, undoable T t0 t → (m t).1 = (m t0).1) → no_panic (m t0).1 → steady any (storage m).
Proof. intros Hm Hn. apply steady_storage; [apply (hs_ledger _ _ _ HS)|done..]. Qed.
Lemma no_pass_no_history i h :
  t_passes t0 !! i = None → (get_last_pass_history_at_or_before_height i h t0).1 = Ok None.
Proof.
  intros Ei. unfold get_last_pass_history_at_or_before_height, gets. cbn [fst].
  destruct (head _) as [r|] eqn:E; [|done]. exfalso. apply head_Some_elem_of in E.
  apply elem_of_order_by, list_elem_of_filter in E as [[<- _] Hr].
  destruct (lk_event _ _ (hs_ledger _ _ _ HS) r Hr) as (p & Hp & _). congruence.
Qed.
Lemma pass_snapshot_static p p0 e h : static p = static p0 → pass_snapshot p e h = pass_snapshot p0 e h.
Proof. destruct p, p0. unfold static, pass_snapshot. cbn. intros E. by simplify_eq. Qed.
(** The snapshot of a pass at [h]: its columns that no event changes, and its last event. *)
Definition snapshot_at (i : InscriptionId) (h : u32) : option PassSnapshot :=
  match t_passes t0 !! i, (get_last_pass_history_at_or_before_height i h t0).1 with
  | Some p, Ok (Some e) => Some (pass_snapshot p e h)
  | _, _ => None
  end.
Lemma gives_snapshot i h : h <= T → gives T t0 e0 (build_pass_snapshot i h) (inr (snapshot_at i h)).
Proof.
  intros Hh s St.
  destruct (se_tables _ _ _ _ (St (sv_now s) ltac:(done))) as [_ _ Uk _ _ _].
  pose proof (last_history_below T t0 _ (se_tables _ _ _ _ (St (S (sv_now s)) ltac:(lia))) i h Hh) as Eh.
  assert (settled T t0 e0 (tick s) ∧ settled T t0 e0 (tick (tick s))) as [S1 S2]
    by (split; intros n Hn; apply St; cbn in Hn; lia).
  unfold build_pass_snapshot, snapshot_at.
  rewrite (rbind_run _ _ _ _ _ (storage_run (get_pass_by_inscription_id i) s (Ok _) eq_refl)).
  destruct (t_passes (mo_tables (here s)) !! i) as [p|] eqn:Ep.
  - destruct (t_passes t0 !! i) as [p0|] eqn:Ep0.
    + destruct (Uk i p0 Ep0) as (p' & Ep' & Es). unfold here in Ep. assert (p' = p) as -> by congruence.
      destruct (get_last_pass_history_at_or_before_height i h t0).1 as [o|e|e] eqn:Eo; [|done..].
      rewrite (rbind_run _ _ _ _ _ (storage_run _ (tick s) _ Eh)). destruct o as [e|]; [|done].
      cbn. by rewrite (pass_snapshot_static _ _ _ _ Es).
    + rewrite no_pass_no_history in Eh by done. by rewrite (rbind_run _ _ _ _ _ (storage_run _ (tick s) _ Eh)).
  - destruct (t_passes t0 !! i) as [p0|] eqn:Ep0; [|done].
    destruct (Uk i p0 Ep0) as (p' & Ep' & _). unfold here in Ep. congruence.
Qed.
Lemma steady_snapshot i h : h <= T → steady any (build_pass_snapshot i h).
Proof. intros Hh. exists (inr (snapshot_at i h)). split; [done|by apply gives_snapshot]. Qed.

(** *** The leaderboard data set *)

Definition wf_rows (rows : list ActiveMinerPassInfo) : Prop := ∀ row, row ∈ rows → wf_id (ap_inscription_id row).
Lemma states_page_wf page size h states rows :
  (get_passes_by_page_from_history_at_height_by_states page size h states t0).1 = Ok rows → wf_rows rows.
Proof.
  unfold get_passes_by_page_from_history_at_height_by_states, wf_rows, sql_page, sql_limit_offset.
  destruct (bool_decide _); intros [= <-] row Hrow; [by apply elem_of_nil in Hrow|].
  apply list_elem_of_fmap in Hrow as (r & -> & Hr). apply (hs_ids _ _ _ HS).
  assert (r ∈ order_by row_order true (rows_with_states states (latest_rows t0 h))) as Hin.
  { destruct (_ <? 0); [|apply (subseteq_take _ _ r) in Hr]; by apply (subseteq_drop _ _ r) in Hr. }
  apply elem_of_order_by in Hin. unfold rows_with_states in Hin. apply list_elem_of_filter in Hin as [_ Hin].
  by eapply latest_rows_log.
Qed.
Lemma steady_dataset_pages h states pages : h <= T → steady wf_rows (load_dataset_pages h states pages).
Proof.
  intros Hh. induction pages as [|page pages IH]; cbn [load_dataset_pages].
  { apply steady_ret. intros row Hrow. by apply elem_of_nil in Hrow. }
  eapply steady_bind.
  - apply (steady_storage T t0 e0 wf_rows); [apply (hs_ledger _ _ _ HS)| | |].
    + intros t U. by apply (page_by_states_below T).
    + unfold get_passes_by_page_from_history_at_height_by_states. by destruct (bool_decide _).
    + intros rows. apply states_page_wf.
  - intros [|r rs] Hrs; [by apply steady_ret|]. eapply steady_bind; [exact IH|]. intros rows Hrows.
    apply steady_ret. intros row [Hrow|Hrow]%elem_of_app; auto.
Qed.
Lemma wf_key_at i h : wf_id i → 0 <= h <= T → wf_key (i, h).
Proof. intros Hi Hh. pose proof (hs_height _ _ _ HS). split; [done|]. cbn. lia. Qed.
Lemma steady_latest_record i h :
  wf_id i → 0 <= h <= T → steady any (energy_manager (get_pass_energy_record_at_or_before i h)).
Proof.
  intros Hi Hh. apply steady_energy; [|done|done].
  intros e He W. unfold get_pass_energy_record_at_or_before, find_last_pass_energy_record, gets. cbn [fst]. f_equal.
  apply (find_last_below T); [done|done|apply (hs_energy _ _ _ HS)|lia|by apply wf_key_at].
Qed.
Lemma steady_rank_rows h rows : 0 <= h <= T → wf_rows rows → steady any (rank_rows h rows).
Proof.
  intros Hh. induction rows as [|row rows IH]; intros Hw; cbn [rank_rows]; [by apply steady_ret|].
  eapply steady_bind; [apply steady_latest_record; [apply Hw; constructor|done]|]. intros record _.
  eapply steady_bind; [apply IH; intros r Hr; apply Hw; by constructor|]. intros ranked _. by apply steady_ret.
Qed.
Lemma steady_dataset h scope : 0 <= h <= T → steady any (build_pass_energy_leaderboard_dataset h scope).
Proof.
  intros Hh. unfold build_pass_energy_leaderboard_dataset. eapply steady_bind.
  - apply steady_query; [intros t U; apply (count_by_states_below T t0 t U); lia|].
    unfold get_pass_count_from_history_at_height_by_states. by destruct (bool_decide _).
  - intros n _. apply steady_if; intros _; [by apply steady_ret|].
    eapply steady_bind; [apply steady_dataset_pages; lia|]. intros rows Hw.
    eapply steady_bind; [by apply steady_rank_rows|]. intros ranked _. by apply steady_ret.
Qed.
Lemma steady_paginate items total p : page_ok p → steady any (paginate_leaderboard_items items total p).
Proof.
  intros Hp. unfold paginate_leaderboard_items. eapply steady_bind; [by apply steady_offset|]. intros o _.
  apply steady_if; intros _; by apply steady_ret.
Qed.
Lemma steady_leaderboard h scope p : 0 <= h <= T → 0 <= pp_page_size p →
  steady any (get_pass_energy_leaderboard {| gl_at_height := Some h; gl_scope := scope; gl_page := p |}).
Proof.
  intros Hh Hp. unfold get_pass_energy_leaderboard. cbn [gl_at_height gl_scope gl_page].
  eapply steady_bind; [by apply steady_pagination|]. intros ? Hpage. cbv beta in Hpage.
  eapply steady_bind; [apply steady_resolve; lia|]. intros ? ->.
  eapply steady_bind; [apply steady_scope|]. intros sc _.
  eapply steady_bind; [by apply steady_offset|]. intros offset _. rewrite andb_false_r.
  eapply (steady_bind _ _ _ (λ o, o = None)); [by apply steady_ret|]. intros ? ->.
  apply steady_if; intros _; [by apply steady_ret|].
  eapply steady_bind; [by apply steady_dataset|]. intros [raw ranked] _.
  eapply steady_bind; [by apply steady_paginate|]. intros items _.
  eapply (steady_bind _ _ _ any); [by apply steady_ret|]. intros _ _. by apply steady_ret.
Qed.
End Handlers.
