(* ===== verification/PassDemo.v ===== *)
(** * Stores of the query service for the witnesses

    A pass store and an energy store at height 100, the same stores inside block 101 and after it, and
    servers whose accesses fall on them. *)

From S2P Require Import Prelude Encoding Types EnergyFormula EnergyStorage Energy PassStorage PassLedger.
From S2P Require Import Pass Tx BalanceBlock BalanceChain BalanceDemo StateIds BalanceService BalanceServer.
From S2P Require Import PassService PassServer PassAsOf PassAnswers.

(** ** Texts and configuration *)

#[local] Existing Instance demo_crate.
Definition char_of (n : Z) : string := String (ascii_of_N (Z.to_N n)) EmptyString.
#[local] Instance char_text : IdText := {|
  inscription_id_to_string i := char_of (txid i);
  satpoint_to_string sp := char_of (op_txid (outpoint sp));
  script_hash_to_string o := char_of o
|}.
Definition pass_id (n : Z) : InscriptionId := {| txid := n; index := 0 |}.
#[local] Instance char_parsers : RpcTexts := {|
  rpc_inscription_id_from_str s := match as_bytes s with [n] => Some (pass_id n) | _ => None end;
  script_hash_from_str s := match as_bytes s with [n] => Some n | _ => None end;
  address_script _ := None
|}.
Lemma char_parsers_laws : RpcTextsLaws.
Proof.
  split. intros v i. cbn. unfold as_bytes. destruct (list_ascii_of_string v) as [|c [|]]; [done| |done].
  intros [= <-]. pose proof (nat_ascii_bounded c). unfold wf_id, pass_id, TXID_BOUND, U32_MAX. cbn. lia.
Qed.
#[local] Instance demo_config : PassConfig := {|
  cfg_network := "regtest"; cfg_genesis_block_height := 50; cfg_active_address_page_size := 1;
  cfg_leaderboard_cache_enabled := true; cfg_leaderboard_cache_top_k := 1
|}.

(** ** The pass store *)

Definition demo_miner (n owner : Z) (h : u32) : MinerPassInfo :=
  {| inscription_id := pass_id n; inscription_number := n; mint_txid := n; mint_block_height := h;
     mint_owner := owner; satpoint := {| outpoint := {| op_txid := n; vout := 0 |}; offset := 0 |};
     eth_main := "0x"; eth_collab := None; prev := []; invalid_code := None; invalid_reason := None;
     owner := owner; state := Active |}.
Definition demo_commit (h : u32) : StoredPassBlockCommitEntry :=
  {| pc_block_height := h; pc_balance_history_block_height := h; pc_balance_history_block_commit := "commit";
     pc_mutation_root := "00"; pc_block_commit := "01"; pc_commit_protocol_version := "1.0.0";
     pc_commit_hash_algo := "sha256" |}.
Definition run_ops (h : u32) (ops : list pass_op) (t : Tables) : Tables :=
  foldl (λ t op, (run_pass_op h op t).2) t ops.
(** The block adopts the snapshot of its height. *)
Definition adopt (h : u32) (t : Tables) : Tables :=
  (upsert_balance_history_snapshot_anchor_with_conn (demo_anchor h) t).2.

(** Two owners mint the passes 5 and 8 at 100; at 101 owner 1 replaces its pass by pass 6. *)
Definition stores100 : Tables :=
  adopt 100 (run_ops 100 [OpMint (demo_miner 5 1 100); OpMint (demo_miner 8 2 100); OpBalance 500 2;
                          OpCommit (demo_commit 100)] empty_tables).
Definition stores_within : Tables := run_ops 101 [OpState (pass_id 5) Dormant Active] stores100.
Definition stores101 : Tables :=
  adopt 101 (run_ops 101 [OpMint (demo_miner 6 1 101); OpBalance 700 2; OpCommit (demo_commit 101)] stores_within).

Lemma adopt_effect h t : effect h t (adopt h t).
Proof. apply effect_side; [done..|]. intros k Hk. cbn. by rewrite lookup_insert_ne. Qed.
Lemma run_ops_run h0 t0 h ops : ∀ t, pass_run h0 t0 h t → Forall (pass_op_at h) ops →
  pass_run h0 t0 h (run_ops h ops t).
Proof.
  induction ops as [|op ops IH]; intros t Hr Ho; [done|]. apply Forall_cons in Ho as [? ?].
  apply IH; [|done]. by apply (pr_op h0 t0 h); [|lia|].
Qed.
Lemma stores100_ledger : ledger_ok 100 stores100.
Proof.
  eapply ledger_ok_effect; [|apply adopt_effect].
  apply (run_ledger_ok 100 empty_tables); [apply ledger_ok_empty|].
  apply run_ops_run; [constructor|by repeat constructor].
Qed.
Lemma within_undoable : undoable 100 stores100 stores_within.
Proof.
  apply (run_undoable 100 stores100 101 _ stores100_ledger). apply run_ops_run; [constructor|by repeat constructor].
Qed.
Lemma stores101_undoable : undoable 100 stores100 stores101.
Proof.
  eapply (undoable_effect 100 101); [|lia|apply adopt_effect].
  apply (run_undoable 100 stores100 101 _ stores100_ledger).
  do 2 (apply run_ops_run; [|by repeat constructor]). constructor.
Qed.

(** ** The energy store *)

Definition demo_energy (n owner : Z) (h : u32) (st : MinerPassState) (e : u64) : PassEnergyRecord :=
  {| er_inscription_id := pass_id n; er_block_height := h; er_state := st; er_active_block_height := 100;
     er_owner_address := owner; er_owner_balance := 0; er_owner_delta := 0; er_energy := e |}.
Definition energy100 : EnergyDb :=
  insert_record (demo_energy 5 1 100 Active 7) (insert_record (demo_energy 8 2 100 Active 9) empty_energy_db).
Definition energy101 : EnergyDb :=
  insert_record (demo_energy 5 1 101 Dormant 8) (insert_record (demo_energy 6 1 101 Active 0) energy100).

Lemma pass_key_wf n h : 0 <= n < 256 → 0 <= h <= U32_MAX → wf_key (pass_id n, h).
Proof. intros Hn Hh. split; [|done]. unfold wf_id, pass_id, TXID_BOUND, U32_MAX. cbn. lia. Qed.
Lemma energy100_wf : wf_db energy100.
Proof. apply wf_insert_record; [apply wf_insert_record; [apply wf_empty|]|]; by apply pass_key_wf. Qed.
Lemma energy101_wf : wf_db energy101.
Proof. apply wf_insert_record; [apply wf_insert_record; [apply energy100_wf|]|]; by apply pass_key_wf. Qed.
Lemma energy101_below k : k.2 <= 100 → pass_energy_cf energy101 !! k = pass_energy_cf energy100 !! k.
Proof.
  intros Hk. unfold energy101, insert_record. cbn [pass_energy_cf].
  by rewrite !lookup_insert_ne by (intros <-; by apply Hk).
Qed.

Lemma stores100_heights : height_stores 100 stores100 energy100.
Proof.
  split; [apply stores100_ledger|done| |apply energy100_wf].
  intros r Hr. vm_compute in Hr. repeat (apply elem_of_cons in Hr as [->|Hr]; [done|]). by apply elem_of_nil in Hr.
Qed.

(** ** Servers *)

(** A status under which the service is ready for consensus at [h]. *)
Definition upstream_readiness (h : u32) : ReadinessInfo :=
  {| rd_service := "balance-history"; rd_rpc_alive := true; rd_query_ready := true; rd_consensus_ready := true;
     rd_phase := Synced; rd_current := h; rd_total := h; rd_message := None; rd_stable_height := Some h;
     rd_stable_block_hash := Some "hash"; rd_latest_block_commit := Some "commit"; rd_snapshot_origin := None;
     rd_snapshot_verification_state := None; rd_snapshot_signing_key_id := None;
     rd_script_registry := {| rg_available := true; rg_count := None; rg_policy := "full" |}; rd_blockers := [] |}.
Definition upstream_snapshot (h : u32) : SnapshotInfo :=
  {| si_stable_height := h; si_stable_block_hash := Some "hash"; si_latest_block_commit := Some "commit";
     si_stable_lag := 6; si_balance_history_api_version := "1.0.0";
     si_balance_history_semantics_version := "balance-snapshot-at-or-before:v1";
     si_commit_protocol_version := "1.0.0"; si_commit_hash_algo := "sha256" |}.
Definition ready_status (h : u32) : StatusManager :=
  set_pass_rpc_alive true (set_balance_history_readiness (Some (upstream_readiness h))
    (set_balance_history_snapshot (Some (upstream_snapshot h)) (new_status_manager 50))).
Definition moment100 : PassMoment :=
  {| mo_tables := stores100; mo_energy_db := energy100; mo_status := ready_status 100 |}.
Definition moment_within : PassMoment :=
  {| mo_tables := stores_within; mo_energy_db := energy101; mo_status := ready_status 100 |}.
Definition moment101 : PassMoment :=
  {| mo_tables := stores101; mo_energy_db := energy101; mo_status := ready_status 101 |}.
(** A server at rest at 100, and one whose accesses fall before, inside and after block 101. *)
Definition server_at (m : nat → PassMoment) : PassServer :=
  {| sv_now := 0; sv_moments := m; sv_leaderboard_cache := None |}.
Definition rest100 : PassServer := server_at (λ _, moment100).
Definition rest101 : PassServer := server_at (λ _, moment101).
Definition moving : PassServer :=
  server_at (λ n, if (n <? 1)%nat then moment100 else if (n <? 2)%nat then moment_within else moment101).

Lemma seen100 : seen 100 stores100 energy100 moment100.
Proof.
  split; [apply undoable_refl, stores100_ledger|done|apply energy100_wf|]. exists 100. split; [by vm_compute|lia].
Qed.
Lemma seen_within : seen 100 stores100 energy100 moment_within.
Proof.
  split; [apply within_undoable|apply energy101_below|apply energy101_wf|]. exists 100. split; [by vm_compute|lia].
Qed.
Lemma seen101 : seen 100 stores100 energy100 moment101.
Proof.
  split; [apply stores101_undoable|apply energy101_below|apply energy101_wf|]. exists 101. split; [by vm_compute|lia].
Qed.
Lemma rest100_settled : settled 100 stores100 energy100 rest100.
Proof. intros n _. apply seen100. Qed.
Lemma moving_settled : settled 100 stores100 energy100 moving.
Proof.
  intros n _. unfold moving, server_at. cbn [sv_moments].
  destruct (n <? 1)%nat; [apply seen100|]. destruct (n <? 2)%nat; [apply seen_within|apply seen101].
Qed.
