(* ===== verification/PassReplies.v ===== *)
(** * Replies about a height the indexer has passed

    Eleven requests of [service/rpc.rs] that name a height, without a consensus context, as one
    dispatch, and what their callers rely on: while the indexer goes on, reply after reply to such a
    request is the same, and the snapshot of a pass is what the ledger recorded.

    Left out are the requests whose answer is not a function of the height: the state reference at a
    height ([get_state_ref_at_height]), which the current readiness can refuse; the active-balance
    snapshot, which looks at the snapshot adopted last before the table of its height; the invalid
    passes, which are read from the current rows; and the queries pinned to a state, of which
    [PassPins] treats the pass snapshot. *)

From S2P Require Import Prelude Encoding Types EnergyFormula EnergyStorage Energy PassStorage PassLedger.
From S2P Require Import Pass Tx BalanceBlock BalanceDemo StateIds BalanceService BalanceServer.
From S2P Require Import PassService PassServer PassAsOf PassAnswers PassDemo.

(** ** Requests and replies *)

(** The pass snapshot, active passes, pass statistics, pass history, an owner's active pass and passes,
    recent passes, the energy of a pass at a height and over a range, the leaderboard, and the commit
    of a block. *)
Inductive HeightRequest :=
  | RqPassSnapshot (inscription_id : string)
  | RqActivePasses (page : PageParams)
  | RqPassStats
  | RqPassHistory (inscription_id : string) (from_height : u32) (order : option string) (page : PageParams)
  | RqOwnerActivePass (owner : string)
  | RqOwnerPasses (owner : string) (states : option (list string)) (order : option string) (page : PageParams)
  | RqRecentPasses (states : option (list string)) (order : option string) (page : PageParams)
  | RqPassEnergy (inscription_id : string) (mode : option string)
  | RqPassEnergyRange (inscription_id : string) (from_height : u32) (order : option string) (page : PageParams)
  | RqPassEnergyLeaderboard (scope : option string) (page : PageParams)
  | RqPassBlockCommit.
Inductive HeightReply :=
  | RePassSnapshot (r : option PassSnapshot)
  | ReActivePasses (r : Page ActivePassItem)
  | RePassStats (r : PassStatsAtHeight)
  | RePassHistory (r : Page PassHistoryEvent)
  | ReOwnerPasses (r : string * Page OwnerPassItem)
  | ReRecentPasses (r : Page OwnerPassItem)
  | RePassEnergy (r : PassEnergySnapshot)
  | RePassEnergyRange (r : Page PassEnergyRangeItem)
  | RePassEnergyLeaderboard (r : Page PassEnergyLeaderboardItem)
  | RePassBlockCommit (r : option StoredPassBlockCommitEntry).

Section Replies.
Context `{BitcoinCrate} `{IdText} `{RpcTexts} `{PassConfig}.

Definition reply_as {A} (f : A → HeightReply) (m : Rpc A) : Rpc HeightReply := let& a := m in rret (f a).
(** A request at height [h]. *)
Definition serve (h : u32) (q : HeightRequest) : Rpc HeightReply :=
  match q with
  | RqPassSnapshot i =>
      reply_as RePassSnapshot
        (get_pass_snapshot {| gs_inscription_id := i; gs_at_height := Some h; gs_context := None |})
  | RqActivePasses p =>
      reply_as ReActivePasses (get_active_passes_at_height {| ga_at_height := Some h; ga_page := p |})
  | RqPassStats => reply_as RePassStats (get_pass_stats_at_height (Some h))
  | RqPassHistory i from_height order p =>
      reply_as RePassHistory
        (get_pass_history {| gh_inscription_id := i; gh_from_height := from_height; gh_to_height := h;
                             gh_order := order; gh_page := p |})
  | RqOwnerActivePass o =>
      reply_as RePassSnapshot (get_owner_active_pass_at_height {| go_owner := o; go_at_height := Some h |})
  | RqOwnerPasses o states order p =>
      reply_as ReOwnerPasses
        (get_owner_passes_at_height {| gw_owner := o; gw_at_height := Some h; gw_states := states;
                                       gw_order := order; gw_page := p |})
  | RqRecentPasses states order p =>
      reply_as ReRecentPasses
        (get_recent_passes {| gc_at_height := Some h; gc_states := states; gc_order := order; gc_page := p |})
  | RqPassEnergy i mode =>
      reply_as RePassEnergy
        (rpc_get_pass_energy {| ge_inscription_id := i; ge_block_height := Some h; ge_context := None;
                                ge_mode := mode |})
  | RqPassEnergyRange i from_height order p =>
      reply_as RePassEnergyRange
        (get_pass_energy_range {| gn_inscription_id := i; gn_from_height := from_height; gn_to_height := h;
                                  gn_order := order; gn_page := p |})
  | RqPassEnergyLeaderboard scope p =>
      reply_as RePassEnergyLeaderboard
        (get_pass_energy_leaderboard {| gl_at_height := Some h; gl_scope := scope; gl_page := p |})
  | RqPassBlockCommit => reply_as RePassBlockCommit (get_pass_block_commit_info (Some h))
  end.

(** The integers of a request are unsigned. *)
Definition unsigned_page (p : PageParams) : Prop := 0 <= pp_page p ∧ 0 <= pp_page_size p.
Definition unsigned_request (q : HeightRequest) : Prop :=
  match q with
  | RqActivePasses p | RqOwnerPasses _ _ _ p | RqRecentPasses _ _ p | RqPassEnergyLeaderboard _ p => unsigned_page p
  | RqPassHistory _ from_height _ p | RqPassEnergyRange _ from_height _ p => 0 <= from_height ∧ unsigned_page p
  | _ => True
  end.

(** ** Each handler is steady *)

Context {TL : RpcTextsLaws} (T : u32) (t0 : Tables) (e0 : EnergyDb) (HS : height_stores T t0 e0).
Context (h : u32) (Hh : 0 <= h <= T).
Abbreviation steady := (PassAnswers.steady T t0 e0) (only parsing).
Abbreviation any := (λ _, True) (only parsing).

Lemma steady_reply_as {A} (f : A → HeightReply) m : steady any m → steady any (reply_as f m).
Proof. intros Hm. eapply steady_bind; [exact Hm|]. intros a _. by apply steady_ret. Qed.

(** The fields of a request. *)
Ltac fields := cbn [gs_inscription_id gs_at_height gs_context ga_at_height ga_page gh_inscription_id gh_from_height
  gh_to_height gh_order gh_page go_owner go_at_height gw_owner gw_at_height gw_states gw_order gw_page gc_at_height
  gc_states gc_order gc_page ge_inscription_id ge_block_height ge_context ge_mode gn_inscription_id gn_from_height
  gn_to_height gn_order gn_page].
(** One step of a handler at [h]. *)
Ltac step :=
  first [ eapply steady_bind; [by apply steady_pagination|]
        | eapply steady_bind; [apply (steady_resolve _ _ _); lia|intros ? ->]
        | eapply steady_bind; [apply (steady_range _ _ _); lia|intros ? [-> ?]]
        | eapply steady_bind; [apply (steady_contextual _ _ _); lia|intros ? ->]
        | eapply steady_bind; [apply (steady_retained _ _ _)|intros ? _]
        | eapply steady_bind; [apply steady_id|intros ? ?]
        | eapply steady_bind; [apply steady_owner|intros ? _]
        | eapply steady_bind; [apply steady_optional_states|intros ? _]
        | eapply steady_bind; [apply steady_order|intros ? _]
        | eapply steady_bind; [apply steady_range_order|intros ? _]
        | by apply steady_ret | apply steady_err ].
(** An access to the pass store. *)
Ltac query lem := apply (steady_query _ _ _ HS); [intros t U; apply (lem T t0 t); (done || lia || apply HS)|].

Lemma steady_pass_snapshot i : steady any (serve h (RqPassSnapshot i)).
Proof.
  apply steady_reply_as. unfold get_pass_snapshot. fields. do 3 step.
  apply (steady_snapshot _ _ _ HS). lia.
Qed.
Lemma steady_active_passes p : unsigned_page p → steady any (serve h (RqActivePasses p)).
Proof.
  intros [_ Hp]. apply steady_reply_as. unfold get_active_passes_at_height. fields. step. intros ? _. step.
  eapply steady_bind; [query count_by_states_below; done|]. intros ? _.
  eapply steady_bind; [query page_by_states_below; done|]. intros ? _. step.
Qed.
Lemma stats_no_panic t : no_panic (get_pass_state_stats_from_history_at_height h t).1.
Proof.
  unfold get_pass_state_stats_from_history_at_height. cbn [fst].
  assert (∀ l r, no_panic r → no_panic (foldl (λ acc st, let? stats := acc in add_state_group h t stats st) r l)) as Hl.
  { induction l as [|st l IH]; intros r Hr; [done|]. apply IH. destruct r; cbn; [|done|by destruct (Hr msg)].
    unfold add_state_group. cbv zeta. destruct (_ =? 0); [done|]. by destruct (_ >? _). }
  by apply Hl.
Qed.
Lemma steady_pass_stats : steady any (serve h RqPassStats).
Proof.
  apply steady_reply_as. unfold get_pass_stats_at_height. step.
  eapply steady_bind; [query stats_below; apply stats_no_panic|]. intros ? _. step.
Qed.
Lemma steady_pass_history i lo order p : 0 <= lo → unsigned_page p → steady any (serve h (RqPassHistory i lo order p)).
Proof.
  intros Hlo [_ Hp]. apply steady_reply_as. unfold get_pass_history. fields. step. intros ? _. do 2 step.
  eapply steady_bind; [query history_count_below; unfold get_pass_history_count_in_height_range; by destruct (_ >? _)|].
  intros ? _. step.
  eapply steady_bind; [query history_page_below; unfold get_pass_history_by_page_in_height_range; by destruct (_ >? _)|].
  intros ? _. step.
Qed.
Lemma steady_owner_active o : steady any (serve h (RqOwnerActivePass o)).
Proof.
  apply steady_reply_as. unfold get_owner_active_pass_at_height. fields. do 2 step.
  eapply steady_bind; [apply steady_map_internal; query owner_active_below;
    unfold get_owner_active_pass_from_history_at_height, gets, bind; by destruct (_ <? _)%nat|].
  intros ? _. apply steady_option; [|intros; step]. intros row _.
  eapply steady_bind; [apply (steady_snapshot _ _ _ HS); lia|]. intros ? _.
  apply steady_option; intros; step.
Qed.
Lemma steady_owner_passes o states order p : unsigned_page p → steady any (serve h (RqOwnerPasses o states order p)).
Proof.
  intros [_ Hp]. apply steady_reply_as. unfold get_owner_passes_at_height. fields. step. intros ? _. do 4 step.
  eapply steady_bind; [query owner_count_below; done|]. intros ? _.
  eapply steady_bind; [query owner_page_below; done|]. intros ? _. step.
Qed.
Lemma steady_recent_passes states order p : unsigned_page p → steady any (serve h (RqRecentPasses states order p)).
Proof.
  intros [_ Hp]. apply steady_reply_as. unfold get_recent_passes. fields. step. intros ? _. do 3 step.
  eapply steady_bind; [query recent_count_below; done|]. intros ? _.
  eapply steady_bind; [query recent_page_below; done|]. intros ? _. step.
Qed.
Lemma steady_pass_energy i mode : steady any (serve h (RqPassEnergy i mode)).
Proof.
  apply steady_reply_as. unfold rpc_get_pass_energy. fields. do 3 step.
  eapply (steady_bind _ _ _ any).
  - apply steady_if; intros _; [|apply steady_if; intros _; [by apply (steady_latest_record _ _ _ HS)|step]].
    apply steady_energy; [|done|done]. intros e He _. unfold get_pass_energy_record_exact, get_pass_energy_record, gets, bind.
    cbn. by rewrite He by (cbn; lia).
  - intros ? _. apply steady_option; intros; step.
Qed.
Lemma steady_energy_range i lo order p :
  0 <= lo → unsigned_page p → steady any (serve h (RqPassEnergyRange i lo order p)).
Proof.
  intros Hlo [Hpg Hp]. pose proof (hs_height _ _ _ HS) as HT. apply steady_reply_as.
  unfold get_pass_energy_range. fields. step. intros ? [Hs Ho].
  eapply steady_bind; [apply steady_id|intros id Hid]. step.
  assert (wf_key (id, lo) ∧ wf_key (id, h)) as [Wl Wh] by (split; apply (wf_key_at _ _ _ HS); done || lia).
  pose proof (hs_energy _ _ _ HS) as W0.
  eapply (steady_bind _ _ _ any); [apply steady_energy; [|unfold count_pass_energy_records_in_height_range|done]|].
  - intros e He W. cbn. apply (energy_count_below T); done || lia.
  - cbn. destruct (lo >? h); [done|]. rewrite count_scan_spec by done. cbv zeta. by destruct (_ <=? _).
  - intros ? _. eapply steady_bind; [apply steady_range_order|intros desc _].
    eapply (steady_bind _ _ _ any); [apply steady_energy; [|
      unfold get_pass_energy_records_with_order, get_pass_energy_records_by_page_in_height_range_desc,
        get_pass_energy_records_by_page_in_height_range|done]|].
    + intros e He W. cbn. apply (energy_page_below T); done || lia.
    + cbn. by destruct desc, (lo >? h), (usize_checked_mul (pp_page p) (pp_page_size p)).
    + intros ? _. step.
Qed.
Lemma steady_block_commit : steady any (serve h RqPassBlockCommit).
Proof.
  apply steady_reply_as. unfold get_pass_block_commit_info. step. query commit_at_below. done.
Qed.

Lemma steady_serve q : unsigned_request q → steady any (serve h q).
Proof.
  destruct q; intros Hq.
  - apply steady_pass_snapshot.
  - by apply steady_active_passes.
  - apply steady_pass_stats.
  - destruct Hq. by apply steady_pass_history.
  - apply steady_owner_active.
  - by apply steady_owner_passes.
  - by apply steady_recent_passes.
  - apply steady_pass_energy.
  - destruct Hq. by apply steady_energy_range.
  - destruct Hq. by apply steady_reply_as, (steady_leaderboard _ _ _ HS).
  - apply steady_block_commit.
Qed.

(** C14. Once the indexer has passed a height, each of the eleven requests of [HeightRequest] about it has
    one answer: whatever blocks are added, and wherever between their writes the accesses of the request fall, the same request gets
    the same reply, or the same refusal up to its diagnostics, on every server whose stores extend
    those of the height; and it always gets one. *)
Theorem height_replies_stable s s' q :
  unsigned_request q → settled T t0 e0 s → settled T t0 e0 s' →
  ∃ r, answer (serve h q s).1 = Ok r ∧ answer (serve h q s').1 = Ok r.
Proof.
  intros Hq S1 S2. destruct (steady_serve q Hq) as (v & _ & Hv). exists v.
  split; [apply (Hv s S1)|apply (Hv s' S2)].
Qed.
End Replies.

(** ** The snapshot of a pass *)

Section Snapshot.
Context `{BitcoinCrate} `{IdText} `{RpcTexts} `{PassConfig}.
Context (T : u32) (t0 : Tables) (e0 : EnergyDb) (HS : height_stores T t0 e0).

(** What the ledger had recorded of the pass at [h], behind the retention floor. *)
Definition recorded_snapshot (i : InscriptionId) (h : u32) : RpcError + option PassSnapshot :=
  if h <? cfg_genesis_block_height then inl (Consensus StateNotRetained no_data)
  else inr (p ← t_passes t0 !! i; r ← row_at t0 h i;
            Some (pass_snapshot p (row_to_pass_history_item r) h)).

(** The tail of [get_pass_snapshot], once the height is resolved. *)
Lemma gives_recorded i h : h <= T → gives T t0 e0
  (let& _ := ensure_history_height_retained h in build_pass_snapshot i h) (recorded_snapshot i h).
Proof.
  intros Hh. unfold recorded_snapshot. destruct (Z.ltb_spec h cfg_genesis_block_height).
  { apply gives_bind_err, gives_refusal. by apply not_retained_refuses. }
  apply (gives_bind _ _ _ _ _ tt); [intros s St; by rewrite retained_run|].
  pose proof (gives_snapshot T t0 e0 HS i h Hh) as G. unfold snapshot_at in G.
  rewrite (last_history_row_at _ _ _ _ (hs_ledger _ _ _ HS)) in G.
  destruct (t_passes t0 !! i) as [p|]; [|done]. by destruct (row_at t0 h i).
Qed.

(** The snapshot of a pass at a retained height that the indexer has passed is the last event that the
    ledger had recorded of it at that height, with the columns that no event changes; there is none
    exactly when the ledger had no event of the pass.  A height below the retention floor is refused. *)
Theorem pass_snapshot_correct text i h s :
  settled T t0 e0 s → 0 <= h <= T → rpc_inscription_id_from_str text = Some i →
  answer (get_pass_snapshot {| gs_inscription_id := text; gs_at_height := Some h; gs_context := None |} s).1
  = Ok (recorded_snapshot i h).
Proof.
  intros St Hh Ei. apply (λ G : gives T t0 e0 _ _, G s St). clear s St.
  unfold get_pass_snapshot. cbn [gs_inscription_id gs_at_height gs_context].
  apply (gives_bind _ _ _ _ _ i); [intros s St; by unfold parse_inscription_id; rewrite Ei|].
  apply (gives_bind _ _ _ _ _ h); [apply (gives_resolve _ _ _); lia|]. apply gives_recorded. lia.
Qed.
End Snapshot.

(** ** Witnesses

    Requests about height 100, to a server at rest and to one whose accesses cross block 101. *)

#[local] Existing Instances demo_crate char_text char_parsers char_parsers_laws demo_config.

Lemma height_replies_stable_witness : ∃ r,
  answer (serve 100 (RqPassEnergyLeaderboard None {| pp_page := 0; pp_page_size := 10 |}) rest100).1 = Ok r
  ∧ answer (serve 100 (RqPassEnergyLeaderboard None {| pp_page := 0; pp_page_size := 10 |}) moving).1 = Ok r.
Proof.
  apply (height_replies_stable 100 stores100 energy100 stores100_heights);
    [lia|split; cbn; lia|apply rest100_settled|apply moving_settled].
Defined.
Lemma pass_snapshot_correct_witness :
  answer (get_pass_snapshot {| gs_inscription_id := char_of 5; gs_at_height := Some 100; gs_context := None |} moving).1
  = Ok (recorded_snapshot stores100 (pass_id 5) 100).
Proof.
  apply (pass_snapshot_correct 100 stores100 energy100 stores100_heights);
    [apply moving_settled|lia|reflexivity].
Defined.
