(* ===== verification/PassLeaderboard.v ===== *)
(** * The energy leaderboard

    [get_pass_energy_leaderboard] of [service/server.rs]: the data set it builds is the passes of the
    scope with their energies at the height, in one total order; a page is a slice of its first
    [top_k] rows; and what the cache changes about that. *)

From S2P Require Import Prelude Encoding Types EnergyFormula EnergyStorage Energy PassStorage PassLedger.
From S2P Require Import Pass Tx BalanceBlock BalanceDemo StateIds BalanceService BalanceServer.
From S2P Require Import PassService PassServer PassAsOf PassAnswers PassDemo PassReplies.

(** ** The order *)

Lemma rank_before_spec a b : ranks_before a b ↔
  lb_energy b < lb_energy a ∨ (lb_energy b = lb_energy a
    ∧ (lb_record_block_height b < lb_record_block_height a
       ∨ (lb_record_block_height b = lb_record_block_height a
          ∧ bytes_le (as_bytes (lb_inscription_id a)) (as_bytes (lb_inscription_id b)) = true))).
Proof.
  unfold ranks_before, rank_before.
  destruct (Z.compare_spec (lb_energy b) (lb_energy a)) as [E|E|E];
    [destruct (Z.compare_spec (lb_record_block_height b) (lb_record_block_height a)) as [E2|E2|E2]|..].
  - split; [intros Hb; right; split; [done|by right]|by intros [?|[? [?|[? ?]]]]; [lia|lia|]].
  - split; [intros _; right; split; [done|by left]|done].
  - split; [done|intros [?|[? [?|[? ?]]]]; lia].
  - split; [by intros _; left|done].
  - split; [done|intros [?|[? ?]]; lia].
Qed.
Lemma ranks_before_total a b : ranks_before a b ∨ ranks_before b a.
Proof.
  rewrite !rank_before_spec.
  destruct (Z.lt_total (lb_energy a) (lb_energy b)) as [?|[Ee|?]]; [by right; left| |by left; left].
  destruct (Z.lt_total (lb_record_block_height a) (lb_record_block_height b)) as [?|[Eh|?]];
    [by right; right; split; [|left]| |by left; right; split; [|left]].
  destruct (bytes_le_total (as_bytes (lb_inscription_id a)) (as_bytes (lb_inscription_id b)));
    [left|right]; right; split; [done|by right|done|by right].
Qed.
Lemma ranks_before_trans a b c : ranks_before a b → ranks_before b c → ranks_before a c.
Proof.
  rewrite !rank_before_spec.
  pose proof (bytes_le_trans (as_bytes (lb_inscription_id a)) (as_bytes (lb_inscription_id b)) (as_bytes (lb_inscription_id c))).
  intros [?|[? [?|[? ?]]]] [?|[? [?|[? ?]]]]; first [left; lia|right; split; [lia|first [left; lia|right; split; [lia|auto]]]].
Qed.
Lemma sort_leaderboard_sorted l : StronglySorted ranks_before (sort_leaderboard l).
Proof. apply StronglySorted_merge_sort; [exact ranks_before_trans|exact ranks_before_total]. Qed.
Lemma sort_leaderboard_Permutation l : sort_leaderboard l ≡ₚ l.
Proof. apply merge_sort_Permutation. Qed.

(** ** The data set *)

Section Dataset.
Context `{BitcoinCrate} `{IdText} `{RpcTexts} `{PassConfig}.
Context (T : u32) (t0 : Tables) (e0 : EnergyDb) (HS : height_stores T t0 e0).
Abbreviation gives := (PassAnswers.gives T t0 e0) (only parsing).

Definition load_page_size : Z := Z.max 1 cfg_active_address_page_size.
(** The pages that are read are counted in [usize] and addressed in [i64]. *)
Definition pages_fit : Prop := count (t_history t0) + 2 * load_page_size <= I64_MAX.

(** The passes of a scope at [h], and the rows of the leaderboard they have: a pass without an energy
    record has none. *)
Definition scope_rows (h : u32) (states : list MinerPassState) : list ActiveMinerPassInfo :=
  row_active_info <$> order_by row_order true (rows_with_states states (latest_rows t0 h)).
Definition scope_item (h : u32) (row : ActiveMinerPassInfo) : option PassEnergyLeaderboardItem :=
  (λ record, leaderboard_item row record h) <$> find_last (ap_inscription_id row) h e0.
Definition ranking (h : u32) (scope : PassEnergyLeaderboardScope) : list PassEnergyLeaderboardItem :=
  sort_leaderboard (omap (scope_item h) (scope_rows h (scope_states scope))).

Lemma scope_rows_length h states : (length (scope_rows h states) <= length (t_history t0))%nat.
Proof.
  unfold scope_rows, rows_with_states, latest_rows. rewrite length_fmap, order_by_Permutation.
  etransitivity; apply length_filter.
Qed.
Lemma scope_page h states k :
  states ≠ [] → 0 <= k → k * load_page_size <= I64_MAX → load_page_size <= I64_MAX →
  (get_passes_by_page_from_history_at_height_by_states k load_page_size h states t0).1
  = Ok (take (Z.to_nat load_page_size) (drop (Z.to_nat (k * load_page_size)) (scope_rows h states))).
Proof.
  intros Hst Hk Hb Hp. assert (0 < load_page_size) by (unfold load_page_size; lia).
  unfold get_passes_by_page_from_history_at_height_by_states, gets, scope_rows.
  rewrite bool_decide_false by done. cbn [fst]. unfold sql_page, sql_limit_offset, usize_mul.
  rewrite Z.mod_small by (unfold I64_MAX, U64_MAX in *; nia).
  unfold u64_as_i64. rewrite !(proj2 (Z.leb_le _ I64_MAX)) by done.
  rewrite (proj2 (Z.ltb_ge _ 0)) by lia. by rewrite fmap_take, fmap_drop.
Qed.
Lemma gives_storage {A} (m : M Tables A) a :
  (∀ t, undoable T t0 t → (m t).1 = (m t0).1) → (m t0).1 = Ok a → gives (storage m) (inr a).
Proof.
  intros Hm E s St. pose proof (se_tables _ _ _ _ (St (sv_now s) ltac:(done))) as U.
  rewrite (storage_run _ _ _ (eq_trans (Hm _ U) E)). split; [done|]. intros n Hn. apply St. cbn in Hn. lia.
Qed.
Lemma gives_value {A} (a b : A) : a = b → gives (rret a) (inr b).
Proof. intros <-. by intros s St. Qed.
Lemma gives_ret {A} (a : A) : gives (rret a) (inr a).
Proof. by apply gives_value. Qed.

Lemma gives_pages h states n : ∀ k,
  h <= T → states ≠ [] → 0 <= k → (k + Z.of_nat n) * load_page_size <= I64_MAX → load_page_size <= I64_MAX →
  gives (load_dataset_pages h states (seqZ k (Z.of_nat n)))
    (inr (take (Z.to_nat (Z.of_nat n * load_page_size)) (drop (Z.to_nat (k * load_page_size)) (scope_rows h states)))).
Proof.
  assert (1 <= load_page_size) as Hp1 by (unfold load_page_size; lia).
  induction n as [|n IH]; intros k Hh Hst Hk Hb Hp; [apply gives_ret|].
  rewrite seqZ_cons by lia. cbn [load_dataset_pages]. fold load_page_size.
  eapply gives_bind; [apply gives_storage; [intros t U; by apply (page_by_states_below T t0 t U)|]|].
  { apply scope_page; try done. nia. }
  set (l := drop (Z.to_nat (k * load_page_size)) (scope_rows h states)).
  destruct (take (Z.to_nat load_page_size) l) as [|x page] eqn:Ep.
  - assert (l = []) as ->; [|rewrite take_nil; apply gives_ret].
    destruct l; [done|]. destruct (Z.to_nat load_page_size) eqn:E; [lia|done].
  - replace (Z.pred (Z.of_nat (S n))) with (Z.of_nat n) by lia. change (Z.succ k) with (k + 1).
    eapply gives_bind; [apply IH; try done; [lia|nia]|].
    rewrite <-Ep. apply gives_value. unfold l.
    replace (Z.to_nat ((k + 1) * load_page_size)) with (Z.to_nat (k * load_page_size) + Z.to_nat load_page_size)%nat by lia.
    rewrite <-drop_drop. fold l. rewrite take_take_drop. f_equal. lia.
Qed.
Lemma gives_energy {A} (m : M EnergyDb A) a :
  (∀ e, (∀ k, k.2 <= T → pass_energy_cf e !! k = pass_energy_cf e0 !! k) → wf_db e → (m e).1 = (m e0).1) →
  (m e0).1 = Ok a → gives (energy_manager m) (inr a).
Proof.
  intros Hm E s St. destruct (St (sv_now s) ltac:(done)) as [_ Ee We _].
  unfold energy_manager, here. cbn [fst snd]. rewrite (Hm _ Ee We), E. split; [done|].
  intros n Hn. apply St. cbn in Hn. lia.
Qed.
Lemma gives_rank_rows h rows : 0 <= h <= T → wf_rows rows →
  gives (rank_rows h rows) (inr (omap (scope_item h) rows)).
Proof.
  intros Hh. induction rows as [|row rows IH]; intros Hw; cbn [rank_rows]; [apply gives_ret|].
  eapply gives_bind; [apply gives_energy|].
  - intros e He W. unfold get_pass_energy_record_at_or_before, find_last_pass_energy_record, gets. cbn [fst]. f_equal.
    apply (find_last_below T); [done|done|apply (hs_energy _ _ _ HS)|lia|]. apply (wf_key_at _ _ _ HS); [|done].
    apply Hw. by constructor.
  - reflexivity.
  - eapply gives_bind; [apply IH; intros r Hr; apply Hw; by constructor|]. cbn [omap list_omap].
    change (scope_item h row) with ((λ r, leaderboard_item row r h) <$> find_last (ap_inscription_id row) h e0).
    destruct (find_last _ h e0); apply gives_ret.
Qed.
Lemma scope_rows_wf h states : wf_rows (scope_rows h states).
Proof.
  intros row Hrow. apply list_elem_of_fmap in Hrow as (r & -> & Hr). apply (hs_ids _ _ _ HS).
  apply elem_of_order_by, list_elem_of_filter in Hr as [_ Hr]. by eapply latest_rows_log.
Qed.

(** The data set at [h] is the ranking. *)
Lemma gives_dataset h scope : 0 <= h <= T → pages_fit →
  gives (build_pass_energy_leaderboard_dataset h scope) (inr (count (ranking h scope), ranking h scope)).
Proof.
  intros Hh Hfit. unfold build_pass_energy_leaderboard_dataset, ranking.
  assert (scope_states scope ≠ []) as Hst by by destruct scope.
  set (states := scope_states scope) in *. set (rows := scope_rows h states).
  pose proof (scope_rows_length h states) as Hlen. fold rows in Hlen.
  assert (1 <= load_page_size) as Hp by (unfold load_page_size; lia).
  unfold pages_fit, count in Hfit.
  apply (gives_bind _ _ _ _ _ (count rows)).
  { apply gives_storage; [intros t U; apply (count_by_states_below T t0 t U); lia|].
    unfold get_pass_count_from_history_at_height_by_states. rewrite bool_decide_false by done.
    unfold gets, rows, scope_rows, count. cbn [fst]. by rewrite length_fmap, order_by_Permutation. }
  fold load_page_size. cbv zeta. destruct (Z.eqb_spec (count rows) 0) as [E|E]; unfold count in E.
  { destruct rows as [|]; [apply gives_ret|cbn in E; lia]. }
  assert (u64_add (count rows + load_page_size) (-1) = count rows + load_page_size - 1) as ->.
  { unfold u64_add, count. rewrite Z.mod_small; [lia|]. unfold U64_MAX, I64_MAX in *. lia. }
  set (pages := (count rows + load_page_size - 1) / load_page_size).
  assert (count rows <= pages * load_page_size <= count rows + load_page_size - 1) as Hpages.
  { unfold pages. pose proof (Z.div_mod (count rows + load_page_size - 1) load_page_size ltac:(lia)).
    pose proof (Z.mod_pos_bound (count rows + load_page_size - 1) load_page_size ltac:(lia)). lia. }
  unfold count in Hpages. assert (0 <= pages) as Hpos by nia.
  apply (gives_bind _ _ _ _ _ rows).
  { pose proof (gives_pages h states (Z.to_nat pages) 0 ltac:(lia) Hst ltac:(lia)) as G.
    rewrite Z2Nat.id in G by done. fold rows in G. rewrite take_ge in G by (rewrite length_drop; lia).
    apply G; unfold I64_MAX in *; lia. }
  eapply gives_bind; [apply gives_rank_rows; [done|apply scope_rows_wf]|]. apply gives_ret.
Qed.
End Dataset.

(** ** Pages *)

(** Requests that [validate_pagination] lets through. *)
Definition valid_page (p : PageParams) : Prop :=
  0 <= pp_page p ∧ 1 <= pp_page_size p <= MAX_RPC_PAGE_SIZE ∧ pp_page p * pp_page_size p <= U64_MAX.
Definition page_offset (p : PageParams) : Z := pp_page p * pp_page_size p.
Definition slice {A} (p : PageParams) (l : list A) : list A :=
  take (Z.to_nat (pp_page_size p)) (drop (Z.to_nat (page_offset p)) l).

Section Pages.
Context `{BitcoinCrate} `{IdText} `{RpcTexts} `{PassConfig}.

Lemma checked_mul_page p : valid_page p → usize_checked_mul (pp_page p) (pp_page_size p) = Some (page_offset p).
Proof. intros (? & ? & Ho). unfold usize_checked_mul. by rewrite (proj2 (Z.leb_le _ _) Ho). Qed.
Lemma validate_run p s : valid_page p → validate_pagination p s = (Ok (inr tt), s).
Proof.
  intros V. unfold validate_pagination. rewrite (checked_mul_page p V), Z.gtb_ltb. destruct V as (? & [? Hm] & _).
  assert ((pp_page_size p =? 0) = false) as -> by lia. by rewrite (proj2 (Z.ltb_ge _ _) Hm).
Qed.
Lemma offset_run p s : valid_page p → pagination_offset p s = (Ok (inr (page_offset p)), s).
Proof. intros V. unfold pagination_offset. by rewrite (checked_mul_page p V). Qed.
Lemma paginate_run items p s : valid_page p → count items <= U64_MAX →
  paginate_leaderboard_items items (count items) p s = (Ok (inr (slice p items)), s).
Proof.
  intros V Hc. unfold paginate_leaderboard_items. rewrite (rbind_run _ _ _ _ _ (offset_run p s V)).
  unfold slice, count in *. fold (page_offset p) in *. destruct V as (? & ? & Ho). fold (page_offset p) in Ho.
  assert (0 <= page_offset p) by (unfold page_offset; nia). set (o := page_offset p) in *.
  rewrite Z.geb_leb.
  destruct (Z.leb_spec (Z.of_nat (length items)) o) as [Hle|Hlt]; cbn [orb]; unfold rret, ret; do 3 f_equal.
  - by rewrite drop_ge, take_nil by lia.
  - set (k := Z.min _ _ - o).
    destruct (Z_le_gt_dec (pp_page_size p) k) as [Hk|Hk].
    + f_equal. unfold k in *. lia.
    + rewrite !(take_ge (drop _ _)); [done|rewrite length_drop; unfold k in *; lia..].
Qed.
End Pages.

(** ** The reply *)

Section Reply.
Context `{BitcoinCrate} `{IdText} `{RpcTexts} `{PassConfig}.

(** The rows that are served, and the total that is served with a page of them. *)
Definition board (t0 : Tables) (e0 : EnergyDb) (h : u32) (scope : PassEnergyLeaderboardScope) :
    list PassEnergyLeaderboardItem := take (Z.to_nat top_k) (ranking t0 e0 h scope).
Definition scope_text (text : option string) (scope : PassEnergyLeaderboardScope) : Prop :=
  ∀ s, parse_leaderboard_scope text s = (Ok (inr scope), s).

Lemma top_k_pos : 1 <= top_k.
Proof. unfold top_k. lia. Qed.
Lemma board_count t0 e0 h scope :
  count (board t0 e0 h scope) = Z.min (count (ranking t0 e0 h scope)) top_k.
Proof. pose proof top_k_pos. unfold board, count. rewrite length_take. lia. Qed.
Lemma ranking_count t0 e0 h scope : count (ranking t0 e0 h scope) <= count (t_history t0).
Proof.
  unfold ranking, count. rewrite sort_leaderboard_Permutation.
  pose proof (scope_rows_length t0 h (scope_states scope)). set (rows := scope_rows _ _ _) in *.
  assert (length (omap (scope_item e0 h) rows) <= length rows)%nat; [|lia].
  clear. induction rows as [|r rows IH]; [done|]. cbn [omap list_omap].
  destruct (scope_item e0 h r); cbn [length]; [lia|]. etransitivity; [exact IH|]. lia.
Qed.
Lemma board_beyond t0 e0 h scope p : valid_page p → top_k <= page_offset p → slice p (board t0 e0 h scope) = [].
Proof.
  intros _ Ho. unfold slice. rewrite drop_ge, take_nil; [done|]. pose proof top_k_pos.
  pose proof (board_count t0 e0 h scope). unfold count in *. lia.
Qed.

Lemma board_capped t0 e0 h scope :
  take (Z.to_nat (count (board t0 e0 h scope))) (ranking t0 e0 h scope) = board t0 e0 h scope.
Proof.
  rewrite board_count. unfold board, count. pose proof top_k_pos.
  destruct (Z_le_gt_dec (Z.of_nat (length (ranking t0 e0 h scope))) top_k);
    [rewrite !take_ge by lia; done|f_equal; lia].
Qed.
Lemma board_fits t0 e0 h scope : pages_fit t0 → count (board t0 e0 h scope) <= U64_MAX.
Proof.
  rewrite board_count. pose proof (ranking_count t0 e0 h scope).
  unfold pages_fit, load_page_size, U64_MAX, I64_MAX in *. lia.
Qed.

Context (T : u32) (t0 : Tables) (e0 : EnergyDb) (HS : height_stores T t0 e0) (Fit : pages_fit t0).

End Reply.

(** ** The cache *)

Section Cache.
Context `{BitcoinCrate} `{IdText} `{RpcTexts} `{PassConfig}.

Lemma answer_ok {A} (r : result (RpcError + A)) a : answer r = Ok (inr a) → r = Ok (inr a).
Proof. destruct r as [[e|a']|e|e]; cbn; congruence. Qed.

(** The height that the next access finds synced. *)
Definition synced_now (T : u32) (s : PassServer) : Prop :=
  (get_synced_btc_block_height (mo_tables (here s))).1 = Ok (Some T).
Lemma resolve_latest_run T s : synced_now T s → resolve_height None s = (Ok (inr T), tick s).
Proof.
  intros Hs. unfold resolve_height. rewrite (rbind_run _ _ _ _ _ (synced_height_run T s Hs)). cbv iota zeta.
  cbn. by rewrite Z.gtb_ltb, Z.ltb_irrefl.
Qed.

(** What a request without a height leaves in the cache. *)
Definition board_entry (T : u32) (scope : PassEnergyLeaderboardScope) (b : list PassEnergyLeaderboardItem) :
    PassEnergyLeaderboardCacheEntry :=
  {| ce_resolved_height := T; ce_scope := scope_as_str scope; ce_top_k := top_k; ce_total := count b; ce_items := b |}.
Definition board_page (T : u32) (b : list PassEnergyLeaderboardItem) (p : PageParams) : Page PassEnergyLeaderboardItem :=
  leaderboard_page T (count b) (slice p b).
Definition latest_request (text : option string) (p : PageParams) : GetPassEnergyLeaderboardParams :=
  {| gl_at_height := None; gl_scope := text; gl_page := p |}.

(** A hit is a page of the entry, whatever the stores hold. *)
Lemma cached_run T scope b p s :
  sv_leaderboard_cache s = Some (board_entry T scope b) → valid_page p → count b <= U64_MAX → count b <= top_k →
  try_get_cached_leaderboard_page T scope p s = (Ok (inr (Some (board_page T b p))), s).
Proof.
  intros Ec V Hb Ht. unfold try_get_cached_leaderboard_page. rewrite (rbind_run _ _ _ _ _ (offset_run p s V)).
  erewrite rbind_run by (unfold pure, cached_entry, gets, bind; by rewrite Ec). cbv beta iota.
  cbn [board_entry ce_resolved_height ce_scope ce_top_k ce_total ce_items].
  rewrite !Z.eqb_refl, String.eqb_refl. cbn [negb orb]. rewrite !Z.geb_leb.
  pose proof (paginate_run b p s V Hb) as Hp. unfold board_page.
  destruct (Z.leb_spec (count b) (page_offset p)) as [Ho|Ho].
  - rewrite orb_true_r. cbn [orb]. assert (slice p b = []) as ->; [|done].
    unfold slice, count in *. by rewrite drop_ge, take_nil by lia.
  - rewrite (proj2 (Z.leb_gt top_k _)) by lia. cbn [orb]. by rewrite (rbind_run _ _ _ _ _ Hp).
Qed.
Lemma served_from_cache T text scope b p s : cfg_leaderboard_cache_enabled = true →
  synced_now T s → scope_text text scope →
  sv_leaderboard_cache s = Some (board_entry T scope b) → valid_page p → count b <= U64_MAX → count b <= top_k →
  (get_pass_energy_leaderboard (latest_request text p) s).1 = Ok (inr (board_page T b p)).
Proof.
  intros Hon Hs Ht Ec V Hb Hk. unfold get_pass_energy_leaderboard. cbn [latest_request gl_at_height gl_scope gl_page].
  rewrite (rbind_run _ _ _ _ _ (validate_run p s V)), (rbind_run _ _ _ _ _ (resolve_latest_run T s Hs)).
  rewrite (rbind_run _ _ _ _ _ (Ht _)), (rbind_run _ _ _ _ _ (offset_run p _ V)), Hon. cbv zeta. cbn [andb is_none].
  by rewrite (rbind_run _ _ _ _ _ (cached_run T scope b p (tick s) Ec V Hb Hk)).
Qed.

(** A miss computes the board and leaves it in the cache. *)
Lemma fills_cache T t0 e0 text scope p s : cfg_leaderboard_cache_enabled = true →
  height_stores T t0 e0 → pages_fit t0 → settled T t0 e0 s → synced_now T s → scope_text text scope →
  sv_leaderboard_cache s = None → valid_page p → page_offset p < top_k →
  ∃ s', get_pass_energy_leaderboard (latest_request text p) s = (Ok (inr (board_page T (board t0 e0 T scope) p)), s')
    ∧ sv_leaderboard_cache s' = Some (board_entry T scope (board t0 e0 T scope)).
Proof.
  intros Hon HS Fit St Hs Ht Ec V Ho. pose proof (hs_height _ _ _ HS) as HT. set (b := board t0 e0 T scope).
  assert (settled T t0 e0 (tick s)) as St' by (intros n Hn; apply St; cbn in Hn; lia).
  destruct (gives_dataset T t0 e0 HS T scope ltac:(lia) Fit _ St') as [Ed%answer_ok _].
  destruct (build_pass_energy_leaderboard_dataset T scope (tick s)) as [r' s1] eqn:Em. cbn [fst] in Ed. subst r'.
  unfold get_pass_energy_leaderboard. cbn [latest_request gl_at_height gl_scope gl_page].
  rewrite (rbind_run _ _ _ _ _ (validate_run p s V)), (rbind_run _ _ _ _ _ (resolve_latest_run T s Hs)).
  rewrite (rbind_run _ _ _ _ _ (Ht _)), (rbind_run _ _ _ _ _ (offset_run p _ V)), Hon. cbv zeta. cbn [andb is_none].
  rewrite (rbind_run _ _ (tick s) None (tick s)).
  2:{ unfold try_get_cached_leaderboard_page. rewrite (rbind_run _ _ _ _ _ (offset_run p _ V)).
      unfold pure, cached_entry, gets, rbind, bind. cbn. by rewrite Ec. }
  cbv beta iota. rewrite Z.geb_leb, (proj2 (Z.leb_gt _ _)) by done.
  rewrite (rbind_run _ _ _ _ _ Em). cbv beta iota zeta.
  rewrite <-board_count, board_capped. fold b.
  rewrite (rbind_run _ _ _ _ _ (paginate_run b p s1 V (board_fits _ _ _ _ Fit))).
  eexists. split; [done|]. cbn. unfold board_entry. do 2 f_equal.
  unfold b, board. by rewrite take_take, Nat.min_id.
Qed.

(** C36. The cache and a reorganisation: the board that a request without a height leaves in the cache is
    what every later request without a height is served while the synced height is the same, also on a
    server whose stores have been rolled back and rebuilt with other blocks. *)
Theorem leaderboard_cache_outlives_stores T t0 e0 text scope p p' s s' :
  cfg_leaderboard_cache_enabled = true → height_stores T t0 e0 → pages_fit t0 →
  settled T t0 e0 s → synced_now T s → sv_leaderboard_cache s = None →
  scope_text text scope → valid_page p → page_offset p < top_k → valid_page p' →
  sv_leaderboard_cache s' = sv_leaderboard_cache (get_pass_energy_leaderboard (latest_request text p) s).2 →
  synced_now T s' →
  (get_pass_energy_leaderboard (latest_request text p) s).1 = Ok (inr (board_page T (board t0 e0 T scope) p))
  ∧ (get_pass_energy_leaderboard (latest_request text p') s').1
    = Ok (inr (board_page T (board t0 e0 T scope) p')).
Proof.
  intros Hon HS Fit St Hs Ec Ht V Ho V' Ec' Hs'.
  destruct (fills_cache T t0 e0 text scope p s) as (s1 & E1 & Ef); try done. rewrite E1 in *. split; [done|].
  cbn [snd] in Ec'. apply (served_from_cache T text scope); try done; [congruence|by apply board_fits|].
  rewrite board_count. lia.
Qed.
End Cache.

(** ** Witnesses

    Two active passes at 100 and one served row; block 101 retires one of the passes. *)

#[local] Existing Instances demo_crate char_text char_parsers demo_config.

Definition first_page : PageParams := {| pp_page := 0; pp_page_size := 10 |}.
Lemma first_page_valid : valid_page first_page.
Proof. unfold valid_page, first_page, U64_MAX, MAX_RPC_PAGE_SIZE. cbn. lia. Qed.
Lemma stores100_fit : pages_fit stores100.
Proof. by vm_compute. Qed.
Lemma default_scope : scope_text None ScopeActive.
Proof. done. Qed.


(** A server at height 100 again, with other stores: those of a chain without the passes. *)
Definition other_stores : Tables := adopt 100 empty_tables.
Definition rebuilt : PassServer :=
  {| sv_now := 0;
     sv_moments := λ _, {| mo_tables := other_stores; mo_energy_db := empty_energy_db; mo_status := ready_status 100 |};
     sv_leaderboard_cache :=
       sv_leaderboard_cache (get_pass_energy_leaderboard (latest_request None first_page) rest100).2 |}.
Lemma leaderboard_cache_outlives_stores_witness :
  (get_pass_energy_leaderboard (latest_request None first_page) rest100).1
  = Ok (inr (board_page 100 (board stores100 energy100 100 ScopeActive) first_page))
  ∧ (get_pass_energy_leaderboard (latest_request None first_page) rebuilt).1
    = Ok (inr (board_page 100 (board stores100 energy100 100 ScopeActive) first_page)).
Proof.
  apply (leaderboard_cache_outlives_stores 100 stores100 energy100 None ScopeActive first_page first_page rest100 rebuilt);
    [reflexivity|apply stores100_heights|apply stores100_fit|apply rest100_settled|by vm_compute|reflexivity
    |apply default_scope|apply first_page_valid|by vm_compute|apply first_page_valid|reflexivity|by vm_compute].
Defined.
