(* ===== verification/PassPins.v ===== *)
(** * Pinned states

    A caller may pin the state that a query has to be answered from: the snapshot id, the block hash,
    the versions, the local state commit or the system state id that it expects at a height.  What a
    server answers then: the state reference that it rebuilds from its stores, and the queries that
    are answered only when the reference has every value that is pinned. *)

From S2P Require Import Prelude Encoding Types EnergyFormula EnergyStorage Energy PassStorage PassLedger.
From S2P Require Import Pass Tx BalanceBlock BalanceChain BalanceDemo StateIds BalanceService BalanceServer PassService PassServer.
From S2P Require Import PassAsOf PassAnswers PassDemo PassReplies PassLeaderboard.

(** ** The adopted snapshot *)

(** The tables after [upsert_balance_history_snapshot_anchor_with_conn]. *)
Definition adopted (a : BalanceHistorySnapshotInfo) (m : PassMoment) : Prop :=
  ∃ t, upsert_balance_history_snapshot_anchor_with_conn a t = (Ok tt, mo_tables m).
Record adopted_columns (a : BalanceHistorySnapshotInfo) (hash commit : string) (m : PassMoment) : Prop := {
  ac_synced : t_state (mo_tables m) !! BTC_SYNCED_BLOCK_HEIGHT_KEY = Some (bs_stable_height a);
  ac_height : t_state (mo_tables m) !! BALANCE_HISTORY_SNAPSHOT_HEIGHT_KEY = Some (bs_stable_height a);
  ac_lag : t_state (mo_tables m) !! BALANCE_HISTORY_SNAPSHOT_STABLE_LAG_KEY = Some (bs_stable_lag a);
  ac_hash : t_state_text (mo_tables m) !! BALANCE_HISTORY_SNAPSHOT_BLOCK_HASH_KEY = Some hash;
  ac_commit : t_state_text (mo_tables m) !! BALANCE_HISTORY_SNAPSHOT_BLOCK_COMMIT_KEY = Some commit;
  ac_version : t_state_text (mo_tables m) !! BALANCE_HISTORY_SNAPSHOT_COMMIT_PROTOCOL_VERSION_KEY
    = Some (bs_commit_protocol_version a);
  ac_algo : t_state_text (mo_tables m) !! BALANCE_HISTORY_SNAPSHOT_COMMIT_HASH_ALGO_KEY
    = Some (bs_commit_hash_algo a)
}.
Lemma adopted_read a m : adopted a m → ∃ hash commit,
  bs_stable_block_hash a = Some hash ∧ bs_latest_block_commit a = Some commit ∧ adopted_columns a hash commit m.
Proof.
  intros [t E]. unfold upsert_balance_history_snapshot_anchor_with_conn, bind, lift in E.
  destruct (bs_stable_block_hash a) as [hash|]; [|done]. destruct (bs_latest_block_commit a) as [commit|]; [|done].
  exists hash, commit. split_and!; [done..|]. cbn in E. injection E as Em.
  split; rewrite <-Em; cbn; by rewrite ?lookup_insert_ne, ?lookup_insert_eq by done.
Qed.

Section Pins.
Context `{BitcoinCrate} `{IdText} `{RpcTexts} `{PassConfig}.

(** ** Selectors *)

(** The refusals that the selectors of [expected] call for, in the order they are compared. *)
Definition differs {A} `{EqDecision A} (code : ConsensusRpcErrorCode) (expected : option A) (actual : A) :
    list ConsensusRpcErrorCode :=
  match expected with Some v => if bool_decide (v = actual) then [] else [code] | None => [] end.
Definition mismatches (expected : ConsensusStateReference) (r : HistoricalStateRefInfo) :
    list ConsensusRpcErrorCode :=
  let snapshot := hr_snapshot_info r in let identity := is_consensus_identity snapshot in
  differs SnapshotIdMismatch (rf_snapshot_id expected) (is_snapshot_id snapshot)
  ++ differs SnapshotIdMismatch (rf_stable_height expected) (is_balance_history_stable_height snapshot)
  ++ differs BlockHashMismatch (rf_stable_block_hash expected) (is_stable_block_hash snapshot)
  ++ differs VersionMismatch (rf_balance_history_api_version expected) (cs_balance_history_api_version identity)
  ++ differs VersionMismatch (rf_balance_history_semantics_version expected)
       (cs_balance_history_semantics_version identity)
  ++ differs VersionMismatch (rf_usdb_index_protocol_version expected) USDB_INDEX_PROTOCOL_VERSION
  ++ differs LocalStateCommitMismatch (rf_local_state_commit expected)
       (li_local_state_commit (hr_local_state_commit_info r))
  ++ differs SystemStateIdMismatch (rf_system_state_id expected) (st_system_state_id (hr_system_state_info r)).
Definition first_refusal (codes : list ConsensusRpcErrorCode) : RpcError + unit :=
  match codes with [] => inr tt | code :: _ => inl (Consensus code no_data) end.

Lemma no_mismatch_empty expected r : is_empty expected = true → mismatches expected r = [].
Proof.
  unfold is_empty, mismatches. intros E. rewrite !andb_true_iff in E. destruct E as [[[[[[[? ?] ?] ?] ?] ?] ?] ?].
  by repeat match goal with Ho : is_none ?o = true |- _ => destruct o; [discriminate Ho|clear Ho] end.
Qed.

Section Validate.
Context (T : u32) (t0 : Tables) (e0 : EnergyDb).
Lemma gives_expect {A} `{EqDecision A} code h expected_state actual_state detail (expected : option A) actual :
  gives T t0 e0 (expect_selector code h expected_state actual_state detail expected actual)
    (first_refusal (differs code expected actual)).
Proof.
  unfold expect_selector, differs. destruct expected as [v|]; [|by intros s St].
  case_bool_decide; [by intros s St|]. apply gives_refusal, refuses_refuse.
  apply sound_bind; [apply sound_attempt; auto with quiet|]. intros r. apply sound_ret.
Qed.
Lemma gives_then_expect (m k : Rpc unit) codes codes' :
  gives T t0 e0 m (first_refusal codes) → gives T t0 e0 k (first_refusal codes') →
  gives T t0 e0 (rbind m (λ _, k)) (first_refusal (codes ++ codes')).
Proof.
  intros Hm Hk. destruct codes as [|code codes]; [by eapply gives_bind|by apply gives_bind_err].
Qed.
Lemma gives_validate h r expected :
  gives T t0 e0 (validate_pass_state_ref h r expected) (first_refusal (mismatches expected r)).
Proof.
  unfold validate_pass_state_ref. destruct (is_empty expected) eqn:Ee.
  { rewrite no_mismatch_empty by done. by intros s St. }
  cbv zeta. unfold mismatches. cbv zeta.
  repeat (apply gives_then_expect; [apply gives_expect|]). apply gives_expect.
Qed.
End Validate.

(** ** The state reference of a height *)

Section Reference.
Context (T : u32) (t0 : Tables) (e0 : EnergyDb) (HS : height_stores T t0 e0).

Definition latest_commit_at (h : u32) : option StoredPassBlockCommitEntry :=
  match (get_latest_pass_block_commit_at_or_before h t0).1 with Ok c => c | _ => None end.
(** The reference that the stores determine, behind the retention floor. *)
Definition recorded_state_ref (h : u32) : RpcError + HistoricalStateRefInfo :=
  if h <? cfg_genesis_block_height then inl (Consensus StateNotRetained no_data)
  else match t_anchors t0 !! h, (get_active_balance_snapshot h t0).1 with
  | Some anchor, Ok (Some balance) =>
      let snapshot := indexer_snapshot_info cfg_network h anchor in
      inr (historical_state_ref h snapshot
             (local_state_commit_info_of h (is_snapshot_id snapshot)
                (pass_commit_identity <$> latest_commit_at h) (Some (active_balance_identity balance))))
  | Some _, Err e => inl (Internal e)
  | _, _ => inl (Consensus HistoryNotAvailable no_data)
  end.

Abbreviation gives := (PassAnswers.gives T t0 e0) (only parsing).

Lemma gives_retained h : cfg_genesis_block_height <= h → gives (ensure_history_height_retained h) (inr tt).
Proof. intros Hh s St. by rewrite retained_run. Qed.
Lemma gives_storage_err {A} (m : M Tables A) e :
  (∀ t, undoable T t0 t → (m t).1 = (m t0).1) → (m t0).1 = Err e → gives (storage m) (inl (Internal e)).
Proof.
  intros Hm E s St. pose proof (se_tables _ _ _ _ (St (sv_now s) ltac:(done))) as U.
  rewrite (storage_run _ _ _ (eq_trans (Hm _ U) E)). split; [done|]. intros n Hn. apply St. cbn in Hn. lia.
Qed.
Lemma history_missing_refuses {A} h detail :
  refuses (A := A) HistoryNotAvailable
    (let& current := current_state_or_none in refuse HistoryNotAvailable (pass_error_data (Some h) current (Some detail))).
Proof. apply refuses_bind; [apply sound_current_or_none|]. intros current. apply refuses_refuse, sound_error_data. Qed.
Lemma balance_missing_refuses {A} h detail :
  refuses (A := A) HistoryNotAvailable
    (let& current_snapshot := pure (attempt upstream_snapshot_info) in
     let& current := current_state_of (mjoin current_snapshot) in
     refuse HistoryNotAvailable (pass_error_data (Some h) current (Some detail))).
Proof.
  apply refuses_bind; [apply sound_attempt; auto with quiet|]. intros o. apply refuses_bind.
  - unfold current_state_of. apply sound_bind; [|intros; apply sound_ret].
    destruct (mjoin o); [apply sound_attempt; auto with quiet|apply sound_ret].
  - intros current. apply refuses_refuse, sound_error_data.
Qed.
Lemma gives_state_ref h : h <= T → gives (build_historical_state_ref_info h) (recorded_state_ref h).
Proof.
  intros Hh. unfold build_historical_state_ref_info, recorded_state_ref.
  destruct (Z.ltb_spec h cfg_genesis_block_height) as [Hg|Hg].
  { apply gives_bind_err. unfold upstream_snapshot_info_at_height.
    apply gives_bind_err, gives_refusal. by apply not_retained_refuses. }
  assert (gives (storage (get_balance_history_snapshot_anchor_at_height h)) (inr (t_anchors t0 !! h))) as Ga.
  { apply gives_storage; [|done]. intros t U. by apply (anchor_at_below T t0 t U). }
  unfold upstream_snapshot_info_at_height. destruct (t_anchors t0 !! h) as [anchor|].
  2:{ apply gives_bind_err. eapply gives_bind; [by apply gives_retained|]. eapply gives_bind; [exact Ga|].
      cbv iota. apply gives_refusal, history_missing_refuses. }
  eapply gives_bind; [eapply gives_bind; [by apply gives_retained|];
    eapply gives_bind; [exact Ga|apply gives_ret]|].
  unfold build_local_state_commit_info_at_height. cbn [indexer_snapshot_info is_local_synced_block_height].
  assert (gives (storage (get_latest_pass_block_commit_at_or_before h)) (inr (latest_commit_at h))) as Gc.
  { apply gives_storage; [intros t U; by apply (latest_commit_below T t0 t U)|done]. }
  assert (∀ t, undoable T t0 t → (get_active_balance_snapshot h t).1 = (get_active_balance_snapshot h t0).1) as Hb
    by (intros t U; by apply (balance_at_below T t0 t U)).
  pose proof (λ a, gives_storage T t0 e0 _ a Hb) as Gb. pose proof (λ e, gives_storage_err _ e Hb) as Ge. clear Hb.
  rewrite (proj2 (Z.ltb_ge _ _) Hg).
  destruct (get_active_balance_snapshot h t0).1 as [[balance|]|e|e] eqn:Eb.
  - eapply gives_bind; [|apply gives_ret]. eapply gives_bind; [exact Gc|]. eapply gives_bind; [|apply gives_ret].
    eapply gives_bind; [by apply gives_retained|]. eapply gives_bind; [by apply Gb|].
    apply gives_ret.
  - apply gives_bind_err. eapply gives_bind; [exact Gc|]. apply gives_bind_err.
    eapply gives_bind; [by apply gives_retained|]. eapply gives_bind; [by apply Gb|].
    apply gives_refusal, balance_missing_refuses.
  - apply gives_bind_err. eapply gives_bind; [exact Gc|]. apply gives_bind_err.
    eapply gives_bind; [by apply gives_retained|]. apply gives_bind_err. by apply Ge.
  - by destruct (get_balance_no_panic h t0 e).
Qed.

(** ** Contextual queries *)

(** Every column of the adopted snapshot can be read, though the columns of two moments may be of
    different snapshots. *)
Definition anchor_readable (m : PassMoment) : Prop :=
  ∃ height hash commit lag version algo,
    t_state (mo_tables m) !! BALANCE_HISTORY_SNAPSHOT_HEIGHT_KEY = Some height ∧ 0 <= height
    ∧ t_state_text (mo_tables m) !! BALANCE_HISTORY_SNAPSHOT_BLOCK_HASH_KEY = Some hash
    ∧ t_state_text (mo_tables m) !! BALANCE_HISTORY_SNAPSHOT_BLOCK_COMMIT_KEY = Some commit
    ∧ t_state (mo_tables m) !! BALANCE_HISTORY_SNAPSHOT_STABLE_LAG_KEY = Some lag ∧ 0 <= lag
    ∧ t_state_text (mo_tables m) !! BALANCE_HISTORY_SNAPSHOT_COMMIT_PROTOCOL_VERSION_KEY = Some version
    ∧ t_state_text (mo_tables m) !! BALANCE_HISTORY_SNAPSHOT_COMMIT_HASH_ALGO_KEY = Some algo.
Definition anchored (s : PassServer) : Prop := ∀ n, (sv_now s <= n)%nat → anchor_readable (sv_moments s n).

(** A reading of one column that is not missing. *)
Lemma numeric_run {B} key e (f : i64 → Rpc B) s a : t_state (mo_tables (here s)) !! key = Some a →
  (let& o := storage (get_numeric_state key) in let& x := checked (ok_or e o) in f x) s = f a (tick s).
Proof. intros E. unfold storage, get_numeric_state, gets, rbind, bind. cbn. by rewrite E. Qed.
Lemma text_run {B} key e (f : string → Rpc B) s a : t_state_text (mo_tables (here s)) !! key = Some a →
  (let& o := storage (get_text_state key) in let& x := checked (ok_or e o) in f x) s = f a (tick s).
Proof. intros E. unfold storage, get_text_state, gets, rbind, bind. cbn. by rewrite E. Qed.
Lemma anchored_snapshot s : anchored s → ∃ x s', upstream_snapshot_info s = (Ok (inr (Some x)), s').
Proof.
  intros Hs. unfold upstream_snapshot_info, read_anchor.
  assert (∀ n, anchor_readable (sv_moments s (n + sv_now s)%nat)) as Hn by (intros n; apply Hs; lia).
  destruct (Hn 0%nat) as (height & _ & _ & _ & _ & _ & Eh & Ph & _).
  destruct (Hn 1%nat) as (_ & hash & _ & _ & _ & _ & _ & _ & Ehash & _).
  destruct (Hn 2%nat) as (_ & _ & commit & _ & _ & _ & _ & _ & _ & Ecommit & _).
  destruct (Hn 3%nat) as (_ & _ & _ & lag & _ & _ & _ & _ & _ & _ & Elag & Plag & _).
  destruct (Hn 4%nat) as (_ & _ & _ & _ & version & _ & _ & _ & _ & _ & _ & _ & Eversion & _).
  destruct (Hn 5%nat) as (_ & _ & _ & _ & _ & algo & _ & _ & _ & _ & _ & _ & _ & Ealgo).
  erewrite rbind_run.
  2:{ assert (storage (get_numeric_state BALANCE_HISTORY_SNAPSHOT_HEIGHT_KEY) s = (Ok (inr (Some height)), tick s))
        as Es by (apply (f_equal (λ o, (Ok (inr o), tick s)) Eh)).
      rewrite (rbind_run _ _ _ _ _ Es), (proj2 (Z.ltb_ge _ _) Ph), (text_run _ _ _ (tick s) hash Ehash).
      rewrite (text_run _ _ _ (tick (tick s)) commit Ecommit), (numeric_run _ _ _ (tick (tick (tick s))) lag Elag), (proj2 (Z.ltb_ge _ _) Plag).
      rewrite (text_run _ _ _ (tick (tick (tick (tick s)))) version Eversion), (text_run _ _ _ (tick (tick (tick (tick (tick s))))) algo Ealgo).
      done. }
  cbv iota. eexists _, _. reflexivity.
Qed.

(** A later access of the same request. *)
Definition later (s s' : PassServer) : Prop := sv_moments s' = sv_moments s ∧ (sv_now s <= sv_now s')%nat.
Lemma settled_later s s' : settled T t0 e0 s → later s s' → settled T t0 e0 s'.
Proof. intros St [Em En] n Hn. rewrite Em. apply St. lia. Qed.
Lemma anchored_later s s' : anchored s → later s s' → anchored s'.
Proof. intros An [Em En] n Hn. rewrite Em. apply An. lia. Qed.
Lemma quiet_later {A} (m : Rpc A) s : quiet m → later s (m s).2.
Proof. intros Q. by destruct (Q s) as (r & _ & Em & En & _). Qed.
Lemma sound_run {A} (m : Rpc A) s : sound m → ∃ a s', m s = (Ok (inr a), s') ∧ later s s'.
Proof.
  intros [Q Hm]. destruct (Hm s) as [a E]. pose proof (quiet_later m s Q) as L.
  destruct (m s) as [r s']. cbn in *. subst r. eauto.
Qed.
Lemma sound_current o : sound (current_state_of o).
Proof.
  unfold current_state_of. apply sound_bind; [|intros; apply sound_ret].
  destruct o; [apply sound_attempt; auto with quiet|apply sound_ret].
Qed.
Lemma synced_run s : settled T t0 e0 s → ∃ x, T <= x ∧ synced_height s = (Ok (inr (Some x)), tick s).
Proof.
  intros St. destruct (se_synced _ _ _ _ (St (sv_now s) ltac:(done))) as (x & Hx & HT).
  exists x. split; [done|]. by apply synced_height_run.
Qed.
Lemma resolve_pinned_run h s : settled T t0 e0 s → anchored s → h <= T →
  ∃ s', resolve_height_with_consensus_error (Some h) s = (Ok (inr h), s') ∧ later s s'.
Proof.
  intros St An Hh. unfold resolve_height_with_consensus_error.
  destruct (anchored_snapshot s An) as (x & s1 & E1). rewrite (rbind_run _ _ _ _ _ E1).
  pose proof (quiet_later upstream_snapshot_info s quiet_snapshot) as L1. rewrite E1 in L1. cbn [snd] in L1.
  destruct (sound_run (current_state_of (Some x)) s1 (sound_current _)) as (c & s2 & E2 & L2).
  rewrite (rbind_run _ _ _ _ _ E2). assert (later s s2) as [Em En] by (destruct L1, L2; split; [congruence|lia]).
  destruct (synced_run s2) as (y & Hy & E3); [by apply (settled_later s)|].
  rewrite (rbind_run _ _ _ _ _ E3). cbv iota zeta. cbn [default]. rewrite Z.gtb_ltb, (proj2 (Z.ltb_ge _ _)) by (cbn; lia).
  eexists. split; [done|]. split; [done|]. cbn. lia.
Qed.

(** What a request with a consensus context gets: a refusal unless the service is ready, and unless
    the state reference of the height has every value that is pinned. *)
Definition admitted (rd : PassReadinessInfo) : bool := negb (pi_rpc_alive rd) || pi_consensus_ready rd.
Definition pinned_reply {A} (expected : ConsensusStateReference) (h : u32) (reply : RpcError + A) : RpcError + A :=
  if is_empty expected then reply
  else match recorded_state_ref h with
       | inl e => inl e
       | inr r => match first_refusal (mismatches expected r) with inl e => inl e | inr _ => reply end
       end.
Definition contextual_reply {A} (rd : PassReadinessInfo) (expected : ConsensusStateReference) (h : u32)
    (reply : RpcError + A) : RpcError + A :=
  if admitted rd then pinned_reply expected h reply else inl (Consensus SnapshotNotReady no_data).

Lemma ready_run rd o s : (readiness_info s).1 = Ok (inr rd) → admitted rd = true →
  ∃ s', ensure_consensus_query_ready o s = (Ok (inr tt), s') ∧ later s s'.
Proof.
  intros Er Ha. pose proof (quiet_later readiness_info s quiet_readiness) as L.
  unfold ensure_consensus_query_ready. destruct (readiness_info s) as [r s1] eqn:E. cbn in Er, L. subst r.
  rewrite (rbind_run _ _ _ _ _ E). unfold admitted in Ha. rewrite Ha. by exists s1.
Qed.
Lemma not_ready_run rd o s : (readiness_info s).1 = Ok (inr rd) → admitted rd = false →
  ∃ d s', ensure_consensus_query_ready o s = (Ok (inl (Consensus SnapshotNotReady d)), s').
Proof.
  intros Er Ha. unfold ensure_consensus_query_ready. destruct (readiness_info s) as [r s1] eqn:E. cbn in Er. subst r.
  rewrite (rbind_run _ _ _ _ _ E). unfold admitted in Ha. rewrite Ha.
  assert (∀ detail, refuses (A := unit) SnapshotNotReady
    (let& current := current_state_or_none in refuse SnapshotNotReady (pass_error_data o current (Some detail)))) as R.
  { intros detail. apply refuses_bind; [apply sound_current_or_none|]. intros c. apply refuses_refuse, sound_error_data. }
  destruct (R "requires consensus_ready=true"%string) as [_ Hd]. destruct (Hd s1) as [d Ed]. exists d.
  destruct (rbind _ _ s1) as [r s2]. cbn in Ed. subst r. by exists s2.
Qed.

(** The pinned check in front of a computation at the height. *)
Lemma gives_pinned {A} h expected (m : Rpc A) reply : h <= T → gives m reply →
  gives (if is_empty expected then m
         else let& state_ref := build_historical_state_ref_info h in
              let& _ := validate_pass_state_ref h state_ref expected in m)
        (pinned_reply expected h reply).
Proof.
  intros Hh Hm. unfold pinned_reply. destruct (is_empty expected); [done|].
  pose proof (gives_state_ref h Hh) as Gr. destruct (recorded_state_ref h) as [e|r]; [by apply gives_bind_err|].
  eapply gives_bind; [exact Gr|]. pose proof (gives_validate T t0 e0 h r expected) as Gv.
  destruct (first_refusal _) as [e|[]]; [by apply gives_bind_err|]. by eapply gives_bind.
Qed.
Lemma contextual_run {A} h context rd (k : u32 → Rpc A) reply s :
  settled T t0 e0 s → anchored s → h <= T → context_height (Some context) ∈ [None; Some h] →
  (readiness_info s).1 = Ok (inr rd) → gives (k h) reply →
  answer (rbind (resolve_height_for_contextual_query (Some h) (Some context)) k s).1
  = Ok (contextual_reply rd (cx_expected_state context) h reply).
Proof.
  intros St An Hh Hc Er Hk. unfold resolve_height_for_contextual_query, contextual_reply.
  assert (match context_height (Some context), Some h with Some c, Some x => negb (x =? c) | _, _ => false end = false) as ->.
  { rewrite !elem_of_cons, elem_of_nil in Hc. destruct Hc as [->|[->|[]]]; cbn; [done|]. by rewrite Z.eqb_refl. }
  cbn [or_height]. destruct (admitted rd) eqn:Ea.
  2:{ destruct (not_ready_run rd (Some h) s Er Ea) as (d & s1 & E1). unfold rbind, bind. by rewrite E1. }
  destruct (ready_run rd (Some h) s Er Ea) as (s1 & E1 & L1).
  pose proof (settled_later _ _ St L1) as St1. pose proof (anchored_later _ _ An L1) as An1.
  destruct (resolve_pinned_run h s1 St1 An1 Hh) as (s2 & E2 & L2). pose proof (settled_later _ _ St1 L2) as St2.
  destruct (gives_pinned h (cx_expected_state context) (k h) reply Hh Hk s2 St2) as [<- _].
  unfold rbind, bind at 1. unfold bind at 1. rewrite E1. unfold bind at 1. rewrite E2.
  destruct (is_empty _); [done|]. unfold bind.
  destruct (build_historical_state_ref_info h s2) as [[[e|r]|e|e] s3]; try done.
  by destruct (validate_pass_state_ref h r _ s3) as [[[e|[]]|e|e] s4].
Qed.

(** C15. A pass snapshot at a height that the indexer has passed, under a consensus context: what the
    ledger recorded, when the service is ready and its state reference of the height has every value
    that the context pins; the first of the mismatches otherwise, or what kept the reference from
    being built. *)
Theorem pinned_snapshot_correct text i h context rd s :
  settled T t0 e0 s → anchored s → h <= T → rpc_inscription_id_from_str text = Some i →
  context_height (Some context) ∈ [None; Some h] → (readiness_info s).1 = Ok (inr rd) →
  answer (get_pass_snapshot {| gs_inscription_id := text; gs_at_height := Some h; gs_context := Some context |} s).1
  = Ok (contextual_reply rd (cx_expected_state context) h (recorded_snapshot t0 i h)).
Proof.
  intros St An Hh Ei Hc Er. unfold get_pass_snapshot. cbn [gs_inscription_id gs_at_height gs_context].
  assert (parse_inscription_id text s = (Ok (inr i), s)) as Ep by (unfold parse_inscription_id; by rewrite Ei).
  rewrite (rbind_run _ _ _ _ _ Ep). apply contextual_run; try done. by apply (gives_recorded _ _ _ HS).
Qed.
End Reference.
End Pins.

(** ** Two nodes *)

Section Nodes.
Context `{BitcoinCrate} {BL : BitcoinCrateLaws} `{IdText} `{RpcTexts}.

(** The values that the state reference identifies fit the inputs of the hasher. *)
Definition wf_reference (r : HistoricalStateRefInfo) : Prop :=
  wf_snapshot_identity (is_consensus_identity (hr_snapshot_info r))
  ∧ wf_local_identity (li_local_state_identity (hr_local_state_commit_info r)).

Section Node.
Context `{PassConfig} (t0 : Tables).

Lemma recorded_ref_id h r : recorded_state_ref t0 h = inr r →
  st_system_state_id (hr_system_state_info r)
  = state_id (is_consensus_identity (hr_snapshot_info r)) (li_local_state_identity (hr_local_state_commit_info r)).
Proof.
  unfold recorded_state_ref. destruct (h <? _); [done|]. destruct (t_anchors t0 !! h) as [anchor|]; [|done].
  destruct (get_active_balance_snapshot h t0).1 as [[balance|]|e|e]; [|done..]. by intros [= <-].
Qed.
Lemma pinned_system_state {A} rd expected h (reply : RpcError + A) a v :
  contextual_reply t0 rd expected h reply = inr a → rf_system_state_id expected = Some v →
  ∃ r, recorded_state_ref t0 h = inr r ∧ st_system_state_id (hr_system_state_info r) = v.
Proof.
  unfold contextual_reply, pinned_reply. destruct (admitted rd); [|done]. intros E Ev.
  assert (is_empty expected = false) as Ee by (unfold is_empty; rewrite Ev; apply andb_false_r). rewrite Ee in E.
  destruct (recorded_state_ref t0 h) as [e|r]; [done|]. exists r. split; [done|].
  destruct (mismatches expected r) as [|code codes] eqn:Em; [clear E|done].
  unfold mismatches in Em. cbv zeta in Em. rewrite !app_nil, Ev in Em. destruct_and! Em.
  unfold differs in *. by case_bool_decide.
Qed.
End Node.

(** A state that a node serves at [h], with the system state id [v] that a caller pins. *)
Definition serves_pinned (v : string) (h : u32) (C : PassConfig) (t0 : Tables) : Prop :=
  ∃ T e0 s text i context rd o,
    height_stores T t0 e0 ∧ settled T t0 e0 s ∧ anchored s ∧ h <= T
    ∧ rpc_inscription_id_from_str text = Some i ∧ context_height (Some context) ∈ [None; Some h]
    ∧ (readiness_info s).1 = Ok (inr rd) ∧ rf_system_state_id (cx_expected_state context) = Some v
    ∧ (get_pass_snapshot {| gs_inscription_id := text; gs_at_height := Some h; gs_context := Some context |} s).1
      = Ok (inr o).
Lemma serves_pinned_ref v h C t0 : serves_pinned v h C t0 →
  ∃ r, recorded_state_ref t0 h = inr r ∧ st_system_state_id (hr_system_state_info r) = v.
Proof.
  intros (T & e0 & s & text & i & context & rd & o & HS & St & An & Hh & Ei & Hc & Er & Ev & E).
  unfold get_pass_snapshot in E. cbn [gs_inscription_id gs_at_height gs_context] in E.
  assert (parse_inscription_id text s = (Ok (inr i), s)) as Ep by (unfold parse_inscription_id; by rewrite Ei).
  rewrite (rbind_run _ _ _ _ _ Ep) in E.
  epose proof (contextual_run T t0 e0 h context rd
    (λ h, let& _ := ensure_history_height_retained h in build_pass_snapshot i h) _ s
    St An Hh Hc Er (gives_recorded T t0 e0 HS i h Hh)) as Ea.
  rewrite E in Ea. injection Ea as Ea. by eapply pinned_system_state.
Qed.

(** The texts hashed for the system state id of a reference. *)
Definition reference_inputs (r : HistoricalStateRefInfo) : list (list Z) :=
  state_inputs (is_consensus_identity (hr_snapshot_info r)) (li_local_state_identity (hr_local_state_commit_info r)).

(** C17. Two nodes, each configured on its own, that answer a query pinned to one system state id at a
    height: each has a state reference of the height with this id, and where SHA-256 tells apart the
    texts hashed for the two references, they are of one balance-history snapshot and of one local
    state, with the same latest pass commit and the same active-balance snapshot. *)
Theorem pinned_nodes_agree v h C1 C2 t1 t2 :
  serves_pinned v h C1 t1 → serves_pinned v h C2 t2 →
  ∃ r1 r2, @recorded_state_ref _ C1 t1 h = inr r1 ∧ @recorded_state_ref _ C2 t2 h = inr r2
    ∧ st_system_state_id (hr_system_state_info r1) = v ∧ st_system_state_id (hr_system_state_info r2) = v
    ∧ (wf_reference r1 → wf_reference r2 → tells_apart (reference_inputs r1 ++ reference_inputs r2) →
       is_consensus_identity (hr_snapshot_info r1) = is_consensus_identity (hr_snapshot_info r2)
       ∧ li_local_state_identity (hr_local_state_commit_info r1)
         = li_local_state_identity (hr_local_state_commit_info r2)).
Proof.
  intros S1 S2. destruct (serves_pinned_ref _ _ _ _ S1) as (r1 & E1 & V1).
  destruct (serves_pinned_ref _ _ _ _ S2) as (r2 & E2 & V2). exists r1, r2. split_and!; [done..|].
  intros [W1 L1] [W2 L2] D. rewrite (recorded_ref_id _ _ _ E1) in V1. rewrite (recorded_ref_id _ _ _ E2) in V2.
  by apply (state_id_inj _ _ _ _ W1 W2 L1 L2 D (eq_trans V1 (eq_sym V2))).
Qed.
End Nodes.

(** ** Witnesses

    Two nodes, one at height 100 and one at 101, that differ in their configuration, and a caller that
    pins the system state of height 100. *)

#[local] Existing Instances demo_crate char_text char_parsers.
Definition other_config : PassConfig := {|
  cfg_network := "regtest"; cfg_genesis_block_height := 60; cfg_active_address_page_size := 8;
  cfg_leaderboard_cache_enabled := false; cfg_leaderboard_cache_top_k := 100
|}.
Definition pinned_id : string :=
  match @recorded_state_ref _ demo_config stores100 100 with
  | inr r => st_system_state_id (hr_system_state_info r)
  | inl _ => ""
  end.
Definition pinning : ConsensusQueryContext :=
  {| cx_requested_height := Some 100; cx_expected_state := with_local_state None (Some pinned_id) default_reference |}.

Lemma adopted_readable h t status e : 0 <= h →
  anchor_readable {| mo_tables := adopt h t; mo_energy_db := e; mo_status := status |}.
Proof.
  intros Hh. destruct (adopted_read (demo_anchor h) {| mo_tables := adopt h t; mo_energy_db := e; mo_status := status |})
    as (hash & commit & _ & _ & []); [by exists t|]. by exists h, hash, commit, 6, "1.0.0"%string, "sha256"%string.
Qed.
Lemma rest_anchored : anchored rest100 ∧ anchored rest101.
Proof. split; intros n _; by apply adopted_readable. Qed.
Lemma rest101_settled : settled 100 stores100 energy100 rest101.
Proof. intros n _. apply seen101. Qed.

Lemma pinned_snapshot_correct_witness : ∃ rd,
  (@readiness_info _ demo_config rest101).1 = Ok (inr rd) ∧ admitted rd = true
  ∧ answer (@get_pass_snapshot _ _ _ demo_config
      {| gs_inscription_id := char_of 5; gs_at_height := Some 100; gs_context := Some pinning |} rest101).1
    = Ok (@contextual_reply _ demo_config stores100 _ rd (cx_expected_state pinning) 100
            (@recorded_snapshot _ demo_config stores100 (pass_id 5) 100)).
Proof.
  assert (∃ rd, (@readiness_info _ demo_config rest101).1 = Ok (inr rd) ∧ admitted rd = true) as (rd & Er & Ea)
    by (eexists; split; [vm_compute; reflexivity|reflexivity]).
  exists rd. split; [exact Er|]. split; [exact Ea|].
  apply (@pinned_snapshot_correct _ _ _ demo_config 100 stores100 energy100 stores100_heights);
    [apply rest101_settled|apply rest_anchored|lia|reflexivity|apply elem_of_cons; right; by apply elem_of_cons; left|exact Er].
Defined.

Lemma serves_at C s : settled 100 stores100 energy100 s → anchored s →
  (∃ rd, (@readiness_info _ C s).1 = Ok (inr rd)) →
  (∃ o, (@get_pass_snapshot _ _ _ C
     {| gs_inscription_id := char_of 5; gs_at_height := Some 100; gs_context := Some pinning |} s).1 = Ok (inr o)) →
  serves_pinned pinned_id 100 C stores100.
Proof.
  intros St An [rd Er] [o Eo].
  exists 100, energy100, s, (char_of 5), (pass_id 5), pinning, rd, o.
  split_and!; [apply stores100_heights|done|done|lia|done| |done|done|done].
  apply elem_of_cons. right. by apply elem_of_cons; left.
Qed.
Lemma pinned_nodes_agree_witness : ∃ r1 r2,
  @recorded_state_ref _ demo_config stores100 100 = inr r1 ∧ @recorded_state_ref _ other_config stores100 100 = inr r2
  ∧ is_consensus_identity (hr_snapshot_info r1) = is_consensus_identity (hr_snapshot_info r2)
  ∧ li_local_state_identity (hr_local_state_commit_info r1) = li_local_state_identity (hr_local_state_commit_info r2).
Proof.
  destruct (@pinned_nodes_agree _ demo_crate_laws _ _ pinned_id 100 demo_config other_config stores100 stores100)
    as (r1 & r2 & E1 & E2 & _ & _ & H).
  - apply (serves_at demo_config rest100); [apply rest100_settled|apply rest_anchored|..];
      eexists; vm_compute; reflexivity.
  - apply (serves_at other_config rest101); [apply rest101_settled|apply rest_anchored|..];
      eexists; vm_compute; reflexivity.
  - exists r1, r2. split; [exact E1|]. split; [exact E2|]. vm_compute in E1, E2.
    injection E1 as <-. injection E2 as <-.
    apply H; [| |apply distinct_digests_sound; vm_compute; reflexivity]; split; split.
    all: try (intros x [= <-]; split_and!).
    all: repeat constructor; by vm_compute.
Defined.
