(* ===== verification/PassReadiness.v ===== *)
(** * What the service says of the current state

    Readiness: what [get_readiness] calls ready for consensus and what blocks it.  The adopted
    snapshot: what a request sees of it while the indexer adopts the next one. *)

From S2P Require Import Prelude Encoding Types EnergyFormula EnergyStorage Energy PassStorage PassLedger.
From S2P Require Import Pass Tx BalanceBlock BalanceDemo StateIds BalanceService BalanceServer PassService PassServer.
From S2P Require Import PassAsOf PassAnswers PassDemo PassReplies PassLeaderboard PassPins.

Lemma rbind_ok {A B} (m : Rpc A) (f : A → Rpc B) s b :
  (rbind m f s).1 = Ok (inr b) → ∃ a s', m s = (Ok (inr a), s') ∧ (f a s').1 = Ok (inr b).
Proof. unfold rbind, bind. destruct (m s) as [[[e|a]|e|e] s1]; cbn; [done| |done|done]. intros E. by exists a, s1. Qed.
Lemma when_no_blocker {A} b (a : A) : when b a = [] ↔ b = false.
Proof. by destruct b. Qed.
Lemma no_blockers (l : list PassReadinessBlocker) : match l with [] => true | _ => false end = true ↔ l = [].
Proof. by destruct l. Qed.

Section Readiness.
Context `{BitcoinCrate} `{IdText} `{RpcTexts} `{PassConfig}.

(** The height and the upstream height that a readiness reports, when they are in step. *)
Definition in_step (r : PassReadinessInfo) : Prop :=
  ∃ h, pi_synced_block_height r = Some h
  ∧ ∃ u, pi_balance_history_stable_height r = Some u ∧ u <= h.

(** The service is ready for consensus exactly when nothing blocks it; it then serves queries, is
    synced at a height that is not below the one it observes upstream, and names the snapshot, the
    local state and the system state it is at. *)
Theorem pass_readiness_correct s r :
  (get_readiness s).1 = Ok (inr r) →
  (pi_consensus_ready r = true ↔ pi_blockers r = [])
  ∧ (pi_consensus_ready r = true →
     pi_rpc_alive r = true ∧ pi_query_ready r = true ∧ in_step r ∧ is_Some (pi_upstream_snapshot_id r)
     ∧ is_Some (pi_local_state_commit r) ∧ is_Some (pi_system_state_id r)).
Proof.
  unfold get_readiness, readiness_info.
  intros (sync & ? & _ & (runtime & ? & _ & (synced & ? & _ & (pending & ? & _ &
    (upstream & ? & _ & (snapshot & ? & _ & (local & ? & El & E)%rbind_ok)%rbind_ok)%rbind_ok)%rbind_ok)%rbind_ok)%rbind_ok)%rbind_ok.
  injection E as <-. cbn [pi_consensus_ready pi_blockers pi_rpc_alive pi_query_ready pi_upstream_snapshot_id
    pi_local_state_commit pi_system_state_id]. unfold in_step. cbn [pi_synced_block_height pi_balance_history_stable_height].
  rewrite !andb_true_iff, !no_blockers, !app_nil, !when_no_blocker, !orb_false_iff.
  destruct synced as [h|], (mjoin snapshot) as [sn|], local as [lo|], upstream as [u|];
    rewrite ?andb_true_iff, ?when_no_blocker; cbn; rewrite ?negb_true_iff, ?negb_false_iff, ?orb_false_iff;
    try (split; [split|]; intros; destruct_and?; discriminate).
  set (observed := match sy_balance_history_stable_height sync with Some _ => _ | None => _ end).
  assert (∃ x, observed = Some x) as [x' ->] by (unfold observed; case_match; eauto).
  split; [split|]; intros; destruct_and?; split_and?; try done; eauto; [by destruct pending..|].
  exists h. split; [done|]. exists x'. split; [done|lia].
Qed.
End Readiness.

(** ** A snapshot that is adopted while it is read *)

Section Adoption.
Context `{BitcoinCrate} `{IdText} `{RpcTexts} `{PassConfig}.

(** The heights of a reply fit their columns. *)
Definition snapshot_heights (a : BalanceHistorySnapshotInfo) : Prop :=
  0 <= bs_stable_height a <= U32_MAX ∧ 0 <= bs_stable_lag a <= U32_MAX.
Lemma adopted_synced a hash commit m : adopted_columns a hash commit m → 0 <= bs_stable_height a <= U32_MAX →
  (get_synced_btc_block_height (mo_tables m)).1 = Ok (Some (bs_stable_height a)).
Proof.
  intros C Wa. unfold get_synced_btc_block_height, get_numeric_state, gets, bind. cbn. rewrite (ac_synced _ _ _ _ C).
  cbn. by rewrite i64_as_u32_id.
Qed.

(** C37. The six columns of the adopted snapshot are read one by one.  When the indexer adopts [b] after the
    first, a request for the current snapshot is answered with the height of [a] and everything else of
    [b], and so with an identifier of neither; it is the adopted snapshot when there is only one. *)
Theorem snapshot_read_race a b s :
  adopted a (here s) → (∀ n, (sv_now s < n)%nat → adopted b (sv_moments s n)) →
  snapshot_heights a → snapshot_heights b →
  ∃ hash commit, bs_stable_block_hash b = Some hash ∧ bs_latest_block_commit b = Some commit
    ∧ (get_snapshot_info s).1 = Ok (inr (Some (indexer_snapshot_info cfg_network (bs_stable_height b)
        {| stable_height := bs_stable_height a; stable_block_hash := hash; latest_block_commit := commit;
           stable_lag := bs_stable_lag b; commit_protocol_version := bs_commit_protocol_version b;
           commit_hash_algo := bs_commit_hash_algo b |}))).
Proof.
  intros Ha Hb [Wa _] [Wb Wl]. destruct (adopted_read a _ Ha) as (hash_a & commit_a & _ & _ & Ca).
  destruct (adopted_read b _ (Hb (S (sv_now s)) ltac:(lia))) as (hash & commit & Eh & Ec & _).
  exists hash, commit. split_and!; [done..|].
  assert (∀ n, (sv_now s < n)%nat → adopted_columns b hash commit (sv_moments s n)) as Cb.
  { intros n Hn. destruct (adopted_read b _ (Hb n Hn)) as (hash' & commit' & Eh' & Ec' & C). 
    by assert (hash' = hash) as <- by congruence; assert (commit' = commit) as <- by congruence. }
  clear Ha Hb Eh Ec. set (anchor := {| stable_height := bs_stable_height a |}).
  assert (read_anchor s = (Ok (inr (Some anchor)), tick (tick (tick (tick (tick (tick s))))))) as Er.
  { unfold read_anchor.
    assert (storage (get_numeric_state BALANCE_HISTORY_SNAPSHOT_HEIGHT_KEY) s
      = (Ok (inr (Some (bs_stable_height a))), tick s)) as Es
      by (apply (f_equal (λ o, (Ok (inr o), tick s)) (ac_height _ _ _ _ Ca))).
    assert (∀ n, adopted_columns b hash commit (sv_moments s (S n + sv_now s)%nat)) as Cn by (intros n; apply Cb; lia).
    rewrite (rbind_run _ _ _ _ _ Es), (proj2 (Z.ltb_ge _ _)) by lia.
    rewrite (text_run _ _ _ (tick s) _ (ac_hash _ _ _ _ (Cn 0%nat))).
    rewrite (text_run _ _ _ (tick (tick s)) _ (ac_commit _ _ _ _ (Cn 1%nat))).
    rewrite (numeric_run _ _ _ (tick (tick (tick s))) _ (ac_lag _ _ _ _ (Cn 2%nat))).
    rewrite (proj2 (Z.ltb_ge _ _)) by lia.
    rewrite (text_run _ _ _ (tick (tick (tick (tick s)))) _ (ac_version _ _ _ _ (Cn 3%nat))).
    rewrite (text_run _ _ _ (tick (tick (tick (tick (tick s))))) _ (ac_algo _ _ _ _ (Cn 4%nat))).
    unfold anchor. by rewrite !i64_as_u32_id by lia. }
  set (s6 := tick (tick (tick (tick (tick (tick s)))))).
  pose proof (synced_height_run _ s6 (adopted_synced _ _ _ _ (Cb (sv_now s6) ltac:(cbn; lia)) Wb)) as Ey.
  assert (upstream_snapshot_info s
    = (Ok (inr (Some (indexer_snapshot_info cfg_network (bs_stable_height b) anchor))), tick s6)) as Eu
    by (unfold upstream_snapshot_info; by rewrite (rbind_run _ _ _ _ _ Er); cbv iota; rewrite (rbind_run _ _ _ _ _ Ey)).
  unfold get_snapshot_info, require_upstream_snapshot_info.
  by rewrite (rbind_run _ _ _ _ _ (eq_trans (rbind_run _ _ _ _ _ Eu) eq_refl)).
Qed.
End Adoption.

(** ** Witnesses *)

#[local] Existing Instances demo_crate char_text char_parsers demo_config.

Lemma pass_readiness_correct_witness : ∃ r, (get_readiness rest100).1 = Ok (inr r)
  ∧ pi_consensus_ready r = true
  ∧ (pi_consensus_ready r = true ↔ pi_blockers r = [])
  ∧ (pi_consensus_ready r = true →
     pi_rpc_alive r = true ∧ pi_query_ready r = true ∧ in_step r ∧ is_Some (pi_upstream_snapshot_id r)
     ∧ is_Some (pi_local_state_commit r) ∧ is_Some (pi_system_state_id r)).
Proof.
  assert (∃ r, (get_readiness rest100).1 = Ok (inr r) ∧ pi_consensus_ready r = true) as (r & E & Ec)
    by (eexists; split; [vm_compute; reflexivity|reflexivity]).
  exists r. split; [exact E|]. split; [exact Ec|]. apply (pass_readiness_correct rest100 r E).
Defined.

(** Snapshot 101 is adopted after the height of snapshot 100 has been read. *)
Definition adopting : PassServer := server_at (λ n, if (n <? 1)%nat then moment100 else moment101).
Lemma snapshot_read_race_witness : ∃ hash commit,
  bs_stable_block_hash (demo_anchor 101) = Some hash ∧ bs_latest_block_commit (demo_anchor 101) = Some commit
  ∧ (get_snapshot_info adopting).1 = Ok (inr (Some (indexer_snapshot_info cfg_network (bs_stable_height (demo_anchor 101))
      {| stable_height := bs_stable_height (demo_anchor 100); stable_block_hash := hash; latest_block_commit := commit;
         stable_lag := bs_stable_lag (demo_anchor 101);
         commit_protocol_version := bs_commit_protocol_version (demo_anchor 101);
         commit_hash_algo := bs_commit_hash_algo (demo_anchor 101) |}))).
Proof.
  apply (snapshot_read_race (demo_anchor 100) (demo_anchor 101) adopting).
  - eexists. reflexivity.
  - intros n Hn. unfold adopting, server_at in *. cbn [sv_moments sv_now] in *.
    destruct n as [|n]; [lia|]. eexists. reflexivity.
  - unfold snapshot_heights, U32_MAX. cbn. lia.
  - unfold snapshot_heights, U32_MAX. cbn. lia.
Defined.
