(* ===== verification/LiveReplies.v ===== *)
(** * The service beside the indexer

    The composition of [sync_blocks] ([index/indexer.rs]) and the query service
    ([service/server.rs]): the service answers while blocks are synchronised, from the connection that
    they are written through, so that an access may fall between two blocks or inside one. *)

From S2P Require Import Prelude Encoding Types EnergyFormula EnergyStorage Energy PassStorage PassLedger PassCommit Pass.
From S2P Require Import Tx Transfer Content BlockEvents BalanceLoader BalanceMonitor InscriptionSource.
From S2P Require Import BlockFrame BlockSync BlockAtomicity StoreAgreement SyncInvariant Reorg ReorgRecovery.
From S2P Require Import BalanceBlock BalanceDemo StateIds BalanceService BalanceServer PassService PassServer.
From S2P Require Import PassAsOf PassAnswers PassDemo PassReplies.

Section Live.
Context {BP : BalanceProvider} {Laws : BalanceProviderLaws} {IT : IdText} {CE : ContentEnv}
  {BN : BitcoinNode} {CH : CommitHash} {SRC : InscriptionSource} {SL : InscriptionSourceLaws}
  {LD : BalanceRpcLoader} {SE : SyncEnv} {ROWS : BalanceRows}.
Context `{BitcoinCrate} `{RpcTexts} {TL : RpcTextsLaws} `{PassConfig}.

Abbreviation tables_of s := (pm_tables (miner_pass_manager s)).
Abbreviation energy_of s := (pm_energy (miner_pass_manager s)).

(** What an access can see while the blocks [first] to [last] are synchronised from [s0]: the stores
    between two blocks, or inside a block, where the pass store and the energy store have been changed
    by any statements that a block makes at its height (a row of a pass without its event included);
    [block_statements]: a block is a sequence of such statements, however it ends. *)
Inductive indexing (first last : u32) (s0 : InscriptionIndexer) : PassMoment → Prop :=
  | ix_between k n s status :
      first - 1 <= k <= last → sync_loop first k s0 = (Ok n, s) →
      indexing first last s0 {| mo_tables := tables_of s; mo_energy_db := energy_of s; mo_status := status |}
  | ix_within k n s t e status :
      first - 1 <= k < last → sync_loop first k s0 = (Ok n, s) →
      rtc (pass_statement (k + 1)) (tables_of s) t → rtc (energy_statement (k + 1)) (energy_of s) e →
      indexing first last s0 {| mo_tables := t; mo_energy_db := e; mo_status := status |}.

(** The stores of a synchronised state are stores of its height. *)
Lemma synced_stores n s : 0 <= n → synced n s → height_stores n (tables_of s) (energy_of s).
Proof.
  intros Hn [R _ _]. pose proof (rd_ledger _ _ R) as L. replace (n + 1 - 1) with n in L by lia.
  split; [done|pose proof (rd_height _ _ R); lia| |apply R].
  intros r Hr. destruct (lk_event _ _ L r Hr) as (p & Hp & _). by apply (rd_ids _ _ R).
Qed.
Lemma synced_reported n s : 0 < n → synced n s →
  (get_synced_btc_block_height (tables_of s)).1 = Ok (Some n).
Proof.
  intros Hn [R _ _]. pose proof (rd_synced _ _ R) as E. unfold BlockAtomicity.synced_height in E.
  destruct (get_synced_btc_block_height _).1 as [[x|]|e|e]; cbn in E; [do 2 f_equal; lia|lia..].
Qed.

(** The synced height that the tables report. *)
Definition reports (T : u32) (t : Tables) : Prop :=
  ∃ h, (get_synced_btc_block_height t).1 = Ok (Some h) ∧ T <= h.
Lemma statement_reports T h t t' :
  T <= h <= U32_MAX → 0 <= h → reports T t → pass_statement h t t' → reports T t'.
Proof.
  intros HT Hh Hr St. assert (t_state t' = t_state t ∨ t' = (update_synced_btc_block_height h t).2) as [E| ->].
  { destruct St as [p Hp|i o sp|i sp sp'|i st st'| | | |]; cbn; auto; left;
      unfold insert_pass_record, transfer_owner, update_satpoint, update_state, update_pass_row, write_pass_row;
      by repeat case_match. }
  - destruct Hr as (n & Hn & Hle). exists n. split; [|done]. rewrite <-Hn.
    unfold get_synced_btc_block_height, get_numeric_state, gets, bind. rewrite E. by repeat case_match.
  - exists h. split; [|lia]. unfold get_synced_btc_block_height, get_numeric_state, gets, bind. cbn.
    by rewrite lookup_insert_eq; cbn; rewrite i64_as_u32_id by lia.
Qed.

(** The statements of a block leave a lower height as it was. *)
Lemma pass_statements_keep T h t0 t t' :
  T < h <= U32_MAX → 0 <= h → rtc (pass_statement h) t t' → undoable T t0 t → reports T t →
  undoable T t0 t' ∧ reports T t'.
Proof.
  intros HT Hh. induction 1 as [t|t t1 t' St _ IH]; intros U Hr; [done|].
  apply IH; [by apply (pass_statement_keeps T h t0 t); [lia|..]|by apply (statement_reports T h t); [lia|..]].
Qed.
Lemma energy_statements_keep T h e e' :
  T < h <= U32_MAX → 0 < h → rtc (energy_statement h) e e' → wf_db e →
  wf_db e' ∧ ∀ k, k.2 <= T → pass_energy_cf e' !! k = pass_energy_cf e !! k.
Proof.
  intros HT Hh. induction 1 as [e|e e1 e' St _ IH]; intros W; [done|].
  destruct (energy_statement_keeps T h e e1 HT Hh W St) as [W1 K1]. destruct (IH W1) as [W' K']. split; [done|].
  intros k Hk. by rewrite K', K1.
Qed.

Lemma indexing_seen first last s0 m :
  1 < first → synced (first - 1) s0 → range_env first last s0 → indexing first last s0 m →
  seen (first - 1) (tables_of s0) (energy_of s0) m.
Proof.
  intros Hf Y En M.
  assert (∀ k n s, first - 1 <= k <= last → sync_loop first k s0 = (Ok n, s) →
    synced k s ∧ extends (first - 1) s0 s ∧ reports (first - 1) (tables_of s) ∧ wf_db (energy_of s)) as Run.
  { intros k n s Hk E. destruct (sync_loop_run first s0 k (Ok n) s Y (range_env_prefix first last k s0 En (proj2 Hk)) (proj1 Hk) E)
      as (Yk & X & _). split_and!; [done..| |apply Yk]. exists k. split; [by apply synced_reported; [lia|]|lia]. }
  pose proof (re_last _ _ _ En) as Hlast.
  destruct M as [k n s status Hk E|k n s t e status Hk E St Se];
    destruct (Run k n s ltac:(lia) E) as (Yk & [Xt Xe] & Hr & W).
  - by split.
  - destruct (pass_statements_keep (first - 1) (k + 1) (tables_of s0) _ t ltac:(lia) ltac:(lia) St Xt Hr) as [U' R'].
    destruct (energy_statements_keep (first - 1) (k + 1) _ e ltac:(lia) ltac:(lia) Se W) as [W' K'].
    split; [done| |done|done]. intros key Hkey. cbn. rewrite K' by done. by apply Xe.
Qed.

(** The stores in which the next block ends, however it ends, are among them. *)
Lemma block_moments first last s0 k n s status :
  1 < first → synced (first - 1) s0 → range_env first last s0 →
  first - 1 <= k < last → sync_loop first k s0 = (Ok n, s) →
  let s' := (sync_block (k + 1) s).2 in
  indexing first last s0 {| mo_tables := tables_of s'; mo_energy_db := energy_of s'; mo_status := status |}.
Proof.
  intros Hf Y En Hk E s'.
  destruct (sync_loop_run first s0 k (Ok n) s Y (range_env_prefix first last k s0 En ltac:(lia)) (proj1 Hk) E) as (Yk & _).
  destruct (block_statements (k + 1) s (sy_ready _ _ Yk)). by eapply ix_within.
Qed.

(** C2. Synchronising blocks does not change what the service has said: a request about a height below
    the first block of the range is answered, at whatever moments of the range its accesses fall,
    between two blocks or between two statements of a block, as it was answered before the range from
    the stores at rest; provided that the blocks of the range skip no zero-delta row of the owner of an
    active pass ([no_skipped_row], a condition of [range_env]) and the event log fits the paged
    queries.  A skipped row is recorded at its own height by a later update of the pass, and then a
    reply about that height does change. *)
Theorem replies_survive_sync first last s0 h q before during :
  1 < first → synced (first - 1) s0 → range_env first last s0 →
  0 <= h < first → unsigned_request q →
  (∀ n, mo_tables (sv_moments before n) = tables_of s0 ∧ mo_energy_db (sv_moments before n) = energy_of s0) →
  (∀ n, (sv_now during <= n)%nat → indexing first last s0 (sv_moments during n)) →
  ∃ r, answer (serve h q before).1 = Ok r ∧ answer (serve h q during).1 = Ok r.
Proof.
  intros Hf Y En Hh Hq Hb Hd. pose proof (synced_stores (first - 1) s0 ltac:(lia) Y) as HS.
  destruct (steady_serve (first - 1) _ _ HS h ltac:(lia) q Hq) as (v & _ & Hv). exists v. split; apply Hv.
  - intros n _. destruct (Hb n) as [Et Ee]. destruct (extends_refl _ _ Y) as [Xt _].
    split; rewrite ?Et, ?Ee; [done|done|apply HS|]. exists (first - 1). split; [by apply synced_reported; [lia|]|lia].
  - intros n Hn. by apply (indexing_seen first last); [| | |apply Hd].
Qed.
End Live.

(** ** Witness

    The statistics at height 11, asked before blocks 12 and 13 are synchronised and while they are: the
    first access falls on the stores of height 11, the second inside block 12 after the pass has become
    dormant and before the event of that is in the log, the later ones on the stores of height 13. *)

#[local] Existing Instances BalanceMonitor.demo_text sync_node sync_content sync_source sync_source_laws sync_hash
  range_provider range_provider_laws range_loader range_rows range_chain demo_crate char_parsers
  char_parsers_laws demo_config.

Definition stores_moment (s : InscriptionIndexer) : PassMoment :=
  {| mo_tables := pm_tables (miner_pass_manager s); mo_energy_db := pm_energy (miner_pass_manager s);
     mo_status := ready_status 11 |}.
Definition before_12 : PassServer := server_at (λ _, stores_moment at_11).
Definition inside_12 : PassMoment :=
  {| mo_tables := (update_state {| txid := 9; index := 0 |} Dormant Active (pm_tables (miner_pass_manager at_11))).2;
     mo_energy_db := (put_pending_block_height (Some 12) (pm_energy (miner_pass_manager at_11))).2;
     mo_status := ready_status 11 |}.
Definition during_12 : PassServer :=
  server_at (λ n, if (n <? 1)%nat then stores_moment at_11
                  else if (n <? 2)%nat then inside_12 else stores_moment at_13).

Lemma replies_survive_sync_witness :
  pass_state (mo_tables inside_12) {| txid := 9; index := 0 |} = Some Dormant
  ∧ ∃ r, answer (serve 11 RqPassStats before_12).1 = Ok r ∧ answer (serve 11 RqPassStats during_12).1 = Ok r.
Proof.
  split; [by vm_compute|].
  apply (replies_survive_sync 12 13 at_11);
    [lia|apply at_11_synced|apply at_11_env|lia|exact I|intros n; split; reflexivity|].
  intros n _. unfold during_12, server_at. cbn [sv_moments]. destruct (n <? 1)%nat; [|destruct (n <? 2)%nat].
  - apply (ix_between 12 13 at_11 11 12 at_11); [lia|vm_compute; reflexivity].
  - apply (ix_within 12 13 at_11 11 12 at_11); [lia|vm_compute; reflexivity|apply rtc_once, ps_state|
      apply rtc_once, es_pending].
  - apply (ix_between 12 13 at_11 13 13 at_13); [lia|vm_compute; reflexivity].
Defined.
